(* ===== verification/_CoqProject ===== *)
-Q . S2P
Prelude.v
Mem.v
Sds.v
SdsFacts.v
SdsText.v
SdsTextFacts.v
SdsSplit.v
SdsCorrect.v
Reply.v
Reader.v
ReaderSpec.v
ReaderRefine.v
ReaderStream.v
ReaderView.v
Streaming.v
ReplyTree.v
ReaderDefault.v
Resp.v
Format.v
FormatFacts.v
FormatSpec.v
RoundTrip.v
Session.v
ReaderSafe.v
ReaderCorrect.v
FormatCorrect.v
Dict.v
DictFacts.v
DictRep.v
DictOps.v
DictCorrect.v
System.v
Context.v
ContextFacts.v
Peer.v
ContextCorrect.v
Net.v
Connect.v
NetFacts.v
NetCorrect.v
Callbacks.v
Async.v
AsyncFacts.v
AsyncCommand.v
AsyncReplies.v
AsyncDeliver.v
AsyncCorrect.v
AsyncRelease.v
StdMap.v
Timers.v
TimersCorrect.v
Tasks.v
TasksFacts.v
TasksInv.v
TasksLive.v
TasksStart.v
TasksHeart.v
TasksCorrect.v
TasksHistory.v
Worker.v
WorkerFacts.v
WorkerRun.v
WorkerSteps.v
WorkerInvariant.v
WorkerCorrect.v
WorkerReconnect.v
ConnManager.v
ConnFacts.v
ConnOps.v
ConnRuns.v
ConnCorrect.v
Tcp.v
TpktCorrect.v
Loops.v
TcpServer.v
TcpCorrect.v
PubSub.v
Adapters.v
AdaptersCorrect.v
Services.v
