(* ===== verification/Prelude.v ===== *)
(** * A model of DBwrapper

    The program talks to a redis server. It is made of worker tasks, threads
    that receive messages on a queue, which a manager task starts and watches
    (C++, under src/include/task_base and src/src/task_base); of the task that
    sends redis commands and the client that gives it messages
    (src/include/adapter/redis, src/src/adapter/redis); of hiredis, which is
    part of its sources (src/src/adapter/redis/hiredis, with headers in
    src/include/adapter/redis/hiredis); of templates for pools of connections
    (src/include/connManager); and of translib, timers, loops, TCP and HTTP over
    libevent (src/src/translib, src/include/translib). This development models them, file
    by file, and proves what their parts promise each other.

    ** The parts of the program and how they interact

    A client builds a message and gives it to [send2task] with the name of a
    task. The task has two queues and an eventfd: the sender puts the message
    in the incoming queue and writes the eventfd; the thread of the task reads
    the eventfd, swaps the queues and handles what it took. The manager sends
    each task a heartbeat request on a timer of its own, expects the answer
    before the next one, and restarts a task after two rounds without. Timers
    (translib) are objects over the timers of libevent; a timer manager keeps
    them in a map by identifier.

    The redis worker is such a task. Told to connect, it makes an asynchronous
    context of hiredis and attaches it to its loop of libevent; a request, put
    together by the client, becomes a command on that context, and the callback
    that came with the request is called with the reply.

    A connection manager keeps pools, and a pool keeps the connections that
    reported to be connected and lends them in turn. Connections report to
    their pool, and an empty pool to the manager, through message buses. The
    service discovery tells the manager which addresses come and go.

    A TCP server of translib has loops in threads of their own: one listens,
    all of them keep sessions, which a loop adds and removes in its frames.
    Sessions and clients are sockets over bufferevents; the TPKT classes send
    messages with their lengths and cut what they receive into messages.

    Inside hiredis, a caller gives a command as a [printf] format or as an array of arguments;
    the formatters of hiredis.c write it in the protocol, into strings of
    sds.c. A connection context (hiredis.c) keeps an output buffer, which is a
    string, and a reader (read.c); it writes the buffer to a descriptor that
    net.c connected, and feeds the reader what it reads from it. The reader is
    an incremental parser: it keeps a stack of tasks, and builds a reply
    through a table of functions; the default table (hiredis.c) links reply
    objects into a tree while it is read. An asynchronous context (async.c)
    extends a context with queues of callbacks and with tables of
    subscriptions (dict.c); an event loop calls it when the descriptor is
    readable or writable, and it runs a callback for each reply. An adapter
    (adapters/*.h) tells one of eight event libraries what the context waits for.

    ** Files

    Shared: this file (the result monad, wrap-around of machine integers,
    tactics, hint databases), [Mem] (bounds-checked bytes, the allocator as a
    class, C strings, decimal text), [System] (system calls as the class [Sys];
    the law classes [Channel], [StreamSocket] and [Descriptors] state what a
    theorem needs of them) and [Peer] (two concrete systems, for instances).

    - sds.c, sds.h: [Sds] (layout, allocation, editing) and [SdsText] (numbers,
      formats, quoting, splitting). [SdsFacts], [SdsTextFacts] and
      [SdsSplit] hold the contracts, [SdsCorrect] the properties: a string
      implements a list of bytes under any sequence of operations within the
      limits; quoting and splitting round-trip; the tests of sds.c, run on the
      model.
    - hiredis.c 52-190 and read.h: [Reply] (reply objects in a store, the
      default functions); [ReplyTree] (replies as trees that own their objects).
    - read.c: [Reader]. [ReaderSpec] is the parser as a function of the unread
      bytes; [ReaderRefine], [ReaderStream] and [ReaderView] show that the code
      computes it; [Streaming] that the cuts of the input do not matter;
      [ReaderDefault] and [ReaderSafe] follow the tree under construction;
      [Resp] and [RoundTrip] are the values of the protocol and their reading,
      [Session] a client, and [ReaderCorrect] the properties: refinement,
      termination, safety and absence of leaks on any input, round trip,
      errors.
    - hiredis.c 192-600: [Format]; [FormatFacts] and [FormatSpec]; the
      properties of [FormatCorrect]: the text written is the encoding of the
      words of the format or of the arguments, and is read back as them.
    - dict.c, dict.h: [Dict]; [DictFacts], [DictRep], [DictOps]; the properties
      of [DictCorrect]: a table refines a finite map, is freed once, and is
      visited once.
    - hiredis.c 600-1024: [Context] and [Connect]; [ContextFacts]; the
      properties of [ContextCorrect]: a blocking client gets the answers of its
      peer, in order, and both loops of [redisGetReply] end; the order of the
      output is kept by every write, failed or partial.
    - net.c: [Net]; [NetFacts]; the properties of [NetCorrect]: a connection
      call leaks no descriptor, on any failure of any call; bounds of timeouts.
    - async.c, async.h: [Callbacks] (the lists of callbacks, a queue) and
      [Async] (everything else, in a state monad). [AsyncFacts]: freeing a
      context; [AsyncCommand]: how a command is recognised and queued;
      [AsyncReplies] and [AsyncDeliver]: the delivery of replies;
      [AsyncRelease]: what each function frees; the properties of [AsyncCorrect]: each callback runs once, with its reply and
      in order, or without one when the context ends; and three runs
      where the code does not do what it means to. [PubSub]: the two tables of
      subscriptions refine two maps from names to callbacks, under any sequence of
      commands and messages.
    - adapters/*.h: [Adapters], with the class that says what a context needs of
      an adapter, and [AdaptersCorrect]: each of the eight implements it, and
      where attaching or dispatching goes wrong. What a library was told
      (descriptor, direction, callback) is part of its state; the property is a
      simulation of what was asked for. The worker keeps two flags of libevent,
      which the property relates to the events that are pending.
    - [StdMap]: [std::map] as a list of pairs in the order of their keys.
    - timer.h, timer.cpp, timerManager.h, timerManager.cpp of translib:
      [Timers]; the properties of [TimersCorrect]: how often a timer calls its
      function and when it frees its event; an audit of the manager deletes the
      timers that are over and no other.
    - task_base.hpp, task_manager.hpp, task_manager.cpp, common.hpp: [Tasks],
      where a step of the system is one piece of the code of a thread, up to
      the next access to what threads share. [TasksFacts] and [TasksInv]: the
      invariant of a system and its preservation by every step, and the order
      of messages; [TasksLive]: a system always gets to rest; [TasksStart]:
      what [init] builds; [TasksHeart]: the invariant of the heartbeat; the
      properties of [TasksCorrect]: messages are handled in the order of their
      sending, each once, all of them when the system is at rest; casts of
      bodies succeed; a task that answers is never restarted, one that does
      not is; [TasksHistory]: what a task has been sent; and three runs
      where the code does not do what it means to.
    - worker_task.hpp, worker_task.cpp, interface.hpp, command.hpp and the
      adapter libevent.h: [Worker]. [WorkerFacts], [WorkerSteps] and
      [WorkerInvariant]: the invariant of a worker, its
      context and its peer; [WorkerRun]: a scheduler and a program that runs;
      the properties of [WorkerCorrect]: every request is answered, each
      callback is called once and in order, and what [put] sends reads back;
      [WorkerReconnect]: the reconnect timer uses memory that was freed.
    - messagebus.h, connManager.h, util.h, serviceDiscovery.h and the class
      template of connInterface.h: [ConnManager]. [ConnFacts] and
      [ConnOps]: the invariant of a manager and each operation; [ConnRuns]: runs
      of calls and reports, and turns; the properties of
      [ConnCorrect]: no run goes wrong, connections are lent in turn, reports
      reach their pool, and which connections never do; and a round of the
      service discovery.
    - tcpSocket, tcpClient, tcpServerTPKT.h and tcpClientTPKT.h of translib:
      [Tcp], with an instance of its class for bufferevents. The
      properties of [TpktCorrect]: messages arrive as they were sent.
      tcpSession, tcpServerDispatcher and tcpServer: [TcpServer]. The
      properties of [TcpCorrect]: which sessions a server finds, and how a
      socket closes.
    - loop.cpp, frameLoop.cpp: [Loops], which computes all
      interleavings of an owner that shuts a loop down and the thread.
    - httpServer.cpp, httpRequest.cpp, eventServer.h, eventClient.h,
      heartbeat.h, logger.hpp and logger.cpp: [Services]; its property: which
      handler answers a request, and with what.

    ** Conventions

    A pointer is a number, 0 for [NULL], where the code shares what it points
    to (replies, entries of tables, nodes of callback lists), each kind in a
    store of its own; it is an option where there is one owner. A record of C
    is a record; a pointer to a C function of the caller is a field of a
    record or, in async.c, a number that the log of events mentions. A
    function returns [Ok] or a [Fault]: an access outside a block, a use of
    [NULL], a failed assertion or, in the model only, the end of its fuel.
    Integers are [Z]; [u64], [s32] and so on wrap where the C type does. A
    function of the model has the name of the C function; a loop or a branch
    of it that is a definition of its own has a name in its comment.

    Fuel bounds loops that are not structural. For the loops of the parser,
    of strings, of the formatters and of tables it is computed from the input
    or from the table, and the properties say that the code returns, so that it
    suffices ([getReply_terminates], [splitargs_safe] and others). Two loops
    of [redisGetReply] depend on the socket; their fuel is an argument, and
    [pipeline_replies] gives a bound for a peer that answers. The loops of
    async.c run at most once per byte of the input, node of the store or entry
    of a table. Callbacks of a client may nest to a given depth.

    ** What is a parameter

    The allocator ([Malloc], [HeapMalloc]) may refuse any request; a theorem
    with the hypothesis that it does not says so. The operating system is the
    class [Sys]. What [printf] writes for one conversion is a function. The
    callbacks of an asynchronous client are a script: from the events so far it
    chooses which functions of the library the callback calls. The event
    library under translib is the class [Libevent]. What a task does with a
    message is the class [Worker], since [on_message] is virtual; theorems that
    need a worker to return use its laws, [WorkerLaws]. What polling finds of
    the sockets is the class [Poll], with the law [PolledSocket]. A pool makes
    connections with the class [Connect], the function that the template of
    connInterface.h leaves to the application; theorems are for one that does
    not report before it returns, [QuietConnect], and the first property of the
    manager says what a failure that is reported at once does. Bufferevents are
    the class [Bufferevent], with what the manual says of them in [BufferLaws].
    Each event library has a class of its functions and one of laws in
    [Adapters] and [AdaptersCorrect]; evhttp is the class [Evhttp]. [Uninit]
    gives the members of a pool that its constructor does not set. Threads are
    scheduled in any order: theorems about tasks hold for every run of [step].

    ** What is not modelled

    The memory of strings, contexts and iterators is not tracked by address,
    so that double frees of these, and leaks of them, are not visible; objects
    of replies, entries of tables, nodes of callback lists, descriptors and
    the asynchronous context itself are tracked. In async.c the copies of
    channel names and callbacks in the tables are values. [callbackKeyCompare] is
    equality for names shorter than 2 GB, which [PubSub] supposes. The examples and
    test.c are left out. The tasks and the map of tasks are as [init] makes
    them: the map is read without a lock, and the program changes it nowhere
    else. The member [_detail_info] of a task, which its constructor does not
    set, is 0 in the model. The calls of a connection manager come one after
    the other: the mutex of its bus protects nothing. A connection of a pool
    lives on after [add_conn], as if its [connect] had kept a pointer to it: its
    destruction is not followed. An event of the worker's loop that goes wrong is
    no step of a run; that none does is a part of the property of the worker. In
    a server of translib the functions that take the mutex of a dispatcher are
    steps. A thread of a loop may leave it at any time, asked or not. Left out:
    tcpServerApp.h, which uses a ring buffer that is not in the sources. The
    calls of the logger inside the other parts are not followed. *)
From stdpp Require Import base list list_numbers strings option gmap numbers.
From Stdlib Require Import ZArith Lia.

Ltac Zify.zify_post_hook ::= Z.to_euclidean_division_equations.

Open Scope Z_scope.

(** ** Faults and the result monad

    A C function of the library either returns ([Ok]) or has undefined or
    aborting behaviour ([Fault]): it reads or writes outside the object a
    pointer points into, dereferences [NULL], or fails an [assert].
    [OutOfFuel] marks a loop cut short by its fuel; the termination theorems
    show that it does not happen. *)
Inductive fault : Type :=
  | OutOfBounds
  | NullDeref
  | AssertFailed
  | OutOfFuel.

Inductive result (A : Type) : Type :=
  | Ok (a : A)
  | Fault (f : fault).
Arguments Ok {A} a.
Arguments Fault {A} f.

#[export] Instance result_ret : MRet result := fun A a => Ok a.
#[export] Instance result_bind : MBind result := fun A B k m =>
  match m with
  | Ok a => k a
  | Fault f => Fault f
  end.
#[export] Instance result_map : FMap result := fun A B k m =>
  match m with
  | Ok a => Ok (k a)
  | Fault f => Fault f
  end.

#[export] Instance fault_eq_dec : EqDecision fault.
Proof. solve_decision. Defined.

(** The C [assert] macro. *)
Definition c_assert (b : bool) : result unit :=
  if b then Ok tt else Fault AssertFailed.

(** Dereferencing a pointer that may be [NULL]. *)
Definition deref {A} (p : option A) : result A :=
  match p with
  | Some a => Ok a
  | None => Fault NullDeref
  end.

Definition is_Ok {A} (m : result A) : Prop := exists a, m = Ok a.

Lemma bind_Ok {A B} (m : result A) (k : A -> result B) b :
  (a ← m; k a) = Ok b <-> exists a, m = Ok a /\ k a = Ok b.
Proof.
  destruct m as [a|f]; simpl; split.
  - eauto.
  - intros (a' & [= <-] & H). done.
  - done.
  - intros (a' & H & _). done.
Qed.

Lemma Ok_inj {A} (a b : A) : Ok a = Ok b -> a = b.
Proof. by intros [= ->]. Qed.

Lemma deref_Ok {A} (p : option A) a : deref p = Ok a <-> p = Some a.
Proof. destruct p; simpl; split; congruence. Qed.

Lemma c_assert_Ok b u : c_assert b = Ok u <-> b = true.
Proof. destruct b, u; simpl; split; congruence. Qed.

(** ** Machine integers (LP64) *)
Definition u8 (z : Z) : Z := z mod 2 ^ 8.
Definition u16 (z : Z) : Z := z mod 2 ^ 16.
Definition u32 (z : Z) : Z := z mod 2 ^ 32.
Definition u64 (z : Z) : Z := z mod 2 ^ 64.
Definition s32 (z : Z) : Z := (z + 2 ^ 31) mod 2 ^ 32 - 2 ^ 31.
Definition s64 (z : Z) : Z := (z + 2 ^ 63) mod 2 ^ 64 - 2 ^ 63.

Definition INT_MAX : Z := 2 ^ 31 - 1.
Definition LONG_MAX : Z := 2 ^ 63 - 1.

(** The boolean of a C comparison as the [int] it yields. *)
Definition c_bool (b : bool) : Z := if b then 1 else 0.

Create Rewrite HintDb wrap.

Lemma u8_id z : 0 <= z < 2 ^ 8 -> u8 z = z.
Proof. unfold u8. lia. Qed.
Lemma u16_id z : 0 <= z < 2 ^ 16 -> u16 z = z.
Proof. unfold u16. lia. Qed.
Lemma u32_id z : 0 <= z < 2 ^ 32 -> u32 z = z.
Proof. unfold u32. lia. Qed.
Lemma u64_id z : 0 <= z < 2 ^ 64 -> u64 z = z.
Proof. unfold u64. lia. Qed.
Lemma s32_id z : - 2 ^ 31 <= z < 2 ^ 31 -> s32 z = z.
Proof. unfold s32. lia. Qed.
Lemma s64_id z : - 2 ^ 63 <= z < 2 ^ 63 -> s64 z = z.
Proof. unfold s64. lia. Qed.

#[export] Hint Rewrite u8_id u16_id u32_id u64_id s32_id s64_id
  using lia : wrap.

Lemma u8_range z : 0 <= u8 z < 2 ^ 8.
Proof. unfold u8. lia. Qed.
Lemma u32_range z : 0 <= u32 z < 2 ^ 32.
Proof. unfold u32. lia. Qed.
Lemma u64_range z : 0 <= u64 z < 2 ^ 64.
Proof. unfold u64. lia. Qed.
Lemma s32_range z : - 2 ^ 31 <= s32 z < 2 ^ 31.
Proof. unfold s32. lia. Qed.
Lemma s64_range z : - 2 ^ 63 <= s64 z < 2 ^ 63.
Proof. unfold s64. lia. Qed.

(** ** Tactics *)

(** Turn the boolean tests of the code into propositions. *)
Ltac bool_to_prop :=
  repeat match goal with
  | H : (_ && _)%bool = true |- _ => apply andb_true_iff in H; destruct H
  | H : (_ || _)%bool = false |- _ => apply orb_false_iff in H; destruct H
  | H : negb _ = true |- _ => apply negb_true_iff in H
  | H : negb _ = false |- _ => apply negb_false_iff in H
  | H : (_ <? _) = true |- _ => apply Z.ltb_lt in H
  | H : (_ <? _) = false |- _ => apply Z.ltb_ge in H
  | H : (_ <=? _) = true |- _ => apply Z.leb_le in H
  | H : (_ <=? _) = false |- _ => apply Z.leb_gt in H
  | H : (_ =? _) = true |- _ => apply Z.eqb_eq in H
  | H : (_ =? _) = false |- _ => apply Z.eqb_neq in H
  end.

(** Rewrite with wrap-around functions that do not wrap here. *)
Ltac wrap := autorewrite with wrap in *.

(** [lia] after the lengths of explicit lists are computed. *)
Ltac slia := first
  [ lia
  | simpl in *; lia
  | repeat progress (rewrite ?length_app in *; simpl in * ); lia ].

(** Decide the Z comparison [b] of the goal by [lia]. *)
Tactic Notation "bool_true" constr(b) :=
  replace b with true by (symmetry; first
    [ apply Z.ltb_lt; slia | apply Z.leb_le; slia | apply Z.eqb_eq; slia ]).
Tactic Notation "bool_false" constr(b) :=
  replace b with false by (symmetry; first
    [ apply Z.ltb_ge; slia | apply Z.leb_gt; slia | apply Z.eqb_neq; slia ]).

(** Decide the first condition of the goal, a comparison, by [lia]. *)
Ltac if_true := match goal with |- context [if ?b then _ else _] => bool_true b end.
Ltac if_false := match goal with |- context [if ?b then _ else _] => bool_false b end.

(** Case split on the innermost condition of the goal. *)
Ltac split_if :=
  match goal with
  | |- context [if ?b then _ else _] =>
      let E := fresh "E" in destruct b eqn:E; bool_to_prop
  end.

Ltac split_if_in H :=
  match type of H with
  | context [if ?b then _ else _] =>
      let E := fresh "E" in destruct b eqn:E; bool_to_prop
  end.

(** Decompose a successful run of a monadic definition. *)
Ltac inv_ok :=
  repeat match goal with
  | H : _ ≫= _ = Ok _ |- _ =>
      let a := fresh "r" in
      apply bind_Ok in H; destruct H as (a & ? & H)
  | H : mret _ = Ok _ |- _ => apply Ok_inj in H
  | H : Ok _ = Ok _ |- _ => apply Ok_inj in H
  | H : Fault _ = Ok _ |- _ => discriminate H
  | H : deref _ = Ok _ |- _ => apply deref_Ok in H
  | H : c_assert _ = Ok _ |- _ => apply c_assert_Ok in H
  end.

(** ** Pointers returned by functions that allocate

    A function that returns [NULL] when it cannot allocate has type
    [result (option A)]; [x <-! m; k] is [if ((x = m) == NULL) return NULL]. *)
Definition bind_ptr {A B} (m : result (option A)) (k : A -> result (option B)) :
    result (option B) :=
  match m with
  | Ok (Some a) => k a
  | Ok None => Ok None
  | Fault f => Fault f
  end.
Notation "x <-! m ; k" := (bind_ptr m (fun x => k))
  (at level 20, m at level 100, k at level 200, only parsing).

(** Equalities of concatenations. *)
Ltac solve_app := simpl; repeat (rewrite <- app_assoc; simpl); done.
