(* ===== verification/Mem.v ===== *)
(** * Mem: bytes in memory, C strings, ctype and decimal text

    What the C library gives the program: blocks of bytes with bounds-checked
    access ([load], [store], [memcpy] as [slice] and [blit]), [malloc] as a
    parameter, [strlen] and friends on NUL-terminated blocks, the [ctype.h]
    predicates of the C locale and the decimal rendering of [printf]. *)
From S2P Require Import Prelude.
From stdpp Require Import list list_numbers strings sets gmap.
From Stdlib Require Import ZArith Lia Ascii.
Open Scope Z_scope.

(** A byte is a [Z] in [0, 256); a block of memory is a list of bytes. *)
Abbreviation bytes := (list Z).
Abbreviation zlen l := (Z.of_nat (length l)).

Definition is_byte (c : Z) : Prop := 0 <= c < 256.

(** The bytes of a string literal, without and with its terminator. *)
Definition lit (s : string) : bytes :=
  (fun a => Z.of_N (N_of_ascii a)) <$> String.list_ascii_of_string s.
Definition cstr (s : string) : bytes := lit s ++ [0].

Definition CR : Z := 13.
Definition LF : Z := 10.
Definition crlf : bytes := [CR; LF].

(** ** The allocator

    [malloc_ok n] says whether an allocation of [n] bytes succeeds; [junk i]
    is the unspecified content of a fresh block at offset [i]. *)
Class Malloc := {
  malloc_ok : Z -> bool;
  junk : Z -> Z
}.

(** An allocator that never refuses. *)
Definition malloc_yes : Malloc := {| malloc_ok := fun _ => true; junk := fun _ => 0 |}.

Definition fresh_block {M : Malloc} (n : Z) : bytes := junk <$> seqZ 0 n.

Lemma length_fresh_block {M : Malloc} n : length (fresh_block n) = Z.to_nat n.
Proof. unfold fresh_block. by rewrite length_fmap, length_seqZ. Qed.

(** ** Access to a block *)
Definition load (m : bytes) (i : Z) : result Z :=
  if i <? 0 then Fault OutOfBounds else
  match m !! Z.to_nat i with
  | Some c => Ok c
  | None => Fault OutOfBounds
  end.

Definition store (m : bytes) (i c : Z) : result bytes :=
  if (0 <=? i) && (i <? zlen m) then Ok (<[Z.to_nat i := c]> m)
  else Fault OutOfBounds.

(** [slice m i n]: the [n] bytes at offset [i] of [m], as [memcpy] reads them. *)
Definition slice (m : bytes) (i n : Z) : result bytes :=
  if (0 <=? i) && (0 <=? n) && (i + n <=? zlen m)
  then Ok (take (Z.to_nat n) (drop (Z.to_nat i) m))
  else Fault OutOfBounds.

(** [blit m i src]: [m] after [src] is copied to offset [i]. *)
Definition blit (m : bytes) (i : Z) (src : bytes) : result bytes :=
  if (0 <=? i) && (i + zlen src <=? zlen m)
  then Ok (take (Z.to_nat i) m ++ src ++ drop (Z.to_nat i + length src) m)
  else Fault OutOfBounds.

Lemma load_Ok m i c : load m i = Ok c <-> 0 <= i /\ m !! Z.to_nat i = Some c.
Proof.
  unfold load. split_if; [split; [done|lia]|].
  destruct (m !! Z.to_nat i); split; try (intros [= ->]); intuition congruence.
Qed.

Lemma load_app_l m m' i c : load m i = Ok c -> load (m ++ m') i = Ok c.
Proof.
  rewrite !load_Ok. intros [? ?]; split; [done|]. by apply lookup_app_l_Some.
Qed.

Lemma load_in m i : 0 <= i < zlen m -> exists c, load m i = Ok c.
Proof.
  intros H. destruct (lookup_lt_is_Some_2 m (Z.to_nat i)) as [c Hc]; [lia|].
  exists c. apply load_Ok. split; [lia|done].
Qed.

Lemma load_at m i p x q : m = p ++ x :: q -> i = zlen p -> load m i = Ok x.
Proof.
  intros -> ->. apply load_Ok. split; [lia|]. by rewrite Nat2Z.id, list_lookup_middle.
Qed.

Lemma store_Ok m i c :
  0 <= i < zlen m -> store m i c = Ok (<[Z.to_nat i := c]> m).
Proof. intros. unfold store. by bool_true (0 <=? i); bool_true (i <? zlen m). Qed.

Lemma slice_Ok m i n :
  0 <= i -> 0 <= n -> i + n <= zlen m ->
  slice m i n = Ok (take (Z.to_nat n) (drop (Z.to_nat i) m)).
Proof.
  intros. unfold slice. by bool_true (0 <=? i); bool_true (0 <=? n);
    bool_true (i + n <=? zlen m).
Qed.

Lemma slice_all m n : n = zlen m -> slice m 0 n = Ok m.
Proof.
  intros ->. rewrite slice_Ok by lia. by rewrite Nat2Z.id, drop_0, firstn_all.
Qed.

Lemma slice_prefix m m' n : n = zlen m -> slice (m ++ m') 0 n = Ok m.
Proof.
  intros ->. rewrite slice_Ok by (rewrite ?length_app; lia).
  by rewrite Nat2Z.id, drop_0, take_app_length.
Qed.

Lemma blit_Ok m i src :
  0 <= i -> i + zlen src <= zlen m ->
  blit m i src = Ok (take (Z.to_nat i) m ++ src ++ drop (Z.to_nat i + length src) m).
Proof.
  intros. unfold blit. by bool_true (0 <=? i);
    bool_true (i + zlen src <=? zlen m).
Qed.

Lemma blit_length m i src m' : blit m i src = Ok m' -> length m' = length m.
Proof.
  unfold blit. split_if; intros; inv_ok; subst. 
  rewrite !length_app, length_take, length_drop. lia.
Qed.

Lemma store_length m i c m' : store m i c = Ok m' -> length m' = length m.
Proof.
  unfold store. split_if; intros; inv_ok; subst. by rewrite length_insert.
Qed.

(** ** C strings *)

(** Position of the first [c] of a block. *)
Fixpoint index_of (c : Z) (m : bytes) : option nat :=
  match m with
  | [] => None
  | d :: m' => if d =? c then Some O else S <$> index_of c m'
  end.

Definition strlen (m : bytes) : result Z :=
  match index_of 0 m with
  | Some n => Ok (Z.of_nat n)
  | None => Fault OutOfBounds
  end.

(** A string without NUL bytes, the content of a C string. *)
Definition no_nul (s : bytes) : Prop := Forall (fun c => c <> 0) s.

Lemma index_of_app c s m : c ∉ s -> index_of c (s ++ c :: m) = Some (length s).
Proof.
  induction s as [|d s IH]; simpl.
  - intros _. by rewrite Z.eqb_refl.
  - intros H. apply not_elem_of_cons in H as [Hd H].
    bool_false (d =? c). by rewrite IH.
Qed.

Lemma index_of_Some c m n :
  index_of c m = Some n -> m !! n = Some c /\ c ∉ take n m.
Proof.
  revert n; induction m as [|d m IH]; simpl; [done|]. intros n.
  split_if; [intros [= <-]; subst; split; [done|set_solver]|].
  destruct (index_of c m) as [k|]; [|done]. intros [= <-].
  destruct (IH k eq_refl) as [H1 H2]. split; [done|].
  simpl. rewrite not_elem_of_cons. split; [congruence|done].
Qed.

Lemma no_nul_not_elem s : no_nul s <-> 0 ∉ s.
Proof.
  unfold no_nul. rewrite Forall_forall. split.
  - intros H Hin. by apply (H 0).
  - intros H x Hx ->. done.
Qed.

Lemma strlen_app s m : no_nul s -> strlen (s ++ 0 :: m) = Ok (zlen s).
Proof.
  intros H. unfold strlen. by rewrite index_of_app by by apply no_nul_not_elem.
Qed.

(** [strchr(set, c) != NULL]: the terminator of [set] is searched too. *)
Definition strchr_in (set : bytes) (c : Z) : bool :=
  bool_decide (c ∈ set) || (c =? 0).

(** ** ctype.h in the C locale *)
Definition isdigit (c : Z) : bool := (48 <=? c) && (c <=? 57).
Definition isspace (c : Z) : bool := (c =? 32) || ((9 <=? c) && (c <=? 13)).
Definition isprint (c : Z) : bool := (32 <=? c) && (c <=? 126).
Definition tolower (c : Z) : Z := if (65 <=? c) && (c <=? 90) then c + 32 else c.
Definition toupper (c : Z) : Z := if (97 <=? c) && (c <=? 122) then c - 32 else c.

(** [memcmp]: the sign of the first difference. *)
Fixpoint memcmp (a b : bytes) : Z :=
  match a, b with
  | x :: a', y :: b' => if x =? y then memcmp a' b' else x - y
  | _, _ => 0
  end.

Lemma memcmp_eq a b : length a = length b -> memcmp a b = 0 <-> a = b.
Proof.
  revert b; induction a as [|x a IH]; intros [|y b] H; simpl in *; try done.
  split_if.
  - subst. rewrite IH by lia. split; congruence.
  - split; [lia|congruence].
Qed.

(** ** Decimal text

    [digits_rev v] are the digits of [v >= 0], least significant first;
    [udec] and [sdec] are what [printf] writes for [%u] and [%d]. *)
Fixpoint digits_fuel (fuel : nat) (v : Z) : bytes :=
  match fuel with
  | O => []
  | S f => (48 + v mod 10) :: (if v / 10 =? 0 then [] else digits_fuel f (v / 10))
  end.

Definition digits_rev (v : Z) : bytes := digits_fuel (S (Z.to_nat (Z.log2 v))) v.
Definition udec (v : Z) : bytes := reverse (digits_rev v).
Definition sdec (v : Z) : bytes := if v <? 0 then 45 :: udec (- v) else udec v.

(** The value of a digit string, [acc] being the value of what precedes it. *)
Definition dec_step (acc c : Z) : Z := acc * 10 + (c - 48).
Definition dec_value (s : bytes) : Z := foldl dec_step 0 s.

Definition is_digit (c : Z) : Prop := 48 <= c <= 57.

Lemma log2_div10 v : 0 <= v -> v / 10 <> 0 -> Z.log2 (v / 10) < Z.log2 v.
Proof.
  intros Hv Hd. assert (0 < v / 10) by lia.
  assert (2 ^ (Z.log2 (v / 10) + 1) <= v) as H1.
  { rewrite Z.pow_add_r by (try apply Z.log2_nonneg; lia).
    pose proof (Z.log2_spec (v / 10) ltac:(lia)). lia. }
  apply Z.log2_le_pow2 in H1; lia.
Qed.

(** The loop that produces digits does not depend on its fuel. *)
Lemma digits_fuel_enough n m v :
  0 <= v -> (Z.to_nat (Z.log2 v) < n)%nat -> (Z.to_nat (Z.log2 v) < m)%nat ->
  digits_fuel n v = digits_fuel m v.
Proof.
  revert m v; induction n as [|n IH]; intros [|m] v Hv Hn Hm; try lia; simpl.
  f_equal. split_if; [done|]. pose proof (log2_div10 v Hv E).
  pose proof (Z.log2_nonneg (v / 10)). apply IH; lia.
Qed.

Lemma digits_rev_step v :
  0 <= v ->
  digits_rev v = (48 + v mod 10) :: (if v / 10 =? 0 then [] else digits_rev (v / 10)).
Proof.
  intros Hv. unfold digits_rev at 1. cbn [digits_fuel]. f_equal.
  split_if; [done|]. pose proof (log2_div10 v Hv E).
  pose proof (Z.log2_nonneg (v / 10)). apply digits_fuel_enough; lia.
Qed.

(** Induction along the digits of a natural number. *)
Lemma dec_ind (P : Z -> Prop) :
  (forall v, 0 <= v < 10 -> P v) ->
  (forall v, 10 <= v -> P (v / 10) -> P v) ->
  forall v, 0 <= v -> P v.
Proof.
  intros H1 H2 v. induction v as [v IH] using (well_founded_induction (Z.lt_wf 0)).
  intros Hv. destruct (decide (v < 10)); [apply H1; lia|].
  apply H2; [lia|]. apply IH; lia.
Qed.

Lemma udec_small v : 0 <= v < 10 -> udec v = [48 + v].
Proof.
  intros H. unfold udec. rewrite digits_rev_step by lia.
  bool_true (v / 10 =? 0). rewrite Z.mod_small by lia. done.
Qed.

Lemma udec_step v : 10 <= v -> udec v = udec (v / 10) ++ [48 + v mod 10].
Proof.
  intros H. unfold udec. rewrite digits_rev_step by lia.
  bool_false (v / 10 =? 0). by rewrite reverse_cons.
Qed.

Lemma udec_digits v : 0 <= v -> Forall is_digit (udec v).
Proof.
  revert v. apply dec_ind; intros v Hv; [|intros IHv].
  - rewrite udec_small by lia. repeat constructor; lia.
  - rewrite udec_step by lia. apply Forall_app; split; [done|].
    repeat constructor; lia.
Qed.

Lemma dec_value_snoc s c : dec_value (s ++ [c]) = dec_value s * 10 + (c - 48).
Proof. unfold dec_value. by rewrite foldl_app. Qed.

Lemma dec_value_udec v : 0 <= v -> dec_value (udec v) = v.
Proof.
  revert v. apply dec_ind; intros v Hv; [|intros IHv].
  - rewrite udec_small by lia. unfold dec_value, dec_step. simpl. lia.
  - rewrite udec_step, dec_value_snoc, IHv by lia. lia.
Qed.

Lemma udec_nonempty v : 0 <= v -> exists c s, udec v = c :: s /\ is_digit c.
Proof.
  intros Hv. pose proof (udec_digits v Hv) as H.
  destruct (udec v) as [|c s] eqn:E.
  - destruct (decide (v < 10)).
    + by rewrite udec_small in E by lia.
    + rewrite udec_step in E by lia. by destruct (udec (v / 10)).
  - apply Forall_cons in H as [? ?]. eauto.
Qed.

Lemma udec_length v :
  0 <= v ->
  v < 10 ^ zlen (udec v) /\ (10 <= v -> 10 ^ (zlen (udec v) - 1) <= v).
Proof.
  revert v. apply dec_ind; intros v Hv; [|intros IHv].
  - rewrite udec_small by lia. simpl. lia.
  - rewrite udec_step by lia. rewrite length_app. simpl.
    destruct IHv as [I1 I2].
    replace (Z.of_nat (length (udec (v / 10)) + 1)) with (zlen (udec (v / 10)) + 1) by lia.
    rewrite Z.pow_add_r by lia. split; [lia|]. intros _.
    replace (zlen (udec (v / 10)) + 1 - 1) with (zlen (udec (v / 10)) - 1 + 1) by lia.
    assert (v / 10 < 10 \/ 10 <= v / 10) as [Hs|Hb] by lia.
    + rewrite udec_small by lia. simpl. lia.
    + destruct (udec_nonempty (v / 10)) as (c & s & Ec & _); [lia|].
      rewrite Z.pow_add_r by (rewrite ?Ec; simpl; lia). specialize (I2 Hb). lia.
Qed.

Lemma udec_length_pos v : 0 <= v -> 1 <= zlen (udec v).
Proof. intros Hv. destruct (udec_nonempty v Hv) as (c & s & -> & _). simpl. lia. Qed.
