(* ===== verification/Sds.v ===== *)
(** * Sds: the dynamic strings of sds.h and sds.c

    An [sds] is the block that the C pointer [s] points into: the header
    fields before [s] and the buffer from [s] on. Every operation computes on
    the header at its width and goes through bounds-checked memory, so that
    its overflow and out-of-bounds behaviour is part of the model. *)
From S2P Require Import Prelude Mem.
From stdpp Require Import list list_numbers strings sets gmap.
From Stdlib Require Import ZArith Lia.
Open Scope Z_scope.

(** ** Headers (sds.h) *)
Definition SDS_MAX_PREALLOC : Z := 1024 * 1024.
Definition SDS_TYPE_5 : Z := 0.
Definition SDS_TYPE_8 : Z := 1.
Definition SDS_TYPE_16 : Z := 2.
Definition SDS_TYPE_32 : Z := 3.
Definition SDS_TYPE_64 : Z := 4.
Definition SDS_TYPE_MASK : Z := 7.
Definition SDS_TYPE_BITS : Z := 3.

(** [struct sdshdrN] and the buffer behind it. [sdshdr5] has only the flags
    byte; [sds_len] and [sds_alloc] mean nothing in a string of type 5. *)
Record sds : Type := mk_sds {
  sds_len : Z;
  sds_alloc : Z;
  sds_flags : Z;
  sds_buf : bytes
}.

Definition set_len (s : sds) (n : Z) : sds :=
  mk_sds n (sds_alloc s) (sds_flags s) (sds_buf s).
Definition set_alloc (s : sds) (n : Z) : sds :=
  mk_sds (sds_len s) n (sds_flags s) (sds_buf s).
Definition set_flags (s : sds) (f : Z) : sds :=
  mk_sds (sds_len s) (sds_alloc s) f (sds_buf s).
Definition set_buf (s : sds) (b : bytes) : sds :=
  mk_sds (sds_len s) (sds_alloc s) (sds_flags s) b.

(** [switch (flags & SDS_TYPE_MASK)] with one case per header type. *)
Definition sds_switch {A} (t : Z) (c5 c8 c16 c32 c64 dflt : A) : A :=
  if t =? SDS_TYPE_5 then c5 else
  if t =? SDS_TYPE_8 then c8 else
  if t =? SDS_TYPE_16 then c16 else
  if t =? SDS_TYPE_32 then c32 else
  if t =? SDS_TYPE_64 then c64 else dflt.

Definition sds_type (s : sds) : Z := Z.land (sds_flags s) SDS_TYPE_MASK.

Definition SDS_TYPE_5_LEN (f : Z) : Z := Z.shiftr f SDS_TYPE_BITS.

Definition sdslen (s : sds) : Z :=
  sds_switch (sds_type s) (SDS_TYPE_5_LEN (sds_flags s))
    (sds_len s) (sds_len s) (sds_len s) (sds_len s) 0.

Definition sdsavail (s : sds) : Z :=
  sds_switch (sds_type s) 0
    (u64 (sds_alloc s - sds_len s)) (u64 (sds_alloc s - sds_len s))
    (u32 (sds_alloc s - sds_len s)) (u64 (sds_alloc s - sds_len s)) 0.

Definition sdssetlen (s : sds) (newlen : Z) : sds :=
  sds_switch (sds_type s)
    (set_flags s (u8 (Z.lor SDS_TYPE_5 (u64 (Z.shiftl newlen SDS_TYPE_BITS)))))
    (set_len s (u8 newlen)) (set_len s (u16 newlen))
    (set_len s (u32 newlen)) (set_len s (u64 newlen)) s.

Definition sdsinclen (s : sds) (inc : Z) : sds :=
  sds_switch (sds_type s)
    (let newlen := u8 (SDS_TYPE_5_LEN (sds_flags s) + inc) in
     set_flags s (u8 (Z.lor SDS_TYPE_5 (Z.shiftl newlen SDS_TYPE_BITS))))
    (set_len s (u8 (sds_len s + inc))) (set_len s (u16 (sds_len s + inc)))
    (set_len s (u32 (sds_len s + inc))) (set_len s (u64 (sds_len s + inc))) s.

Definition sdsalloc (s : sds) : Z :=
  sds_switch (sds_type s) (SDS_TYPE_5_LEN (sds_flags s))
    (sds_alloc s) (sds_alloc s) (sds_alloc s) (sds_alloc s) 0.

Definition sdssetalloc (s : sds) (newlen : Z) : sds :=
  sds_switch (sds_type s) s
    (set_alloc s (u8 newlen)) (set_alloc s (u16 newlen))
    (set_alloc s (u32 newlen)) (set_alloc s (u64 newlen)) s.

(** ** Creation and growth (sds.c) *)

(** [sizeof(struct sdshdrN)] of the packed header. *)
Definition sdsHdrSize (type : Z) : Z :=
  sds_switch (Z.land type SDS_TYPE_MASK) 1 3 5 9 17 0.

Definition sdsReqType (string_size : Z) : Z :=
  if string_size <? 32 then SDS_TYPE_5 else
  if string_size <? 255 then SDS_TYPE_8 else
  if string_size <? 65535 then SDS_TYPE_16 else
  if string_size <? 4294967295 then SDS_TYPE_32 else SDS_TYPE_64.

(** The bytes behind the header in an allocation of [hdrlen+n+1] bytes; the
    sum wraps as [size_t] does, and a block that cannot hold its header is
    written out of bounds. *)
Definition body_size (hdrlen n : Z) : result Z :=
  let sz := u64 (hdrlen + n + 1) in
  if sz <? hdrlen then Fault OutOfBounds else Ok (sz - hdrlen).

Section alloc.
Context {M : Malloc}.

(** [realloc] keeps the common prefix of the old and the new block. *)
Definition realloc_body (old : bytes) (n : Z) : bytes :=
  take (Z.to_nat n) old ++ drop (length old) (fresh_block n).

(** The header of a fresh string of type [type], length and allocation [n]. *)
Definition fresh_hdr (type n : Z) (b : bytes) : sds :=
  sds_switch type
    (mk_sds 0 0 (u8 (Z.lor type (u64 (Z.shiftl n SDS_TYPE_BITS)))) b)
    (mk_sds (u8 n) (u8 n) type b) (mk_sds (u16 n) (u16 n) type b)
    (mk_sds (u32 n) (u32 n) type b) (mk_sds (u64 n) (u64 n) type b)
    (mk_sds 0 0 0 b).

Definition sdsnewlen (init : option bytes) (initlen : Z) : result (option sds) :=
  let type := sdsReqType initlen in
  let type := if (type =? SDS_TYPE_5) && (initlen =? 0) then SDS_TYPE_8 else type in
  let hdrlen := sdsHdrSize type in
  if negb (malloc_ok (u64 (hdrlen + initlen + 1))) then Ok None else
  n ← body_size hdrlen initlen;
  let body := match init with
              | None => replicate (Z.to_nat n) 0
              | Some _ => fresh_block n
              end in
  body ← match init with
         | Some p =>
             if initlen =? 0 then Ok body else
             src ← slice p 0 initlen; blit body 0 src
         | None => Ok body
         end;
  body ← store body initlen 0;
  Ok (Some (fresh_hdr type initlen body)).

Definition sdsempty : result (option sds) := sdsnewlen (Some [0]) 0.

Definition sdsnew (init : option bytes) : result (option sds) :=
  initlen ← match init with None => Ok 0 | Some p => strlen p end;
  sdsnewlen init initlen.

Definition sdsdup (s : sds) : result (option sds) :=
  sdsnewlen (Some (sds_buf s)) (sdslen s).

Definition sdsupdatelen (s : sds) : result sds :=
  reallen ← strlen (sds_buf s);
  Ok (sdssetlen s (u64 (s32 reallen))).

Definition sdsclear (s : sds) : result sds :=
  let s := sdssetlen s 0 in
  b ← store (sds_buf s) 0 0;
  Ok (set_buf s b).

(** The block of [s] moved to an allocation for [newlen] bytes of header
    type [type], as [sdsMakeRoomFor] and [sdsRemoveFreeSpace] end. *)
Definition sds_resize (s : sds) (type newlen : Z) : result (option sds) :=
  let oldtype := sds_type s in
  let len := sdslen s in
  let hdrlen := sdsHdrSize type in
  if negb (malloc_ok (u64 (hdrlen + newlen + 1))) then Ok None else
  n ← body_size hdrlen newlen;
  s ← (if oldtype =? type then
         Ok (set_buf s (realloc_body (sds_buf s) n))
       else
         src ← slice (sds_buf s) 0 (len + 1);
         b ← blit (fresh_block n) 0 src;
         Ok (sdssetlen (mk_sds (junk 0) (junk 1) type b) len));
  Ok (Some (sdssetalloc s newlen)).

Definition sdsMakeRoomFor (s : sds) (addlen : Z) : result (option sds) :=
  let avail := sdsavail s in
  if addlen <=? avail then Ok (Some s) else
  let len := sdslen s in
  let newlen := u64 (len + addlen) in
  let newlen := if newlen <? SDS_MAX_PREALLOC then u64 (newlen * 2)
                else u64 (newlen + SDS_MAX_PREALLOC) in
  let type := sdsReqType newlen in
  let type := if type =? SDS_TYPE_5 then SDS_TYPE_8 else type in
  sds_resize s type newlen.

Definition sdsRemoveFreeSpace (s : sds) : result (option sds) :=
  let len := sdslen s in
  sds_resize s (sdsReqType len) len.

Definition sdsAllocSize (s : sds) : Z :=
  u64 (sdsHdrSize (sds_flags s) + sdsalloc s + 1).

(** The [assert] of [sdsIncrLen], then [sh->len += incr] and the new NUL. *)
Definition sdsIncrLen (s : sds) (incr : Z) : result sds :=
  let neg := (incr <? 0) && (u32 (- incr) <=? sdslen s) in
  '(s, len) ← sds_switch (sds_type s)
    (let oldlen := SDS_TYPE_5_LEN (sds_flags s) in
     _ ← c_assert (((0 <? incr) && (oldlen + incr <? 32)) || neg);
     Ok (set_flags s (u8 (Z.lor SDS_TYPE_5 (Z.shiftl (oldlen + incr) SDS_TYPE_BITS))),
         u64 (oldlen + incr)))
    (_ ← c_assert (((0 <=? incr) && (incr <=? sds_alloc s - sds_len s)) || neg);
     Ok (set_len s (u8 (sds_len s + incr)), u8 (sds_len s + incr)))
    (_ ← c_assert (((0 <=? incr) && (incr <=? sds_alloc s - sds_len s)) || neg);
     Ok (set_len s (u16 (sds_len s + incr)), u16 (sds_len s + incr)))
    (_ ← c_assert (((0 <=? incr) && (u32 incr <=? u32 (sds_alloc s - sds_len s))) || neg);
     Ok (set_len s (u32 (sds_len s + incr)), u32 (sds_len s + incr)))
    (_ ← c_assert (((0 <=? incr) && (incr <=? u64 (sds_alloc s - sds_len s))) || neg);
     Ok (set_len s (u64 (sds_len s + incr)), u64 (sds_len s + incr)))
    (Ok (s, 0));
  b ← store (sds_buf s) len 0;
  Ok (set_buf s b).

Definition sdsgrowzero (s : sds) (len : Z) : result (option sds) :=
  let curlen := sdslen s in
  if len <=? curlen then Ok (Some s) else
  s <-! sdsMakeRoomFor s (len - curlen);
  b ← blit (sds_buf s) curlen (replicate (Z.to_nat (len - curlen + 1)) 0);
  Ok (Some (sdssetlen (set_buf s b) len)).

(** ** Concatenation and copy *)
Definition sdscatlen (s : sds) (t : bytes) (len : Z) : result (option sds) :=
  let curlen := sdslen s in
  s <-! sdsMakeRoomFor s len;
  src ← slice t 0 len;
  b ← blit (sds_buf s) curlen src;
  let s := sdssetlen (set_buf s b) (u64 (curlen + len)) in
  b ← store (sds_buf s) (u64 (curlen + len)) 0;
  Ok (Some (set_buf s b)).

Definition sdscat (s : sds) (t : bytes) : result (option sds) :=
  n ← strlen t; sdscatlen s t n.

Definition sdscatsds (s t : sds) : result (option sds) :=
  sdscatlen s (sds_buf t) (sdslen t).

Definition sdscpylen (s : sds) (t : bytes) (len : Z) : result (option sds) :=
  s <-! (if sdsalloc s <? len then sdsMakeRoomFor s (u64 (len - sdslen s))
         else Ok (Some s));
  src ← slice t 0 len;
  b ← blit (sds_buf s) 0 src;
  b ← store b len 0;
  Ok (Some (sdssetlen (set_buf s b) len)).

Definition sdscpy (s : sds) (t : bytes) : result (option sds) :=
  n ← strlen t; sdscpylen s t n.

End alloc.

(** ** In-place editing *)

(** [while(sp <= end && strchr(cset, *sp)) sp++]. *)
Fixpoint trim_front (fuel : nat) (m cset : bytes) (sp end_ : Z) : result Z :=
  match fuel with
  | O => Fault OutOfFuel
  | S f =>
      if sp <=? end_ then
        c ← load m sp;
        if strchr_in cset c then trim_front f m cset (sp + 1) end_ else Ok sp
      else Ok sp
  end.

(** [while(ep > sp && strchr(cset, *ep)) ep--]. *)
Fixpoint trim_back (fuel : nat) (m cset : bytes) (sp ep : Z) : result Z :=
  match fuel with
  | O => Fault OutOfFuel
  | S f =>
      if sp <? ep then
        c ← load m ep;
        if strchr_in cset c then trim_back f m cset sp (ep - 1) else Ok ep
      else Ok ep
  end.

Definition sdstrim (s : sds) (cset : bytes) : result sds :=
  let end_ := sdslen s - 1 in
  let fuel := S (S (length (sds_buf s))) in
  sp ← trim_front fuel (sds_buf s) cset 0 end_;
  ep ← trim_back fuel (sds_buf s) cset sp end_;
  let len := if ep <? sp then 0 else ep - sp + 1 in
  b ← (if sp =? 0 then Ok (sds_buf s)
       else src ← slice (sds_buf s) sp len; blit (sds_buf s) 0 src);
  b ← store b len 0;
  Ok (sdssetlen (set_buf s b) len).

(** The indexes are [int]s: [len+start] and [(signed)len] are truncated. *)
Definition sdsrange (s : sds) (start end_ : Z) : result sds :=
  let len := sdslen s in
  if len =? 0 then Ok s else
  let start := if start <? 0 then
                 let st := s32 (len + start) in if st <? 0 then 0 else st
               else start in
  let end_ := if end_ <? 0 then
                let e := s32 (len + end_) in if e <? 0 then 0 else e
              else end_ in
  let newlen := if end_ <? start then 0 else u64 (s32 (end_ - start + 1)) in
  let '(start, newlen) :=
    if negb (newlen =? 0) then
      if s32 len <=? start then (start, 0)
      else if s32 len <=? end_ then
        let end_ := s32 (len - 1) in
        (start, if end_ <? start then 0 else u64 (s32 (end_ - start + 1)))
      else (start, newlen)
    else (0, newlen) in
  b ← (if negb (start =? 0) && negb (newlen =? 0) then
         src ← slice (sds_buf s) start newlen; blit (sds_buf s) 0 src
       else Ok (sds_buf s));
  b ← store b newlen 0;
  Ok (sdssetlen (set_buf s b) newlen).

(** [for (j = 0; j < len; j++) s[j] = f(s[j])]. *)
Fixpoint map_loop (f : Z -> Z) (n : nat) (m : bytes) (j : Z) : result bytes :=
  match n with
  | O => Ok m
  | S n' => c ← load m j; m ← store m j (f c); map_loop f n' m (j + 1)
  end.

Definition sdstolower (s : sds) : result sds :=
  b ← map_loop tolower (Z.to_nat (s32 (sdslen s))) (sds_buf s) 0;
  Ok (set_buf s b).

Definition sdstoupper (s : sds) : result sds :=
  b ← map_loop toupper (Z.to_nat (s32 (sdslen s))) (sds_buf s) 0;
  Ok (set_buf s b).

Definition sdscmp (s1 s2 : sds) : result Z :=
  let l1 := sdslen s1 in
  let l2 := sdslen s2 in
  let minlen := if l1 <? l2 then l1 else l2 in
  a ← slice (sds_buf s1) 0 minlen;
  b ← slice (sds_buf s2) 0 minlen;
  let cmp := memcmp a b in
  Ok (if cmp =? 0 then s32 (u64 (l1 - l2)) else cmp).
