(* ===== verification/SdsFacts.v ===== *)
(** * SdsFacts: the invariant of sds strings and the contracts of Sds.v

    [sds_wf] is the layout invariant (header in range for its type, buffer as
    long as the header says, NUL after the content) and [contents] the
    abstraction to a byte string. Every operation is shown to keep the
    invariant and to compute the expected byte string. *)
From S2P Require Import Prelude Mem Sds.
From stdpp Require Import list list_numbers strings sets gmap.
From Stdlib Require Import ZArith Lia.
Open Scope Z_scope.

(** The largest length a header of a given type can hold. *)
Definition type_cap (t : Z) : Z :=
  sds_switch t 31 (2 ^ 8 - 1) (2 ^ 16 - 1) (2 ^ 32 - 1) (2 ^ 64 - 1) (-1).

(** The flags byte is one the library writes. *)
Definition hdr_ok (s : sds) : Prop :=
  (0 <= sds_flags s < 256 /\ sds_type s = SDS_TYPE_5) \/ 1 <= sds_flags s <= 4.

Record sds_wf (s : sds) : Prop := {
  wf_hdr : hdr_ok s;
  wf_len : 0 <= sdslen s <= sdsalloc s;
  wf_cap : sdsalloc s <= type_cap (sds_type s);
  wf_size : sdsalloc s + 1 <= zlen (sds_buf s);
  wf_nul : sds_buf s !! Z.to_nat (sdslen s) = Some 0
}.

(** The byte string a string holds. *)
Definition contents (s : sds) : bytes := take (Z.to_nat (sdslen s)) (sds_buf s).

Definition sds_is (c : bytes) (s : sds) : Prop := sds_wf s /\ contents s = c.

(** A call that returns a pointer: it does not fault, it returns [NULL] only
    when the allocator refuses a request, and what it returns satisfies [Q]. *)
Definition returns {M : Malloc} {A} (m : result (option A)) (Q : A -> Prop) : Prop :=
  match m with
  | Ok (Some a) => Q a
  | Ok None => exists n, malloc_ok n = false
  | Fault _ => False
  end.

Lemma returns_bind {M : Malloc} {A B} (m : result (option A))
    (k : A -> result (option B)) Q R :
  returns m Q -> (forall a, Q a -> returns (k a) R) -> returns (a <-! m; k a) R.
Proof. destruct m as [[a|]|]; simpl; eauto. Qed.

Lemma returns_mono {M : Malloc} {A} (m : result (option A)) (Q R : A -> Prop) :
  returns m Q -> (forall a, Q a -> R a) -> returns m R.
Proof. destruct m as [[a|]|]; simpl; eauto. Qed.

Lemma returns_ok {M : Malloc} {A} (m : result (option A)) Q :
  (forall n, malloc_ok n = true) -> returns m Q -> exists a, m = Ok (Some a) /\ Q a.
Proof.
  intros HM. destruct m as [[a|]|]; simpl; [eauto| |done].
  intros [n Hn]. by rewrite HM in Hn.
Qed.

Create HintDb sds.

(** *** Header arithmetic *)
Lemma type5_bits n : 0 <= n < 32 ->
  Z.lor SDS_TYPE_5 (Z.shiftl n SDS_TYPE_BITS) = 8 * n.
Proof.
  intros _. unfold SDS_TYPE_5, SDS_TYPE_BITS. rewrite Z.lor_0_l, Z.shiftl_mul_pow2; lia.
Qed.

Lemma land7 f : Z.land f SDS_TYPE_MASK = f mod 8.
Proof. unfold SDS_TYPE_MASK. change 7 with (Z.ones 3). by rewrite Z.land_ones by lia. Qed.

Lemma shiftr3 f : SDS_TYPE_5_LEN f = f / 8.
Proof. unfold SDS_TYPE_5_LEN, SDS_TYPE_BITS. by rewrite Z.shiftr_div_pow2 by lia. Qed.

(** The cases of a header the library wrote. *)
Lemma hdr_cases s : hdr_ok s ->
  (0 <= sds_flags s < 256 /\ sds_type s = 0) \/
  (sds_flags s = 1 /\ sds_type s = 1) \/ (sds_flags s = 2 /\ sds_type s = 2) \/
  (sds_flags s = 3 /\ sds_type s = 3) \/ (sds_flags s = 4 /\ sds_type s = 4).
Proof.
  intros [[? ?]|H]; [by left|right]. unfold sds_type. rewrite land7.
  assert (sds_flags s = 1 \/ sds_flags s = 2 \/ sds_flags s = 3 \/ sds_flags s = 4)
    as [->|[->|[->| ->]]] by lia; cbn; tauto.
Qed.

Lemma sds_type_set_len s n : sds_type (set_len s n) = sds_type s.
Proof. done. Qed.
Lemma sds_type_set_alloc s n : sds_type (set_alloc s n) = sds_type s.
Proof. done. Qed.
Lemma sds_type_set_buf s b : sds_type (set_buf s b) = sds_type s.
Proof. done. Qed.

(** Case on the header type and compute the accessors. *)
Ltac hdr_compute Et :=
  unfold sdslen, sdsalloc, sdsavail, sdssetlen, sdssetalloc, sdsinclen, type_cap in *;
  rewrite ?sds_type_set_len, ?sds_type_set_alloc, ?sds_type_set_buf, ?Et in *;
  cbn [sds_switch Z.eqb Pos.eqb SDS_TYPE_5 SDS_TYPE_8 SDS_TYPE_16 SDS_TYPE_32
    SDS_TYPE_64 set_len set_alloc set_buf set_flags sds_len sds_alloc sds_buf
    sds_flags] in *;
  rewrite ?sds_type_set_len, ?sds_type_set_alloc, ?sds_type_set_buf, ?Et in *;
  cbn [sds_switch Z.eqb Pos.eqb] in *.
Ltac hdr_cases H :=
  let Ef := fresh "Ef" in let Et := fresh "Et" in
  destruct (hdr_cases _ H) as [[Ef Et]|[[Ef Et]|[[Ef Et]|[[Ef Et]|[Ef Et]]]]];
  hdr_compute Et.

Lemma sdsavail_spec s : sds_wf s ->
  sdsavail s = sdsalloc s - sdslen s /\ 0 <= sdsavail s.
Proof.
  intros [H H1 H2 _ _]. hdr_cases H; rewrite ?u64_id, ?u32_id by lia; lia.
Qed.

Lemma sds_type5_len s : hdr_ok s -> sds_type s = 0 -> 0 <= sdslen s < 32.
Proof. intros H Ht. hdr_cases H; try lia. rewrite shiftr3. lia. Qed.

Lemma type5_flags s n : 0 <= n < 32 -> sds_flags s = 8 * n ->
  hdr_ok s /\ sds_type s = 0 /\ SDS_TYPE_5_LEN (sds_flags s) = n.
Proof.
  intros Hn Hf. assert (sds_type s = 0).
  { unfold sds_type. rewrite land7. lia. }
  rewrite shiftr3. split_and!; [left; split; [lia|done]|done|lia].
Qed.

(** A header whose flags byte is a bare type. *)
Lemma type_hdr s : 0 <= sds_flags s <= 4 -> hdr_ok s /\ sds_type s = sds_flags s.
Proof.
  intros H. assert (sds_type s = sds_flags s) as E.
  { unfold sds_type. rewrite land7. lia. }
  split; [|done]. destruct (decide (sds_flags s = 0)); [left|right]; [|lia].
  unfold SDS_TYPE_5. lia.
Qed.

(** [sdssetlen] within the capacity of the header. *)
Lemma sdssetlen_spec s n : hdr_ok s -> 0 <= n <= type_cap (sds_type s) ->
  sdslen (sdssetlen s n) = n /\ sds_type (sdssetlen s n) = sds_type s /\
  sds_buf (sdssetlen s n) = sds_buf s /\ hdr_ok (sdssetlen s n) /\
  sdsalloc (sdssetlen s n) = (if sds_type s =? SDS_TYPE_5 then n else sdsalloc s).
Proof.
  intros H Hn. unfold hdr_ok. hdr_cases H;
    [|split_and!; try (rewrite ?u8_id, ?u16_id, ?u32_id, ?u64_id by lia); auto; lia..].
  set (s' := set_flags s _). destruct (type5_flags s' n) as (H1 & H2 & H3); [lia|..].
  { unfold s'. cbn. rewrite u64_id; [rewrite type5_bits, u8_id; lia|].
    unfold SDS_TYPE_BITS. rewrite Z.shiftl_mul_pow2; lia. }
  rewrite H2. cbn. split_and!; auto. left. split; [apply u8_range|done].
Qed.

Lemma sdssetalloc_spec s n : hdr_ok s -> 0 <= n <= type_cap (sds_type s) ->
  sdslen (sdssetalloc s n) = sdslen s /\ sds_type (sdssetalloc s n) = sds_type s /\
  sds_buf (sdssetalloc s n) = sds_buf s /\ hdr_ok (sdssetalloc s n) /\
  sdsalloc (sdssetalloc s n) = (if sds_type s =? SDS_TYPE_5 then sdslen s else n).
Proof.
  intros H Hn. unfold hdr_ok. hdr_cases H; split_and!;
    try (rewrite ?u8_id, ?u16_id, ?u32_id, ?u64_id by lia); auto; lia.
Qed.

(** Setting the length is adding the difference. *)
Lemma sdsinclen_setlen s n : hdr_ok s -> 0 <= n ->
  sdslen s + n <= type_cap (sds_type s) -> 0 <= sdslen s ->
  sdsinclen s n = sdssetlen s (sdslen s + n).
Proof.
  intros H Hn Hc Hl. hdr_cases H; [|done..]. f_equal. f_equal. f_equal.
  rewrite u8_id by lia. symmetry. apply u64_id.
  unfold SDS_TYPE_BITS. rewrite Z.shiftl_mul_pow2; lia.
Qed.

(** *** Layout *)
Lemma sds_is_buf c s : sds_is c s ->
  exists rest, sds_buf s = c ++ 0 :: rest /\ sdslen s = zlen c.
Proof.
  intros [[_ Hl _ Hs Hn] <-]. exists (drop (S (Z.to_nat (sdslen s))) (sds_buf s)).
  unfold contents. rewrite length_take. split; [|lia].
  by rewrite <- drop_S with (x := 0), take_drop.
Qed.

Lemma sds_is_intro s c rest :
  hdr_ok s -> sdslen s = zlen c -> zlen c <= sdsalloc s ->
  sdsalloc s <= type_cap (sds_type s) -> sdsalloc s + 1 <= zlen (sds_buf s) ->
  sds_buf s = c ++ 0 :: rest -> sds_is c s.
Proof.
  intros Hh Hl Ha Hc Hz Hb. split.
  - split; auto; [lia|]. rewrite Hl, Nat2Z.id, Hb. by rewrite lookup_app_r, Nat.sub_diag.
  - unfold contents. by rewrite Hl, Nat2Z.id, Hb, take_app_length.
Qed.

Lemma sds_is_len c s : sds_is c s -> sdslen s = zlen c.
Proof. intros H. by destruct (sds_is_buf _ _ H) as (? & _ & ?). Qed.

(** A string whose terminator was overwritten by [x], as [sdscatfmt] leaves it
    between two pieces. *)
Record sds_ends (x : Z) (c : bytes) (s : sds) : Prop := {
  ends_hdr : hdr_ok s;
  ends_len : sdslen s = zlen c;
  ends_alloc : zlen c <= sdsalloc s;
  ends_cap : sdsalloc s <= type_cap (sds_type s);
  ends_size : sdsalloc s + 1 <= zlen (sds_buf s);
  ends_buf : exists rest, sds_buf s = c ++ x :: rest
}.

Lemma sds_is_ends c s : sds_is c s <-> sds_ends 0 c s.
Proof.
  split.
  - intros Hs. destruct (sds_is_buf _ _ Hs) as (rest & Hb & Hl). destruct Hs as [[] _].
    split; auto; [lia|by exists rest].
  - intros [? ? ? ? ? [rest Hb]]. by eapply sds_is_intro.
Qed.

Lemma sdsavail_ends x c s : sds_ends x c s -> sdsavail s = sdsalloc s - zlen c /\ 0 <= sdsavail s.
Proof.
  intros [H H1 H2 H3 _ _]. rewrite <- H1 in *.
  hdr_cases H; rewrite ?u64_id, ?u32_id by lia; lia.
Qed.

Lemma sds_is_type5 c s : sds_is c s -> sds_type s = 0 ->
  sdsalloc s = sdslen s /\ sdsavail s = 0.
Proof. intros [[H _ _ _ _] _] Ht. hdr_cases H; try lia. Qed.

#[export] Hint Resolve sds_is_len : sds.

(** *** Allocation *)
Lemma sdsHdrSize_range t : 0 <= sdsHdrSize t <= 17.
Proof. unfold sdsHdrSize, sds_switch. repeat split_if; lia. Qed.

Lemma body_size_ok h n : 0 <= h <= 17 -> 0 <= n < 2 ^ 63 -> body_size h n = Ok (n + 1).
Proof.
  intros. unfold body_size. rewrite u64_id by lia.
  bool_false (h + n + 1 <? h). f_equal. lia.
Qed.

Lemma sdsReqType_cap n : 0 <= n < 2 ^ 64 ->
  0 <= sdsReqType n <= 4 /\ n <= type_cap (sdsReqType n).
Proof.
  intros. unfold sdsReqType. repeat split_if;
    unfold SDS_TYPE_5, SDS_TYPE_8, SDS_TYPE_16, SDS_TYPE_32, SDS_TYPE_64; cbn; lia.
Qed.

Lemma type_small t : 0 <= t <= 4 -> t = 0 \/ t = 1 \/ t = 2 \/ t = 3 \/ t = 4.
Proof. lia. Qed.


Lemma fresh_hdr_spec {M : Malloc} t n b : 0 <= t <= 4 -> 0 <= n <= type_cap t ->
  let s := fresh_hdr t n b in
  hdr_ok s /\ sds_type s = t /\ sdslen s = n /\ sdsalloc s = n /\ sds_buf s = b.
Proof.
  intros Ht Hn s. unfold hdr_ok, sdslen, sdsalloc.
  destruct (type_small t Ht) as [->|[->|[->|[->| ->]]]]; unfold type_cap in Hn;
    cbn in Hn; [|unfold s; cbn; rewrite ?u8_id, ?u16_id, ?u32_id, ?u64_id by lia;
    split_and!; auto; lia..].
  destruct (type5_flags s n) as (H1 & H2 & H3); [lia|..].
  { unfold s. cbn. rewrite u64_id; [rewrite type5_bits, u8_id; lia|].
    unfold SDS_TYPE_BITS. rewrite Z.shiftl_mul_pow2; lia. }
  rewrite H2. cbn. split_and!; auto. left. split; [apply u8_range|done].
Qed.

Lemma store_snoc a c d m : store (a ++ c :: m) (zlen a) d = Ok (a ++ d :: m).
Proof.
  rewrite store_Ok by (rewrite length_app; simpl; lia). f_equal.
  by rewrite Nat2Z.id, insert_app_r_alt, Nat.sub_diag by lia.
Qed.

Lemma split_at_len (m : bytes) n : (n < length m)%nat ->
  exists a c b, m = a ++ c :: b /\ length a = n.
Proof.
  intros H. destruct (lookup_lt_is_Some_2 m n H) as [c Hc].
  exists (take n m), c, (drop (S n) m). split; [by rewrite take_drop_middle|].
  rewrite length_take. lia.
Qed.

(** Writing a string and its NUL at an offset of a large enough block. *)
Lemma blit_store (m pre c : bytes) rest :
  m = pre ++ rest -> (length c < length rest)%nat ->
  exists b rest', blit m (zlen pre) c = Ok b /\
    store b (zlen pre + zlen c) 0 = Ok (pre ++ c ++ 0 :: rest') /\
    S (length rest') = (length rest - length c)%nat.
Proof.
  intros -> H. rewrite blit_Ok by (rewrite ?length_app; lia).
  rewrite Nat2Z.id, take_app_length, drop_app_add.
  destruct (drop (length c) rest) as [|d r] eqn:E.
  { apply (f_equal length) in E. rewrite length_drop in E. simpl in E. lia. }
  exists (pre ++ c ++ d :: r), r. split; [done|]. split.
  - replace (zlen pre + zlen c) with (zlen (pre ++ c)) by (rewrite length_app; lia).
    rewrite (assoc_L (++)), store_snoc. by rewrite <- (assoc_L (++)).
  - apply (f_equal length) in E. rewrite length_drop in E. simpl in E. lia.
Qed.

Lemma blit_nil m i : 0 <= i <= zlen m -> blit m i [] = Ok m.
Proof.
  intros. rewrite blit_Ok by (simpl; lia). simpl. by rewrite Nat.add_0_r, take_drop.
Qed.

Lemma blit_store_nul m i d b b' :
  blit m i d = Ok b -> store b (i + zlen d) 0 = Ok b' -> blit m i (d ++ [0]) = Ok b'.
Proof.
  intros H1 H2. pose proof (blit_length _ _ _ _ H1) as Hl.
  unfold store in H2. split_if_in H2; [|done]. injection H2 as [= <-].
  pose proof H1 as H1'. unfold blit in H1'. split_if_in H1'; [|done]. clear H1'.
  destruct (split_at_len m (Z.to_nat i + length d)) as (pq & x & r & -> & Hpq); [lia|].
  rewrite blit_Ok in * by (rewrite ?length_app in *; simpl in *; lia).
  injection H1 as [= <-]. f_equal.
  rewrite !take_app_le by lia. rewrite <- Hpq, drop_app_length.
  rewrite !length_app. simpl. rewrite (Nat.add_assoc (Z.to_nat i)), <- Hpq.
  rewrite drop_app_ge, <- (assoc_L (++) d) by lia.
  replace (length pq + 1 - length pq)%nat with 1%nat by lia. simpl.
  rewrite insert_app_r_alt, insert_app_r_alt by (rewrite ?length_take; lia).
  rewrite length_take. replace (_ - _)%nat with 0%nat by lia. done.
Qed.

Section contracts.
Context {M : Malloc}.

(** What [sdsnewlen] writes behind the header. *)
Lemma newlen_body c m :
  exists b,
    (if zlen c =? 0 then Ok (fresh_block (zlen c + 1))
     else src ← slice (c ++ m) 0 (zlen c); blit (fresh_block (zlen c + 1)) 0 src) = Ok b
    /\ store b (zlen c) 0 = Ok (c ++ [0]).
Proof.
  destruct (blit_store (fresh_block (zlen c + 1)) [] c (fresh_block (zlen c + 1)))
    as (b & r & H1 & H2 & H3); [done|rewrite length_fresh_block; lia|].
  rewrite length_fresh_block in H3. destruct r; [|simpl in H3; lia].
  change (zlen []) with 0 in H1, H2.
  split_if.
  - destruct c; [|simpl in E; lia]. eexists. split; [done|].
    rewrite blit_Ok in H1 by (simpl; lia). injection H1 as [= <-]. apply H2.
  - exists b. rewrite slice_prefix by done. by split.
Qed.

Lemma sdsnewlen_spec c m : zlen c < 2 ^ 62 ->
  returns (sdsnewlen (Some (c ++ m)) (zlen c)) (sds_is c).
Proof.
  intros Hc. unfold sdsnewlen.
  set (t := if _ && _ then _ else _).
  assert (0 <= t <= 4 /\ zlen c <= type_cap t) as [Ht Hcap].
  { destruct (sdsReqType_cap (zlen c)); [lia|]. unfold t.
    split_if; [unfold SDS_TYPE_8; cbn; lia|done]. }
  split_if; [by eexists|].
  rewrite body_size_ok by (pose proof (sdsHdrSize_range t); lia). cbn [mbind result_bind].
  destruct (fresh_hdr_spec t (zlen c) (c ++ [0])) as (F1 & F2 & F3 & F4 & F5); [done|lia|].
  destruct (newlen_body c m) as (b & -> & Hb). cbn [mbind result_bind].
  rewrite Hb. cbn.
  apply (sds_is_intro _ _ []); rewrite ?F3, ?F4, ?F5, ?F2; auto; [lia..|].
  rewrite length_app. simpl. lia.
Qed.

Lemma realloc_body_spec p r n : zlen p <= n ->
  exists r', realloc_body (p ++ r) n = p ++ r' /\ zlen (p ++ r') = n.
Proof.
  intros Hn. unfold realloc_body.
  exists (take (Z.to_nat n - length p) r ++ drop (length (p ++ r)) (fresh_block n)).
  rewrite take_app, (take_ge p) by lia. rewrite <- (assoc_L (++)). split; [done|].
  rewrite !length_app, length_take, length_drop, length_fresh_block. lia.
Qed.

(** Moving a string to another block keeps its content. *)
Lemma sds_resize_ends x s c t n :
  sds_ends x c s -> 0 <= t <= 4 -> zlen c <= n <= type_cap t -> n < 2 ^ 63 ->
  (t = 0 -> n = zlen c) ->
  returns (sds_resize s t n)
    (fun s' => sds_ends x c s' /\ sds_type s' = t /\ sdsalloc s' = n).
Proof.
  intros [Hh Hl _ _ _ (rest & Hb)] Ht Hn Hn' H0. unfold sds_resize. rewrite Hl.
  split_if; [by eexists|].
  rewrite body_size_ok by (pose proof (sdsHdrSize_range t); lia). cbn [mbind result_bind].
  assert (exists s1 r, (if sds_type s =? t
      then Ok (set_buf s (realloc_body (sds_buf s) (n + 1)))
      else src ← slice (sds_buf s) 0 (zlen c + 1);
           b ← blit (fresh_block (n + 1)) 0 src;
           Ok (sdssetlen (mk_sds (junk 0) (junk 1) t b) (zlen c))) = Ok s1 /\
      hdr_ok s1 /\ sds_type s1 = t /\ sdslen s1 = zlen c /\
      sds_buf s1 = c ++ x :: r /\ zlen (sds_buf s1) = n + 1)
    as (s1 & r & -> & F1 & F2 & F3 & F4 & F5).
  { replace (c ++ x :: rest) with ((c ++ [x]) ++ rest) in Hb
      by (by rewrite <- (assoc_L (++))).
    split_if.
    - destruct (realloc_body_spec (c ++ [x]) rest (n + 1)) as (r & Hr & Hz).
      { rewrite length_app; simpl; lia. }
      exists (set_buf s (realloc_body (sds_buf s) (n + 1))), r.
      split; [done|]. cbn. rewrite Hb, Hr. split_and!; auto.
      by rewrite <- (assoc_L (++)).
    - rewrite Hb, slice_prefix by (rewrite length_app; simpl; lia). cbn [mbind result_bind].
      rewrite blit_Ok by (rewrite ?length_fresh_block, ?length_app; simpl; lia).
      cbn [mbind result_bind]. eexists _, _. split; [done|].
      set (b := _ ++ _). set (s0 := mk_sds _ _ t b).
      destruct (type_hdr s0 Ht) as [G1 G2]. change (sds_flags s0) with t in G2.
      destruct (sdssetlen_spec s0 (zlen c)) as (S1 & S2 & S3 & S4 & S5); [done|..].
      { rewrite G2. lia. }
      rewrite S1, S2, S3, G2. split_and!; auto; unfold s0, b; cbn.
      + by rewrite <- (assoc_L (++)).
      + rewrite !length_app, length_drop, length_fresh_block. simpl. lia. }
  cbn [mbind result_bind returns].
  destruct (sdssetalloc_spec s1 n) as (S1 & S2 & S3 & S4 & S5); [done|rewrite F2; lia|].
  assert (sdsalloc (sdssetalloc s1 n) = n) as Ha.
  { rewrite S5, F2, F3. unfold SDS_TYPE_5. split_if; [|done]. rewrite H0; done. }
  split_and!; [|congruence..].
  split; rewrite ?S1, ?Ha, ?S2, ?S3, ?F2; auto; [lia..|by exists r].
Qed.

Lemma sds_resize_spec s c t n :
  sds_is c s -> 0 <= t <= 4 -> zlen c <= n <= type_cap t -> n < 2 ^ 63 ->
  (t = 0 -> n = zlen c) ->
  returns (sds_resize s t n)
    (fun s' => sds_is c s' /\ sds_type s' = t /\ sdsalloc s' = n).
Proof.
  intros Hs Ht Hn Hn' H0. apply sds_is_ends in Hs.
  eapply returns_mono; [by apply (sds_resize_ends 0 s c t n)|].
  intros s' (? & ? & ?). by rewrite sds_is_ends.
Qed.

Lemma sdsMakeRoomFor_ends x s c addlen :
  sds_ends x c s -> 0 <= addlen -> zlen c + addlen < 2 ^ 62 ->
  returns (sdsMakeRoomFor s addlen)
    (fun s' => sds_ends x c s' /\ addlen <= sdsavail s').
Proof.
  intros Hs Ha Hc. unfold sdsMakeRoomFor.
  split_if; [by split|].
  rewrite (ends_len _ _ _ Hs), u64_id by lia.
  set (n := if _ <? _ then _ else _).
  assert (zlen c + addlen <= n < 2 ^ 63) as Hn.
  { unfold n. unfold SDS_MAX_PREALLOC. split_if; rewrite u64_id; lia. }
  set (t := if _ =? _ then _ else _).
  assert (1 <= t <= 4 /\ n <= type_cap t) as [Ht Hcap].
  { destruct (sdsReqType_cap n) as [T1 T2]; [lia|]. unfold t.
    unfold SDS_TYPE_5, SDS_TYPE_8 in *. split_if; [|lia].
    rewrite E0 in T2. cbn in T2 |- *. lia. }
  eapply returns_mono; [apply (sds_resize_ends x s c t n); auto; lia|].
  intros s' (Hs' & Ht' & Ha'). split; [done|].
  destruct (sdsavail_ends _ _ _ Hs') as [-> _]. lia.
Qed.

Lemma sdsMakeRoomFor_spec s c addlen :
  sds_is c s -> 0 <= addlen -> zlen c + addlen < 2 ^ 62 ->
  returns (sdsMakeRoomFor s addlen)
    (fun s' => sds_is c s' /\ addlen <= sdsavail s').
Proof.
  intros Hs Ha Hc. apply sds_is_ends in Hs.
  eapply returns_mono; [by apply (sdsMakeRoomFor_ends 0 s c)|].
  intros s' [? ?]. by rewrite sds_is_ends.
Qed.

(** [sdsRemoveFreeSpace] leaves no free space. *)
Lemma sdsRemoveFreeSpace_spec s c : sds_is c s -> zlen c < 2 ^ 62 ->
  returns (sdsRemoveFreeSpace s) (fun s' => sds_is c s' /\ sdsavail s' = 0).
Proof.
  intros Hs Hc. unfold sdsRemoveFreeSpace. rewrite (sds_is_len _ _ Hs).
  destruct (sdsReqType_cap (zlen c)) as [T1 T2]; [lia|].
  eapply returns_mono; [apply (sds_resize_spec s c); auto; lia|].
  intros s' (Hs' & Ht' & Ha'). split; [done|].
  destruct (sdsavail_spec s') as [-> _]; [apply Hs'|].
  rewrite (sds_is_len _ _ Hs'). lia.
Qed.

(** *** Writing into the buffer *)
Lemma sdssetlen_set_buf s b n : sdssetlen (set_buf s b) n = set_buf (sdssetlen s n) b.
Proof.
  unfold sdssetlen, sds_switch. rewrite sds_type_set_buf. by repeat split_if.
Qed.
Lemma sdslen_set_buf s b : sdslen (set_buf s b) = sdslen s.
Proof. done. Qed.
Lemma sdsalloc_set_buf s b : sdsalloc (set_buf s b) = sdsalloc s.
Proof. done. Qed.

(** Writing [d] and a NUL after the prefix [p] of the content, within the
    allocation, and setting the length. *)
Lemma sds_write s c p d :
  sds_is c s -> p `prefix_of` c -> zlen p + zlen d <= sdsalloc s ->
  exists b b', blit (sds_buf s) (zlen p) d = Ok b /\
    store b (zlen p + zlen d) 0 = Ok b' /\
    sds_is (p ++ d) (set_buf (sdssetlen s (zlen p + zlen d)) b').
Proof.
  intros Hs [q ->] Hd. destruct (sds_is_buf _ _ Hs) as (rest & Hb & Hl).
  destruct Hs as [[Hh Hlen Hcap Hsz _] _]. rewrite length_app in Hl.
  rewrite <- (assoc_L (++)) in Hb.
  pose proof (f_equal length Hb) as Hz. rewrite !length_app in Hz. simpl in Hz.
  destruct (blit_store (sds_buf s) p d (q ++ 0 :: rest)) as (b & r & H1 & H2 & H3);
    [done|rewrite length_app; simpl; lia|].
  exists b, (p ++ d ++ 0 :: r). split_and!; [done..|].
  destruct (sdssetlen_spec s (zlen p + zlen d)) as (S1 & S2 & S3 & S4 & S5); [done|lia|].
  rewrite !length_app in H3. simpl in H3.
  assert (zlen p + zlen d <= sdsalloc (sdssetlen s (zlen p + zlen d)) <= sdsalloc s).
  { rewrite S5. unfold SDS_TYPE_5. split_if; lia. }
  apply (sds_is_intro _ _ r); rewrite ?sdslen_set_buf, ?sdsalloc_set_buf,
    ?sds_type_set_buf, ?S1, ?S2, ?length_app; auto; try lia; cbn.
  - rewrite !length_app. simpl. lia.
  - by rewrite (assoc_L (++)).
Qed.

Lemma sdscatlen_spec s c d m :
  sds_is c s -> zlen c + zlen d < 2 ^ 62 ->
  returns (sdscatlen s (d ++ m) (zlen d)) (sds_is (c ++ d)).
Proof.
  intros Hs Hc. unfold sdscatlen. rewrite (sds_is_len _ _ Hs).
  eapply returns_bind; [apply (sdsMakeRoomFor_spec s c); auto; lia|].
  intros s' [Hs' Ha]. destruct (sdsavail_spec s') as [Hav _]; [apply Hs'|].
  rewrite (sds_is_len _ _ Hs') in Hav.
  destruct (sds_write s' c c d) as (b & b' & H1 & H2 & H3); [done..|lia|].
  rewrite slice_prefix by done. cbn [mbind result_bind].
  rewrite H1. cbn [mbind result_bind]. rewrite u64_id by lia.
  rewrite sdssetlen_set_buf. cbn. rewrite H2. cbn. done.
Qed.

Lemma sdscat_spec s c d m :
  sds_is c s -> no_nul d -> zlen c + zlen d < 2 ^ 62 ->
  returns (sdscat s (d ++ 0 :: m)) (sds_is (c ++ d)).
Proof.
  intros. unfold sdscat. rewrite strlen_app by done. cbn. by apply sdscatlen_spec.
Qed.

Lemma sdscatsds_spec s t c d :
  sds_is c s -> sds_is d t -> zlen c + zlen d < 2 ^ 62 ->
  returns (sdscatsds s t) (sds_is (c ++ d)).
Proof.
  intros Hs Ht Hc. unfold sdscatsds. rewrite (sds_is_len _ _ Ht).
  destruct (sds_is_buf _ _ Ht) as (r & -> & _). by apply sdscatlen_spec.
Qed.

Lemma sdscpylen_spec s c d m :
  sds_is c s -> zlen c + zlen d < 2 ^ 62 ->
  returns (sdscpylen s (d ++ m) (zlen d)) (sds_is d).
Proof.
  intros Hs Hc. unfold sdscpylen.
  apply (returns_bind _ _ (fun s' => sds_is c s' /\ zlen d <= sdsalloc s')).
  - split_if; [|by split]. pose proof (sds_is_len _ _ Hs) as Hl.
    pose proof (wf_len _ (proj1 Hs)). rewrite Hl, u64_id by lia.
    eapply returns_mono; [apply (sdsMakeRoomFor_spec s c); auto; lia|].
    intros s' [Hs' Ha]. split; [done|].
    destruct (sdsavail_spec s') as [Hav _]; [apply Hs'|].
    rewrite (sds_is_len _ _ Hs') in Hav. lia.
  - intros s' [Hs' Ha].
    destruct (sds_write s' c [] d) as (b & b' & H1 & H2 & H3); [done|apply prefix_nil|done|].
    change (zlen [] + zlen d) with (zlen d) in *. change (zlen []) with 0 in *.
    rewrite slice_prefix by done. cbn [mbind result_bind].
    rewrite H1. cbn [mbind result_bind]. rewrite H2. cbn.
    by rewrite sdssetlen_set_buf.
Qed.

Lemma sdsgrowzero_spec s c n :
  sds_is c s -> zlen c <= n < 2 ^ 62 ->
  returns (sdsgrowzero s n) (sds_is (c ++ replicate (Z.to_nat (n - zlen c)) 0)).
Proof.
  intros Hs Hn. unfold sdsgrowzero. rewrite (sds_is_len _ _ Hs).
  split_if.
  { replace n with (zlen c) by lia. rewrite Z.sub_diag. by rewrite app_nil_r. }
  eapply returns_bind; [apply (sdsMakeRoomFor_spec s c); auto; lia|].
  intros s' [Hs' Ha]. destruct (sdsavail_spec s') as [Hav _]; [apply Hs'|].
  rewrite (sds_is_len _ _ Hs') in Hav.
  set (d := replicate (Z.to_nat (n - zlen c)) 0).
  assert (zlen d = n - zlen c) as Hd by (unfold d; rewrite length_replicate; lia).
  destruct (sds_write s' c c d) as (b & b' & H1 & H2 & H3); [done..|lia|].
  replace (replicate (Z.to_nat (n - zlen c + 1)) 0) with (d ++ [0]).
  2: { replace (Z.to_nat (n - zlen c + 1)) with (Z.to_nat (n - zlen c) + 1)%nat by lia.
       by rewrite replicate_add. }
  assert (blit (sds_buf s') (zlen c) (d ++ [0]) = Ok b') as ->.
  { apply blit_store_nul with b; [|done]. by rewrite H1. }
  cbn. rewrite sdssetlen_set_buf. by replace n with (zlen c + zlen d) by lia.
Qed.

Lemma sdsdup_spec s c : sds_is c s -> zlen c < 2 ^ 62 -> returns (sdsdup s) (sds_is c).
Proof.
  intros Hs Hc. unfold sdsdup. destruct (sds_is_buf _ _ Hs) as (r & -> & ->).
  by apply sdsnewlen_spec.
Qed.

Lemma sdsempty_spec : returns sdsempty (sds_is []).
Proof. apply (sdsnewlen_spec [] [0]). simpl. lia. Qed.

Lemma sdsnew_spec c m : no_nul c -> zlen c < 2 ^ 62 ->
  returns (sdsnew (Some (c ++ 0 :: m))) (sds_is c).
Proof.
  intros Hn Hc. unfold sdsnew. rewrite strlen_app by done. cbn. by apply sdsnewlen_spec.
Qed.

End contracts.

(** *** In-place operations *)

(** Cutting a string after a prefix of its content. *)
Lemma sds_cut s c p :
  sds_is c s -> p `prefix_of` c ->
  exists b, store (sds_buf s) (zlen p) 0 = Ok b /\
    sds_is p (set_buf (sdssetlen s (zlen p)) b).
Proof.
  intros Hs Hp. pose proof (prefix_length _ _ Hp).
  pose proof (wf_len _ (proj1 Hs)). rewrite (sds_is_len _ _ Hs) in *.
  destruct (sds_write s c p []) as (b & b' & H1 & H2 & H3); [done..|simpl; lia|].
  rewrite app_nil_r in H3. simpl in H2, H3. rewrite Z.add_0_r in *.
  rewrite blit_nil in H1 by (pose proof (wf_size _ (proj1 Hs)); lia).
  injection H1 as [= <-]. eauto.
Qed.

(** Moving a later part of the content to the front. *)
Lemma sds_move s c i n :
  sds_is c s -> 0 <= i -> 0 <= n -> i + n <= zlen c ->
  let d := take (Z.to_nat n) (drop (Z.to_nat i) c) in
  exists b b', slice (sds_buf s) i n = Ok d /\ blit (sds_buf s) 0 d = Ok b /\
    store b n 0 = Ok b' /\ sds_is d (set_buf (sdssetlen s n) b').
Proof.
  intros Hs Hi Hn Hle d. destruct (sds_is_buf _ _ Hs) as (r & Hb & Hl).
  pose proof (wf_len _ (proj1 Hs)).
  assert (zlen d = n) as Hd by (unfold d; rewrite length_take, length_drop; lia).
  destruct (sds_write s c [] d) as (b & b' & H1 & H2 & H3);
    [done|apply prefix_nil|simpl; lia|].
  change (zlen [] + zlen d) with (zlen d) in *. rewrite Hd in *.
  exists b, b'. split_and!; auto.
  rewrite Hb, slice_Ok by (rewrite ?length_app; simpl; lia). f_equal. unfold d.
  rewrite drop_app_le by lia. rewrite take_app_le; [done|].
  rewrite length_drop. lia.
Qed.

Lemma sdsclear_spec s c : sds_is c s ->
  exists s', sdsclear s = Ok s' /\ sds_is [] s'.
Proof.
  intros Hs. destruct (sds_cut s c []) as (b & H1 & H2); [done|apply prefix_nil|].
  unfold sdsclear.
  assert (sds_buf (sdssetlen s 0) = sds_buf s) as ->.
  { destruct Hs as [[Hh ? Hc _ _] _]. apply sdssetlen_spec; [done|]. lia. }
  change (zlen []) with 0 in *. rewrite H1. cbn. eauto.
Qed.

(** [sdsupdatelen] cuts at the first NUL. *)
Lemma sdsupdatelen_spec s c p q :
  sds_is c s -> zlen c < 2 ^ 31 -> no_nul p -> (c = p /\ q = [] \/ c = p ++ 0 :: q) ->
  exists s', sdsupdatelen s = Ok s' /\ sds_is p s'.
Proof.
  intros Hs Hc Hp Hq. destruct (sds_is_buf _ _ Hs) as (r & Hb & Hl).
  assert (exists r', sds_buf s = p ++ 0 :: r') as [r' Hb'].
  { destruct Hq as [[-> ->]| ->]; [eauto|]. rewrite Hb, <- (assoc_L (++)). simpl. eauto. }
  assert (p `prefix_of` c) as Hpc.
  { destruct Hq as [[-> ->]| ->]; [done|by eexists]. }
  pose proof (prefix_length _ _ Hpc).
  unfold sdsupdatelen. rewrite Hb', strlen_app by done. cbn.
  rewrite s32_id, u64_id by lia. eexists. split; [done|].
  destruct (sds_cut s c p) as (b & H1 & H2); [done..|].
  rewrite Hb' in H1. rewrite store_snoc in H1. injection H1 as [= <-].
  rewrite <- Hb', <- sdssetlen_set_buf in H2.
  by destruct s.
Qed.

(** The substring of [c] from [start] to [end_] inclusive; negative indexes
    count from the end, as the comment of [sdsrange] says. *)
Definition range_spec (c : bytes) (start end_ : Z) : bytes :=
  let len := zlen c in
  let st := if start <? 0 then Z.max 0 (len + start) else start in
  let e := Z.min (if end_ <? 0 then Z.max 0 (len + end_) else end_) (len - 1) in
  take (Z.to_nat (e - st + 1)) (drop (Z.to_nat st) c).

(** The end of [sdsrange]: move [n] bytes from [i] to the front and cut. *)
Lemma sds_sub s c i n :
  sds_is c s -> 0 <= i -> 0 <= n -> n = 0 \/ i + n <= zlen c ->
  exists s',
    (b ← (if negb (i =? 0) && negb (n =? 0)
          then src ← slice (sds_buf s) i n; blit (sds_buf s) 0 src
          else Ok (sds_buf s));
     b ← store b n 0;
     Ok (sdssetlen (set_buf s b) n)) = Ok s'
    /\ sds_is (take (Z.to_nat n) (drop (Z.to_nat i) c)) s'.
Proof.
  intros Hs Hi Hn Hle. destruct (negb (i =? 0) && negb (n =? 0)) eqn:E.
  - bool_to_prop.
    destruct (sds_move s c i n) as (b & b' & -> & H2 & H3 & H4); [done|lia..|].
    cbn [mbind result_bind]. rewrite H2. cbn [mbind result_bind]. rewrite H3. cbn.
    rewrite sdssetlen_set_buf. eauto.
  - assert (i = 0 \/ n = 0) as Hin.
    { apply andb_false_iff in E as [E|E]; bool_to_prop; auto. }
    set (d := take _ _).
    assert (d = take (Z.to_nat n) c) as Hd.
    { unfold d. destruct Hin as [->| ->]; done. }
    destruct (sds_cut s c d) as (b & H1 & H2); [done|rewrite Hd; apply prefix_take|].
    assert (zlen d = n) as Hz by (unfold d; rewrite length_take, length_drop; lia).
    rewrite Hz in *. cbn [mbind result_bind]. rewrite H1. cbn.
    rewrite sdssetlen_set_buf. eauto.
Qed.

(** The adjustment of a negative index. *)
Lemma range_index len i : 0 <= len < 2 ^ 31 - 1 -> - 2 ^ 31 <= i < 2 ^ 31 ->
  (if i <? 0 then let x := s32 (len + i) in if x <? 0 then 0 else x else i) =
  (if i <? 0 then Z.max 0 (len + i) else i).
Proof. intros. split_if; [|done]. rewrite s32_id by lia. cbv zeta. split_if; lia. Qed.

Lemma sdsrange_spec s c start end_ :
  sds_is c s -> zlen c < 2 ^ 31 - 1 ->
  - 2 ^ 31 <= start < 2 ^ 31 -> - 2 ^ 31 <= end_ < 2 ^ 31 - 1 ->
  exists s', sdsrange s start end_ = Ok s' /\ sds_is (range_spec c start end_) s'.
Proof.
  intros Hs Hc Hst He. unfold sdsrange, range_spec. rewrite (sds_is_len _ _ Hs).
  split_if.
  { exists s. split; [done|]. destruct c; [|simpl in E; lia].
    by rewrite drop_nil, take_nil. }
  rewrite (s32_id (zlen c)), (s32_id (zlen c - 1)) by lia.
  rewrite !range_index by lia.
  set (st := if start <? 0 then _ else start). set (e := if end_ <? 0 then _ else end_).
  assert (0 <= st < 2 ^ 31) by (unfold st; repeat split_if; lia).
  assert (0 <= e < 2 ^ 31 - 1) by (unfold e; repeat split_if; lia).
  rewrite (s32_id (e - st + 1)) by lia. clearbody st e.
  set (p := if negb _ then _ else _). set (p' := p).
  assert (exists i n, p' = (i, n) /\ 0 <= i /\ 0 <= n /\ (n = 0 \/ i + n <= zlen c) /\
    take (Z.to_nat n) (drop (Z.to_nat i) c) =
    take (Z.to_nat (Z.min e (zlen c - 1) - st + 1)) (drop (Z.to_nat st) c))
    as (i & n & -> & Hi & Hn & Hin & <-).
  { assert (forall i n, 0 <= i -> 0 <= n -> n = 0 \/ i + n <= zlen c ->
      (i = st /\ n = Z.max 0 (Z.min e (zlen c - 1) - st + 1)
       \/ n = 0 /\ Z.min e (zlen c - 1) - st + 1 <= 0
       \/ n = 0 /\ zlen c <= st) -> p' = (i, n) ->
      exists i n, p' = (i, n) /\ 0 <= i /\ 0 <= n /\ (n = 0 \/ i + n <= zlen c) /\
      take (Z.to_nat n) (drop (Z.to_nat i) c) =
      take (Z.to_nat (Z.min e (zlen c - 1) - st + 1)) (drop (Z.to_nat st) c)) as X.
    { intros i n ??? Hcase ?. exists i, n. split_and!; auto.
      destruct Hcase as [[-> ->]|[[-> ?]|[-> ?]]].
      - f_equal. lia.
      - by replace (Z.to_nat (_ - _ + _)) with 0%nat by lia.
      - rewrite (drop_ge c (Z.to_nat st)) by lia. by rewrite take_nil. }
    assert (p = p') as Hp by done. clearbody p'. unfold p in Hp. clear p.
    destruct (e <? st) eqn:E1; bool_to_prop; cbn [negb Z.eqb] in Hp.
    { by eapply X; [| | | |symmetry; exact Hp]; try lia. }
    rewrite (u64_id (e - st + 1)) in Hp by lia.
    replace (e - st + 1 =? 0) with false in Hp by lia. cbn [negb] in Hp.
    repeat split_if_in Hp; autorewrite with wrap in Hp;
      (eapply X; [| | | |symmetry; exact Hp]; lia). }
  cbn [mbind result_bind]. apply sds_sub; auto.
Qed.

(** *** Trimming *)

(** [c] without its longest prefix, resp. suffix, of bytes satisfying [f]. *)
Fixpoint drop_while (f : Z -> bool) (c : bytes) : bytes :=
  match c with
  | [] => []
  | x :: c' => if f x then drop_while f c' else c
  end.
Definition rdrop_while (f : Z -> bool) (c : bytes) : bytes :=
  reverse (drop_while f (reverse c)).

Lemma drop_while_suffix f c : exists p, c = p ++ drop_while f c /\ Forall (fun x => f x = true) p.
Proof.
  induction c as [|x c (p & Hp & Hf)]; simpl; [by exists []|].
  split_if; [|by exists []]. exists (x :: p). simpl. split; [congruence|by constructor].
Qed.

Lemma rdrop_while_snoc f c x :
  rdrop_while f (c ++ [x]) = if f x then rdrop_while f c else c ++ [x].
Proof.
  unfold rdrop_while. rewrite reverse_snoc. simpl. split_if; [done|].
  by rewrite reverse_cons, reverse_involutive.
Qed.

Lemma drop_while_head f c y q : drop_while f c = y :: q -> f y = false.
Proof. induction c as [|x c IH]; simpl; [done|]. split_if; [done|]. by intros [= -> ->]. Qed.

Lemma rdrop_while_cons f y q : f y = false -> exists z, rdrop_while f (y :: q) = y :: z.
Proof.
  intros Hy. induction q as [|x q IH] using rev_ind.
  - change [y] with ([] ++ [y]). rewrite rdrop_while_snoc, Hy. by exists [].
  - change (y :: q ++ [x]) with ((y :: q) ++ [x]). rewrite rdrop_while_snoc.
    split_if; [done|]. by eexists.
Qed.

Lemma load_middle p x q : load (p ++ x :: q) (zlen p) = Ok x.
Proof. by apply load_at with p q. Qed.

Lemma trim_front_spec fuel m cset p q r :
  m = p ++ q ++ r -> (length q < fuel)%nat ->
  exists p', trim_front fuel m cset (zlen p) (zlen p + zlen q - 1) = Ok (zlen p') /\
    p ++ q = p' ++ drop_while (strchr_in cset) q.
Proof.
  revert p q; induction fuel as [|n IH]; [lia|]. intros p q -> Hq. simpl.
  destruct q as [|x q]; simpl in *.
  - if_false. by exists p.
  - if_true. rewrite load_middle. cbn [mbind result_bind].
    destruct (strchr_in cset x); [|by exists p].
    destruct (IH (p ++ [x]) q) as (p' & H1 & H2);
      [by rewrite <- (assoc_L (++))|lia|].
    exists p'. rewrite <- (assoc_L (++)) in H2. split; [|done]. rewrite <- H1.
    rewrite length_app. simpl. f_equal; lia.
Qed.

Lemma trim_back_spec fuel m cset p y q r :
  m = p ++ (y :: q) ++ r -> (length q < fuel)%nat -> strchr_in cset y = false ->
  trim_back fuel m cset (zlen p) (zlen p + zlen q)
  = Ok (zlen p + zlen (rdrop_while (strchr_in cset) (y :: q)) - 1).
Proof.
  revert q r; induction fuel as [|n IH]; [lia|]. intros q r -> Hq Hy. simpl.
  destruct q as [|x q _] using rev_ind.
  - if_false. change (y :: []) with ([] ++ [y]). rewrite rdrop_while_snoc, Hy.
    f_equal. simpl. lia.
  - rewrite length_app in *. simpl in Hq. if_true.
    change (y :: q ++ [x]) with ((y :: q) ++ [x]). rewrite rdrop_while_snoc.
    replace (zlen p + Z.of_nat (length q + length [x])) with (zlen (p ++ y :: q))
      by (rewrite length_app; simpl; lia).
    replace (p ++ y :: (q ++ [x]) ++ r) with ((p ++ y :: q) ++ x :: r)
      by solve_app.
    rewrite load_middle. cbn [mbind result_bind].
    destruct (strchr_in cset x).
    + rewrite <- (IH q (x :: r)); [|solve_app|slia|done].
      f_equal; [solve_app|slia].
    + f_equal. slia.
Qed.

Lemma rdrop_while_prefix f c : rdrop_while f c `prefix_of` c.
Proof.
  unfold rdrop_while. destruct (drop_while_suffix f (reverse c)) as (p & Hp & _).
  exists (reverse p). by rewrite <- reverse_app, <- Hp, reverse_involutive.
Qed.

(** The trimmed string. [strchr] also matches the terminator of [cset], so
    NUL bytes are trimmed too. *)
Definition trim_spec (cset c : bytes) : bytes :=
  rdrop_while (strchr_in cset) (drop_while (strchr_in cset) c).

Lemma sdstrim_spec s c cset : sds_is c s ->
  exists s', sdstrim s cset = Ok s' /\ sds_is (trim_spec cset c) s'.
Proof.
  intros Hs. destruct (sds_is_buf _ _ Hs) as (r & Hb & Hl).
  unfold sdstrim, trim_spec. rewrite Hl.
  set (fuel := S (S (length (sds_buf s)))).
  assert (length c < fuel)%nat as Hf by (unfold fuel; rewrite Hb, length_app; lia).
  destruct (trim_front_spec fuel (sds_buf s) cset [] c (0 :: r)) as (p & H1 & H2); [done..|].
  change (zlen [] + zlen c - 1) with (zlen c - 1) in H1. change (zlen []) with 0 in H1.
  rewrite H1. cbn [mbind result_bind]. simpl in H2. clear H1.
  pose proof (f_equal length H2) as Hz. rewrite length_app in Hz.
  set (q := drop_while (strchr_in cset) c) in *.
  assert (exists ep, trim_back fuel (sds_buf s) cset (zlen p) (zlen c - 1) = Ok ep /\
    (if ep <? zlen p then 0 else ep - zlen p + 1) = zlen (rdrop_while (strchr_in cset) q))
    as (ep & Hep & Hlen).
  { destruct q as [|y q'] eqn:Eq.
    - exists (zlen c - 1). simpl in *. 
      bool_false (zlen p <? zlen c - 1). bool_true (zlen c - 1 <? zlen p). done.
    - eexists. split.
      + replace (zlen c - 1) with (zlen p + zlen q') by (simpl in Hz; lia).
        apply trim_back_spec with (r := 0 :: r); [|simpl in Hz; lia|].
        * rewrite Hb, H2. solve_app.
        * by apply (drop_while_head _ c y q').
      + destruct (rdrop_while_cons (strchr_in cset) y q') as [z Hz'].
        { by apply (drop_while_head _ c y q'). }
        rewrite Hz'. simpl. split_if; lia. }
  cbv zeta. rewrite Hep. cbn [mbind result_bind]. rewrite Hlen.
  destruct (rdrop_while_prefix (strchr_in cset) q) as [t Ht].
  set (d := rdrop_while _ q) in *.
  assert (length q = length d + length t)%nat by (by rewrite Ht, length_app at 1).
  destruct (zlen p =? 0) eqn:E; bool_to_prop.
  - cbn [mbind result_bind]. destruct (sds_cut s c d) as (b & -> & H5); [done|..].
    { destruct p; [|simpl in E; lia]. rewrite H2, Ht. by eexists. }
    cbn. rewrite sdssetlen_set_buf. eauto.
  - destruct (sds_move s c (zlen p) (zlen d)) as (b & b' & H3 & H4 & H5 & H6);
      [done|lia..|].
    rewrite H3. cbn [mbind result_bind]. rewrite H4. cbn [mbind result_bind].
    rewrite H5. cbn. rewrite sdssetlen_set_buf.
    rewrite !Nat2Z.id, H2, drop_app_length in H6. rewrite Ht, take_app_length in H6. eauto.
Qed.

(** *** Case mapping, comparison and manual growth *)
Lemma map_loop_spec f q : forall m p r,
  m = p ++ q ++ r -> map_loop f (length q) m (zlen p) = Ok (p ++ (f <$> q) ++ r).
Proof.
  induction q as [|x q IH]; intros m p r ->; [done|]. cbn [map_loop length app].
  rewrite load_middle. cbn [mbind result_bind]. rewrite store_snoc. cbn [mbind result_bind].
  replace (zlen p + 1) with (zlen (p ++ [f x])) by slia.
  rewrite (IH _ (p ++ [f x]) r) by solve_app. cbn. f_equal. solve_app.
Qed.

(** A bytewise map over the content that keeps the layout. *)
Lemma sds_map_spec s c f : sds_is c s -> zlen c < 2 ^ 31 ->
  exists b, map_loop f (Z.to_nat (s32 (sdslen s))) (sds_buf s) 0 = Ok b /\
    sds_is (f <$> c) (set_buf s b).
Proof.
  intros Hs Hc. destruct (sds_is_buf _ _ Hs) as (r & Hb & Hl). rewrite Hl, s32_id by lia.
  rewrite Nat2Z.id. eexists. split; [by apply (map_loop_spec f c _ [] (0 :: r))|].
  destruct Hs as [[Hh Hlen Hcap Hsz _] _].
  apply (sds_is_intro _ _ r); rewrite ?sdslen_set_buf, ?sdsalloc_set_buf, ?length_fmap;
    auto; try lia.
  rewrite Hb in Hsz. cbn. rewrite !length_app in *. rewrite length_fmap. done.
Qed.

Lemma sdstolower_spec s c : sds_is c s -> zlen c < 2 ^ 31 ->
  exists s', sdstolower s = Ok s' /\ sds_is (tolower <$> c) s'.
Proof.
  intros Hs Hc. destruct (sds_map_spec s c tolower Hs Hc) as (b & H1 & H2).
  unfold sdstolower. rewrite H1. cbn. eauto.
Qed.

Lemma sdstoupper_spec s c : sds_is c s -> zlen c < 2 ^ 31 ->
  exists s', sdstoupper s = Ok s' /\ sds_is (toupper <$> c) s'.
Proof.
  intros Hs Hc. destruct (sds_map_spec s c toupper Hs Hc) as (b & H1 & H2).
  unfold sdstoupper. rewrite H1. cbn. eauto.
Qed.

(** The order [sdscmp] decides: bytewise, a proper prefix being smaller. *)
Fixpoint lex_compare (a b : bytes) : comparison :=
  match a, b with
  | [], [] => Eq
  | [], _ :: _ => Lt
  | _ :: _, [] => Gt
  | x :: a', y :: b' => match x ?= y with Eq => lex_compare a' b' | c => c end
  end.

Lemma lex_compare_memcmp a b n :
  n = Nat.min (length a) (length b) ->
  let m := memcmp (take n a) (take n b) in
  lex_compare a b = ((if m =? 0 then zlen a - zlen b else m) ?= 0).
Proof.
  revert b n; induction a as [|x a IH]; intros [|y b] n Hn; subst n; simpl; auto.
  destruct (Z.compare_spec x y) as [->|H|H].
  - rewrite Z.eqb_refl. rewrite (IH b _ eq_refl). split_if; [|done].
    f_equal. lia.
  - bool_false (x =? y). if_false. symmetry. apply Z.compare_lt_iff. lia.
  - bool_false (x =? y). if_false. symmetry. apply Z.compare_gt_iff. lia.
Qed.

Lemma sdscmp_spec s1 s2 c1 c2 :
  sds_is c1 s1 -> sds_is c2 s2 -> zlen c1 < 2 ^ 31 -> zlen c2 < 2 ^ 31 ->
  exists r, sdscmp s1 s2 = Ok r /\ (r ?= 0) = lex_compare c1 c2.
Proof.
  intros H1 H2 L1 L2. unfold sdscmp.
  destruct (sds_is_buf _ _ H1) as (r1 & -> & ->).
  destruct (sds_is_buf _ _ H2) as (r2 & -> & ->).
  set (n := Nat.min (length c1) (length c2)).
  replace (if zlen c1 <? zlen c2 then zlen c1 else zlen c2) with (Z.of_nat n)
    by (unfold n; split_if; lia).
  rewrite !slice_Ok by (rewrite ?length_app; simpl; unfold n; lia).
  cbn [mbind result_bind]. rewrite !drop_0, Nat2Z.id.
  rewrite !take_app_le by (unfold n; lia).
  eexists. split; [done|]. rewrite (lex_compare_memcmp c1 c2 n) by done. cbv zeta.
  split_if; [|done]. f_equal. unfold s32, u64. lia.
Qed.

(** [sdsIncrLen] within the allocation is [sdssetlen] and a NUL. *)
Lemma sdsIncrLen_setlen s n :
  hdr_ok s -> sdsalloc s <= type_cap (sds_type s) -> 0 <= sdslen s ->
  - 2 ^ 31 < n < 2 ^ 31 -> 0 <= sdslen s + n <= sdsalloc s ->
  n < 0 \/ sds_type s <> SDS_TYPE_5 ->
  sdsIncrLen s n =
  (b ← store (sds_buf s) (sdslen s + n) 0; Ok (set_buf (sdssetlen s (sdslen s + n)) b)).
Proof.
  intros Hh Hc Hl Hn Hr Ht. unfold sdsIncrLen.
  assert (n < 0 -> (n <? 0) && (u32 (- n) <=? sdslen s) = true) as Hneg.
  { intros. rewrite u32_id by lia. apply andb_true_iff. split; lia. }
  set (neg := _ && (u32 _ <=? _)) in *. clearbody neg.
  unfold SDS_TYPE_5 in Ht. hdr_cases Hh;
    (match goal with |- context [c_assert ?b] => replace b with true
       by (destruct (decide (n < 0)); [rewrite Hneg by lia; symmetry; apply orb_true_r|];
           rewrite ?u32_id, ?u64_id by lia; symmetry; apply orb_true_iff; left;
           apply andb_true_iff; lia) end);
    cbn [c_assert mbind result_bind];
    rewrite ?u8_id, ?u16_id, ?u32_id, ?u64_id by lia; try done.
  unfold SDS_TYPE_BITS. rewrite (u64_id (Z.shiftl _ _)); [done|].
  rewrite Z.shiftl_mul_pow2, shiftr3 in *; lia.
Qed.

(** After [sdsMakeRoomFor] the caller writes [d] behind the content and makes
    it part of the string with [sdsIncrLen]. *)
Lemma sdsIncrLen_grow s c d b :
  sds_is c s -> sds_type s <> SDS_TYPE_5 -> zlen d <= sdsavail s -> zlen d < 2 ^ 31 ->
  blit (sds_buf s) (sdslen s) d = Ok b ->
  exists s', sdsIncrLen (set_buf s b) (zlen d) = Ok s' /\ sds_is (c ++ d) s'.
Proof.
  intros Hs Ht Hd Hd' Hb. destruct (sdsavail_spec s) as [Hav _]; [apply Hs|].
  pose proof (sds_is_len _ _ Hs) as Hl.
  destruct (sds_write s c c d) as (b1 & b2 & H1 & H2 & H3); [done..|lia|].
  rewrite Hl in *. rewrite H1 in Hb. injection Hb as ->.
  destruct Hs as [[Hh Hlen Hc Hsz Hnul] _].
  rewrite sdsIncrLen_setlen; rewrite ?sdslen_set_buf, ?sdsalloc_set_buf,
    ?sds_type_set_buf, ?Hl in *; auto; try lia.
  cbn [set_buf sds_buf]. rewrite H2. cbn. rewrite sdssetlen_set_buf. eauto.
Qed.

(** A negative increment trims from the right. *)
Lemma sdsIncrLen_trim s c d : sds_is (c ++ d) s -> d <> [] -> zlen d < 2 ^ 31 ->
  exists s', sdsIncrLen s (- zlen d) = Ok s' /\ sds_is c s'.
Proof.
  intros Hs Hne Hd. pose proof (sds_is_len _ _ Hs) as Hl.
  destruct (sds_cut s (c ++ d) c) as (b & H1 & H2); [done|by apply prefix_app_r|].
  destruct Hs as [[Hh Hlen Hc Hsz Hnul] _]. rewrite length_app in Hl.
  destruct d as [|x d]; [done|]. simpl in *.
  rewrite sdsIncrLen_setlen; auto; try lia.
  replace (sdslen s + _) with (zlen c) by lia. rewrite H1. cbn. eauto.
Qed.
