(* ===== verification/SdsText.v ===== *)
(** * SdsText: numbers, formats, quoting and splitting (sds.c)

    The part of sds.c that reads and writes text. [va_list] is the list of the
    arguments that are left, and [vsnprintf] writes a text that the caller
    gives ([out]), cut to the buffer. *)
From S2P Require Import Prelude Mem Sds.
From stdpp Require Import list list_numbers strings sets gmap.
From Stdlib Require Import ZArith Lia.
Open Scope Z_scope.

Definition SDS_LLSTR_SIZE : Z := 21.

(** [do { p++[0] = '0'+(v%10); v /= 10; } while(v)]. *)
Fixpoint put_digits (fuel : nat) (m : bytes) (p v : Z) : result (bytes * Z) :=
  match fuel with
  | O => Fault OutOfFuel
  | S f =>
      m ← store m p (48 + v mod 10);
      let v := v / 10 in
      if v =? 0 then Ok (m, p + 1) else put_digits f m (p + 1) v
  end.

(** [while(s < p) { swap; s++; p--; }]. *)
Fixpoint reverse_loop (fuel : nat) (m : bytes) (s p : Z) : result bytes :=
  match fuel with
  | O => Fault OutOfFuel
  | S f =>
      if s <? p then
        aux ← load m s;
        c ← load m p;
        m ← store m s c;
        m ← store m p aux;
        reverse_loop f m (s + 1) (p - 1)
      else Ok m
  end.

(** The buffer after the call and the length; 20 digits are enough for 64 bits. *)
Definition sdsll2str (m : bytes) (value : Z) : result (bytes * Z) :=
  let v := u64 (if value <? 0 then s64 (- value) else value) in
  '(m, p) ← put_digits 20 m 0 v;
  '(m, p) ← (if value <? 0 then m ← store m p 45; Ok (m, p + 1) else Ok (m, p));
  let l := p in
  m ← store m p 0;
  m ← reverse_loop (S (Z.to_nat l)) m 0 (p - 1);
  Ok (m, s32 l).

Definition sdsull2str (m : bytes) (v : Z) : result (bytes * Z) :=
  '(m, p) ← put_digits 20 m 0 v;
  let l := p in
  m ← store m p 0;
  m ← reverse_loop (S (Z.to_nat l)) m 0 (p - 1);
  Ok (m, s32 l).

Section text.
Context {M : Malloc}.

Definition sdsfromlonglong (value : Z) : result (option sds) :=
  '(buf, len) ← sdsll2str (fresh_block SDS_LLSTR_SIZE) value;
  sdsnewlen (Some buf) len.

(** ** printf *)

(** [vsnprintf(buf, size, ...)] when the whole text is [out]. *)
Definition vsnprintf (buf : bytes) (size : Z) (out : bytes) : result bytes :=
  blit buf 0 (take (Z.to_nat (size - 1)) out ++ [0]).

(** One round of the loop of [sdscatvprintf] with a buffer of [buflen] bytes,
    and the next round with a buffer twice as long. *)
Fixpoint catvprintf_loop (fuel : nat) (buflen : Z) (out : bytes) : result (option bytes) :=
  match fuel with
  | O => Fault OutOfFuel
  | S f =>
      buf ← store (fresh_block buflen) (buflen - 2) 0;
      buf ← vsnprintf buf buflen out;
      c ← load buf (buflen - 2);
      if negb (c =? 0) then
        let buflen := u64 (buflen * 2) in
        if negb (malloc_ok buflen) then Ok None else catvprintf_loop f buflen out
      else Ok (Some buf)
  end.

(** The static buffer has 1024 bytes; it doubles at most 64 times. *)
Definition sdscatvprintf (s : sds) (fmt out : bytes) : result (option sds) :=
  n ← strlen fmt;
  let buflen := u64 (n * 2) in
  if (1024 <? buflen) && negb (malloc_ok buflen) then Ok None else
  let buflen := if 1024 <? buflen then buflen else 1024 in
  buf <-! catvprintf_loop 64 buflen out;
  sdscat s buf.

Definition sdscatprintf (s : sds) (fmt out : bytes) : result (option sds) :=
  sdscatvprintf s fmt out.

(** ** sdscatfmt *)

(** What [va_arg] yields: a C string, an sds, or an integer of a type. *)
Inductive fmt_arg : Type :=
  | AStr (p : bytes)
  | ASds (s : sds)
  | AInt (n : Z)
  | ALongLong (n : Z)
  | AUnsigned (n : Z)
  | AULongLong (n : Z).

(** [va_arg] with an argument of another type, or none, is undefined. *)
Definition no_arg {A} : result A := Fault OutOfBounds.

(** A result that is used without a test for [NULL]. *)
Definition unchecked {A} (m : result (option A)) : result A := p ← m; deref p.

(** [memcpy(s+i,str,l); sdsinclen(s,l); i += l;] after making room. *)
Definition fmt_append (s : sds) (i : Z) (str : bytes) (l : Z) : result (sds * Z) :=
  s ← (if sdsavail s <? l then unchecked (sdsMakeRoomFor s l) else Ok s);
  src ← slice str 0 l;
  b ← blit (sds_buf s) i src;
  Ok (sdsinclen (set_buf s b) l, s32 (u64 (i + l))).

(** [s[i++] = c; sdsinclen(s,1);]. *)
Definition fmt_char (s : sds) (i c : Z) : result (sds * Z) :=
  b ← store (sds_buf s) i c;
  Ok (sdsinclen (set_buf s b) 1, s32 (i + 1)).

(** The conversion [next], with the arguments that are left after it. *)
Definition fmt_conv (s : sds) (i next : Z) (ap : list fmt_arg) :
    result (sds * Z * list fmt_arg) :=
  if next =? 115 then
    match ap with
    | AStr p :: ap => l ← strlen p; '(s, i) ← fmt_append s i p l; Ok (s, i, ap)
    | _ => no_arg
    end
  else if next =? 83 then
    match ap with
    | ASds p :: ap => '(s, i) ← fmt_append s i (sds_buf p) (sdslen p); Ok (s, i, ap)
    | _ => no_arg
    end
  else if (next =? 105) || (next =? 73) then
    '(num, ap) ← match ap with
                 | AInt n :: ap => if next =? 105 then Ok (n, ap) else no_arg
                 | ALongLong n :: ap => if next =? 105 then no_arg else Ok (n, ap)
                 | _ => no_arg
                 end;
    '(buf, l) ← sdsll2str (fresh_block SDS_LLSTR_SIZE) num;
    '(s, i) ← fmt_append s i buf l; Ok (s, i, ap)
  else if (next =? 117) || (next =? 85) then
    '(unum, ap) ← match ap with
                  | AUnsigned n :: ap => if next =? 117 then Ok (n, ap) else no_arg
                  | AULongLong n :: ap => if next =? 117 then no_arg else Ok (n, ap)
                  | _ => no_arg
                  end;
    '(buf, l) ← sdsull2str (fresh_block SDS_LLSTR_SIZE) unum;
    '(s, i) ← fmt_append s i buf l; Ok (s, i, ap)
  else '(s, i) ← fmt_char s i next; Ok (s, i, ap).

(** [f] is the offset of the format pointer. *)
Fixpoint catfmt_loop (fuel : nat) (s : sds) (fmt : bytes) (f i : Z) (ap : list fmt_arg) :
    result (sds * Z) :=
  match fuel with
  | O => Fault OutOfFuel
  | S n =>
      c ← load fmt f;
      if c =? 0 then Ok (s, i) else
      s ← (if sdsavail s =? 0 then unchecked (sdsMakeRoomFor s 1) else Ok s);
      if c =? 37 then
        next ← load fmt (f + 1);
        '(s, i, ap) ← fmt_conv s i next ap;
        catfmt_loop n s fmt (f + 2) i ap
      else
        '(s, i) ← fmt_char s i c;
        catfmt_loop n s fmt (f + 1) i ap
  end.

Definition sdscatfmt (s : sds) (fmt : bytes) (ap : list fmt_arg) : result sds :=
  '(s, i) ← catfmt_loop (S (length fmt)) s fmt 0 (s32 (sdslen s)) ap;
  b ← store (sds_buf s) i 0;
  Ok (set_buf s b).

(** ** Quoting *)

(** The digits of [%02x] of a byte. *)
Definition hex_char (n : Z) : Z := if n <? 10 then 48 + n else 87 + n.

(** One byte of [sdscatrepr]; the result of every call is used unchecked. *)
Definition repr_char (s : sds) (c : Z) : result sds :=
  unchecked
    (if (c =? 92) || (c =? 34) then sdscatprintf s (cstr "\%c") [92; c]
     else if c =? 10 then sdscatlen s (cstr "\n") 2
     else if c =? 13 then sdscatlen s (cstr "\r") 2
     else if c =? 9 then sdscatlen s (cstr "\t") 2
     else if c =? 7 then sdscatlen s (cstr "\a") 2
     else if c =? 8 then sdscatlen s (cstr "\b") 2
     else if isprint c then sdscatprintf s (cstr "%c") [c]
     else sdscatprintf s (cstr "\x%02x") [92; 120; hex_char (c / 16); hex_char (c mod 16)]).

Fixpoint repr_loop (s : sds) (p : bytes) (i : Z) (len : nat) : result sds :=
  match len with
  | O => Ok s
  | S n => c ← load p i; s ← repr_char s c; repr_loop s p (i + 1) n
  end.

Definition sdscatrepr (s : sds) (p : bytes) (len : Z) : result (option sds) :=
  s ← unchecked (sdscatlen s [34; 0] 1);
  s ← repr_loop s p 0 (Z.to_nat len);
  sdscatlen s [34; 0] 1.

Definition is_hex_digit (c : Z) : bool :=
  ((48 <=? c) && (c <=? 57)) || ((97 <=? c) && (c <=? 102)) || ((65 <=? c) && (c <=? 70)).

Definition hex_digit_to_int (c : Z) : Z :=
  if (48 <=? c) && (c <=? 57) then c - 48 else
  if (97 <=? c) && (c <=? 102) then c - 87 else
  if (65 <=? c) && (c <=? 70) then c - 55 else 0.

(** ** Splitting a line into arguments *)

Definition cat_byte (s : sds) (c : Z) : result sds := unchecked (sdscatlen s [c] 1).

(** [while(p[0] && isspace(p[0])) p++]. *)
Fixpoint skip_blanks (fuel : nat) (line : bytes) (p : Z) : result Z :=
  match fuel with
  | O => Fault OutOfFuel
  | S f =>
      c ← load line p;
      if negb (c =? 0) && isspace c then skip_blanks f line (p + 1) else Ok p
  end.

(** The escape [\xHH] at [p]: the tests are made from left to right. *)
Definition hex_escape (line : bytes) (p : Z) : result (option Z) :=
  c0 ← load line p;
  if negb (c0 =? 92) then Ok None else
  c1 ← load line (p + 1);
  if negb (c1 =? 120) then Ok None else
  c2 ← load line (p + 2);
  if negb (is_hex_digit c2) then Ok None else
  c3 ← load line (p + 3);
  if negb (is_hex_digit c3) then Ok None else
  Ok (Some (hex_digit_to_int c2 * 16 + hex_digit_to_int c3)).

Definition unescape (c : Z) : Z :=
  if c =? 110 then 10 else if c =? 114 then 13 else if c =? 116 then 9 else
  if c =? 98 then 8 else if c =? 97 then 7 else c.

(** The states of the token loop. *)
Inductive quote : Type := NoQuote | InDouble | InSingle.

(** One step of the token loop before [if (p[0]) p++]: the string, the
    position, the state and [done]; [None] is [goto err]. *)
Definition quote_step (line : bytes) (q : quote) (current : sds) (p : Z) :
    result (option (sds * Z * quote * bool)) :=
  c ← load line p;
  match q with
  | InDouble =>
      h ← hex_escape line p;
      match h with
      | Some byte => s ← cat_byte current byte; Ok (Some (s, p + 3, q, false))
      | None =>
          escape ← (if c =? 92 then c1 ← load line (p + 1); Ok (negb (c1 =? 0)) else Ok false);
          if (escape : bool) then
            c1 ← load line (p + 1);
            s ← cat_byte current (unescape c1); Ok (Some (s, p + 1, q, false))
          else if c =? 34 then
            c1 ← load line (p + 1);
            if negb (c1 =? 0) && negb (isspace c1) then Ok None
            else Ok (Some (current, p, q, true))
          else if c =? 0 then Ok None
          else s ← cat_byte current c; Ok (Some (s, p, q, false))
      end
  | InSingle =>
      escape ← (if c =? 92 then c1 ← load line (p + 1); Ok (c1 =? 39) else Ok false);
      if (escape : bool) then
        s ← cat_byte current 39; Ok (Some (s, p + 1, q, false))
      else if c =? 39 then
        c1 ← load line (p + 1);
        if negb (c1 =? 0) && negb (isspace c1) then Ok None
        else Ok (Some (current, p, q, true))
      else if c =? 0 then Ok None
      else s ← cat_byte current c; Ok (Some (s, p, q, false))
  | NoQuote =>
      if (c =? 32) || (c =? 10) || (c =? 13) || (c =? 9) || (c =? 0)
      then Ok (Some (current, p, q, true))
      else if c =? 34 then Ok (Some (current, p, InDouble, false))
      else if c =? 39 then Ok (Some (current, p, InSingle, false))
      else s ← cat_byte current c; Ok (Some (s, p, q, false))
  end.

Fixpoint token_loop (fuel : nat) (line : bytes) (q : quote) (current : sds) (p : Z) :
    result (option (sds * Z)) :=
  match fuel with
  | O => Fault OutOfFuel
  | S f =>
      r ← quote_step line q current p;
      match r with
      | None => Ok None
      | Some (current, p, q, done) =>
          c ← load line p;
          let p := if negb (c =? 0) then p + 1 else p in
          if (done : bool) then Ok (Some (current, p)) else token_loop f line q current p
      end
  end.

(** [vector] is the array of the tokens read so far; [realloc] of it is not
    checked. *)
Fixpoint splitargs_loop (fuel : nat) (line : bytes) (p : Z) (vector : list sds) :
    result (option (list sds)) :=
  match fuel with
  | O => Fault OutOfFuel
  | S f =>
      p ← skip_blanks (S (length line)) line p;
      c ← load line p;
      if c =? 0 then
        if bool_decide (vector = []) && negb (malloc_ok 8) then Ok None
        else Ok (Some vector)
      else
        current ← unchecked sdsempty;
        t ← token_loop (S (length line)) line NoQuote current p;
        match t with
        | None => Ok None
        | Some (current, p) =>
            if negb (malloc_ok (8 * (zlen vector + 1))) then Fault NullDeref else
            splitargs_loop f line p (vector ++ [current])
        end
  end.

Definition sdssplitargs (line : bytes) : result (option (list sds)) :=
  splitargs_loop (S (length line)) line 0 [].

(** ** Splitting by a separator *)

(** [(seplen == 1 && s[j] == sep[0]) || memcmp(s+j,sep,seplen) == 0]. *)
Definition at_separator (s sep : bytes) (j seplen : Z) : result bool :=
  c ← load s j;
  c0 ← load sep 0;
  if (seplen =? 1) && (c =? c0) then Ok true else
  a ← slice s j seplen;
  b ← slice sep 0 seplen;
  Ok (memcmp a b =? 0).

(** The array of tokens has [slots] places. *)
Definition add_token (tokens : list sds) (slots : Z) (t : sds) : result (list sds) :=
  if zlen tokens <? slots then Ok (tokens ++ [t]) else Fault OutOfBounds.

Fixpoint split_loop (fuel : nat) (s : bytes) (len : Z) (sep : bytes) (seplen slots start j : Z)
    (tokens : list sds) : result (option (list sds * Z * Z)) :=
  match fuel with
  | O => Fault OutOfFuel
  | S f =>
      if j <? s32 (len - (seplen - 1)) then
        let grow := slots <? s32 (zlen tokens + 2) in
        let slots' := if grow then s32 (slots * 2) else slots in
        if grow && negb (malloc_ok (u64 (8 * slots'))) then Ok None else
        found ← at_separator s sep j seplen;
        if (found : bool) then
          src ← slice s start (j - start);
          t ← sdsnewlen (Some src) (j - start);
          match t with
          | None => Ok None
          | Some t =>
              tokens ← add_token tokens slots' t;
              split_loop f s len sep seplen slots' (j + seplen) (j + seplen - 1 + 1) tokens
          end
        else split_loop f s len sep seplen slots' start (j + 1) tokens
      else Ok (Some (tokens, slots, start))
  end.

Definition sdssplitlen (s : bytes) (len : Z) (sep : bytes) (seplen : Z) :
    result (option (list sds)) :=
  if (seplen <? 1) || (len <? 0) then Ok None else
  if negb (malloc_ok (8 * 5)) then Ok None else
  if len =? 0 then Ok (Some []) else
  r <-! split_loop (S (Z.to_nat len)) s len sep seplen 5 0 0 [];
  let '(tokens, slots, start) := r in
  src ← slice s start (len - start);
  t <-! sdsnewlen (Some src) (len - start);
  tokens ← add_token tokens slots t;
  Ok (Some tokens).

(** ** Joining and mapping *)

Fixpoint join_loop (argv : list bytes) (sep : bytes) (join : sds) : result (option sds) :=
  match argv with
  | [] => Ok (Some join)
  | [a] => sdscat join a
  | a :: argv =>
      join ← unchecked (sdscat join a);
      join ← unchecked (sdscat join sep);
      join_loop argv sep join
  end.

(** The arguments and the separator are C strings. *)
Definition sdsjoin (argv : list bytes) (sep : bytes) : result (option sds) :=
  join ← sdsempty;
  match join with
  | None => match argv with [] => Ok None | _ => Fault NullDeref end
  | Some join => join_loop argv sep join
  end.

Fixpoint joinsds_loop (argv : list sds) (sep : bytes) (seplen : Z) (join : sds) :
    result (option sds) :=
  match argv with
  | [] => Ok (Some join)
  | [a] => sdscatsds join a
  | a :: argv =>
      join ← unchecked (sdscatsds join a);
      join ← unchecked (sdscatlen join sep seplen);
      joinsds_loop argv sep seplen join
  end.

Definition sdsjoinsds (argv : list sds) (sep : bytes) (seplen : Z) : result (option sds) :=
  join ← sdsempty;
  match join with
  | None => match argv with [] => Ok None | _ => Fault NullDeref end
  | Some join => joinsds_loop argv sep seplen join
  end.

End text.

(** The inner loop of [sdsmapchars]: the first match in [from] decides. *)
Fixpoint map_char (n : nat) (from to : bytes) (i c : Z) : result Z :=
  match n with
  | O => Ok c
  | S n' =>
      x ← load from i;
      if c =? x then load to i else map_char n' from to (i + 1) c
  end.

Fixpoint mapchars_loop (n : nat) (m from to : bytes) (setlen : nat) (j : Z) : result bytes :=
  match n with
  | O => Ok m
  | S n' =>
      c ← load m j;
      c ← map_char setlen from to 0 c;
      m ← store m j c;
      mapchars_loop n' m from to setlen (j + 1)
  end.

Definition sdsmapchars (s : sds) (from to : bytes) (setlen : Z) : result sds :=
  b ← mapchars_loop (Z.to_nat (sdslen s)) (sds_buf s) from to (Z.to_nat setlen) 0;
  Ok (set_buf s b).
