(* ===== verification/SdsTextFacts.v ===== *)
(** * SdsTextFacts: contracts of the text functions of sds.c *)
From S2P Require Import Prelude Mem Sds SdsFacts SdsText.
From stdpp Require Import list list_numbers strings sets gmap.
From Stdlib Require Import ZArith Lia.
Open Scope Z_scope.

(** ** Numbers *)
Lemma digits_rev_length v : 0 <= v < 2 ^ 64 -> 1 <= zlen (digits_rev v) <= 20.
Proof.
  intros Hv. assert (length (digits_rev v) = length (udec v)) as ->
    by (unfold udec; by rewrite length_reverse).
  pose proof (udec_length_pos v ltac:(lia)). destruct (udec_length v) as [_ Hl]; [lia|].
  split; [done|]. destruct (decide (v < 10)).
  - rewrite udec_small by lia. simpl. lia.
  - specialize (Hl ltac:(lia)). assert (zlen (udec v) - 1 < 20); [|lia].
    apply (Z.pow_lt_mono_r_iff 10); lia.
Qed.

Lemma store_head pre x rest c : store (pre ++ x :: rest) (zlen pre) c = Ok ((pre ++ [c]) ++ rest).
Proof.
  rewrite store_Ok by slia. rewrite Nat2Z.id, insert_app_r_alt, Nat.sub_diag by lia.
  f_equal. solve_app.
Qed.

Lemma put_digits_spec fuel : forall v pre rest, 0 <= v ->
  (length (digits_rev v) <= fuel)%nat -> (length (digits_rev v) <= length rest)%nat ->
  put_digits fuel (pre ++ rest) (zlen pre) v =
  Ok (pre ++ digits_rev v ++ drop (length (digits_rev v)) rest, zlen pre + zlen (digits_rev v)).
Proof.
  induction fuel as [|fuel IH]; intros v pre rest Hv; rewrite (digits_rev_step v) by done;
    intros Hf Hr; [simpl in Hf; lia|].
  destruct rest as [|x rest]; [simpl in Hr; lia|]. cbn [put_digits].
  rewrite store_head. cbn [mbind result_bind]. split_if.
  - simpl. f_equal. f_equal; first [solve_app|lia].
  - cbn [length] in *. replace (zlen pre + 1) with (zlen (pre ++ [48 + v mod 10])) by slia.
    rewrite IH by lia. f_equal. f_equal; first [solve_app|slia].
Qed.

Lemma reverse_loop_spec fuel : forall pre mid post, (length mid < fuel)%nat ->
  reverse_loop fuel (pre ++ mid ++ post) (zlen pre) (zlen pre + zlen mid - 1) =
  Ok (pre ++ reverse mid ++ post).
Proof.
  induction fuel as [|fuel IH]; intros pre mid post Hf; [lia|]. cbn [reverse_loop].
  destruct mid as [|x mid].
  { if_false. done. }
  destruct mid as [|y mid _] using rev_ind.
  { if_false. done. }
  rewrite length_cons, length_app in *. simpl in Hf |- *.
  if_true. rewrite load_middle. cbn [mbind result_bind].
  replace (pre ++ x :: (mid ++ [y]) ++ post) with ((pre ++ x :: mid) ++ y :: post) by solve_app.
  rewrite (load_at _ _ (pre ++ x :: mid) y post) by (done || slia). cbn [mbind result_bind].
  replace ((pre ++ x :: mid) ++ y :: post) with (pre ++ x :: mid ++ y :: post) by solve_app.
  rewrite store_head. cbn [mbind result_bind].
  replace ((pre ++ [y]) ++ mid ++ y :: post) with ((pre ++ y :: mid) ++ y :: post) by solve_app.
  replace (zlen pre + Z.of_nat (S (length mid + 1)) - 1) with (zlen (pre ++ y :: mid)) by slia.
  rewrite store_head. cbn [mbind result_bind].
  replace (((pre ++ y :: mid) ++ [x]) ++ post) with ((pre ++ [y]) ++ mid ++ x :: post) by solve_app.
  replace (zlen pre + 1) with (zlen (pre ++ [y])) by slia.
  replace (zlen (pre ++ y :: mid) - 1) with (zlen (pre ++ [y]) + zlen mid - 1) by slia.
  rewrite IH by lia. f_equal. rewrite reverse_cons, reverse_app. solve_app.
Qed.

(** The end of both conversions: a terminator behind the digits, then the
    digits are reversed. *)
Lemma finish_number ds x rest :
  (m ← store (ds ++ x :: rest) (zlen ds) 0;
   m ← reverse_loop (S (Z.to_nat (zlen ds))) m 0 (zlen ds - 1);
   Ok (m, s32 (zlen ds))) = Ok (reverse ds ++ 0 :: rest, s32 (zlen ds)).
Proof.
  rewrite store_head. cbn [mbind result_bind].
  pose proof (reverse_loop_spec (S (Z.to_nat (zlen ds))) [] ds (0 :: rest)) as Hr.
  cbn [app length] in Hr. change (Z.of_nat 0) with 0 in Hr. rewrite Z.add_0_l in Hr.
  replace ((ds ++ [0]) ++ rest) with (ds ++ 0 :: rest) by solve_app.
  rewrite Hr by lia. done.
Qed.

Lemma drop_cons_exists {A} n (l : list A) : (n < length l)%nat -> exists x r, drop n l = x :: r.
Proof.
  intros Hn. destruct (drop n l) eqn:E; [|eauto].
  apply (f_equal length) in E. rewrite length_drop in E. simpl in E. lia.
Qed.

Lemma sdsull2str_spec m v : 0 <= v < 2 ^ 64 -> SDS_LLSTR_SIZE <= zlen m ->
  exists rest, sdsull2str m v = Ok (udec v ++ 0 :: rest, zlen (udec v)).
Proof.
  intros Hv Hm. unfold SDS_LLSTR_SIZE in Hm. pose proof (digits_rev_length v Hv) as Hd.
  unfold sdsull2str. pose proof (put_digits_spec 20 v [] m) as Hp. cbn [app length] in Hp.
  change (Z.of_nat 0) with 0 in Hp. rewrite Hp, Z.add_0_l by lia. clear Hp.
  cbn [mbind result_bind].
  destruct (drop_cons_exists (length (digits_rev v)) m) as (x & r & ->); [lia|].
  exists r. rewrite finish_number. unfold udec. rewrite length_reverse, s32_id by lia. done.
Qed.

Lemma sdsll2str_spec m value : - 2 ^ 63 <= value < 2 ^ 63 -> SDS_LLSTR_SIZE <= zlen m ->
  exists rest, sdsll2str m value = Ok (sdec value ++ 0 :: rest, zlen (sdec value)).
Proof.
  intros Hv Hm. unfold SDS_LLSTR_SIZE in Hm. unfold sdsll2str.
  set (v := u64 _).
  assert (v = Z.abs value) as Ev.
  { unfold v. split_if; [|rewrite u64_id; lia]. unfold s64, u64. lia. }
  clearbody v. rewrite Ev. clear v Ev.
  pose proof (digits_rev_length (Z.abs value) ltac:(lia)) as Hd.
  pose proof (put_digits_spec 20 (Z.abs value) [] m) as Hp. cbn [app length] in Hp.
  change (Z.of_nat 0) with 0 in Hp. rewrite Hp, Z.add_0_l by lia. clear Hp.
  cbn [mbind result_bind]. set (ds := digits_rev (Z.abs value)) in *.
  unfold sdec. destruct (value <? 0) eqn:En; bool_to_prop.
  - assert (zlen ds <= 19) as Hd19.
    { assert (length ds = length (udec (Z.abs value))) as Eu
        by (unfold udec; by rewrite length_reverse). rewrite Eu.
      destruct (udec_length (Z.abs value)) as [_ Hl]; [lia|].
      destruct (decide (Z.abs value < 10)); [rewrite udec_small by lia; simpl; lia|].
      specialize (Hl ltac:(lia)). assert (zlen (udec (Z.abs value)) - 1 < 19); [|lia].
      apply (Z.pow_lt_mono_r_iff 10); lia. }
    destruct (drop_cons_exists (length ds) m) as (x & r & Ex); [lia|]. rewrite Ex.
    rewrite store_head. cbn [mbind result_bind].
    assert (exists y r', r = y :: r') as (y & r' & ->).
    { apply (f_equal length) in Ex. rewrite length_drop in Ex. destruct r; [|eauto].
      cbn [length] in Ex. lia. }
    replace (zlen ds + 1) with (zlen (ds ++ [45])) by slia.
    exists r'. rewrite finish_number, reverse_app. change (reverse [45]) with [45].
    unfold udec. replace (- value) with (Z.abs value) by lia. fold ds. cbn [app length].
    rewrite length_reverse, length_app, s32_id by (cbn [length]; lia).
    do 2 f_equal. cbn [length]. lia.
  - destruct (drop_cons_exists (length ds) m) as (x & r & ->); [lia|].
    exists r. cbn [mbind result_bind]. rewrite finish_number.
    assert (udec value = reverse ds) as -> by (unfold udec, ds; by rewrite Z.abs_eq by lia).
    by rewrite length_reverse, s32_id by lia.
Qed.

Section alloc.
Context {M : Malloc}.

Lemma fresh_block_zlen n : 0 <= n -> zlen (fresh_block n) = n.
Proof. intros. rewrite length_fresh_block. lia. Qed.

Lemma sdsfromlonglong_spec value : - 2 ^ 63 <= value < 2 ^ 63 ->
  returns (sdsfromlonglong value) (sds_is (sdec value)).
Proof.
  intros Hv. unfold sdsfromlonglong.
  destruct (sdsll2str_spec (fresh_block SDS_LLSTR_SIZE) value) as (rest & ->); [done| |].
  { rewrite fresh_block_zlen by done. done. }
  cbn [mbind result_bind]. apply sdsnewlen_spec.
  unfold sdec. pose proof (digits_rev_length (Z.abs value) ltac:(lia)).
  split_if; unfold udec; cbn [length]; rewrite length_reverse.
  - replace (- value) with (Z.abs value) by lia. lia.
  - replace value with (Z.abs value) by lia. lia.
Qed.

(** ** printf *)
Lemma catvprintf_loop_spec out : no_nul out -> zlen out < 2 ^ 60 -> forall fuel buflen,
  2 <= buflen < 2 ^ 62 -> zlen out + 2 <= buflen * 2 ^ (Z.of_nat fuel - 1) -> (0 < fuel)%nat ->
  returns (catvprintf_loop fuel buflen out) (fun buf => exists rest, buf = out ++ 0 :: rest).
Proof.
  intros Hn Hout. induction fuel as [|fuel IH]; intros buflen Hb Hf Hpos; [lia|].
  cbn [catvprintf_loop]. rewrite store_Ok by (rewrite fresh_block_zlen; lia).
  cbn [mbind result_bind]. set (b0 := <[_ := 0]> _).
  assert (zlen b0 = buflen) as Hb0
    by (unfold b0; rewrite length_insert, fresh_block_zlen; lia).
  unfold vsnprintf. rewrite blit_Ok by (rewrite ?length_app, ?length_take; simpl; lia).
  cbn [mbind result_bind].
  destruct (decide (zlen out + 2 <= buflen)) as [Hfit|Hfit].
  - rewrite (take_ge out) by lia. rewrite take_0. cbn [app].
    set (b1 := (out ++ [0]) ++ _).
    assert (load b1 (buflen - 2) = Ok 0) as ->.
    { apply load_Ok. split; [lia|]. unfold b1. destruct (decide (zlen out = buflen - 2)) as [E|E].
      - rewrite lookup_app_l by (rewrite length_app; simpl; lia).
        rewrite lookup_app_r by lia. by replace (Z.to_nat (buflen - 2) - length out)%nat with O by lia.
      - rewrite lookup_app_r by (rewrite length_app; simpl; lia).
        rewrite lookup_drop, length_app. cbn [length].
        match goal with |- _ !! ?i = _ => replace i with (Z.to_nat (buflen - 2)) by lia end.
        unfold b0. apply list_lookup_insert_eq. rewrite length_fresh_block. lia. }
    cbn. exists (drop (Z.to_nat 0 + length (out ++ [0])) b0). unfold b1. solve_app.
  - rewrite take_0. cbn [app]. rewrite <- app_assoc.
    destruct (lookup_lt_is_Some_2 out (Z.to_nat (buflen - 2))) as [c Hc]; [lia|].
    assert (load (take (Z.to_nat (buflen - 1)) out ++ [0] ++
       drop (Z.to_nat 0 + length (take (Z.to_nat (buflen - 1)) out ++ [0])) b0) (buflen - 2)
       = Ok c) as ->.
    { apply load_app_l, load_Ok. split; [lia|]. rewrite lookup_take_lt by lia. done. }
    cbn [mbind result_bind].
    assert (c <> 0) as Hc0.
    { unfold no_nul in Hn. rewrite Forall_forall in Hn. apply Hn. by eapply list_elem_of_lookup_2. }
    bool_false (c =? 0). cbn [negb]. rewrite u64_id by lia.
    destruct (malloc_ok (buflen * 2)) eqn:Em; cbn [negb]; [|by eexists].
    destruct fuel as [|fuel]; [cbn in Hf; lia|].
    apply IH; [lia| |lia].
    replace (buflen * 2 * 2 ^ (Z.of_nat (S fuel) - 1)) with (buflen * 2 ^ (Z.of_nat (S (S fuel)) - 1));
      [done|].
    replace (Z.of_nat (S (S fuel)) - 1) with (1 + (Z.of_nat (S fuel) - 1)) by lia.
    rewrite Z.pow_add_r by lia. lia.
Qed.

(** [sdscatvprintf] appends the text that the format and the arguments give. *)
Lemma sdscatvprintf_spec s c f r out :
  sds_is c s -> no_nul f -> zlen f < 2 ^ 31 -> no_nul out -> zlen out < 2 ^ 60 ->
  zlen c + zlen out < 2 ^ 62 ->
  returns (sdscatvprintf s (f ++ 0 :: r) out) (sds_is (c ++ out)).
Proof.
  intros Hs Hf Hlf Ho Hlo Hc. unfold sdscatvprintf. rewrite strlen_app by done.
  cbn [mbind result_bind]. rewrite u64_id by lia.
  destruct ((1024 <? zlen f * 2) && negb (malloc_ok (zlen f * 2))) eqn:E.
  { apply andb_prop in E as [_ E]. eexists. by apply negb_true_iff in E. }
  set (buflen := if _ <? _ then _ else _).
  assert (1024 <= buflen < 2 ^ 32) as Hb by (unfold buflen; split_if; lia).
  eapply returns_bind; [apply (catvprintf_loop_spec out Ho Hlo 64 buflen); [lia|nia|lia]|].
  intros buf [rest ->]. by apply sdscat_spec.
Qed.

(** ** sdscatfmt *)

(** A call that returns a string and does not test its allocations: it faults
    on [NULL] if the allocator refuses a request. *)
Definition returns_total {A} (m : result A) (Q : A -> Prop) : Prop :=
  match m with
  | Ok a => Q a
  | Fault e => e = NullDeref /\ exists n, malloc_ok n = false
  end.

Lemma returns_total_bind {A B} (m : result A) (k : A -> result B) Q R :
  returns_total m Q -> (forall a, Q a -> returns_total (k a) R) ->
  returns_total (a ← m; k a) R.
Proof. destruct m as [a|e]; cbn; auto. Qed.

Lemma returns_total_mono {A} (m : result A) (Q R : A -> Prop) :
  returns_total m Q -> (forall a, Q a -> R a) -> returns_total m R.
Proof. destruct m as [a|e]; cbn; auto. Qed.

Lemma unchecked_total {A} (m : result (option A)) Q :
  returns m Q -> returns_total (unchecked m) Q.
Proof. unfold unchecked. destruct m as [[a|]|e]; cbn; [done|by split|done]. Qed.

Lemma returns_total_ok {A} (m : result A) Q : (forall n, malloc_ok n = true) ->
  returns_total m Q -> exists a, m = Ok a /\ Q a.
Proof.
  intros HM. destruct m as [a|e]; cbn; [eauto|]. intros [_ [n Hn]]. by rewrite HM in Hn.
Qed.

(** Room for [l] bytes, made when there is less. *)
Lemma make_room x c s l (b : bool) : sds_ends x c s -> 0 <= l -> zlen c + l < 2 ^ 62 ->
  (b = false -> l <= sdsavail s) ->
  returns_total (if b then unchecked (sdsMakeRoomFor s l) else Ok s)
    (fun s' => sds_ends x c s' /\ l <= sdsavail s').
Proof.
  intros Hs Hl Hc Hb. destruct b; [|by split; [|apply Hb]].
  apply unchecked_total. by apply sdsMakeRoomFor_ends.
Qed.

(** Bytes written behind the content, before the terminator is restored. *)
Lemma ends_extend x c s d : sds_ends x c s -> zlen d <= sdsavail s ->
  exists b x', blit (sds_buf s) (zlen c) d = Ok b /\
    sds_ends x' (c ++ d) (sdsinclen (set_buf s b) (zlen d)).
Proof.
  intros Hs Hd. destruct (sdsavail_ends _ _ _ Hs) as [Ha _].
  destruct Hs as [Hh Hl Hal Hcap Hsz (rest & Hb)].
  rewrite Hb in Hsz. rewrite length_app in Hsz. cbn [length] in Hsz.
  rewrite Hb, blit_Ok by (rewrite ?length_app; cbn [length]; lia).
  rewrite Nat2Z.id, take_app_length, drop_app_add.
  destruct (drop_cons_exists (length d) (x :: rest)) as (x' & r & Hr); [cbn [length]; lia|].
  rewrite Hr. eexists _, x'. split; [done|].
  rewrite sdsinclen_setlen; [|done|lia|cbn; change (sds_type (set_buf s _)) with (sds_type s);
    change (sdslen (set_buf s _)) with (sdslen s); lia|by rewrite sdslen_set_buf; lia].
  rewrite sdslen_set_buf, Hl, sdssetlen_set_buf.
  destruct (sdssetlen_spec s (zlen c + zlen d)) as (S1 & S2 & S3 & S4 & S5); [done|lia|].
  assert (zlen c + zlen d <= sdsalloc (sdssetlen s (zlen c + zlen d)) <= sdsalloc s) as Hsl.
  { rewrite S5. split_if; lia. }
  apply (f_equal length) in Hr. rewrite length_drop in Hr. cbn [length] in Hr.
  split; rewrite ?sdslen_set_buf, ?sdsalloc_set_buf, ?sds_type_set_buf, ?S1, ?S2, ?length_app;
    auto; try lia; cbn.
  - rewrite !length_app. cbn [length]. lia.
  - exists r. by rewrite <- app_assoc.
Qed.

Definition appended (c d : bytes) (r : sds * Z) : Prop :=
  r.2 = zlen (c ++ d) /\ exists x, sds_ends x (c ++ d) r.1.

Lemma fmt_append_spec x c s d m : sds_ends x c s -> zlen c + zlen d < 2 ^ 31 ->
  returns_total (fmt_append s (zlen c) (d ++ m) (zlen d)) (appended c d).
Proof.
  intros Hs Hc. unfold fmt_append.
  eapply returns_total_bind; [apply (make_room x c s (zlen d)); [done|lia..|intros; bool_to_prop; lia]|].
  intros s1 [Hs1 Ha]. rewrite slice_prefix by done. cbn [mbind result_bind].
  destruct (ends_extend x c s1 d Hs1 Ha) as (b & x' & -> & Hb). cbn.
  split; [|by exists x']. cbn. rewrite u64_id, s32_id, length_app by lia. lia.
Qed.

Lemma fmt_char_spec x c s a : sds_ends x c s -> 1 <= sdsavail s -> zlen c + 1 < 2 ^ 31 ->
  returns_total (fmt_char s (zlen c) a) (appended c [a]).
Proof.
  intros Hs Ha Hc. unfold fmt_char.
  destruct (ends_extend x c s [a] Hs Ha) as (b & x' & Hb & He).
  assert (store (sds_buf s) (zlen c) a = Ok b) as ->.
  { destruct (ends_buf _ _ _ Hs) as (rest & Hbuf). rewrite Hbuf in *.
    rewrite store_head. rewrite blit_Ok in Hb by (rewrite ?length_app; cbn [length]; lia).
    rewrite Nat2Z.id, take_app_length, drop_app_add in Hb. injection Hb as <-. f_equal.
    solve_app. }
  cbn. split; [|by exists x']. cbn. rewrite s32_id, length_app by lia. cbn [length]. lia.
Qed.

(** The text a format stands for. *)
Definition arg_text (a : fmt_arg) : bytes :=
  match a with
  | AStr p => take (default O (index_of 0 p)) p
  | ASds s => contents s
  | AInt n | ALongLong n => sdec n
  | AUnsigned n | AULongLong n => udec n
  end.

(** The argument that a conversion takes. *)
Definition arg_letter (a : fmt_arg) : Z :=
  match a with
  | AStr _ => 115 | ASds _ => 83 | AInt _ => 105 | ALongLong _ => 73
  | AUnsigned _ => 117 | AULongLong _ => 85
  end.

Definition is_conv (c : Z) : bool :=
  (c =? 115) || (c =? 83) || (c =? 105) || (c =? 73) || (c =? 117) || (c =? 85).

Definition arg_ok (a : fmt_arg) : Prop :=
  match a with
  | AStr p => 0 ∈ p
  | ASds s => sds_wf s
  | AInt n => - 2 ^ 31 <= n < 2 ^ 31
  | ALongLong n => - 2 ^ 63 <= n < 2 ^ 63
  | AUnsigned n => 0 <= n < 2 ^ 32
  | AULongLong n => 0 <= n < 2 ^ 64
  end.

(** [None]: an argument is missing or of another type, or the format ends in
    a lone [%]. *)
Fixpoint fmt_text (fmt : bytes) (ap : list fmt_arg) : option bytes :=
  match fmt with
  | [] => Some []
  | c :: fmt =>
      if c =? 37 then
        match fmt with
        | [] => None
        | next :: fmt =>
            if is_conv next then
              match ap with
              | a :: ap => if arg_letter a =? next then app (arg_text a) <$> fmt_text fmt ap else None
              | [] => None
              end
            else cons next <$> fmt_text fmt ap
        end
      else cons c <$> fmt_text fmt ap
  end.

Lemma index_of_in c p : c ∈ p -> exists n, index_of c p = Some n.
Proof.
  induction p as [|d p IH]; [by intros ?%not_elem_of_nil|]. cbn.
  intros [->|Hp]%elem_of_cons; [rewrite Z.eqb_refl; eauto|].
  split_if; [eauto|]. destruct (IH Hp) as (n & ->). by eexists.
Qed.

(** One conversion with an argument. *)
Lemma fmt_conv_spec x c s a ap : sds_ends x c s -> arg_ok a ->
  zlen c + zlen (arg_text a) < 2 ^ 31 ->
  returns_total (fmt_conv s (zlen c) (arg_letter a) (a :: ap))
    (fun r => appended c (arg_text a) r.1 /\ r.2 = ap).
Proof.
  intros Hs Ha Hc.
  assert (forall d m, d = arg_text a ->
    returns_total ('(s, i) ← fmt_append s (zlen c) (d ++ m) (zlen d); Ok (s, i, ap))
      (fun r => appended c (arg_text a) r.1 /\ r.2 = ap)) as Happ.
  { intros d m ->. eapply returns_total_bind; [by eapply fmt_append_spec|]. by intros [s' i']. }
  assert (SDS_LLSTR_SIZE <= zlen (fresh_block SDS_LLSTR_SIZE)) as Hblk
    by (rewrite fresh_block_zlen; done).
  unfold fmt_conv. destruct a as [p|t|n|n|n|n]; cbn [arg_letter Z.eqb Pos.eqb orb arg_ok arg_text] in *.
  - destruct (index_of_in 0 p Ha) as (n & Hn). unfold strlen. rewrite Hn in *. cbn [default] in *.
    destruct (index_of_Some _ _ _ Hn) as [Hl _]. apply lookup_lt_Some in Hl.
    cbn [mbind result_bind from_option] in *. rewrite <- (take_drop n p) at 1.
    assert (Z.of_nat n = zlen (take n p)) as Hzn by (rewrite length_take; lia).
    rewrite Hzn. by apply Happ.
  - destruct (sds_is_buf (contents t) t) as (rest & Hb & Hl); [by split|].
    rewrite Hb, Hl. by apply Happ.
  - cbn [mbind result_bind]. destruct (sdsll2str_spec (fresh_block SDS_LLSTR_SIZE) n) as (r & ->);
      [lia|done|]. cbn [mbind result_bind]. by apply Happ.
  - cbn [mbind result_bind]. destruct (sdsll2str_spec (fresh_block SDS_LLSTR_SIZE) n) as (r & ->);
      [lia|done|]. cbn [mbind result_bind]. by apply Happ.
  - cbn [mbind result_bind]. destruct (sdsull2str_spec (fresh_block SDS_LLSTR_SIZE) n) as (r & ->);
      [lia|done|]. cbn [mbind result_bind]. by apply Happ.
  - cbn [mbind result_bind]. destruct (sdsull2str_spec (fresh_block SDS_LLSTR_SIZE) n) as (r & ->);
      [lia|done|]. cbn [mbind result_bind]. by apply Happ.
Qed.

Lemma fmt_conv_plain s i c ap : is_conv c = false ->
  fmt_conv s i c ap = ('(s, i) ← fmt_char s i c; Ok (s, i, ap)).
Proof.
  unfold is_conv. intros Hc. apply orb_false_iff in Hc as [Hc H6].
  repeat (apply orb_false_iff in Hc as [Hc ?]). unfold fmt_conv.
  by rewrite Hc, H, H0, H1, H2, H6.
Qed.

Lemma catfmt_loop_spec r : forall fuel f pre c s x ap t,
  sds_ends x c s -> no_nul f -> Forall arg_ok ap -> fmt_text f ap = Some t ->
  zlen c + zlen t < 2 ^ 31 -> (length f < fuel)%nat ->
  returns_total (catfmt_loop fuel s (pre ++ f ++ 0 :: r) (zlen pre) (zlen c) ap) (appended c t).
Proof.
  induction fuel as [|fuel IH]; [lia|]. intros f pre c s x ap t Hs Hf Hap Ht Hc Hfuel.
  cbn [catfmt_loop]. destruct f as [|d f].
  { cbn [app]. rewrite load_middle. cbn. injection Ht as <-. split; rewrite app_nil_r; [done|].
    by exists x. }
  cbn [app]. rewrite load_middle. cbn [mbind result_bind].
  apply Forall_cons in Hf as [Hd Hf]. bool_false (d =? 0).
  cbn [fmt_text] in Ht.
  eapply returns_total_bind.
  { apply (make_room x c s 1); [done|lia..|intros ?; bool_to_prop].
    destruct (sdsavail_ends _ _ _ Hs). lia. }
  intros s1 [Hs1 Ha].
  assert (forall d' f' pre' t' ap', no_nul f' -> (length f' < fuel)%nat -> Forall arg_ok ap' ->
    fmt_text f' ap' = Some t' -> zlen c + 1 + zlen t' < 2 ^ 31 ->
    pre ++ d :: f ++ 0 :: r = pre' ++ f' ++ 0 :: r ->
    returns_total ('(s, i) ← fmt_char s1 (zlen c) d';
                   catfmt_loop fuel s (pre ++ d :: f ++ 0 :: r) (zlen pre') i ap')
      (appended c (d' :: t'))) as Hchar.
  { intros d' f' pre' t' ap' Hf' Hl' Hap' Ht' Hc' Heq. rewrite Heq.
    eapply returns_total_bind; [by apply (fmt_char_spec x); [..|lia]|].
    intros [s2 i2] [Hi2 [x2 Hs2]]. cbn in Hi2, Hs2. subst i2.
    eapply returns_total_mono; [eapply (IH f' pre' (c ++ [d']) s2 x2); [done..| |lia]|].
    - rewrite length_app. cbn [length]. lia.
    - intros [s3 i3] [? ?]. unfold appended in *. cbn [fst snd] in *.
      by rewrite <- app_assoc in *. }
  destruct (d =? 37) eqn:E37; bool_to_prop.
  2: { destruct (fmt_text f ap) as [t'|] eqn:Et; [|done]. injection Ht as <-. cbn [length] in *.
       replace (zlen pre + 1) with (zlen (pre ++ [d])) by slia.
       apply (Hchar d f (pre ++ [d]) t' ap); [done|lia|done|done|lia|solve_app]. }
  destruct f as [|next f]; [done|]. apply Forall_cons in Hf as [Hn Hf].
  replace (zlen pre + 1) with (zlen (pre ++ [d])) by slia.
  rewrite (load_at _ _ (pre ++ [d]) next (f ++ 0 :: r)) by (done || solve_app).
  cbn [mbind result_bind].
  replace (zlen pre + 2) with (zlen (pre ++ [d; next])) by slia.
  destruct (is_conv next) eqn:Ec.
  - destruct ap as [|a ap]; [done|]. apply Forall_cons in Hap as [Haok Hap].
    destruct (arg_letter a =? next) eqn:El; [|done]. bool_to_prop.
    destruct (fmt_text f ap) as [t'|] eqn:Et; [|done]. injection Ht as <-.
    rewrite length_app in Hc. subst next.
    eapply returns_total_bind; [by apply (fmt_conv_spec x); [..|lia]|].
    intros [[s2 i2] ap2] [[Hi2 [x2 Hs2]] Hap2]. cbn in Hi2, Hs2, Hap2. subst i2 ap2.
    replace (pre ++ d :: (arg_letter a :: f) ++ 0 :: r)
      with ((pre ++ [d; arg_letter a]) ++ f ++ 0 :: r) by solve_app.
    cbn [length] in Hfuel.
    eapply returns_total_mono;
      [eapply (IH f (pre ++ [d; arg_letter a]) (c ++ arg_text a) s2 x2); [done..| |lia]|].
    + rewrite length_app. lia.
    + intros [s3 i3] [? ?]. unfold appended in *. cbn [fst snd] in *. by rewrite <- app_assoc in *.
  - destruct (fmt_text f ap) as [t'|] eqn:Et; [|done]. injection Ht as <-. cbn [length] in *.
    rewrite fmt_conv_plain by done.
    eapply returns_total_mono; [|intros a Ha'; exact Ha'].
    pose proof (Hchar next f (pre ++ [d; next]) t' ap Hf ltac:(lia) Hap Et ltac:(lia)
      ltac:(solve_app)) as Hch.
    destruct (fmt_char s1 (zlen c) next) as [[s2 i2]|e]; exact Hch.
Qed.

(** [sdscatfmt] appends the text of the format. *)
Lemma sdscatfmt_spec s c f r ap t : sds_is c s -> no_nul f -> Forall arg_ok ap ->
  fmt_text f ap = Some t -> zlen c + zlen t < 2 ^ 31 ->
  returns_total (sdscatfmt s (f ++ 0 :: r) ap) (sds_is (c ++ t)).
Proof.
  intros Hs Hf Hap Ht Hc. unfold sdscatfmt. rewrite (sds_is_len _ _ Hs), s32_id by lia.
  apply sds_is_ends in Hs.
  eapply returns_total_bind.
  { apply (catfmt_loop_spec r (S (length (f ++ 0 :: r))) f [] c s 0 ap t); try done.
    rewrite length_app. lia. }
  intros [s' i] [Hi [x Hs']]. cbn in Hi, Hs'. subst i.
  destruct (ends_buf _ _ _ Hs') as (rest & Hb). rewrite Hb, store_head.
  cbn. apply sds_is_ends. destruct Hs' as [H1 H2 H3 H4 H5 _]. split; try done.
  - cbn. rewrite Hb in H5. rewrite !length_app in *. cbn [length] in *.
    rewrite sdsalloc_set_buf. lia.
  - cbn. exists rest. solve_app.
Qed.
End alloc.
