(* ===== verification/SdsSplit.v ===== *)
(** * SdsSplit: splitting, joining and mapping strings (sds.c)

    [sdssplitlen] against a reference splitter, and joining back what was
    split. *)
From S2P Require Import Prelude Mem Sds SdsFacts SdsText SdsTextFacts.
From stdpp Require Import list list_numbers strings sets gmap.
From Stdlib Require Import ZArith Lia.
Open Scope Z_scope.

(** ** Reference functions *)

Definition starts_with (sep s : bytes) : bool := bool_decide (take (length sep) s = sep).

(** The tokens of [s] when [cur] was read since the last separator and [skip]
    bytes of a separator are still to be skipped. *)
Fixpoint tokens (sep : bytes) (skip : nat) (cur s : bytes) : list bytes :=
  match s with
  | [] => [cur]
  | c :: s' =>
      match skip with
      | S k => tokens sep k cur s'
      | O => if starts_with sep s then cur :: tokens sep (length sep - 1) [] s'
             else tokens sep 0 (cur ++ [c]) s'
      end
  end.

Fixpoint join_text (sep : bytes) (l : list bytes) : bytes :=
  match l with
  | [] => []
  | [a] => a
  | a :: l => a ++ sep ++ join_text sep l
  end.

Lemma join_text_cons sep a l : l <> [] -> join_text sep (a :: l) = a ++ sep ++ join_text sep l.
Proof. by destruct l. Qed.

Lemma tokens_nonempty sep s : forall skip cur, tokens sep skip cur s <> [].
Proof.
  induction s as [|c s IH]; intros skip cur; [done|]. cbn [tokens].
  destruct skip; [|apply IH]. by split_if.
Qed.

Lemma tokens_skip sep s : forall k cur, (k <= length s)%nat ->
  tokens sep k cur s = tokens sep 0 cur (drop k s).
Proof.
  induction s as [|c s IH]; intros [|k] cur Hk; cbn [length] in Hk; try done; try lia.
  cbn [tokens drop]. apply IH. lia.
Qed.

Lemma starts_with_app sep s : starts_with sep s = true <-> exists s', s = sep ++ s'.
Proof.
  unfold starts_with. rewrite bool_decide_eq_true. split.
  - intros Hs. exists (drop (length sep) s). rewrite <- Hs at 1. by rewrite take_drop.
  - intros [s' ->]. apply take_app_length.
Qed.

Lemma starts_with_short sep s : (length s < length sep)%nat -> starts_with sep s = false.
Proof.
  intros Hl. apply not_true_iff_false. rewrite starts_with_app. intros [s' ->].
  rewrite length_app in Hl. lia.
Qed.

(** A rest shorter than the separator is the end of the last token. *)
Lemma tokens_short sep s : forall cur, (length s < length sep)%nat ->
  tokens sep 0 cur s = [cur ++ s].
Proof.
  induction s as [|c s IH]; intros cur Hs; [by rewrite app_nil_r|]. cbn [tokens].
  rewrite starts_with_short by done. cbn [length] in Hs. rewrite IH by lia. by rewrite <- app_assoc.
Qed.

(** Joining the tokens with the separator gives the string back. *)
Lemma join_tokens sep : sep <> [] -> forall n s cur, (length s <= n)%nat ->
  join_text sep (tokens sep 0 cur s) = cur ++ s.
Proof.
  intros Hsep. induction n as [|n IH]; intros [|c s] cur Hn; cbn [length] in Hn;
    try (cbn; by rewrite app_nil_r); try lia.
  cbn [tokens]. destruct (starts_with sep (c :: s)) eqn:E.
  - apply starts_with_app in E as [s' E]. destruct sep as [|d sep]; [done|].
    injection E as -> ->. cbn [length]. rewrite Nat.sub_succ, Nat.sub_0_r.
    rewrite join_text_cons by apply tokens_nonempty.
    rewrite tokens_skip by (rewrite length_app; lia). rewrite drop_app_length.
    rewrite IH by (rewrite length_app in Hn; lia). done.
  - rewrite IH by lia. solve_app.
Qed.

Section split.
Context {M : Malloc}.

(** A call that may return [NULL], or fault on it, when an allocation fails. *)
Definition returns_any {A} (m : result (option A)) (Q : A -> Prop) : Prop :=
  match m with
  | Ok (Some a) => Q a
  | Ok None => exists n, malloc_ok n = false
  | Fault e => e = NullDeref /\ exists n, malloc_ok n = false
  end.

Lemma returns_any_of {A} (m : result (option A)) Q : returns m Q -> returns_any m Q.
Proof. by destruct m as [[a|]|e]. Qed.

Lemma returns_any_bind {A B} (m : result A) (k : A -> result (option B)) Q R :
  returns_total m Q -> (forall a, Q a -> returns_any (k a) R) ->
  returns_any (a ← m; k a) R.
Proof. destruct m as [a|e]; cbn; auto. Qed.

Lemma returns_any_ok {A} (m : result (option A)) Q : (forall n, malloc_ok n = true) ->
  returns_any m Q -> exists a, m = Ok (Some a) /\ Q a.
Proof.
  intros HM. destruct m as [[a|]|e]; cbn; [eauto|..].
  - intros [n Hn]. by rewrite HM in Hn.
  - intros [_ [n Hn]]. by rewrite HM in Hn.
Qed.

(** ** sdssplitlen *)
Lemma at_separator_spec pre s post sep : sep <> [] -> (length sep <= length s)%nat ->
  at_separator (pre ++ s ++ post) sep (zlen pre) (zlen sep) = Ok (starts_with sep s).
Proof.
  intros Hsep Hl. destruct sep as [|d sep]; [done|]. destruct s as [|c s]; [simpl in Hl; lia|].
  unfold at_separator. cbn [app]. rewrite load_middle. cbn [mbind result_bind].
  change (load (d :: sep) 0) with (Ok d : result Z). cbn [mbind result_bind].
  destruct ((zlen (d :: sep) =? 1) && (c =? d)) eqn:E.
  - bool_to_prop. subst. destruct sep; [|simpl in *; lia]. f_equal. symmetry.
    apply starts_with_app. by exists s.
  - rewrite (slice_all (d :: sep)) by done.
    rewrite (slice_Ok (pre ++ c :: s ++ post)) 
      by (cbn [length] in *; repeat (rewrite length_app; cbn [length]); lia). cbn [mbind result_bind].
    rewrite !Nat2Z.id, drop_app_length.
    change (c :: s ++ post) with ((c :: s) ++ post). rewrite take_app_le by done.
    f_equal. unfold starts_with. apply eq_bool_prop_intro.
    rewrite !Is_true_true, bool_decide_eq_true, Z.eqb_eq. apply memcmp_eq.
    rewrite length_take. lia.
Qed.

(** The tokens read so far, and room in their array. *)
Definition tokens_are (ts : list bytes) (l : list sds) : Prop := Forall2 sds_is ts l.

Lemma tokens_snoc ts l c t : tokens_are ts l -> sds_is c t -> tokens_are (ts ++ [c]) (l ++ [t]).
Proof. intros. apply Forall2_app; [done|]. by apply Forall2_cons. Qed.

Lemma split_loop_spec s post sep : sep <> [] -> zlen sep < 2 ^ 31 -> zlen s < 2 ^ 29 ->
  forall fuel pre cur rest ts l slots,
  s = pre ++ cur ++ rest -> tokens_are ts l -> zlen l < slots -> slots <= 2 * zlen l + 10 ->
  zlen l <= zlen pre -> (length rest < fuel)%nat ->
  returns (split_loop fuel (s ++ post) (zlen s) sep (zlen sep) slots (zlen pre)
             (zlen (pre ++ cur)) l)
    (fun '(l', slots', start') => zlen l' < slots' /\
       exists ts' pre' last, tokens_are ts' l' /\ s = pre' ++ last /\ start' = zlen pre' /\
         ts ++ tokens sep 0 cur rest = ts' ++ [last]).
Proof.
  intros Hsep Hsep31 Hs29. assert (1 <= zlen sep) by (destruct sep; [done|simpl; lia]).
  induction fuel as [|fuel IH]; [lia|]. intros pre cur rest ts l slots Hs Hts Hslots Hmax Hpre Hf.
  pose proof (f_equal length Hs) as Hlen. rewrite !length_app in Hlen.
  cbn [split_loop]. rewrite s32_id by lia.
  destruct (decide (length rest < length sep)%nat) as [Hshort|Hlong].
  { assert (zlen s - (zlen sep - 1) <= zlen (pre ++ cur)) by (rewrite length_app; lia).
    bool_false (zlen (pre ++ cur) <? zlen s - (zlen sep - 1)). cbn. split; [done|].
    exists ts, pre, (cur ++ rest). rewrite tokens_short by done. by split_and!. }
  assert (zlen (pre ++ cur) < zlen s - (zlen sep - 1)) by (rewrite length_app; lia).
  bool_true (zlen (pre ++ cur) <? zlen s - (zlen sep - 1)).
  rewrite (s32_id (zlen l + 2)) by lia. cbv zeta.
  set (slots' := if slots <? zlen l + 2 then s32 (slots * 2) else slots).
  assert (zlen l + 1 < slots' /\ slots' <= 2 * zlen l + 10) as [Hsl1 Hsl2].
  { unfold slots'. split_if; [rewrite s32_id by lia|]; lia. }
  destruct ((slots <? zlen l + 2) && negb (malloc_ok (u64 (8 * slots')))) eqn:Em.
  { apply andb_prop in Em as [_ Em]. apply negb_true_iff in Em. by eexists. }
  rewrite Hs at 1. replace ((pre ++ cur ++ rest) ++ post) with ((pre ++ cur) ++ rest ++ post)
    by solve_app.
  rewrite at_separator_spec by (done || lia). cbn [mbind result_bind].
  destruct rest as [|c rest]; [simpl in Hlong; lia|].
  destruct (starts_with sep (c :: rest)) eqn:Esw.
  - rewrite Hs at 1. rewrite slice_Ok by (rewrite ?length_app; lia). cbn [mbind result_bind].
    replace (zlen (pre ++ cur) - zlen pre) with (zlen cur) by slia.
    rewrite !Nat2Z.id. rewrite <- !app_assoc, drop_app_length, take_app_length.
    pose proof (sdsnewlen_spec cur [] ltac:(lia)) as Hnew. rewrite app_nil_r in Hnew.
    destruct (sdsnewlen (Some cur) (zlen cur)) as [[t|]|e]; cbn in Hnew |- *; [|done..].
    unfold add_token. bool_true (zlen l <? slots'). cbn [mbind result_bind].
    apply starts_with_app in Esw as Hsplit. destruct Hsplit as [rest' Hrest].
    assert (zlen (pre ++ cur) + zlen sep = zlen (pre ++ cur ++ sep)) as E1 by slia.
    assert (zlen (pre ++ cur ++ sep) - 1 + 1 = zlen ((pre ++ cur ++ sep) ++ [])) as E2
      by (rewrite app_nil_r; lia).
    rewrite E1, E2. cbn [length] in Hf. pose proof (f_equal length Hrest) as Hlr.
    rewrite length_app in Hlr. cbn [length] in Hlr.
    eapply returns_mono.
    { apply (IH (pre ++ cur ++ sep) [] rest' (ts ++ [cur]) (l ++ [t]) slots').
      - rewrite Hs, Hrest. solve_app.
      - by apply tokens_snoc.
      - rewrite length_app. cbn [length]. lia.
      - rewrite length_app. cbn [length]. lia.
      - rewrite !length_app. cbn [length]. lia.
      - lia. }
    intros [[l2 slots2] start2] (R1 & ts' & pre' & last & R2 & R3 & R4 & R5).
    split; [done|]. exists ts', pre', last. split_and!; try done.
    rewrite <- R5, <- app_assoc. f_equal. cbn [tokens]. rewrite Esw. cbn [app]. f_equal.
    destruct sep as [|d sep]; [done|]. injection Hrest as -> ->. cbn [length].
    rewrite Nat.sub_succ, Nat.sub_0_r, tokens_skip by (rewrite length_app; lia).
    by rewrite drop_app_length.
  - replace (zlen (pre ++ cur) + 1) with (zlen (pre ++ cur ++ [c])) by slia.
    cbn [length] in *. eapply returns_mono.
    { apply (IH pre (cur ++ [c]) rest ts l slots');
        [rewrite Hs; solve_app|done|lia|lia|done|lia]. }
    intros [[l2 slots2] start2] (R1 & ts' & pre' & last & R2 & R3 & R4 & R5).
    split; [done|]. exists ts', pre', last. split_and!; try done.
    rewrite <- R5. f_equal. cbn [tokens]. by rewrite Esw.
Qed.

(** The tokens of a string, none for the empty one. *)
Definition split_text (sep s : bytes) : list bytes :=
  match s with [] => [] | _ => tokens sep 0 [] s end.

Lemma sdssplitlen_spec s post sep : sep <> [] -> zlen sep < 2 ^ 31 -> zlen s < 2 ^ 29 ->
  returns (sdssplitlen (s ++ post) (zlen s) sep (zlen sep)) (tokens_are (split_text sep s)).
Proof.
  intros Hsep Hsep31 Hs. unfold sdssplitlen.
  assert (1 <= zlen sep) by (destruct sep; [done|simpl; lia]).
  bool_false (zlen sep <? 1). bool_false (zlen s <? 0). cbn [orb].
  destruct (malloc_ok (8 * 5)) eqn:Em; cbn [negb]; [|by eexists].
  destruct (zlen s =? 0) eqn:E0; bool_to_prop; [by destruct s; [constructor|]|].
  eapply returns_bind.
  { apply (split_loop_spec s post sep Hsep Hsep31 Hs (S (Z.to_nat (zlen s))) [] [] s [] [] 5);
      [done|constructor|simpl; lia..]. }
  intros [[l slots] start] (Hl & ts & pre & last & Hts & Hsp & -> & Htok).
  rewrite Hsp. rewrite slice_Ok by (rewrite ?length_app; lia). cbn [mbind result_bind].
  replace (zlen (pre ++ last) - zlen pre) with (zlen last) by slia.
  rewrite !Nat2Z.id, <- app_assoc, drop_app_length, take_app_length.
  pose proof (f_equal length Hsp) as Hlen. rewrite length_app in Hlen.
  pose proof (sdsnewlen_spec last [] ltac:(lia)) as Hnew. rewrite app_nil_r in Hnew.
  eapply returns_bind; [exact Hnew|]. intros t Ht.
  unfold add_token. bool_true (zlen l <? slots). cbn.
  assert (split_text sep (pre ++ last) = ts ++ [last]) as ->.
  { rewrite <- Hsp, <- Htok. cbn. by destruct s. }
  by apply tokens_snoc.
Qed.

(** ** Joining *)
Lemma joinsds_loop_spec sep m : forall ts l c join, tokens_are ts l -> sds_is c join ->
  zlen c + zlen (join_text sep ts) < 2 ^ 62 -> zlen c + zlen (join_text sep ts) + zlen sep < 2 ^ 62 ->
  returns_any (joinsds_loop l (sep ++ m) (zlen sep) join) (sds_is (c ++ join_text sep ts)).
Proof.
  induction ts as [|a ts IH]; intros l c join Hts Hj Hc Hc2; inversion Hts as [|? t ? l' Ha Hl]; subst.
  { cbn. by rewrite app_nil_r. }
  destruct ts as [|b ts].
  { inversion Hl; subst. apply returns_any_of. by apply sdscatsds_spec. }
  inversion Hl as [|? t2 ? l2 Hb Hl2]; subst.
  rewrite join_text_cons in * by done. rewrite !length_app in *.
  cbn [joinsds_loop].
  eapply returns_any_bind; [apply unchecked_total; apply (sdscatsds_spec join t c a); [done..|lia]|].
  intros j1 Hj1.
  eapply returns_any_bind; [apply unchecked_total; apply (sdscatlen_spec j1 (c ++ a) sep m);
    [done|rewrite length_app; lia]|].
  intros j2 Hj2. rewrite (app_assoc a), (app_assoc c).
  apply (IH (t2 :: l2)); [done|by rewrite <- app_assoc in Hj2 |rewrite !length_app; lia..].
Qed.

Lemma sdsjoinsds_spec ts l sep m : tokens_are ts l ->
  zlen (join_text sep ts) + zlen sep < 2 ^ 62 ->
  returns_any (sdsjoinsds l (sep ++ m) (zlen sep)) (sds_is (join_text sep ts)).
Proof.
  intros Hts Hz. unfold sdsjoinsds. pose proof sdsempty_spec as He.
  destruct sdsempty as [[j|]|e]; cbn in He |- *; [|by destruct l|done].
  by apply (joinsds_loop_spec sep m ts l [] j); [..|cbn; lia|cbn; lia].
Qed.

(** Arguments that are C strings. *)
Definition c_string (t p : bytes) : Prop := no_nul t /\ exists r, p = t ++ 0 :: r.

Lemma join_loop_spec sep psep : c_string sep psep -> forall ts l c join,
  Forall2 c_string ts l -> sds_is c join ->
  zlen c + zlen (join_text sep ts) + zlen sep < 2 ^ 62 ->
  returns_any (join_loop l psep join) (sds_is (c ++ join_text sep ts)).
Proof.
  intros [Hn [rs ->]]. induction ts as [|a ts IH]; intros l c join Hts Hj Hc;
    inversion Hts as [|? t ? l' Ha Hl]; subst.
  { cbn. by rewrite app_nil_r. }
  destruct Ha as [Hna [ra ->]]. destruct ts as [|b ts].
  { inversion Hl; subst. apply returns_any_of. cbn [join_text] in *. apply sdscat_spec; [done..|lia]. }
  inversion Hl as [|? t2 ? l2 Hb Hl2]; subst.
  rewrite join_text_cons in * by done. rewrite !length_app in *. cbn [join_loop].
  eapply returns_any_bind; [apply unchecked_total; apply (sdscat_spec join c a ra); [done..|lia]|].
  intros j1 Hj1.
  eapply returns_any_bind; [apply unchecked_total; apply (sdscat_spec j1 (c ++ a) sep rs);
    [done..|rewrite length_app; lia]|].
  intros j2 Hj2. rewrite (app_assoc a), (app_assoc c).
  apply (IH (t2 :: l2)); [done|by rewrite <- app_assoc in Hj2|rewrite !length_app; lia].
Qed.

Lemma sdsjoin_spec ts l sep psep : c_string sep psep -> Forall2 c_string ts l ->
  zlen (join_text sep ts) + zlen sep < 2 ^ 62 ->
  returns_any (sdsjoin l psep) (sds_is (join_text sep ts)).
Proof.
  intros Hsep Hts Hz. unfold sdsjoin. pose proof sdsempty_spec as He.
  destruct sdsempty as [[j|]|e]; cbn in He |- *; [|by destruct l|done].
  by apply (join_loop_spec sep psep Hsep ts l [] j); [..|cbn; lia].
Qed.

End split.

(** ** sdsmapchars *)

(** What a byte becomes: the first match in [from] decides. *)
Definition map_byte (from to : bytes) (c : Z) : Z :=
  match index_of c from with
  | Some i => default c (to !! i)
  | None => c
  end.

Lemma map_char_spec c fp tp : forall from to pf pt,
  length pf = length pt -> length to = length from ->
  map_char (length from) (pf ++ from ++ fp) (pt ++ to ++ tp) (zlen pf) c =
  Ok (map_byte from to c).
Proof.
  unfold map_byte. induction from as [|x from IH]; intros [|y to] pf pt Hp Hto; try done.
  cbn [length map_char app index_of].
  rewrite load_middle. cbn [mbind result_bind]. rewrite (Z.eqb_sym x c).
  destruct (c =? x) eqn:E.
  - replace (zlen pf) with (zlen pt) by lia. by rewrite load_middle.
  - replace (zlen pf + 1) with (zlen (pf ++ [x])) by slia.
    replace (pf ++ x :: from ++ fp) with ((pf ++ [x]) ++ from ++ fp) by solve_app.
    replace (pt ++ y :: to ++ tp) with ((pt ++ [y]) ++ to ++ tp) by solve_app.
    cbn [length] in *. rewrite IH; [|rewrite !length_app; simpl; lia|lia].
    by destruct (index_of c from).
Qed.

Lemma mapchars_loop_spec from to fp tp q : length to = length from -> forall m p r,
  m = p ++ q ++ r ->
  mapchars_loop (length q) m (from ++ fp) (to ++ tp) (length from) (zlen p) =
  Ok (p ++ (map_byte from to <$> q) ++ r).
Proof.
  intros Hto. induction q as [|c q IH]; intros m p r ->; [done|]. cbn [length mapchars_loop].
  cbn [app]. rewrite load_middle. cbn [mbind result_bind].
  pose proof (map_char_spec c fp tp from to [] [] eq_refl Hto) as Hm. cbn [app length] in Hm.
  change (Z.of_nat 0) with 0 in Hm. rewrite Hm. cbn [mbind result_bind].
  rewrite store_head. cbn [mbind result_bind].
  replace (zlen p + 1) with (zlen (p ++ [map_byte from to c])) by slia.
  rewrite (IH _ (p ++ [map_byte from to c]) r) by solve_app. f_equal. solve_app.
Qed.

Lemma sdsmapchars_spec s c from to fp tp : sds_is c s -> length to = length from ->
  exists s', sdsmapchars s (from ++ fp) (to ++ tp) (zlen from) = Ok s' /\
    sds_is (map_byte from to <$> c) s'.
Proof.
  intros Hs Hto. unfold sdsmapchars. destruct (sds_is_buf _ _ Hs) as (rest & Hb & Hl).
  rewrite Hl, Hb, !Nat2Z.id.
  pose proof (mapchars_loop_spec from to fp tp c Hto _ [] (0 :: rest) eq_refl) as Hm.
  cbn [app length] in Hm. change (Z.of_nat 0) with 0 in Hm. rewrite Hm.
  cbn [mbind result_bind]. eexists. split; [done|].
  apply sds_is_ends in Hs as [H1 H2 H3 H4 H5 _]. apply sds_is_ends.
  split; rewrite ?sdslen_set_buf, ?sdsalloc_set_buf, ?length_fmap; try done.
  - cbn. rewrite Hb in H5. rewrite length_app in *. by rewrite length_fmap.
  - cbn. by exists rest.
Qed.

(** * Quoting and splitting of arguments (sds.c) *)
(** ** The quoted form *)
Definition repr_bytes (c : Z) : bytes :=
  if (c =? 92) || (c =? 34) then [92; c]
  else if c =? 10 then [92; 110]
  else if c =? 13 then [92; 114]
  else if c =? 9 then [92; 116]
  else if c =? 7 then [92; 97]
  else if c =? 8 then [92; 98]
  else if isprint c then [c]
  else [92; 120; hex_char (c / 16); hex_char (c mod 16)].

Definition repr_text (d : bytes) : bytes := 34 :: flat_map repr_bytes d ++ [34].

Lemma hex_char_ok n : 0 <= n < 16 -> is_hex_digit (hex_char n) = true /\
  hex_digit_to_int (hex_char n) = n.
Proof.
  intros Hn. assert (n ∈ seqZ 0 16) as Hin by (apply elem_of_seqZ; lia).
  clear Hn. revert n Hin. apply Forall_forall. vm_compute. repeat constructor.
Qed.

Lemma hex_char_nonzero n : 0 <= n < 16 -> hex_char n <> 0.
Proof. unfold hex_char. split_if; lia. Qed.

Lemma repr_bytes_length c : 1 <= zlen (repr_bytes c) <= 4.
Proof. unfold repr_bytes. repeat split_if; simpl; lia. Qed.

Section quote.
Context {M : Malloc}.

(** ** sdscatrepr *)
Lemma repr_char_spec s c a : sds_is c s -> is_byte a -> zlen c < 2 ^ 60 ->
  returns_total (repr_char s a) (sds_is (c ++ repr_bytes a)).
Proof.
  intros Hs Ha Hc. unfold is_byte in Ha.
  assert (forall l m, zlen l = 2 ->
    returns_total (unchecked (sdscatlen s (l ++ m) 2)) (sds_is (c ++ l))) as Hcat.
  { intros l m Hl. apply unchecked_total. rewrite <- Hl. apply sdscatlen_spec; [done|lia]. }
  assert (forall f out, no_nul f -> zlen f < 2 ^ 31 -> no_nul out -> zlen out <= 4 ->
    returns_total (unchecked (sdscatprintf s (f ++ [0]) out)) (sds_is (c ++ out))) as Hprintf.
  { intros f out Hf Hlf Ho Hlo. apply unchecked_total. by apply sdscatvprintf_spec; [..|lia|lia]. }
  unfold repr_char, repr_bytes.
  destruct ((a =? 92) || (a =? 34)) eqn:E1.
  { apply (Hprintf (lit "\%c")); [by repeat constructor|done| |done].
    apply orb_prop in E1 as [E1|E1]; apply Z.eqb_eq in E1 as ->; by repeat constructor. }
  destruct (a =? 10); [by apply (Hcat [92; 110] [0])|].
  destruct (a =? 13); [by apply (Hcat [92; 114] [0])|].
  destruct (a =? 9); [by apply (Hcat [92; 116] [0])|].
  destruct (a =? 7); [by apply (Hcat [92; 97] [0])|].
  destruct (a =? 8); [by apply (Hcat [92; 98] [0])|].
  destruct (isprint a) eqn:Ep.
  - apply (Hprintf (lit "%c")); [by repeat constructor|done| |done].
    unfold isprint in Ep. bool_to_prop. repeat constructor. lia.
  - apply (Hprintf (lit "\x%02x")); [by repeat constructor|done| |done].
    repeat constructor; try done; apply hex_char_nonzero; lia.
Qed.

Lemma repr_loop_spec d : forall s c pre m, sds_is c s -> Forall is_byte d ->
  zlen c + 4 * zlen d < 2 ^ 60 ->
  returns_total (repr_loop s (pre ++ d ++ m) (zlen pre) (length d))
    (sds_is (c ++ flat_map repr_bytes d)).
Proof.
  induction d as [|a d IH]; intros s c pre m Hs Hd Hc; cbn [length repr_loop flat_map].
  { by rewrite app_nil_r. }
  apply Forall_cons in Hd as [Ha Hd]. cbn [app length] in *. rewrite load_middle.
  cbn [mbind result_bind].
  eapply returns_total_bind; [apply (repr_char_spec s c a); [done..|lia]|]. intros s1 Hs1.
  replace (zlen pre + 1) with (zlen (pre ++ [a])) by slia.
  replace (pre ++ a :: d ++ m) with ((pre ++ [a]) ++ d ++ m) by solve_app.
  rewrite (app_assoc c). apply IH; [done..|]. rewrite length_app.
  pose proof (repr_bytes_length a). lia.
Qed.

Lemma repr_loop_length d : zlen (flat_map repr_bytes d) <= 4 * zlen d.
Proof.
  induction d as [|a d IH]; cbn [flat_map length]; [lia|]. rewrite length_app.
  pose proof (repr_bytes_length a). lia.
Qed.

Lemma sdscatrepr_spec s c d m : sds_is c s -> Forall is_byte d -> zlen c + 4 * zlen d < 2 ^ 59 ->
  returns_any (sdscatrepr s (d ++ m) (zlen d)) (sds_is (c ++ repr_text d)).
Proof.
  intros Hs Hd Hc. unfold sdscatrepr.
  eapply returns_any_bind; [apply unchecked_total; apply (sdscatlen_spec s c [34] [0]);
    [done|simpl; lia]|].
  intros s1 Hs1. rewrite Nat2Z.id.
  eapply returns_any_bind.
  { apply (repr_loop_spec d s1 (c ++ [34]) [] m); [done..|rewrite length_app; simpl; lia]. }
  intros s2 Hs2. apply returns_any_of. unfold repr_text.
  replace (c ++ 34 :: flat_map repr_bytes d ++ [34])
    with (((c ++ [34]) ++ flat_map repr_bytes d) ++ [34]) by solve_app.
  apply (sdscatlen_spec s2 _ [34] [0]); [done|]. rewrite !length_app.
  pose proof (repr_loop_length d). simpl. lia.
Qed.

Lemma repr_length_ge d : (length d <= length (flat_map repr_bytes d))%nat.
Proof.
  induction d as [|a d IH]; cbn [flat_map length]; [lia|]. rewrite length_app.
  pose proof (repr_bytes_length a). lia.
Qed.

(** ** sdssplitargs on quoted arguments *)
Lemma cat_byte_spec s c a : sds_is c s -> zlen c < 2 ^ 60 ->
  returns_total (cat_byte s a) (sds_is (c ++ [a])).
Proof.
  intros Hs Hc. apply unchecked_total. apply (sdscatlen_spec s c [a] []); [done|simpl; lia].
Qed.

(** One quoted byte is one round of the token loop: [k] is the distance of the
    last byte of its quoted form. *)
Lemma load_skip pre l k : 0 <= k -> load (pre ++ l) (zlen pre + k) = load l k.
Proof.
  intros Hk. unfold load. rewrite lookup_app_r by lia.
  replace (Z.to_nat (zlen pre + k) - length pre)%nat with (Z.to_nat k) by lia.
  by bool_false (zlen pre + k <? 0); bool_false (k <? 0).
Qed.

Lemma load_here pre l : load (pre ++ l) (zlen pre) = load l 0.
Proof. rewrite <- (load_skip pre l 0) by lia. f_equal. lia. Qed.

Lemma quote_escape pre x rest s b : x <> 0 -> x <> 120 -> unescape x = b ->
  quote_step (pre ++ 92 :: x :: rest) InDouble s (zlen pre)
  = (s' ← cat_byte s b; Ok (Some (s', zlen pre + 1, InDouble, false))).
Proof.
  intros H0 H120 <-. unfold quote_step, hex_escape.
  rewrite load_here, load_skip by lia. cbn [load Z.ltb Z.to_nat lookup].
  change (load (92 :: x :: rest) 0) with (Ok 92). change (load (92 :: x :: rest) 1) with (Ok x).
  cbn [mbind result_bind Z.eqb Pos.eqb negb]. bool_false (x =? 120).
  cbn [negb mbind result_bind]. by bool_false (x =? 0).
Qed.

Lemma quote_hex pre x y rest s : is_hex_digit x = true -> is_hex_digit y = true ->
  quote_step (pre ++ 92 :: 120 :: x :: y :: rest) InDouble s (zlen pre)
  = (s' ← cat_byte s (hex_digit_to_int x * 16 + hex_digit_to_int y);
     Ok (Some (s', zlen pre + 3, InDouble, false))).
Proof.
  intros Hx Hy. unfold quote_step, hex_escape.
  rewrite load_here, !load_skip by lia.
  change (load (92 :: 120 :: x :: y :: rest) 0) with (Ok 92).
  change (load (92 :: 120 :: x :: y :: rest) 1) with (Ok 120).
  change (load (92 :: 120 :: x :: y :: rest) 2) with (Ok x).
  change (load (92 :: 120 :: x :: y :: rest) 3) with (Ok y).
  cbn [mbind result_bind Z.eqb Pos.eqb negb]. rewrite Hx, Hy. done.
Qed.

Lemma quote_plain pre x rest s : x <> 0 -> x <> 92 -> x <> 34 ->
  quote_step (pre ++ x :: rest) InDouble s (zlen pre)
  = (s' ← cat_byte s x; Ok (Some (s', zlen pre, InDouble, false))).
Proof.
  intros H0 H92 H34. unfold quote_step, hex_escape.
  rewrite load_here. change (load (x :: rest) 0) with (Ok x). cbn [mbind result_bind].
  bool_false (x =? 92). cbn [negb mbind result_bind].
  by bool_false (x =? 34); bool_false (x =? 0).
Qed.

Lemma quote_end pre tail x rest s : tail = x :: rest -> x = 0 \/ isspace x = true ->
  quote_step (pre ++ 34 :: tail) InDouble s (zlen pre) = Ok (Some (s, zlen pre, InDouble, true)).
Proof.
  intros -> Hx. unfold quote_step, hex_escape.
  rewrite load_here, !load_skip by lia.
  change (load (34 :: x :: rest) 0) with (Ok 34). change (load (34 :: x :: rest) 1) with (Ok x).
  cbn [mbind result_bind Z.eqb Pos.eqb negb].
  destruct Hx as [->| ->]; [done|]. by rewrite andb_false_r.
Qed.

Lemma quote_repr pre a rest s : is_byte a -> exists k x,
  quote_step (pre ++ repr_bytes a ++ rest) InDouble s (zlen pre)
    = (s' ← cat_byte s a; Ok (Some (s', zlen pre + k, InDouble, false))) /\
  load (pre ++ repr_bytes a ++ rest) (zlen pre + k) = Ok x /\ x <> 0 /\
  zlen pre + k + 1 = zlen (pre ++ repr_bytes a).
Proof.
  intros Ha. unfold is_byte in Ha. unfold repr_bytes.
  destruct ((a =? 92) || (a =? 34)) eqn:E1.
  { assert (a = 92 \/ a = 34) as Hc.
    { apply orb_prop in E1 as [E1|E1]; apply Z.eqb_eq in E1; auto. }
    exists 1, a. split_and!; [|rewrite load_skip by lia; done|lia|slia].
    apply quote_escape; [lia..|]. by destruct Hc as [-> | ->]. }
  apply orb_false_elim in E1 as [E92 E34]. apply Z.eqb_neq in E92, E34.
  assert (forall x b, x <> 0 -> x <> 120 -> unescape x = b -> exists k z,
    quote_step (pre ++ [92; x] ++ rest) InDouble s (zlen pre)
      = (s' ← cat_byte s b; Ok (Some (s', zlen pre + k, InDouble, false))) /\
    load (pre ++ [92; x] ++ rest) (zlen pre + k) = Ok z /\ z <> 0 /\
    zlen pre + k + 1 = zlen (pre ++ [92; x])) as Hesc.
  { intros x b H0 H120 Hu. exists 1, x.
    split_and!; [by apply quote_escape|rewrite load_skip by lia; done|done|slia]. }
  do 5 (split_if; [subst; by apply Hesc|]).
  split_if.
  - exists 0, a. unfold isprint in *. bool_to_prop.
    split_and!; [|rewrite load_skip by lia; done|lia|slia].
    rewrite Z.add_0_r. apply quote_plain; lia.
  - destruct (hex_char_ok (a / 16)) as [Hx1 Hx2]; [lia|].
    destruct (hex_char_ok (a mod 16)) as [Hy1 Hy2]; [lia|].
    exists 3, (hex_char (a mod 16)). split_and!; [|rewrite load_skip by lia; done| |slia].
    + simpl app. rewrite quote_hex by done. rewrite Hx2, Hy2.
      by replace (a / 16 * 16 + a mod 16) with a by lia.
    + apply hex_char_nonzero. lia.
Qed.

Lemma token_repr d : forall pre s c fuel x tail, sds_is c s -> Forall is_byte d ->
  zlen c + zlen d < 2 ^ 60 -> x = 0 \/ isspace x = true -> (length d < fuel)%nat ->
  returns_total (token_loop fuel (pre ++ flat_map repr_bytes d ++ 34 :: x :: tail)
                   InDouble s (zlen pre))
    (fun o => exists s', o = Some (s', zlen (pre ++ flat_map repr_bytes d) + 1) /\
       sds_is (c ++ d) s').
Proof.
  induction d as [|a d IH]; intros pre s c [|fuel] x tail Hs Hd Hc Hx Hf;
    cbn [length] in Hf; try lia; cbn [token_loop flat_map app].
  { rewrite quote_end with (x := x) (rest := tail) by done. cbn [mbind result_bind].
    rewrite load_here. cbn. eexists. rewrite !app_nil_r. by split. }
  apply Forall_cons in Hd as [Ha Hd]. cbn [length] in Hc. rewrite <- app_assoc.
  destruct (quote_repr pre a (flat_map repr_bytes d ++ 34 :: x :: tail) s Ha)
    as (k & z & -> & Hz & Hz0 & Hk).
  apply returns_total_bind with (fun r => exists s',
    r = Some (s', zlen pre + k, InDouble, false) /\ sds_is (c ++ [a]) s').
  { eapply returns_total_bind; [apply cat_byte_spec; [done|lia]|]. intros s' Hs'. by exists s'. }
  intros ? (s' & -> & Hs'). rewrite Hz. cbn [mbind result_bind]. bool_false (z =? 0).
  cbn [negb]. rewrite Hk. rewrite (app_assoc pre).
  eapply returns_total_mono; [apply IH; [done..|rewrite length_app; simpl; lia|done|lia]|].
  intros o (s2 & -> & Hs2). exists s2. rewrite <- !app_assoc in *. by split.
Qed.

Lemma token_quoted d : forall pre fuel x tail s, sds_is [] s -> Forall is_byte d ->
  zlen d < 2 ^ 60 -> x = 0 \/ isspace x = true -> (S (length d) < fuel)%nat ->
  returns_total (token_loop fuel (pre ++ repr_text d ++ x :: tail) NoQuote s (zlen pre))
    (fun o => exists s', o = Some (s', zlen (pre ++ repr_text d)) /\ sds_is d s').
Proof.
  intros pre [|fuel] x tail s Hs Hd Hl Hx Hf; [lia|]. unfold repr_text. cbn [token_loop app].
  unfold quote_step. rewrite load_here. cbn [load lookup list_lookup Z.ltb Z.to_nat].
  change (load (34 :: _) 0) with (@Ok Z 34). cbn [mbind result_bind Z.eqb Pos.eqb orb negb].
  rewrite load_here. change (load (34 :: _) 0) with (@Ok Z 34).
  cbn [mbind result_bind Z.eqb Pos.eqb orb negb].
  replace (zlen pre + 1) with (zlen (pre ++ [34])) by slia.
  replace (pre ++ 34 :: (flat_map repr_bytes d ++ [34]) ++ x :: tail)
    with ((pre ++ [34]) ++ flat_map repr_bytes d ++ 34 :: x :: tail) by solve_app.
  eapply returns_total_mono; [apply (token_repr d); [exact Hs|done|simpl; lia|done|lia]|].
  intros o (s' & -> & Hs'). exists s'. split; [|done]. do 2 f_equal. rewrite !length_app.
  cbn [length]. rewrite !length_app. cbn [length]. lia.
Qed.

Lemma skip_blanks_spec bl : forall fuel pre x rest, Forall (fun c => isspace c = true) bl ->
  x = 0 \/ isspace x = false -> (length bl < fuel)%nat ->
  skip_blanks fuel (pre ++ bl ++ x :: rest) (zlen pre) = Ok (zlen (pre ++ bl)).
Proof.
  induction bl as [|c bl IH]; intros [|fuel] pre x rest Hbl Hx Hf; cbn [length] in Hf; try lia;
    cbn [skip_blanks app].
  - rewrite load_middle. cbn [mbind result_bind]. rewrite app_nil_r.
    destruct Hx as [->|Hx]; [done|]. by rewrite Hx, andb_false_r.
  - apply Forall_cons in Hbl as [Hc Hbl]. rewrite load_middle. cbn [mbind result_bind].
    rewrite Hc. assert (c <> 0) by (intros ->; done). bool_false (c =? 0). cbn [negb andb].
    replace (zlen pre + 1) with (zlen (pre ++ [c])) by slia.
    replace (pre ++ c :: bl ++ x :: rest) with ((pre ++ [c]) ++ bl ++ x :: rest) by solve_app.
    rewrite IH by (done || lia). do 2 f_equal. solve_app.
Qed.

Lemma splitargs_quoted r ds : forall fuel pre bl l ts,
  Forall (fun c => isspace c = true) bl -> tokens_are ts l ->
  Forall (fun d => Forall is_byte d /\ zlen d < 2 ^ 60) ds -> (length ds < fuel)%nat ->
  returns_any (splitargs_loop fuel (pre ++ bl ++ join_text [32] (repr_text <$> ds) ++ 0 :: r)
                 (zlen pre) l)
    (tokens_are (ts ++ ds)).
Proof.
  induction ds as [|d ds IH]; intros [|fuel] pre bl l ts Hbl Hl Hds Hf; cbn [length] in Hf;
    try lia; cbn [splitargs_loop fmap list_fmap].
  { cbn [join_text app]. rewrite skip_blanks_spec; [|done|by left|rewrite !length_app; lia].
    cbn [mbind result_bind]. rewrite app_assoc, load_middle. cbn [mbind result_bind Z.eqb].
    rewrite app_nil_r. destruct (bool_decide _ && negb _) eqn:E; [|done].
    apply andb_prop in E as [_ E]. apply negb_true_iff in E. by exists 8. }
  apply Forall_cons in Hds as [[Hd Hld] Hds].
  assert (exists bl' x tl, Forall (fun c => isspace c = true) bl' /\
    (x = 0 \/ isspace x = true) /\ x :: tl = bl' ++ join_text [32] (repr_text <$> ds) ++ 0 :: r /\
    join_text [32] (repr_text d :: (repr_text <$> ds)) ++ 0 :: r = repr_text d ++ x :: tl)
    as (bl' & x & tl & Hbl' & Hx & Htl & ->).
  { destruct ds as [|d2 ds]; [exists [], 0, r; split_and!; auto; constructor|].
    exists [32], 32, (join_text [32] (repr_text <$> d2 :: ds) ++ 0 :: r).
    split_and!; [by constructor|by right|done|].
    cbn [fmap list_fmap]. rewrite join_text_cons by done. solve_app. }
  change (repr_text d) with (34 :: flat_map repr_bytes d ++ [34]). cbn [app].
  rewrite skip_blanks_spec; [|done|by right|rewrite !length_app; lia].
  cbn [mbind result_bind]. rewrite (app_assoc pre), load_middle. cbn [mbind result_bind Z.eqb].
  eapply returns_any_bind; [apply unchecked_total, sdsempty_spec|]. intros s Hs.
  eapply returns_any_bind.
  { change (34 :: (flat_map repr_bytes d ++ [34]) ++ x :: tl) with (repr_text d ++ x :: tl).
    apply token_quoted; [done..|]. pose proof (repr_length_ge d).
    do 2 (unfold repr_text; rewrite ?length_app; cbn [length]). lia. }
  intros o (s' & -> & Hs'). destruct (malloc_ok _) eqn:Em; cbn [negb]; [|cbn; eauto].
  rewrite Htl. replace (ts ++ d :: ds) with ((ts ++ [d]) ++ ds) by solve_app.
  replace ((pre ++ bl) ++ 34 :: _) with
    (((pre ++ bl) ++ repr_text d) ++ bl' ++ join_text [32] (repr_text <$> ds) ++ 0 :: r)
    by (unfold repr_text; solve_app).
  apply IH; [done|by apply tokens_snoc|done|lia].
Qed.

(** ** sdssplitargs on any line *)

(** What a step keeps: the position stays on the line, and moves before the
    next step. *)
Definition step_safe (text : bytes) (p : Z) (c : bytes)
    (o : option (sds * Z * quote * bool)) : Prop :=
  match o with
  | None => True
  | Some (s', p', _, done) =>
      p <= p' <= zlen text /\ (done = false -> p' < zlen text) /\
      exists c', sds_is c' s' /\ zlen c' <= zlen c + (if done then 0 else 1)
  end.

Lemma load_line text r p : no_nul text -> 0 <= p <= zlen text ->
  exists x, load (text ++ 0 :: r) p = Ok x /\ (x <> 0 <-> p < zlen text).
Proof.
  intros Ht Hp. destruct (decide (p = zlen text)) as [->|Hne].
  - exists 0. rewrite load_middle. split; [done|lia].
  - destruct (load_in text p) as [x Hx]; [lia|]. exists x. split; [by apply load_app_l|].
    apply load_Ok in Hx as [_ Hx]. split; [lia|]. intros _.
    exact (proj1 (Forall_lookup _ _) Ht _ _ Hx).
Qed.

Lemma cat_safe text s c a p p' q : sds_is c s -> zlen c < 2 ^ 60 ->
  p <= p' < zlen text ->
  returns_total (s' ← cat_byte s a; Ok (Some (s', p', q, false))) (step_safe text p c).
Proof.
  intros Hs Hc Hp. eapply returns_total_bind; [by apply cat_byte_spec|].
  intros s' Hs'. cbn. split_and!; [lia..|]. exists (c ++ [a]). split; [done|slia].
Qed.

Lemma stop_safe text s c p q : sds_is c s -> 0 <= p <= zlen text ->
  returns_total (Ok (Some (s, p, q, true))) (step_safe text p c).
Proof. intros. cbn. split_and!; [lia..|done|]. exists c. split; [done|lia]. Qed.

Lemma go_safe text s c p q : sds_is c s -> 0 <= p < zlen text ->
  returns_total (Ok (Some (s, p, q, false))) (step_safe text p c).
Proof. intros. cbn. split_and!; [lia..|]. exists c. split; [done|lia]. Qed.

Lemma hex_escape_safe text r p : no_nul text -> 0 <= p <= zlen text ->
  exists h, hex_escape (text ++ 0 :: r) p = Ok h /\ (is_Some h -> p + 3 < zlen text).
Proof.
  intros Ht Hp. unfold hex_escape.
  assert (forall k x, load (text ++ 0 :: r) k = Ok x -> 0 <= k <= zlen text -> x <> 0 ->
    exists y, load (text ++ 0 :: r) (k + 1) = Ok y /\ 0 <= k + 1 <= zlen text) as Hnext.
  { intros k x Hx Hk Hx0. destruct (load_line text r k Ht Hk) as (x' & Hx' & Hn).
    assert (x' = x) as -> by congruence. apply Hn in Hx0.
    destruct (load_line text r (k + 1) Ht) as (y & Hy & _); [lia|]. exists y. split; [done|lia]. }
  assert (forall o, o = @None Z -> is_Some o -> p + 3 < zlen text) as HN
    by (intros ? -> [? ?]; done).
  destruct (load_line text r p Ht Hp) as (x0 & H0 & _). rewrite H0. cbn [mbind result_bind].
  destruct (x0 =? 92) eqn:E0; cbn [negb]; [|eauto]. apply Z.eqb_eq in E0 as ->.
  destruct (Hnext p 92) as (x1 & H1 & Hp1); [done..|]. rewrite H1. cbn [mbind result_bind].
  destruct (x1 =? 120) eqn:E1; cbn [negb]; [|eauto]. apply Z.eqb_eq in E1 as ->.
  destruct (Hnext _ _ H1 Hp1) as (x2 & H2 & Hp2); [done|].
  replace (p + 1 + 1) with (p + 2) in * by lia. rewrite H2. cbn [mbind result_bind].
  destruct (is_hex_digit x2) eqn:E2; cbn [negb]; [|eauto].
  destruct (Hnext _ _ H2 Hp2) as (x3 & H3 & Hp3); [by intros ->|].
  replace (p + 2 + 1) with (p + 3) in * by lia. rewrite H3. cbn [mbind result_bind].
  destruct (is_hex_digit x3) eqn:E3; cbn [negb]; [|eauto].
  eexists. split; [done|]. intros _.
  destruct (load_line text r (p + 3) Ht Hp3) as (x & Hx & Hn).
  assert (x = x3) as -> by congruence. apply Hn. by intros ->.
Qed.

(** The byte after the current one, which is not the terminator. *)
Ltac next_byte text r p Ht c1 H1 Hn1 :=
  destruct (load_line text r (p + 1) Ht) as (c1 & H1 & Hn1); [lia|];
  rewrite ?H1; cbn [mbind result_bind].

Lemma quote_step_safe text r q s c p : no_nul text -> zlen text < 2 ^ 60 ->
  0 <= p <= zlen text -> sds_is c s -> zlen c <= zlen text ->
  returns_total (quote_step (text ++ 0 :: r) q s p) (step_safe text p c).
Proof.
  intros Ht Hlt Hp Hs Hc. unfold quote_step.
  destruct (load_line text r p Ht Hp) as (x & Hx & Hn). rewrite Hx. cbn [mbind result_bind].
  destruct q.
  - destruct (Z.eq_dec x 0) as [->|Hx0]; [by apply stop_safe|].
    pose proof (proj1 Hn Hx0). split_if; [by apply stop_safe|].
    repeat (split_if; [by apply go_safe; [|lia]|]). apply cat_safe; [done|lia..].
  - destruct (hex_escape_safe text r p Ht Hp) as ([b|] & -> & Hh); cbn [mbind result_bind].
    { apply cat_safe; [done|lia|]. assert (p + 3 < zlen text) by (apply Hh; eauto). lia. }
    destruct (Z.eq_dec x 0) as [->|Hx0]; [done|]. pose proof (proj1 Hn Hx0).
    bool_false (x =? 0). next_byte text r p Ht c1 H1 Hn1.
    destruct (x =? 92); cbn [mbind result_bind].
    + destruct (c1 =? 0) eqn:E; cbn [negb]; [apply Z.eqb_eq in E|apply Z.eqb_neq, Hn1 in E].
      * split_if; [|apply cat_safe; [done|lia..]]. split_if; [done|]. by apply stop_safe.
      * apply cat_safe; [done|lia..].
    + split_if; [|apply cat_safe; [done|lia..]]. split_if; [done|]. by apply stop_safe.
  - destruct (Z.eq_dec x 0) as [->|Hx0]; [done|]. pose proof (proj1 Hn Hx0).
    bool_false (x =? 0). next_byte text r p Ht c1 H1 Hn1.
    destruct (x =? 92); cbn [mbind result_bind].
    + destruct (c1 =? 39) eqn:E.
      * apply Z.eqb_eq in E as ->. assert (p + 1 < zlen text) by (by apply Hn1).
        apply cat_safe; [done|lia..].
      * split_if; [|apply cat_safe; [done|lia..]]. split_if; [done|]. by apply stop_safe.
    + split_if; [|apply cat_safe; [done|lia..]]. split_if; [done|]. by apply stop_safe.
Qed.

Lemma token_loop_safe text r : no_nul text -> zlen text < 2 ^ 60 ->
  forall fuel q s c p, 0 <= p <= zlen text -> sds_is c s -> zlen c <= p ->
  zlen text - p < Z.of_nat fuel ->
  returns_total (token_loop fuel (text ++ 0 :: r) q s p)
    (fun o => match o with
              | None => True
              | Some (s', p') => p <= p' <= zlen text /\ (p < zlen text -> p < p') /\
                               exists c', sds_is c' s'
              end).
Proof.
  intros Ht Hlt. induction fuel as [|fuel IH]; intros q s c p Hp Hs Hc Hf; [lia|].
  cbn [token_loop]. eapply returns_total_bind; [apply (quote_step_safe text r q s c p); done || lia|].
  intros [[[[s' p'] q'] d]|] Ho; [|done]. destruct Ho as (Hp' & Hd & c' & Hs' & Hc').
  destruct (load_line text r p' Ht) as (x & Hx & Hn); [lia|]. rewrite Hx. cbn [mbind result_bind].
  assert ((if negb (x =? 0) then p' + 1 else p') = if p' <? zlen text then p' + 1 else p') as ->.
  { destruct (x =? 0) eqn:E; cbn [negb].
    - apply Z.eqb_eq in E. by bool_false (p' <? zlen text).
    - apply Z.eqb_neq, Hn in E. by bool_true (p' <? zlen text). }
  destruct d.
  - cbn. split_if; split_and!; try lia; eauto.
  - specialize (Hd eq_refl). bool_true (p' <? zlen text).
    eapply returns_total_mono; [apply (IH _ _ c'); done || lia|].
    intros [[s2 p2]|]; [|done]. intros (? & ? & ?). split_and!; [lia..|done].
Qed.

Lemma skip_blanks_safe text r : no_nul text -> forall fuel p, 0 <= p <= zlen text ->
  zlen text - p < Z.of_nat fuel ->
  exists p', skip_blanks fuel (text ++ 0 :: r) p = Ok p' /\ p <= p' <= zlen text.
Proof.
  intros Ht. induction fuel as [|fuel IH]; intros p Hp Hf; [lia|]. cbn [skip_blanks].
  destruct (load_line text r p Ht Hp) as (x & Hx & Hn). rewrite Hx. cbn [mbind result_bind].
  destruct (x =? 0) eqn:E; cbn [negb andb]; [exists p; split; [done|lia]|].
  apply Z.eqb_neq, Hn in E. split_if; [|exists p; split; [done|lia]].
  destruct (IH (p + 1)) as (p' & ? & ?); [lia..|]. exists p'. split; [done|lia].
Qed.

Lemma splitargs_loop_safe text r : no_nul text -> zlen text < 2 ^ 60 ->
  forall fuel p l, 0 <= p <= zlen text -> zlen text - p < Z.of_nat fuel ->
  Forall (fun s => exists c, sds_is c s) l ->
  returns_total (splitargs_loop fuel (text ++ 0 :: r) p l)
    (fun o => match o with
              | None => True
              | Some l => Forall (fun s => exists c, sds_is c s) l
              end).
Proof.
  intros Ht Hlt. induction fuel as [|fuel IH]; intros p l Hp Hf Hl; [lia|].
  cbn [splitargs_loop].
  destruct (skip_blanks_safe text r Ht (S (length (text ++ 0 :: r))) p Hp)
    as (p1 & -> & Hp1); [rewrite length_app; lia|]. cbn [mbind result_bind].
  destruct (load_line text r p1 Ht) as (x & Hx & Hn); [lia|]. rewrite Hx. cbn [mbind result_bind].
  destruct (x =? 0) eqn:E; [by split_if|]. apply Z.eqb_neq, Hn in E.
  eapply returns_total_bind; [apply unchecked_total, sdsempty_spec|]. intros s Hs.
  eapply returns_total_bind.
  { apply (token_loop_safe text r Ht Hlt _ _ _ []); [lia|done|simpl; lia|].
    rewrite length_app. simpl. lia. }
  intros [[s' p2]|]; [|done]. intros (Hp2 & Hlt2 & Hs').
  destruct (malloc_ok _) eqn:Em; cbn [negb]; [|split; eauto].
  apply IH; [lia|specialize (Hlt2 E); lia|].
  apply Forall_app. split; [done|by constructor].
Qed.
End quote.
