(* ===== verification/SdsCorrect.v ===== *)
(** * SdsCorrect: what the strings of sds.c guarantee

    A string implements a list of bytes ([sds_refines]): any sequence of the
    operations keeps the string well formed and does to its content what the
    operation says. The single operations with their limits follow. *)
From S2P Require Import Prelude Mem Sds SdsFacts.
From S2P Require Import SdsText SdsTextFacts SdsSplit.
From stdpp Require Import list list_numbers strings sets gmap.
From Stdlib Require Import ZArith Lia.
Open Scope Z_scope.

(** ** Operations as data *)
Inductive sds_op : Type :=
  | OpCatLen (d : bytes)
  | OpCat (d : bytes)
  | OpCpyLen (d : bytes)
  | OpGrowZero (n : Z)
  | OpMakeRoom (n : Z)
  | OpRemoveFree
  | OpDup
  | OpClear
  | OpRange (start end_ : Z)
  | OpTrim (cset : bytes)
  | OpLower
  | OpUpper.

Section refine.
Context {M : Malloc}.

Definition in_place (m : result sds) : result (option sds) := Some <$> m.

Definition run_op (s : sds) (op : sds_op) : result (option sds) :=
  match op with
  | OpCatLen d => sdscatlen s d (zlen d)
  | OpCat d => sdscat s (d ++ [0])
  | OpCpyLen d => sdscpylen s d (zlen d)
  | OpGrowZero n => sdsgrowzero s n
  | OpMakeRoom n => sdsMakeRoomFor s n
  | OpRemoveFree => sdsRemoveFreeSpace s
  | OpDup => sdsdup s
  | OpClear => in_place (sdsclear s)
  | OpRange start end_ => in_place (sdsrange s start end_)
  | OpTrim cset => in_place (sdstrim s cset)
  | OpLower => in_place (sdstolower s)
  | OpUpper => in_place (sdstoupper s)
  end.

Fixpoint run_ops (s : sds) (ops : list sds_op) : result (option sds) :=
  match ops with
  | [] => Ok (Some s)
  | op :: ops => s <-! run_op s op; run_ops s ops
  end.

(** What the operations do to the content. *)
Definition spec_op (c : bytes) (op : sds_op) : bytes :=
  match op with
  | OpCatLen d | OpCat d => c ++ d
  | OpCpyLen d => d
  | OpGrowZero n => c ++ replicate (Z.to_nat (n - zlen c)) 0
  | OpMakeRoom _ | OpRemoveFree | OpDup => c
  | OpClear => []
  | OpRange start end_ => range_spec c start end_
  | OpTrim cset => trim_spec cset c
  | OpLower => tolower <$> c
  | OpUpper => toupper <$> c
  end.

(** The limits: the [int] indexes of the in-place operations, and sizes that
    stay far from the end of [size_t]. *)
Definition op_fits (c : bytes) (op : sds_op) : Prop :=
  match op with
  | OpCatLen d | OpCpyLen d => zlen c + zlen d < 2 ^ 62
  | OpCat d => no_nul d /\ zlen c + zlen d < 2 ^ 62
  | OpGrowZero n => zlen c <= n < 2 ^ 62
  | OpMakeRoom n => 0 <= n /\ zlen c + n < 2 ^ 62
  | OpRemoveFree | OpDup => zlen c < 2 ^ 62
  | OpClear | OpTrim _ => True
  | OpRange start end_ => zlen c < 2 ^ 31 - 1 /\ - 2 ^ 31 <= start < 2 ^ 31 /\
      - 2 ^ 31 <= end_ < 2 ^ 31 - 1
  | OpLower | OpUpper => zlen c < 2 ^ 31
  end.

Fixpoint ops_fit (c : bytes) (ops : list sds_op) : Prop :=
  match ops with
  | [] => True
  | op :: ops => op_fits c op /\ ops_fit (spec_op c op) ops
  end.

Lemma in_place_returns m (Q : sds -> Prop) :
  (exists s, m = Ok s /\ Q s) -> returns (in_place m) Q.
Proof. by intros (s & -> & Hs). Qed.

Lemma run_op_spec s c op : sds_is c s -> op_fits c op ->
  returns (run_op s op) (sds_is (spec_op c op)).
Proof.
  intros Hs. destruct op as [d|d|d|n|n| | | |st e|cset| |]; cbn [run_op spec_op op_fits]; intros Hf.
  - rewrite <- (app_nil_r d) at 1. by apply sdscatlen_spec.
  - destruct Hf. by apply (sdscat_spec s c d []).
  - rewrite <- (app_nil_r d) at 1. by eapply sdscpylen_spec.
  - by apply sdsgrowzero_spec.
  - destruct Hf. eapply returns_mono; [by apply sdsMakeRoomFor_spec|]. by intros s' [? _].
  - eapply returns_mono; [by apply sdsRemoveFreeSpace_spec|]. by intros s' [? _].
  - by apply sdsdup_spec.
  - apply in_place_returns. by eapply sdsclear_spec.
  - apply in_place_returns. destruct Hf as (? & ? & ?). by apply sdsrange_spec.
  - apply in_place_returns. by apply sdstrim_spec.
  - apply in_place_returns. by apply sdstolower_spec.
  - apply in_place_returns. by apply sdstoupper_spec.
Qed.

(** C34: any sequence of string operations within the limits runs without
    fault on a well-formed string and leaves a well-formed string with the
    content the list operations give, or [NULL] if an allocation failed. *)
Theorem sds_refines ops s c : sds_is c s -> ops_fit c ops ->
  returns (run_ops s ops) (sds_is (foldl spec_op c ops)).
Proof.
  revert s c. induction ops as [|op ops IH]; intros s c Hs Hf; [done|].
  destruct Hf as [Hop Hf]. cbn [run_ops foldl].
  eapply returns_bind; [by apply run_op_spec|]. intros s' Hs'. by apply IH.
Qed.

End refine.


Lemma sds_refines_witness : exists s,
  sdsnew (M := malloc_yes) (Some (lit "  ab" ++ [0])) = Ok (Some s) /\
  returns (M := malloc_yes)
    (run_ops (M := malloc_yes) s [OpTrim (lit " "); OpCatLen (lit "cd"); OpRange 1 (-2); OpUpper])
    (sds_is (lit "BC")).
Proof.
  destruct (returns_ok (M := malloc_yes) _ _ (fun _ => eq_refl)
    (sdsnew_spec (M := malloc_yes) (lit "  ab") [] ltac:(repeat constructor; done) ltac:(done)))
    as (s & Hs & Hi).
  exists s. split; [exact Hs|].
  change (lit "BC") with
    (foldl spec_op (lit "  ab") [OpTrim (lit " "); OpCatLen (lit "cd"); OpRange 1 (-2); OpUpper]).
  apply (sds_refines (M := malloc_yes)); [exact Hi|].
  vm_compute. repeat split; discriminate.
Defined.

(** ** Growth *)

(** [sdsMakeRoomFor] keeps the content and leaves at least the requested
    room, or returns [NULL] because an allocation failed. *)
Theorem sdsMakeRoomFor_reserves {M : Malloc} s c addlen :
  sds_is c s -> 0 <= addlen -> zlen c + addlen < 2 ^ 62 ->
  returns (sdsMakeRoomFor s addlen) (fun s' => sds_is c s' /\ addlen <= sdsavail s').
Proof. apply sdsMakeRoomFor_spec. Qed.

Lemma sdsMakeRoomFor_reserves_witness : exists s,
  sdsempty (M := malloc_yes) = Ok (Some s) /\
  returns (M := malloc_yes) (sdsMakeRoomFor (M := malloc_yes) s 300)
    (fun s' => sds_is [] s' /\ 300 <= sdsavail s').
Proof.
  destruct (returns_ok (M := malloc_yes) _ _ (fun _ => eq_refl) (sdsempty_spec (M := malloc_yes)))
    as (s & Hs & Hi).
  exists s. split; [exact Hs|].
  apply (sdsMakeRoomFor_reserves (M := malloc_yes)); [exact Hi|lia|simpl; lia].
Defined.

(** [sdsReqType] gives a header whose length fields hold the size, and no
    smaller header does (a size at the limit of a type takes the next one). *)
Theorem sdsReqType_least n : 0 <= n < 2 ^ 64 ->
  n <= type_cap (sdsReqType n) /\
  (forall t, 0 <= t < sdsReqType n -> type_cap t <= n + 1 \/ t = SDS_TYPE_5 /\ 31 < n).
Proof.
  intros Hn. unfold sdsReqType, SDS_TYPE_5, SDS_TYPE_8, SDS_TYPE_16, SDS_TYPE_32, SDS_TYPE_64.
  repeat split_if; split; try (cbn; lia); intros t Ht;
    (assert (t = 0 \/ t = 1 \/ t = 2 \/ t = 3) as [->|[->|[->| ->]]] by lia);
    try lia; cbn; lia.
Qed.

Lemma sdsReqType_least_witness :
  300 <= type_cap (sdsReqType 300) /\
  (forall t, 0 <= t < sdsReqType 300 -> type_cap t <= 300 + 1 \/ t = SDS_TYPE_5 /\ 31 < 300).
Proof. apply (sdsReqType_least 300). lia. Defined.

(** writing [d] into the free room of a string and calling [sdsIncrLen]
    appends [d]. *)
Theorem sdsIncrLen_appends s c d b :
  sds_is c s -> sds_type s <> SDS_TYPE_5 -> zlen d <= sdsavail s -> zlen d < 2 ^ 31 ->
  blit (sds_buf s) (sdslen s) d = Ok b ->
  exists s', sdsIncrLen (set_buf s b) (zlen d) = Ok s' /\ sds_is (c ++ d) s'.
Proof. apply sdsIncrLen_grow. Qed.

(** Two bytes read into the room of an empty string. *)
Lemma sdsIncrLen_appends_witness : let s := mk_sds 0 4 1 [0; 0; 0; 0; 0] in
  exists s', sdsIncrLen (set_buf s [104; 105; 0; 0; 0]) 2 = Ok s' /\ sds_is [104; 105] s'.
Proof.
  intros s. apply (sdsIncrLen_appends s [] [104; 105]).
  - split; [|reflexivity]. split; vm_compute; intuition discriminate.
  - done.
  - vm_compute. discriminate.
  - simpl. lia.
  - reflexivity.
Defined.

(** [sdscmp] orders strings lexicographically by unsigned bytes, a prefix
    before its extensions; it returns 0 for equal strings only. *)
Theorem sdscmp_lexicographic s1 s2 c1 c2 :
  sds_is c1 s1 -> sds_is c2 s2 -> zlen c1 < 2 ^ 31 -> zlen c2 < 2 ^ 31 ->
  exists r, sdscmp s1 s2 = Ok r /\ (r ?= 0) = lex_compare c1 c2 /\ (r = 0 <-> c1 = c2).
Proof.
  intros H1 H2 L1 L2. destruct (sdscmp_spec s1 s2 c1 c2 H1 H2 L1 L2) as (r & Hr & Hc).
  exists r. split; [done|]. split; [done|]. rewrite <- Z.compare_eq_iff, Hc.
  clear. revert c2. induction c1 as [|x c1 IH]; intros [|y c2]; cbn; try done.
  destruct (x ?= y) eqn:E.
  - apply Z.compare_eq in E as ->. rewrite IH. split; congruence.
  - split; [done|]. intros [= -> _]. by rewrite Z.compare_refl in E.
  - split; [done|]. intros [= -> _]. by rewrite Z.compare_refl in E.
Qed.

Lemma sdscmp_lexicographic_witness :
  let s1 := mk_sds 2 2 1 [97; 98; 0] in let s2 := mk_sds 1 1 1 [97; 0] in
  exists r, sdscmp s1 s2 = Ok r /\ (r ?= 0) = lex_compare [97; 98] [97] /\ (r = 0 <-> [97; 98] = [97]).
Proof.
  intros s1 s2. apply (sdscmp_lexicographic s1 s2 [97; 98] [97]).
  - split; [|reflexivity]. split; vm_compute; intuition discriminate.
  - split; [|reflexivity]. split; vm_compute; intuition discriminate.
  - simpl. lia.
  - simpl. lia.
Defined.

(** * What the text operations of sds.c promise *)
(** ** Formats *)

(** [sdscatfmt] appends the text of the format, with each conversion
    replaced by its argument, and reads nothing outside the format, the
    arguments and the string. *)
Theorem sdscatfmt_appends {M : Malloc} s c f r ap t : sds_is c s -> no_nul f ->
  Forall arg_ok ap -> fmt_text f ap = Some t -> zlen c + zlen t < 2 ^ 31 ->
  returns_total (sdscatfmt s (f ++ 0 :: r) ap) (sds_is (c ++ t)).
Proof. apply sdscatfmt_spec. Qed.

Lemma sdscatfmt_appends_witness : let s := mk_sds 1 4 1 [42; 0; 0; 0; 0] in
  returns_total (M := malloc_yes)
    (sdscatfmt (M := malloc_yes) s (lit "%s=%i%%" ++ [0]) [AStr (cstr "n"); AInt (-7)])
    (sds_is (lit "*" ++ lit "n=-7%")).
Proof.
  intros s. apply (sdscatfmt_appends (M := malloc_yes)).
  - split; [|reflexivity]. split; vm_compute; intuition discriminate.
  - repeat constructor; done.
  - constructor; [vm_compute; set_solver|]. constructor; [simpl; lia|constructor].
  - reflexivity.
  - vm_compute. reflexivity.
Defined.

(** A format that ends in a lone [%]: the terminator is taken for a
    conversion, and the next round reads beyond the format. *)
Example catfmt_lone_percent :
  sdscatfmt (M := malloc_yes) (mk_sds 0 4 1 [0; 0; 0; 0; 0]) (lit "%" ++ [0]) [] =
  Fault OutOfBounds.
Proof. vm_compute. reflexivity. Qed.

(** [sdscatvprintf] appends the whole text that [vsnprintf] would write,
    whatever its length: the buffer doubles until the text fits. *)
Theorem sdscatvprintf_appends {M : Malloc} s c f r out :
  sds_is c s -> no_nul f -> zlen f < 2 ^ 31 -> no_nul out -> zlen out < 2 ^ 60 ->
  zlen c + zlen out < 2 ^ 62 ->
  returns (sdscatvprintf s (f ++ 0 :: r) out) (sds_is (c ++ out)).
Proof. apply sdscatvprintf_spec. Qed.

(** A text longer than the static buffer. *)
Lemma sdscatvprintf_appends_witness :
  returns (M := malloc_yes)
    (sdscatvprintf (M := malloc_yes) (mk_sds 0 0 1 [0]) (lit "%s" ++ [0]) (replicate 2000 97))
    (sds_is ([] ++ replicate 2000 97)).
Proof.
  apply (sdscatvprintf_appends (M := malloc_yes)).
  - split; [|reflexivity]. split; vm_compute; intuition discriminate.
  - repeat constructor; done.
  - vm_compute. reflexivity.
  - by apply Forall_replicate.
  - rewrite length_replicate. lia.
  - rewrite length_replicate. simpl. lia.
Defined.

(** [sdsfromlonglong] gives the decimal text of every [long long], the
    least one included. *)
Theorem sdsfromlonglong_decimal {M : Malloc} value : - 2 ^ 63 <= value < 2 ^ 63 ->
  returns (sdsfromlonglong value) (sds_is (sdec value)).
Proof. apply sdsfromlonglong_spec. Qed.

Lemma sdsfromlonglong_decimal_witness :
  returns (M := malloc_yes) (sdsfromlonglong (M := malloc_yes) (- 2 ^ 63))
    (sds_is (sdec (- 2 ^ 63))).
Proof. apply (sdsfromlonglong_decimal (M := malloc_yes)). lia. Defined.

(** ** Splitting and joining *)

(** [sdssplitlen] cuts a string at the occurrences of the separator, from
    left to right, and [sdsjoinsds] of the pieces gives the string back. *)
Theorem split_join_roundtrip {M : Malloc} s post sep m :
  sep <> [] -> zlen sep < 2 ^ 31 -> zlen s < 2 ^ 29 ->
  returns (sdssplitlen (s ++ post) (zlen s) sep (zlen sep)) (fun l =>
    tokens_are (split_text sep s) l /\
    returns_any (sdsjoinsds l (sep ++ m) (zlen sep)) (sds_is s)).
Proof.
  intros Hsep Hsep31 Hs. eapply returns_mono; [by apply sdssplitlen_spec|].
  intros l Hl. split; [done|].
  assert (join_text sep (split_text sep s) = s) as Hj.
  { destruct s as [|a s]; [done|]. by apply (join_tokens sep Hsep (length (a :: s))). }
  rewrite <- Hj. apply sdsjoinsds_spec; [done|]. rewrite Hj. lia.
Qed.

Lemma split_join_roundtrip_witness :
  returns (M := malloc_yes) (sdssplitlen (M := malloc_yes) (lit "a--b-" ++ [0]) 5 (lit "--") 2)
    (fun l => tokens_are [lit "a"; lit "b-"] l /\
       returns_any (M := malloc_yes) (sdsjoinsds (M := malloc_yes) l (lit "--" ++ [0]) 2)
         (sds_is (lit "a--b-"))).
Proof.
  apply (split_join_roundtrip (M := malloc_yes) (lit "a--b-") [0] (lit "--") [0]);
    [discriminate|vm_compute; reflexivity|vm_compute; reflexivity].
Defined.

(** ** Quoting *)

(** C35: [sdssplitargs] reads back the arguments that [sdscatrepr] has quoted
    and [sdsjoinsds] has put on one line, whatever bytes they hold. *)
Theorem splitargs_repr {M : Malloc} ds qs line m :
  Forall (fun d => Forall is_byte d /\ zlen d < 2 ^ 56) ds ->
  Forall2 (fun d q => exists e m, sds_is [] e /\
    sdscatrepr e (d ++ m) (zlen d) = Ok (Some q)) ds qs ->
  zlen (join_text [32] (repr_text <$> ds)) < 2 ^ 60 ->
  sdsjoinsds qs (32 :: m) 1 = Ok (Some line) ->
  returns_any (sdssplitargs (sds_buf line)) (tokens_are ds).
Proof.
  intros Hds Hqs Hlen Hline.
  assert (tokens_are (repr_text <$> ds) qs) as Hts.
  { clear Hline Hlen. induction Hqs as [|d q ds qs (e & r & He & Hq) Hqs IH]; [constructor|].
    apply Forall_cons in Hds as [[Hd Hl] Hds]. constructor; [|by apply IH].
    pose proof (sdscatrepr_spec e [] d r He Hd ltac:(simpl; lia)) as H. by rewrite Hq in H. }
  pose proof (sdsjoinsds_spec _ _ [32] m Hts ltac:(simpl; lia)) as Hj.
  cbn [app length] in Hj. change (Z.of_nat 1) with 1 in Hj. rewrite Hline in Hj.
  destruct (sds_is_buf _ _ Hj) as (rest & -> & _). unfold sdssplitargs.
  apply (splitargs_quoted rest ds _ [] [] [] []); [constructor..| |].
  - eapply Forall_impl; [exact Hds|]. intros d [? ?]. split; [done|lia].
  - rewrite length_app. cbn [length].
    enough (length ds <= length (join_text [32%Z] (repr_text <$> ds)))%nat by lia.
    clear. induction ds as [|d ds IH]; [done|].
    destruct ds as [|d2 ds]; [simpl; lia|]. cbn [fmap list_fmap] in *.
    rewrite join_text_cons by done. rewrite !length_app. cbn [length] in *. lia.
Qed.

(** An argument with a quote and two bytes that are not printable. *)
Lemma splitargs_repr_witness : exists qs line,
  sdsjoinsds (M := malloc_yes) qs (lit " " ++ [0]) 1 = Ok (Some line) /\
  returns_any (M := malloc_yes) (sdssplitargs (M := malloc_yes) (sds_buf line))
    (tokens_are [[97; 34; 98]; [200; 10]]).
Proof.
  set (e := mk_sds 0 0 1 [0]).
  assert (sds_is [] e) as He
    by (split; [|reflexivity]; split; vm_compute; intuition discriminate).
  assert (forall d, zlen d < 2 ^ 56 -> Forall is_byte d -> exists q,
    sdscatrepr (M := malloc_yes) e (d ++ []) (zlen d) = Ok (Some q) /\
    sds_is (repr_text d) q) as Hq.
  { intros d Hl Hd. apply (returns_any_ok (M := malloc_yes) _ _ (fun _ => eq_refl)).
    apply (sdscatrepr_spec (M := malloc_yes) e [] d []); [done|done|simpl; lia]. }
  destruct (Hq [97; 34; 98]) as (q1 & E1 & H1); [done|by repeat constructor|].
  destruct (Hq [200; 10]) as (q2 & E2 & H2); [done|by repeat constructor|].
  destruct (returns_any_ok (M := malloc_yes) _ _ (fun _ => eq_refl)
    (sdsjoinsds_spec (M := malloc_yes) [repr_text [97; 34; 98]; repr_text [200; 10]] [q1; q2]
       [32] [0] ltac:(by repeat apply Forall2_cons_2) ltac:(vm_compute; reflexivity)))
    as (line & El & _).
  exists [q1; q2], line. split; [exact El|].
  apply (splitargs_repr (M := malloc_yes) [[97; 34; 98]; [200; 10]] [q1; q2] line [0]).
  - by repeat constructor.
  - apply Forall2_cons_2; [exists e, []; split; [exact He|exact E1]|].
    apply Forall2_cons_2; [exists e, []; split; [exact He|exact E2]|constructor].
  - vm_compute. reflexivity.
  - exact El.
Defined.

(** [sdssplitargs] returns on every line: it reads nothing outside the
    line, its loops end, and the result is an array of well-formed strings or
    [NULL]. The one fault left is the unchecked result of an allocation. *)
Theorem splitargs_safe {M : Malloc} text r : no_nul text -> zlen text < 2 ^ 60 ->
  returns_total (sdssplitargs (text ++ 0 :: r)) (fun o =>
    match o with
    | None => True
    | Some l => Forall (fun s => exists c, sds_is c s) l
    end).
Proof.
  intros Ht Hl. apply (splitargs_loop_safe text r Ht Hl); [lia| |constructor].
  rewrite length_app. simpl. lia.
Qed.

(** Quotes that are not closed. *)
Lemma splitargs_safe_witness :
  returns_total (M := malloc_yes) (sdssplitargs (M := malloc_yes) (lit "set 'a \x4" ++ [0]))
    (fun o => match o with
              | None => True
              | Some l => Forall (fun s => exists c, sds_is c s) l
              end).
Proof.
  apply (splitargs_safe (M := malloc_yes)); [by repeat constructor|vm_compute; reflexivity].
Defined.

(** ** The tests of sds.c

    [sdsTest] as it is in the source, with the outcome of each [test_cond]. *)
Section test.
Context {M : Malloc}.


(** [memcmp(x, t, n) == 0]. *)
Definition same_bytes (x : sds) (t : bytes) (n : nat) : bool := memcmp (take n (sds_buf x)) (take n t) =? 0.

Definition is_text (x : sds) (t : bytes) : bool :=
  (sdslen x =? zlen t) && same_bytes x (t ++ [0]) (S (length t)).

Definition test_range (x : sds) (start stop : Z) (t : bytes) : result bool :=
  y ← unchecked (sdsdup x); y ← sdsrange y start stop; Ok (is_text y t).

Definition test_cmp (a b : bytes) : result Z :=
  x ← unchecked (sdsnew (Some (a ++ [0]))); y ← unchecked (sdsnew (Some (b ++ [0]))); sdscmp x y.

(** Ten times ten bytes more. *)
Fixpoint test_room (n : nat) (x : sds) : result (sds * list bool) :=
  match n with
  | O => Ok (x, [])
  | S n =>
      let oldlen := sdslen x in
      x ← unchecked (sdsMakeRoomFor x 10);
      let room := (sdslen x =? oldlen) && ((sds_type x =? SDS_TYPE_5) || (10 <=? sdsavail x)) in
      m ← blit (sds_buf x) oldlen (lit "ABCDEFGHIJ");
      x ← sdsIncrLen (set_buf x m) 10;
      '(x, l) ← test_room n x;
      Ok (x, room :: l)
  end.

Definition sdsTest : result (list bool) :=
  x ← unchecked (sdsnew (Some (cstr "foo")));
  let t1 := is_text x (lit "foo") in
  x ← unchecked (sdsnewlen (Some (cstr "foo")) 2);
  let t2 := is_text x (lit "fo") in
  x ← unchecked (sdscat x (cstr "bar"));
  let t3 := is_text x (lit "fobar") in
  x ← unchecked (sdscpy x (cstr "a"));
  let t4 := is_text x (lit "a") in
  x ← unchecked (sdscpy x (cstr "xyzxxxxxxxxxxyyyyyyyyyykkkkkkkkkk"));
  let t5 := (sdslen x =? 33) && is_text x (lit "xyzxxxxxxxxxxyyyyyyyyyykkkkkkkkkk") in
  x ← unchecked sdsempty; x ← unchecked (sdscatprintf x (cstr "%d") (lit "123"));
  let t6 := is_text x (lit "123") in
  x ← unchecked (sdsnew (Some (cstr "--")));
  x ← sdscatfmt x (cstr "Hello %s World %I,%I--") [AStr (cstr "Hi!"); ALongLong (- 2 ^ 63); ALongLong LONG_MAX];
  let t7 := (sdslen x =? 60) && is_text x (lit "--Hello Hi! World -9223372036854775808,9223372036854775807--") in
  x ← unchecked (sdsnew (Some (cstr "--")));
  x ← sdscatfmt x (cstr "%u,%U--") [AUnsigned (2 ^ 32 - 1); AULongLong (2 ^ 64 - 1)];
  let t8 := (sdslen x =? 35) && is_text x (lit "--4294967295,18446744073709551615--") in
  x ← unchecked (sdsnew (Some (cstr " x "))); x ← sdstrim x (cstr " x");
  let t9 := sdslen x =? 0 in
  x ← unchecked (sdsnew (Some (cstr " x "))); x ← sdstrim x (cstr " ");
  let t10 := (sdslen x =? 1) && same_bytes x (lit "x") 1 in
  x ← unchecked (sdsnew (Some (cstr "xxciaoyyy"))); x ← sdstrim x (cstr "xy");
  let t11 := is_text x (lit "ciao") in
  t12 ← test_range x 1 1 (lit "i"); t13 ← test_range x 1 (-1) (lit "iao");
  t14 ← test_range x (-2) (-1) (lit "ao"); t15 ← test_range x 2 1 [];
  t16 ← test_range x 1 100 (lit "iao"); t17 ← test_range x 100 100 [];
  c1 ← test_cmp (lit "foo") (lit "foa"); c2 ← test_cmp (lit "bar") (lit "bar");
  c3 ← test_cmp (lit "aar") (lit "bar");
  x ← unchecked (sdsnewlen (Some [7; 10; 0; 102; 111; 111; 13; 0]) 7);
  y ← unchecked sdsempty; y ← unchecked (sdscatrepr y (sds_buf x) (sdslen x));
  let t21 := same_bytes y ([34] ++ lit "\a\n\x00foo\r" ++ [34]) 15 in
  x ← unchecked (sdsnew (Some (cstr "0")));
  let t22 := (sdslen x =? 1) && (sdsavail x =? 0) in
  '(x, room) ← test_room 10 x;
  let t23 := same_bytes x (48 :: concat (replicate 10 (lit "ABCDEFGHIJ"))) 101 in
  let t24 := sdslen x =? 101 in
  Ok ([t1; t2; t3; t4; t5; t6; t7; t8; t9; t10; t11; t12; t13; t14; t15; t16; t17; 0 <? c1; c2 =? 0; c3 <? 0;
    t21; t22] ++ room ++ [t23; t24]).
End test.

(** Every test of sds.c succeeds. *)
Example sdsTest_succeeds : sdsTest (M := malloc_yes) = Ok (replicate 34 true).
Proof. vm_compute. reflexivity. Qed.
