(* ===== verification/Reply.v ===== *)
(** * Reply: reply objects and the functions that build them (hiredis.c, read.h)

    A pointer to a [redisReply] is a number, 0 being [NULL]; the objects live in a store
    [heap]. The reader builds replies through a table of functions
    ([redisReplyObjectFunctions]); the default table of hiredis.c links every
    object into the array of its parent task while the reply is read. *)
From S2P Require Import Prelude Mem.
From stdpp Require Import list list_numbers strings sets gmap.
From Stdlib Require Import ZArith Lia.
Open Scope Z_scope.

(** ** Constants of read.h *)
Definition REDIS_ERR : Z := -1.
Definition REDIS_OK : Z := 0.
Definition REDIS_ERR_IO : Z := 1.
Definition REDIS_ERR_OTHER : Z := 2.
Definition REDIS_ERR_EOF : Z := 3.
Definition REDIS_ERR_PROTOCOL : Z := 4.
Definition REDIS_ERR_OOM : Z := 5.
Definition REDIS_REPLY_STRING : Z := 1.
Definition REDIS_REPLY_ARRAY : Z := 2.
Definition REDIS_REPLY_INTEGER : Z := 3.
Definition REDIS_REPLY_NIL : Z := 4.
Definition REDIS_REPLY_STATUS : Z := 5.
Definition REDIS_REPLY_ERROR : Z := 6.
Definition REDIS_READER_MAX_BUF : Z := 1024 * 16.
Definition NULL : Z := 0.

(** [redisReadTask]; [t_parent] is the slot of the parent in the task stack. *)
Record redisReadTask : Type := mk_task {
  t_type : Z;
  t_elements : Z;
  t_idx : Z;
  t_obj : Z;
  t_parent : option nat;
  t_privdata : Z
}.

(** [redisReplyObjectFunctions]: each entry may be [NULL]. A function gets the
    task and the task its [parent] pointer leads to. *)
Record redisReplyObjectFunctions (H : Type) : Type := mk_fns {
  createString : option (redisReadTask -> option redisReadTask -> bytes -> H -> result (Z * H));
  createArray : option (redisReadTask -> option redisReadTask -> Z -> H -> result (Z * H));
  createInteger : option (redisReadTask -> option redisReadTask -> Z -> H -> result (Z * H));
  createNil : option (redisReadTask -> option redisReadTask -> H -> result (Z * H));
  freeObject : option (Z -> H -> result H)
}.
Arguments mk_fns {H}.
Arguments createString {H}.
Arguments createArray {H}.
Arguments createInteger {H}.
Arguments createNil {H}.
Arguments freeObject {H}.

(** ** Reply objects (hiredis.h) *)
Record redisReply : Type := mk_reply {
  r_type : Z;
  r_integer : Z;
  r_len : Z;
  r_str : option bytes;
  r_elements : Z;
  r_element : option (list Z)
}.

(** The store: the live objects, the next address and the number of
    allocations made so far. *)
Record heap : Type := mk_heap {
  cells : gmap Z redisReply;
  next : Z;
  allocs : nat
}.

(** Whether the [n]-th allocation of the program, of the given size, succeeds. *)
Class HeapMalloc := { heap_ok : nat -> Z -> bool }.

(** The size of a [redisReply] and of a pointer. *)
Definition sizeof_redisReply : Z := 48.
Definition sizeof_ptr : Z := 8.

Definition set_cell (h : heap) (p : Z) (o : redisReply) : heap :=
  mk_heap (<[p := o]> (cells h)) (next h) (allocs h).
Definition free_cell (h : heap) (p : Z) : heap :=
  mk_heap (delete p (cells h)) (next h) (allocs h).

(** Reading the object behind a pointer. *)
Definition get_cell (h : heap) (p : Z) : result redisReply :=
  match cells h !! p with
  | Some o => Ok o
  | None => if p =? NULL then Fault NullDeref else Fault OutOfBounds
  end.

Section functions.
Context {HM : HeapMalloc}.

(** [malloc]/[calloc] of a block that belongs to an object. *)
Definition heap_malloc (h : heap) (size : Z) : bool * heap :=
  (heap_ok (allocs h) size, mk_heap (cells h) (next h) (S (allocs h))).

Definition createReplyObject (type : Z) (h : heap) : Z * heap :=
  let '(ok, h) := heap_malloc h sizeof_redisReply in
  if negb ok then (NULL, h) else
  (next h, mk_heap (<[next h := mk_reply type 0 0 None 0 None]> (cells h))
             (next h + 1) (allocs h)).

(** The loop over the elements of an array in [freeReplyObject]. *)
Fixpoint free_elements (free : Z -> heap -> result heap) (n : nat) (j : Z)
    (element : list Z) (h : heap) : result heap :=
  match n with
  | O => Ok h
  | S n' =>
      e ← load element j;
      h ← (if negb (e =? NULL) then free e h else Ok h);
      free_elements free n' (j + 1) element h
  end.

Fixpoint freeReplyObject_fuel (fuel : nat) (reply : Z) (h : heap) : result heap :=
  match fuel with
  | O => Fault OutOfFuel
  | S f =>
      if reply =? NULL then Ok h else
      r ← get_cell h reply;
      h ← (if r_type r =? REDIS_REPLY_ARRAY then
             match r_element r with
             | Some element =>
                 free_elements (freeReplyObject_fuel f) (Z.to_nat (r_elements r)) 0 element h
             | None => Ok h
             end
           else Ok h);
      _ ← get_cell h reply;
      Ok (free_cell h reply)
  end.

(** The recursion is as deep as the reply is nested, at most the number of
    live objects. *)
Definition freeReplyObject (reply : Z) (h : heap) : result heap :=
  freeReplyObject_fuel (S (size (cells h))) reply h.

(** [parent->element[task->idx] = r]. *)
Definition attach (task : redisReadTask) (parent : option redisReadTask) (r : Z)
    (h : heap) : result heap :=
  match parent with
  | None => Ok h
  | Some pt =>
      p ← get_cell h (t_obj pt);
      _ ← c_assert (r_type p =? REDIS_REPLY_ARRAY);
      element ← deref (r_element p);
      element ← store element (t_idx task) r;
      Ok (set_cell h (t_obj pt)
            (mk_reply (r_type p) (r_integer p) (r_len p) (r_str p) (r_elements p)
               (Some element)))
  end.

Definition createStringObject (task : redisReadTask) (parent : option redisReadTask)
    (str : bytes) (h : heap) : result (Z * heap) :=
  let len := zlen str in
  let '(r, h) := createReplyObject (t_type task) h in
  if r =? NULL then Ok (NULL, h) else
  let '(ok, h) := heap_malloc h (u64 (len + 1)) in
  if negb ok then
    h ← freeReplyObject r h; Ok (NULL, h)
  else
  _ ← c_assert ((t_type task =? REDIS_REPLY_ERROR) || (t_type task =? REDIS_REPLY_STATUS)
                || (t_type task =? REDIS_REPLY_STRING));
  let h := set_cell h r (mk_reply (t_type task) 0 len (Some (str ++ [0])) 0 None) in
  h ← attach task parent r h;
  Ok (r, h).

(** [elements] is an [int]; [r->elements] is a [size_t]. *)
Definition createArrayObject (task : redisReadTask) (parent : option redisReadTask)
    (elements : Z) (h : heap) : result (Z * heap) :=
  let '(r, h) := createReplyObject REDIS_REPLY_ARRAY h in
  if r =? NULL then Ok (NULL, h) else
  let '(ok, element, h) :=
    if 0 <? elements then
      let '(ok, h) := heap_malloc h (elements * sizeof_ptr) in
      (ok, Some (replicate (Z.to_nat elements) NULL), h)
    else (true, None, h) in
  if negb ok then
    h ← freeReplyObject r h; Ok (NULL, h)
  else
  let h := set_cell h r (mk_reply REDIS_REPLY_ARRAY 0 0 None (u64 elements) element) in
  h ← attach task parent r h;
  Ok (r, h).

Definition createIntegerObject (task : redisReadTask) (parent : option redisReadTask)
    (value : Z) (h : heap) : result (Z * heap) :=
  let '(r, h) := createReplyObject REDIS_REPLY_INTEGER h in
  if r =? NULL then Ok (NULL, h) else
  let h := set_cell h r (mk_reply REDIS_REPLY_INTEGER value 0 None 0 None) in
  h ← attach task parent r h;
  Ok (r, h).

Definition createNilObject (task : redisReadTask) (parent : option redisReadTask)
    (h : heap) : result (Z * heap) :=
  let '(r, h) := createReplyObject REDIS_REPLY_NIL h in
  if r =? NULL then Ok (NULL, h) else
  h ← attach task parent r h;
  Ok (r, h).

Definition defaultFunctions : redisReplyObjectFunctions heap :=
  mk_fns (Some createStringObject) (Some createArrayObject)
    (Some createIntegerObject) (Some createNilObject) (Some freeReplyObject).

End functions.
