(* ===== verification/Reader.v ===== *)
(** * Reader: the incremental protocol parser of read.c

    The reader keeps the bytes it was fed ([rr_buf]), a cursor ([rr_pos]) and
    a stack of read tasks, one per level of nested arrays. Objects are built
    through the function table [rr_fn], whose store [H] is a parameter. *)
From S2P Require Import Prelude Mem Sds Reply.
From stdpp Require Import list list_numbers strings sets gmap.
From Stdlib Require Import ZArith Lia.
Open Scope Z_scope.

Record redisReader (H : Type) : Type := mk_reader {
  rr_err : Z;
  rr_errstr : bytes;
  rr_buf : option sds;
  rr_pos : Z;
  rr_len : Z;
  rr_maxbuf : Z;
  rr_rstack : list redisReadTask;
  rr_ridx : Z;
  rr_reply : Z;
  rr_fn : option (redisReplyObjectFunctions H);
  rr_privdata : Z
}.
Arguments mk_reader {H}.
Arguments rr_err {H}.
Arguments rr_errstr {H}.
Arguments rr_buf {H}.
Arguments rr_pos {H}.
Arguments rr_len {H}.
Arguments rr_maxbuf {H}.
Arguments rr_rstack {H}.
Arguments rr_ridx {H}.
Arguments rr_reply {H}.
Arguments rr_fn {H}.
Arguments rr_privdata {H}.

Section reader.
Context {M : Malloc} {H : Type}.
#[local] Abbreviation redisReader := (redisReader H).
Implicit Types (r : redisReader) (h : H).

(** ** Field updates *)
Definition set_pos r (p : Z) : redisReader :=
  mk_reader (rr_err r) (rr_errstr r) (rr_buf r) p (rr_len r) (rr_maxbuf r)
    (rr_rstack r) (rr_ridx r) (rr_reply r) (rr_fn r) (rr_privdata r).
Definition set_input r (b : option sds) (pos len : Z) : redisReader :=
  mk_reader (rr_err r) (rr_errstr r) b pos len (rr_maxbuf r)
    (rr_rstack r) (rr_ridx r) (rr_reply r) (rr_fn r) (rr_privdata r).
Definition set_ridx r (i : Z) : redisReader :=
  mk_reader (rr_err r) (rr_errstr r) (rr_buf r) (rr_pos r) (rr_len r) (rr_maxbuf r)
    (rr_rstack r) i (rr_reply r) (rr_fn r) (rr_privdata r).
Definition set_reply r (p : Z) : redisReader :=
  mk_reader (rr_err r) (rr_errstr r) (rr_buf r) (rr_pos r) (rr_len r) (rr_maxbuf r)
    (rr_rstack r) (rr_ridx r) p (rr_fn r) (rr_privdata r).
Definition set_error r (err : Z) (errstr : bytes) : redisReader :=
  mk_reader err errstr (rr_buf r) (rr_pos r) (rr_len r) (rr_maxbuf r)
    (rr_rstack r) (rr_ridx r) (rr_reply r) (rr_fn r) (rr_privdata r).

(** [&(r->rstack[i])], for reading and for writing. *)
Definition get_task r (i : Z) : result redisReadTask :=
  if i <? 0 then Fault OutOfBounds else
  match rr_rstack r !! Z.to_nat i with
  | Some t => Ok t
  | None => Fault OutOfBounds
  end.
Definition put_task r (i : Z) (t : redisReadTask) : result redisReader :=
  if (0 <=? i) && (i <? zlen (rr_rstack r)) then
    Ok (mk_reader (rr_err r) (rr_errstr r) (rr_buf r) (rr_pos r) (rr_len r)
          (rr_maxbuf r) (<[Z.to_nat i := t]> (rr_rstack r)) (rr_ridx r) (rr_reply r)
          (rr_fn r) (rr_privdata r))
  else Fault OutOfBounds.

(** The task that [task->parent] points to. *)
Definition get_parent r (t : redisReadTask) : result (option redisReadTask) :=
  match t_parent t with
  | None => Ok None
  | Some i => p ← get_task r (Z.of_nat i); Ok (Some p)
  end.

(** The memory [r->buf] points into. *)
Definition input r : bytes :=
  match rr_buf r with
  | Some b => sds_buf b
  | None => []
  end.

(** A function of the table, [None] when [r->fn] or the entry is [NULL]. *)
Definition fn_entry {A} r (f : redisReplyObjectFunctions H -> option A) : option A :=
  match rr_fn r with
  | Some fn => f fn
  | None => None
  end.

(** ** Errors *)
Definition __redisReaderSetError r h (type : Z) (str : bytes) : result (redisReader * H) :=
  '(r, h) ← (if negb (rr_reply r =? NULL) then
               match fn_entry r freeObject with
               | Some free => h ← free (rr_reply r) h; Ok (set_reply r NULL, h)
               | None => Ok (r, h)
               end
             else Ok (r, h));
  let r := match rr_buf r with
           | Some _ => set_input r None 0 0
           | None => r
           end in
  let r := set_ridx r (-1) in
  Ok (set_error r type (take 127 str), h).

(** [snprintf(buf, size, ...)] of the quoted byte; the text is cut to [size]. *)
Definition hex_digit (n : Z) : Z := if n <? 10 then 48 + n else 87 + n.
Definition chrtos (size byte : Z) : bytes :=
  take (Z.to_nat (size - 1))
    (if (byte =? 92) || (byte =? 34) then [34; 92; byte; 34]
     else if byte =? 10 then [34; 92; 110; 34]
     else if byte =? 13 then [34; 92; 114; 34]
     else if byte =? 9 then [34; 92; 116; 34]
     else if byte =? 7 then [34; 92; 97; 34]
     else if byte =? 8 then [34; 92; 98; 34]
     else if isprint byte then [34; byte; 34]
     else [34; 92; 120; hex_digit (byte / 16); hex_digit (byte mod 16); 34]).

Definition __redisReaderSetErrorProtocolByte r h (byte : Z) : result (redisReader * H) :=
  let cbuf := chrtos 8 byte in
  let sbuf := take 127 (lit "Protocol error, got " ++ cbuf ++ lit " as reply type byte") in
  __redisReaderSetError r h REDIS_ERR_PROTOCOL sbuf.

Definition __redisReaderSetErrorOOM r h : result (redisReader * H) :=
  __redisReaderSetError r h REDIS_ERR_OOM (lit "Out of memory").

(** ** Input *)

(** A pointer into the buffer is its offset; [None] is [NULL]. *)
Definition readBytes r (n : Z) : option Z * redisReader :=
  if n <=? u64 (rr_len r - rr_pos r) then
    (Some (rr_pos r), set_pos r (u64 (rr_pos r + n)))
  else (None, r).

(** [while(pos < _len && s[pos] != '\r') pos++], [s] being [m+base]. *)
Fixpoint seek_cr (fuel : nat) (m : bytes) (base _len pos : Z) : result Z :=
  match fuel with
  | O => Fault OutOfFuel
  | S f =>
      if pos <? _len then
        c ← load m (base + pos);
        if c =? CR then Ok pos else seek_cr f m base _len (pos + 1)
      else Ok pos
  end.

Fixpoint seek_loop (fuel : nat) (m : bytes) (base _len pos : Z) : result (option Z) :=
  match fuel with
  | O => Fault OutOfFuel
  | S f =>
      if pos <? _len then
        pos ← seek_cr fuel m base _len pos;
        if pos =? _len then Ok None
        else
          c ← load m (base + (pos + 1));
          if c =? LF then Ok (Some (base + pos))
          else seek_loop f m base _len (pos + 1)
      else Ok None
  end.

Definition seekNewline (m : bytes) (base len : Z) : result (option Z) :=
  let _len := s32 (len - 1) in
  seek_loop (S (Z.to_nat _len)) m base _len 0.

(** The digit loop of [readLongLong], then [mult*v]. *)
Fixpoint read_digits (fuel : nat) (m : bytes) (s mult v : Z) : result Z :=
  match fuel with
  | O => Fault OutOfFuel
  | S f =>
      c ← load m s;
      if c =? CR then Ok (s64 (mult * v)) else
      let dec := c - 48 in
      if (0 <=? dec) && (dec <? 10) then
        read_digits f m (s + 1) mult (s64 (s64 (v * 10) + dec))
      else Ok (-1)
  end.

Definition readLongLong (m : bytes) (s : Z) : result Z :=
  c ← load m s;
  let '(mult, s) :=
    if c =? 45 then (-1, s + 1) else
    if c =? 43 then (1, s + 1) else (1, s) in
  read_digits (S (length m)) m s mult 0.

(** The line at the cursor and its length; the cursor moves behind it. *)
Definition readLine r : result (option (Z * Z) * redisReader) :=
  let p := rr_pos r in
  s ← seekNewline (input r) p (u64 (rr_len r - rr_pos r));
  match s with
  | Some s =>
      let len := s32 (s - rr_pos r) in
      Ok (Some (p, len), set_pos r (u64 (rr_pos r + s32 (len + 2))))
  | None => Ok (None, r)
  end.

(** ** The task stack *)
Fixpoint moveToNextTask_fuel (fuel : nat) r : result redisReader :=
  match fuel with
  | O => Fault OutOfFuel
  | S f =>
      if 0 <=? rr_ridx r then
        if rr_ridx r =? 0 then Ok (set_ridx r (rr_ridx r - 1)) else
        cur ← get_task r (rr_ridx r);
        prv ← get_task r (rr_ridx r - 1);
        _ ← c_assert (t_type prv =? REDIS_REPLY_ARRAY);
        if t_idx cur =? s32 (t_elements prv - 1) then
          moveToNextTask_fuel f (set_ridx r (rr_ridx r - 1))
        else
          _ ← c_assert (t_idx cur <? t_elements prv);
          put_task r (rr_ridx r)
            (mk_task (-1) (-1) (s32 (t_idx cur + 1)) (t_obj cur) (t_parent cur)
               (t_privdata cur))
      else Ok r
  end.

Definition moveToNextTask r : result redisReader :=
  moveToNextTask_fuel (S (S (Z.to_nat (rr_ridx r)))) r.

(** ** Items *)
Definition processLineItem r h : result (Z * redisReader * H) :=
  cur ← get_task r (rr_ridx r);
  '(line, r) ← readLine r;
  match line with
  | Some (p, len) =>
      parent ← get_parent r cur;
      '(obj, h) ←
        (if t_type cur =? REDIS_REPLY_INTEGER then
           match fn_entry r createInteger with
           | Some create => v ← readLongLong (input r) p; create cur parent v h
           | None => Ok (REDIS_REPLY_INTEGER, h)
           end
         else
           match fn_entry r createString with
           | Some create => str ← slice (input r) p len; create cur parent str h
           | None => Ok (t_type cur, h)
           end);
      if obj =? NULL then
        '(r, h) ← __redisReaderSetErrorOOM r h; Ok (REDIS_ERR, r, h)
      else
        let r := if rr_ridx r =? 0 then set_reply r obj else r in
        r ← moveToNextTask r;
        Ok (REDIS_OK, r, h)
  | None => Ok (REDIS_ERR, r, h)
  end.

Definition processBulkItem r h : result (Z * redisReader * H) :=
  cur ← get_task r (rr_ridx r);
  s ← seekNewline (input r) (rr_pos r) (u64 (rr_len r - rr_pos r));
  match s with
  | Some s =>
      parent ← get_parent r cur;
      let bytelen := u64 (s - rr_pos r + 2) in
      len ← readLongLong (input r) (rr_pos r);
      '(success, obj, bytelen, h) ←
        (if len <? 0 then
           '(obj, h) ← match fn_entry r createNil with
                       | Some create => create cur parent h
                       | None => Ok (REDIS_REPLY_NIL, h)
                       end;
           Ok (true, obj, bytelen, h)
         else
           let bytelen := u64 (bytelen + s64 (len + 2)) in
           if u64 (rr_pos r + bytelen) <=? rr_len r then
             '(obj, h) ← match fn_entry r createString with
                         | Some create =>
                             str ← slice (input r) (s + 2) len; create cur parent str h
                         | None => Ok (REDIS_REPLY_STRING, h)
                         end;
             Ok (true, obj, bytelen, h)
           else Ok (false, NULL, bytelen, h));
      if (success : bool) then
        if obj =? NULL then
          '(r, h) ← __redisReaderSetErrorOOM r h; Ok (REDIS_ERR, r, h)
        else
          let r := set_pos r (u64 (rr_pos r + bytelen)) in
          let r := if rr_ridx r =? 0 then set_reply r obj else r in
          r ← moveToNextTask r;
          Ok (REDIS_OK, r, h)
      else Ok (REDIS_ERR, r, h)
  | None => Ok (REDIS_ERR, r, h)
  end.

Definition processMultiBulkItem r h : result (Z * redisReader * H) :=
  cur ← get_task r (rr_ridx r);
  if rr_ridx r =? 8 then
    '(r, h) ← __redisReaderSetError r h REDIS_ERR_PROTOCOL
                (lit "No support for nested multi bulk replies with depth > 7");
    Ok (REDIS_ERR, r, h)
  else
  '(line, r) ← readLine r;
  match line with
  | Some (p, _) =>
      parent ← get_parent r cur;
      elements ← readLongLong (input r) p;
      let root := rr_ridx r =? 0 in
      if elements =? -1 then
        '(obj, h) ← match fn_entry r createNil with
                    | Some create => create cur parent h
                    | None => Ok (REDIS_REPLY_NIL, h)
                    end;
        if obj =? NULL then
          '(r, h) ← __redisReaderSetErrorOOM r h; Ok (REDIS_ERR, r, h)
        else
          r ← moveToNextTask r;
          Ok (REDIS_OK, if root then set_reply r obj else r, h)
      else
        '(obj, h) ← match fn_entry r createArray with
                    | Some create => create cur parent (s32 elements) h
                    | None => Ok (REDIS_REPLY_ARRAY, h)
                    end;
        if obj =? NULL then
          '(r, h) ← __redisReaderSetErrorOOM r h; Ok (REDIS_ERR, r, h)
        else
          r ← (if 0 <? elements then
                 r ← put_task r (rr_ridx r)
                       (mk_task (t_type cur) (s32 elements) (t_idx cur) obj
                          (t_parent cur) (t_privdata cur));
                 put_task (set_ridx r (rr_ridx r + 1)) (rr_ridx r + 1)
                   (mk_task (-1) (-1) 0 NULL (Some (Z.to_nat (rr_ridx r)))
                      (rr_privdata r))
               else moveToNextTask r);
          Ok (REDIS_OK, if root then set_reply r obj else r, h)
  | None => Ok (REDIS_ERR, r, h)
  end.

(** The type announced by the first byte of an item. *)
Definition type_of_byte (c : Z) : option Z :=
  if c =? 45 then Some REDIS_REPLY_ERROR else
  if c =? 43 then Some REDIS_REPLY_STATUS else
  if c =? 58 then Some REDIS_REPLY_INTEGER else
  if c =? 36 then Some REDIS_REPLY_STRING else
  if c =? 42 then Some REDIS_REPLY_ARRAY else None.

Definition process_typed r h (type : Z) : result (Z * redisReader * H) :=
  if (type =? REDIS_REPLY_ERROR) || (type =? REDIS_REPLY_STATUS)
     || (type =? REDIS_REPLY_INTEGER) then processLineItem r h
  else if type =? REDIS_REPLY_STRING then processBulkItem r h
  else if type =? REDIS_REPLY_ARRAY then processMultiBulkItem r h
  else Fault AssertFailed.

Definition processItem r h : result (Z * redisReader * H) :=
  cur ← get_task r (rr_ridx r);
  if t_type cur <? 0 then
    let '(p, r) := readBytes r 1 in
    match p with
    | Some p =>
        c ← load (input r) p;
        match type_of_byte c with
        | Some type =>
            r ← put_task r (rr_ridx r)
                  (mk_task type (t_elements cur) (t_idx cur) (t_obj cur) (t_parent cur)
                     (t_privdata cur));
            process_typed r h type
        | None =>
            '(r, h) ← __redisReaderSetErrorProtocolByte r h c; Ok (REDIS_ERR, r, h)
        end
    | None => Ok (REDIS_ERR, r, h)
    end
  else process_typed r h (t_type cur).

(** ** The public functions *)
Definition null_task : redisReadTask := mk_task 0 0 0 NULL None NULL.

(** [sizeof(redisReader)] is 560. *)
Definition redisReaderCreateWithFunctions (fn : option (redisReplyObjectFunctions H)) :
    result (option redisReader) :=
  if negb (malloc_ok 560) then Ok None else
  buf ← sdsempty;
  match buf with
  | None => Ok None
  | Some buf =>
      Ok (Some (mk_reader 0 [] (Some buf) 0 0 REDIS_READER_MAX_BUF
                  (replicate 9 null_task) (-1) NULL fn NULL))
  end.

(** What [redisReaderFree] leaves in the store. *)
Definition redisReaderFree r h : result H :=
  if negb (rr_reply r =? NULL) then
    match fn_entry r freeObject with
    | Some free => free (rr_reply r) h
    | None => Ok h
    end
  else Ok h.

Definition redisReaderFeed r h (buf : option bytes) (len : Z) : result (Z * redisReader * H) :=
  if negb (rr_err r =? 0) then Ok (REDIS_ERR, r, h) else
  match buf with
  | Some buf =>
      if 1 <=? len then
        b ← deref (rr_buf r);
        r ← (if (rr_len r =? 0) && negb (rr_maxbuf r =? 0)
                && (rr_maxbuf r <? sdsavail b) then
               b ← sdsempty;
               _ ← c_assert (match b with Some _ => true | None => false end);
               Ok (set_input r b 0 (rr_len r))
             else Ok r);
        b ← deref (rr_buf r);
        newbuf ← sdscatlen b buf len;
        match newbuf with
        | None =>
            '(r, h) ← __redisReaderSetErrorOOM r h; Ok (REDIS_ERR, r, h)
        | Some newbuf =>
            Ok (REDIS_OK, set_input r (Some newbuf) (rr_pos r) (sdslen newbuf), h)
        end
      else Ok (REDIS_OK, r, h)
  | None => Ok (REDIS_OK, r, h)
  end.

(** [while (r->ridx >= 0) if (processItem(r) != REDIS_OK) break;] *)
Fixpoint process_loop (fuel : nat) r h : result (redisReader * H) :=
  match fuel with
  | O => Fault OutOfFuel
  | S f =>
      if 0 <=? rr_ridx r then
        '(st, r, h) ← processItem r h;
        if negb (st =? REDIS_OK) then Ok (r, h) else process_loop f r h
      else Ok (r, h)
  end.

(** The value stored through [reply], [None] when [reply] is [NULL]
    ([want = false]). *)
Definition redisReaderGetReply r h (want : bool) : result (Z * option Z * redisReader * H) :=
  let out := if want then Some NULL else None in
  if negb (rr_err r =? 0) then Ok (REDIS_ERR, out, r, h) else
  if rr_len r =? 0 then Ok (REDIS_OK, out, r, h) else
  r ← (if rr_ridx r =? -1 then
         put_task (set_ridx r 0) 0 (mk_task (-1) (-1) (-1) NULL None (rr_privdata r))
       else Ok r);
  '(r, h) ← process_loop (S (Z.to_nat (rr_len r - rr_pos r))) r h;
  if negb (rr_err r =? 0) then Ok (REDIS_ERR, out, r, h) else
  r ← (if 1024 <=? rr_pos r then
         b ← deref (rr_buf r);
         b ← sdsrange b (s32 (rr_pos r)) (-1);
         Ok (set_input r (Some b) 0 (sdslen b))
       else Ok r);
  if rr_ridx r =? -1 then
    Ok (REDIS_OK, if want then Some (rr_reply r) else None, set_reply r NULL, h)
  else Ok (REDIS_OK, out, r, h).

End reader.
