(* ===== verification/ReaderSpec.v ===== *)
(** * ReaderSpec: the parser as a function of its unread bytes

    The abstract parser works on the bytes that were not consumed yet and on a
    reader without input ([core]); Reader.v works on a buffer with a cursor.
    [processItem_refines] and [process_loop_refines] show that the code
    computes what the abstract parser says. *)
From S2P Require Import Prelude Mem Sds SdsFacts Reply Reader.
From stdpp Require Import list list_numbers strings sets gmap.
From Stdlib Require Import ZArith Lia.
Open Scope Z_scope.

(** ** Lines and numbers *)

(** The position of the first CRLF. *)
Fixpoint find_crlf (l : bytes) : option nat :=
  match l with
  | c :: ((d :: _) as l') =>
      if (c =? CR) && (d =? LF) then Some O else S <$> find_crlf l'
  | _ => None
  end.

(** The line up to the first CRLF and what follows it. *)
Definition split_line (l : bytes) : option (bytes * bytes) :=
  match find_crlf l with
  | Some n => Some (take n l, drop (n + 2) l)
  | None => None
  end.

(** The number a line denotes for [readLongLong]: it stops at a CR. *)
Fixpoint digits_value (mult v : Z) (l : bytes) : Z :=
  match l with
  | [] => s64 (mult * v)
  | c :: l' =>
      if c =? CR then s64 (mult * v) else
      let dec := c - 48 in
      if (0 <=? dec) && (dec <? 10) then digits_value mult (s64 (s64 (v * 10) + dec)) l'
      else -1
  end.

Definition long_long_of (l : bytes) : Z :=
  match l with
  | [] => digits_value 1 0 []
  | c :: l' =>
      if c =? 45 then digits_value (-1) 0 l' else
      if c =? 43 then digits_value 1 0 l' else digits_value 1 0 l
  end.

Section spec.
Context {M : Malloc} {H : Type}.
#[local] Abbreviation redisReader := (redisReader H).
Implicit Types (k r : redisReader) (rest : bytes) (h : H).

(** A reader without its input. *)
Definition core r : redisReader := set_input r None 0 0.

(** One step: an item was read, more bytes are needed, or an error was set. *)
Inductive step_result : Type :=
  | Done (k : redisReader) (rest : bytes) (h : H)
  | More (k : redisReader) (rest : bytes) (h : H)
  | Failed (k : redisReader) (h : H).

Definition fail_oom k h : result step_result :=
  '(k, h) ← __redisReaderSetErrorOOM k h; Ok (Failed k h).

(** The end of an item: the object is the reply if the item is the root. *)
Definition finish k rest (obj : Z) h : result step_result :=
  if obj =? NULL then fail_oom k h else
  let k := if rr_ridx k =? 0 then set_reply k obj else k in
  k ← moveToNextTask k;
  Ok (Done k rest h).

Definition abs_line k rest h : result step_result :=
  cur ← get_task k (rr_ridx k);
  match split_line rest with
  | Some (line, rest') =>
      parent ← get_parent k cur;
      '(obj, h) ←
        (if t_type cur =? REDIS_REPLY_INTEGER then
           match fn_entry k createInteger with
           | Some create => create cur parent (long_long_of line) h
           | None => Ok (REDIS_REPLY_INTEGER, h)
           end
         else
           match fn_entry k createString with
           | Some create => create cur parent line h
           | None => Ok (t_type cur, h)
           end);
      finish k rest' obj h
  | None => Ok (More k rest h)
  end.

Definition make_nil k cur parent h : result (Z * H) :=
  match fn_entry k createNil with
  | Some create => create cur parent h
  | None => Ok (REDIS_REPLY_NIL, h)
  end.

Definition abs_bulk k rest h : result step_result :=
  cur ← get_task k (rr_ridx k);
  match split_line rest with
  | Some (line, rest') =>
      parent ← get_parent k cur;
      let len := long_long_of line in
      if len <? 0 then
        '(obj, h) ← make_nil k cur parent h; finish k rest' obj h
      else if len + 2 <=? zlen rest' then
        '(obj, h) ← match fn_entry k createString with
                    | Some create => create cur parent (take (Z.to_nat len) rest') h
                    | None => Ok (REDIS_REPLY_STRING, h)
                    end;
        finish k (drop (Z.to_nat (len + 2)) rest') obj h
      else Ok (More k rest h)
  | None => Ok (More k rest h)
  end.

(** Opening a nested level for the elements of an array. *)
Definition push_task k (cur : redisReadTask) (elements obj : Z) : result redisReader :=
  k ← put_task k (rr_ridx k)
        (mk_task (t_type cur) (s32 elements) (t_idx cur) obj (t_parent cur)
           (t_privdata cur));
  put_task (set_ridx k (rr_ridx k + 1)) (rr_ridx k + 1)
    (mk_task (-1) (-1) 0 NULL (Some (Z.to_nat (rr_ridx k))) (rr_privdata k)).

Definition abs_multi k rest h : result step_result :=
  cur ← get_task k (rr_ridx k);
  if rr_ridx k =? 8 then
    '(k, h) ← __redisReaderSetError k h REDIS_ERR_PROTOCOL
                (lit "No support for nested multi bulk replies with depth > 7");
    Ok (Failed k h)
  else
  match split_line rest with
  | Some (line, rest') =>
      parent ← get_parent k cur;
      let elements := long_long_of line in
      let root := rr_ridx k =? 0 in
      '(obj, h) ←
        (if elements =? -1 then make_nil k cur parent h else
           match fn_entry k createArray with
           | Some create => create cur parent (s32 elements) h
           | None => Ok (REDIS_REPLY_ARRAY, h)
           end);
      if obj =? NULL then fail_oom k h else
      k ← (if 0 <? elements then push_task k cur elements obj else moveToNextTask k);
      Ok (Done (if root then set_reply k obj else k) rest' h)
  | None => Ok (More k rest h)
  end.

Definition abs_typed k rest h (type : Z) : result step_result :=
  if (type =? REDIS_REPLY_ERROR) || (type =? REDIS_REPLY_STATUS)
     || (type =? REDIS_REPLY_INTEGER) then abs_line k rest h
  else if type =? REDIS_REPLY_STRING then abs_bulk k rest h
  else if type =? REDIS_REPLY_ARRAY then abs_multi k rest h
  else Fault AssertFailed.

Definition set_type (t : redisReadTask) (type : Z) : redisReadTask :=
  mk_task type (t_elements t) (t_idx t) (t_obj t) (t_parent t) (t_privdata t).

Definition abs_item k rest h : result step_result :=
  cur ← get_task k (rr_ridx k);
  if t_type cur <? 0 then
    match rest with
    | c :: rest' =>
        match type_of_byte c with
        | Some type =>
            k ← put_task k (rr_ridx k) (set_type cur type);
            abs_typed k rest' h type
        | None =>
            '(k, h) ← __redisReaderSetErrorProtocolByte k h c; Ok (Failed k h)
        end
    | [] => Ok (More k rest h)
    end
  else abs_typed k rest h (t_type cur).

(** Items until the stack is empty, the input ends or an error is set. *)
Fixpoint abs_loop (fuel : nat) k rest h : result step_result :=
  match fuel with
  | O => Fault OutOfFuel
  | S f =>
      if 0 <=? rr_ridx k then
        st ← abs_item k rest h;
        match st with
        | Done k rest h => abs_loop f k rest h
        | _ => Ok st
        end
      else Ok (Done k rest h)
  end.

(** The concrete reader for an abstract state: the buffer [b] of length [L]
    whose unread part is [rest]. *)
Definition conc (b : sds) (L : Z) k rest : redisReader :=
  set_input k (Some b) (L - zlen rest) L.

Definition conc_result (b : sds) (L : Z) (st : step_result) : Z * redisReader * H :=
  match st with
  | Done k rest h => (REDIS_OK, conc b L k rest, h)
  | More k rest h => (REDIS_ERR, conc b L k rest, h)
  | Failed k h => (REDIS_ERR, k, h)
  end.

End spec.
