(* ===== verification/ReaderRefine.v ===== *)
(** * ReaderRefine: read.c implements the parser of ReaderSpec.v *)
From S2P Require Import Prelude Mem Sds SdsFacts Reply Reader ReaderSpec.
From stdpp Require Import list list_numbers strings sets gmap.
From Stdlib Require Import ZArith Lia.
Open Scope Z_scope.

(** ** Lines *)
Lemma find_crlf_cons c d l :
  find_crlf (c :: d :: l) =
  if (c =? CR) && (d =? LF) then Some O else S <$> find_crlf (d :: l).
Proof. done. Qed.

Lemma find_crlf_skip p l : CR ∉ p -> l <> [] ->
  find_crlf (p ++ l) = (fun n => length p + n)%nat <$> find_crlf l.
Proof.
  intros Hp Hl. induction p as [|c p IH]; [by simpl; destruct (find_crlf l)|].
  apply not_elem_of_cons in Hp as [Hc Hp]. specialize (IH Hp). cbn [app].
  destruct (p ++ l) as [|d t] eqn:E; [by destruct p, l|].
  rewrite find_crlf_cons. bool_false (c =? CR). rewrite IH. by destruct (find_crlf l).
Qed.

Lemma find_crlf_none p x : CR ∉ p -> find_crlf (p ++ [x]) = None.
Proof. intros Hp. by rewrite find_crlf_skip. Qed.

Lemma find_crlf_hit p l : CR ∉ p -> find_crlf (p ++ CR :: LF :: l) = Some (length p).
Proof. intros Hp. rewrite find_crlf_skip by done. simpl. f_equal. lia. Qed.

Lemma find_crlf_Some l n : find_crlf l = Some n ->
  l = take n l ++ CR :: LF :: drop (n + 2) l.
Proof.
  revert n; induction l as [|c [|d l] IH]; intros n; try done; rewrite find_crlf_cons.
  split_if.
  - intros [= <-]. subst. done.
  - intros Hn. destruct (find_crlf (d :: l)) as [k|] eqn:Ek; [|done].
    injection Hn as [= <-]. exact (f_equal (cons c) (IH k eq_refl)).
Qed.

Lemma find_crlf_app l l' n : find_crlf l = Some n -> find_crlf (l ++ l') = Some n.
Proof.
  revert n; induction l as [|c [|d l] IH]; intros n; try done. cbn [app]. rewrite !find_crlf_cons.
  split_if; [done|].
  intros Hn. destruct (find_crlf (d :: l)) as [k|] eqn:Ek; [|done].
  change (d :: l ++ l') with ((d :: l) ++ l'). by rewrite (IH k).
Qed.

Lemma seek_cr_spec m pre post b : forall fuel a x,
  m = pre ++ (a ++ b ++ [x]) ++ post -> (length b < fuel)%nat ->
  seek_cr fuel m (zlen pre) (zlen (a ++ b)) (zlen a) =
  Ok (zlen a + Z.of_nat (from_option id (length b) (index_of CR b))).
Proof.
  induction b as [|c b IH]; intros [|fuel] a x Hm Hf; try lia; cbn [seek_cr].
  - if_false. f_equal. slia.
  - if_true. rewrite (load_at m _ (pre ++ a) c (b ++ [x] ++ post))
      by first [slia|rewrite Hm; solve_app].
    cbn [mbind result_bind index_of]. split_if; [f_equal; slia|].
    replace (zlen a + 1) with (zlen (a ++ [c])) by slia.
    replace (zlen (a ++ c :: b)) with (zlen ((a ++ [c]) ++ b)) by slia.
    rewrite (IH fuel (a ++ [c]) x); [|rewrite Hm; solve_app|slia].
    f_equal. destruct (index_of CR b); slia.
Qed.

Lemma index_of_None c l : index_of c l = None -> c ∉ l.
Proof.
  induction l as [|d l IH]; simpl; [intros; apply not_elem_of_nil|].
  split_if; [done|]. intros Hn. apply not_elem_of_cons. split; [congruence|].
  apply IH. by destruct (index_of c l).
Qed.

Lemma index_of_split c l n : index_of c l = Some n ->
  exists p q, l = p ++ c :: q /\ n = length p /\ c ∉ p.
Proof.
  intros Hn. destruct (index_of_Some _ _ _ Hn) as [Hl Hp].
  exists (take n l), (drop (S n) l). split_and!; [by rewrite take_drop_middle| |done].
  rewrite length_take. apply lookup_lt_Some in Hl. lia.
Qed.

Lemma seek_loop_spec m pre post x : forall fuel b a,
  m = pre ++ (a ++ b ++ [x]) ++ post -> (length b < fuel)%nat ->
  seek_loop fuel m (zlen pre) (zlen (a ++ b)) (zlen a) =
  Ok ((fun n => zlen pre + zlen a + Z.of_nat n) <$> find_crlf (b ++ [x])).
Proof.
  induction fuel as [|fuel IH]; [lia|]. intros b a Hm Hf. cbn [seek_loop].
  destruct (decide (b = [])) as [->|Hb]; [if_false; done|].
  assert (0 < zlen b) by (destruct b; [done|slia]). if_true.
  rewrite (seek_cr_spec _ pre post b _ a x) by done. cbn [mbind result_bind].
  destruct (index_of CR b) as [n|] eqn:En; cbn [from_option id].
  2: { bool_true (zlen a + zlen b =? zlen (a ++ b)).
       by rewrite find_crlf_none by by apply index_of_None. }
  destruct (index_of_split _ _ _ En) as (p & q & -> & -> & Hp). clear En Hb.
  bool_false (zlen a + zlen p =? zlen (a ++ p ++ CR :: q)).
  rewrite <- (assoc_L (++) p). rewrite find_crlf_skip by done. cbn [app].
  destruct (q ++ [x]) as [|y t] eqn:Ey; [by destruct q|].
  assert (m = (pre ++ a ++ p ++ [CR]) ++ (q ++ [x]) ++ post) as Hm'
    by (rewrite Hm; solve_app).
  rewrite (load_at m _ (pre ++ a ++ p ++ [CR]) y (t ++ post))
    by first [slia|rewrite Hm', Ey; solve_app].
  cbn [mbind result_bind]. rewrite find_crlf_cons. change (CR =? CR) with true. cbn [andb].
  split_if.
  - simpl. do 2 f_equal. lia.
  - rewrite <- Ey.
    replace (zlen a + zlen p + 1) with (zlen (a ++ p ++ [CR])) by slia.
    replace (zlen (a ++ p ++ CR :: q)) with (zlen ((a ++ p ++ [CR]) ++ q)) by slia.
    rewrite IH; [|rewrite Hm; solve_app|slia].
    f_equal. destruct (find_crlf (q ++ [x])); [|done]. simpl. f_equal. slia.
Qed.

Lemma seekNewline_spec m pre rest post :
  m = pre ++ rest ++ post -> zlen rest < 2 ^ 31 ->
  seekNewline m (zlen pre) (zlen rest) =
  Ok ((fun n => zlen pre + Z.of_nat n) <$> find_crlf rest).
Proof.
  intros Hm Hr. unfold seekNewline. rewrite s32_id by lia.
  destruct rest as [|x b _] using rev_ind; [done|].
  rewrite length_app in *. simpl in Hr |- *.
  replace (Z.of_nat (length b + 1) - 1) with (zlen b) by lia.
  pose proof (seek_loop_spec m pre post x (S (Z.to_nat (zlen b))) b [] Hm) as Hs.
  change (zlen []) with 0 in Hs. rewrite Z.add_0_r in Hs. apply Hs. lia.
Qed.

Lemma split_line_Some rest line rest' :
  split_line rest = Some (line, rest') ->
  rest = line ++ CR :: LF :: rest' /\ find_crlf rest = Some (length line).
Proof.
  unfold split_line. destruct (find_crlf rest) as [n|] eqn:E; [|done].
  intros [= <- <-]. pose proof (find_crlf_Some _ _ E) as Hr. split; [done|].
  f_equal. apply (f_equal length) in Hr.
  rewrite length_app in Hr. simpl in Hr. rewrite length_drop in Hr.
  rewrite length_take in *. lia.
Qed.

Lemma split_line_app rest line rest' x :
  split_line rest = Some (line, rest') ->
  split_line (rest ++ x) = Some (line, rest' ++ x).
Proof.
  intros Hs. destruct (split_line_Some _ _ _ Hs) as [-> Hf]. unfold split_line.
  rewrite (find_crlf_app _ x _ Hf), <- app_assoc. cbn [app].
  rewrite take_app_length, drop_app_add. done.
Qed.

(** ** Numbers *)
Lemma read_digits_spec m l : forall fuel pre post mult v,
  m = pre ++ l ++ CR :: post -> (length l < fuel)%nat ->
  read_digits fuel m (zlen pre) mult v = Ok (digits_value mult v l).
Proof.
  induction l as [|c l IH]; intros [|fuel] pre post mult v -> Hf; simpl in Hf; try lia;
    cbn [read_digits digits_value app].
  - by rewrite load_middle.
  - rewrite load_middle. cbn [mbind result_bind]. split_if; [done|]. cbv zeta.
    split_if; [|done]. replace (zlen pre + 1) with (zlen (pre ++ [c])) by slia.
    rewrite (IH fuel (pre ++ [c]) post); [done|solve_app|lia].
Qed.

Lemma readLongLong_spec m pre l post :
  m = pre ++ l ++ CR :: post -> readLongLong m (zlen pre) = Ok (long_long_of l).
Proof.
  intros ->. unfold readLongLong, long_long_of.
  destruct l as [|c l]; cbn [app].
  - rewrite load_middle. cbn [mbind result_bind].
    change (CR =? 45) with false. change (CR =? 43) with false. cbv iota.
    apply (read_digits_spec _ [] _ pre post); [done|simpl; lia].
  - rewrite load_middle. cbn [mbind result_bind].
    assert (zlen pre + 1 = zlen (pre ++ [c])) as E1 by slia.
    repeat split_if; rewrite ?E1.
    + apply (read_digits_spec _ l _ (pre ++ [c]) post); [solve_app|slia].
    + apply (read_digits_spec _ l _ (pre ++ [c]) post); [solve_app|slia].
    + apply (read_digits_spec _ (c :: l) _ pre post); [done|slia].
Qed.

Lemma digits_value_range l : forall mult v, - 2 ^ 63 <= digits_value mult v l < 2 ^ 63.
Proof.
  induction l as [|c l IH]; intros; simpl; [apply s64_range|].
  repeat split_if; auto using s64_range; lia.
Qed.

Lemma long_long_range l : - 2 ^ 63 <= long_long_of l < 2 ^ 63.
Proof.
  unfold long_long_of. destruct l; repeat split_if; apply digits_value_range.
Qed.

(** ** Items

    [b] is the buffer, [c] its content of length [L], below [2^31] so that the
    [int] positions of [seekNewline] and [readLine] do not wrap. *)
Section refine.
Context {M : Malloc} {H : Type}.
#[local] Abbreviation redisReader := (redisReader H).
Implicit Types (k r : redisReader) (rest : bytes) (h : H).

Definition is_core k : Prop := rr_buf k = None /\ rr_pos k = 0 /\ rr_len k = 0.

Lemma is_core_core r : is_core (core r).
Proof. done. Qed.

Lemma is_core_put_task k i t k' : is_core k -> put_task k i t = Ok k' -> is_core k'.
Proof.
  unfold put_task. intros Hk Hp. split_if_in Hp; [|done]. injection Hp as <-. done.
Qed.

Context (b : sds) (c : bytes) (L : Z).
Hypothesis b_is : sds_is c b.
Hypothesis L_is : L = zlen c.
Hypothesis L_small : L < 2 ^ 31.
#[local] Abbreviation conc := (conc b L).
#[local] Abbreviation conc_result := (conc_result b L).

Lemma conc_input k rest : rest `suffix_of` c ->
  exists pre post, c = pre ++ rest /\ input (conc k rest) = pre ++ rest ++ 0 :: post /\
    rr_pos (conc k rest) = zlen pre /\ u64 (rr_len (conc k rest) - rr_pos (conc k rest)) = zlen rest.
Proof.
  intros [pre Hpre]. destruct (sds_is_buf _ _ b_is) as (post & Hb & Hl).
  exists pre, post. cbn. split_and!; [done|by rewrite Hb, Hpre, <- app_assoc|..].
  - rewrite L_is, Hpre, length_app. lia.
  - rewrite u64_id; rewrite L_is, Hpre, length_app in *; lia.
Qed.

Lemma split_line_suffix rest line rest' :
  split_line rest = Some (line, rest') -> rest `suffix_of` c -> rest' `suffix_of` c.
Proof.
  intros Hs. destruct (split_line_Some _ _ _ Hs) as [-> _]. intros [p ->].
  exists (p ++ line ++ [CR; LF]). solve_app.
Qed.

Lemma put_task_conc k rest i t :
  put_task (conc k rest) i t = (fun k => conc k rest) <$> put_task k i t.
Proof. unfold put_task. cbn. by split_if. Qed.

Lemma moveToNextTask_fuel_conc n : forall k rest,
  moveToNextTask_fuel n (conc k rest) = (fun k => conc k rest) <$> moveToNextTask_fuel n k.
Proof.
  induction n as [|n IH]; intros k rest; [done|]. cbn [moveToNextTask_fuel].
  change (rr_ridx (conc k rest)) with (rr_ridx k).
  split_if; [|done]. split_if; [done|].
  change (get_task (conc k rest)) with (get_task k).
  change (rr_ridx (conc k rest)) with (rr_ridx k).
  destruct (get_task k (rr_ridx k)); [|done]. cbn [mbind result_bind].
  destruct (get_task k (rr_ridx k - 1)); [|done]. cbn [mbind result_bind].
  match goal with |- c_assert ?x ≫= _ = _ => destruct x end; [|done].
  cbn [c_assert mbind result_bind]. split_if.
  - change (set_ridx (conc k rest) (rr_ridx k - 1)) with (conc (set_ridx k (rr_ridx k - 1)) rest).
    apply IH.
  - match goal with |- c_assert ?x ≫= _ = _ => destruct x end; [|done].
    cbn [c_assert mbind result_bind]. apply put_task_conc.
Qed.

Lemma moveToNextTask_conc k rest :
  moveToNextTask (conc k rest) = (fun k => conc k rest) <$> moveToNextTask k.
Proof. apply moveToNextTask_fuel_conc. Qed.

Lemma set_error_conc k rest h type str : is_core k ->
  __redisReaderSetError (conc k rest) h type str = __redisReaderSetError k h type str.
Proof.
  intros (E1 & E2 & E3). unfold __redisReaderSetError. cbn.
  split_if.
  - change (fn_entry (conc k rest) freeObject) with (fn_entry k freeObject).
    destruct (fn_entry k freeObject) as [f|]; [destruct (f _ _); [|done]|];
      simpl; destruct k; cbn in *; subst; done.
  - destruct k; cbn in *; subst; done.
Qed.

Lemma set_oom_conc k rest rest' h : is_core k ->
  __redisReaderSetErrorOOM (conc k rest) h = __redisReaderSetErrorOOM (conc k rest') h.
Proof. intros Hk. unfold __redisReaderSetErrorOOM. by rewrite !set_error_conc. Qed.

Lemma finish_conc k rest obj h : is_core k ->
  (if obj =? NULL then
     '(r, h) ← __redisReaderSetErrorOOM (conc k rest) h; Ok (REDIS_ERR, r, h)
   else
     let r := if rr_ridx (conc k rest) =? 0 then set_reply (conc k rest) obj
              else conc k rest in
     r ← moveToNextTask r; Ok (REDIS_OK, r, h)) =
  conc_result <$> finish k rest obj h.
Proof.
  intros Hk. unfold finish, fail_oom, __redisReaderSetErrorOOM. split_if.
  - rewrite set_error_conc by done. by destruct (__redisReaderSetError _ _ _ _) as [[? ?]|].
  - cbv zeta. change (rr_ridx (conc k rest)) with (rr_ridx k). 
    replace (if rr_ridx k =? 0 then set_reply (conc k rest) obj else conc k rest)
      with (conc (if rr_ridx k =? 0 then set_reply k obj else k) rest) by (by split_if).
    rewrite moveToNextTask_conc. by destruct (moveToNextTask _).
Qed.

Lemma readLine_conc k rest : rest `suffix_of` c ->
  readLine (conc k rest) =
  Ok (match split_line rest with
      | Some (line, rest') => (Some (L - zlen rest, zlen line), conc k rest')
      | None => (None, conc k rest)
      end).
Proof.
  intros Hr. destruct (conc_input k rest Hr) as (pre & post & Hc & Hi & Hp & Hu).
  unfold readLine. rewrite Hu, Hi, Hp, (seekNewline_spec _ pre rest (0 :: post)); [|done|].
  2: { rewrite L_is, Hc in L_small. slia. }
  cbn [mbind result_bind]. unfold split_line.
  destruct (find_crlf rest) as [n|] eqn:En; [|done]. cbn [fmap option_fmap option_map].
  pose proof (find_crlf_Some _ _ En) as Hs. apply (f_equal length) in Hs.
  rewrite length_app, length_take in Hs. simpl in Hs. rewrite length_drop in Hs.
  assert (zlen pre + zlen rest = L) by (rewrite L_is, Hc, length_app; lia).
  do 2 f_equal.
  - f_equal. f_equal; [rewrite <- Hp; done|]. change (rr_pos (conc k rest)) with (L - zlen rest).
    rewrite s32_id, length_take; lia.
  - unfold ReaderSpec.conc, set_pos, set_input. cbn. f_equal.
    replace (L - zlen rest) with (zlen pre) by lia.
    rewrite (s32_id (zlen pre + Z.of_nat n - zlen pre)) by lia.
    rewrite s32_id, u64_id by lia. rewrite length_drop. lia.
Qed.

Lemma slice_conc k rest line rest' n : rest `suffix_of` c -> rest = line ++ rest' ->
  n = zlen line ->
  slice (input (conc k rest)) (L - zlen rest) n = Ok line.
Proof.
  intros Hr -> ->. destruct (conc_input k _ Hr) as (pre & post & Hc & Hi & Hp & Hu).
  rewrite Hi. change (L - zlen (line ++ rest')) with (rr_pos (conc k (line ++ rest'))).
  rewrite Hp, slice_Ok by slia. rewrite !Nat2Z.id, drop_app_length, <- app_assoc.
  by rewrite take_app_length.
Qed.

Lemma readLongLong_conc k rest line rest' : rest `suffix_of` c ->
  split_line rest = Some (line, rest') ->
  readLongLong (input (conc k rest)) (L - zlen rest) = Ok (long_long_of line).
Proof.
  intros Hr Hs. destruct (conc_input k _ Hr) as (pre & post & Hc & Hi & Hp & Hu).
  rewrite Hi. change (L - zlen rest) with (rr_pos (conc k rest)). rewrite Hp.
  destruct (split_line_Some _ _ _ Hs) as [-> _].
  apply readLongLong_spec with (post := LF :: rest' ++ 0 :: post). solve_app.
Qed.

Lemma processLineItem_conc k rest h : is_core k -> rest `suffix_of` c ->
  processLineItem (conc k rest) h = conc_result <$> abs_line k rest h.
Proof.
  intros Hk Hr. unfold processLineItem, abs_line.
  change (rr_ridx (conc k rest)) with (rr_ridx k).
  change (get_task (conc k rest)) with (get_task k).
  destruct (get_task k (rr_ridx k)) as [cur|]; [|done]. cbn [mbind result_bind].
  rewrite readLine_conc by done. cbn [mbind result_bind].
  destruct (split_line rest) as [[line rest']|] eqn:Es; [|done].
  change (get_parent (conc k rest') cur) with (get_parent k cur).
  destruct (get_parent k cur) as [parent|]; [|done]. cbn [mbind result_bind].
  change (input (conc k rest')) with (input (conc k rest)).
  rewrite (readLongLong_conc k rest line rest') by done.
  destruct (split_line_Some _ _ _ Es) as [Hl _].
  rewrite (slice_conc k rest line _ (zlen line) Hr Hl eq_refl).
  change (fn_entry (conc k rest') createInteger) with (fn_entry k createInteger).
  change (fn_entry (conc k rest') createString) with (fn_entry k createString).
  cbn [mbind result_bind]. 
  destruct (if t_type cur =? REDIS_REPLY_INTEGER then _ else _) as [[obj h']|]; [|done].
  cbn [mbind result_bind]. by apply finish_conc.
Qed.

Lemma seekNewline_conc k rest : rest `suffix_of` c ->
  seekNewline (input (conc k rest)) (rr_pos (conc k rest))
    (u64 (rr_len (conc k rest) - rr_pos (conc k rest))) =
  Ok ((fun n => L - zlen rest + Z.of_nat n) <$> find_crlf rest).
Proof.
  intros Hr. destruct (conc_input k rest Hr) as (pre & post & Hc & Hi & Hp & Hu).
  rewrite Hu, Hi, Hp, (seekNewline_spec _ pre rest (0 :: post)); [|done|].
  - rewrite <- Hp. done.
  - rewrite L_is, Hc in L_small. slia.
Qed.

Lemma set_pos_conc k rest rest' p : p = L - zlen rest' ->
  set_pos (conc k rest) p = conc k rest'.
Proof. by intros ->. Qed.

Lemma suffix_length rest : rest `suffix_of` c -> 0 <= L - zlen rest.
Proof. intros [p Hp]. rewrite L_is, Hp, length_app. lia. Qed.

Lemma processBulkItem_conc k rest h : is_core k -> rest `suffix_of` c ->
  processBulkItem (conc k rest) h = conc_result <$> abs_bulk k rest h.
Proof.
  intros Hk Hr. unfold processBulkItem, abs_bulk.
  change (rr_ridx (conc k rest)) with (rr_ridx k).
  change (get_task (conc k rest)) with (get_task k).
  destruct (get_task k (rr_ridx k)) as [cur|]; [|done]. cbn [mbind result_bind].
  rewrite seekNewline_conc by done. cbn [mbind result_bind].
  destruct (split_line rest) as [[line rest']|] eqn:Es; [|unfold split_line in Es;
    by destruct (find_crlf rest)].
  destruct (split_line_Some _ _ _ Es) as [Hl Hf]. rewrite Hf. cbn [fmap option_fmap option_map].
  change (get_parent (conc k rest) cur) with (get_parent k cur).
  destruct (get_parent k cur) as [parent|]; [|done]. cbn [mbind result_bind].
  change (rr_pos (conc k rest)) with (L - zlen rest).
  change (rr_len (conc k rest)) with L.
  rewrite (readLongLong_conc k rest line rest') by done.
  pose proof (long_long_range line) as Hrange. set (len := long_long_of line) in *.
  pose proof (suffix_length rest Hr) as Hlen.
  assert (zlen rest = zlen line + 2 + zlen rest') as Hz by (rewrite Hl; slia).
  cbn [mbind result_bind]. unfold make_nil.
  change (fn_entry (conc k rest) createNil) with (fn_entry k createNil).
  change (fn_entry (conc k rest) createString) with (fn_entry k createString).
  rewrite (u64_id (L - zlen rest + zlen line - (L - zlen rest) + 2)) by lia.
  split_if.
  - destruct (match fn_entry k createNil with Some _ => _ | None => _ end) as [[obj h']|];
      [|done]. cbn [mbind result_bind]. cbv iota.
    rewrite (set_pos_conc k rest rest') by (rewrite u64_id; lia).
    rewrite (set_oom_conc k rest rest') by done. by apply finish_conc.
  - replace (u64 (L - zlen rest + zlen line - (L - zlen rest) + 2 + s64 (len + 2)))
      with (zlen line + 2 + (len + 2)) by (unfold u64, s64; lia).
    rewrite (u64_id (L - zlen rest + (zlen line + 2 + (len + 2)))) by lia.
    destruct (len + 2 <=? zlen rest') eqn:El; bool_to_prop.
    2: { bool_false (L - zlen rest + (zlen line + 2 + (len + 2)) <=? L). done. }
    bool_true (L - zlen rest + (zlen line + 2 + (len + 2)) <=? L).
    assert (slice (input (conc k rest)) (L - zlen rest + zlen line + 2) len =
            Ok (take (Z.to_nat len) rest')) as ->.
    { change (input (conc k rest)) with (input (conc k rest')).
      replace (L - zlen rest + zlen line + 2) with (L - zlen rest') by lia.
      apply (slice_conc k rest' _ (drop (Z.to_nat len) rest')).
      - by apply (split_line_suffix _ _ _ Es).
      - by rewrite take_drop.
      - rewrite length_take. lia. }
    cbn [mbind result_bind].
    destruct (match fn_entry k createString with Some _ => _ | None => _ end)
      as [[obj h']|]; [|done]. cbn [mbind result_bind]. cbv iota.
    rewrite (set_pos_conc k rest (drop (Z.to_nat (len + 2)) rest'))
      by (rewrite u64_id, ?length_drop; lia).
    rewrite (set_oom_conc k rest (drop (Z.to_nat (len + 2)) rest')) by done.
    by apply finish_conc.
Qed.

Lemma push_task_conc k rest cur elements obj :
  (r ← put_task (conc k rest) (rr_ridx (conc k rest))
         (mk_task (t_type cur) (s32 elements) (t_idx cur) obj
            (t_parent cur) (t_privdata cur));
   put_task (set_ridx r (rr_ridx r + 1)) (rr_ridx r + 1)
     (mk_task (-1) (-1) 0 NULL (Some (Z.to_nat (rr_ridx r))) (rr_privdata r))) =
  (fun k => conc k rest) <$> push_task k cur elements obj.
Proof.
  unfold push_task. rewrite put_task_conc. change (rr_ridx (conc k rest)) with (rr_ridx k).
  destruct (put_task k (rr_ridx k) _) as [k'|]; [|done]. cbn [fmap result_map mbind result_bind].
  change (set_ridx (conc k' rest) (rr_ridx (conc k' rest) + 1))
    with (conc (set_ridx k' (rr_ridx k' + 1)) rest).
  apply put_task_conc.
Qed.

Lemma fail_oom_conc k rest h : is_core k ->
  ('(r, h) ← __redisReaderSetErrorOOM (conc k rest) h; Ok (REDIS_ERR, r, h)) =
  conc_result <$> fail_oom k h.
Proof.
  intros Hk. unfold fail_oom, __redisReaderSetErrorOOM. rewrite set_error_conc by done.
  by destruct (__redisReaderSetError _ _ _ _) as [[? ?]|].
Qed.

Lemma processMultiBulkItem_conc k rest h : is_core k -> rest `suffix_of` c ->
  processMultiBulkItem (conc k rest) h = conc_result <$> abs_multi k rest h.
Proof.
  intros Hk Hr. unfold processMultiBulkItem, abs_multi.
  change (rr_ridx (conc k rest)) with (rr_ridx k).
  change (get_task (conc k rest)) with (get_task k).
  destruct (get_task k (rr_ridx k)) as [cur|]; [|done]. cbn [mbind result_bind].
  destruct (rr_ridx k =? 8).
  { rewrite set_error_conc by done. by destruct (__redisReaderSetError _ _ _ _) as [[? ?]|]. }
  rewrite readLine_conc by done. cbn [mbind result_bind].
  destruct (split_line rest) as [[line rest']|] eqn:Es; [|done].
  change (get_parent (conc k rest') cur) with (get_parent k cur).
  destruct (get_parent k cur) as [parent|]; [|done]. cbn [mbind result_bind].
  change (input (conc k rest')) with (input (conc k rest)).
  rewrite (readLongLong_conc k rest line rest') by done. cbn [mbind result_bind].
  set (elements := long_long_of line). unfold make_nil.
  change (fn_entry (conc k rest') createNil) with (fn_entry k createNil).
  change (fn_entry (conc k rest') createArray) with (fn_entry k createArray).
  change (rr_ridx (conc k rest')) with (rr_ridx k).
  destruct (elements =? -1) eqn:E1; bool_to_prop.
  - destruct (match fn_entry k createNil with Some _ => _ | None => _ end) as [[obj h']|];
      [|done]. cbn [mbind result_bind]. split_if; [by apply fail_oom_conc|].
    bool_false (0 <? elements). rewrite moveToNextTask_conc.
    destruct (moveToNextTask k); [|done]. cbn [mbind result_bind fmap result_map].
    by split_if.
  - destruct (match fn_entry k createArray with Some _ => _ | None => _ end) as [[obj h']|];
      [|done]. cbn [mbind result_bind]. split_if; [by apply fail_oom_conc|].
    replace (if 0 <? elements then _ else moveToNextTask (conc k rest'))
      with ((fun k => conc k rest') <$>
            (if 0 <? elements then push_task k cur elements obj else moveToNextTask k))
      by (split_if; [by rewrite <- push_task_conc|by rewrite moveToNextTask_conc]).
    destruct (if 0 <? elements then push_task k cur elements obj else moveToNextTask k);
      [|done]. cbn [mbind result_bind fmap result_map]. by split_if.
Qed.

Lemma process_typed_conc k rest h type : is_core k -> rest `suffix_of` c ->
  process_typed (conc k rest) h type = conc_result <$> abs_typed k rest h type.
Proof.
  intros Hk Hr. unfold process_typed, abs_typed.
  repeat split_if; try done; eauto using processLineItem_conc, processBulkItem_conc,
    processMultiBulkItem_conc.
Qed.

(** One item of the code is one item of the abstract parser. *)
Lemma processItem_conc k rest h : is_core k -> rest `suffix_of` c ->
  processItem (conc k rest) h = conc_result <$> abs_item k rest h.
Proof.
  intros Hk Hr. unfold processItem, abs_item.
  change (rr_ridx (conc k rest)) with (rr_ridx k).
  change (get_task (conc k rest)) with (get_task k).
  destruct (get_task k (rr_ridx k)) as [cur|]; [|done]. cbn [mbind result_bind].
  destruct (t_type cur <? 0); [|by apply process_typed_conc].
  destruct (conc_input k rest Hr) as (pre & post & Hc & Hi & Hp & Hu).
  unfold readBytes. rewrite Hu. destruct rest as [|x rest']; [done|].
  bool_true (1 <=? zlen (x :: rest')).
  pose proof (suffix_length _ Hr) as Hlen.
  rewrite (set_pos_conc k (x :: rest') rest').
  2: { change (rr_pos (conc k (x :: rest'))) with (L - zlen (x :: rest')).
       rewrite u64_id; slia. }
  change (input (conc k rest')) with (input (conc k (x :: rest'))).
  rewrite Hi, Hp, (load_at _ _ pre x (rest' ++ 0 :: post)) by done. cbn [mbind result_bind].
  destruct (type_of_byte x) as [type|].
  - rewrite put_task_conc. change (rr_ridx (conc k rest')) with (rr_ridx k).
    fold (set_type cur type).
    destruct (put_task k (rr_ridx k) (set_type cur type)) as [k'|] eqn:Ek; [|done].
    cbn [mbind result_bind fmap result_map]. apply process_typed_conc.
    + by eapply is_core_put_task.
    + destruct Hr as [q ->]. exists (q ++ [x]). solve_app.
  - unfold __redisReaderSetErrorProtocolByte. rewrite set_error_conc by done.
    by destruct (__redisReaderSetError _ _ _ _) as [[? ?]|].
Qed.
End refine.
