(* ===== verification/ReaderStream.v ===== *)
(** * ReaderStream: whole replies, feeding and streaming

    The loop of [redisReaderGetReply] terminates and computes the abstract
    parser; feeding the input in pieces is feeding it at once. *)
From S2P Require Import Prelude Mem Sds SdsFacts Reply Reader ReaderSpec ReaderRefine.
From stdpp Require Import list list_numbers strings sets gmap.
From Stdlib Require Import ZArith Lia.
Open Scope Z_scope.

Section stream.
Context {M : Malloc} {H : Type}.
#[local] Abbreviation redisReader := (redisReader H).
Implicit Types (k r : redisReader) (rest : bytes) (h : H).

(** ** What a step keeps *)

(** Everything but the tasks and the reply. *)
Definition env k :=
  (rr_err k, rr_errstr k, (rr_buf k, rr_pos k, rr_len k), rr_maxbuf k, rr_fn k,
   rr_privdata k, length (rr_rstack k)).

Lemma env_core k k' : env k' = env k -> is_core k -> is_core k'.
Proof. unfold env, is_core. intros [= ? ? -> -> -> ? ? ? ?]. done. Qed.

Lemma put_task_env k i t k' : put_task k i t = Ok k' ->
  env k' = env k /\ rr_ridx k' = rr_ridx k /\ rr_reply k' = rr_reply k.
Proof.
  unfold put_task. split_if; [|done]. intros [= <-]. unfold env. cbn.
  by rewrite length_insert.
Qed.

Lemma moveToNextTask_env k k' : moveToNextTask k = Ok k' ->
  env k' = env k /\ rr_reply k' = rr_reply k.
Proof.
  unfold moveToNextTask. generalize (S (S (Z.to_nat (rr_ridx k)))) as n.
  intros n. revert k. induction n as [|n IH]; [done|]. intros k. cbn [moveToNextTask_fuel].
  split_if; [|by intros [= <-]]. split_if; [by intros [= <-]|].
  intros Hm. inv_ok. split_if_in Hm.
  - apply IH in Hm as [? ?]. done.
  - inv_ok. apply put_task_env in Hm as (? & ? & ?). done.
Qed.

(** A step consumes bytes and keeps the environment; an error empties it. *)
Definition step_post (k : redisReader) (rest : bytes) (st : step_result) : Prop :=
  match st with
  | Done k' rest' _ => env k' = env k /\ exists used, 2 <= zlen used /\ rest = used ++ rest'
  | More k' rest' _ => env k' = env k /\ rr_ridx k' = rr_ridx k /\ rr_reply k' = rr_reply k /\
                     rest' `suffix_of` rest
  | Failed k' _ => rr_buf k' = None /\ rr_err k' <> 0 /\ rr_ridx k' = -1
  end.

Lemma set_error_post k h type str k' h' : is_core k -> type <> 0 ->
  __redisReaderSetError k h type str = Ok (k', h') ->
  rr_buf k' = None /\ rr_err k' <> 0 /\ rr_ridx k' = -1 /\ rr_errstr k' = take 127 str.
Proof.
  intros (Hb & _ & _) Ht. unfold __redisReaderSetError. intros He. inv_ok.
  destruct r as [r h1]. assert (rr_buf r = None) as Hr.
  { split_if_in H0; [destruct (fn_entry _ _); inv_ok|]; simplify_eq; done. }
  rewrite Hr in He. simplify_eq. done.
Qed.

Lemma set_error_failed k h type str k' h' rest : is_core k -> type <> 0 ->
  __redisReaderSetError k h type str = Ok (k', h') -> step_post k rest (Failed k' h').
Proof.
  intros Hk Ht He. destruct (set_error_post _ _ _ _ _ _ Hk Ht He) as (? & ? & ? & _).
  by split_and!.
Qed.

Lemma finish_post k rest obj h st line rest' : is_core k ->
  split_line rest = Some (line, rest') -> forall rest'', rest'' `suffix_of` rest' ->
  finish k rest'' obj h = Ok st -> step_post k rest st.
Proof.
  intros Hk Hs rest'' [p Hp]. unfold finish, fail_oom. split_if.
  - intros Hf. inv_ok. destruct r. simplify_eq.
    by eapply set_error_failed; [exact Hk| |exact H0].
  - intros Hf. inv_ok. subst st.
    assert (env r = env k) as He.
    { destruct (moveToNextTask_env _ _ H0) as [-> _]. by split_if. }
    split; [done|]. apply split_line_Some in Hs as [-> _].
    exists (line ++ [CR; LF] ++ p). split; [slia|]. rewrite Hp. solve_app.
Qed.

Lemma abs_line_post k rest h st : is_core k ->
  abs_line k rest h = Ok st -> step_post k rest st.
Proof.
  intros Hk Ha. unfold abs_line in Ha. inv_ok.
  destruct (split_line rest) as [[line rest']|] eqn:Es; [|inv_ok; by subst].
  inv_ok. destruct r1 as [obj h']. by eapply finish_post.
Qed.

Lemma abs_bulk_post k rest h st : is_core k ->
  abs_bulk k rest h = Ok st -> step_post k rest st.
Proof.
  intros Hk Ha. unfold abs_bulk in Ha. inv_ok.
  destruct (split_line rest) as [[line rest']|] eqn:Es; [|inv_ok; by subst].
  inv_ok. repeat split_if_in Ha; inv_ok; subst; try done.
  - destruct r1. by eapply finish_post.
  - destruct r1. eapply finish_post; eauto using suffix_drop.
Qed.

Lemma abs_multi_post k rest h st : is_core k ->
  abs_multi k rest h = Ok st -> step_post k rest st.
Proof.
  intros Hk Ha. unfold abs_multi in Ha. inv_ok. destruct (rr_ridx k =? 8).
  { inv_ok. destruct r0. simplify_eq.
    by eapply set_error_failed; [exact Hk| |exact H1]. }
  destruct (split_line rest) as [[line rest']|] eqn:Es; [|inv_ok; by subst].
  inv_ok. destruct r1 as [obj h']. cbv beta iota in Ha.
  destruct (obj =? NULL).
  { unfold fail_oom in Ha. inv_ok. destruct r1. simplify_eq.
    by eapply set_error_failed; [exact Hk| |exact H3]. }
  inv_ok. subst st. split.
  - transitivity (env r1); [by split_if|]. split_if_in H3.
    + unfold push_task in H3. inv_ok. apply put_task_env in H3 as (-> & _).
      change (env r2 = env k). by apply put_task_env in H4 as (-> & _).
    + by apply moveToNextTask_env in H3 as [-> _].
  - apply split_line_Some in Es as [-> _]. exists (line ++ [CR; LF]).
    split; [slia|solve_app].
Qed.

Lemma abs_typed_post k rest h type st : is_core k ->
  abs_typed k rest h type = Ok st -> step_post k rest st.
Proof.
  intros Hk. unfold abs_typed.
  repeat split_if; eauto using abs_line_post, abs_bulk_post, abs_multi_post. done.
Qed.

Lemma abs_item_post k rest h st : is_core k ->
  abs_item k rest h = Ok st -> step_post k rest st.
Proof.
  intros Hk Ha. unfold abs_item in Ha. inv_ok.
  split_if_in Ha; [|by eapply abs_typed_post].
  destruct rest as [|x rest]; [inv_ok; by subst|].
  destruct (type_of_byte x).
  - inv_ok. destruct (put_task_env _ _ _ _ H1) as (He & Hi & Hr).
    apply abs_typed_post in Ha; [|by eapply env_core].
    destruct st as [k' rest' h'|k' rest' h'|k' h']; simpl in *; rewrite ?He, ?Hi, ?Hr in *.
    + destruct Ha as [? (used & ? & ->)]. split; [done|]. exists (x :: used). split; [slia|done].
    + destruct Ha as (? & ? & ? & ?). split_and!; [done..|]. by apply suffix_cons_r.
    + done.
  - inv_ok. destruct r0. simplify_eq. unfold __redisReaderSetErrorProtocolByte in H1.
    by eapply set_error_failed; [exact Hk| |exact H1].
Qed.

(** ** The loop *)

(** The loop returns with enough fuel, and more fuel changes nothing. *)
Lemma abs_loop_fuel n m k rest h : is_core k ->
  (length rest < n)%nat -> (length rest < m)%nat ->
  abs_loop n k rest h = abs_loop m k rest h.
Proof.
  revert m k rest h. induction n as [|n IH]; intros [|m] k rest h Hk Hn Hm; try lia.
  cbn [abs_loop]. split_if; [|done].
  destruct (abs_item k rest h) as [st|] eqn:Ei; [|done]. cbn [mbind result_bind].
  pose proof (abs_item_post _ _ _ _ Hk Ei) as Hp.
  destruct st as [k' rest' h'| |]; [|done..].
  destruct Hp as [He (used & Hu & ->)]. rewrite length_app in *.
  apply IH; [by eapply env_core|lia..].
Qed.

Definition abs_parse k rest h : result step_result :=
  abs_loop (S (length rest)) k rest h.

Lemma abs_parse_step k rest h : is_core k ->
  abs_parse k rest h =
  if 0 <=? rr_ridx k then
    st ← abs_item k rest h;
    match st with
    | Done k rest h => abs_parse k rest h
    | _ => Ok st
    end
  else Ok (Done k rest h).
Proof.
  intros Hk. unfold abs_parse at 1. cbn [abs_loop]. split_if; [|done].
  destruct (abs_item k rest h) as [st|] eqn:Ei; [|done]. cbn [mbind result_bind].
  pose proof (abs_item_post _ _ _ _ Hk Ei) as Hp.
  destruct st as [k' rest' h'| |]; [|done..].
  destruct Hp as [He (used & Hu & ->)]. rewrite length_app.
  apply abs_loop_fuel; [by eapply env_core|lia..].
Qed.

(** Induction along a run of the parser. *)
Lemma abs_parse_ind (P : redisReader -> bytes -> H -> Prop) :
  (forall k rest h, is_core k ->
     (forall k' rest' h', abs_item k rest h = Ok (Done k' rest' h') -> P k' rest' h') ->
     P k rest h) ->
  forall k rest h, is_core k -> P k rest h.
Proof.
  intros HP k rest. remember (length rest) as n eqn:Hn. revert k rest Hn.
  induction n as [n IH] using lt_wf_ind. intros k rest -> h Hk. apply HP; [done|].
  intros k' rest' h' Hi. destruct (abs_item_post _ _ _ _ Hk Hi) as [He (used & Hu & ->)].
  eapply IH; [|done|by eapply env_core]. rewrite length_app. lia.
Qed.

(** ** More input

    What a step does when [x] arrives behind the unread bytes. *)
Definition step_app (st : step_result) (x : bytes)
    (more : redisReader -> bytes -> H -> result step_result) : result step_result :=
  match st with
  | Done k rest h => Ok (Done k (rest ++ x) h)
  | More k rest h => more k (rest ++ x) h
  | Failed k h => Ok (Failed k h)
  end.

Lemma finish_app k rest obj h st x more :
  finish k rest obj h = Ok st -> finish k (rest ++ x) obj h = step_app st x more.
Proof.
  unfold finish, fail_oom. split_if; intros Hf; inv_ok; subst; rewrite H0; [|done].
  destruct r. by simplify_eq.
Qed.

Lemma abs_line_app k rest h st x :
  abs_line k rest h = Ok st -> abs_line k (rest ++ x) h = step_app st x abs_line.
Proof.
  unfold abs_line at 1. intros Ha. inv_ok.
  destruct (split_line rest) as [[line rest']|] eqn:Es; [|inv_ok; by subst].
  inv_ok. unfold abs_line at 1. rewrite H0. cbn [mbind result_bind].
  rewrite (split_line_app _ _ _ x Es), H1. cbn [mbind result_bind]. rewrite H2.
  destruct r1 as [obj h']. by apply finish_app.
Qed.

Lemma abs_bulk_app k rest h st x :
  abs_bulk k rest h = Ok st -> abs_bulk k (rest ++ x) h = step_app st x abs_bulk.
Proof.
  unfold abs_bulk at 1. intros Ha. inv_ok.
  destruct (split_line rest) as [[line rest']|] eqn:Es; [|inv_ok; by subst].
  inv_ok. destruct (long_long_of line <? 0) eqn:E0.
  - unfold abs_bulk at 1. rewrite H0. cbn [mbind result_bind].
    rewrite (split_line_app _ _ _ x Es), H1. cbn [mbind result_bind]. rewrite E0.
    inv_ok. rewrite H2. destruct r1. by apply finish_app.
  - destruct (long_long_of line + 2 <=? zlen rest') eqn:E1; [|inv_ok; by subst].
    unfold abs_bulk at 1. rewrite H0. cbn [mbind result_bind].
    rewrite (split_line_app _ _ _ x Es), H1. cbn [mbind result_bind]. rewrite E0.
    bool_to_prop. rewrite length_app. if_true. inv_ok.
    rewrite take_app_le by lia. rewrite H2. destruct r1. cbn [mbind result_bind].
    rewrite drop_app_le by lia. by apply finish_app.
Qed.

Lemma abs_multi_app k rest h st x :
  abs_multi k rest h = Ok st -> abs_multi k (rest ++ x) h = step_app st x abs_multi.
Proof.
  unfold abs_multi at 1. intros Ha. inv_ok. destruct (rr_ridx k =? 8) eqn:E8.
  { unfold abs_multi at 1. rewrite H0. cbn [mbind result_bind]. rewrite E8.
    inv_ok. rewrite H1. destruct r0. by simplify_eq. }
  destruct (split_line rest) as [[line rest']|] eqn:Es; [|inv_ok; by subst].
  inv_ok. unfold abs_multi at 1. rewrite H0. cbn [mbind result_bind]. rewrite E8.
  rewrite (split_line_app _ _ _ x Es), H1. cbn [mbind result_bind]. rewrite H2.
  destruct r1 as [obj h']. cbn [mbind result_bind].
  destruct (obj =? NULL).
  - unfold fail_oom in *. inv_ok. rewrite H3. destruct r1. by simplify_eq.
  - inv_ok. rewrite H3. by subst.
Qed.

Lemma abs_typed_app k rest h type st x :
  abs_typed k rest h type = Ok st ->
  abs_typed k (rest ++ x) h type =
  step_app st x (fun k rest h => abs_typed k rest h type).
Proof.
  unfold abs_typed. repeat split_if; intros Ha; [|..|done].
  - by apply abs_line_app.
  - by apply abs_bulk_app.
  - by apply abs_multi_app.
Qed.

Lemma finish_not_more k rest obj h k' rest' h' :
  finish k rest obj h <> Ok (More k' rest' h').
Proof.
  unfold finish, fail_oom. intros Hf. split_if_in Hf; inv_ok; [by destruct r|done].
Qed.

(** A step that waits for input does nothing else. *)
Lemma abs_typed_more k rest h type k' rest' h' :
  abs_typed k rest h type = Ok (More k' rest' h') -> k' = k /\ rest' = rest /\ h' = h.
Proof.
  unfold abs_typed. repeat split_if; [| |..|done].
  - unfold abs_line. intros Ha. inv_ok. destruct (split_line rest) as [[??]|].
    + inv_ok. destruct r1. by apply finish_not_more in Ha.
    + inv_ok. by simplify_eq.
  - unfold abs_bulk. intros Ha. inv_ok. destruct (split_line rest) as [[??]|].
    + inv_ok. repeat split_if_in Ha; inv_ok; try (by simplify_eq);
        destruct r1; by apply finish_not_more in Ha.
    + inv_ok. by simplify_eq.
  - unfold abs_multi. intros Ha. inv_ok. destruct (rr_ridx k =? 8).
    { inv_ok. by destruct r0. }
    destruct (split_line rest) as [[??]|]; [|inv_ok; by simplify_eq].
    inv_ok. destruct r1. cbv beta iota in Ha. split_if_in Ha.
    + unfold fail_oom in Ha. inv_ok. by destruct r1.
    + inv_ok. done.
Qed.

Lemma put_get_task k i t k' : put_task k i t = Ok k' -> get_task k' i = Ok t.
Proof.
  unfold put_task, get_task. split_if; [|done]. intros [= <-]. cbn. bool_to_prop.
  bool_false (i <? 0). rewrite list_lookup_insert_eq by lia. done.
Qed.

Lemma type_of_byte_nonneg c type : type_of_byte c = Some type -> 0 <= type.
Proof. unfold type_of_byte. repeat split_if; intros [= <-]; done. Qed.

Lemma abs_item_app k rest h st x :
  abs_item k rest h = Ok st -> abs_item k (rest ++ x) h = step_app st x abs_item.
Proof.
  unfold abs_item at 1. intros Ha. inv_ok. destruct (t_type r <? 0) eqn:Et.
  - destruct rest as [|c rest]; [inv_ok; by subst|]. unfold abs_item at 1.
    rewrite H0. cbn [mbind result_bind app]. rewrite Et.
    destruct (type_of_byte c) as [type|] eqn:Ec.
    + inv_ok. rewrite H1. cbn [mbind result_bind].
      rewrite (abs_typed_app _ _ _ _ _ x Ha).
      destruct st as [|k' rest' h'|]; [done| |done]. cbn [step_app].
      apply abs_typed_more in Ha as (-> & -> & ->). unfold abs_item.
      destruct (put_task_env _ _ _ _ H1) as (_ & -> & _).
      rewrite (put_get_task _ _ _ _ H1). cbn [mbind result_bind].
      apply type_of_byte_nonneg in Ec. cbn. by bool_false (type <? 0).
    + inv_ok. destruct r0. rewrite H1. by simplify_eq.
  - unfold abs_item at 1. rewrite H0. cbn [mbind result_bind]. rewrite Et.
    rewrite (abs_typed_app _ _ _ _ _ x Ha).
    destruct st as [|k' rest' h'|]; [done| |done]. cbn [step_app].
    apply abs_typed_more in Ha as (-> & -> & ->). unfold abs_item.
    rewrite H0. cbn [mbind result_bind]. by rewrite Et.
Qed.

(** Parsing what is there and then the rest is parsing everything. *)
Lemma abs_parse_app k rest h st x : is_core k ->
  abs_parse k rest h = Ok st -> abs_parse k (rest ++ x) h = step_app st x abs_parse.
Proof.
  intros Hk. revert k rest h Hk st. refine (abs_parse_ind _ _). intros k rest h Hk IH st.
  rewrite (abs_parse_step k rest h Hk). destruct (0 <=? rr_ridx k) eqn:Ei.
  2: { intros Ha. inv_ok. subst st. cbn [step_app].
       rewrite (abs_parse_step k (rest ++ x) h Hk). by rewrite Ei. }
  intros Ha. inv_ok. rewrite (abs_parse_step k (rest ++ x) h Hk), Ei.
  rewrite (abs_item_app _ _ _ _ x H0).
  pose proof (abs_item_post _ _ _ _ Hk H0) as Hp.
  destruct r as [k' rest' h'|k' rest' h'|k' h']; cbn [step_app mbind result_bind].
  - by apply IH.
  - inv_ok. subst st. cbn [step_app]. destruct Hp as (He & Hi & _ & _).
    rewrite (abs_parse_step k') by (by eapply env_core). by rewrite Hi, Ei.
  - inv_ok. by subst st.
Qed.

(** A fault happens on the bytes that are there. *)
Lemma finish_fault k rest obj h f x :
  finish k rest obj h = Fault f -> finish k (rest ++ x) obj h = Fault f.
Proof.
  unfold finish, fail_oom. split_if; [done|]. by destruct (moveToNextTask _).
Qed.

Lemma abs_typed_fault k rest h type f x :
  abs_typed k rest h type = Fault f -> abs_typed k (rest ++ x) h type = Fault f.
Proof.
  unfold abs_typed, abs_line, abs_bulk, abs_multi.
  destruct (get_task k (rr_ridx k)) as [cur|]; [|done]. cbn [mbind result_bind].
  destruct (split_line rest) as [[line rest']|] eqn:Es;
    [rewrite (split_line_app _ _ _ x Es)|by repeat split_if].
  destruct (get_parent k cur) as [parent|]; [|done]. cbn [mbind result_bind].
  destruct (_ || _) eqn:E1.
  { destruct (if t_type cur =? REDIS_REPLY_INTEGER then _ else _) as [[obj h']|]; [|done].
    apply finish_fault. }
  destruct (type =? REDIS_REPLY_STRING).
  { destruct (long_long_of line <? 0) eqn:E0.
    - destruct (make_nil k cur parent h) as [[obj h']|]; [|done]. apply finish_fault.
    - destruct (long_long_of line + 2 <=? zlen rest') eqn:E2; [|done]. bool_to_prop.
      rewrite length_app. if_true. rewrite take_app_le by lia.
      destruct (match fn_entry k createString with Some _ => _ | None => _ end)
        as [[obj h']|]; [|done].
      cbn [mbind result_bind]. rewrite drop_app_le by lia. apply finish_fault. }
  destruct (type =? REDIS_REPLY_ARRAY); [|done]. destruct (rr_ridx k =? 8); [done|].
  destruct (if long_long_of line =? -1 then _ else _) as [[obj h']|]; [|done].
  cbn [mbind result_bind]. split_if; [done|].
  by destruct (if 0 <? long_long_of line then _ else _).
Qed.

Lemma abs_item_fault k rest h f x :
  abs_item k rest h = Fault f -> abs_item k (rest ++ x) h = Fault f.
Proof.
  unfold abs_item. destruct (get_task k (rr_ridx k)) as [cur|]; [|done].
  cbn [mbind result_bind]. split_if; [|apply abs_typed_fault].
  destruct rest as [|c rest]; [done|]. cbn [app]. destruct (type_of_byte c); [|done].
  destruct (put_task _ _ _); [|done]. apply abs_typed_fault.
Qed.

Lemma abs_parse_fault k rest h f x : is_core k ->
  abs_parse k rest h = Fault f -> abs_parse k (rest ++ x) h = Fault f.
Proof.
  intros Hk. revert k rest h Hk. refine (abs_parse_ind _ _). intros k rest h Hk IH.
  rewrite (abs_parse_step k rest h Hk), (abs_parse_step k (rest ++ x) h Hk).
  split_if; [|done]. destruct (abs_item k rest h) as [st|] eqn:Ei.
  - rewrite (abs_item_app _ _ _ _ x Ei). by destruct st; [apply IH|..].
  - intros [= ->]. by rewrite (abs_item_fault _ _ _ _ x Ei).
Qed.

(** A complete parse consumed bytes. *)
Lemma abs_parse_consumes k rest h k' rest' h' : is_core k -> 0 <= rr_ridx k ->
  abs_parse k rest h = Ok (Done k' rest' h') -> (length rest' < length rest)%nat.
Proof.
  intros Hk Hi. rewrite abs_parse_step by done. if_true.
  destruct (abs_item k rest h) as [[k1 rest1 h1| |]|] eqn:Ei; cbn [mbind result_bind]; [|done..].
  destruct (abs_item_post _ _ _ _ Hk Ei) as [He (used & Hu & ->)]. rewrite length_app.
  assert (is_core k1) as Hk1 by by eapply env_core. clear Ei He Hi Hk.
  assert (forall st, abs_parse k1 rest1 h1 = Ok st ->
    match st with Done _ r _ => (length r <= length rest1)%nat | _ => True end) as Hle.
  { revert k1 rest1 h1 Hk1. refine (abs_parse_ind _ _). intros k1 rest1 h1 Hk1 IH st.
    rewrite abs_parse_step by done. split_if; [|by intros [= <-]].
    intros Ha. inv_ok. destruct r as [k2 rest2 h2| |]; [|by inv_ok; subst..].
    destruct (abs_item_post _ _ _ _ Hk1 H0) as [_ (u2 & ? & ->)].
    specialize (IH _ _ _ H0 _ Ha). destruct st; [|done..]. rewrite length_app. lia. }
  intros Hp. specialize (Hle _ Hp). cbn in Hle. lia.
Qed.
End stream.
