(* ===== verification/ReaderView.v ===== *)
(** * ReaderView: the reader as its users see it

    [redisReaderFeed] and [redisReaderGetReply] against an abstract reader: the
    state of the parser and the bytes it was fed and did not consume. Where
    the bytes lie in the buffer, and when the buffer is cut, cannot be seen. *)
From S2P Require Import Prelude Mem Sds SdsFacts Reply Reader ReaderSpec ReaderRefine.
From S2P Require Import ReaderStream.
From stdpp Require Import list list_numbers strings sets gmap.
From Stdlib Require Import ZArith Lia.
Open Scope Z_scope.

Section view.
Context {M : Malloc} {H : Type}.
#[local] Abbreviation redisReader := (redisReader H).
Implicit Types (k r : redisReader) (rest : bytes) (h : H).

(** ** Abstract readers *)

(** The root task is pushed when there is none. *)
Definition start k : result redisReader :=
  if rr_ridx k =? -1 then
    put_task (set_ridx k 0) 0 (mk_task (-1) (-1) (-1) NULL None (rr_privdata k))
  else Ok k.

(** A parser between two calls: started, without error, and unable to go on
    without input. *)
Record live k : Prop := {
  live_core : is_core k;
  live_err : rr_err k = 0;
  live_stack : zlen (rr_rstack k) = 9;
  live_ridx : 0 <= rr_ridx k;
  live_reply : rr_ridx k = 0 \/ rr_reply k <> NULL;
  live_idle : forall h, abs_item k [] h = Ok (More k [] h)
}.

Inductive areader : Type :=
  | Live (k : redisReader) (rest : bytes)
  | Dead (k : redisReader).

Definition areader_is (a : areader) (r : redisReader) : Prop :=
  match a with
  | Live k rest =>
      live k /\ exists k0 b c, is_core k0 /\ -1 <= rr_ridx k0 /\ start k0 = Ok k /\
        sds_is c b /\ zlen c < 2 ^ 31 - 1 /\ rest `suffix_of` c /\ r = conc b (zlen c) k0 rest
  | Dead k => r = k /\ rr_err k <> 0
  end.

(** The next reply, [NULL] if there is none yet. *)
Definition abs_get (a : areader) h : result (Z * Z * areader * H) :=
  match a with
  | Dead k => Ok (REDIS_ERR, NULL, Dead k, h)
  | Live k rest =>
      st ← abs_parse k rest h;
      match st with
      | Done k' rest' h' =>
          k'' ← start (set_reply k' NULL);
          Ok (REDIS_OK, rr_reply k', Live k'' rest', h')
      | More k' rest' h' => Ok (REDIS_OK, NULL, Live k' rest', h')
      | Failed k' h' => Ok (REDIS_ERR, NULL, Dead k', h')
      end
  end.

(** ** Live parsers *)
Lemma moveToNextTask_ridx k k' :
  -1 <= rr_ridx k -> moveToNextTask k = Ok k' -> -1 <= rr_ridx k'.
Proof.
  unfold moveToNextTask. generalize (S (S (Z.to_nat (rr_ridx k)))) as n.
  intros n. revert k. induction n as [|n IH]; [done|]. intros k Hk. cbn [moveToNextTask_fuel].
  split_if; [|by intros [= <-]]. split_if; [intros [= <-]; cbn; lia|].
  intros Hm. inv_ok. split_if_in Hm.
  - apply IH in Hm; [done|cbn; lia].
  - inv_ok. by apply put_task_env in Hm as (_ & -> & _).
Qed.

Definition advanced (st : step_result (H := H)) : Prop :=
  match st with
  | Done k' _ _ => rr_reply k' <> NULL /\ -1 <= rr_ridx k'
  | _ => True
  end.

Definition ready k : Prop := 0 <= rr_ridx k /\ (rr_ridx k = 0 \/ rr_reply k <> NULL).

Lemma finish_advanced k rest obj h st : ready k ->
  finish k rest obj h = Ok st -> advanced st.
Proof.
  intros [H0 H1]. unfold finish, fail_oom. split_if; intros Hf; inv_ok.
  - destruct r. by simplify_eq.
  - subst st. pose proof (moveToNextTask_env _ _ H2) as [_ Hr].
    apply moveToNextTask_ridx in H2; [|split_if; cbn; lia].
    split; [|done]. rewrite Hr. split_if; [done|]. naive_solver.
Qed.

Lemma abs_typed_advanced k rest h type st : ready k ->
  abs_typed k rest h type = Ok st -> advanced st.
Proof.
  intros Hk. unfold abs_typed. repeat split_if; intros Ha; [| |..|done].
  - unfold abs_line in Ha. inv_ok. destruct (split_line rest) as [[??]|]; inv_ok; [|by subst].
    destruct r1. by eapply finish_advanced.
  - unfold abs_bulk in Ha. inv_ok. destruct (split_line rest) as [[??]|]; inv_ok; [|by subst].
    repeat split_if_in Ha; inv_ok; try (by subst); destruct r1; by eapply finish_advanced.
  - unfold abs_multi in Ha. inv_ok. destruct (rr_ridx k =? 8).
    { inv_ok. destruct r0. by simplify_eq. }
    destruct (split_line rest) as [[??]|]; inv_ok; [|by subst].
    destruct r1 as [obj h']. cbv beta iota in Ha. split_if_in Ha.
    { unfold fail_oom in Ha. inv_ok. destruct r1. by simplify_eq. }
    inv_ok. subst st. destruct Hk as [K0 K1].
    split_if_in H6.
    + unfold push_task in H6. inv_ok.
      apply put_task_env in H6 as (_ & Hi & Hr). apply put_task_env in H7 as (_ & Hi' & Hr').
      cbn in Hi, Hr. split_if; cbn; rewrite ?Hi, ?Hr, ?Hi', ?Hr'; split; try lia; naive_solver.
    + pose proof (moveToNextTask_env _ _ H6) as [_ Hr].
      apply moveToNextTask_ridx in H6; [|lia]. split_if; cbn; rewrite ?Hr; naive_solver.
Qed.

Lemma abs_item_advanced k rest h st : ready k ->
  abs_item k rest h = Ok st -> advanced st.
Proof.
  intros Hk Ha. unfold abs_item in Ha. inv_ok.
  split_if_in Ha; [|by eapply abs_typed_advanced].
  destruct rest as [|x rest]; [inv_ok; by subst|].
  destruct (type_of_byte x); inv_ok; [|destruct r0; by simplify_eq].
  eapply abs_typed_advanced; [|done]. unfold ready in *.
  by destruct (put_task_env _ _ _ _ H1) as (_ & -> & ->).
Qed.

(** A parser that waits for input does nothing without input. *)
Lemma abs_typed_idle k rest h type k' rest' h' h0 :
  abs_typed k rest h type = Ok (More k' rest' h') ->
  abs_typed k [] h0 type = Ok (More k [] h0).
Proof.
  unfold abs_typed, abs_line, abs_bulk, abs_multi.
  destruct (get_task k (rr_ridx k)) as [cur|]; cbn [mbind result_bind];
    repeat split_if; intros Ha; try done.
  inv_ok. by destruct r.
Qed.

Lemma abs_item_idle k rest h k' rest' h' h0 :
  abs_item k rest h = Ok (More k' rest' h') -> abs_item k' [] h0 = Ok (More k' [] h0).
Proof.
  unfold abs_item at 1. intros Ha. inv_ok. split_if_in Ha.
  - destruct rest as [|x rest].
    + inv_ok. simplify_eq. unfold abs_item. rewrite H0. cbn. by if_true.
    + destruct (type_of_byte x) as [type|] eqn:Ec; inv_ok; [|by destruct r0].
      pose proof (abs_typed_more _ _ _ _ _ _ _ Ha) as (-> & -> & ->).
      unfold abs_item. destruct (put_task_env _ _ _ _ H1) as (_ & -> & _).
      rewrite (put_get_task _ _ _ _ H1). cbn [mbind result_bind].
      apply type_of_byte_nonneg in Ec. cbn. bool_false (type <? 0).
      by eapply abs_typed_idle.
  - pose proof (abs_typed_more _ _ _ _ _ _ _ Ha) as (-> & -> & ->).
    unfold abs_item. rewrite H0. cbn [mbind result_bind]. bool_false (t_type r <? 0).
    by eapply abs_typed_idle.
Qed.

Definition parse_post k rest (st : step_result (H := H)) : Prop :=
  match st with
  | Done k' rest' _ =>
      env k' = env k /\ rr_ridx k' = -1 /\ rr_reply k' <> NULL /\ rest' `suffix_of` rest
  | More k' rest' _ =>
      env k' = env k /\ ready k' /\ (forall h, abs_item k' [] h = Ok (More k' [] h)) /\
      rest' `suffix_of` rest
  | Failed k' _ => rr_buf k' = None /\ rr_err k' <> 0 /\ rr_ridx k' = -1
  end.

Lemma parse_post_trans k rest k1 rest1 st :
  env k1 = env k -> rest1 `suffix_of` rest -> parse_post k1 rest1 st -> parse_post k rest st.
Proof.
  intros He Hs. destruct st; cbn; rewrite ?He; [| |done].
  - intros (? & ? & ? & ?). split_and!; [done..|]. by etrans.
  - intros (? & ? & ? & ?). split_and!; [done..|]. by etrans.
Qed.

Lemma abs_parse_post k rest h : is_core k -> forall st,
  ready k \/ (rr_ridx k = -1 /\ rr_reply k <> NULL) ->
  abs_parse k rest h = Ok st -> parse_post k rest st.
Proof.
  revert k rest h. refine (abs_parse_ind _ _). intros k rest h Hk IH st Hr.
  rewrite abs_parse_step by done. split_if.
  2: { intros [= <-]. destruct Hr as [[? ?]|[? ?]]; [lia|]. by split_and!. }
  destruct Hr as [Hr|[? ?]]; [|lia]. intros Ha. inv_ok.
  pose proof (abs_item_post _ _ _ _ Hk H0) as Hp.
  pose proof (abs_item_advanced _ _ _ _ Hr H0) as Hadv.
  destruct r as [k1 rest1 h1|k1 rest1 h1|k1 h1]; [|inv_ok; subst st..].
  - destruct Hp as [He (used & Hu & Hrest)]. destruct Hadv as [A1 A2].
    eapply parse_post_trans; [done|by exists used|]. eapply IH; [done| |done].
    destruct (decide (rr_ridx k1 = -1)); [by right|left]. split; [lia|by right].
  - destruct Hp as (He & Hi & Hr' & Hs). split_and!; [done| | |done].
    + unfold ready. by rewrite Hi, Hr'.
    + intros h0. by eapply abs_item_idle.
  - done.
Qed.

(** ** The concrete loop *)
Definition loop_view (b : sds) (L : Z) (st : step_result (H := H)) : redisReader * H :=
  match st with
  | Done k rest h | More k rest h => (conc b L k rest, h)
  | Failed k h => (k, h)
  end.

Lemma process_loop_conc b c : sds_is c b -> zlen c < 2 ^ 31 ->
  forall fuel k rest h, is_core k -> rest `suffix_of` c -> (length rest < fuel)%nat ->
  process_loop fuel (conc b (zlen c) k rest) h = loop_view b (zlen c) <$> abs_parse k rest h.
Proof.
  intros Hb Hc fuel k rest h Hk. revert k rest h Hk fuel. refine (abs_parse_ind _ _).
  intros k rest h Hk IH [|fuel] Hr Hf; [lia|]. cbn [process_loop].
  rewrite abs_parse_step by done. change (rr_ridx (conc b (zlen c) k rest)) with (rr_ridx k).
  split_if; [|done]. rewrite (processItem_conc b c (zlen c)) by done.
  destruct (abs_item k rest h) as [st|] eqn:Ei; [|done]. cbn [fmap result_map mbind result_bind].
  pose proof (abs_item_post _ _ _ _ Hk Ei) as Hp.
  destruct st as [k' rest' h'|k' rest' h'|k' h']; cbn; [|done..].
  destruct Hp as [He (used & Hu & ->)]. apply IH; [done| |rewrite length_app in *; lia].
  etrans; [|done]. by exists used.
Qed.

Lemma start_ready k0 k : -1 <= rr_ridx k0 -> start k0 = Ok k -> env k = env k0 /\ 0 <= rr_ridx k.
Proof.
  unfold start. intros Hi. split_if.
  - intros Hp. apply put_task_env in Hp as (He & Hi' & _). rewrite Hi'. cbn. done.
  - intros [= <-]. split; [done|lia].
Qed.

Lemma start_conc b L k0 rest :
  (if rr_ridx (conc b L k0 rest) =? -1 then
     put_task (set_ridx (conc b L k0 rest) 0) 0
       (mk_task (-1) (-1) (-1) NULL None (rr_privdata (conc b L k0 rest)))
   else Ok (conc b L k0 rest)) = (fun k => conc b L k rest) <$> start k0.
Proof.
  unfold start. change (rr_ridx (conc b L k0 rest)) with (rr_ridx k0). split_if; [|done].
  change (set_ridx (conc b L k0 rest) 0) with (conc b L (set_ridx k0 0) rest).
  apply put_task_conc.
Qed.

(** Starting the next reply after one was returned. *)
Lemma start_next k' : is_core k' -> rr_err k' = 0 -> zlen (rr_rstack k') = 9 ->
  rr_ridx k' = -1 ->
  exists k, start (set_reply k' NULL) = Ok k /\ live k.
Proof.
  intros Hc He Hs Hi. unfold start. change (rr_ridx (set_reply k' NULL)) with (rr_ridx k').
  bool_true (rr_ridx k' =? -1). destruct (put_task _ 0 _) as [k|] eqn:Ek.
  2: { unfold put_task in Ek. cbn in Ek. rewrite Hs in Ek. done. }
  exists k. split; [done|]. pose proof (put_get_task _ _ _ _ Ek) as Hg.
  apply put_task_env in Ek as (Ee & Ei & Er). cbn in Ei, Er. injection Ee as Ee.
  split.
  - unfold is_core in *. cbn in *. naive_solver congruence.
  - cbn in *. congruence.
  - cbn in *. lia.
  - lia.
  - by left.
  - intros h. unfold abs_item. by rewrite Ei, Hg.
Qed.

(** ** The public functions *)

(** Cutting the consumed bytes off the buffer. *)
Lemma discard_conc b c k rest : sds_is c b -> zlen c < 2 ^ 31 - 1 -> rest `suffix_of` c ->
  exists b' c', sds_is c' b' /\ zlen c' <= zlen c /\ rest `suffix_of` c' /\
    (if 1024 <=? rr_pos (conc b (zlen c) k rest) then
       buf ← deref (rr_buf (conc b (zlen c) k rest));
       buf ← sdsrange buf (s32 (rr_pos (conc b (zlen c) k rest))) (-1);
       Ok (set_input (conc b (zlen c) k rest) (Some buf) 0 (sdslen buf))
     else Ok (conc b (zlen c) k rest)) = Ok (conc b' (zlen c') k rest).
Proof.
  intros Hb Hc [p ->]. rewrite length_app in *. cbn. split_if.
  2: { exists b, (p ++ rest). rewrite length_app. split_and!; [done|lia|by exists p|done]. }
  replace (Z.of_nat (length p + length rest) - zlen rest) with (zlen p) in * by lia.
  rewrite s32_id by lia.
  destruct (sdsrange_spec b (p ++ rest) (zlen p) (-1)) as (b' & Hr & Hb');
    [done|rewrite length_app; lia|lia|lia|].
  assert (range_spec (p ++ rest) (zlen p) (-1) = rest) as Hrange.
  { unfold range_spec. rewrite length_app. if_false. if_true.
    rewrite Nat2Z.id, drop_app_length. apply take_ge. lia. }
  rewrite Hrange in Hb'. exists b', rest. split_and!; [done|lia|done|].
  rewrite Hr. cbn. unfold conc, set_input. cbn. rewrite (sds_is_len _ _ Hb').
  do 2 f_equal. lia.
Qed.

Lemma areader_conc k rest k0 b c :
  live k -> is_core k0 -> -1 <= rr_ridx k0 -> start k0 = Ok k -> sds_is c b ->
  zlen c < 2 ^ 31 - 1 -> rest `suffix_of` c ->
  areader_is (Live k rest) (conc b (zlen c) k0 rest).
Proof. intros. split; [done|]. by exists k0, b, c. Qed.

Lemma start_live k : live k -> start k = Ok k.
Proof. intros []. unfold start. by bool_false (rr_ridx k =? -1). Qed.

Lemma live_env k k' : live k -> env k' = env k ->
  is_core k' /\ rr_err k' = 0 /\ zlen (rr_rstack k') = 9.
Proof.
  intros [] He. split; [by eapply env_core|]. injection He as He. split; congruence.
Qed.

Lemma live_next k k' : live k -> env k' = env k -> ready k' ->
  (forall h, abs_item k' [] h = Ok (More k' [] h)) -> live k'.
Proof.
  intros Hl He [? ?] Hi. destruct (live_env k k') as (? & ? & ?); [done..|]. by split.
Qed.

Definition get_result (want : bool) (r : redisReader)
    (m : result (Z * option Z * redisReader * H)) (o : result (Z * Z * areader * H)) : Prop :=
  match o with
  | Ok (st, out, a, h') =>
      exists r', m = Ok (st, if want then Some out else None, r', h') /\ areader_is a r' /\
        match a with Live _ _ => rr_len r' <= rr_len r | Dead _ => True end
  | Fault f => m = Fault f
  end.

Lemma getReply_spec a r h want :
  areader_is a r -> get_result want r (redisReaderGetReply r h want) (abs_get a h).
Proof.
  destruct a as [k rest|k]; cbn [areader_is abs_get].
  2: { intros [-> He]. unfold redisReaderGetReply. bool_false (rr_err k =? 0).
       exists k. by destruct want. }
  intros (Hl & k0 & b & c & Hk0 & Hi0 & Hst & Hb & Hc & Hs & ->).
  pose proof (start_ready _ _ Hi0 Hst) as [He Hi].
  assert (rr_err k0 = 0) as Herr.
  { destruct (live_env k k0) as (_ & ? & _); done. }
  unfold redisReaderGetReply. change (rr_err (conc b (zlen c) k0 rest)) with (rr_err k0).
  rewrite Herr. cbn [Z.eqb negb]. change (rr_len (conc b (zlen c) k0 rest)) with (zlen c).
  destruct (zlen c =? 0) eqn:E0; bool_to_prop.
  { destruct c; [|done]. apply suffix_nil_inv in Hs as ->.
    rewrite abs_parse_step by apply Hl. if_true. rewrite (live_idle _ Hl).
    cbn [mbind result_bind get_result].
    exists (conc b 0 k0 []). split; [by destruct want|]. split; [|done].
    by apply (areader_conc k [] k0 b []). }
  rewrite start_conc, Hst. cbn [fmap result_map mbind result_bind].
  change (rr_len (conc b (zlen c) k rest) - rr_pos (conc b (zlen c) k rest))
    with (zlen c - (zlen c - zlen rest)).
  rewrite (process_loop_conc b c) by first [done|apply Hl|lia].
  destruct (abs_parse k rest h) as [st|] eqn:Ep; [|done].
  cbn [fmap result_map mbind result_bind].
  apply abs_parse_post in Ep; [|apply Hl|left; by destruct Hl].
  destruct st as [k' rest' h'|k' rest' h'|k' h']; cbn [loop_view].
  - destruct Ep as (Ee & Ei & Er & Ers). destruct (live_env k k') as (C1 & C2 & C3); [done..|].
    change (rr_err (conc b (zlen c) k' rest')) with (rr_err k'). rewrite C2. cbn [Z.eqb negb].
    destruct (discard_conc b c k' rest') as (b' & c' & Hb' & Hc' & Hs' & ->);
      [done..|by etrans|]. cbn [mbind result_bind].
    change (rr_ridx (conc b' (zlen c') k' rest')) with (rr_ridx k').
    bool_true (rr_ridx k' =? -1).
    destruct (start_next k') as (k'' & Hst' & Hl'); [done..|]. rewrite Hst'.
    cbn [mbind result_bind get_result].
    exists (conc b' (zlen c') (set_reply k' NULL) rest'). split; [by destruct want|].
    split; [|cbn; lia]. apply areader_conc; try done; cbn; lia.
  - destruct Ep as (Ee & Ei & Er & Ers). destruct (live_env k k') as (C1 & C2 & C3); [done..|].
    change (rr_err (conc b (zlen c) k' rest')) with (rr_err k'). rewrite C2. cbn [Z.eqb negb].
    destruct (discard_conc b c k' rest') as (b' & c' & Hb' & Hc' & Hs' & ->);
      [done..|by etrans|]. cbn [mbind result_bind].
    change (rr_ridx (conc b' (zlen c') k' rest')) with (rr_ridx k').
    destruct Ei as [Ei Ei']. bool_false (rr_ridx k' =? -1). cbn [get_result].
    assert (live k') as Hl' by by apply (live_next k).
    exists (conc b' (zlen c') k' rest'). split; [by destruct want|]. split; [|cbn; lia].
    apply areader_conc; try done; [lia|by apply start_live|lia].
  - destruct Ep as (_ & Ee & _). bool_false (rr_err k' =? 0). cbn [get_result negb].
    exists k'. by destruct want.
Qed.

Definition abs_feed (a : areader) (x : bytes) : areader :=
  match a with
  | Live k rest => Live k (rest ++ x)
  | Dead k => Dead k
  end.

(** The capacity left for input: the positions of the reader are [int]s. *)
Definition room (r : redisReader) (n : Z) : Prop := rr_len r + n < 2 ^ 31 - 1.

(** Feeding bytes: the code appends them, or fails because of the allocator. *)
Lemma feed_live k rest r h x m :
  (forall n, malloc_ok n = true) -> areader_is (Live k rest) r -> 1 <= zlen x ->
  room r (zlen x) ->
  exists r', redisReaderFeed r h (Some (x ++ m)) (zlen x) = Ok (REDIS_OK, r', h) /\
    areader_is (Live k (rest ++ x)) r' /\ rr_len r' = rr_len r + zlen x.
Proof.
  intros HM (Hl & k0 & b & c & Hk0 & Hi0 & Hst & Hb & Hc & Hs & ->) Hx Hroom.
  pose proof (start_ready _ _ Hi0 Hst) as [He Hi].
  assert (rr_err k0 = 0) as Herr by (destruct (live_env k k0) as (_ & ? & _); done).
  unfold redisReaderFeed. change (rr_err (conc b (zlen c) k0 rest)) with (rr_err k0).
  rewrite Herr. cbn [Z.eqb negb]. bool_true (1 <=? zlen x).
  change (rr_buf (conc b (zlen c) k0 rest)) with (Some b). cbn [deref mbind result_bind].
  unfold room in Hroom. cbn in Hroom.
  set (reset := (if _ && _ then _ else _) : result redisReader).
  assert (exists b1, sds_is c b1 /\ reset = Ok (conc b1 (zlen c) k0 rest)) as (b1 & Hb1 & ->).
  { unfold reset. destruct (_ && _) eqn:Ec; [|by exists b].
    apply andb_prop in Ec as [Ec _]. apply andb_prop in Ec as [Ec _]. apply Z.eqb_eq in Ec.
    cbn in Ec. destruct c; [|done]. apply suffix_nil_inv in Hs as ->.
    destruct (returns_ok _ _ HM sdsempty_spec) as (b1 & -> & Hb1).
    exists b1. split; [done|]. done. }
  cbn [mbind result_bind].
  change (rr_buf (conc b1 (zlen c) k0 rest)) with (Some b1). cbn [deref mbind result_bind].
  destruct (returns_ok _ _ HM (sdscatlen_spec b1 c x m Hb1 ltac:(lia))) as (b2 & -> & Hb2).
  cbn [mbind result_bind]. eexists. split; [done|]. split.
  - replace (set_input _ (Some b2) _ _) with (conc b2 (zlen (c ++ x)) k0 (rest ++ x)).
    { apply areader_conc; try done; [rewrite length_app; lia|].
      destruct Hs as [p ->]. exists p. by rewrite app_assoc. }
    unfold conc, set_input. cbn. rewrite (sds_is_len _ _ Hb2), !length_app. f_equal. lia.
  - cbn. rewrite (sds_is_len _ _ Hb2), length_app. lia.
Qed.

Lemma feed_dead k r h x : areader_is (Dead k) r ->
  redisReaderFeed r h x (from_option (fun b => zlen b) 0 x) = Ok (REDIS_ERR, r, h).
Proof. intros [-> He]. unfold redisReaderFeed. by bool_false (rr_err k =? 0). Qed.

(** A new reader is an abstract reader with nothing to read. *)
Definition new_core (fn : option (redisReplyObjectFunctions H)) : redisReader :=
  mk_reader 0 [] None 0 0 REDIS_READER_MAX_BUF
    (mk_task (-1) (-1) (-1) NULL None NULL :: replicate 8 null_task) 0 NULL fn NULL.

Lemma new_core_live fn : live (new_core fn).
Proof. split; try done. by left. Qed.

Lemma create_live fn : (forall n, malloc_ok n = true) ->
  exists r, redisReaderCreateWithFunctions fn = Ok (Some r) /\
    areader_is (Live (new_core fn) []) r /\ rr_len r = 0.
Proof.
  intros HM. unfold redisReaderCreateWithFunctions. rewrite HM. cbn [negb].
  destruct (returns_ok _ _ HM sdsempty_spec) as (b & -> & Hb). cbn [mbind result_bind].
  eexists. split; [done|]. split; [|done]. split; [apply new_core_live|].
  exists (mk_reader 0 [] None 0 0 REDIS_READER_MAX_BUF (replicate 9 null_task) (-1) NULL fn NULL),
    b, [].
  by split_and!.
Qed.
End view.
