(* ===== verification/Streaming.v ===== *)
(** * Streaming: the reader behind its public functions

    A client feeds bytes as they arrive and takes replies until there is none
    ([drain], the loop of [redisProcessCallbacks] and of [redisGetReply]). What it gets does
    not depend on how the bytes were cut ([stream_split]). *)
From S2P Require Import Prelude Mem Sds SdsFacts Reply Reader ReaderSpec ReaderRefine.
From S2P Require Import ReaderStream ReaderView.
From stdpp Require Import list list_numbers strings sets gmap.
From Stdlib Require Import ZArith Lia.
Open Scope Z_scope.

Section client.
Context {M : Malloc} {H : Type}.
#[local] Abbreviation redisReader := (redisReader H).
Implicit Types (k r : redisReader) (rest : bytes) (h : H) (a : areader (H := H)).

(** Replies until there is none, and the status of the last call. *)
Fixpoint drain (fuel : nat) r h : result (list Z * Z * redisReader * H) :=
  match fuel with
  | O => Fault OutOfFuel
  | S f =>
      '(st, out, r, h) ← redisReaderGetReply r h true;
      let p := default NULL out in
      if (st =? REDIS_OK) && negb (p =? NULL) then
        '(ps, st, r, h) ← drain f r h; Ok (p :: ps, st, r, h)
      else Ok ([], st, r, h)
  end.

Definition drain_all r h := drain (S (Z.to_nat (rr_len r - rr_pos r))) r h.

(** One chunk, fed and drained; then a list of chunks. *)
Definition feed_drain r h (x : bytes) : result (list Z * Z * redisReader * H) :=
  '(_, r, h) ← redisReaderFeed r h (Some x) (zlen x); drain_all r h.

Fixpoint drive r h (xs : list bytes) : result (list Z * Z * redisReader * H) :=
  match xs with
  | [] => Ok ([], REDIS_OK, r, h)
  | [x] => feed_drain r h x
  | x :: xs =>
      '(ps, _, r, h) ← feed_drain r h x;
      '(qs, st, r, h) ← drive r h xs;
      Ok (ps ++ qs, st, r, h)
  end.

(** Readers that no sequence of calls can tell apart. *)
Definition same_view (r1 r2 : redisReader) : Prop :=
  exists a, areader_is a r1 /\ areader_is a r2.

(** ** The abstract client *)
Fixpoint abs_drain (fuel : nat) a h : result (list Z * Z * areader * H) :=
  match fuel with
  | O => Fault OutOfFuel
  | S f =>
      '(st, p, a, h) ← abs_get a h;
      if (st =? REDIS_OK) && negb (p =? NULL) then
        '(ps, st, a, h) ← abs_drain f a h; Ok (p :: ps, st, a, h)
      else Ok ([], st, a, h)
  end.

Lemma abs_drain_S f a h :
  abs_drain (S f) a h =
  '(st, p, a, h) ← abs_get a h;
  if (st =? REDIS_OK) && negb (p =? NULL) then
    '(ps, st, a, h) ← abs_drain f a h; Ok (p :: ps, st, a, h)
  else Ok ([], st, a, h).
Proof. done. Qed.

Definition unread a : nat :=
  match a with
  | Live _ rest => length rest
  | Dead _ => O
  end.

Definition alive a : Prop :=
  match a with
  | Live k _ => live k
  | Dead k => rr_err k <> 0
  end.

Lemma abs_get_alive a h st p a' h' : alive a -> abs_get a h = Ok (st, p, a', h') ->
  alive a' /\ (st = REDIS_OK -> p <> NULL -> (unread a' < unread a)%nat) /\
  (unread a' <= unread a)%nat.
Proof.
  destruct a as [k rest|k]; cbn; [|by intros ? [= <- <- <- <-]].
  intros Hl Ha. inv_ok. pose proof (abs_parse_post _ _ _ (live_core _ Hl) _
    (or_introl (conj (live_ridx _ Hl) (live_reply _ Hl))) H0) as Hp.
  destruct r as [k' rest' h1|k' rest' h1|k' h1].
  - destruct Hp as (He & Hi & Hr & Hs).
    destruct (live_env k k') as (C1 & C2 & C3); [done..|].
    destruct (start_next k') as (k'' & Hst & Hl'); [done..|].
    rewrite Hst in Ha. cbn in Ha. simplify_eq. cbn.
    apply abs_parse_consumes in H0; [|by apply Hl..]. split; [done|]. lia.
  - simplify_eq. destruct Hp as (He & Hr & Hi & Hs). cbn.
    split; [by apply (live_next k)|]. split; [done|]. by apply suffix_length.
  - simplify_eq. cbn. split; [apply Hp|]. split; [done|lia].
Qed.

Lemma abs_drain_fuel n m a h : alive a -> (unread a < n)%nat -> (unread a < m)%nat ->
  abs_drain n a h = abs_drain m a h.
Proof.
  revert m a h. induction n as [|n IH]; intros [|m] a h Ha Hn Hm; try lia. cbn [abs_drain].
  destruct (abs_get a h) as [[[[st p] a'] h']|] eqn:Eg; [|done]. cbn [mbind result_bind].
  destruct (abs_get_alive _ _ _ _ _ _ Ha Eg) as (Ha' & Hlt & _).
  destruct (_ && _) eqn:Ec; [|done]. bool_to_prop. specialize (Hlt ltac:(done) ltac:(done)).
  by rewrite (IH m) by (done || lia).
Qed.

(** Draining what is there, then feeding and draining again. *)
Lemma abs_get_feed a x h st p a' h' : alive a -> abs_get a h = Ok (st, p, a', h') ->
  abs_get (abs_feed a x) h =
  if (st =? REDIS_OK) && (p =? NULL) then abs_get (abs_feed a' x) h'
  else Ok (st, p, abs_feed a' x, h').
Proof.
  destruct a as [k rest|k]; cbn [abs_get abs_feed]; [|by intros _ [= <- <- <- <-]].
  intros Hl Ha. inv_ok. rewrite (abs_parse_app _ _ _ _ x (live_core _ Hl) H0).
  pose proof (abs_parse_post _ _ _ (live_core _ Hl) _
    (or_introl (conj (live_ridx _ Hl) (live_reply _ Hl))) H0) as Hp.
  destruct r as [k' rest' h1|k' rest' h1|k' h1]; cbn [step_app mbind result_bind].
  - inv_ok. simplify_eq. rewrite H1. cbn. bool_false (rr_reply k' =? NULL); done.
  - simplify_eq. done.
  - by simplify_eq.
Qed.

Lemma abs_get_fault a x h f : alive a -> abs_get a h = Fault f -> abs_get (abs_feed a x) h = Fault f.
Proof.
  destruct a as [k rest|k]; cbn [alive abs_get abs_feed]; [|done]. intros Hl.
  destruct (abs_parse k rest h) as [st|f'] eqn:Ep.
  - cbn [mbind result_bind]. intros Ha. destruct st; [|done..].
    rewrite (abs_parse_app _ _ _ _ x (live_core _ Hl) Ep). cbn.
    by destruct (start _).
  - intros [= ->]. by rewrite (abs_parse_fault _ _ _ _ x (live_core _ Hl) Ep).
Qed.

Definition app_replies (ps : list Z) (m : result (list Z * Z * areader (H := H) * H)) :=
  '(qs, st, a, h) ← m; Ok (ps ++ qs, st, a, h).

Lemma app_replies_nil m : app_replies [] m = m.
Proof. by destruct m as [[[[? ?] ?] ?]|]. Qed.

Lemma unread_feed a x : (unread (abs_feed a x) <= unread a + length x)%nat.
Proof. destruct a; cbn; [|lia]. by rewrite length_app. Qed.

Lemma alive_feed a x : alive a -> alive (abs_feed a x).
Proof. by destruct a. Qed.

Lemma abs_get_dead a h st p a' h' : alive a -> abs_get a h = Ok (st, p, a', h') ->
  st <> REDIS_OK -> exists k, a' = Dead k /\ st = REDIS_ERR /\ rr_err k <> 0.
Proof.
  intros Hl Ha Hs. destruct (abs_get_alive _ _ _ _ _ _ Hl Ha) as [Hl' _].
  destruct a as [k rest|k]; cbn in Ha; [|simplify_eq; by exists k].
  inv_ok. destruct r; inv_ok; simplify_eq; try done. by eexists.
Qed.

Lemma abs_drain_alive n a h ps st a' h' : alive a -> abs_drain n a h = Ok (ps, st, a', h') ->
  alive a' /\ (unread a' <= unread a)%nat.
Proof.
  revert a h ps. induction n as [|n IH]; [done|]. intros a h ps Hl. cbn [abs_drain].
  destruct (abs_get a h) as [[[[st1 p] a1] h1]|] eqn:Eg; [|done]. cbn [mbind result_bind].
  destruct (abs_get_alive _ _ _ _ _ _ Hl Eg) as (Hl' & _ & Hle).
  split_if; [|intros; by simplify_eq].
  destruct (abs_drain n a1 h1) as [[[[ps1 st2] a2] h2]|] eqn:Ed; [|done].
  intros [= <- <- <- <-]. destruct (IH _ _ _ Hl' Ed). split; [done|lia].
Qed.

Lemma abs_drain_feed n a x h N : alive a -> (unread a < n)%nat ->
  (unread a + length x < N)%nat ->
  abs_drain N (abs_feed a x) h =
  '(ps, _, a', h') ← abs_drain n a h; app_replies ps (abs_drain N (abs_feed a' x) h').
Proof.
  revert a h N. induction n as [|n IH]; [lia|]. intros a h [|N] Hl Hn HN; [lia|].
  rewrite (abs_drain_S N), (abs_drain_S n).
  destruct (abs_get a h) as [[[[st p] a'] h']|f] eqn:Eg.
  2: { by rewrite (abs_get_fault _ _ _ _ Hl Eg). }
  cbn [mbind result_bind]. rewrite (abs_get_feed _ _ _ _ _ _ _ Hl Eg).
  destruct (abs_get_alive _ _ _ _ _ _ Hl Eg) as (Hl' & Hlt & Hle).
  destruct (st =? REDIS_OK) eqn:Es; bool_to_prop; cbn [andb].
  - destruct (p =? NULL) eqn:Ep; cbn [negb mbind result_bind].
    { rewrite app_replies_nil, abs_drain_S. done. }
    bool_to_prop. specialize (Hlt Es Ep). rewrite Es. cbn [andb Z.eqb REDIS_OK].
    bool_false (p =? NULL). cbn [negb]. rewrite (IH a' h' N Hl') by lia.
    destruct (abs_drain n a' h') as [[[[ps st1] a1] h1]|] eqn:Ed; [|done].
    cbn [mbind result_bind]. destruct (abs_drain_alive _ _ _ _ _ _ _ Hl' Ed) as [Hl1 Hle1].
    pose proof (unread_feed a1 x).
    rewrite (abs_drain_fuel N (S N)) by (by apply alive_feed || lia).
    by destruct (abs_drain (S N) (abs_feed a1 x) h1) as [[[[? ?] ?] ?]|].
  - destruct (abs_get_dead _ _ _ _ _ _ Hl Eg Es) as (k & -> & -> & Hk). done.
Qed.

(** ** The concrete client *)
Definition sim (L : Z) (o : result (list Z * Z * areader (H := H) * H))
    (m : result (list Z * Z * redisReader * H)) : Prop :=
  match o with
  | Ok (ps, st, a, h) =>
      exists r', m = Ok (ps, st, r', h) /\ areader_is a r' /\
        match a with Live _ _ => rr_len r' <= L | Dead _ => True end
  | Fault f => m = Fault f
  end.

Lemma areader_alive a r : areader_is a r -> alive a.
Proof. destruct a; cbn; [by intros [? _]|by intros [-> ?]]. Qed.

Lemma drain_sim n a r h : areader_is a r -> (unread a < n)%nat ->
  sim (rr_len r) (abs_drain n a h) (drain n r h).
Proof.
  revert a r h. induction n as [|n IH]; [lia|]. intros a r h Hr Hn. cbn [abs_drain drain].
  pose proof (getReply_spec a r h true Hr) as Hg.
  destruct (abs_get a h) as [[[[st p] a'] h']|f] eqn:Eg; cbn [get_result] in Hg.
  2: by rewrite Hg.
  destruct Hg as (r' & -> & Hr' & Hlen). cbn [mbind result_bind default from_option].
  destruct (abs_get_alive _ _ _ _ _ _ (areader_alive _ _ Hr) Eg) as (Hl' & Hlt & Hle).
  destruct (_ && _) eqn:Ec.
  - bool_to_prop. specialize (Hlt ltac:(done) ltac:(done)).
    pose proof (IH a' r' h' Hr' ltac:(lia)) as Hs.
    destruct (abs_drain n a' h') as [[[[ps st1] a1] h1]|] eqn:Ed; cbn [sim] in Hs.
    + destruct Hs as (r1 & -> & Hr1 & Hlen1). cbn [mbind result_bind sim].
      exists r1. split; [done|]. split; [done|]. destruct a1 as [k1 rest1|]; [|done].
      destruct a' as [|k']; [lia|].
      destruct n; [done|]. cbn in Ed. simplify_eq.
    + by rewrite Hs.
  - cbn [sim]. by exists r'.
Qed.

Hypothesis malloc_total : forall n, malloc_ok n = true.

Lemma unread_pos k rest r : areader_is (Live k rest) r ->
  Z.to_nat (rr_len r - rr_pos r) = length rest.
Proof. intros (_ & k0 & b & c & _ & _ & _ & _ & _ & [p ->] & ->). cbn. slia. Qed.

Definition has_room a r (n : Z) : Prop :=
  match a with
  | Live _ _ => room r n
  | Dead _ => True
  end.

Lemma feed_drain_sim a r h x n : areader_is a r -> 1 <= zlen x -> has_room a r (zlen x) ->
  (unread a + length x < n)%nat ->
  sim (rr_len r + zlen x) (abs_drain n (abs_feed a x) h) (feed_drain r h x).
Proof.
  intros Hr Hx Hroom Hn. unfold feed_drain, drain_all. destruct a as [k rest|k].
  - destruct (feed_live k rest r h x [] malloc_total Hr Hx Hroom) as (r' & Hf & Hr' & Hlen).
    rewrite app_nil_r in Hf. rewrite Hf. cbn [mbind result_bind].
    rewrite (unread_pos _ _ _ Hr'), <- Hlen. cbn [unread] in Hn. cbn [abs_feed].
    rewrite (abs_drain_fuel n (S (length (rest ++ x)))); [apply drain_sim; [done|cbn; lia]|..].
    + by apply areader_alive in Hr'.
    + cbn. rewrite length_app. lia.
    + cbn. lia.
  - pose proof (feed_dead k r h (Some x) Hr) as Hf. cbn in Hf. rewrite Hf.
    cbn [mbind result_bind abs_feed]. destruct n; [lia|]. destruct Hr as [-> He].
    cbn [abs_drain abs_get mbind result_bind sim drain]. exists k.
    unfold redisReaderGetReply. by bool_false (rr_err k =? 0).
Qed.

Lemma abs_feed_app a x y : abs_feed (abs_feed a x) y = abs_feed a (x ++ y).
Proof. destruct a; cbn; [by rewrite app_assoc|done]. Qed.

Lemma drive_sim xs : forall a r h n, areader_is a r -> xs <> [] ->
  Forall (fun x => 1 <= zlen x) xs -> has_room a r (zlen (concat xs)) ->
  (unread a + length (concat xs) < n)%nat ->
  sim (rr_len r + zlen (concat xs)) (abs_drain n (abs_feed a (concat xs)) h) (drive r h xs).
Proof.
  induction xs as [|x xs IH]; [done|]. intros a r h n Hr _ Hxs Hroom Hn.
  apply Forall_cons in Hxs as [Hx Hxs]. destruct xs as [|y xs].
  { cbn [drive concat] in *. rewrite app_nil_r in *. by apply feed_drain_sim. }
  set (ys := y :: xs) in *. change (concat (x :: ys)) with (x ++ concat ys) in *.
  rewrite length_app in *.
  change (drive r h (x :: ys)) with
    ('(ps, _, r, h) ← feed_drain r h x;
     '(qs, st, r, h) ← drive r h ys;
     Ok (ps ++ qs, st, r, h)).
  pose proof (areader_alive _ _ Hr) as Hl.
  assert (has_room a r (zlen x)) as Hroom1 by (destruct a; unfold has_room, room in *; [lia|done]).
  pose proof (feed_drain_sim a r h x n Hr Hx Hroom1 ltac:(lia)) as Hf.
  pose proof (unread_feed a x).
  rewrite <- abs_feed_app, (abs_drain_feed n) by (by apply alive_feed || lia).
  destruct (abs_drain n (abs_feed a x) h) as [[[[ps st] a1] h1]|] eqn:Ed; cbn [sim] in Hf.
  2: by rewrite Hf.
  destruct Hf as (r1 & -> & Hr1 & Hlen). cbn [mbind result_bind].
  destruct (abs_drain_alive _ _ _ _ _ _ _ (alive_feed _ _ Hl) Ed) as [Hl1 Hle].
  assert (has_room a1 r1 (zlen (concat ys))) as Hroom2.
  { destruct a1 as [k1 rest1|]; [|done]. destruct a as [k rest|k]; cbn [has_room] in *.
    - unfold room in *. lia.
    - destruct n; [done|]. by cbn in Ed. }
  pose proof (IH a1 r1 h1 n Hr1 ltac:(done) Hxs Hroom2 ltac:(lia)) as Hd.
  destruct (abs_drain n (abs_feed a1 (concat ys)) h1) as [[[[qs st2] a2] h2]|] eqn:Ed2;
    cbn [sim app_replies mbind result_bind] in *; [|by rewrite Hd].
  destruct Hd as (r2 & -> & Hr2 & Hlen2). exists r2. split; [done|]. split; [done|].
  destruct a2 as [k2 rest2|]; [|done]. destruct a1 as [k1 rest1|k1]; [lia|].
  destruct n; [done|]. by cbn in Ed2.
Qed.
End client.
