(* ===== verification/ReplyTree.v ===== *)
(** * ReplyTree: reply objects as trees

    A reply is a tree of objects of the store. [heap_rep h cs F] says that the
    objects [cs] are live in [h] next to the objects [F] of everybody else.
    [freeReplyObject] frees exactly the objects of a tree. *)
From S2P Require Import Prelude Mem Reply.
From stdpp Require Import list list_numbers strings sets gmap.
From Stdlib Require Import ZArith Lia.
Open Scope Z_scope.

(** ** Trees *)
Inductive tree : Type :=
  | TNull
  | TLeaf (p : Z) (o : redisReply)
  | TArr (p : Z) (ts : list tree).

Definition ptr (t : tree) : Z :=
  match t with
  | TNull => NULL
  | TLeaf p _ | TArr p _ => p
  end.

(** An array object with an element vector. *)
Definition arr_obj (els : list Z) : redisReply :=
  mk_reply REDIS_REPLY_ARRAY 0 0 None (zlen els) (Some els).

(** The objects of a tree. *)
Fixpoint cells_of (t : tree) : list (Z * redisReply) :=
  match t with
  | TNull => []
  | TLeaf p o => [(p, o)]
  | TArr p ts => (p, arr_obj (ptr <$> ts)) :: flat_map cells_of ts
  end.

Fixpoint height (t : tree) : nat :=
  match t with
  | TNull => 0
  | TLeaf _ _ => 1
  | TArr _ ts => S (list_max (height <$> ts))
  end.

(** An object without elements of its own. *)
Definition is_leaf (o : redisReply) : Prop :=
  r_type o <> REDIS_REPLY_ARRAY \/ r_element o = None.

Fixpoint leaves_ok (t : tree) : Prop :=
  match t with
  | TNull => True
  | TLeaf _ o => is_leaf o
  | TArr _ ts => foldr (fun t P => leaves_ok t /\ P) True ts
  end.

Lemma leaves_ok_arr p ts : leaves_ok (TArr p ts) <-> Forall leaves_ok ts.
Proof.
  simpl. induction ts as [|t ts IH]; simpl; [by split; auto|].
  rewrite IH. split; [intros [? ?]; by constructor|by intros [? ?]%Forall_cons].
Qed.

(** Induction with the hypothesis for every element. *)
Lemma tree_ind' (P : tree -> Prop) :
  P TNull -> (forall p o, P (TLeaf p o)) ->
  (forall p ts, Forall P ts -> P (TArr p ts)) -> forall t, P t.
Proof.
  intros H1 H2 H3. fix IH 1. intros [| |p ts]; [done|done|]. apply H3.
  induction ts; constructor; auto.
Qed.

(** ** Objects in the store *)
Record heap_rep (h : heap) (cs : list (Z * redisReply)) (F : gmap Z redisReply) : Prop := {
  rep_cells : cells h = list_to_map cs ∪ F;
  rep_nodup : NoDup cs.*1;
  rep_frame : Forall (fun p => F !! p = None) cs.*1;
  rep_next : map_Forall (fun p _ => 0 < p < next h) (cells h);
  rep_pos : 0 < next h
}.

Lemma heap_rep_perm h cs cs' F : cs ≡ₚ cs' -> heap_rep h cs F -> heap_rep h cs' F.
Proof.
  intros Hp [H1 H2 H3 H4 H5].
  assert (cs.*1 ≡ₚ cs'.*1) as Hq by by rewrite Hp.
  split; [|by rewrite <- Hq|by rewrite <- Hq|done|done].
  rewrite H1. f_equal. by apply list_to_map_proper.
Qed.

#[export] Instance heap_rep_proper h :
  Proper (Permutation ==> eq ==> iff) (heap_rep h).
Proof. intros cs cs' Hp F ? <-. split; by apply heap_rep_perm. Qed.

Lemma heap_rep_lookup h p o cs F : heap_rep h ((p, o) :: cs) F -> cells h !! p = Some o.
Proof.
  intros [H1 _ _ _ _]. rewrite H1. apply lookup_union_Some_l.
  cbn. by rewrite lookup_insert_eq.
Qed.

Lemma heap_rep_nonnull h p o cs F : heap_rep h ((p, o) :: cs) F -> 0 < p < next h.
Proof.
  intros Hr. pose proof (heap_rep_lookup _ _ _ _ _ Hr) as Hl. by apply (rep_next _ _ _ Hr) in Hl.
Qed.

Lemma heap_rep_not_null h p o cs F : heap_rep h ((p, o) :: cs) F -> p <> NULL.
Proof. intros Hr. apply heap_rep_nonnull in Hr. unfold NULL. lia. Qed.

Lemma get_cell_rep h p o cs F : heap_rep h ((p, o) :: cs) F -> get_cell h p = Ok o.
Proof. intros Hr. unfold get_cell. by rewrite (heap_rep_lookup _ _ _ _ _ Hr). Qed.

(** Allocating, writing and freeing one object. *)
Lemma heap_rep_alloc h o cs F n :
  heap_rep h cs F ->
  heap_rep (mk_heap (<[next h := o]> (cells h)) (next h + 1) n) ((next h, o) :: cs) F.
Proof.
  intros [H1 H2 H3 H4 H5].
  assert (cells h !! next h = None) as Hn.
  { destruct (cells h !! next h) eqn:E; [|done]. apply H4 in E. lia. }
  pose proof Hn as Hn'. rewrite H1 in Hn'. apply lookup_union_None in Hn' as [Hn1 Hn2].
  split; cbn.
  - rewrite H1. by rewrite insert_union_l.
  - constructor; [|done]. by apply not_elem_of_list_to_map.
  - by constructor.
  - intros p o' Hp. apply lookup_insert_Some in Hp as [[<- _]|[_ Hp]]; [lia|].
    apply H4 in Hp. lia.
  - lia.
Qed.

Lemma heap_rep_set h p o o' cs F :
  heap_rep h ((p, o) :: cs) F -> heap_rep (set_cell h p o') ((p, o') :: cs) F.
Proof.
  intros Hr. pose proof (heap_rep_nonnull _ _ _ _ _ Hr) as Hp. destruct Hr as [H1 H2 H3 H4 H5].
  split; cbn; try done.
  - rewrite H1. cbn. by rewrite insert_union_l, insert_insert_eq.
  - intros q o1 Hq. apply lookup_insert_Some in Hq as [[<- _]|[_ Hq]]; [lia|]. by apply H4 in Hq.
Qed.

Lemma heap_rep_free h p o cs F :
  heap_rep h ((p, o) :: cs) F -> heap_rep (free_cell h p) cs F.
Proof.
  intros [H1 H2 H3 H4 H5]. apply NoDup_cons in H2 as [H2 H2']. apply Forall_cons in H3 as [H3 H3'].
  split; cbn; try done.
  - rewrite H1. cbn. rewrite delete_union, (delete_id F) by done. f_equal.
    apply delete_insert_id. by apply not_elem_of_list_to_map_1.
  - intros q o1 Hq. apply lookup_delete_Some in Hq as [_ Hq]. by apply H4 in Hq.
Qed.

Lemma heap_rep_count h n cs F :
  heap_rep h cs F -> heap_rep (mk_heap (cells h) (next h) n) cs F.
Proof. intros []. by split. Qed.

#[export] Hint Resolve heap_rep_count : core.

(** A tree that is live has as many objects as its height at least. *)
Lemma height_cells t : (height t <= length (cells_of t))%nat.
Proof.
  induction t as [| |p ts IH] using tree_ind'; cbn [height cells_of length]; [lia..|].
  apply le_n_S. induction IH as [|t ts Ht IH1 IH2]; [done|].
  cbn [flat_map]. rewrite length_app.
  change (list_max (height <$> t :: ts)) with (height t `max` list_max (height <$> ts))%nat.
  lia.
Qed.

Lemma heap_rep_size h cs F : heap_rep h cs F -> (length cs <= size (cells h))%nat.
Proof.
  intros [H1 H2 H3 _ _]. rewrite H1. rewrite map_size_disj_union.
  - rewrite map_size_list_to_map by done. lia.
  - apply map_disjoint_spec. intros p o1 o2 Ho Hf.
    apply elem_of_list_to_map_2 in Ho.
    apply Forall_forall with (x := p) in H3; [congruence|].
    apply list_elem_of_fmap. by exists (p, o1).
Qed.

(** ** Freeing *)
Lemma free_elements_spec fuel ts : forall pre h cs F,
  Forall (fun t => forall h cs F, heap_rep h (cells_of t ++ cs) F ->
    exists h', freeReplyObject_fuel fuel (ptr t) h = Ok h' /\ heap_rep h' cs F) ts ->
  heap_rep h (flat_map cells_of ts ++ cs) F ->
  exists h', free_elements (freeReplyObject_fuel fuel) (length ts) (zlen pre)
               (pre ++ (ptr <$> ts)) h = Ok h' /\ heap_rep h' cs F.
Proof.
  induction ts as [|t ts IH]; intros pre h cs F Hts Hr; [by exists h|].
  apply Forall_cons in Hts as [Ht Hts]. cbn [flat_map] in Hr. rewrite <- app_assoc in Hr.
  cbn [length free_elements].
  rewrite (load_at _ _ pre (ptr t) (ptr <$> ts)) by done. cbn [mbind result_bind].
  assert (exists h1, (if negb (ptr t =? NULL) then freeReplyObject_fuel fuel (ptr t) h else Ok h)
            = Ok h1 /\ heap_rep h1 (flat_map cells_of ts ++ cs) F) as (h1 & -> & Hr1).
  { destruct (Ht _ _ _ Hr) as (h1 & Hf & Hr1).
    destruct (ptr t =? NULL) eqn:E; [|by exists h1]. bool_to_prop. cbn [negb].
    exists h. split; [done|]. destruct t as [|p o|p ts']; [done|..]; cbn in E; subst p.
    - by apply heap_rep_not_null in Hr.
    - by apply heap_rep_not_null in Hr. }
  cbn [mbind result_bind].
  replace (zlen pre + 1) with (zlen (pre ++ [ptr t])) by slia.
  replace (pre ++ (ptr <$> t :: ts)) with ((pre ++ [ptr t]) ++ (ptr <$> ts)) by solve_app.
  by apply IH.
Qed.

(** A function is applied to trees at most as high as the fuel allows. *)
Lemma free_tree t : leaves_ok t -> forall fuel, (height t < fuel)%nat ->
  forall h cs F, heap_rep h (cells_of t ++ cs) F ->
  exists h', freeReplyObject_fuel fuel (ptr t) h = Ok h' /\ heap_rep h' cs F.
Proof.
  induction t as [|p o|p ts IH] using tree_ind'; intros Hok [|fuel] Hf h cs F Hr; try lia;
    cbn [freeReplyObject_fuel ptr cells_of app] in *.
  - by exists h.
  - pose proof (heap_rep_not_null _ _ _ _ _ Hr). bool_false (p =? NULL).
    rewrite (get_cell_rep _ _ _ _ _ Hr). cbn [mbind result_bind].
    assert ((if r_type o =? REDIS_REPLY_ARRAY
             then match r_element o with
                  | Some element => free_elements (freeReplyObject_fuel fuel)
                                      (Z.to_nat (r_elements o)) 0 element h
                  | None => Ok h
                  end
             else Ok h) = Ok h) as ->.
    { split_if; [|done]. destruct Hok as [Ho|Ho]; [done|]. by rewrite Ho. }
    cbn [mbind result_bind]. rewrite (get_cell_rep _ _ _ _ _ Hr).
    eexists. split; [done|]. by eapply heap_rep_free.
  - pose proof (heap_rep_not_null _ _ _ _ _ Hr). bool_false (p =? NULL).
    rewrite (get_cell_rep _ _ _ _ _ Hr). cbn [mbind result_bind arr_obj r_type r_element r_elements].
    cbn [Z.eqb REDIS_REPLY_ARRAY Pos.eqb]. rewrite Nat2Z.id, length_fmap.
    assert (heap_rep h (flat_map cells_of ts ++ (p, arr_obj (ptr <$> ts)) :: cs) F) as Hr'.
    { by rewrite <- Permutation_middle. }
    edestruct (free_elements_spec fuel ts [] h) as (h1 & Hfe & Hr1); [|exact Hr'|].
    { apply leaves_ok_arr in Hok. clear -IH Hok Hf. apply Forall_forall. intros t Ht.
      rewrite Forall_forall in IH, Hok. intros h cs F Hr. apply IH; auto.
      cbn [height] in Hf. assert (height t <= list_max (height <$> ts))%nat; [|lia].
      assert (Forall (fun n => n <= list_max (height <$> ts))%nat (height <$> ts)) as Hm
        by by apply list_max_le.
      rewrite Forall_forall in Hm. apply Hm. apply list_elem_of_fmap. by exists t. }
    cbn [app length] in Hfe. change (Z.of_nat 0) with 0 in Hfe. rewrite Hfe. cbn [mbind result_bind].
    rewrite (get_cell_rep _ _ _ _ _ Hr1). cbn [mbind result_bind].
    eexists. split; [done|]. by eapply heap_rep_free.
Qed.

(** [freeReplyObject] of a live tree does not fault and frees its objects only. *)
Lemma freeReplyObject_tree t h cs F : leaves_ok t -> heap_rep h (cells_of t ++ cs) F ->
  exists h', freeReplyObject (ptr t) h = Ok h' /\ heap_rep h' cs F.
Proof.
  intros Hok Hr. unfold freeReplyObject. apply free_tree; [done| |done].
  pose proof (heap_rep_size _ _ _ Hr) as Hs. rewrite length_app in Hs.
  pose proof (height_cells t). lia.
Qed.
