(* ===== verification/ReaderDefault.v ===== *)
(** * ReaderDefault: the parser with the reply functions of hiredis.c

    While a reply is read its objects form a tree with one hole, described by a
    zipper: a [frame] per open array. The task stack mirrors the zipper
    ([at_pos]), the store holds its objects ([heap_rep] of [zcells]), and every
    item moves from one zipper to the next ([place]). *)
From S2P Require Import Prelude Mem Sds SdsFacts Reply Reader ReaderSpec ReaderRefine.
From S2P Require Import ReaderStream ReplyTree.
From stdpp Require Import list list_numbers strings sets gmap.
From Stdlib Require Import ZArith Lia.
Open Scope Z_scope.

(** ** Zippers *)

(** An open array: its object, the elements read, and how many follow the one
    being read. *)
Definition frame : Type := Z * list tree * nat.
Implicit Types (fs : list frame) (F : gmap Z redisReply) (t : tree).

Definition vec (before : list tree) (c : Z) (n : nat) : list Z :=
  (ptr <$> before) ++ c :: replicate n NULL.

(** The objects of the open arrays, [c] being the element being read. *)
Fixpoint zcells (c : Z) fs : list (Z * redisReply) :=
  match fs with
  | [] => []
  | (p, before, n) :: up =>
      (p, arr_obj (vec before c n)) :: flat_map cells_of before ++ zcells p up
  end.

Fixpoint root_ptr (c : Z) fs : Z :=
  match fs with
  | [] => c
  | (p, _, _) :: up => root_ptr p up
  end.

(** The tree with [t] in the hole and [NULL] behind it. *)
Fixpoint plug t fs : tree :=
  match fs with
  | [] => t
  | (p, before, n) :: up => plug (TArr p (before ++ t :: replicate n TNull)) up
  end.

(** The next hole after [t] was put in this one, or the finished tree. *)
Fixpoint place fs t : list frame + tree :=
  match fs with
  | [] => inr t
  | (p, before, O) :: up => place up (TArr p (before ++ [t]))
  | (p, before, S n) :: up => inl ((p, before ++ [t], n) :: up)
  end.

Lemma ptr_nulls n : ptr <$> replicate n TNull = replicate n NULL.
Proof. by rewrite fmap_replicate. Qed.

Lemma cells_nulls n : flat_map cells_of (replicate n TNull) = [].
Proof. by induction n. Qed.

Lemma plug_cells fs : forall t, cells_of (plug t fs) ≡ₚ cells_of t ++ zcells (ptr t) fs.
Proof.
  induction fs as [|[[p before] n] up IH]; intros t; cbn [plug zcells]; [by rewrite app_nil_r|].
  rewrite IH. cbn [cells_of ptr]. unfold vec.
  rewrite fmap_app, fmap_cons, ptr_nulls, flat_map_app. cbn [flat_map].
  rewrite cells_nulls, app_nil_r. cbn [app]. solve_Permutation.
Qed.

Lemma plug_ptr fs : forall t, ptr (plug t fs) = root_ptr (ptr t) fs.
Proof. induction fs as [|[[p before] n] up IH]; intros t; [done|]. cbn. by rewrite IH. Qed.

Lemma place_cells fs : forall t,
  match place fs t with
  | inl fs' => zcells NULL fs'
  | inr t' => cells_of t'
  end ≡ₚ cells_of t ++ zcells (ptr t) fs.
Proof.
  induction fs as [|[[p before] [|n]] up IH]; intros t; cbn [place zcells].
  - by rewrite app_nil_r.
  - rewrite IH. cbn [cells_of ptr]. unfold vec. rewrite fmap_app, flat_map_app. cbn.
    rewrite app_nil_r. solve_Permutation.
  - unfold vec. rewrite fmap_app, flat_map_app. cbn. rewrite app_nil_r, <- app_assoc. cbn.
    solve_Permutation.
Qed.

Lemma place_root fs : forall t,
  match place fs t with
  | inl fs' => root_ptr NULL fs'
  | inr t' => ptr t'
  end = root_ptr (ptr t) fs.
Proof. induction fs as [|[[p before] [|n]] up IH]; intros t; cbn; [done|by rewrite IH|done]. Qed.

Definition frames_ok fs : Prop := Forall (fun f : frame => Forall leaves_ok f.1.2) fs.

Lemma place_ok fs : forall t, frames_ok fs -> leaves_ok t ->
  match place fs t with
  | inl fs' => frames_ok fs'
  | inr t' => leaves_ok t'
  end.
Proof.
  induction fs as [|[[p before] [|n]] up IH]; intros t Hfs Ht; cbn [place]; [done|..];
    apply Forall_cons in Hfs as [Hb Hup]; cbn in Hb.
  - apply IH; [done|]. apply leaves_ok_arr. apply Forall_app. by repeat constructor.
  - constructor; [|done]. cbn. apply Forall_app. by repeat constructor.
Qed.

Lemma plug_ok fs : forall t, frames_ok fs -> leaves_ok t -> leaves_ok (plug t fs).
Proof.
  induction fs as [|[[p before] n] up IH]; intros t Hfs Ht; cbn [plug]; [done|].
  apply Forall_cons in Hfs as [Hb Hup]. apply IH; [done|]. apply leaves_ok_arr.
  apply Forall_app. split; [done|]. constructor; [done|]. by apply Forall_replicate.
Qed.

Section default.
Context {HM : HeapMalloc}.
Implicit Types (h : heap).

(** ** The functions of hiredis.c *)

(** The task reading an element of the innermost open array, and its parent. *)
Definition slot_is (cur : redisReadTask) (parent : option redisReadTask) fs : Prop :=
  match fs with
  | [] => parent = None
  | (q, before, n) :: _ =>
      t_idx cur = zlen before /\ exists pt, parent = Some pt /\ t_obj pt = q
  end.

Lemma vec_store before c n : store (vec before NULL n) (zlen before) c = Ok (vec before c n).
Proof.
  unfold vec. rewrite store_Ok by (rewrite length_app, length_fmap; simpl; lia).
  rewrite Nat2Z.id. f_equal. by rewrite insert_app_r_alt, length_fmap, Nat.sub_diag by
    (rewrite length_fmap; lia).
Qed.

Lemma attach_spec cur parent fs h p o F :
  slot_is cur parent fs -> heap_rep h ((p, o) :: zcells NULL fs) F ->
  exists h', attach cur parent p h = Ok h' /\ heap_rep h' ((p, o) :: zcells p fs) F.
Proof.
  intros Hs Hr. destruct fs as [|[[q before] n] up]; cbn [slot_is] in Hs.
  - subst. by exists h.
  - destruct Hs as (Hi & pt & -> & Hq). cbn [attach zcells] in *. rewrite Hq.
    rewrite Permutation_swap in Hr. rewrite (get_cell_rep _ _ _ _ _ Hr).
    cbn [mbind result_bind arr_obj r_type r_element deref c_assert Z.eqb REDIS_REPLY_ARRAY Pos.eqb].
    rewrite Hi, vec_store. cbn [mbind result_bind]. eexists. split; [done|].
    rewrite Permutation_swap.
    assert (zlen (vec before p n) = zlen (vec before NULL n)) as Hlen
      by (unfold vec; by rewrite !length_app).
    unfold arr_obj in *. cbn. rewrite <- Hlen. by eapply heap_rep_set.
Qed.

(** A function that creates an object [o], or fails because of the allocator. *)
Definition creates (m : result (Z * heap)) (o : redisReply) fs F : Prop :=
  exists p h', m = Ok (p, h') /\
    ((p <> NULL /\ heap_rep h' ((p, o) :: zcells p fs) F) \/
     (p = NULL /\ heap_rep h' (zcells NULL fs) F /\ exists n size, heap_ok n size = false)).

Lemma heap_malloc_spec h size cs F : heap_rep h cs F ->
  exists ok h', heap_malloc h size = (ok, h') /\ heap_rep h' cs F /\
    (ok = false -> exists n size, heap_ok n size = false).
Proof.
  intros Hr. eexists _, _. split; [done|]. split; [auto|]. intros Hok. by eexists _, _.
Qed.

Lemma createReplyObject_spec type h cs F : heap_rep h cs F ->
  exists p h', createReplyObject type h = (p, h') /\
    ((p <> NULL /\ heap_rep h' ((p, mk_reply type 0 0 None 0 None) :: cs) F) \/
     (p = NULL /\ heap_rep h' cs F /\ exists n size, heap_ok n size = false)).
Proof.
  intros Hr. unfold createReplyObject.
  destruct (heap_malloc_spec h sizeof_redisReply cs F Hr) as (ok & h1 & -> & Hr1 & Hok).
  destruct ok; cbn [negb].
  - eexists _, _. split; [done|]. left. pose proof (heap_rep_alloc h1
      (mk_reply type 0 0 None 0 None) cs F (allocs h1) Hr1) as Hr2.
    split; [|done]. by apply heap_rep_not_null in Hr2.
  - eexists _, _. split; [done|]. right. auto.
Qed.

Lemma no_elements_leaf type i n s e : is_leaf (mk_reply type i n s e None).
Proof. by right. Qed.

(** Freeing an object that is not attached yet. *)
Lemma free_new p o h cs F : is_leaf o -> heap_rep h ((p, o) :: cs) F ->
  exists h', freeReplyObject p h = Ok h' /\ heap_rep h' cs F.
Proof. intros Ho Hr. by apply (freeReplyObject_tree (TLeaf p o)). Qed.

Definition str_obj (type : Z) (s : bytes) : redisReply :=
  mk_reply type 0 (zlen s) (Some (s ++ [0])) 0 None.

Lemma createString_spec cur parent s h fs F :
  slot_is cur parent fs -> heap_rep h (zcells NULL fs) F ->
  t_type cur = REDIS_REPLY_ERROR \/ t_type cur = REDIS_REPLY_STATUS \/
    t_type cur = REDIS_REPLY_STRING ->
  creates (createStringObject cur parent s h) (str_obj (t_type cur) s) fs F.
Proof.
  intros Hs Hr Ht. unfold createStringObject.
  destruct (createReplyObject_spec (t_type cur) h _ F Hr) as (p & h1 & -> & [[Hp Hr1]|(-> & Hr1 & Hm)]).
  2: { eexists _, _. split; [done|]. by right. }
  bool_false (p =? NULL).
  destruct (heap_malloc_spec h1 (u64 (zlen s + 1)) _ F Hr1) as (ok & h2 & -> & Hr2 & Hok).
  destruct ok; cbn [negb].
  2: { destruct (free_new _ _ _ _ _ (no_elements_leaf _ _ _ _ _) Hr2) as (h3 & -> & Hr3).
       eexists _, _. split; [done|]. right. auto. }
  replace (c_assert _) with (Ok tt : result unit)
    by (destruct Ht as [->|[->| ->]]; done). cbn [mbind result_bind].
  apply (heap_rep_set _ _ _ (str_obj (t_type cur) s)) in Hr2.
  destruct (attach_spec cur parent fs _ p _ F Hs Hr2) as (h3 & Ha & Hr3).
  unfold str_obj in Ha. rewrite Ha. eexists _, _. split; [done|]. by left.
Qed.

Lemma createInteger_spec cur parent v h fs F :
  slot_is cur parent fs -> heap_rep h (zcells NULL fs) F ->
  creates (createIntegerObject cur parent v h) (mk_reply REDIS_REPLY_INTEGER v 0 None 0 None) fs F.
Proof.
  intros Hs Hr. unfold createIntegerObject.
  destruct (createReplyObject_spec REDIS_REPLY_INTEGER h _ F Hr)
    as (p & h1 & -> & [[Hp Hr1]|(-> & Hr1 & Hm)]).
  2: { eexists _, _. split; [done|]. by right. }
  bool_false (p =? NULL).
  apply (heap_rep_set _ _ _ (mk_reply REDIS_REPLY_INTEGER v 0 None 0 None)) in Hr1.
  destruct (attach_spec cur parent fs _ p _ F Hs Hr1) as (h3 & -> & Hr3).
  eexists _, _. split; [done|]. by left.
Qed.

Lemma createNil_spec cur parent h fs F :
  slot_is cur parent fs -> heap_rep h (zcells NULL fs) F ->
  creates (createNilObject cur parent h) (mk_reply REDIS_REPLY_NIL 0 0 None 0 None) fs F.
Proof.
  intros Hs Hr. unfold createNilObject.
  destruct (createReplyObject_spec REDIS_REPLY_NIL h _ F Hr)
    as (p & h1 & -> & [[Hp Hr1]|(-> & Hr1 & Hm)]).
  2: { eexists _, _. split; [done|]. by right. }
  bool_false (p =? NULL).
  destruct (attach_spec cur parent fs _ p _ F Hs Hr1) as (h3 & -> & Hr3).
  eexists _, _. split; [done|]. by left.
Qed.

(** The object of an array of [n] elements, [n] being an [int]. *)
Definition new_array (n : Z) : redisReply :=
  mk_reply REDIS_REPLY_ARRAY 0 0 None (u64 n)
    (if 0 <? n then Some (replicate (Z.to_nat n) NULL) else None).

Lemma createArray_spec cur parent n h fs F :
  slot_is cur parent fs -> heap_rep h (zcells NULL fs) F ->
  creates (createArrayObject cur parent n h) (new_array n) fs F.
Proof.
  intros Hs Hr. unfold createArrayObject.
  destruct (createReplyObject_spec REDIS_REPLY_ARRAY h _ F Hr)
    as (p & h1 & -> & [[Hp Hr1]|(-> & Hr1 & Hm)]).
  2: { eexists _, _. split; [done|]. by right. }
  bool_false (p =? NULL).
  assert (exists ok h2, (if 0 <? n then
            let '(ok, h) := heap_malloc h1 (n * sizeof_ptr) in
            (ok, Some (replicate (Z.to_nat n) NULL), h)
          else (true, None, h1)) = (ok, r_element (new_array n), h2) /\
          heap_rep h2 ((p, mk_reply REDIS_REPLY_ARRAY 0 0 None 0 None) :: zcells NULL fs) F /\
          (ok = false -> exists n size, heap_ok n size = false)) as (ok & h2 & -> & Hr2 & Hok).
  { unfold new_array. cbn [r_element]. split_if; [|by eexists true, h1].
    destruct (heap_malloc_spec h1 (n * sizeof_ptr) _ F Hr1) as (ok & h2 & -> & Hr2 & Hok).
    by eexists _, _. }
  destruct ok; cbn [negb].
  2: { destruct (free_new _ _ _ _ _ (no_elements_leaf _ _ _ _ _) Hr2) as (h3 & -> & Hr3).
       eexists _, _. split; [done|]. right. auto. }
  apply (heap_rep_set _ _ _ (new_array n)) in Hr2.
  destruct (attach_spec cur parent fs _ p _ F Hs Hr2) as (h3 & Ha & Hr3).
  unfold new_array in Ha at 1. cbn [r_element new_array] in *. rewrite Ha.
  eexists _, _. split; [done|]. by left.
Qed.

(** ** The task stack mirrors the zipper *)
Fixpoint stack_ok (stk : list redisReadTask) fs : Prop :=
  match fs with
  | [] => exists tr, stk !! O = Some tr /\ t_parent tr = None
  | (p, before, n) :: up =>
      (exists tk, stk !! length up = Some tk /\ t_type tk = REDIS_REPLY_ARRAY /\
         t_obj tk = p /\ t_elements tk = zlen before + 1 + Z.of_nat n) /\
      (exists tc, stk !! S (length up) = Some tc /\ t_idx tc = zlen before /\
         t_parent tc = Some (length up)) /\
      zlen before + 1 + Z.of_nat n <= INT_MAX /\ stack_ok stk up
  end.

Lemma stack_ok_above stk fs i tk : stack_ok stk fs -> (length fs < i)%nat ->
  stack_ok (<[i := tk]> stk) fs.
Proof.
  induction fs as [|[[p before] n] up IH]; cbn [stack_ok length]; intros Hs Hi.
  - by rewrite list_lookup_insert_ne by lia.
  - rewrite !list_lookup_insert_ne by lia. naive_solver lia.
Qed.

(** The task at the hole. *)
Lemma stack_ok_top stk fs : stack_ok stk fs -> exists cur, stk !! length fs = Some cur /\
  match fs with
  | [] => t_parent cur = None
  | (p, before, n) :: up => t_idx cur = zlen before /\ t_parent cur = Some (length up)
  end.
Proof. destruct fs as [|[[p before] n] up]; cbn; [done|]. naive_solver. Qed.

Lemma stack_ok_update stk fs cur tk : stack_ok stk fs -> stk !! length fs = Some cur ->
  t_idx tk = t_idx cur -> t_parent tk = t_parent cur ->
  stack_ok (<[length fs := tk]> stk) fs.
Proof.
  intros Hs Hc Hi Hp. pose proof (lookup_lt_Some _ _ _ Hc).
  destruct fs as [|[[p before] n] up]; cbn [stack_ok length] in *.
  - destruct Hs as (tr & H0 & H1). exists tk. rewrite list_lookup_insert_eq by done.
    split; [done|congruence].
  - destruct Hs as (H1 & (tc & H2 & H3 & H4) & H5 & H6).
    split; [by rewrite list_lookup_insert_ne by lia|]. split.
    + exists tk. rewrite list_lookup_insert_eq by done. split_and!; [done|congruence..].
    + split; [done|]. apply stack_ok_above; [done|lia].
Qed.

Abbreviation reader := (redisReader heap).
Implicit Types (k : reader).

Definition cur_type k (ty : Z) : Prop :=
  exists cur, get_task k (rr_ridx k) = Ok cur /\ t_type cur = ty.

Lemma get_task_at k n cur : rr_rstack k !! n = Some cur -> get_task k (Z.of_nat n) = Ok cur.
Proof. intros Hc. unfold get_task. if_false. by rewrite Nat2Z.id, Hc. Qed.

Lemma put_task_at k n tk : (n < length (rr_rstack k))%nat -> exists k',
  put_task k (Z.of_nat n) tk = Ok k' /\ rr_rstack k' = <[n := tk]> (rr_rstack k) /\
  rr_ridx k' = rr_ridx k /\ rr_reply k' = rr_reply k /\ env k' = env k.
Proof.
  intros Hn. destruct (put_task k (Z.of_nat n) tk) as [k'|] eqn:E.
  - destruct (put_task_env _ _ _ _ E) as (? & ? & ?). exists k'. split_and!; try done.
    revert E. unfold put_task. split_if; [|done]. intros [= <-]. cbn. by rewrite Nat2Z.id.
  - revert E. unfold put_task. bool_true (0 <=? Z.of_nat n).
    by bool_true (Z.of_nat n <? zlen (rr_rstack k)).
Qed.

(** [moveToNextTask] walks to the next hole. *)
Lemma move_place fs t : forall k fuel,
  rr_ridx k = zlen fs -> stack_ok (rr_rstack k) fs -> (length fs < fuel)%nat ->
  exists k', moveToNextTask_fuel fuel k = Ok k' /\ env k' = env k /\ rr_reply k' = rr_reply k /\
    match place fs t with
    | inl fs' => rr_ridx k' = zlen fs' /\ stack_ok (rr_rstack k') fs' /\ cur_type k' (-1) /\
                 (length fs' <= length fs)%nat
    | inr _ => rr_ridx k' = -1
    end.
Proof.
  revert t. induction fs as [|[[p before] n] up IH]; intros t k [|fuel] Hi Hs Hf; try lia;
    cbn [moveToNextTask_fuel].
  - rewrite Hi. cbn. by eexists.
  - cbn [length] in *. rewrite Hi. if_true. if_false.
    destruct Hs as ((tp & P1 & P2 & P3 & P4) & (tc & C1 & C2 & C3) & Hmax & Hup).
    rewrite (get_task_at _ _ _ C1). cbn [mbind result_bind].
    replace (Z.of_nat (S (length up)) - 1) with (zlen up) by lia.
    rewrite (get_task_at _ _ _ P1). cbn [mbind result_bind]. rewrite P2, C2, P4.
    cbn [c_assert Z.eqb REDIS_REPLY_ARRAY Pos.eqb mbind result_bind].
    unfold INT_MAX in Hmax. rewrite s32_id by lia. destruct n as [|n]; cbn [place].
    + if_true. destruct (IH (TArr p (before ++ [t])) (set_ridx k (zlen up)) fuel)
        as (k' & -> & K1 & K2 & K3); [done..|lia|].
      exists k'. split_and!; try done. destruct (place up _); naive_solver lia.
    + if_false. bool_true (zlen before <? zlen before + 1 + Z.of_nat (S n)).
      cbn [c_assert mbind result_bind].
      pose proof (lookup_lt_Some _ _ _ C1).
      set (t1 := mk_task _ _ _ _ _ _).
      destruct (put_task_at k (S (length up)) t1) as (k' & -> & K1 & K2 & K3 & K4); [done|].
      exists k'. split_and!; try done; [by rewrite K2| |].
      * cbn [stack_ok]. rewrite K1. split; [|split; [|split]].
        -- exists tp. rewrite list_lookup_insert_ne by lia. split_and!; try done. slia.
        -- exists t1. rewrite list_lookup_insert_eq by done. split; [done|]. subst t1. cbn.
           split; [|done]. rewrite s32_id by lia. slia.
        -- unfold INT_MAX. slia.
        -- apply stack_ok_above; [done|lia].
      * exists t1. rewrite K2, Hi. split; [|done]. apply get_task_at. rewrite K1.
        by rewrite list_lookup_insert_eq.
Qed.

(** ** States of the parser *)

(** The reader of a client that uses the default functions. *)
Record base k : Prop := {
  base_core : is_core k;
  base_err : rr_err k = 0;
  base_fn : rr_fn k = Some defaultFunctions;
  base_stack : zlen (rr_rstack k) = 9
}.

(** Reading in the hole of [fs]; the current task has type [ty]. *)
Record parsing k (ty : Z) fs h F : Prop := {
  par_base : base k;
  par_ridx : rr_ridx k = zlen fs;
  par_depth : (length fs <= 8)%nat;
  par_stack : stack_ok (rr_rstack k) fs;
  par_type : cur_type k ty;
  par_reply : rr_reply k = root_ptr NULL fs;
  par_frames : frames_ok fs;
  par_heap : heap_rep h (zcells NULL fs) F
}.

(** A whole reply was read. *)
Record complete k t h F : Prop := {
  com_base : base k;
  com_ridx : rr_ridx k = -1;
  com_reply : rr_reply k = ptr t;
  com_leaves : leaves_ok t;
  com_heap : heap_rep h (cells_of t) F
}.

(** The object [t] was put in the hole of [fs]. *)
Definition placed fs t k h F : Prop :=
  match place fs t with
  | inl fs' => parsing k (-1) fs' h F
  | inr t' => complete k t' h F
  end.

(** An error freed the objects of the unfinished reply. *)
Definition cleared k (err : Z) h F : Prop :=
  rr_err k = err /\ rr_reply k = NULL /\ heap_rep h [] F.

Definition oom : Prop := exists n size, heap_ok n size = false.

Lemma base_env k k' : base k -> env k' = env k -> base k'.
Proof.
  intros [] He. pose proof (env_core _ _ He). injection He as He. split; auto; congruence.
Qed.

Lemma fn_default {A} k (f : redisReplyObjectFunctions heap -> option A) : base k ->
  fn_entry k f = f defaultFunctions.
Proof. intros [_ _ Hf _]. unfold fn_entry. by rewrite Hf. Qed.

(** Setting an error frees the tree built so far. *)
Lemma set_error_clears k ty fs h F type str : type <> 0 -> parsing k ty fs h F ->
  exists k' h', __redisReaderSetError k h type str = Ok (k', h') /\ cleared k' type h' F.
Proof.
  intros Htype [Hb _ _ _ _ Hr Hfs Hh]. unfold __redisReaderSetError.
  rewrite (fn_default _ freeObject Hb). cbn [freeObject defaultFunctions].
  pose proof (plug_ptr fs TNull) as Hp. cbn [ptr] in Hp. rewrite <- Hr in Hp.
  pose proof (plug_cells fs TNull) as Hc. cbn [ptr cells_of app] in Hc.
  rewrite <- Hc, <- (app_nil_r (cells_of _)) in Hh.
  destruct (freeReplyObject_tree _ _ _ _ (plug_ok fs TNull Hfs I) Hh) as (h' & Hf & Hh').
  rewrite Hp in Hf. destruct (rr_reply k =? NULL) eqn:E; bool_to_prop; cbn [negb].
  - rewrite E in Hf. cbn in Hf. injection Hf as <-. cbn [mbind result_bind].
    eexists _, _. split; [done|]. split_and!; [done| |done]. by destruct (rr_buf k).
  - rewrite Hf. cbn [mbind result_bind]. eexists _, _. split; [done|].
    split_and!; [done| |done]. by destruct (rr_buf _).
Qed.

(** ** Items *)
Definition emits (m : result (step_result (H := heap))) (mk : Z -> tree) rest' fs F : Prop :=
  match m with
  | Ok (Done k r h) => r = rest' /\ exists p, placed fs (mk p) k h F
  | Ok (Failed k h) => oom /\ cleared k REDIS_ERR_OOM h F
  | _ => False
  end.

Lemma fail_oom_clears k ty fs h F : parsing k ty fs h F -> exists k' h',
  fail_oom k h = Ok (Failed k' h') /\ cleared k' REDIS_ERR_OOM h' F.
Proof.
  intros Hk. unfold fail_oom, __redisReaderSetErrorOOM.
  destruct (set_error_clears _ _ _ _ _ REDIS_ERR_OOM (lit "Out of memory") ltac:(done) Hk)
    as (k' & h' & -> & Hc). by eexists _, _.
Qed.

(** The next task after an object was attached in the hole. *)
Lemma move_placed k ty fs h h' F t : parsing k ty fs h F -> ptr t <> NULL -> leaves_ok t ->
  heap_rep h' (cells_of t ++ zcells (ptr t) fs) F ->
  exists k', moveToNextTask (if rr_ridx k =? 0 then set_reply k (ptr t) else k) = Ok k' /\
    placed fs t k' h' F.
Proof.
  intros [Hb Hi Hd Hs _ Hr Hfs _] Hp Ht Hh.
  set (k1 := if rr_ridx k =? 0 then _ else _).
  assert (rr_ridx k1 = zlen fs /\ rr_rstack k1 = rr_rstack k /\ env k1 = env k /\
    rr_reply k1 = root_ptr (ptr t) fs) as (K1 & K2 & K3 & K4).
  { unfold k1. destruct fs as [|[[q before] n] up]; rewrite Hi.
    - cbn. done.
    - if_false. done. }
  unfold moveToNextTask. rewrite <- K2 in Hs.
  destruct (move_place fs t k1 (S (S (Z.to_nat (rr_ridx k1))))) as (k' & -> & M1 & M2 & M3);
    [done..|lia|].
  exists k'. split; [done|]. unfold placed.
  pose proof (place_cells fs t) as Pc. pose proof (place_root fs t) as Pr.
  pose proof (place_ok fs t Hfs Ht) as Po. rewrite K3 in M1.
  destruct (place fs t) as [fs'|t']; cbn in *; rewrite <- Pc in Hh.
  - destruct M3 as (M3 & M4 & M5 & M6). split; try done; [by eapply base_env|lia|congruence].
  - split; try done; [by eapply base_env|congruence].
Qed.

(** Trees of a single object. *)
Definition single (o : redisReply) (mk : Z -> tree) : Prop :=
  forall p, ptr (mk p) = p /\ leaves_ok (mk p) /\ cells_of (mk p) = [(p, o)].

Lemma single_leaf o : is_leaf o -> single o (fun p => TLeaf p o).
Proof. done. Qed.

Lemma finish_emits k ty fs h F o mk m rest' : parsing k ty fs h F -> single o mk ->
  creates m o fs F -> emits ('(obj, h') ← m; finish k rest' obj h') mk rest' fs F.
Proof.
  intros Hk Ho (p & h' & -> & [[Hp Hh]|(-> & Hh & Hm)]); cbn [mbind result_bind]; unfold finish.
  - bool_false (p =? NULL). destruct (Ho p) as (O1 & O2 & O3).
    destruct (move_placed k ty fs h h' F (mk p) Hk) as (k' & Hm & Hpl);
      [congruence|done|by rewrite O3, O1|].
    rewrite O1 in Hm. rewrite Hm. cbn. split; [done|]. by exists p.
  - cbn [Z.eqb NULL]. destruct (fail_oom_clears k ty fs h' F) as (k' & h1 & -> & Hc).
    { by destruct Hk; split. }
    by split.
Qed.

Lemma parsing_task k ty fs h F : parsing k ty fs h F -> exists cur parent,
  get_task k (rr_ridx k) = Ok cur /\ t_type cur = ty /\ get_parent k cur = Ok parent /\
  slot_is cur parent fs.
Proof.
  intros [Hb Hi Hd Hs (cur & Hc & Ht) Hr Hfs Hh]. exists cur.
  destruct (stack_ok_top _ _ Hs) as (cur' & Hc' & Htop).
  rewrite Hi, (get_task_at _ _ _ Hc') in Hc. injection Hc as <-.
  rewrite Hi, (get_task_at _ _ _ Hc'). unfold get_parent.
  destruct fs as [|[[p before] n] up]; cbn [slot_is].
  - rewrite Htop. by exists None.
  - destruct Htop as [T1 T2]. rewrite T2. destruct Hs as ((tp & P1 & P2 & P3 & _) & _).
    rewrite (get_task_at _ _ _ P1). exists (Some tp). split_and!; try done. by exists tp.
Qed.

Lemma parsing_set_type k ty ty' fs h F cur : parsing k ty fs h F ->
  get_task k (rr_ridx k) = Ok cur ->
  exists k', put_task k (rr_ridx k) (set_type cur ty') = Ok k' /\ parsing k' ty' fs h F.
Proof.
  intros [Hb Hi Hd Hs _ Hr Hfs Hh] Hc.
  destruct (stack_ok_top _ _ Hs) as (cur' & Hc' & _).
  rewrite Hi, (get_task_at _ _ _ Hc') in Hc. injection Hc as <-.
  pose proof (lookup_lt_Some _ _ _ Hc').
  destruct (put_task_at k (length fs) (set_type cur' ty')) as (k' & Hk & K1 & K2 & K3 & K4);
    [done|].
  rewrite Hi, Hk. exists k'. split; [done|]. split; try done.
  - by eapply base_env.
  - by rewrite K2.
  - rewrite K1. by eapply stack_ok_update.
  - exists (set_type cur' ty'). rewrite K2, Hi. split; [|done]. apply get_task_at. rewrite K1.
    by rewrite list_lookup_insert_eq.
  - by rewrite K3.
Qed.

(** The object of a line. *)
Definition line_obj (ty : Z) (line : bytes) : redisReply :=
  if ty =? REDIS_REPLY_INTEGER
  then mk_reply REDIS_REPLY_INTEGER (long_long_of line) 0 None 0 None
  else str_obj ty line.

Definition nil_obj : redisReply := mk_reply REDIS_REPLY_NIL 0 0 None 0 None.

Lemma abs_line_emits k ty fs h F rest line rest' : parsing k ty fs h F ->
  ty = REDIS_REPLY_ERROR \/ ty = REDIS_REPLY_STATUS \/ ty = REDIS_REPLY_INTEGER ->
  split_line rest = Some (line, rest') ->
  emits (abs_line k rest h) (fun p => TLeaf p (line_obj ty line)) rest' fs F.
Proof.
  intros Hk Hty Hs. destruct (parsing_task _ _ _ _ _ Hk) as (cur & parent & T1 & T2 & T3 & T4).
  unfold abs_line. rewrite T1. cbn [mbind result_bind]. rewrite Hs, T3. cbn [mbind result_bind].
  rewrite !(fn_default _ _ (par_base _ _ _ _ _ Hk)). cbn [createInteger createString defaultFunctions].
  apply (finish_emits k ty fs h F (line_obj ty line)); [done| |].
  - apply single_leaf. unfold line_obj. split_if; by right.
  - unfold line_obj. rewrite T2. split_if.
    + apply createInteger_spec; [done|apply Hk].
    + rewrite <- T2. apply createString_spec; [done|apply Hk|]. naive_solver.
Qed.

Lemma abs_bulk_emits k fs h F rest line rest' : parsing k REDIS_REPLY_STRING fs h F ->
  split_line rest = Some (line, rest') ->
  let len := long_long_of line in
  if len <? 0 then emits (abs_bulk k rest h) (fun p => TLeaf p nil_obj) rest' fs F
  else if len + 2 <=? zlen rest' then
    emits (abs_bulk k rest h)
      (fun p => TLeaf p (str_obj REDIS_REPLY_STRING (take (Z.to_nat len) rest')))
      (drop (Z.to_nat (len + 2)) rest') fs F
  else abs_bulk k rest h = Ok (More k rest h).
Proof.
  intros Hk Hs. destruct (parsing_task _ _ _ _ _ Hk) as (cur & parent & T1 & T2 & T3 & T4).
  unfold abs_bulk, make_nil. rewrite T1. cbn [mbind result_bind].
  rewrite Hs, T3. cbn [mbind result_bind].
  rewrite !(fn_default _ _ (par_base _ _ _ _ _ Hk)). cbn [createNil createString defaultFunctions].
  cbv zeta. repeat split_if.
  - apply (finish_emits k REDIS_REPLY_STRING fs h F nil_obj); [done|by apply single_leaf; right|].
    apply createNil_spec; [done|apply Hk].
  - apply (finish_emits k REDIS_REPLY_STRING fs h F
      (str_obj REDIS_REPLY_STRING (take (Z.to_nat (long_long_of line)) rest')));
      [done|by apply single_leaf; right|].
    rewrite <- T2. apply createString_spec; [done|apply Hk|]. naive_solver.
  - done.
Qed.

(** The tree of an array without elements to read. *)
Definition array_tree (n p : Z) : tree :=
  if 0 <? n then TArr p (replicate (Z.to_nat n) TNull) else TLeaf p (new_array n).

Lemma new_array_vec n : 0 < n < 2 ^ 31 -> new_array n = arr_obj (vec [] NULL (Z.to_nat n - 1)).
Proof.
  intros Hn. unfold new_array, arr_obj, vec. if_true. rewrite u64_id by lia.
  change ((ptr <$> []) ++ NULL :: replicate (Z.to_nat n - 1) NULL)
    with (replicate (S (Z.to_nat n - 1)) NULL).
  replace (S (Z.to_nat n - 1)) with (Z.to_nat n) by lia. rewrite length_replicate.
  by rewrite Z2Nat.id by lia.
Qed.

Lemma array_tree_single n : n < 2 ^ 31 -> single (new_array n) (array_tree n).
Proof.
  intros Hn p. unfold array_tree. split_if; split_and!; try done.
  - apply leaves_ok_arr. by apply Forall_replicate.
  - cbn [cells_of]. rewrite cells_nulls, ptr_nulls, new_array_vec by lia. unfold vec.
    change ((ptr <$> []) ++ NULL :: replicate (Z.to_nat n - 1) NULL)
      with (replicate (S (Z.to_nat n - 1)) NULL).
    by replace (S (Z.to_nat n - 1)) with (Z.to_nat n) by lia.
  - right. cbn. by bool_false (0 <? n).
Qed.

(** A count that does not fit the [int] of [createArray] although it is positive. *)
Definition oversized (line : bytes) : Prop :=
  0 < long_long_of line /\ s32 (long_long_of line) <= 0.

Lemma finish_multi k ty fs h F o mk m rest' : parsing k ty fs h F -> single o mk ->
  creates m o fs F ->
  emits ('(obj, h') ← m;
         if obj =? NULL then fail_oom k h' else
         k' ← moveToNextTask k;
         Ok (Done (if rr_ridx k =? 0 then set_reply k' obj else k') rest' h')) mk rest' fs F.
Proof.
  intros Hk Ho Hc. pose proof (finish_emits k ty fs h F o mk m rest' Hk Ho Hc) as He.
  destruct m as [[obj h']|]; [|done]. cbn [mbind result_bind] in *. unfold finish in He.
  destruct (obj =? NULL); [done|].
  replace (k' ← moveToNextTask k;
           Ok (Done (if rr_ridx k =? 0 then set_reply k' obj else k') rest' h'))
    with (k' ← moveToNextTask (if rr_ridx k =? 0 then set_reply k obj else k);
          Ok (Done k' rest' h')); [done|].
  destruct (rr_ridx k =? 0) eqn:E; [|done]. bool_to_prop. unfold moveToNextTask.
  cbn [rr_ridx set_reply]. rewrite E. cbn. rewrite E. done.
Qed.

(** Opening an array. *)
Lemma push_parsing k ty fs h F cur p n : parsing k ty fs h F -> (length fs < 8)%nat ->
  get_task k (rr_ridx k) = Ok cur -> t_type cur = REDIS_REPLY_ARRAY -> p <> NULL ->
  forall h', 0 < s32 n ->
  heap_rep h' ((p, new_array (s32 n)) :: zcells p fs) F ->
  exists k', push_task k cur n p = Ok k' /\
    parsing (if rr_ridx k =? 0 then set_reply k' p else k') (-1)
      ((p, [], Z.to_nat (s32 n) - 1)%nat :: fs) h' F.
Proof.
  intros [Hb Hi Hd Hs _ Hr Hfs _] Hd' Hc Hty Hp h' Hn Hh. pose proof (s32_range n).
  destruct (stack_ok_top _ _ Hs) as (cur' & Hc' & Htop).
  rewrite Hi, (get_task_at _ _ _ Hc') in Hc. injection Hc as ->.
  pose proof (lookup_lt_Some _ _ _ Hc') as Hlt. pose proof (base_stack _ Hb) as Hst.
  unfold push_task. rewrite Hi.
  destruct (put_task_at k (length fs) (mk_task (t_type cur) (s32 n) (t_idx cur) p (t_parent cur)
    (t_privdata cur))) as (k1 & -> & K1 & K2 & K3 & K4); [done|]. cbn [mbind result_bind].
  rewrite K2, Hi. replace (zlen fs + 1) with (Z.of_nat (S (length fs))) by lia.
  set (t2 := mk_task _ _ _ _ _ _).
  destruct (put_task_at (set_ridx k1 (Z.of_nat (S (length fs)))) (S (length fs)) t2)
    as (k2 & -> & M1 & M2 & M3 & M4); [cbn; rewrite K1, length_insert; lia|].
  exists k2. split; [done|]. cbn in M1, M2, M3.
  assert (env k2 = env k) as Henv by (rewrite M4; exact K4).
  assert (get_task k2 (Z.of_nat (S (length fs))) = Ok t2) as Ht2.
  { apply get_task_at. rewrite M1, K1, list_lookup_insert_eq; [done|]. rewrite length_insert. lia. }
  assert (stack_ok (rr_rstack k2) ((p, [], Z.to_nat (s32 n) - 1)%nat :: fs)) as Hs2.
  { cbn [stack_ok]. rewrite M1, K1. split_and!.
    - eexists. rewrite list_lookup_insert_ne by lia. rewrite list_lookup_insert_eq by done.
      split; [done|]. cbn. rewrite Hty. split_and!; [done..|lia].
    - exists t2. rewrite list_lookup_insert_eq by (rewrite length_insert; lia).
      split; [done|]. cbn. by rewrite Nat2Z.id.
    - cbn. unfold INT_MAX. lia.
    - apply stack_ok_above; [|lia]. by eapply stack_ok_update. }
  assert (heap_rep h' (zcells NULL ((p, [], Z.to_nat (s32 n) - 1)%nat :: fs)) F) as Hh2.
  { cbn [zcells flat_map app]. rewrite <- new_array_vec by lia. done. }
  assert (frames_ok ((p, [], Z.to_nat (s32 n) - 1)%nat :: fs)) as Hfs2 by by constructor.
  destruct fs as [|[[q before] m] up]; cbn [length root_ptr] in *.
  - split; try done; [by eapply base_env|]. exists t2. split; [|done].
    change (get_task k2 (rr_ridx k2) = Ok t2). by rewrite M2.
  - if_false. split; try done; [by eapply base_env| |].
    + exists t2. by rewrite M2.
    + cbn. by rewrite M3, K3.
Qed.

Lemma abs_multi_emits k fs h F rest : parsing k REDIS_REPLY_ARRAY fs h F ->
  (length fs < 8)%nat ->
  match split_line rest with
  | None => abs_multi k rest h = Ok (More k rest h)
  | Some (line, rest') =>
      let n := long_long_of line in
      if n =? -1 then emits (abs_multi k rest h) (fun p => TLeaf p nil_obj) rest' fs F
      else if n <=? 0 then emits (abs_multi k rest h) (array_tree (s32 n)) rest' fs F
      else 0 < s32 n ->
        match abs_multi k rest h with
        | Ok (Done k' r h') =>
            r = rest' /\ exists p, parsing k' (-1) ((p, [], Z.to_nat (s32 n) - 1)%nat :: fs) h' F
        | Ok (Failed k' h') => oom /\ cleared k' REDIS_ERR_OOM h' F
        | _ => False
        end
  end.
Proof.
  intros Hk Hd. destruct (parsing_task _ _ _ _ _ Hk) as (cur & parent & T1 & T2 & T3 & T4).
  unfold abs_multi, make_nil. rewrite T1. cbn [mbind result_bind].
  pose proof (par_ridx _ _ _ _ _ Hk). bool_false (rr_ridx k =? 8).
  destruct (split_line rest) as [[line rest']|]; [|done]. rewrite T3. cbn [mbind result_bind].
  rewrite !(fn_default _ _ (par_base _ _ _ _ _ Hk)). cbn [createNil createArray defaultFunctions].
  cbv zeta. destruct (long_long_of line =? -1) eqn:E1; bool_to_prop.
  { bool_false (0 <? long_long_of line).
    apply (finish_multi k REDIS_REPLY_ARRAY fs h F nil_obj); [done|by apply single_leaf; right|].
    apply createNil_spec; [done|apply Hk]. }
  pose proof (s32_range (long_long_of line)).
  pose proof (createArray_spec cur parent (s32 (long_long_of line)) h fs F T4
    (par_heap _ _ _ _ _ Hk)) as Hc.
  destruct (long_long_of line <=? 0) eqn:E2; bool_to_prop.
  { bool_false (0 <? long_long_of line).
    apply (finish_multi k REDIS_REPLY_ARRAY fs h F (new_array (s32 (long_long_of line))));
      [done|apply array_tree_single; lia|done]. }
  intros Hn. bool_true (0 <? long_long_of line).
  destruct Hc as (p & h' & -> & [[Hp Hh]|(-> & Hh & Hm)]); cbn [mbind result_bind].
  - bool_false (p =? NULL).
    destruct (push_parsing k _ fs h F cur p (long_long_of line) Hk Hd T1 T2 Hp h' Hn Hh)
      as (k' & -> & Hk'). cbn [mbind result_bind]. split; [done|]. by exists p.
  - cbn [Z.eqb NULL]. destruct (fail_oom_clears k REDIS_REPLY_ARRAY fs h' F) as (k' & h1 & -> & Hc).
    { by destruct Hk; split. }
    by split.
Qed.
End default.
