(* ===== verification/Resp.v ===== *)
(** * Resp: values of the protocol and their encoding

    [resp] are the values a server sends and [resp_encode] is how it writes them.
    [reply_value] reads a value back from the objects of the store. *)
From S2P Require Import Prelude Mem Sds SdsFacts Reply Reader ReaderSpec ReaderRefine.
From S2P Require Import ReplyTree ReaderDefault.
From stdpp Require Import list list_numbers strings sets gmap.
From Stdlib Require Import ZArith Lia.
Open Scope Z_scope.

Inductive resp : Type :=
  | RStatus (s : bytes)
  | RError (s : bytes)
  | RInteger (n : Z)
  | RString (s : bytes)
  | RNil
  | RArray (vs : list resp).

Fixpoint resp_encode (v : resp) : bytes :=
  match v with
  | RStatus s => 43 :: s ++ crlf
  | RError s => 45 :: s ++ crlf
  | RInteger n => 58 :: sdec n ++ crlf
  | RString s => 36 :: udec (zlen s) ++ crlf ++ s ++ crlf
  | RNil => 36 :: sdec (-1) ++ crlf
  | RArray vs => 42 :: udec (zlen vs) ++ crlf ++ flat_map resp_encode vs
  end.

(** The nesting of arrays. *)
Fixpoint depth (v : resp) : nat :=
  match v with
  | RArray vs => S (list_max (depth <$> vs))
  | _ => 0
  end.

(** What a server can send: lines without CR, 64-bit integers, lengths that
    fit an [int]. *)
Fixpoint sendable (v : resp) : Prop :=
  match v with
  | RStatus s | RError s => CR ∉ s
  | RInteger n => - 2 ^ 63 < n < 2 ^ 63
  | RString s => zlen s <= INT_MAX
  | RNil => True
  | RArray vs => zlen vs <= INT_MAX /\ foldr (fun v P => sendable v /\ P) True vs
  end.

Lemma sendable_arr vs :
  sendable (RArray vs) <-> zlen vs <= INT_MAX /\ Forall sendable vs.
Proof.
  cbn [sendable]. assert (foldr (fun v P => sendable v /\ P) True vs <-> Forall sendable vs) as ->;
    [|done].
  induction vs as [|v vs IH]; cbn; [by split; auto|].
  rewrite IH. split; [intros [? ?]; by constructor|by intros [? ?]%Forall_cons].
Qed.

Lemma resp_ind' (P : resp -> Prop) :
  (forall s, P (RStatus s)) -> (forall s, P (RError s)) -> (forall n, P (RInteger n)) ->
  (forall s, P (RString s)) -> P RNil -> (forall vs, Forall P vs -> P (RArray vs)) ->
  forall v, P v.
Proof.
  intros H1 H2 H3 H4 H5 H6. fix IH 1. intros [s|s|n|s| |vs];
    [apply H1|apply H2|apply H3|apply H4|apply H5|]. apply H6.
  induction vs; constructor; auto.
Qed.

(** ** Values in the store *)
Definition reply_str (o : redisReply) : option bytes :=
  match r_str o with
  | Some b => Some (take (Z.to_nat (r_len o)) b)
  | None => None
  end.

Fixpoint reply_value (fuel : nat) (h : heap) (p : Z) : option resp :=
  match fuel with
  | O => None
  | S f =>
      match cells h !! p with
      | None => None
      | Some o =>
          if r_type o =? REDIS_REPLY_STATUS then RStatus <$> reply_str o else
          if r_type o =? REDIS_REPLY_ERROR then RError <$> reply_str o else
          if r_type o =? REDIS_REPLY_STRING then RString <$> reply_str o else
          if r_type o =? REDIS_REPLY_INTEGER then Some (RInteger (r_integer o)) else
          if r_type o =? REDIS_REPLY_NIL then Some RNil else
          match r_element o with
          | None => if r_elements o =? 0 then Some (RArray []) else None
          | Some els =>
              if r_elements o =? zlen els then RArray <$> mapM (reply_value f h) els else None
          end
      end
  end.

(** The object of a value without elements. *)
Definition leaf_obj (v : resp) : option redisReply :=
  match v with
  | RStatus s => Some (str_obj REDIS_REPLY_STATUS s)
  | RError s => Some (str_obj REDIS_REPLY_ERROR s)
  | RInteger n => Some (mk_reply REDIS_REPLY_INTEGER n 0 None 0 None)
  | RString s => Some (str_obj REDIS_REPLY_STRING s)
  | RNil => Some nil_obj
  | RArray [] => Some (new_array 0)
  | RArray _ => None
  end.

Inductive tree_val : tree -> resp -> Prop :=
  | tv_leaf p o v : leaf_obj v = Some o -> tree_val (TLeaf p o) v
  | tv_arr p ts vs : Forall2 tree_val ts vs -> vs <> [] -> tree_val (TArr p ts) (RArray vs).

Lemma reply_value_leaf f h p o v : cells h !! p = Some o -> leaf_obj v = Some o ->
  reply_value (S f) h p = Some v.
Proof.
  intros Hp Hv. cbn [reply_value]. rewrite Hp.
  destruct v as [s|s|n|s| |[|]]; cbn [leaf_obj] in Hv; [..|done]; injection Hv as <-;
    cbn; unfold reply_str; cbn; rewrite ?Nat2Z.id, ?take_app_length; done.
Qed.

(** A tree of the store reads back as its value, whatever else is there. *)
Lemma tree_value t : forall v f h,
  tree_val t v -> (height t <= f)%nat ->
  (forall p o, (p, o) ∈ cells_of t -> cells h !! p = Some o) ->
  reply_value f h (ptr t) = Some v.
Proof.
  induction t as [|p o|p ts IH] using tree_ind'; intros v [|f] h Hv Hf Hh;
    cbn [height] in Hf; try lia; inversion Hv; subst.
  - eapply reply_value_leaf; [|done]. apply Hh. cbn. set_solver.
  - cbn [reply_value ptr]. rewrite (Hh p (arr_obj (ptr <$> ts))) by (cbn; set_solver).
    cbn. rewrite Z.eqb_refl.
    assert (mapM (reply_value f h) (ptr <$> ts) = Some vs) as ->; [|done].
    apply mapM_Some. rewrite Forall2_fmap_l. apply Forall2_same_length_lookup_2.
    { by apply (Forall2_length _ _ _ H1). }
    intros i t v Ht Hvi. rewrite Forall_forall in IH. apply IH.
    + by eapply list_elem_of_lookup_2.
    + by eapply Forall2_lookup_lr.
    + assert (Forall (fun n => n <= list_max (height <$> ts))%nat (height <$> ts)) as Hm
        by by apply list_max_le.
      rewrite Forall_forall in Hm. specialize (Hm (height t)).
      enough (height t <= list_max (height <$> ts))%nat by lia. apply Hm.
      apply list_elem_of_fmap. exists t. split; [done|]. by eapply list_elem_of_lookup_2.
    + intros q o Hq. apply Hh. cbn. right. apply list_elem_of_In, in_flat_map. exists t.
      split; apply list_elem_of_In; [by eapply list_elem_of_lookup_2|done].
Qed.
