(* ===== verification/Format.v ===== *)
(** * Format: commands (hiredis.c)

    The formatters that write a command in the protocol: from a [printf]-like
    format ([redisvFormatCommand]) and from an array of arguments. The text
    that [vsnprintf] writes for one conversion is the parameter [vformat]. *)
From S2P Require Import Prelude Mem Sds SdsText.
From stdpp Require Import list list_numbers strings sets gmap.
From Stdlib Require Import ZArith Lia.
Open Scope Z_scope.

(** What [va_arg] yields to the formatter. *)
Inductive va : Type :=
  | VPtr (p : bytes)
  | VSize (n : Z)
  | VInt (n : Z)
  | VLong (n : Z)
  | VLongLong (n : Z)
  | VDouble (n : Z).

(** ** Errors

    A step either returns or jumps to [cleanup] with an error code. *)
Definition memory_err : Z := -1.
Definition format_err : Z := -2.

Definition bind_err {A B} (m : result (Z + A)) (k : A -> result (Z + B)) : result (Z + B) :=
  match m with
  | Ok (inr a) => k a
  | Ok (inl e) => Ok (inl e)
  | Fault f => Fault f
  end.
Notation "x <-e m ; k" := (bind_err m (fun x => k))
  (at level 20, m at level 100, k at level 200, only parsing).
Notation "' x <-e m ; k" := (bind_err m (fun x => k))
  (at level 20, x pattern, m at level 100, k at level 200, only parsing).

Definition or_memory {A} (m : result (option A)) : result (Z + A) :=
  p ← m; Ok (match p with Some a => inr a | None => inl memory_err end).

(** ** Lengths *)

(** 64-bit values have at most 20 digits: five rounds. *)
Fixpoint countDigits_loop (fuel : nat) (v res : Z) : result Z :=
  match fuel with
  | O => Fault OutOfFuel
  | S f =>
      if v <? 10 then Ok res
      else if v <? 100 then Ok (u32 (res + 1))
      else if v <? 1000 then Ok (u32 (res + 2))
      else if v <? 10000 then Ok (u32 (res + 3))
      else countDigits_loop f (v / 10000) (u32 (res + 4))
  end.

Definition countDigits (v : Z) : result Z := countDigits_loop 5 v 1.

Definition bulklen (len : Z) : result Z :=
  d ← countDigits len; Ok (u64 (u32 (1 + d + 2) + len + 2)).

(** ** Writing a command into its buffer *)

(** [pos += sprintf(cmd+pos, ...)], the text being [text]. *)
Definition sprintf (m : bytes) (pos : Z) (text : bytes) : result (bytes * Z) :=
  m ← blit m pos (text ++ [0]); Ok (m, s32 (pos + zlen text)).

(** One argument: its length, its bytes and a line end. *)
Definition put_bulk (m : bytes) (pos : Z) (p : bytes) (len : Z) : result (bytes * Z) :=
  '(m, pos) ← sprintf m pos (36 :: udec len ++ crlf);
  src ← slice p 0 len;
  m ← blit m pos src;
  let pos := s32 (u64 (pos + len)) in
  m ← store m pos CR;
  let pos := s32 (pos + 1) in
  m ← store m pos LF;
  Ok (m, s32 (pos + 1)).

Section format.
Context {M : Malloc}.

Fixpoint put_args (m : bytes) (pos : Z) (curargv : list sds) : result (bytes * Z) :=
  match curargv with
  | [] => Ok (m, pos)
  | a :: curargv =>
      '(m, pos) ← put_bulk m pos (sds_buf a) (sdslen a);
      put_args m pos curargv
  end.

(** ** redisvFormatCommand *)
Context (vformat : bytes -> list va -> bytes).

(** [while (_p[0] != 0 && test) _p++]. *)
Fixpoint skip_while (fuel : nat) (test : Z -> bool) (fmt : bytes) (p : Z) : result Z :=
  match fuel with
  | O => Fault OutOfFuel
  | S f =>
      c ← load fmt p;
      if negb (c =? 0) && test c then skip_while f test fmt (p + 1) else Ok p
  end.

Definition flags : bytes := lit "#0-+ ".
Definition intfmts : bytes := lit "diouxX".
Definition dblfmts : bytes := lit "eEfFgGaA".

Definition va_int (ap : list va) : result (list va) :=
  match ap with VInt _ :: ap => Ok ap | _ => no_arg end.
Definition va_long (ap : list va) : result (list va) :=
  match ap with VLong _ :: ap => Ok ap | _ => no_arg end.
Definition va_longlong (ap : list va) : result (list va) :=
  match ap with VLongLong _ :: ap => Ok ap | _ => no_arg end.
Definition va_double (ap : list va) : result (list va) :=
  match ap with VDouble _ :: ap => Ok ap | _ => no_arg end.

(** The conversion letter after a size: [None] is [goto fmt_invalid]. *)
Definition sized_int (fmt : bytes) (p : Z) (next : list va -> result (list va)) (ap : list va) :
    result (option (Z * list va)) :=
  c ← load fmt p;
  if negb (c =? 0) && strchr_in intfmts c then ap ← next ap; Ok (Some (p, ap)) else Ok None.

(** The end [_p] of the conversion at [c] and the arguments after it. *)
Definition scan_conversion (fmt : bytes) (c : Z) (ap : list va) :
    result (option (Z * list va)) :=
  let n := S (length fmt) in
  p ← skip_while n (strchr_in flags) fmt (c + 1);
  p ← skip_while n isdigit fmt p;
  x ← load fmt p;
  p ← (if x =? 46 then skip_while n isdigit fmt (p + 1) else Ok p);
  x ← load fmt p;
  if strchr_in intfmts x then ap ← va_int ap; Ok (Some (p, ap)) else
  if strchr_in dblfmts x then ap ← va_double ap; Ok (Some (p, ap)) else
  if (x =? 104) || (x =? 108) then
    y ← load fmt (p + 1);
    if (x =? 104) && (y =? 104) then sized_int fmt (p + 2) va_int ap else
    if x =? 104 then sized_int fmt (p + 1) va_int ap else
    if y =? 108 then sized_int fmt (p + 2) va_longlong ap else
    sized_int fmt (p + 1) va_long ap
  else Ok None.

Definition append_if (size : Z) (curarg : sds) (arg : bytes) : result (Z + sds) :=
  if 0 <? size then or_memory (sdscatlen curarg arg size) else Ok (inr curarg).

(** The [switch] on [c[1]]: the argument, [c] and the arguments left. A
    conversion that does not fit [_format] adds nothing and [c] stays. *)
Definition convert (fmt : bytes) (c : Z) (ap : list va) (curarg : sds) :
    result (Z + (sds * Z * list va)) :=
  next ← load fmt (c + 1);
  if next =? 115 then
    match ap with
    | VPtr arg :: ap =>
        size ← strlen arg;
        newarg <-e append_if size curarg arg;
        Ok (inr (newarg, c, ap))
    | _ => no_arg
    end
  else if next =? 98 then
    match ap with
    | VPtr arg :: VSize size :: ap =>
        newarg <-e append_if size curarg arg;
        Ok (inr (newarg, c, ap))
    | _ => no_arg
    end
  else if next =? 37 then
    newarg <-e or_memory (sdscat curarg (cstr "%"));
    Ok (inr (newarg, c, ap))
  else
    r ← scan_conversion fmt c ap;
    match r with
    | None => Ok (inl format_err)
    | Some (p, ap') =>
        let l := p + 1 - c in
        if l <? 16 - 2 then
          src ← slice fmt c l;
          _format ← blit (fresh_block 16) 0 src;
          _format ← store _format l 0;
          newarg <-e or_memory (sdscatvprintf curarg _format (vformat _format ap));
          Ok (inr (newarg, p - 1, ap'))
        else Ok (inr (curarg, c, ap'))
    end.

(** [curargv[argc++] = curarg; totlen += bulklen(sdslen(curarg))]. *)
Definition push_arg (curargv : list sds) (totlen : Z) (curarg : sds) :
    result (Z + (list sds * Z)) :=
  if negb (malloc_ok (8 * (zlen curargv + 1))) then Ok (inl memory_err) else
  n ← bulklen (sdslen curarg);
  Ok (inr (curargv ++ [curarg], s32 (u64 (totlen + n)))).

Fixpoint command_loop (fuel : nat) (fmt : bytes) (c : Z) (ap : list va) (curarg : sds)
    (touched : bool) (curargv : list sds) (totlen : Z) :
    result (Z + (sds * bool * list sds * Z)) :=
  match fuel with
  | O => Fault OutOfFuel
  | S f =>
      x ← load fmt c;
      if x =? 0 then Ok (inr (curarg, touched, curargv, totlen)) else
      literal ← (if negb (x =? 37) then Ok true else y ← load fmt (c + 1); Ok (y =? 0));
      if (literal : bool) then
        if x =? 32 then
          if touched then
            '(curargv, totlen) <-e push_arg curargv totlen curarg;
            curarg <-e or_memory sdsempty;
            command_loop f fmt (c + 1) ap curarg false curargv totlen
          else command_loop f fmt (c + 1) ap curarg touched curargv totlen
        else
          src ← slice fmt c 1;
          newarg <-e or_memory (sdscatlen curarg src 1);
          command_loop f fmt (c + 1) ap newarg true curargv totlen
      else
        '(newarg, c, ap) <-e convert fmt c ap curarg;
        command_loop f fmt (c + 2) ap newarg true curargv totlen
  end.

(** The command from the arguments: the allocation, the header, the arguments. *)
Definition build_command (curargv : list sds) (totlen : Z) : result (Z + (Z * bytes)) :=
  let argc := zlen curargv in
  d ← countDigits argc;
  let totlen := s32 (u32 (totlen + u32 (1 + d + 2))) in
  let size := u64 (s32 (totlen + 1)) in
  if negb (malloc_ok size) then Ok (inl memory_err) else
  '(cmd, pos) ← sprintf (fresh_block size) 0 (42 :: sdec argc ++ crlf);
  '(cmd, pos) ← put_args cmd pos curargv;
  _ ← c_assert (pos =? totlen);
  cmd ← store cmd pos 0;
  Ok (inr (totlen, cmd)).

Definition format_command (fmt : bytes) (ap : list va) : result (Z + (Z * bytes)) :=
  curarg <-e or_memory sdsempty;
  '(curarg, touched, curargv, totlen) <-e
    command_loop (S (length fmt)) fmt 0 ap curarg false [] 0;
  '(curargv, totlen) <-e
    (if (touched : bool) then push_arg curargv totlen curarg else Ok (inr (curargv, totlen)));
  build_command curargv totlen.

(** The value returned and what is stored at [*target]; [target] is whether
    the pointer is there. *)
Definition redisvFormatCommand (target : bool) (fmt : bytes) (ap : list va) :
    result (Z * option bytes) :=
  if negb target then Ok (-1, None) else
  r ← format_command fmt ap;
  Ok (match r with inl error_type => (error_type, None) | inr (len, cmd) => (len, Some cmd) end).

Definition redisFormatCommand (target : bool) (fmt : bytes) (ap : list va) :
    result (Z * option bytes) :=
  '(len, cmd) ← redisvFormatCommand target fmt ap;
  Ok (if len <? 0 then -1 else len, cmd).

(** ** Commands from an array of arguments *)
Definition nth_arg {A} (l : list A) (j : nat) : result A :=
  match l !! j with Some a => Ok a | None => Fault OutOfBounds end.

(** [argvlen ? argvlen[j] : strlen(argv[j])]. *)
Definition arg_len (argv : list bytes) (argvlen : option (list Z)) (j : nat) : result Z :=
  match argvlen with
  | Some lens => nth_arg lens j
  | None => p ← nth_arg argv j; strlen p
  end.

(** [wrap] is the type of [totlen]. *)
Fixpoint total_len (wrap : Z -> Z) (argv : list bytes) (argvlen : option (list Z)) (n j : nat)
    (totlen : Z) : result Z :=
  match n with
  | O => Ok totlen
  | S n' =>
      len ← arg_len argv argvlen j;
      b ← bulklen len;
      total_len wrap argv argvlen n' (S j) (wrap (u64 (totlen + b)))
  end.

Fixpoint sds_args (cmd : sds) (argv : list bytes) (argvlen : option (list Z)) (n j : nat) :
    result sds :=
  match n with
  | O => Ok cmd
  | S n' =>
      len ← arg_len argv argvlen j;
      cmd ← sdscatfmt cmd (36 :: 37 :: 117 :: crlf ++ [0]) [AUnsigned (u32 len)];
      p ← nth_arg argv j;
      cmd ← unchecked (sdscatlen cmd p len);
      cmd ← unchecked (sdscatlen cmd (crlf ++ [0]) 2);
      sds_args cmd argv argvlen n' (S j)
  end.

Definition redisFormatSdsCommandArgv (target : bool) (argc : Z) (argv : list bytes)
    (argvlen : option (list Z)) : result (Z * option sds) :=
  if negb target then Ok (-1, None) else
  d ← countDigits (u64 argc);
  totlen ← total_len u64 argv argvlen (Z.to_nat argc) 0 (u32 (1 + d + 2));
  cmd ← sdsempty;
  match cmd with
  | None => Ok (-1, None)
  | Some cmd =>
      cmd ← sdsMakeRoomFor cmd totlen;
      match cmd with
      | None => Ok (-1, None)
      | Some cmd =>
          cmd ← sdscatfmt cmd (42 :: 37 :: 105 :: crlf ++ [0]) [AInt argc];
          cmd ← sds_args cmd argv argvlen (Z.to_nat argc) 0;
          _ ← c_assert (sdslen cmd =? totlen);
          Ok (s32 totlen, Some cmd)
      end
  end.

Fixpoint raw_args (m : bytes) (pos : Z) (argv : list bytes) (argvlen : option (list Z))
    (n j : nat) : result (bytes * Z) :=
  match n with
  | O => Ok (m, pos)
  | S n' =>
      len ← arg_len argv argvlen j;
      p ← nth_arg argv j;
      '(m, pos) ← put_bulk m pos p len;
      raw_args m pos argv argvlen n' (S j)
  end.

Definition redisFormatCommandArgv (target : bool) (argc : Z) (argv : list bytes)
    (argvlen : option (list Z)) : result (Z * option bytes) :=
  if negb target then Ok (-1, None) else
  d ← countDigits (u64 argc);
  totlen ← total_len s32 argv argvlen (Z.to_nat argc) 0 (s32 (u32 (1 + d + 2)));
  let size := u64 (s32 (totlen + 1)) in
  if negb (malloc_ok size) then Ok (-1, None) else
  '(cmd, pos) ← sprintf (fresh_block size) 0 (42 :: sdec argc ++ crlf);
  '(cmd, pos) ← raw_args cmd pos argv argvlen (Z.to_nat argc) 0;
  _ ← c_assert (pos =? totlen);
  cmd ← store cmd pos 0;
  Ok (totlen, Some cmd).

End format.
