(* ===== verification/FormatFacts.v ===== *)
(** * FormatFacts: lengths and buffers of the command formatters

    The formatters compute the length of a command first, then write it into a
    block of that length. [bulk] and [command] are the texts of the protocol;
    the lemmas say that the lengths are theirs and that the writes stay inside
    the block. *)
From S2P Require Import Prelude Mem Sds SdsFacts SdsText SdsTextFacts SdsSplit.
From S2P Require Import Resp Format.
From stdpp Require Import list list_numbers strings sets gmap.
From Stdlib Require Import ZArith Lia.
Open Scope Z_scope.

Definition bulk (d : bytes) : bytes := resp_encode (RString d).
Definition command (args : list bytes) : bytes := resp_encode (RArray (RString <$> args)).

Lemma command_eq args :
  command args = (42 :: udec (zlen args) ++ crlf) ++ flat_map bulk args.
Proof.
  unfold command. cbn [resp_encode]. rewrite length_fmap. cbn [app]. rewrite <- app_assoc.
  do 3 f_equal. induction args as [|a args IH]; [done|]. cbn [fmap list_fmap flat_map].
  by rewrite <- IH.
Qed.

Lemma bulk_eq d : bulk d = (36 :: udec (zlen d) ++ crlf) ++ d ++ crlf.
Proof. unfold bulk. cbn [resp_encode]. solve_app. Qed.

(** ** Lengths *)
Lemma udec_zlen_step v : 10 <= v -> zlen (udec v) = zlen (udec (v / 10)) + 1.
Proof. intros. rewrite udec_step, length_app by lia. simpl. lia. Qed.

Lemma udec_zlen_small v : 0 <= v < 10 -> zlen (udec v) = 1.
Proof. intros. by rewrite udec_small. Qed.

Lemma udec_zlen_bound v : 0 <= v < 2 ^ 64 -> 1 <= zlen (udec v) <= 20.
Proof.
  intros Hv. pose proof (digits_rev_length v Hv) as H.
  unfold udec. by rewrite length_reverse.
Qed.

Lemma udec_zlen_mono a b : 0 <= a <= b -> zlen (udec a) <= zlen (udec b).
Proof.
  intros Hab. destruct (decide (a < 10)).
  - rewrite udec_zlen_small by lia. pose proof (udec_length_pos b ltac:(lia)). lia.
  - destruct (udec_length a) as [_ Ha]; [lia|]. destruct (udec_length b) as [Hb _]; [lia|].
    specialize (Ha ltac:(lia)). assert (zlen (udec a) - 1 < zlen (udec b)); [|lia].
    apply (Z.pow_lt_mono_r_iff 10); lia.
Qed.

Lemma countDigits_loop_spec fuel : forall v res, 0 <= v < 10 ^ (4 * Z.of_nat fuel) ->
  0 <= res -> res + 4 * Z.of_nat fuel < 2 ^ 31 -> (0 < fuel)%nat ->
  countDigits_loop fuel v res = Ok (res + zlen (udec v) - 1).
Proof.
  induction fuel as [|fuel IH]; intros v res Hv Hr Hm Hf; [lia|]. cbn [countDigits_loop].
  repeat match goal with |- context [?a <? ?b] => destruct (a <? b) eqn:?E end; bool_to_prop.
  - rewrite udec_zlen_small by lia. f_equal. lia.
  - rewrite udec_zlen_step, udec_zlen_small by lia. rewrite u32_id by lia. f_equal. lia.
  - rewrite !udec_zlen_step, udec_zlen_small by lia. rewrite u32_id by lia. f_equal. lia.
  - rewrite !udec_zlen_step, udec_zlen_small by lia. rewrite u32_id by lia. f_equal. lia.
  - rewrite u32_id by lia.
    assert (zlen (udec v) = zlen (udec (v / 10000)) + 4) as ->.
    { rewrite !udec_zlen_step by lia. rewrite !Z.div_div by lia.
      change (10 * (10 * (10 * 10))) with 10000. change (10 * 10 * 10 * 10) with 10000. lia. }
    destruct fuel as [|fuel]; [simpl in Hv; lia|].
    assert (10 ^ (4 * Z.of_nat (S (S fuel))) = 10000 * 10 ^ (4 * Z.of_nat (S fuel))) as Hp.
    { replace (4 * Z.of_nat (S (S fuel))) with (4 + 4 * Z.of_nat (S fuel)) by lia.
      rewrite Z.pow_add_r by lia. done. }
    rewrite IH; [f_equal; lia| |lia..]. rewrite Hp in Hv.
    split; [lia|]. apply Z.div_lt_upper_bound; [lia|apply Hv].
Qed.

Lemma countDigits_spec v : 0 <= v < 2 ^ 64 -> countDigits v = Ok (zlen (udec v)).
Proof.
  intros Hv. unfold countDigits. rewrite countDigits_loop_spec; [f_equal; lia| |lia..].
  change (10 ^ (4 * Z.of_nat 5)) with 100000000000000000000. lia.
Qed.

Lemma bulk_zlen d : zlen (bulk d) = zlen (udec (zlen d)) + zlen d + 5.
Proof. rewrite bulk_eq. rewrite !length_app, length_cons, length_app. simpl. lia. Qed.

Lemma bulklen_spec d : zlen d < 2 ^ 62 -> bulklen (zlen d) = Ok (zlen (bulk d)).
Proof.
  intros Hd. unfold bulklen. rewrite countDigits_spec by lia. cbn [mbind result_bind].
  pose proof (udec_zlen_bound (zlen d) ltac:(lia)).
  rewrite bulk_zlen, u32_id, u64_id by lia. f_equal. lia.
Qed.

Lemma bulk_mono a b : zlen a <= zlen b -> zlen (bulk a) <= zlen (bulk b).
Proof.
  intros H. rewrite !bulk_zlen. pose proof (udec_zlen_mono (zlen a) (zlen b) ltac:(lia)). lia.
Qed.

(** ** Writes *)
Lemma blit_at pre old rest src : length old = length src ->
  blit (pre ++ old ++ rest) (zlen pre) src = Ok (pre ++ src ++ rest).
Proof.
  intros H. rewrite blit_Ok by (rewrite ?length_app; lia). f_equal.
  rewrite Nat2Z.id, take_app_length. do 2 f_equal.
  rewrite app_assoc. apply drop_app_length'. rewrite length_app. lia.
Qed.

(** [written m m' pre d]: [m'] is [m], whose first bytes are [pre], with [d]
    after them. *)
Definition written (n : nat) (pre : bytes) (m : bytes) : Prop :=
  length m = n /\ exists rest, m = pre ++ rest.

Lemma written_blit n pre m src : written n pre m -> (length pre + length src <= n)%nat ->
  exists m', blit m (zlen pre) src = Ok m' /\ written n (pre ++ src) m'.
Proof.
  intros [Hn [rest ->]] Hl. rewrite length_app in Hn.
  rewrite <- (take_drop (length src) rest). rewrite blit_at by (rewrite length_take; lia).
  eexists. split; [done|]. split; [|eexists; by rewrite <- app_assoc].
  rewrite !length_app, length_drop. lia.
Qed.

Lemma written_take n pre d m : written n (pre ++ d) m -> written n pre m.
Proof. intros [Hn [rest ->]]. split; [done|]. eexists. by rewrite <- app_assoc. Qed.

Lemma written_store n pre m c : written n pre m -> (length pre < n)%nat ->
  exists m', store m (zlen pre) c = Ok m' /\ written n (pre ++ [c]) m'.
Proof.
  intros [Hn [rest ->]] Hl. rewrite length_app in Hn. destruct rest as [|x rest]; [simpl in *; lia|].
  rewrite store_head. eexists. split; [done|]. split; [|by eexists].
  rewrite !length_app in *. simpl in *. lia.
Qed.

Lemma sprintf_spec n pre m text : written n pre m -> (length pre + length text < n)%nat ->
  Z.of_nat n < 2 ^ 31 ->
  exists m', sprintf m (zlen pre) text = Ok (m', zlen (pre ++ text)) /\ written n (pre ++ text) m'.
Proof.
  intros Hm Hl Hn. unfold sprintf.
  destruct (written_blit n pre m (text ++ [0]) Hm) as (m' & -> & Hm');
    [rewrite length_app; simpl; lia|].
  exists m'. cbn [mbind result_bind]. rewrite s32_id by lia. rewrite length_app, Nat2Z.inj_add.
  split; [done|]. rewrite app_assoc in Hm'. by eapply written_take.
Qed.

(** One argument is written where the previous one ends. *)
Lemma put_bulk_spec n pre m d q : written n pre m ->
  (length pre + length (bulk d) < n)%nat -> Z.of_nat n < 2 ^ 31 ->
  exists m', put_bulk m (zlen pre) (d ++ q) (zlen d) = Ok (m', zlen (pre ++ bulk d)) /\
    written n (pre ++ bulk d) m'.
Proof.
  intros Hm Hl Hn. rewrite bulk_eq in *. unfold put_bulk.
  set (h := 36 :: udec (zlen d) ++ crlf) in *. rewrite !length_app in Hl. cbn [length crlf] in Hl.
  destruct (sprintf_spec n pre m h Hm) as (m1 & -> & Hm1); [lia|done|]. cbn [mbind result_bind].
  rewrite slice_prefix by done. cbn [mbind result_bind].
  destruct (written_blit n (pre ++ h) m1 d Hm1) as (m2 & -> & Hm2); [rewrite length_app; lia|].
  cbn [mbind result_bind]. rewrite (length_app pre h).
  set (p1 := Z.of_nat (length pre + length h) + zlen d).
  rewrite (u64_id p1), (s32_id p1) by lia. replace p1 with (zlen ((pre ++ h) ++ d))
    by (rewrite !length_app; lia).
  destruct (written_store n _ m2 CR Hm2) as (m3 & -> & Hm3); [rewrite !length_app; lia|].
  cbn [mbind result_bind].
  replace (s32 (zlen ((pre ++ h) ++ d) + 1)) with (zlen (((pre ++ h) ++ d) ++ [CR]))
    by (rewrite s32_id by (rewrite !length_app; lia); rewrite !length_app; cbn [length]; lia).
  destruct (written_store n _ m3 LF Hm3) as (m4 & -> & Hm4); [rewrite !length_app; cbn [length crlf]; lia|].
  cbn [mbind result_bind]. exists m4.
  replace (s32 (zlen (((pre ++ h) ++ d) ++ [CR]) + 1)) with (zlen (pre ++ h ++ d ++ crlf)).
  2:{ rewrite s32_id by (rewrite !length_app; cbn [length crlf]; lia). rewrite !length_app. cbn [length crlf]. lia. }
  split; [done|]. replace (pre ++ h ++ d ++ crlf) with ((((pre ++ h) ++ d) ++ [CR]) ++ [LF]);
    [done|]. by rewrite <- !app_assoc.
Qed.

(** ** Arguments *)
Lemma body_cons d ds : zlen (flat_map bulk (d :: ds)) = zlen (bulk d) + zlen (flat_map bulk ds).
Proof. cbn [flat_map]. rewrite length_app. lia. Qed.

Lemma bulk_pos d : zlen d < zlen (bulk d).
Proof. rewrite bulk_zlen. pose proof (udec_length_pos (zlen d) ltac:(lia)). lia. Qed.

(** The arguments of the C array: blocks that start with them, and their
    lengths, or C strings. *)
Definition args_are (ds argv : list bytes) (argvlen : option (list Z)) : Prop :=
  Forall2 (fun d p => exists q, p = d ++ q) ds argv /\
  match argvlen with
  | Some lens => lens = (fun d => zlen d) <$> ds
  | None => Forall2 c_string ds argv
  end.

Lemma args_are_nth ds argv argvlen j d : args_are ds argv argvlen -> ds !! j = Some d ->
  arg_len argv argvlen j = Ok (zlen d) /\ exists q, nth_arg argv j = Ok (d ++ q).
Proof.
  intros [Hp Hl] Hd. destruct (Forall2_lookup_l _ _ _ _ _ Hp Hd) as (p & Hj & q & ->).
  unfold arg_len, nth_arg. rewrite Hj. split; [|by exists q]. destruct argvlen as [lens|].
  - by rewrite Hl, list_lookup_fmap, Hd.
  - destruct (Forall2_lookup_l _ _ _ _ _ Hl Hd) as (p & Hj' & Hn & r & Hr).
    cbn [mbind result_bind]. rewrite Hj in Hj'. injection Hj' as <-. rewrite Hr.
    by apply strlen_app.
Qed.

(** The total is the length of the text, in any type that holds it. *)
Lemma total_len_spec wrap ds argv argvlen : (forall x, 0 <= x < 2 ^ 31 -> wrap (u64 x) = x) ->
  args_are ds argv argvlen -> forall ds2 ds1 t, ds = ds1 ++ ds2 -> 0 <= t ->
  t + zlen (flat_map bulk ds2) < 2 ^ 31 ->
  total_len wrap argv argvlen (length ds2) (length ds1) t = Ok (t + zlen (flat_map bulk ds2)).
Proof.
  intros Hw Ha. induction ds2 as [|d ds2 IH]; intros ds1 t -> Ht Hl; cbn [total_len length].
  { cbn. f_equal. lia. }
  destruct (args_are_nth _ _ _ (length ds1) d Ha) as [-> _]; [by rewrite list_lookup_middle|].
  rewrite body_cons in *. pose proof (bulk_pos d). cbn [mbind result_bind].
  rewrite bulklen_spec by lia. cbn [mbind result_bind]. rewrite Hw by lia.
  replace (S (length ds1)) with (length (ds1 ++ [d])) by slia.
  rewrite (IH (ds1 ++ [d])) by (solve_app || lia). f_equal. lia.
Qed.

Lemma raw_args_spec n ds argv argvlen : args_are ds argv argvlen -> Z.of_nat n < 2 ^ 31 ->
  forall ds2 ds1 pre m, ds = ds1 ++ ds2 -> written n pre m ->
  (length pre + length (flat_map bulk ds2) < n)%nat ->
  exists m', raw_args m (zlen pre) argv argvlen (length ds2) (length ds1) =
    Ok (m', zlen (pre ++ flat_map bulk ds2)) /\ written n (pre ++ flat_map bulk ds2) m'.
Proof.
  intros Ha Hn. induction ds2 as [|d ds2 IH]; intros ds1 pre m -> Hm Hl;
    cbn [raw_args length flat_map].
  { exists m. by rewrite app_nil_r. }
  cbn [flat_map] in Hl. rewrite length_app in Hl.
  destruct (args_are_nth _ _ _ (length ds1) d Ha) as [-> [q ->]]; [by rewrite list_lookup_middle|].
  cbn [mbind result_bind].
  destruct (put_bulk_spec n pre m d q Hm) as (m1 & -> & Hm1); [lia|done|]. cbn [mbind result_bind].
  replace (S (length ds1)) with (length (ds1 ++ [d])) by slia.
  rewrite app_assoc. apply IH; [solve_app|done|]. rewrite length_app. lia.
Qed.

Lemma put_args_spec n : Z.of_nat n < 2 ^ 31 ->
  forall ds l pre m, tokens_are ds l -> written n pre m ->
  (length pre + length (flat_map bulk ds) < n)%nat ->
  exists m', put_args m (zlen pre) l = Ok (m', zlen (pre ++ flat_map bulk ds)) /\
    written n (pre ++ flat_map bulk ds) m'.
Proof.
  intros Hn. induction ds as [|d ds IH]; intros l pre m Hds Hm Hl.
  { apply Forall2_nil_inv_l in Hds as ->. exists m. cbn. by rewrite app_nil_r. }
  apply Forall2_cons_inv_l in Hds as (a & l' & Had & Hds & ->).
  cbn [put_args flat_map] in *. rewrite length_app in Hl.
  destruct (sds_is_buf _ _ Had) as (r & -> & ->).
  destruct (put_bulk_spec n pre m d (0 :: r) Hm) as (m1 & -> & Hm1); [lia|done|].
  cbn [mbind result_bind]. rewrite app_assoc. apply IH; [done..|]. rewrite length_app. lia.
Qed.

(** ** The header and the terminator *)
Definition header (args : list bytes) : bytes := 42 :: udec (zlen args) ++ crlf.

Lemma header_zlen args : zlen args < 2 ^ 64 ->
  zlen (header args) = zlen (udec (zlen args)) + 3 /\ 4 <= zlen (header args) <= 23.
Proof.
  intros H. unfold header. rewrite length_cons, length_app. cbn [length crlf].
  pose proof (udec_zlen_bound (zlen args) ltac:(lia)). lia.
Qed.

Lemma command_zlen args : zlen (command args) = zlen (header args) + zlen (flat_map bulk args).
Proof. rewrite command_eq, length_app. unfold header. lia. Qed.

Lemma body_ge args : zlen args <= zlen (flat_map bulk args).
Proof.
  induction args as [|a args IH]; [done|]. rewrite body_cons. cbn [length].
  pose proof (bulk_pos a). lia.
Qed.

(** What the formatters return: the length of the command and a block that
    holds it as a C string. *)
Definition holds_command (args : list bytes) (len : Z) (cmd : bytes) : Prop :=
  len = zlen (command args) /\ cmd = command args ++ [0].

Lemma written_command args m : written (S (length (command args))) (command args) m ->
  exists m', store m (zlen (command args)) 0 = Ok m' /\ holds_command args (zlen (command args)) m'.
Proof.
  intros Hm. destruct (written_store _ _ m 0 Hm) as (m' & -> & Hm'); [lia|].
  exists m'. split; [done|]. split; [done|]. destruct Hm' as [Hn [rest ->]].
  rewrite length_app in Hn. rewrite length_app in Hn. cbn [length] in Hn.
  destruct rest; [by rewrite app_nil_r|simpl in Hn; lia].
Qed.

Section build.
Context {M : Malloc}.

Lemma written_fresh n : written n [] (fresh_block (Z.of_nat n)).
Proof. split; [rewrite length_fresh_block; lia|]. by eexists. Qed.

Lemma build_command_spec args l : tokens_are args l -> zlen (command args) < INT_MAX ->
  match build_command l (zlen (flat_map bulk args)) with
  | Ok (inr (len, cmd)) => holds_command args len cmd
  | Ok (inl e) => e = memory_err /\ exists n, malloc_ok n = false
  | Fault _ => False
  end.
Proof.
  intros Hl Hlen. unfold INT_MAX in Hlen. pose proof (body_ge args).
  pose proof (command_zlen args) as Hc. unfold build_command.
  rewrite <- (Forall2_length _ _ _ Hl).
  destruct (header_zlen args) as [Hh Hh2]; [lia|].
  rewrite countDigits_spec by lia. cbn [mbind result_bind].
  rewrite (u32_id (1 + _ + 2)) by lia.
  replace (zlen (flat_map bulk args) + (1 + zlen (udec (zlen args)) + 2))
    with (zlen (command args)) by lia.
  rewrite u32_id, (s32_id (zlen (command args))), (s32_id (_ + 1)), u64_id by lia.
  destruct (malloc_ok _) eqn:Em; cbn [negb]; [|eauto].
  replace (zlen (command args) + 1) with (Z.of_nat (S (length (command args)))) by lia.
  set (n := S (length (command args))).
  assert (42 :: sdec (zlen args) ++ crlf = header args) as ->.
  { unfold sdec. by bool_false (zlen args <? 0). }
  destruct (sprintf_spec n [] _ (header args) (written_fresh n)) as (m1 & H1 & Hm1);
    [unfold n; cbn [length]; lia|unfold n; lia|]. change (zlen []) with 0 in H1. rewrite H1. cbn [mbind result_bind app] in *.
  destruct (put_args_spec n ltac:(unfold n; lia) args l (header args) m1 Hl Hm1) as (m2 & -> & Hm2);
    [unfold n; lia|]. cbn [mbind result_bind].
  rewrite <- (command_eq args : command args = header args ++ flat_map bulk args) in *.
  rewrite Z.eqb_refl. cbn [c_assert mbind result_bind].
  destruct (written_command args m2 Hm2) as (m3 & -> & Hm3). exact Hm3.
Qed.


(** ** redisFormatCommandArgv and redisFormatSdsCommandArgv *)

(** The value returned and the target: [Q] on success, -1 and no target when
    an allocation failed. *)
Definition formats {A} (m : result (Z * option A)) (Q : Z -> A -> Prop) : Prop :=
  match m with
  | Ok (len, Some cmd) => Q len cmd
  | Ok (len, None) => len = -1 /\ exists n, malloc_ok n = false
  | Fault _ => False
  end.

(** The same, when a result of an allocation is used unchecked. *)
Definition formats_any {A} (m : result (Z * option A)) (Q : Z -> A -> Prop) : Prop :=
  match m with
  | Ok (len, Some cmd) => Q len cmd
  | Ok (len, None) => len = -1 /\ exists n, malloc_ok n = false
  | Fault e => e = NullDeref /\ exists n, malloc_ok n = false
  end.

Lemma argv_spec ds argv argvlen : args_are ds argv argvlen -> zlen (command ds) < INT_MAX ->
  formats (redisFormatCommandArgv true (zlen ds) argv argvlen) (holds_command ds).
Proof.
  intros Ha Hlen. unfold INT_MAX in Hlen. pose proof (body_ge ds).
  pose proof (command_zlen ds) as Hc. unfold redisFormatCommandArgv. cbn [negb].
  destruct (header_zlen ds) as [Hh Hh2]; [lia|].
  rewrite u64_id, countDigits_spec by lia. cbn [mbind result_bind].
  rewrite u32_id, s32_id by lia. rewrite Nat2Z.id.
  pose proof (total_len_spec s32 ds argv argvlen
    ltac:(intros; rewrite u64_id, s32_id by lia; done) Ha ds [] (zlen (header ds)) eq_refl
    ltac:(lia) ltac:(lia)) as Ht. cbn [length] in Ht.
  replace (1 + zlen (udec (zlen ds)) + 2) with (zlen (header ds)) by lia.
  rewrite Ht. cbn [mbind result_bind]. rewrite <- Hc. rewrite (s32_id (_ + 1)), u64_id by lia.
  destruct (malloc_ok _) eqn:Em; cbn [negb]; [|cbn; eauto].
  replace (zlen (command ds) + 1) with (Z.of_nat (S (length (command ds)))) by lia.
  set (n := S (length (command ds))).
  assert (42 :: sdec (zlen ds) ++ crlf = header ds) as ->.
  { unfold sdec. by bool_false (zlen ds <? 0). }
  destruct (sprintf_spec n [] _ (header ds) (written_fresh n)) as (m1 & H1 & Hm1);
    [unfold n; cbn [length]; lia|unfold n; lia|].
  change (zlen []) with 0 in H1. rewrite H1. cbn [mbind result_bind app] in *.
  destruct (raw_args_spec n ds argv argvlen Ha ltac:(unfold n; lia) ds [] (header ds) m1
    eq_refl Hm1) as (m2 & H2 & Hm2); [unfold n; lia|]. cbn [length] in H2. rewrite H2.
  cbn [mbind result_bind].
  rewrite <- (command_eq ds : command ds = header ds ++ flat_map bulk ds) in *.
  rewrite Z.eqb_refl. cbn [c_assert mbind result_bind].
  destruct (written_command ds m2 Hm2) as (m3 & -> & Hm3). exact Hm3.
Qed.

Lemma sds_args_spec ds argv argvlen : args_are ds argv argvlen ->
  forall ds2 ds1 c s, ds = ds1 ++ ds2 -> sds_is c s ->
  zlen c + zlen (flat_map bulk ds2) < 2 ^ 31 ->
  returns_total (sds_args s argv argvlen (length ds2) (length ds1))
    (sds_is (c ++ flat_map bulk ds2)).
Proof.
  intros Ha. induction ds2 as [|d ds2 IH]; intros ds1 c s -> Hs Hl;
    cbn [sds_args length flat_map].
  { by rewrite app_nil_r. }
  rewrite body_cons in Hl. pose proof (bulk_zlen d) as Hb.
  destruct (args_are_nth _ _ _ (length ds1) d Ha) as [-> [q ->]]; [by rewrite list_lookup_middle|].
  cbn [mbind result_bind]. rewrite u32_id by lia.
  set (h := 36 :: udec (zlen d) ++ crlf).
  assert (zlen h = zlen (udec (zlen d)) + 3) as Hh
    by (unfold h; rewrite length_cons, length_app; simpl; lia).
  eapply returns_total_bind.
  { apply (sdscatfmt_spec s c (36 :: 37 :: 117 :: crlf) [] [AUnsigned (zlen d)] h);
      [done|by repeat constructor| |done|lia].
    constructor; [cbn; lia|constructor]. }
  intros s1 Hs1. eapply returns_total_bind.
  { apply unchecked_total. apply (sdscatlen_spec s1 (c ++ h) d q); [done|rewrite length_app; lia]. }
  intros s2 Hs2. eapply returns_total_bind.
  { apply unchecked_total. apply (sdscatlen_spec s2 ((c ++ h) ++ d) crlf [0]); [done|].
    rewrite !length_app. cbn [length crlf]. lia. }
  intros s3 Hs3. replace (S (length ds1)) with (length (ds1 ++ [d])) by slia.
  replace (c ++ bulk d ++ flat_map bulk ds2)
    with ((((c ++ h) ++ d) ++ crlf) ++ flat_map bulk ds2)
    by (rewrite bulk_eq; fold h; by rewrite <- !app_assoc).
  apply IH; [solve_app|done|]. rewrite !length_app. cbn [length crlf]. lia.
Qed.

Lemma sds_argv_spec ds argv argvlen : args_are ds argv argvlen -> zlen (command ds) < INT_MAX ->
  formats_any (redisFormatSdsCommandArgv true (zlen ds) argv argvlen)
    (fun len s => len = zlen (command ds) /\ sds_is (command ds) s).
Proof.
  intros Ha Hlen. unfold INT_MAX in Hlen. pose proof (body_ge ds).
  pose proof (command_zlen ds) as Hc. unfold redisFormatSdsCommandArgv. cbn [negb].
  destruct (header_zlen ds) as [Hh Hh2]; [lia|].
  rewrite u64_id, countDigits_spec by lia. cbn [mbind result_bind].
  rewrite u32_id by lia. rewrite Nat2Z.id.
  pose proof (total_len_spec u64 ds argv argvlen
    ltac:(intros x Hx; by rewrite (u64_id x), u64_id by lia) Ha ds [] (zlen (header ds))
    eq_refl ltac:(lia) ltac:(lia)) as Ht. cbn [length] in Ht.
  replace (1 + zlen (udec (zlen ds)) + 2) with (zlen (header ds)) by lia.
  rewrite Ht. cbn [mbind result_bind]. rewrite <- Hc.
  pose proof sdsempty_spec as He. destruct sdsempty as [[s0|]|]; [|by split|done].
  cbn [mbind result_bind returns] in *.
  pose proof (sdsMakeRoomFor_spec s0 [] (zlen (command ds)) He ltac:(lia) ltac:(cbn [length]; lia)) as Hr.
  destruct (sdsMakeRoomFor s0 _) as [[s|]|]; [|by split|done]. cbn [mbind result_bind returns] in *.
  destruct Hr as [Hs _].
  assert (returns_total
    (cmd ← sdscatfmt s (42 :: 37 :: 105 :: crlf ++ [0]) [AInt (zlen ds)];
     cmd ← sds_args cmd argv argvlen (length ds) 0;
     _ ← c_assert (sdslen cmd =? zlen (command ds));
     Ok (s32 (zlen (command ds)), Some cmd))
    (fun r => exists s, r = (zlen (command ds), Some s) /\ sds_is (command ds) s)) as Hall.
  { eapply returns_total_bind.
    { apply (sdscatfmt_spec s [] (42 :: 37 :: 105 :: crlf) [] [AInt (zlen ds)] (header ds));
        [done|by repeat constructor| | |cbn [length]; lia].
      - constructor; [cbn; lia|constructor].
      - unfold header. cbn [fmt_text Z.eqb Pos.eqb is_conv orb arg_letter arg_text fmap option_fmap
          option_map crlf CR LF]. unfold sdec. by bool_false (zlen ds <? 0). }
    intros s1 Hs1. eapply returns_total_bind.
    { apply (sds_args_spec ds argv argvlen Ha ds [] _ _ eq_refl Hs1). cbn [app]. lia. }
    intros s2 Hs2. cbn [app] in Hs2.
    rewrite <- (command_eq ds : command ds = header ds ++ flat_map bulk ds) in *.
    rewrite (sds_is_len _ _ Hs2), Z.eqb_refl. cbn [c_assert mbind result_bind].
    rewrite s32_id by lia. by exists s2. }
  destruct (_ ≫= _) as [r|e]; cbn in Hall |- *; [|done].
  destruct Hall as (s' & -> & Hs'). by split.
Qed.

End build.
