(* ===== verification/FormatSpec.v ===== *)
(** * FormatSpec: what redisvFormatCommand makes of a format

    [expand] reads a format as a sequence of items, a blank or a text that
    belongs to an argument; [words] groups the texts between blanks. The
    command holds these words. *)
From S2P Require Import Prelude Mem Sds SdsFacts SdsText SdsTextFacts SdsSplit.
From S2P Require Import Resp Format FormatFacts.
From stdpp Require Import list list_numbers strings sets gmap.
From Stdlib Require Import ZArith Lia.
Open Scope Z_scope.

(** ** Conversions of printf *)

(** The letter after a size. *)
Definition sized (l : bytes) (next : list va -> result (list va)) (ap : list va) :
    option (option (bytes * list va)) :=
  match l with
  | [] => Some None
  | x :: _ =>
      if strchr_in intfmts x
      then match next ap with Ok ap => Some (Some (l, ap)) | Fault _ => None end
      else Some None
  end.

(** The text after [%] up to the conversion letter, which heads the result.
    [None]: the format ends before the letter, or the argument is of another
    type; [Some None]: the letter is not one of [printf]. *)
Definition scan (l : bytes) (ap : list va) : option (option (bytes * list va)) :=
  let l := drop_while isdigit (drop_while (strchr_in flags) l) in
  let l := match l with
           | x :: l' => if x =? 46 then drop_while isdigit l' else l
           | [] => l
           end in
  match l with
  | [] => None
  | x :: q =>
      if strchr_in intfmts x
      then match va_int ap with Ok ap => Some (Some (l, ap)) | Fault _ => None end
      else if strchr_in dblfmts x
      then match va_double ap with Ok ap => Some (Some (l, ap)) | Fault _ => None end
      else if x =? 104 then
        match q with
        | y :: q' => if y =? 104 then sized q' va_int ap else sized q va_int ap
        | [] => Some None
        end
      else if x =? 108 then
        match q with
        | y :: q' => if y =? 108 then sized q' va_longlong ap else sized q va_long ap
        | [] => Some None
        end
      else Some None
  end.

Section expand.
Context (vtext : bytes -> list va -> bytes).

(** The text of the conversion after [%], the format and the arguments left. *)
Definition conversion (l : bytes) (ap : list va) : option (option (bytes * bytes * list va)) :=
  match l with
  | [] => None
  | y :: f =>
      if y =? 115 then
        match ap with
        | VPtr p :: ap =>
            match index_of 0 p with
            | Some n => Some (Some (take n p, f, ap))
            | None => None
            end
        | _ => None
        end
      else if y =? 98 then
        match ap with
        | VPtr p :: VSize n :: ap =>
            if (0 <=? n) && (n <=? zlen p) then Some (Some (take (Z.to_nat n) p, f, ap)) else None
        | _ => None
        end
      else if y =? 37 then Some (Some ([37], f, ap))
      else
        match scan l ap with
        | None => None
        | Some None => Some None
        | Some (Some (q, ap')) =>
            let k := (length l - length q + 1)%nat in
            if (k + 1 <? 14)%nat then Some (Some (vtext (37 :: take k l) ap, tail q, ap'))
            else Some (Some ([], f, ap'))
        end
  end.

(** The items of a format, and whether it is refused after them. *)
Fixpoint expand (fuel : nat) (f : bytes) (ap : list va) : option (list (option bytes) * bool) :=
  match fuel with
  | O => None
  | S n =>
      match f with
      | [] => Some ([], false)
      | c :: f =>
          if negb (c =? 37) || bool_decide (f = []) then
            '(items, bad) ← expand n f ap;
            Some ((if c =? 32 then None else Some [c]) :: items, bad)
          else
            match conversion f ap with
            | None => None
            | Some None => Some ([], true)
            | Some (Some (t, f, ap)) =>
                '(items, bad) ← expand n f ap; Some (Some t :: items, bad)
            end
      end
  end.

End expand.

Definition started (cur : option bytes) : list bytes :=
  match cur with Some c => [c] | None => [] end.

(** The arguments: the texts between blanks, joined; [cur] is the argument
    that has been started. *)
Fixpoint words (cur : option bytes) (items : list (option bytes)) : list bytes :=
  match items with
  | [] => started cur
  | None :: items => started cur ++ words None items
  | Some t :: items => words (Some (default [] cur ++ t)) items
  end.

Lemma words_ge items : forall cur,
  zlen (flat_map bulk (started cur)) <= zlen (flat_map bulk (words cur items)).
Proof.
  induction items as [|[t|] items IH]; intros cur; cbn [words]; [lia| |].
  - etrans; [|apply IH]. destruct cur as [c|]; cbn [started default from_option id];
      [rewrite !body_cons|rewrite body_cons; cbn [flat_map length]; lia].
    pose proof (bulk_mono c (c ++ t)) as H.
    rewrite length_app in H. specialize (H ltac:(lia)). lia.
  - rewrite flat_map_app, length_app. lia.
Qed.

(** ** The scanner *)
Lemma skip_while_spec test l : forall fuel pre r, no_nul l -> (length l < fuel)%nat ->
  exists p, l = p ++ drop_while test l /\
    skip_while fuel test (pre ++ l ++ 0 :: r) (zlen pre) = Ok (zlen (pre ++ p)).
Proof.
  induction l as [|c l IH]; intros [|fuel] pre r Hl Hf; cbn [length] in Hf; try lia;
    cbn [skip_while app drop_while].
  - exists []. split; [done|]. rewrite load_middle. by rewrite app_nil_r.
  - apply Forall_cons in Hl as [Hc Hl]. rewrite load_middle. cbn [mbind result_bind].
    bool_false (c =? 0). cbn [negb andb]. destruct (test c) eqn:E.
    + destruct (IH fuel (pre ++ [c]) r Hl) as (p & Hp & Hs); [lia|].
      exists (c :: p). split; [by rewrite Hp at 1|].
      replace (zlen pre + 1) with (zlen (pre ++ [c])) by slia.
      replace (pre ++ c :: l ++ 0 :: r) with ((pre ++ [c]) ++ l ++ 0 :: r) by solve_app.
      rewrite Hs. do 2 f_equal. solve_app.
    + exists []. split; [done|]. by rewrite app_nil_r.
Qed.

Lemma sized_int_spec pre l r next ap o : no_nul l -> sized l next ap = Some o ->
  sized_int (pre ++ l ++ 0 :: r) (zlen pre) next ap =
  Ok (match o with Some (_, ap) => Some (zlen pre, ap) | None => None end) /\
  (forall q ap', o = Some (q, ap') -> q = l /\ l <> []).
Proof.
  intros Hl Ho. unfold sized_int. destruct l as [|x l]; cbn [sized app] in *;
    rewrite load_middle; cbn [mbind result_bind].
  { injection Ho as <-. by split. }
  apply Forall_cons in Hl as [Hx _]. bool_false (x =? 0). cbn [negb andb].
  destruct (strchr_in intfmts x); [|injection Ho as <-; by split].
  destruct (next ap) as [ap1|]; [|done]. injection Ho as <-. split; [done|].
  by intros q ap' [= <- <-].
Qed.

(** Flags, width and precision are skipped alike. *)
Definition scan_prefix (l : bytes) : bytes :=
  let l := drop_while isdigit (drop_while (strchr_in flags) l) in
  match l with
  | x :: l' => if x =? 46 then drop_while isdigit l' else l
  | [] => l
  end.

Lemma scan_prefix_spec pre l r n : no_nul l -> (length l < n)%nat ->
  exists p, l = p ++ scan_prefix l /\
  (q ← skip_while n (strchr_in flags) (pre ++ l ++ 0 :: r) (zlen pre);
   q ← skip_while n isdigit (pre ++ l ++ 0 :: r) q;
   x ← load (pre ++ l ++ 0 :: r) q;
   if x =? 46 then skip_while n isdigit (pre ++ l ++ 0 :: r) (q + 1) else Ok q)
  = Ok (zlen (pre ++ p)).
Proof.
  intros Hl Hn. unfold scan_prefix.
  destruct (skip_while_spec (strchr_in flags) l n pre r Hl Hn) as (p1 & H1 & ->).
  set (d1 := drop_while _ l) in *. clearbody d1. subst l. cbn [mbind result_bind].
  apply Forall_app in Hl as [_ Hl]. rewrite length_app in Hn.
  replace (pre ++ (p1 ++ d1) ++ 0 :: r) with ((pre ++ p1) ++ d1 ++ 0 :: r) by solve_app.
  destruct (skip_while_spec isdigit d1 n (pre ++ p1) r Hl) as (p2 & H2 & ->); [lia|].
  set (d2 := drop_while _ d1) in *. clearbody d2. subst d1. cbn [mbind result_bind].
  apply Forall_app in Hl as [_ Hl]. rewrite length_app in Hn.
  replace ((pre ++ p1) ++ (p2 ++ d2) ++ 0 :: r) with (((pre ++ p1) ++ p2) ++ d2 ++ 0 :: r)
    by solve_app.
  destruct d2 as [|x d2]; cbn [app]; rewrite load_middle; cbn [mbind result_bind].
  { exists (p1 ++ p2). split; [solve_app|]. cbn [Z.eqb]. by rewrite (app_assoc pre). }
  destruct (x =? 46).
  - apply Forall_cons in Hl as [_ Hl]. cbn [length] in Hn.
    replace (zlen ((pre ++ p1) ++ p2) + 1) with (zlen (((pre ++ p1) ++ p2) ++ [x])) by slia.
    replace (((pre ++ p1) ++ p2) ++ x :: d2 ++ 0 :: r)
      with ((((pre ++ p1) ++ p2) ++ [x]) ++ d2 ++ 0 :: r) by solve_app.
    destruct (skip_while_spec isdigit d2 n (((pre ++ p1) ++ p2) ++ [x]) r Hl) as (p3 & H3 & ->);
      [lia|]. exists (p1 ++ p2 ++ x :: p3). split; [by rewrite H3 at 1; solve_app|].
    do 2 f_equal. solve_app.
  - exists (p1 ++ p2). split; [solve_app|]. by rewrite (app_assoc pre).
Qed.

Lemma scan_spec pre l r ap o : no_nul l -> scan l ap = Some o ->
  scan_conversion (pre ++ 37 :: l ++ 0 :: r) (zlen pre) ap =
    Ok (match o with
        | Some (q, ap) => Some (zlen pre + 1 + (zlen l - zlen q), ap)
        | None => None
        end) /\
  (forall q ap', o = Some (q, ap') -> q <> [] /\ exists l1, l = l1 ++ q).
Proof.
  intros Hl Ho. unfold scan_conversion. set (n := S (length (pre ++ 37 :: l ++ 0 :: r))).
  assert (length l < n)%nat as Hn by (unfold n; rewrite length_app, length_cons, length_app; lia).
  replace (zlen pre + 1) with (zlen (pre ++ [37])) by slia.
  replace (pre ++ 37 :: l ++ 0 :: r) with ((pre ++ [37]) ++ l ++ 0 :: r) by solve_app.
  destruct (scan_prefix_spec (pre ++ [37]) l r n Hl Hn) as (p & Hp & Hs).
  unfold scan in Ho. fold (scan_prefix l) in Ho.
  destruct (skip_while n (strchr_in flags) _ _) as [q0|]; [|done]. cbn [mbind result_bind] in *.
  destruct (skip_while n isdigit _ q0) as [q1|]; [|done]. cbn [mbind result_bind] in *.
  destruct (load _ q1) as [x1|]; [|done]. cbn [mbind result_bind] in *. rewrite Hs.
  cbn [mbind result_bind]. set (d := scan_prefix l) in *. clearbody d. clear Hs.
  clear n Hn q0 q1 x1. subst l. apply Forall_app in Hl as [_ Hl].
  set (P := (pre ++ [37]) ++ p).
  replace ((pre ++ [37]) ++ (p ++ d) ++ 0 :: r) with (P ++ d ++ 0 :: r) by (unfold P; solve_app).
  assert (forall q, zlen (pre ++ [37]) + (zlen (p ++ q) - zlen q) = zlen P) as HP
    by (intros; unfold P; rewrite !length_app; lia).
  destruct d as [|x d]; [done|]. cbn [app]. rewrite load_middle. cbn [mbind result_bind].
  destruct (strchr_in intfmts x).
  { destruct (va_int ap) as [ap1|]; [|done]. injection Ho as <-. cbn [mbind result_bind].
    rewrite HP. split; [done|]. intros q ap' [= <- <-]. split; [done|]. by exists p. }
  destruct (strchr_in dblfmts x).
  { destruct (va_double ap) as [ap1|]; [|done]. injection Ho as <-. cbn [mbind result_bind].
    rewrite HP. split; [done|]. intros q ap' [= <- <-]. split; [done|]. by exists p. }
  assert (forall s q next i, x :: d = s ++ q -> i = zlen P + zlen s -> sized q next ap = Some o ->
    sized_int (P ++ x :: d ++ 0 :: r) i next ap =
      Ok (match o with
          | Some (q, ap) => Some (zlen (pre ++ [37]) + (zlen (p ++ x :: d) - zlen q), ap)
          | None => None
          end) /\
    (forall q ap', o = Some (q, ap') -> q <> [] /\ exists l1, p ++ x :: d = l1 ++ q)) as Hsz.
  { intros s q next i Hs -> Hq. rewrite Hs in Hl |- *. apply Forall_app in Hl as [_ Hl].
    change (x :: d ++ 0 :: r) with ((x :: d) ++ 0 :: r). rewrite Hs.
    replace (P ++ (s ++ q) ++ 0 :: r) with ((P ++ s) ++ q ++ 0 :: r) by solve_app.
    replace (zlen P + zlen s) with (zlen (P ++ s)) by (rewrite length_app; lia).
    destruct (sized_int_spec (P ++ s) q r next ap o Hl Hq) as [-> Hsq]. split.
    - f_equal. destruct o as [[q' ap']|]; [|done]. destruct (Hsq q' ap' eq_refl) as [-> _].
      do 2 f_equal. rewrite !length_app. unfold P. rewrite !length_app. lia.
    - intros q' ap' ->. destruct (Hsq q' ap' eq_refl) as [-> ?]. split; [done|].
      exists (p ++ s). by rewrite app_assoc. }
  assert (load (P ++ x :: d ++ 0 :: r) (zlen P + 1) = Ok (default 0 (head d))) as Hnext.
  { replace (zlen P + 1) with (zlen (P ++ [x])) by slia.
    replace (P ++ x :: d ++ 0 :: r) with ((P ++ [x]) ++ d ++ 0 :: r) by solve_app.
    destruct d; apply load_middle. }
  destruct ((x =? 104) || (x =? 108)) eqn:E.
  2:{ apply orb_false_elim in E as [E1 E2]. rewrite E1, E2 in Ho. injection Ho as <-. by split. }
  rewrite Hnext. cbn [mbind result_bind]. destruct (x =? 104) eqn:E1; cbn [andb orb] in *.
  - destruct d as [|y d]; cbn [head default from_option id] in *.
    { injection Ho as <-. apply (Hsz [x] []); [done|slia|done]. }
    destruct (y =? 104); [by apply (Hsz [x; y] d); [|slia|]|by apply (Hsz [x] (y :: d)); [|slia|]].
  - rewrite E in Ho. destruct d as [|y d]; cbn [head default from_option id] in *.
    { injection Ho as <-. apply (Hsz [x] []); [done|slia|done]. }
    destruct (y =? 108); [by apply (Hsz [x; y] d); [|slia|]|by apply (Hsz [x] (y :: d)); [|slia|]].
Qed.

Lemma slice_at pre F post : slice (pre ++ F ++ post) (zlen pre) (zlen F) = Ok F.
Proof.
  rewrite slice_Ok by (rewrite ?length_app; lia).
  by rewrite !Nat2Z.id, drop_app_length, take_app_length.
Qed.

(** ** Conversions *)
Section convert.
Context {M : Malloc}.

(** A step returns what [Q] says, or an error: out of memory, or a format that
    is refused if [bad]. *)
Definition outcome {A} (bad : Prop) (m : result (Z + A)) (Q : A -> Prop) : Prop :=
  match m with
  | Ok (inr a) => Q a
  | Ok (inl e) =>
      (e = memory_err /\ exists n, malloc_ok n = false) \/ (e = format_err /\ bad)
  | Fault _ => False
  end.

Lemma outcome_bind {A B} (bad : Prop) (m : result (Z + A)) (k : A -> result (Z + B)) Q R :
  outcome bad m Q -> (forall a, Q a -> outcome bad (k a) R) -> outcome bad (a <-e m; k a) R.
Proof. destruct m as [[e|a]|]; cbn; auto. Qed.

Lemma outcome_mono {A} (bad bad' : Prop) (m : result (Z + A)) (Q R : A -> Prop) :
  outcome bad m Q -> (bad -> bad') -> (forall a, Q a -> R a) -> outcome bad' m R.
Proof. destruct m as [[e|a]|]; cbn; [|auto..]. intros [?|[? ?]]; auto. Qed.

Lemma outcome_memory {A} bad (m : result (option A)) Q :
  returns m Q -> outcome bad (or_memory m) Q.
Proof. destruct m as [[a|]|]; cbn; auto. Qed.

Lemma append_if_spec bad c s t m : sds_is c s -> zlen c + zlen t < 2 ^ 62 ->
  outcome bad (append_if (zlen t) s (t ++ m)) (sds_is (c ++ t)).
Proof.
  intros Hs Hl. unfold append_if. destruct t as [|x t]; [cbn; by rewrite app_nil_r|].
  if_true. apply outcome_memory. by apply sdscatlen_spec.
Qed.

Lemma append_if_take bad c s n p size : sds_is c s -> zlen c + zlen (take n p) < 2 ^ 62 ->
  size = zlen (take n p) -> outcome bad (append_if size s p) (sds_is (c ++ take n p)).
Proof.
  intros Hs Hl ->. pose proof (append_if_spec bad c s (take n p) (drop n p) Hs Hl) as H.
  by rewrite take_drop in H.
Qed.

Context (vformat vtext : bytes -> list va -> bytes).
Hypothesis vformat_text : forall f r ap, no_nul f -> vformat (f ++ 0 :: r) ap = vtext f ap.
Hypothesis vtext_no_nul : forall f ap, no_nul (vtext f ap).

(** The state after a conversion: the text is appended and [c] is two bytes
    before the rest of the format. *)
Definition converted (pre l c : bytes) (o : option (bytes * bytes * list va))
    (res : sds * Z * list va) : Prop :=
  let '(s, i, ap) := res in
  exists t l1 q, o = Some (t, q, ap) /\ l = l1 ++ q /\ l1 <> [] /\
    i + 2 = zlen (pre ++ 37 :: l1) /\ sds_is (c ++ t) s.

Lemma print_spec pre l1 x q r ap s c : no_nul (l1 ++ x :: q) -> sds_is c s ->
  zlen l1 + 2 < 14 -> zlen c + zlen (vtext (37 :: l1 ++ [x]) ap) < 2 ^ 31 ->
  let fmt := pre ++ 37 :: (l1 ++ x :: q) ++ 0 :: r in
  outcome False
    (src ← slice fmt (zlen pre) (zlen l1 + 2);
     f ← blit (fresh_block 16) 0 src;
     f ← store f (zlen l1 + 2) 0;
     or_memory (sdscatvprintf s f (vformat f ap)))
    (sds_is (c ++ vtext (37 :: l1 ++ [x]) ap)).
Proof.
  intros Hl Hs Hk Hlen fmt. set (F := 37 :: l1 ++ [x]) in *.
  assert (zlen F = zlen l1 + 2) as HF by (unfold F; rewrite length_cons, length_app; simpl; lia).
  assert (fmt = pre ++ F ++ (q ++ 0 :: r)) as -> by (unfold fmt, F; solve_app).
  rewrite <- HF, slice_at. cbn [mbind result_bind].
  destruct (written_blit 16 [] (fresh_block (Z.of_nat 16)) F (written_fresh 16)) as (m1 & H1 & Hm1);
    [cbn [length]; lia|]. change (zlen []) with 0 in H1. change (Z.of_nat 16) with 16 in H1.
  rewrite H1. cbn [mbind result_bind app] in *.
  destruct (written_store 16 F m1 0 Hm1) as (m2 & -> & [_ [rest ->]]); [lia|].
  cbn [mbind result_bind]. rewrite <- app_assoc. cbn [app].
  assert (no_nul F) as HnF.
  { apply Forall_cons. split; [done|]. apply Forall_app in Hl as [? Hx].
    apply Forall_app. split; [done|]. apply Forall_cons in Hx as [? _]. by constructor. }
  rewrite vformat_text by done. apply outcome_memory.
  apply sdscatvprintf_spec; [done|done|lia|done|lia|lia].
Qed.

Lemma convert_spec pre l r ap o c s : no_nul l -> sds_is c s ->
  conversion vtext l ap = Some o ->
  (forall t q ap', o = Some (t, q, ap') -> zlen c + zlen t < 2 ^ 31) ->
  outcome (o = None) (convert vformat (pre ++ 37 :: l ++ 0 :: r) (zlen pre) ap s)
    (converted pre l c o).
Proof.
  intros Hl Hs Ho Hsize. unfold convert. destruct l as [|y f]; [done|]. cbn [conversion] in Ho.
  assert (load (pre ++ 37 :: (y :: f) ++ 0 :: r) (zlen pre + 1) = Ok y) as ->.
  { replace (zlen pre + 1) with (zlen (pre ++ [37])) by slia.
    replace (pre ++ 37 :: (y :: f) ++ 0 :: r) with ((pre ++ [37]) ++ y :: f ++ 0 :: r) by solve_app.
    apply load_middle. }
  assert (forall s' t ap', o = Some (t, f, ap') -> sds_is (c ++ t) s' ->
    converted pre (y :: f) c o (s', zlen pre, ap')) as Hone.
  { intros s' t ap' -> Hs'. exists t, [y], f. split_and!; [done|done|done|slia|done]. }
  cbn [mbind result_bind]. destruct (y =? 115).
  { destruct ap as [|[p|?|?|?|?|?] ap]; try done. unfold strlen.
    destruct (index_of 0 p) as [n|] eqn:Hn; [|done]. injection Ho as <-.
    cbn [mbind result_bind].
    destruct (index_of_Some _ _ _ Hn) as [Hln _]. apply lookup_lt_Some in Hln.
    specialize (Hsize _ _ _ eq_refl).
    assert (Z.of_nat n = zlen (take n p)) as Hz by (rewrite length_take; lia).
    eapply outcome_bind.
    { apply append_if_take with (n := n); [done|lia|done]. }
    intros s' Hs'. by eapply Hone. }
  destruct (y =? 98).
  { destruct ap as [|[p|?|?|?|?|?] [|[?|n|?|?|?|?] ap]]; try done.
    destruct ((0 <=? n) && (n <=? zlen p)) eqn:E; [|done]. injection Ho as <-. bool_to_prop.
    specialize (Hsize _ _ _ eq_refl).
    assert (n = zlen (take (Z.to_nat n) p)) as Hz by (rewrite length_take; lia).
    eapply outcome_bind.
    { apply append_if_take with (n := Z.to_nat n); [done|lia|done]. }
    intros s' Hs'. by eapply Hone. }
  destruct (y =? 37).
  { injection Ho as <-. specialize (Hsize _ _ _ eq_refl). eapply outcome_bind.
    { apply outcome_memory. apply (sdscat_spec s c [37] []); [done|by repeat constructor|simpl in *; lia]. }
    intros s' Hs'. by eapply Hone. }
  destruct (scan (y :: f) ap) as [o'|] eqn:Hscan; [|done].
  destruct (scan_spec pre (y :: f) r ap o' Hl Hscan) as [-> Hq]. cbn [mbind result_bind].
  destruct o' as [[q ap']|]; [|injection Ho as <-; by right].
  destruct (Hq q ap' eq_refl) as [Hne [l1 Hl1]]. destruct q as [|x q]; [done|].
  set (k := (length (y :: f) - length (x :: q) + 1)%nat) in *.
  assert (k = (length l1 + 1)%nat) as Hk by (unfold k; rewrite Hl1, length_app; cbn [length]; lia).
  assert (zlen pre + 1 + (zlen (y :: f) - zlen (x :: q)) + 1 - zlen pre = zlen l1 + 2) as ->
    by (rewrite Hl1, length_app; lia).
  change (16 - 2) with 14. cbn [tail] in Ho.
  destruct (k + 1 <? 14)%nat eqn:E.
  - apply Nat.ltb_lt in E. bool_true (zlen l1 + 2 <? 14). injection Ho as <-.
    assert (37 :: take k (y :: f) = 37 :: l1 ++ [x]) as Ht.
    { f_equal. rewrite Hl1, Hk. rewrite take_app_ge by lia.
      by replace (length l1 + 1 - length l1)%nat with 1%nat by lia. }
    specialize (Hsize _ _ _ eq_refl). rewrite Ht in *. rewrite Hl1 in Hl |- *.
    pose proof (print_spec pre l1 x q r ap s c Hl Hs ltac:(lia) Hsize) as Hp. cbn zeta in Hp.
    destruct (slice _ _ _) as [src|]; [|done]. cbn [mbind result_bind] in *.
    destruct (blit _ _ _) as [b|]; [|done]. cbn [mbind result_bind] in *.
    destruct (store _ _ _) as [b'|]; [|done]. cbn [mbind result_bind] in *.
    eapply outcome_bind.
    { eapply outcome_mono; [exact Hp|done|]. intros a Ha. exact Ha. }
    intros s' Hs'. cbn. eexists _, (l1 ++ [x]), q. split_and!; [done|solve_app| | |done].
    + by destruct l1.
    + rewrite !length_app, !length_cons, !length_app. cbn [length]. lia.
  - apply Nat.ltb_ge in E. bool_false (zlen l1 + 2 <? 14). injection Ho as <-.
    apply Hone with []; [done|by rewrite app_nil_r].
Qed.


(** ** The loop *)
Definition touched (cur : option bytes) : bool := match cur with Some _ => true | None => false end.

Lemma push_arg_spec bad args l c s : tokens_are args l -> sds_is c s ->
  zlen (flat_map bulk (args ++ [c])) < 2 ^ 31 ->
  outcome bad (push_arg l (zlen (flat_map bulk args)) s)
    (fun '(l', t') => tokens_are (args ++ [c]) l' /\ t' = zlen (flat_map bulk (args ++ [c]))).
Proof.
  intros Hl Hs Hlen. unfold push_arg. destruct (malloc_ok _) eqn:E; cbn [negb]; [|cbn; eauto].
  rewrite flat_map_app, length_app in *. cbn [flat_map] in *. rewrite app_nil_r in *.
  pose proof (bulk_pos c). rewrite (sds_is_len _ _ Hs), bulklen_spec by lia.
  cbn [mbind result_bind outcome]. split; [by apply tokens_snoc|].
  rewrite u64_id, s32_id by lia. lia.
Qed.

(** The state of the loop: finished arguments and the one that was started. *)
Definition loop_state (args : list bytes) (cur : option bytes)
    (st : sds * bool * list sds * Z) : Prop :=
  let '(s, t, l, totlen) := st in
  sds_is (default [] cur) s /\ t = touched cur /\ tokens_are args l /\
  totlen = zlen (flat_map bulk args).

Lemma words_step t items cur : words cur (Some t :: items) = words (Some (default [] cur ++ t)) items.
Proof. done. Qed.

Lemma words_bound args cur items n : zlen (flat_map bulk (args ++ words cur items)) < n ->
  zlen (flat_map bulk args) + zlen (flat_map bulk (started cur)) < n.
Proof.
  rewrite flat_map_app, length_app. pose proof (words_ge items cur). lia.
Qed.

Lemma words_bound_cur args c items n : zlen (flat_map bulk (args ++ words (Some c) items)) < n ->
  zlen c < n.
Proof.
  intros H. apply words_bound in H. cbn [started] in H. rewrite body_cons in H.
  pose proof (bulk_pos c). lia.
Qed.

Lemma command_loop_spec n : forall fuel f pre r ap cur args s t l totlen items bad,
  no_nul f -> expand vtext n f ap = Some (items, bad) ->
  loop_state args cur (s, t, l, totlen) ->
  zlen (flat_map bulk (args ++ words cur items)) < 2 ^ 31 -> (length f < fuel)%nat ->
  outcome (bad = true)
    (command_loop vformat fuel (pre ++ f ++ 0 :: r) (zlen pre) ap s t l totlen)
    (fun st' => bad = false /\ exists args' cur', loop_state args' cur' st' /\
       args' ++ started cur' = args ++ words cur items).
Proof.
  induction n as [|n IH]; [done|].
  intros [|fuel] f pre r ap cur args s t l totlen items bad Hf He Hst Hlen Hfuel; [lia|].
  destruct Hst as (Hs & -> & Hl & ->). cbn [command_loop expand] in *.
  destruct f as [|x f]; cbn [app]; rewrite load_middle; cbn [mbind result_bind].
  { injection He as <- <-. split; [done|]. by exists args, cur. }
  pose proof Hf as [Hx Hf']%Forall_cons. cbn [length] in Hfuel. bool_false (x =? 0).
  assert ((if negb (x =? 37) then Ok true
           else y ← load (pre ++ x :: f ++ 0 :: r) (zlen pre + 1); Ok (y =? 0))
          = Ok (negb (x =? 37) || bool_decide (f = []))) as ->.
  { destruct (x =? 37); [|done]. cbn [negb orb].
    replace (zlen pre + 1) with (zlen (pre ++ [x])) by slia.
    replace (pre ++ x :: f ++ 0 :: r) with ((pre ++ [x]) ++ f ++ 0 :: r) by solve_app.
    destruct f as [|y f]; cbn [app]; rewrite load_middle; [done|].
    apply Forall_cons in Hf' as [Hy _]. cbn [mbind result_bind]. f_equal.
    by apply Z.eqb_neq. }
  cbn [mbind result_bind].
  destruct (negb (x =? 37) || bool_decide (f = [])) eqn:Elit.
  - destruct (expand vtext n f ap) as [[items' bad']|] eqn:He'; [|done]. cbn in He.
    injection He as <- <-.
    replace (zlen pre + 1) with (zlen (pre ++ [x])) by slia.
    replace (pre ++ x :: f ++ 0 :: r) with ((pre ++ [x]) ++ f ++ 0 :: r) by solve_app.
    destruct (x =? 32) eqn:E32.
    + cbn [words] in Hlen |- *. destruct cur as [c|]; cbn [touched started default] in *.
      * rewrite (app_assoc args) in Hlen |- *. eapply outcome_bind.
        { apply (push_arg_spec _ args l c s Hl Hs). rewrite flat_map_app, length_app in Hlen. lia. }
        intros [l' t'] [Hl' ->]. eapply outcome_bind; [apply outcome_memory, sdsempty_spec|].
        intros s' Hs'.
        apply (IH fuel f (pre ++ [x]) r ap None (args ++ [c]) s' false l' _ items' bad');
          [done|done| |done|lia]. by split_and!.
      * apply (IH fuel f (pre ++ [x]) r ap None args s false l _ items' bad');
          [done|done| |done|lia]. by split_and!.
    + rewrite words_step in Hlen |- *. pose proof (words_bound_cur _ _ _ _ Hlen) as Hc.
      rewrite length_app in Hc. cbn [length] in Hc.
      assert (slice ((pre ++ [x]) ++ f ++ 0 :: r) (zlen pre) 1 = Ok [x]) as ->
        by (rewrite <- app_assoc; apply (slice_at pre [x])).
      cbn [mbind result_bind].
      eapply outcome_bind.
      { apply outcome_memory. apply (sdscatlen_spec s (default [] cur) [x] []); [done|cbn [length]; lia]. }
      intros s' Hs'.
      apply (IH fuel f (pre ++ [x]) r ap (Some (default [] cur ++ [x])) args s' true l _ items' bad');
        [done|done| |done|lia]. by split_and!.
  - apply orb_false_elim in Elit as [E37 _]. apply negb_false_iff, Z.eqb_eq in E37 as ->.
    destruct (conversion vtext f ap) as [o|] eqn:Ho; [|done].
    assert (forall t q ap', o = Some (t, q, ap') ->
      exists items', expand vtext n q ap' = Some (items', bad) /\ items = Some t :: items') as Hnext.
    { intros t q ap' ->. destruct (expand vtext n q ap') as [[items' bad']|]; [|done].
      injection He as <- <-. by eexists. }
    eapply outcome_bind.
    { eapply outcome_mono; [apply (convert_spec pre f r ap o (default [] cur) s Hf' Hs Ho)| |
        intros a Ha; exact Ha].
      - intros t q ap' Hq. destruct (Hnext _ _ _ Hq) as (items' & _ & ->).
        rewrite words_step in Hlen. apply words_bound_cur in Hlen. rewrite length_app in Hlen. lia.
      - intros ->. by injection He as _ <-. }
    intros [[s' i] ap'] (t & l1 & q & -> & -> & Hl1 & Hi & Hs').
    destruct (Hnext _ _ _ eq_refl) as (items' & He' & ->). rewrite words_step in Hlen |- *.
    replace (pre ++ 37 :: (l1 ++ q) ++ 0 :: r) with ((pre ++ 37 :: l1) ++ q ++ 0 :: r) by solve_app.
    rewrite Hi. apply Forall_app in Hf' as [_ Hq].
    apply (IH fuel q (pre ++ 37 :: l1) r ap' (Some (default [] cur ++ t)) args s' true l _ items' bad);
      [done|done| |done|rewrite length_app in Hfuel; lia]. by split_and!.
Qed.

Lemma format_command_spec f r ap items bad : no_nul f ->
  expand vtext (S (length f)) f ap = Some (items, bad) ->
  zlen (command (words None items)) < INT_MAX ->
  outcome (bad = true) (format_command vformat (f ++ 0 :: r) ap)
    (fun '(len, cmd) => bad = false /\ holds_command (words None items) len cmd).
Proof.
  intros Hf He Hlen. unfold format_command. pose proof Hlen as Hlen'. unfold INT_MAX in Hlen.
  rewrite command_zlen in Hlen.
  eapply outcome_bind; [apply outcome_memory, sdsempty_spec|]. intros s0 Hs0.
  eapply outcome_bind.
  { apply (command_loop_spec (S (length f)) (S (length (f ++ 0 :: r))) f [] r ap None []
      s0 false [] 0 items bad Hf He); [by split_and!; [..|constructor|]|cbn [app]; lia|].
    rewrite length_app. lia. }
  intros [[[s t] l] totlen] (-> & args & cur & (Hs & -> & Hl & ->) & Hw). cbn [app] in Hw.
  eapply outcome_bind with (Q := fun '(l, totlen) =>
    tokens_are (words None items) l /\ totlen = zlen (flat_map bulk (words None items))).
  { rewrite <- Hw in Hlen |- *. destruct cur as [c|]; cbn [touched started default] in *.
    - apply push_arg_spec; [done|done|lia].
    - rewrite app_nil_r. by split. }
  intros [l' t'] [Hl' ->]. pose proof (build_command_spec _ _ Hl' Hlen') as Hb.
  destruct (build_command _ _) as [[e|[len cmd]]|]; cbn; [by left|by split|done].
Qed.

End convert.
