(* ===== verification/RoundTrip.v ===== *)
(** * RoundTrip: the reader reads what a server writes

    [parse_value]: reading the encoding of a value puts its tree into the hole
    of the reply under construction. *)
From S2P Require Import Prelude Mem Sds SdsFacts Reply Reader ReaderSpec ReaderRefine.
From S2P Require Import ReaderStream ReplyTree ReaderDefault Resp.
From stdpp Require Import list list_numbers strings sets gmap.
From Stdlib Require Import ZArith Lia.
Open Scope Z_scope.

(** ** Numbers *)
Lemma dec_step_mono l : forall v, 0 <= v -> Forall is_digit l -> v <= foldl dec_step v l.
Proof.
  induction l as [|c l IH]; intros v Hv Hl; cbn; [lia|].
  apply Forall_cons in Hl as [Hc Hl]. unfold is_digit in Hc.
  specialize (IH (dec_step v c)). unfold dec_step in *. specialize (IH ltac:(lia) Hl). lia.
Qed.

Lemma digits_value_foldl mult l : forall v, 0 <= v -> Forall is_digit l ->
  foldl dec_step v l < 2 ^ 63 ->
  digits_value mult v l = s64 (mult * foldl dec_step v l).
Proof.
  induction l as [|c l IH]; intros v Hv Hl Hf; [done|].
  apply Forall_cons in Hl as [Hc Hl]. unfold is_digit in Hc. cbn [digits_value foldl] in *.
  assert (c <> CR) by (unfold CR; lia). bool_false (c =? CR).
  bool_true (0 <=? c - 48). bool_true (c - 48 <? 10). cbn [andb].
  assert (0 <= dec_step v c) as Hd by (unfold dec_step; lia).
  pose proof (dec_step_mono l (dec_step v c) Hd Hl). unfold dec_step in *.
  rewrite (s64_id (v * 10)), s64_id by lia. by apply IH.
Qed.

Lemma long_long_udec n : 0 <= n < 2 ^ 63 -> long_long_of (udec n) = n.
Proof.
  intros Hn. destruct (udec_nonempty n) as (c & l & E & Hc); [lia|].
  pose proof (udec_digits n ltac:(lia)) as Hd. pose proof (dec_value_udec n ltac:(lia)) as Hv.
  unfold long_long_of. rewrite E in *. unfold is_digit in Hc.
  bool_false (c =? 45). bool_false (c =? 43).
  unfold dec_value in Hv. rewrite digits_value_foldl by (done || lia).
  rewrite Hv. rewrite s64_id; lia.
Qed.

Lemma long_long_sdec n : - 2 ^ 63 < n < 2 ^ 63 -> long_long_of (sdec n) = n.
Proof.
  intros Hn. unfold sdec. split_if; [|apply long_long_udec; lia].
  unfold long_long_of. cbn [Z.eqb Pos.eqb].
  pose proof (udec_digits (- n) ltac:(lia)) as Hd.
  pose proof (dec_value_udec (- n) ltac:(lia)) as Hv. unfold dec_value in Hv.
  rewrite digits_value_foldl by (done || lia). rewrite Hv, s64_id; lia.
Qed.

Lemma udec_no_cr n : 0 <= n -> CR ∉ udec n.
Proof.
  intros Hn Hin. pose proof (udec_digits n Hn) as Hd. rewrite Forall_forall in Hd.
  apply Hd in Hin. unfold is_digit, CR in Hin. lia.
Qed.

Lemma sdec_no_cr n : CR ∉ sdec n.
Proof.
  unfold sdec. split_if; [|apply udec_no_cr; lia].
  apply not_elem_of_cons. split; [done|]. apply udec_no_cr. lia.
Qed.

Lemma split_line_crlf line rest : CR ∉ line -> split_line (line ++ crlf ++ rest) = Some (line, rest).
Proof.
  intros Hl. unfold split_line, crlf. cbn [app]. rewrite find_crlf_hit by done.
  rewrite take_app_length, drop_app_add. done.
Qed.

Section values.
Context {HM : HeapMalloc}.
Hypothesis heap_total : forall n size, heap_ok n size = true.
Abbreviation reader := (redisReader heap).
Implicit Types (k : reader) (fs : list frame) (F : gmap Z redisReply) (h : heap) (rest : bytes).

(** A fresh item reads its type byte first. *)
Lemma abs_item_type k fs h F c ty rest :
  parsing k (-1) fs h F -> type_of_byte c = Some ty ->
  exists k', parsing k' ty fs h F /\ abs_item k (c :: rest) h = abs_typed k' rest h ty.
Proof.
  intros Hk Hc. destruct (parsing_task _ _ _ _ _ Hk) as (cur & parent & T1 & T2 & T3 & T4).
  destruct (parsing_set_type k (-1) ty fs h F cur Hk T1) as (k' & Hp & Hk').
  exists k'. split; [done|]. unfold abs_item. rewrite T1. cbn [mbind result_bind]. rewrite T2.
  bool_true (-1 <? 0). by rewrite Hc, Hp.
Qed.

Lemma parse_item k fs h F rest : parsing k (-1) fs h F ->
  abs_parse k rest h =
  st ← abs_item k rest h;
  match st with
  | Done k rest h => abs_parse k rest h
  | _ => Ok st
  end.
Proof.
  intros [[Hc _ _ _] Hi _ _ _ _ _ _]. rewrite abs_parse_step by done.
  bool_true (0 <=? rr_ridx k). done.
Qed.

(** An item that emits a tree is one step of the parse. *)
Lemma emits_parse k fs h F rest rest' mk : parsing k (-1) fs h F ->
  emits (abs_item k rest h) mk rest' fs F ->
  exists p k' h', placed fs (mk p) k' h' F /\ abs_parse k rest h = abs_parse k' rest' h'.
Proof.
  intros Hk He. rewrite (parse_item _ _ _ _ _ Hk).
  destruct (abs_item k rest h) as [[k' r h'| |k' h']|]; cbn in He; [|done| |done].
  - destruct He as [-> [p Hp]]. by exists p, k', h'.
  - destruct He as [(n & size & Hn) _]. by rewrite heap_total in Hn.
Qed.

Definition reads (v : resp) : Prop := forall k fs h F rest,
  parsing k (-1) fs h F -> (length fs + depth v <= 8)%nat ->
  exists t k' h', tree_val t v /\ placed fs t k' h' F /\
    abs_parse k (resp_encode v ++ rest) h = abs_parse k' rest h'.

Lemma reads_line c ty line v : type_of_byte c = Some ty ->
  ty = REDIS_REPLY_ERROR \/ ty = REDIS_REPLY_STATUS \/ ty = REDIS_REPLY_INTEGER ->
  CR ∉ line -> resp_encode v = c :: line ++ crlf -> leaf_obj v = Some (line_obj ty line) -> reads v.
Proof.
  intros Hc Hty Hl Henc Hv k fs h F rest Hk _. rewrite Henc. cbn [app].
  rewrite <- app_assoc.
  destruct (abs_item_type k fs h F c ty (line ++ crlf ++ rest) Hk Hc) as (k1 & Hk1 & Hi).
  destruct (emits_parse k fs h F (c :: line ++ crlf ++ rest) rest
    (fun p => TLeaf p (line_obj ty line)) Hk) as (p & k' & h' & Hp & Hparse).
  { rewrite Hi. unfold abs_typed.
    replace (_ || _) with true by (destruct Hty as [->|[->| ->]]; done).
    apply abs_line_emits; [done..|]. by apply split_line_crlf. }
  eexists _, k', h'. split; [|by split]. by constructor.
Qed.

Lemma reads_string s : zlen s <= INT_MAX -> reads (RString s).
Proof.
  intros Hs k fs h F rest Hk _. unfold INT_MAX in Hs. cbn [resp_encode app].
  rewrite <- !app_assoc.
  destruct (abs_item_type k fs h F 36 REDIS_REPLY_STRING
    (udec (zlen s) ++ crlf ++ s ++ crlf ++ rest) Hk eq_refl) as (k1 & Hk1 & Hi).
  destruct (emits_parse k fs h F (36 :: udec (zlen s) ++ crlf ++ s ++ crlf ++ rest) rest
    (fun p => TLeaf p (str_obj REDIS_REPLY_STRING s)) Hk) as (p & k' & h' & Hp & Hparse).
  { rewrite Hi. change (abs_typed k1 ?r h _) with (abs_bulk k1 r h).
    pose proof (abs_bulk_emits k1 fs h F _ (udec (zlen s)) (s ++ crlf ++ rest) Hk1
      (split_line_crlf _ _ (udec_no_cr (zlen s) ltac:(lia)))) as He. cbv zeta in He.
    rewrite long_long_udec in He by lia. revert He. if_false. rewrite !length_app.
    bool_true (zlen s + 2 <=? Z.of_nat (length s + (length crlf + length rest))).
    rewrite Nat2Z.id, take_app_length.
    replace (Z.to_nat (zlen s + 2)) with (length (s ++ crlf)) by (rewrite length_app; simpl; lia).
    by rewrite (app_assoc s crlf rest), drop_app_length. }
  eexists _, k', h'. split; [|by split]. by constructor.
Qed.

Lemma reads_nil : reads RNil.
Proof.
  intros k fs h F rest Hk _. cbn [resp_encode app]. rewrite <- app_assoc.
  destruct (abs_item_type k fs h F 36 REDIS_REPLY_STRING
    (sdec (-1) ++ crlf ++ rest) Hk eq_refl) as (k1 & Hk1 & Hi).
  destruct (emits_parse k fs h F (36 :: sdec (-1) ++ crlf ++ rest) rest
    (fun p => TLeaf p nil_obj) Hk) as (p & k' & h' & Hp & Hparse).
  { rewrite Hi. change (abs_typed k1 ?r h _) with (abs_bulk k1 r h).
    by apply (abs_bulk_emits k1 fs h F _ (sdec (-1)) rest Hk1
      (split_line_crlf _ _ (sdec_no_cr (-1)))). }
  eexists _, k', h'. split; [|by split]. by constructor.
Qed.

(** The elements of an open array. *)
Lemma reads_elements vs : Forall reads vs -> vs <> [] ->
  forall k p before fs h F rest,
  parsing k (-1) ((p, before, length vs - 1)%nat :: fs) h F ->
  Forall (fun v => S (length fs + depth v) <= 8)%nat vs ->
  exists ts k' h', Forall2 tree_val ts vs /\ placed fs (TArr p (before ++ ts)) k' h' F /\
    abs_parse k (flat_map resp_encode vs ++ rest) h = abs_parse k' rest h'.
Proof.
  induction vs as [|v vs IH]; [done|]. intros Hvs _ k p before fs h F rest Hk Hd.
  apply Forall_cons in Hvs as [Hv Hvs]. apply Forall_cons in Hd as [Hdv Hd].
  cbn [flat_map]. rewrite <- app_assoc.
  destruct (Hv k _ h F (flat_map resp_encode vs ++ rest) Hk Hdv) as (t & k1 & h1 & Ht & Hp & Hparse).
  rewrite Hparse. destruct vs as [|w vs].
  - exists [t], k1, h1. split; [by repeat constructor|]. split; [|done]. exact Hp.
  - unfold placed in Hp. replace (length (v :: w :: vs) - 1)%nat with (S (length vs)) in Hp
      by (simpl; lia). cbn [place] in Hp.
    destruct (IH Hvs ltac:(done) k1 p (before ++ [t]) fs h1 F rest) as (ts & k' & h' & Hts & Hp' & Hparse').
    { replace (length (w :: vs) - 1)%nat with (length vs) by (simpl; lia). done. }
    { done. }
    exists (t :: ts), k', h'. split; [by constructor|]. split; [|done].
    by rewrite <- app_assoc in Hp'.
Qed.

Lemma depth_max vs v : v ∈ vs -> (depth v <= list_max (depth <$> vs))%nat.
Proof.
  intros Hv. assert (Forall (fun n => n <= list_max (depth <$> vs))%nat (depth <$> vs)) as Hm
    by by apply list_max_le.
  rewrite Forall_forall in Hm. apply Hm. apply list_elem_of_fmap. by exists v.
Qed.

Lemma reads_array vs : zlen vs <= INT_MAX -> Forall reads vs -> reads (RArray vs).
Proof.
  intros Hmax Hvs k fs h F rest Hk Hd. cbn [depth] in Hd. unfold INT_MAX in Hmax.
  cbn [resp_encode app]. rewrite <- !app_assoc.
  set (body := flat_map resp_encode vs ++ rest).
  destruct (abs_item_type k fs h F 42 REDIS_REPLY_ARRAY
    (udec (zlen vs) ++ crlf ++ body) Hk eq_refl) as (k1 & Hk1 & Hi).
  pose proof (abs_multi_emits k1 fs h F (udec (zlen vs) ++ crlf ++ body) Hk1 ltac:(lia)) as Hm.
  rewrite (split_line_crlf _ _ (udec_no_cr (zlen vs) ltac:(lia))) in Hm. cbv zeta in Hm.
  rewrite long_long_udec in Hm by lia. rewrite s32_id in Hm by lia.
  revert Hm. bool_false (zlen vs =? -1).
  change (abs_typed k1 ?r h _) with (abs_multi k1 r h) in Hi. rewrite <- Hi.
  destruct vs as [|v vs].
  { cbn. intros Hm. destruct (emits_parse k fs h F _ rest _ Hk Hm) as (p & k' & h' & Hp & Hparse).
    exists (TLeaf p (new_array 0)), k', h'. split; [by constructor|]. by split. }
  bool_false (zlen (v :: vs) <=? 0). intros Hm. specialize (Hm ltac:(simpl; lia)).
  rewrite (parse_item _ _ _ _ _ Hk).
  destruct (abs_item k _ h) as [[k2 r h2| |k2 h2]|]; [|done| |done].
  2: { destruct Hm as [(n & size & Hn) _]. by rewrite heap_total in Hn. }
  destruct Hm as [-> [p Hk2]]. cbn [mbind result_bind]. rewrite Nat2Z.id in Hk2.
  destruct (reads_elements (v :: vs) Hvs ltac:(done) k2 p [] fs h2 F rest Hk2)
    as (ts & k' & h' & Hts & Hp & Hparse).
  { apply Forall_forall. intros w Hw. apply depth_max in Hw. lia. }
  exists (TArr p ts), k', h'. split; [by constructor|]. by split.
Qed.

(** Every value a server can send is read. *)
Lemma parse_value v : sendable v -> reads v.
Proof.
  induction v as [s|s|n|s| |vs IH] using resp_ind'; cbn [sendable]; intros Hv.
  - by apply (reads_line 43 REDIS_REPLY_STATUS s); [|right; left|..].
  - by apply (reads_line 45 REDIS_REPLY_ERROR s); [|left|..].
  - apply (reads_line 58 REDIS_REPLY_INTEGER (sdec n)); try done.
    + by right; right.
    + apply sdec_no_cr.
    + unfold line_obj. cbn. by rewrite long_long_sdec.
  - by apply reads_string.
  - apply reads_nil.
  - apply (sendable_arr vs) in Hv as [Hlen Hvs]. apply reads_array; [done|].
    rewrite Forall_forall in *. auto.
Qed.

(** ** Values nested too deep *)

Definition refuses (v : resp) : Prop := forall k fs h F rest,
  parsing k (-1) fs h F -> (8 < length fs + depth v)%nat ->
  exists k' h', abs_parse k (resp_encode v ++ rest) h = Ok (Failed k' h') /\
    cleared k' REDIS_ERR_PROTOCOL h' F.

Lemma refuses_elements vs : Forall sendable vs -> Forall refuses vs ->
  forall k p before fs h F rest,
  parsing k (-1) ((p, before, length vs - 1)%nat :: fs) h F ->
  Exists (fun v => 8 < S (length fs + depth v))%nat vs ->
  exists k' h', abs_parse k (flat_map resp_encode vs ++ rest) h = Ok (Failed k' h') /\
    cleared k' REDIS_ERR_PROTOCOL h' F.
Proof.
  induction vs as [|v vs IH]; intros Hs Hr k p before fs h F rest Hk Hd; [by inversion Hd|].
  apply Forall_cons in Hs as [Hv Hs]. apply Forall_cons in Hr as [Hrv Hr].
  cbn [flat_map]. rewrite <- app_assoc.
  destruct (decide (8 < S (length fs + depth v))%nat) as [Hdv|Hdv]; [by eapply Hrv|].
  inversion Hd as [? ? Hd1|? ? Hd1]; subst; [done|].
  destruct (parse_value v Hv k _ h F (flat_map resp_encode vs ++ rest) Hk)
    as (t & k1 & h1 & Ht & Hp & ->); [cbn [length]; lia|].
  destruct vs as [|w vs]; [by inversion Hd1|].
  unfold placed in Hp. replace (length (v :: w :: vs) - 1)%nat with (S (length vs)) in Hp
    by (simpl; lia). cbn [place] in Hp.
  apply (IH Hs Hr k1 p (before ++ [t]) fs h1 F rest); [|done].
  by replace (length (w :: vs) - 1)%nat with (length vs) by (simpl; lia).
Qed.

Lemma depth_exists vs n : (n <= list_max (depth <$> vs))%nat -> (0 < n)%nat ->
  Exists (fun v => n <= depth v)%nat vs.
Proof.
  induction vs as [|v vs IH]; cbn; [lia|]. intros Hn H0.
  destruct (decide (n <= depth v)%nat); [by left|right]. apply IH; [|done].
  unfold list_max in *. cbn in *. lia.
Qed.

Lemma refuse_value v : sendable v -> refuses v.
Proof.
  induction v as [s|s|n|s| |vs IH] using resp_ind'; intros Hv k fs h F rest Hk Hd;
    pose proof (par_depth _ _ _ _ _ Hk); cbn [depth] in Hd; try lia.
  apply (sendable_arr vs) in Hv as [Hlen Hvs]. unfold INT_MAX in Hlen.
  cbn [resp_encode app]. rewrite <- !app_assoc. set (body := flat_map resp_encode vs ++ rest).
  destruct (abs_item_type k fs h F 42 REDIS_REPLY_ARRAY
    (udec (zlen vs) ++ crlf ++ body) Hk eq_refl) as (k1 & Hk1 & Hi).
  change (abs_typed k1 ?r h _) with (abs_multi k1 r h) in Hi.
  rewrite (parse_item _ _ _ _ _ Hk).
  destruct (decide (length fs < 8)%nat) as [Hd8|Hd8].
  - pose proof (abs_multi_emits k1 fs h F (udec (zlen vs) ++ crlf ++ body) Hk1 Hd8) as Hm.
    rewrite (split_line_crlf _ _ (udec_no_cr (zlen vs) ltac:(lia))) in Hm. cbv zeta in Hm.
    rewrite long_long_udec, s32_id in Hm by lia. rewrite <- Hi in Hm.
    assert (Exists (fun v => (8 - length fs) <= depth v)%nat vs) as Hex
      by (apply depth_exists; lia).
    assert (0 < zlen vs) by (destruct vs; [by inversion Hex|simpl; lia]).
    revert Hm. bool_false (zlen vs =? -1). bool_false (zlen vs <=? 0).
    intros Hm. specialize (Hm ltac:(lia)).
    destruct (abs_item k _ h) as [[k2 r h2| |k2 h2]|]; [|done| |done].
    2: { destruct Hm as [(n & size & Hn) _]. by rewrite heap_total in Hn. }
    destruct Hm as [-> [p Hk2]]. cbn [mbind result_bind]. rewrite Nat2Z.id in Hk2.
    eapply refuses_elements; [done| |done|].
    + rewrite Forall_forall in *. auto.
    + eapply Exists_impl; [done|]. cbn. lia.
  - rewrite Hi. destruct (parsing_task _ _ _ _ _ Hk1) as (cur & parent & T1 & _).
    unfold abs_multi. rewrite T1. cbn [mbind result_bind].
    pose proof (par_ridx _ _ _ _ _ Hk1). bool_true (rr_ridx k1 =? 8).
    destruct (set_error_clears k1 _ fs h F REDIS_ERR_PROTOCOL
      (lit "No support for nested multi bulk replies with depth > 7") ltac:(done) Hk1)
      as (k' & h' & -> & Hcl). by exists k', h'.
Qed.
End values.
