(* ===== verification/Session.v ===== *)
(** * Session: a client with the default reply functions

    The reader with the functions of hiredis.c, behind its public interface:
    what it returns for any input ([getReply_default]) and for the encoding of
    values ([drain_values]). *)
From S2P Require Import Prelude Mem Sds SdsFacts Reply Reader ReaderSpec ReaderRefine.
From S2P Require Import ReaderStream ReaderView Streaming ReplyTree ReaderDefault Resp.
From S2P Require Import RoundTrip.
From stdpp Require Import list list_numbers strings sets gmap.
From Stdlib Require Import ZArith Lia.
Open Scope Z_scope.

(** ** Ownership *)

(** Objects given to the client become part of the frame, and back. *)
Lemma heap_rep_give h cs F : heap_rep h cs F -> heap_rep h [] (list_to_map cs ∪ F).
Proof. intros [H1 H2 H3 H4 H5]. split; try done; [|constructor]. by rewrite H1, list_to_map_nil, (left_id_L ∅ (∪)). Qed.

Lemma heap_rep_take h cs cs' F h0 : heap_rep h0 cs' F ->
  heap_rep h cs (list_to_map cs' ∪ F) -> heap_rep h (cs ++ cs') F.
Proof.
  intros [_ N2 N3 _ _] [H1 H2 H3 H4 H5].
  rewrite Forall_forall in H3. split; try done.
  - by rewrite H1, list_to_map_app, (assoc_L (∪)).
  - rewrite fmap_app. apply NoDup_app. split_and!; try done.
    intros p Hp Hp'. apply H3 in Hp. apply lookup_union_None in Hp as [Hp _].
    by apply not_elem_of_list_to_map_2 in Hp.
  - rewrite fmap_app. apply Forall_app. split; [|done]. apply Forall_forall. intros p Hp.
    apply H3 in Hp. by apply lookup_union_None in Hp as [_ Hp].
Qed.

Lemma heap_rep_elem h cs F p o : heap_rep h cs F -> (p, o) ∈ cs -> cells h !! p = Some o.
Proof.
  intros Hr Hp. apply list_elem_of_split in Hp as (l1 & l2 & ->).
  rewrite <- Permutation_middle in Hr. by eapply heap_rep_lookup.
Qed.

Section session.
Context {M : Malloc} {HM : HeapMalloc}.
Abbreviation reader := (redisReader heap).
Implicit Types (k : reader) (fs : list frame) (F : gmap Z redisReply) (h : heap) (rest : bytes).

(** ** Returning a reply *)
Lemma complete_next k t h F : complete k t h F -> exists k',
  start (set_reply k NULL) = Ok k' /\ live k' /\
  parsing k' (-1) [] h (list_to_map (cells_of t) ∪ F).
Proof.
  intros [[Hc He Hf Hs] Hi Hr Hl Hh].
  destruct (start_next k) as (k' & Hst & Hlive); [done..|]. exists k'. split; [done|].
  split; [done|]. unfold start in Hst. revert Hst.
  change (rr_ridx (set_reply k NULL)) with (rr_ridx k). rewrite Hi.
  change (-1 =? -1) with true. cbv iota. intros Hst.
  destruct (put_task_at (set_ridx (set_reply k NULL) 0) 0
    (mk_task (-1) (-1) (-1) NULL None (rr_privdata (set_reply k NULL))))
    as (k1 & Hk1 & K1 & K2 & K3 & K4); [cbn; lia|].
  change (Z.of_nat 0) with 0 in Hk1. rewrite Hst in Hk1. injection Hk1 as <-.
  cbn in K1, K2, K3. split; try done.
  - eapply (base_env (set_ridx (set_reply k NULL) 0)); [by split|done].
  - cbn. lia.
  - cbn. rewrite K1, list_lookup_insert_eq by lia. by eexists.
  - exists (mk_task (-1) (-1) (-1) NULL None (rr_privdata (set_reply k NULL))).
    rewrite K2. split; [|done]. apply (get_task_at _ 0).
    rewrite K1, list_lookup_insert_eq by lia. done.
  - constructor.
  - by apply heap_rep_give.
Qed.

(** ** Values *)
Section total.
Hypothesis heap_total : forall n size, heap_ok n size = true.

Lemma get_value k h F v rest : live k -> parsing k (-1) [] h F -> sendable v ->
  (depth v <= 8)%nat ->
  exists t k' h', abs_get (Live k (resp_encode v ++ rest)) h =
      Ok (REDIS_OK, ptr t, Live k' rest, h') /\
    ptr t <> NULL /\ tree_val t v /\ heap_rep h' (cells_of t) F /\ live k' /\
    parsing k' (-1) [] h' (list_to_map (cells_of t) ∪ F).
Proof.
  intros Hl Hk Hv Hd.
  destruct (parse_value heap_total v Hv k [] h F rest Hk Hd) as (t & k1 & h1 & Ht & Hp & Hparse).
  cbn in Hp. destruct (complete_next _ _ _ _ Hp) as (k' & Hst & Hl' & Hk').
  exists t, k', h1. destruct Hp as [[Hc He Hf Hs] Hi Hr Hlv Hh].
  split_and!; try done.
  - cbn [abs_get]. rewrite Hparse, abs_parse_step, Hi by done. cbn.
    by rewrite Hst, Hr.
  - destruct t as [|p o|p ts]; [inversion Ht|..]; cbn in Hh; by apply heap_rep_not_null in Hh.
Qed.

(** Draining the encodings of values returns a tree for each. *)
Lemma drain_values vs : forall k h F n, live k -> parsing k (-1) [] h F ->
  Forall sendable vs -> Forall (fun v => depth v <= 8)%nat vs -> (length vs < n)%nat ->
  exists ts k' h', abs_drain n (Live k (flat_map resp_encode vs)) h =
      Ok (ptr <$> ts, REDIS_OK, Live k' [], h') /\
    Forall2 tree_val ts vs /\ heap_rep h' (flat_map cells_of ts) F.
Proof.
  induction vs as [|v vs IH]; intros k h F [|n] Hl Hk Hvs Hd Hn; cbn [length] in Hn; try lia.
  - exists [], k, h. split; [|split; [constructor|apply Hk]].
    rewrite abs_drain_S. cbn [flat_map abs_get].
    pose proof (live_ridx _ Hl). rewrite abs_parse_step by apply Hl. if_true.
    by rewrite (live_idle _ Hl).
  - apply Forall_cons in Hvs as [Hv Hvs]. apply Forall_cons in Hd as [Hdv Hd].
    destruct (get_value k h F v (flat_map resp_encode vs) Hl Hk Hv Hdv)
      as (t & k1 & h1 & Hg & Hnn & Ht & Hh & Hl1 & Hk1).
    destruct (IH k1 h1 _ n Hl1 Hk1 Hvs Hd ltac:(lia)) as (ts & k' & h' & Hdr & Hts & Hh').
    exists (t :: ts), k', h'. split; [|split; [by constructor|]].
    + rewrite abs_drain_S. cbn [flat_map]. rewrite Hg. cbn [mbind result_bind].
      bool_false (ptr t =? NULL). cbn. by rewrite Hdr.
    + cbn [flat_map]. rewrite (Permutation_app_comm (cells_of t)). by eapply heap_rep_take.
Qed.

(** Trees of the store read back as their values. *)
Lemma read_back h ts vs F : Forall2 tree_val ts vs -> heap_rep h (flat_map cells_of ts) F ->
  mapM (reply_value (size (cells h)) h) (ptr <$> ts) = Some vs.
Proof.
  intros Hv Hh. apply mapM_Some. rewrite Forall2_fmap_l. apply Forall2_same_length_lookup_2.
  { by eapply Forall2_length. }
  intros i t v Ht Hvi. apply list_elem_of_lookup_2 in Ht as Hin.
  assert (forall c, c ∈ cells_of t -> c ∈ flat_map cells_of ts) as Hsub.
  { intros c Hc. apply list_elem_of_In, in_flat_map. exists t.
    split; by apply list_elem_of_In. }
  apply tree_value; [by eapply Forall2_lookup_lr| |].
  - etrans; [apply height_cells|]. etrans; [|by eapply heap_rep_size].
    apply list_elem_of_split in Hin as (l1 & l2 & ->). rewrite flat_map_app. cbn [flat_map].
    rewrite !length_app. lia.
  - intros p o Hp. eapply heap_rep_elem; [done|]. by apply Hsub.
Qed.
End total.

(** ** A new client *)
Definition default_core : reader := new_core (Some defaultFunctions).

Lemma default_parsing h F : heap_rep h [] F -> parsing default_core (-1) [] h F.
Proof.
  intros Hh. split; try done; [cbn; lia|by eexists|by eexists|constructor].
Qed.

(** A new client that is fed the encodings of values, in any chunks, gets a
    reply for each. *)
Lemma drive_values vs xs r h F :
  (forall n, malloc_ok n = true) -> (forall n size, heap_ok n size = true) ->
  Forall sendable vs -> Forall (fun v => depth v <= 8)%nat vs ->
  xs <> [] -> Forall (fun x => 1 <= zlen x) xs ->
  concat xs = flat_map resp_encode vs -> zlen (concat xs) < 2 ^ 31 - 1 ->
  redisReaderCreateWithFunctions (Some defaultFunctions) = Ok (Some r) -> heap_rep h [] F ->
  exists ps r' h' ts,
    drive r h xs = Ok (ps, REDIS_OK, r', h') /\
    mapM (reply_value (size (cells h')) h') ps = Some vs /\
    ps = ptr <$> ts /\ heap_rep h' (flat_map cells_of ts) F.
Proof.
  intros HMt HH Hvs Hd Hxs Fxs Hcat Hlen Hcreate Hh.
  destruct (create_live (Some defaultFunctions) HMt) as (r0 & Hc & Hr & Hl).
  rewrite Hcreate in Hc. injection Hc as <-.
  set (n := S (length vs + length (concat xs))).
  destruct (drain_values HH vs default_core h F n (new_core_live _) (default_parsing h F Hh) Hvs Hd)
    as (ts & k' & h' & Hdr & Hts & Hh'); [unfold n; lia|].
  pose proof (drive_sim HMt xs _ r h n Hr Hxs Fxs ltac:(cbn; unfold room; lia)
    ltac:(unfold n; cbn; lia)) as Hs.
  cbn [abs_feed app] in Hs. rewrite Hcat in Hs. unfold default_core in Hdr. rewrite Hdr in Hs.
  destruct Hs as (r' & -> & _ & _). exists (ptr <$> ts), r', h', ts.
  split_and!; try done. by eapply read_back.
Qed.
End session.
