(* ===== verification/ReaderSafe.v ===== *)
(** * ReaderSafe: the default functions on any input

    Whatever bytes arrive, a parser with the default functions keeps its
    zipper and its store, or fails and frees what it built. The one input that
    breaks this, a positive array count that is not positive as an [int], is
    excluded by [counts_ok]. *)
From S2P Require Import Prelude Mem Sds SdsFacts Reply Reader ReaderSpec ReaderRefine.
From S2P Require Import ReaderStream ReaderView Streaming ReplyTree ReaderDefault Resp Session.
From stdpp Require Import list list_numbers strings sets gmap.
From Stdlib Require Import ZArith Lia.
Open Scope Z_scope.

(** No line of the input is an oversized count. *)
Definition counts_ok (rest : bytes) : Prop :=
  forall p line q, rest = p ++ line ++ crlf ++ q -> ~ oversized line.

Lemma counts_ok_suffix rest rest' : rest' `suffix_of` rest -> counts_ok rest -> counts_ok rest'.
Proof. intros [p ->] Hc p' line q ->. apply (Hc (p ++ p') line q). solve_app. Qed.

Lemma counts_ok_line rest line rest' : counts_ok rest -> split_line rest = Some (line, rest') ->
  ~ oversized line.
Proof.
  intros Hc Hs. apply split_line_Some in Hs as [-> _]. by apply (Hc [] line rest').
Qed.

Section safe.
Context {HM : HeapMalloc}.
Abbreviation reader := (redisReader heap).
Implicit Types (k : reader) (fs : list frame) (F : gmap Z redisReply) (h : heap) (rest : bytes).

(** The types a task can have between two steps. *)
Definition type_ok (ty : Z) fs : Prop :=
  ty = -1 \/ ty = REDIS_REPLY_ERROR \/ ty = REDIS_REPLY_STATUS \/ ty = REDIS_REPLY_INTEGER \/
  ty = REDIS_REPLY_STRING \/ (ty = REDIS_REPLY_ARRAY /\ (length fs < 8)%nat).

Definition waiting k h F : Prop := exists ty fs, type_ok ty fs /\ parsing k ty fs h F.

Definition failed k h F : Prop :=
  cleared k REDIS_ERR_PROTOCOL h F \/ (oom /\ cleared k REDIS_ERR_OOM h F).

Definition item_ok (m : result (step_result (H := heap))) F : Prop :=
  match m with
  | Ok (Done k _ h) => waiting k h F \/ exists t, complete k t h F
  | Ok (More k _ h) => waiting k h F
  | Ok (Failed k h) => failed k h F
  | Fault _ => False
  end.

Lemma emits_ok m mk rest' fs F : emits m mk rest' fs F -> item_ok m F.
Proof.
  destruct m as [[k r h| |k h]|]; cbn; try done.
  - intros [_ [p Hp]]. unfold placed in Hp. destruct (place fs (mk p)) as [fs'|t].
    + left. exists (-1), fs'. split; [by left|done].
    + right. by exists t.
  - intros [? ?]. by right.
Qed.

Lemma typed_ok k ty fs h F rest : parsing k ty fs h F -> counts_ok rest ->
  ty <> -1 -> type_ok ty fs \/ (ty = REDIS_REPLY_ARRAY) ->
  item_ok (abs_typed k rest h ty) F.
Proof.
  intros Hk Hc Hne Hty. destruct (parsing_task _ _ _ _ _ Hk) as (cur & parent & T1 & _ & T3 & T4).
  assert (item_ok (Ok (More k rest h)) F <-> waiting k h F) as Hmore by done.
  unfold abs_typed. destruct (_ || _) eqn:E1.
  { assert (ty = REDIS_REPLY_ERROR \/ ty = REDIS_REPLY_STATUS \/ ty = REDIS_REPLY_INTEGER) as Hl.
    { apply orb_prop in E1 as [E1|E1]; [apply orb_prop in E1 as [E1|E1]|];
        apply Z.eqb_eq in E1; auto. }
    destruct (split_line rest) as [[line rest']|] eqn:Es.
    - eapply emits_ok. by eapply abs_line_emits.
    - unfold abs_line. rewrite T1. cbn [mbind result_bind]. rewrite Es. apply Hmore.
      exists ty, fs. split; [unfold type_ok; naive_solver|done]. }
  bool_to_prop. destruct (ty =? REDIS_REPLY_STRING) eqn:E2; bool_to_prop.
  { subst ty. destruct (split_line rest) as [[line rest']|] eqn:Es.
    - pose proof (abs_bulk_emits k fs h F rest line rest' Hk Es) as He. cbv zeta in He.
      destruct (_ <? 0); [by eapply emits_ok|]. destruct (_ <=? _); [by eapply emits_ok|].
      rewrite He. apply Hmore. eexists _, fs. split; [|done]. unfold type_ok. naive_solver.
    - unfold abs_bulk. rewrite T1. cbn [mbind result_bind]. rewrite Es. apply Hmore.
      eexists _, fs. split; [|done]. unfold type_ok. naive_solver. }
  destruct (ty =? REDIS_REPLY_ARRAY) eqn:E3; bool_to_prop.
  2: { unfold type_ok in Hty. naive_solver. }
  subst ty. destruct (decide (length fs < 8)%nat) as [Hd|Hd].
  - pose proof (abs_multi_emits k fs h F rest Hk Hd) as Hm.
    destruct (split_line rest) as [[line rest']|] eqn:Es; cbv zeta in Hm.
    + destruct (_ =? -1); [by eapply emits_ok|].
      destruct (_ <=? 0) eqn:E0; [by eapply emits_ok|]. bool_to_prop.
      assert (0 < s32 (long_long_of line)) as Hpos.
      { pose proof (counts_ok_line _ _ _ Hc Es) as Ho. unfold oversized in Ho. lia. }
      specialize (Hm Hpos). destruct (abs_multi k rest h) as [[k' r h'| |k' h']|]; try done.
      * destruct Hm as [_ [p Hp]]. left. eexists (-1), _. split; [by left|done].
      * destruct Hm. by right.
    + rewrite Hm. apply Hmore. eexists _, fs. split; [|done]. unfold type_ok. auto 10.
  - unfold abs_multi. rewrite T1. cbn [mbind result_bind].
    pose proof (par_ridx _ _ _ _ _ Hk) as Hi. pose proof (par_depth _ _ _ _ _ Hk).
    bool_true (rr_ridx k =? 8).
    destruct (set_error_clears k _ fs h F REDIS_ERR_PROTOCOL
      (lit "No support for nested multi bulk replies with depth > 7") ltac:(done) Hk)
      as (k' & h' & -> & Hcl). by left.
Qed.

Lemma item_safe k h F rest : waiting k h F -> counts_ok rest -> item_ok (abs_item k rest h) F.
Proof.
  intros (ty & fs & Hty & Hk) Hc.
  destruct (parsing_task _ _ _ _ _ Hk) as (cur & parent & T1 & T2 & T3 & T4).
  unfold abs_item. rewrite T1. cbn [mbind result_bind]. rewrite T2. split_if.
  2: { apply (typed_ok k ty fs); [done..|lia|by left]. }
  assert (ty = -1) as Hty1.
  { unfold type_ok, REDIS_REPLY_ERROR, REDIS_REPLY_STATUS, REDIS_REPLY_INTEGER,
      REDIS_REPLY_STRING, REDIS_REPLY_ARRAY in Hty. lia. }
  destruct rest as [|c rest]; [by exists ty, fs|].
  destruct (type_of_byte c) as [ty'|] eqn:Ec.
  - destruct (parsing_set_type k ty ty' fs h F cur Hk T1) as (k' & -> & Hk').
    cbn [mbind result_bind]. apply (typed_ok k' ty' fs); [done| | |].
    + eapply counts_ok_suffix; [|done]. by exists [c].
    + apply type_of_byte_nonneg in Ec. lia.
    + unfold type_of_byte in Ec. unfold type_ok. repeat split_if_in Ec; simplify_eq; auto 10.
  - unfold __redisReaderSetErrorProtocolByte.
    set (msg := take 127 _).
    destruct (set_error_clears k ty fs h F REDIS_ERR_PROTOCOL msg ltac:(done) Hk)
      as (k' & h' & -> & Hcl). by left.
Qed.

Lemma waiting_core k h F : waiting k h F -> is_core k /\ 0 <= rr_ridx k.
Proof. intros (ty & fs & _ & [[Hc _ _ _] Hi _ _ _ _ _ _]). split; [done|lia]. Qed.

(** A whole parse: a reply, a wait, or an error with nothing left behind. *)
Lemma parse_safe k rest h F : is_core k -> waiting k h F -> counts_ok rest ->
  match abs_parse k rest h with
  | Ok (Done k' _ h') => exists t, complete k' t h' F
  | Ok (More k' _ h') => waiting k' h' F
  | Ok (Failed k' h') => failed k' h' F
  | Fault _ => False
  end.
Proof.
  intros Hk. revert k rest h Hk. refine (abs_parse_ind _ _). intros k rest h Hk IH Hw Hc.
  rewrite abs_parse_step by done. destruct (waiting_core _ _ _ Hw) as [_ Hi].
  bool_true (0 <=? rr_ridx k). pose proof (item_safe k h F rest Hw Hc) as Hit.
  destruct (abs_item k rest h) as [[k' r' h'|k' r' h'|k' h']|] eqn:Ei;
    cbn [mbind result_bind]; [|done..].
  pose proof (abs_item_post _ _ _ _ Hk Ei) as [He (used & _ & Hrest)].
  destruct Hit as [Hw'|[t Ht]].
  - apply (IH _ _ _ eq_refl); [done|]. eapply counts_ok_suffix; [|done]. by exists used.
  - destruct (com_base _ _ _ _ Ht) as [Hc' _ _ _]. pose proof (com_ridx _ _ _ _ Ht) as Hi'.
    rewrite abs_parse_step, Hi' by done. by exists t.
Qed.

(** ** At the interface *)

(** What a client of a reader with the default functions knows: its own
    objects [F] are untouched, and the objects of the unfinished reply are the
    only others. *)
Definition default_state (a : areader (H := heap)) h F : Prop :=
  match a with
  | Live k rest => live k /\ waiting k h F /\ counts_ok rest
  | Dead k => failed k h F
  end.

Definition get_ok (m : result (Z * Z * areader (H := heap) * heap)) F : Prop :=
  match m with
  | Ok (st, p, a, h) =>
      (st = REDIS_OK /\ p <> NULL /\ exists t, p = ptr t /\ leaves_ok t /\
         heap_rep h (cells_of t) F /\ default_state a h (list_to_map (cells_of t) ∪ F)) \/
      (st = REDIS_OK /\ p = NULL /\ default_state a h F) \/
      (st = REDIS_ERR /\ p = NULL /\ heap_rep h [] F /\ default_state a h F)
  | Fault _ => False
  end.

Lemma failed_heap k h F : failed k h F -> heap_rep h [] F.
Proof. intros [(_ & _ & ?)|[_ (_ & _ & ?)]]; done. Qed.

Lemma get_safe a h F : default_state a h F -> get_ok (abs_get a h) F.
Proof.
  destruct a as [k rest|k]; cbn [default_state abs_get].
  2: { intros Hf. right; right. split_and!; try done. by eapply failed_heap. }
  intros (Hl & Hw & Hc). pose proof (parse_safe k rest h F (live_core _ Hl) Hw Hc) as Hp.
  destruct (abs_parse k rest h) as [st|] eqn:Ep; [|done]. cbn [mbind result_bind].
  pose proof (abs_parse_post _ _ _ (live_core _ Hl) _
    (or_introl (conj (live_ridx _ Hl) (live_reply _ Hl))) Ep) as Hpost.
  destruct st as [k' rest' h'|k' rest' h'|k' h'].
  - destruct Hp as [t Ht]. destruct (complete_next _ _ _ _ Ht) as (k'' & -> & Hl' & Hk').
    cbn [mbind result_bind get_ok]. destruct Hpost as (_ & _ & Hr & Hs). left.
    split_and!; try done. exists t. destruct Ht as [Hb Hi Hrep Hlv Hh].
    split_and!; try done. split; [done|]. split.
    + exists (-1), []. split; [by left|done].
    + by eapply counts_ok_suffix.
  - destruct Hpost as (He & Hr & Hi & Hs). right; left. split_and!; try done.
    split; [by apply (live_next k)|]. split; [done|]. by eapply counts_ok_suffix.
  - right; right. split_and!; try done. by eapply failed_heap.
Qed.
End safe.
