(* ===== verification/ReaderCorrect.v ===== *)
(** * ReaderCorrect: what the parser of read.c guarantees

    The theorems about the reader, each with an instance. *)
From S2P Require Import Prelude Mem Sds SdsFacts Reply Reader ReaderSpec ReaderRefine.
From S2P Require Import ReaderStream ReaderView Streaming ReplyTree ReaderDefault Resp.
From S2P Require Import RoundTrip Session ReaderSafe.
From stdpp Require Import list list_numbers strings sets gmap.
From Stdlib Require Import ZArith Lia.
Open Scope Z_scope.

(** An allocator that never fails, for the instances. *)
Definition heap_all : HeapMalloc := {| heap_ok := fun _ _ => true |}.
Definition empty_heap : heap := mk_heap ∅ 1 0.

Lemma empty_heap_rep : heap_rep empty_heap [] ∅.
Proof. split; try done; constructor. Qed.

(** ** Any way of cutting the input *)

(** The same replies, status and store, and readers that look the same. *)
Definition run_equiv {M : Malloc} {H : Type}
    (m1 m2 : result (list Z * Z * redisReader H * H)) : Prop :=
  match m1, m2 with
  | Ok (ps1, st1, r1, h1), Ok (ps2, st2, r2, h2) =>
      ps1 = ps2 /\ st1 = st2 /\ h1 = h2 /\ same_view r1 r2
  | Fault f1, Fault f2 => f1 = f2
  | _, _ => False
  end.

Lemma sim_equiv {M : Malloc} {H : Type} L o (m1 m2 : result (list Z * Z * redisReader H * H)) :
  sim L o m1 -> sim L o m2 -> run_equiv m1 m2.
Proof.
  destruct o as [[[[ps st] a] h]|f]; cbn.
  - intros (r1 & -> & H1 & _) (r2 & -> & H2 & _). split_and!; try done. by exists a.
  - by intros -> ->.
Qed.

(** C25: the replies a client gets, the status, the faults and the objects
    built do not depend on how the input was cut into chunks: feeding chunk by
    chunk and draining the replies after each is the same for every cut. *)
Theorem stream_split {M : Malloc} {H : Type} (a : areader (H := H)) r h xs ys :
  (forall n, malloc_ok n = true) -> areader_is a r ->
  xs <> [] -> ys <> [] ->
  Forall (fun x => 1 <= zlen x) xs -> Forall (fun x => 1 <= zlen x) ys ->
  concat xs = concat ys -> room r (zlen (concat xs)) ->
  run_equiv (drive r h xs) (drive r h ys).
Proof.
  intros HM Ha Hx Hy Fx Fy Hxy Hroom.
  assert (has_room a r (zlen (concat xs))) as Hr by by destruct a.
  pose proof (drive_sim HM xs a r h (S (unread a + length (concat xs))) Ha Hx Fx Hr
    ltac:(lia)) as S1.
  rewrite Hxy in S1, Hr.
  pose proof (drive_sim HM ys a r h (S (unread a + length (concat ys))) Ha Hy Fy Hr
    ltac:(lia)) as S2.
  by eapply sim_equiv.
Qed.

(** A reply and a half, cut in two different ways. *)
Lemma stream_split_witness : exists r,
  redisReaderCreateWithFunctions (M := malloc_yes) (Some (defaultFunctions (HM := heap_all)))
    = Ok (Some r) /\
  run_equiv (M := malloc_yes)
    (drive (M := malloc_yes) r empty_heap [lit "+O"; lit "K" ++ [13]; [10; 58; 49]])
    (drive (M := malloc_yes) r empty_heap [lit "+OK" ++ crlf ++ lit ":1"]).
Proof.
  destruct (create_live (M := malloc_yes) (Some (defaultFunctions (HM := heap_all))))
    as (r & Hc & Hr & Hl); [done|].
  exists r. split; [exact Hc|].
  eapply (stream_split (M := malloc_yes)); [done|exact Hr|done|done| | |done|].
  - repeat constructor; done.
  - repeat constructor; done.
  - unfold room. rewrite Hl. done.
Defined.

(** ** What a server writes is what the client reads *)

(** C26: a client of a new reader with the functions of hiredis.c that is fed
    the encodings of values, cut in any way, gets one reply per value, in
    order, each reading back from the store as its value; the store holds
    these replies and nothing else of the reader. *)
Theorem reader_roundtrip {M : Malloc} {HM : HeapMalloc} vs xs r h F :
  (forall n, malloc_ok n = true) -> (forall n size, heap_ok n size = true) ->
  Forall sendable vs -> Forall (fun v => depth v <= 8)%nat vs ->
  xs <> [] -> Forall (fun x => 1 <= zlen x) xs ->
  concat xs = flat_map resp_encode vs -> zlen (concat xs) < 2 ^ 31 - 1 ->
  redisReaderCreateWithFunctions (Some defaultFunctions) = Ok (Some r) -> heap_rep h [] F ->
  exists ps r' h' ts,
    drive r h xs = Ok (ps, REDIS_OK, r', h') /\
    mapM (reply_value (size (cells h')) h') ps = Some vs /\
    ps = ptr <$> ts /\ heap_rep h' (flat_map cells_of ts) F.
Proof. apply drive_values. Qed.

(** An array, a status and an integer, in three chunks. *)
Lemma reader_roundtrip_witness : exists r ps r' h' ts,
  redisReaderCreateWithFunctions (M := malloc_yes) (Some (defaultFunctions (HM := heap_all)))
    = Ok (Some r) /\
  drive (M := malloc_yes) r empty_heap
    [lit "*2" ++ crlf ++ lit "$3"; crlf ++ lit "GET" ++ crlf ++ lit "$-"; lit "1" ++ crlf ++
      lit "+OK" ++ crlf ++ lit ":-7" ++ crlf] = Ok (ps, REDIS_OK, r', h') /\
  mapM (reply_value (size (cells h')) h') ps =
    Some [RArray [RString (lit "GET"); RNil]; RStatus (lit "OK"); RInteger (-7)] /\
  ps = ptr <$> ts /\ heap_rep h' (flat_map cells_of ts) ∅.
Proof.
  destruct (create_live (M := malloc_yes) (Some (defaultFunctions (HM := heap_all))))
    as (r & Hc & Hr & Hl); [done|].
  exists r. 
  edestruct (reader_roundtrip (M := malloc_yes) (HM := heap_all)
    [RArray [RString (lit "GET"); RNil]; RStatus (lit "OK"); RInteger (-7)]
    [lit "*2" ++ crlf ++ lit "$3"; crlf ++ lit "GET" ++ crlf ++ lit "$-"; lit "1" ++ crlf ++
      lit "+OK" ++ crlf ++ lit ":-7" ++ crlf] r empty_heap ∅)
    as (ps & r' & h' & ts & H1 & H2 & H3 & H4);
    [done|done| | |done| | |done|exact Hc|exact empty_heap_rep|].
  - repeat constructor; try done. cbn. rewrite list_elem_of_In. cbn. unfold CR. intuition lia.
  - repeat constructor; cbn; lia.
  - repeat constructor; done.
  - vm_compute. reflexivity.
  - exists ps, r', h', ts. auto.
Defined.

(** ** Depth *)

(** C30: a value nested more than eight arrays deep is refused with a protocol
    error, and every object built for it is freed. *)
Theorem nesting_refused {M : Malloc} {HM : HeapMalloc} v xs r h F :
  (forall n, malloc_ok n = true) -> (forall n size, heap_ok n size = true) ->
  sendable v -> (8 < depth v)%nat ->
  xs <> [] -> Forall (fun x => 1 <= zlen x) xs ->
  concat xs = resp_encode v -> zlen (concat xs) < 2 ^ 31 - 1 ->
  redisReaderCreateWithFunctions (Some defaultFunctions) = Ok (Some r) -> heap_rep h [] F ->
  exists r' h', drive r h xs = Ok ([], REDIS_ERR, r', h') /\
    rr_err r' = REDIS_ERR_PROTOCOL /\ rr_reply r' = NULL /\ heap_rep h' [] F.
Proof.
  intros HMt HH Hv Hd Hxs Fxs Hcat Hlen Hcreate Hh.
  destruct (create_live (Some defaultFunctions) HMt) as (r0 & Hc & Hr & Hl).
  rewrite Hcreate in Hc. injection Hc as <-. set (n := S (length (concat xs))).
  destruct (refuse_value HH v Hv default_core [] h F [] (default_parsing h F Hh) Hd)
    as (k' & h' & Hp & E1 & E2 & E3).
  rewrite app_nil_r, <- Hcat in Hp. unfold default_core in Hp.
  pose proof (drive_sim HMt xs _ r h n Hr Hxs Fxs ltac:(cbn; unfold room; lia)
    ltac:(unfold n; cbn; lia)) as Hs.
  unfold n in Hs. cbn [abs_feed app] in Hs. rewrite abs_drain_S in Hs.
  cbn [abs_get] in Hs. rewrite Hp in Hs. destruct Hs as (r' & -> & [-> _] & _).
  by exists k', h'.
Qed.

(** Nine nested arrays. *)
Lemma nesting_refused_witness : exists r r' h',
  redisReaderCreateWithFunctions (M := malloc_yes) (Some (defaultFunctions (HM := heap_all)))
    = Ok (Some r) /\
  drive (M := malloc_yes) r empty_heap [concat (replicate 9 (lit "*1" ++ crlf)) ++ lit "$-1" ++ crlf]
    = Ok ([], REDIS_ERR, r', h') /\
  rr_err r' = REDIS_ERR_PROTOCOL /\ rr_reply r' = NULL /\ heap_rep h' [] ∅.
Proof.
  destruct (create_live (M := malloc_yes) (Some (defaultFunctions (HM := heap_all))))
    as (r & Hc & Hr & Hl); [done|].
  exists r.
  edestruct (nesting_refused (M := malloc_yes) (HM := heap_all)
    (Nat.iter 9 (fun v => RArray [v]) RNil)
    [concat (replicate 9 (lit "*1" ++ crlf)) ++ lit "$-1" ++ crlf] r empty_heap ∅)
    as (r' & h' & H1 & H2 & H3 & H4);
    [done|done| | |done| | | |exact Hc|exact empty_heap_rep|].
  - cbn. repeat split; unfold INT_MAX; lia.
  - cbn. lia.
  - repeat constructor; done.
  - vm_compute. reflexivity.
  - vm_compute. reflexivity.
  - exists r', h'. auto.
Defined.

(** ** Any input *)

(** C27: with the functions of hiredis.c, on any input without an oversized
    count, [redisReaderGetReply] does not fault. It returns a well-formed reply
    tree of new objects, or no reply, or an error after which none of its
    objects is left; the objects of the client are untouched. *)
Theorem getReply_safe {HM : HeapMalloc} a r h F :
  areader_is a r -> default_state a h F ->
  exists st p r' h' a', redisReaderGetReply r h true = Ok (st, Some p, r', h') /\
    areader_is a' r' /\ get_ok (Ok (st, p, a', h')) F.
Proof.
  intros Hr Hd. pose proof (getReply_spec a r h true Hr) as Hs.
  pose proof (get_safe a h F Hd) as Hg.
  destruct (abs_get a h) as [[[[st p] a'] h']|]; [|done].
  destruct Hs as (r' & -> & Hr' & _). by exists st, p, r', h', a'.
Qed.

Lemma default_state_feed {HM : HeapMalloc} k h F x :
  live k -> waiting k h F -> counts_ok x -> default_state (Live k x) h F.
Proof. intros. split; [done|]. by split. Qed.

(** Half of a reply. *)
Lemma getReply_safe_witness : exists r r1 st p r' h' a',
  redisReaderCreateWithFunctions (M := malloc_yes) (Some (defaultFunctions (HM := heap_all)))
    = Ok (Some r) /\
  redisReaderFeed (M := malloc_yes) r empty_heap (Some [43; 79]) 2 = Ok (REDIS_OK, r1, empty_heap) /\
  redisReaderGetReply r1 empty_heap true = Ok (st, Some p, r', h') /\
  areader_is a' r' /\ get_ok (HM := heap_all) (Ok (st, p, a', h')) ∅.
Proof.
  destruct (create_live (M := malloc_yes) (Some (defaultFunctions (HM := heap_all))))
    as (r & Hc & Hr & Hl); [done|].
  destruct (feed_live (M := malloc_yes) _ _ r empty_heap [43; 79] [] ltac:(done) Hr
    ltac:(done) ltac:(unfold room; rewrite Hl; done)) as (r1 & Hf & Hr1 & _).
  exists r, r1. 
  destruct (getReply_safe (HM := heap_all) _ r1 empty_heap ∅ Hr1)
    as (st & p & r' & h' & a' & H1 & H2 & H3).
  - apply default_state_feed.
    + apply new_core_live.
    + exists (-1), []. split; [by left|]. apply default_parsing. exact empty_heap_rep.
    + intros p line q He. apply (f_equal (fun l => bool_decide (CR ∈ l))) in He.
      rewrite (bool_decide_eq_true_2 (CR ∈ p ++ line ++ crlf ++ q)) in He by set_solver.
      vm_compute in He. done.
  - exists st, p, r', h', a'. auto.
Defined.

(** C28: [redisReaderGetReply] computes the abstract parser on the bytes that
    were fed and not consumed: same status, reply and store, same faults, and
    the reader it leaves stands for the state the parser leaves. *)
Theorem getReply_refines {H : Type} (a : areader (H := H)) r h want :
  areader_is a r ->
  match abs_get a h with
  | Ok (st, out, a', h') => exists r',
      redisReaderGetReply r h want = Ok (st, if want then Some out else None, r', h') /\
      areader_is a' r'
  | Fault f => redisReaderGetReply r h want = Fault f
  end.
Proof.
  intros Hr. pose proof (getReply_spec a r h want Hr) as Hs.
  destruct (abs_get a h) as [[[[st out] a'] h']|]; [|done].
  destruct Hs as (r' & ? & ? & _). by exists r'.
Qed.

(** A new reader that was fed a status line. *)
Lemma getReply_refines_witness : exists r r1 p a' r' h',
  redisReaderCreateWithFunctions (M := malloc_yes) (Some (defaultFunctions (HM := heap_all)))
    = Ok (Some r) /\
  redisReaderFeed (M := malloc_yes) r empty_heap (Some (lit "+OK" ++ crlf)) 5
    = Ok (REDIS_OK, r1, empty_heap) /\
  redisReaderGetReply r1 empty_heap true = Ok (REDIS_OK, Some p, r', h') /\
  p = 1 /\ areader_is a' r'.
Proof.
  destruct (create_live (M := malloc_yes) (Some (defaultFunctions (HM := heap_all))))
    as (r & Hc & Hr & Hl); [done|].
  destruct (feed_live (M := malloc_yes) _ _ r empty_heap (lit "+OK" ++ crlf) [] ltac:(done) Hr
    ltac:(done) ltac:(unfold room; rewrite Hl; done)) as (r1 & Hf & Hr1 & _).
  pose proof (getReply_refines _ r1 empty_heap true Hr1) as Hg.
  set (g := abs_get _ _) in Hg.
  assert (match g with Ok (st, p, _, _) => (st =? REDIS_OK) && (p =? 1) | _ => false end = true)
    as Hv by (vm_compute; reflexivity).
  destruct g as [[[[st p] a'] h']|]; [|done]. bool_to_prop. subst st p.
  destruct Hg as (r' & Hg & Hr').
  exists r, r1, 1, a', r', h'. auto.
Defined.

(** after an error the reader returns the error for good: feeding it and
    asking it for replies changes nothing. *)
Theorem error_sticky {M : Malloc} {H : Type} (a : areader (H := H)) r h out r' h' :
  areader_is a r -> redisReaderGetReply r h true = Ok (REDIS_ERR, out, r', h') ->
  rr_err r' <> 0 /\ out = Some NULL /\
  (forall h2 x len, redisReaderFeed r' h2 x len = Ok (REDIS_ERR, r', h2)) /\
  (forall h2, redisReaderGetReply r' h2 true = Ok (REDIS_ERR, Some NULL, r', h2)).
Proof.
  intros Hr Hg. pose proof (getReply_spec a r h true Hr) as Hs.
  destruct (abs_get a h) as [[[[st p] a'] h1]|] eqn:Ea; [|by rewrite Hg in Hs].
  destruct Hs as (r1 & Hs & Hr1 & _). rewrite Hg in Hs. simplify_eq.
  destruct (abs_get_dead _ _ _ _ _ _ (areader_alive _ _ Hr) Ea ltac:(done)) as (k & -> & _ & _).
  destruct Hr1 as [-> He].
  assert (p = NULL) as ->.
  { destruct a as [k0 rest|k0]; cbn [abs_get] in Ea; [|by simplify_eq].
    destruct (abs_parse k0 rest h) as [[k1 ? ?| |]|]; cbn [mbind result_bind] in Ea;
      simplify_eq; [|done].
    by destruct (start _). }
  split_and!; [done|done|intros; unfold redisReaderFeed|intros; unfold redisReaderGetReply];
    by bool_false (rr_err k =? 0).
Qed.

(** An unknown type byte. *)
Lemma error_sticky_witness : exists r r1 r' h',
  redisReaderCreateWithFunctions (M := malloc_yes) (Some (defaultFunctions (HM := heap_all)))
    = Ok (Some r) /\
  redisReaderFeed (M := malloc_yes) r empty_heap (Some [63]) 1 = Ok (REDIS_OK, r1, empty_heap) /\
  redisReaderGetReply r1 empty_heap true = Ok (REDIS_ERR, Some NULL, r', h') /\
  redisReaderGetReply r' empty_heap true =
    Ok (REDIS_ERR, Some NULL, r', empty_heap).
Proof.
  destruct (create_live (M := malloc_yes) (Some (defaultFunctions (HM := heap_all))))
    as (r & Hc & Hr & Hl); [done|].
  destruct (feed_live (M := malloc_yes) _ _ r empty_heap [63] [] ltac:(done) Hr
    ltac:(done) ltac:(unfold room; rewrite Hl; done)) as (r1 & Hf & Hr1 & _).
  pose proof (getReply_spec _ r1 empty_heap true Hr1) as Hg.
  set (g := abs_get _ _) in Hg.
  assert (match g with
          | Ok (st, p, _, _) => (st =? REDIS_ERR) && (p =? NULL)
          | _ => false end = true)
    as Hv by (vm_compute; reflexivity).
  destruct g as [[[[st p] a'] h']|]; [|done]. bool_to_prop. subst st p.
  destruct Hg as (r' & Hg & Hr' & _).
  destruct (error_sticky (M := malloc_yes) _ _ _ _ _ _ Hr1 Hg) as (_ & _ & _ & Hst).
  exists r, r1, r', h'. auto.
Defined.

(** ** Freeing *)

(** [freeReplyObject] of a live reply does not fault, frees every object
    of the reply once and leaves every other object as it is. *)
Theorem freeReplyObject_exact t h F : leaves_ok t -> heap_rep h (cells_of t) F ->
  exists h', freeReplyObject (ptr t) h = Ok h' /\ cells h' = F.
Proof.
  intros Ht Hh. rewrite <- (app_nil_r (cells_of t)) in Hh.
  destruct (freeReplyObject_tree t h [] F Ht Hh) as (h' & Hf & [Hc _ _ _ _]).
  exists h'. split; [done|]. by rewrite Hc, list_to_map_nil, (left_id_L ∅ (∪)).
Qed.

(** An array of an integer and a hole, next to an object of the client. *)
Lemma freeReplyObject_exact_witness :
  let o := mk_reply REDIS_REPLY_INTEGER 7 0 None 0 None in
  let h := mk_heap (list_to_map [(2, arr_obj [3; NULL]); (3, o); (1, nil_obj)]) 4 0 in
  exists h', freeReplyObject 2 h = Ok h' /\ cells h' = {[1 := nil_obj]}.
Proof.
  intros o h.
  apply (freeReplyObject_exact (TArr 2 [TLeaf 3 o; TNull]) h {[1 := nil_obj]}).
  - cbn. repeat split. by right.
  - split.
    + vm_compute. reflexivity.
    + repeat constructor; set_solver.
    + repeat constructor.
    + apply map_Forall_to_list. cbn. vm_compute map_to_list. repeat constructor; done.
    + done.
Defined.

(** Freeing a reader in the middle of a reply frees the objects of the
    unfinished reply and nothing else. *)
Theorem redisReaderFree_exact {HM : HeapMalloc} k ty fs h F :
  parsing k ty fs h F -> exists h', redisReaderFree k h = Ok h' /\ cells h' = F.
Proof.
  intros [Hb _ _ _ _ Hr Hfs Hh]. unfold redisReaderFree.
  rewrite (fn_default _ freeObject Hb). cbn [freeObject defaultFunctions].
  pose proof (plug_ptr fs TNull) as Hp. cbn [ptr] in Hp. rewrite <- Hr in Hp.
  pose proof (plug_cells fs TNull) as Hc. cbn [ptr cells_of app] in Hc.
  rewrite <- Hc, <- (app_nil_r (cells_of _)) in Hh.
  destruct (freeReplyObject_tree _ _ _ _ (plug_ok fs TNull Hfs I) Hh) as (h' & Hf & [Hcells _ _ _ _]).
  rewrite list_to_map_nil, (left_id_L ∅ (∪)) in Hcells. exists h'. split; [|done].
  rewrite Hp in Hf. destruct (rr_reply k =? NULL) eqn:E; bool_to_prop; cbn [negb]; [|done].
  by rewrite E in Hf.
Qed.

(** A reader that read nothing yet. *)
Lemma redisReaderFree_exact_witness :
  exists h', redisReaderFree (default_core (HM := heap_all)) empty_heap = Ok h' /\ cells h' = ∅.
Proof.
  apply (redisReaderFree_exact (HM := heap_all) _ (-1) []).
  apply default_parsing. exact empty_heap_rep.
Defined.

(** ** Termination *)

(** The functions of a table return. *)
Record returning {H : Type} (fn : redisReplyObjectFunctions H) : Prop := {
  ret_string : forall f, createString fn = Some f -> forall t p s h, f t p s h <> Fault OutOfFuel;
  ret_array : forall f, createArray fn = Some f -> forall t p n h, f t p n h <> Fault OutOfFuel;
  ret_integer : forall f, createInteger fn = Some f -> forall t p v h, f t p v h <> Fault OutOfFuel;
  ret_nil : forall f, createNil fn = Some f -> forall t p h, f t p h <> Fault OutOfFuel;
  ret_free : forall f, freeObject fn = Some f -> forall p h, f p h <> Fault OutOfFuel
}.

Definition returns_from {A} (m : result A) : Prop := m <> Fault OutOfFuel.

Lemma returns_from_bind {A B} (m : result A) (k : A -> result B) :
  returns_from m -> (forall a, returns_from (k a)) -> returns_from (m ≫= k).
Proof. destruct m as [a|f]; cbn; [auto|]. intros Hm _ [= ->]. by apply Hm. Qed.

Lemma returns_from_ok {A} (a : A) : returns_from (Ok a).
Proof. done. Qed.

Create HintDb returning.
#[export] Hint Resolve returns_from_ok : returning.

Section terminates.
Context {H : Type} (fn : redisReplyObjectFunctions H).
Hypothesis fn_returning : returning fn.
Implicit Types (k : redisReader H).

Lemma get_task_returns k i : returns_from (get_task k i).
Proof. unfold get_task. split_if; [done|]. by destruct (_ !! _). Qed.

Lemma put_task_returns k i t : returns_from (put_task k i t).
Proof. unfold put_task. by split_if. Qed.

Lemma get_parent_returns k t : returns_from (get_parent k t).
Proof.
  unfold get_parent. destruct (t_parent t); [|done].
  apply returns_from_bind; [apply get_task_returns|done].
Qed.

Lemma c_assert_returns b : returns_from (c_assert b).
Proof. by destruct b. Qed.

#[local] Hint Resolve get_task_returns put_task_returns get_parent_returns c_assert_returns
  : returning.

(** Each round of [moveToNextTask] pops a level. *)
Lemma move_returns k : -1 <= rr_ridx k -> returns_from (moveToNextTask k).
Proof.
  unfold moveToNextTask. intros Hk.
  assert (forall n k, -1 <= rr_ridx k -> rr_ridx k + 1 < Z.of_nat n ->
    returns_from (moveToNextTask_fuel n k)) as Hn; [|apply Hn; lia].
  clear k Hk. induction n as [|n IH]; intros k H1 H2; [lia|]. cbn [moveToNextTask_fuel].
  repeat split_if; auto with returning.
  repeat (apply returns_from_bind; [auto with returning|intros]).
  split_if; [apply IH; cbn; lia|]. apply returns_from_bind; auto with returning.
Qed.

Definition uses k : Prop := rr_fn k = Some fn.

Lemma uses_entry k {A} (f : redisReplyObjectFunctions H -> option A) : uses k -> fn_entry k f = f fn.
Proof. intros Hk. unfold fn_entry. by rewrite Hk. Qed.

Lemma env_uses k k' : env k' = env k -> uses k -> uses k'.
Proof. unfold uses. intros He Hk. injection He as He. congruence. Qed.

Lemma set_error_returns k h ty str : uses k -> returns_from (__redisReaderSetError k h ty str).
Proof.
  intros Hk. unfold __redisReaderSetError. rewrite uses_entry by done.
  apply returns_from_bind; [|by intros [? ?]]. split_if; [|done].
  destruct (freeObject fn) as [f|] eqn:Ef; [|done].
  apply returns_from_bind; [by eapply ret_free|done].
Qed.

Lemma finish_returns k rest obj h : uses k -> 0 <= rr_ridx k -> returns_from (finish k rest obj h).
Proof.
  intros Hk Hi. unfold finish, fail_oom, __redisReaderSetErrorOOM. split_if.
  - apply returns_from_bind; [by apply set_error_returns|by intros [? ?]].
  - apply returns_from_bind; [apply move_returns; split_if; cbn; lia|done].
Qed.

Lemma make_nil_returns k cur parent h : uses k -> returns_from (make_nil k cur parent h).
Proof.
  intros Hk. unfold make_nil. rewrite uses_entry by done.
  destruct (createNil fn) eqn:E; [by eapply ret_nil|done].
Qed.

Lemma abs_typed_returns k rest h ty : uses k -> 0 <= rr_ridx k -> returns_from (abs_typed k rest h ty).
Proof.
  intros Hk Hi. unfold abs_typed, abs_line, abs_bulk, abs_multi. rewrite !uses_entry by done.
  destruct (_ || _); [|destruct (ty =? REDIS_REPLY_STRING);
    [|destruct (ty =? REDIS_REPLY_ARRAY); [|done]]];
    (apply returns_from_bind; [auto with returning|intros cur]).
  - destruct (split_line rest) as [[line rest']|]; [|done].
    apply returns_from_bind; [auto with returning|intros parent].
    apply returns_from_bind; [|intros [obj h']; by apply finish_returns].
    split_if.
    + destruct (createInteger fn) eqn:Ec; [by eapply ret_integer|done].
    + destruct (createString fn) eqn:Ec; [by eapply ret_string|done].
  - destruct (split_line rest) as [[line rest']|]; [|done].
    apply returns_from_bind; [auto with returning|intros parent]. repeat split_if; try done.
    + apply returns_from_bind; [by apply make_nil_returns|intros [obj h']; by apply finish_returns].
    + apply returns_from_bind; [|intros [obj h']; by apply finish_returns].
      destruct (createString fn) eqn:Ec; [by eapply ret_string|done].
  - split_if.
    { apply returns_from_bind; [by apply set_error_returns|by intros [? ?]]. }
    destruct (split_line rest) as [[line rest']|]; [|done].
    apply returns_from_bind; [auto with returning|intros parent].
    apply returns_from_bind.
    + split_if; [by apply make_nil_returns|].
      destruct (createArray fn) eqn:Ec; [by eapply ret_array|done].
    + intros [obj h']. split_if.
      { apply returns_from_bind; [by apply set_error_returns|by intros [? ?]]. }
      apply returns_from_bind; [|done]. split_if; [|apply move_returns; lia].
      unfold push_task. apply returns_from_bind; auto with returning.
Qed.

Lemma abs_item_returns k rest h : uses k -> 0 <= rr_ridx k -> returns_from (abs_item k rest h).
Proof.
  intros Hk Hi. unfold abs_item. apply returns_from_bind; [auto with returning|intros cur].
  split_if; [|by apply abs_typed_returns]. destruct rest as [|c rest]; [done|].
  destruct (type_of_byte c).
  - pose proof (put_task_returns k (rr_ridx k) (set_type cur z)) as Hret.
    destruct (put_task k (rr_ridx k) (set_type cur z)) as [k'|f] eqn:Ep.
    2: { intros [= ->]. by apply Hret. }
    apply put_task_env in Ep as (He & Hi' & _). apply abs_typed_returns; [by eapply env_uses|lia].
  - apply returns_from_bind; [by apply set_error_returns|by intros [? ?]].
Qed.

Lemma abs_parse_returns k rest h : is_core k -> uses k -> ready k \/ rr_ridx k = -1 ->
  returns_from (abs_parse k rest h).
Proof.
  intros Hc. revert k rest h Hc. refine (abs_parse_ind _ _). intros k rest h Hc IH Hk Hr.
  rewrite abs_parse_step by done. destruct Hr as [Hr| ->]; [|done].
  pose proof (proj1 Hr) as Hi. bool_true (0 <=? rr_ridx k).
  pose proof (abs_item_returns k rest h Hk Hi) as Hit.
  destruct (abs_item k rest h) as [[k' rest' h'| |]|] eqn:Ei; cbn [mbind result_bind]; try done.
  destruct (abs_item_post _ _ _ _ Hc Ei) as [He _].
  destruct (abs_item_advanced _ _ _ _ Hr Ei) as [Ha Hb].
  apply (IH _ _ _ eq_refl); [by eapply env_uses|].
  destruct (decide (rr_ridx k' = -1)); [by right|left]. split; [lia|by right].
Qed.

End terminates.

(** C29: [redisReaderGetReply] returns for every input and every table of
    functions that return: its loops end. *)
Theorem getReply_terminates {H : Type} (fn : redisReplyObjectFunctions H) k rest r h want :
  returning fn -> rr_fn k = Some fn -> areader_is (Live k rest) r ->
  redisReaderGetReply r h want <> Fault OutOfFuel.
Proof.
  intros Hfn Hk Hr. pose proof (getReply_spec _ r h want Hr) as Hs.
  destruct Hr as [Hl _]. cbn [abs_get] in Hs.
  pose proof (abs_parse_returns fn Hfn k rest h (live_core _ Hl) Hk
    (or_introl (conj (live_ridx _ Hl) (live_reply _ Hl)))) as Hp.
  destruct (abs_parse k rest h) as [[k' rest' h'| |]|f] eqn:Ep; cbn [mbind result_bind] in Hs.
  - destruct (start (set_reply k' NULL)) as [k''|f] eqn:Est; cbn in Hs.
    + by destruct Hs as (r' & -> & _).
    + rewrite Hs. intros [= ->]. revert Est. unfold start. split_if; [|done].
      apply put_task_returns.
  - by destruct Hs as (r' & -> & _).
  - by destruct Hs as (r' & -> & _).
  - cbn in Hs. rewrite Hs. intros [= ->]. done.
Qed.

(** A table that counts the objects. *)
Definition count_fns : redisReplyObjectFunctions nat :=
  mk_fns (Some (fun _ _ _ n => Ok (1, S n))) (Some (fun _ _ _ n => Ok (1, S n)))
    (Some (fun _ _ _ n => Ok (1, S n))) None (Some (fun _ n => Ok n)).

Lemma getReply_terminates_witness : exists r,
  redisReaderCreateWithFunctions (M := malloc_yes) (Some count_fns) = Ok (Some r) /\
  redisReaderGetReply r O true <> Fault OutOfFuel.
Proof.
  destruct (create_live (M := malloc_yes) (Some count_fns)) as (r & Hc & Hr & Hl); [done|].
  exists r. split; [exact Hc|].
  apply (getReply_terminates count_fns (new_core (Some count_fns)) []); [|done|exact Hr].
  split; cbn; by intros ? [= <-].
Defined.

(** ** Numbers and lines *)

(** [readLongLong] reads the decimal text of every [long long] but the
    least. *)
Theorem readLongLong_decimal n pre post : - 2 ^ 63 < n < 2 ^ 63 ->
  readLongLong (pre ++ sdec n ++ CR :: post) (zlen pre) = Ok n.
Proof.
  intros Hn. rewrite (readLongLong_spec _ pre (sdec n) post) by done.
  by rewrite long_long_sdec.
Qed.

Lemma readLongLong_decimal_witness :
  readLongLong ([58] ++ sdec (-9223372036854775807) ++ CR :: [LF]) 1 = Ok (-9223372036854775807).
Proof. apply (readLongLong_decimal (-9223372036854775807) [58] [LF]). lia. Defined.

Lemma find_crlf_first l n : find_crlf l = Some n <->
  (l !! n = Some CR /\ l !! S n = Some LF) /\
  forall i, (i < n)%nat -> ~ (l !! i = Some CR /\ l !! S i = Some LF).
Proof.
  revert n. induction l as [|c l IH]; intros n.
  { split; [done|]. intros [[? _] _]. done. }
  destruct l as [|d l].
  { split; [done|]. intros [[_ H] _]. by destruct n. }
  rewrite find_crlf_cons. destruct ((c =? CR) && (d =? LF)) eqn:E; bool_to_prop.
  - subst. split.
    + intros [= <-]. split; [done|]. lia.
    + intros [_ Hn]. destruct n as [|n]; [done|]. exfalso. by apply (Hn O); [lia|].
  - assert (~ (c = CR /\ d = LF)) as Hno.
    { intros [-> ->]. done. }
    destruct n as [|n].
    { split.
      - by destruct (find_crlf (d :: l)).
      - intros [[H1 H2] _]. simplify_eq/=. }
    assert (find_crlf (d :: l) = Some n <-> S <$> find_crlf (d :: l) = Some (S n)) as <-
      by (destruct (find_crlf (d :: l)); cbn; split; congruence).
    rewrite IH. cbn [lookup list_lookup]. split.
    + intros [Hn Hf]. split; [done|]. intros [|i] Hi; [cbn; naive_solver|].
      apply Hf. lia.
    + intros [Hn Hf]. split; [done|]. intros i Hi. apply (Hf (S i)). lia.
Qed.

(** [seekNewline] finds the first CRLF of the unread bytes, and [NULL] if
    there is none; it reads no byte outside them. *)
Theorem seekNewline_first pre rest post : zlen rest < 2 ^ 31 ->
  exists r, seekNewline (pre ++ rest ++ post) (zlen pre) (zlen rest) = Ok r /\
    match r with
    | Some s => exists n, s = zlen pre + Z.of_nat n /\
        (rest !! n = Some CR /\ rest !! S n = Some LF) /\
        forall i, (i < n)%nat -> ~ (rest !! i = Some CR /\ rest !! S i = Some LF)
    | None => forall i, ~ (rest !! i = Some CR /\ rest !! S i = Some LF)
    end.
Proof.
  intros Hr. rewrite (seekNewline_spec _ pre rest post eq_refl Hr).
  eexists. split; [done|]. destruct (find_crlf rest) as [n|] eqn:En; cbn.
  - exists n. split; [done|]. by apply find_crlf_first.
  - assert (forall n i, (i < n)%nat -> ~ (rest !! i = Some CR /\ rest !! S i = Some LF)) as Hall.
    { induction n as [|n IH]; [lia|]. intros i Hi Hc.
      destruct (decide (i = n)) as [->|]; [|apply (IH i); [lia|done]].
      assert (find_crlf rest = Some n) by by apply find_crlf_first. congruence. }
    intros i. apply (Hall (S i)). lia.
Qed.

Lemma seekNewline_first_witness :
  exists r, seekNewline ([43] ++ ([CR; 65] ++ crlf) ++ [0]) 1 4 = Ok r /\ r = Some 3.
Proof.
  destruct (seekNewline_first [43] ([CR; 65] ++ crlf) [0]) as (r & Hr & _); [done|].
  exists r. split; [exact Hr|]. vm_compute in Hr. congruence.
Defined.

(** ** Observation *)

(** Readers that stand for the same abstract reader behave the same:
    equal results and again readers that stand for the same one. Where the bytes
    lie in the buffer and when it was cut cannot be observed. *)
Theorem same_view_getReply {H : Type} (r1 r2 : redisReader H) h want : same_view r1 r2 ->
  match redisReaderGetReply r1 h want, redisReaderGetReply r2 h want with
  | Ok (st1, out1, r1', h1), Ok (st2, out2, r2', h2) =>
      st1 = st2 /\ out1 = out2 /\ h1 = h2 /\ same_view r1' r2'
  | Fault f1, Fault f2 => f1 = f2
  | _, _ => False
  end.
Proof.
  intros (a & H1 & H2). pose proof (getReply_spec a r1 h want H1) as S1.
  pose proof (getReply_spec a r2 h want H2) as S2.
  destruct (abs_get a h) as [[[[st out] a'] h']|f]; cbn in S1, S2.
  - destruct S1 as (r1' & -> & ? & _). destruct S2 as (r2' & -> & ? & _).
    split_and!; try done. by exists a'.
  - by rewrite S1, S2.
Qed.

Lemma same_view_getReply_witness : exists r,
  redisReaderCreateWithFunctions (M := malloc_yes) (Some count_fns) = Ok (Some r) /\
  match redisReaderGetReply r O true, redisReaderGetReply r O true with
  | Ok (st1, out1, r1', h1), Ok (st2, out2, r2', h2) =>
      st1 = st2 /\ out1 = out2 /\ h1 = h2 /\ same_view r1' r2'
  | Fault f1, Fault f2 => f1 = f2
  | _, _ => False
  end.
Proof.
  destruct (create_live (M := malloc_yes) (Some count_fns)) as (r & Hc & Hr & Hl); [done|].
  exists r. split; [exact Hc|]. apply (same_view_getReply r r O true). by exists (Live (new_core (Some count_fns)) []).
Defined.

(** ** Counts *)

(** The outcome of feeding [x] to a new reader with the default functions. *)
Definition run_new (x : bytes) : result (Z * list Z * heap) :=
  r ← redisReaderCreateWithFunctions (M := malloc_yes) (Some (defaultFunctions (HM := heap_all)));
  r ← deref r;
  '(ps, st, _, h) ← drive (M := malloc_yes) r empty_heap [x];
  Ok (st, ps, h).

(** A count above [INT_MAX] is truncated on its way to [createArray]: the
    reply has no element vector, and storing the first element dereferences
    [NULL]. *)
Theorem count_truncated :
  run_new (lit "*2147483648" ++ crlf ++ lit ":1" ++ crlf) = Fault NullDeref.
Proof. vm_compute. reflexivity. Qed.

(** a negative count other than -1 gives an array reply without element
    vector whose [elements], a [size_t], is the count modulo [2^64]. *)
Theorem count_negative : exists h,
  run_new (lit "*-5" ++ crlf) = Ok (REDIS_OK, [1], h) /\
  cells h !! 1 = Some (mk_reply REDIS_REPLY_ARRAY 0 0 None (2 ^ 64 - 5) None).
Proof. eexists. vm_compute. split; reflexivity. Qed.
