(* ===== verification/FormatCorrect.v ===== *)
(** * FormatCorrect: what the command formatters promise

    The commands are the encodings of their arguments, the three formatters
    agree, and a parser of the protocol reads the arguments back. *)
From S2P Require Import Prelude Mem Sds SdsFacts SdsText SdsTextFacts SdsSplit SdsCorrect.
From S2P Require Import Reply Reader ReaderView ReplyTree ReaderDefault Streaming Resp Session.
From S2P Require Import ReaderCorrect Format FormatFacts FormatSpec.
From stdpp Require Import list list_numbers strings sets gmap.
From Stdlib Require Import ZArith Lia.
Open Scope Z_scope.

(** ** redisvFormatCommand *)

(** A [printf] that writes [int]s in decimal, for the instances. *)
Definition print_int (f : bytes) (ap : list va) : bytes :=
  match ap with VInt n :: _ => sdec n | _ => [] end.

Lemma sdec_no_nul n : no_nul (sdec n).
Proof.
  assert (forall v, 0 <= v -> no_nul (udec v)) as H.
  { intros v Hv. eapply Forall_impl; [by apply udec_digits|]. unfold is_digit. lia. }
  unfold sdec. split_if; [constructor; [done|]|]; apply H; lia.
Qed.

Lemma print_int_no_nul f ap : no_nul (print_int f ap).
Proof. destruct ap as [|[] ap]; try constructor. apply sdec_no_nul. Qed.

(** C31: [redisvFormatCommand] writes the command whose arguments are the words
    of the format: the texts between blanks, with each conversion replaced by
    its argument. An unknown conversion gives -2, a failed allocation -1, and
    nothing is then stored. [vtext] is the text of one [printf] conversion. *)
Theorem redisvFormatCommand_words {M : Malloc} vformat vtext f r ap items bad :
  (forall f r ap, no_nul f -> vformat (f ++ 0 :: r) ap = vtext f ap) ->
  (forall f ap, no_nul (vtext f ap)) ->
  no_nul f -> expand vtext (S (length f)) f ap = Some (items, bad) ->
  zlen (command (words None items)) < INT_MAX ->
  match redisvFormatCommand vformat true (f ++ 0 :: r) ap with
  | Ok (len, Some cmd) => bad = false /\ holds_command (words None items) len cmd
  | Ok (e, None) =>
      (e = memory_err /\ exists n, malloc_ok n = false) \/ (e = format_err /\ bad = true)
  | Fault _ => False
  end.
Proof.
  intros Hv Hn Hf He Hl. unfold redisvFormatCommand. cbn [negb].
  pose proof (format_command_spec vformat vtext Hv Hn f r ap items bad Hf He Hl) as H.
  by destruct (format_command _ _ _) as [[e|[len cmd]]|].
Qed.

(** [SET key:%d %b] with an [int] and a binary string. *)
Lemma redisvFormatCommand_words_witness :
  match redisvFormatCommand (M := malloc_yes) print_int true (lit "SET  key:%d %b" ++ [0])
    [VInt (-5); VPtr [7; 0; 8]; VSize 2] with
  | Ok (len, Some cmd) => false = false /\ holds_command [lit "SET"; lit "key:-5"; [7; 0]] len cmd
  | Ok (e, None) =>
      (e = memory_err /\ exists n, malloc_ok (Malloc := malloc_yes) n = false) \/
      (e = format_err /\ false = true)
  | Fault _ => False
  end.
Proof.
  apply (redisvFormatCommand_words (M := malloc_yes) print_int print_int (lit "SET  key:%d %b") []
    [VInt (-5); VPtr [7; 0; 8]; VSize 2]
    [Some (lit "S"); Some (lit "E"); Some (lit "T"); None; None; Some (lit "k"); Some (lit "e");
     Some (lit "y"); Some (lit ":"); Some (lit "-5"); None; Some [7; 0]] false).
  - done.
  - apply print_int_no_nul.
  - by repeat constructor.
  - vm_compute. reflexivity.
  - vm_compute. reflexivity.
Defined.

(** A format that ends inside a conversion: [strchr] finds the terminator among
    the letters, and the loop goes on beyond the format. *)
Example format_ends_in_conversion :
  redisvFormatCommand (M := malloc_yes) print_int true (lit "GET %-" ++ [0]) [VInt 3] =
  Fault OutOfBounds.
Proof. vm_compute. reflexivity. Qed.

(** A conversion of 14 bytes or more is not printed: its argument is dropped
    and its text, from the third byte on, goes into the command. *)
Example format_long_conversion :
  redisvFormatCommand (M := malloc_yes) print_int true (lit "%000000000012d" ++ [0]) [VInt 3] =
  Ok (23, Some (command [lit "00000000012d"] ++ [0])).
Proof. vm_compute. reflexivity. Qed.

(** ** Commands from arrays *)

(** C32: [redisFormatCommandArgv] and [redisFormatSdsCommandArgv] give the
    encoding of the arguments and its length, whether the lengths are passed
    or found by [strlen]. *)
Theorem formatArgv_agree {M : Malloc} ds argv argvlen :
  args_are ds argv argvlen -> zlen (command ds) < INT_MAX ->
  formats (redisFormatCommandArgv true (zlen ds) argv argvlen) (holds_command ds) /\
  formats_any (redisFormatSdsCommandArgv true (zlen ds) argv argvlen)
    (fun len s => len = zlen (command ds) /\ sds_is (command ds) s).
Proof. intros. split; [by apply argv_spec|by apply sds_argv_spec]. Qed.

Lemma formatArgv_agree_witness : let argv := [cstr "SET"; cstr "k"; cstr ""] in
  formats (M := malloc_yes) (redisFormatCommandArgv (M := malloc_yes) true 3 argv None)
    (holds_command [lit "SET"; lit "k"; []]) /\
  formats_any (M := malloc_yes) (redisFormatSdsCommandArgv (M := malloc_yes) true 3 argv None)
    (fun len s => len = zlen (command [lit "SET"; lit "k"; []]) /\
                  sds_is (command [lit "SET"; lit "k"; []]) s).
Proof.
  intros argv. apply (formatArgv_agree (M := malloc_yes) [lit "SET"; lit "k"; []] argv None).
  - assert (Forall2 c_string [lit "SET"; lit "k"; []] argv) as H.
    { unfold argv. repeat (apply Forall2_cons_2;
        [split; [by repeat constructor|by exists []]|]). constructor. }
    split; [|exact H]. eapply Forall2_impl; [exact H|]. intros d p [_ [r ->]]. by eexists.
  - vm_compute. reflexivity.
Defined.

(** The encoding of a command, sent in any chunks, is one array. *)
Lemma drive_command {M : Malloc} {HM : HeapMalloc} ds xs r h F :
  (forall n, malloc_ok n = true) -> (forall n size, heap_ok n size = true) ->
  zlen (command ds) < INT_MAX -> concat xs = command ds -> Forall (fun x => 1 <= zlen x) xs ->
  redisReaderCreateWithFunctions (Some defaultFunctions) = Ok (Some r) -> heap_rep h [] F ->
  exists p r' h',
    drive r h xs = Ok ([p], REDIS_OK, r', h') /\
    reply_value (size (cells h')) h' p = Some (RArray (RString <$> ds)).
Proof.
  intros HMt HH Hlen Hxs Fxs Hr Hh. unfold INT_MAX in Hlen.
  pose proof (command_zlen ds) as Hc. pose proof (body_ge ds) as Hb.
  pose proof (Zle_0_nat (length (header ds))).
  assert (xs <> []) as Hne.
  { intros ->. rewrite command_eq in Hxs. discriminate Hxs. }
  destruct (drive_values [RArray (RString <$> ds)] xs r h F HMt HH)
    as (ps & r' & h' & ts & Hd & Hv & _ & _); try done.
  - constructor; [|constructor]. apply sendable_arr. rewrite length_fmap. unfold INT_MAX.
    split; [lia|]. apply Forall_fmap, Forall_forall. intros d Hd. cbn. unfold INT_MAX.
    apply list_elem_of_split in Hd as (l1 & l2 & ->).
    rewrite flat_map_app, length_app, Nat2Z.inj_add, body_cons in *. pose proof (bulk_pos d). lia.
  - constructor; [|constructor]. cbn [depth].
    assert (list_max (depth <$> (RString <$> ds)) = 0)%nat as ->; [|lia].
    clear. induction ds as [|d ds IH]; [done|]. cbn in *. exact IH.
  - rewrite Hxs. cbn [flat_map]. by rewrite app_nil_r.
  - rewrite Hxs. lia.
  - destruct ps as [|p [|p2 ps]]; cbn in Hv.
    + done.
    + exists p, r', h'. split; [done|]. destruct (reply_value _ _ p) as [v|]; [|done].
      injection Hv as ->. done.
    + destruct (reply_value _ _ p) as [v|]; [|done]. cbn in Hv.
      destruct (reply_value _ _ p2) as [v2|]; [|done]. cbn in Hv.
      by destruct (mapM _ ps).
Qed.

(** C33: what [redisFormatCommandArgv] writes, sent in any chunks, is read by
    the parser as one array of strings, the arguments. *)
Theorem command_read_back {M : Malloc} {HM : HeapMalloc} ds argv argvlen len cmd xs r h F :
  (forall n, malloc_ok n = true) -> (forall n size, heap_ok n size = true) ->
  args_are ds argv argvlen -> zlen (command ds) < INT_MAX ->
  redisFormatCommandArgv true (zlen ds) argv argvlen = Ok (len, Some cmd) ->
  concat xs = take (Z.to_nat len) cmd -> Forall (fun x => 1 <= zlen x) xs ->
  redisReaderCreateWithFunctions (Some defaultFunctions) = Ok (Some r) -> heap_rep h [] F ->
  exists p r' h',
    drive r h xs = Ok ([p], REDIS_OK, r', h') /\
    reply_value (size (cells h')) h' p = Some (RArray (RString <$> ds)).
Proof.
  intros HMt HH Ha Hlen Hcmd Hxs Fxs Hr Hh.
  pose proof (argv_spec ds argv argvlen Ha Hlen) as Hf. rewrite Hcmd in Hf.
  destruct Hf as [-> ->]. rewrite Nat2Z.id, take_app_length in Hxs. by eapply drive_command.
Qed.

(** [PING], sent byte by byte up to the third. *)
Lemma command_read_back_witness : exists r cmd p r' h',
  redisReaderCreateWithFunctions (M := malloc_yes) (Some (defaultFunctions (HM := heap_all)))
    = Ok (Some r) /\
  redisFormatCommandArgv (M := malloc_yes) true 1 [cstr "PING"] None = Ok (14, Some cmd) /\
  drive (M := malloc_yes) r empty_heap [[42]; [49]; [13]; lit "" ++ [10] ++ lit "$4" ++ crlf ++
    lit "PING" ++ crlf] = Ok ([p], REDIS_OK, r', h') /\
  reply_value (size (cells h')) h' p = Some (RArray [RString (lit "PING")]).
Proof.
  destruct (create_live (M := malloc_yes) (Some (defaultFunctions (HM := heap_all))))
    as (r & Hc & Hr & Hl); [done|].
  exists r, (command [lit "PING"] ++ [0]).
  assert (redisFormatCommandArgv (M := malloc_yes) true 1 [cstr "PING"] None
    = Ok (14, Some (command [lit "PING"] ++ [0]))) as Hcmd by (vm_compute; reflexivity).
  destruct (command_read_back (M := malloc_yes) (HM := heap_all) [lit "PING"] [cstr "PING"] None 14
    (command [lit "PING"] ++ [0])
    [[42]; [49]; [13]; lit "" ++ [10] ++ lit "$4" ++ crlf ++ lit "PING" ++ crlf] r empty_heap ∅)
    as (p & r' & h' & Hd & Hv); try done.
  - assert (Forall2 c_string [lit "PING"] [cstr "PING"]) as H.
    { apply Forall2_cons_2; [split; [by repeat constructor|by exists []]|constructor]. }
    split; [|exact H]. eapply Forall2_impl; [exact H|]. intros d q [_ [s ->]]. by eexists.
  - repeat constructor; cbn; lia.
  - exact empty_heap_rep.
  - exists p, r', h'. auto.
Defined.

(** [countDigits] is the length of the decimal text of every 64-bit
    value. *)
Theorem countDigits_decimal v : 0 <= v < 2 ^ 64 -> countDigits v = Ok (zlen (udec v)).
Proof. apply countDigits_spec. Qed.

Lemma countDigits_decimal_witness : countDigits (2 ^ 64 - 1) = Ok (zlen (udec (2 ^ 64 - 1))).
Proof. apply countDigits_decimal. lia. Defined.
