(* ===== verification/Dict.v ===== *)
(** * Dict: the hash table of dict.c

    Entries live in a store of their own and are linked by their [next]
    pointers, as in the code; a table is an array of pointers to the first
    entry of each slot. [NULL] is 0. Keys and values are what the pointers of an
    entry point to. The members [type] and [privdata] of a table never change:
    the type is an argument of the operations, and what its destructors do is
    an effect on a state of the client ([X]). *)
From S2P Require Import Prelude Mem.
From stdpp Require Import list list_numbers strings sets gmap.
From Stdlib Require Import ZArith Lia.
Open Scope Z_scope.

Definition DICT_OK : Z := 0.
Definition DICT_ERR : Z := 1.
Definition DICT_HT_INITIAL_SIZE : Z := 4.

(** [hash = ((hash << 5) + hash) + c] over the bytes of the key. *)
Fixpoint dictGenHash_loop (fuel : nat) (buf : bytes) (i hash : Z) : result Z :=
  match fuel with
  | O => Ok hash
  | S n =>
      c ← load buf i;
      dictGenHash_loop n buf (i + 1) (u32 (u32 (Z.shiftl hash 5) + hash + c))
  end.

Definition dictGenHashFunction (buf : bytes) (len : Z) : result Z :=
  dictGenHash_loop (Z.to_nat len) buf 0 5381.

(** [i *= 2] until [i >= size]; 64 rounds are enough for 64 bits. *)
Fixpoint nextPower_loop (fuel : nat) (i size : Z) : result Z :=
  match fuel with
  | O => Fault OutOfFuel
  | S f => if size <=? i then Ok i else nextPower_loop f (u64 (i * 2)) size
  end.

Definition _dictNextPower (size : Z) : result Z :=
  if LONG_MAX <=? size then Ok LONG_MAX else nextPower_loop 64 DICT_HT_INITIAL_SIZE size.

Section dict.
Context {K V X : Type} `{EqDecision K} {M : Malloc}.

Record dictEntry : Type := mk_entry { e_key : K; e_val : V; e_next : Z }.

Record dictType : Type := {
  hashFunction : K -> Z;
  keyDup : option (K -> K);
  valDup : option (V -> V);
  keyCompare : option (K -> K -> bool);
  keyDestructor : option (K -> X -> X);
  valDestructor : option (V -> X -> X)
}.

(** [ht_table] is [None] for a [NULL] table. *)
Record dict : Type := mk_dict {
  ht_table : option (list Z);
  ht_size : Z;
  ht_sizemask : Z;
  ht_used : Z
}.

Definition set_table (d : dict) (t : list Z) : dict :=
  mk_dict (Some t) (ht_size d) (ht_sizemask d) (ht_used d).
Definition set_used (d : dict) (n : Z) : dict :=
  mk_dict (ht_table d) (ht_size d) (ht_sizemask d) n.

(** The store of entries: [free_ptr] is the next pointer [malloc] returns. *)
Record world : Type := mk_world {
  entries : gmap Z dictEntry;
  free_ptr : Z;
  ext : X
}.

Definition set_entries (w : world) (m : gmap Z dictEntry) : world :=
  mk_world m (free_ptr w) (ext w).
Definition set_ext (w : world) (x : X) : world := mk_world (entries w) (free_ptr w) x.

Context (type : dictType).

(** ** The macros of dict.h *)
Definition dictCompareHashKeys (key1 key2 : K) : bool :=
  match keyCompare type with
  | Some f => f key1 key2
  | None => bool_decide (key1 = key2)
  end.

Definition dictHashKey (key : K) : Z := u32 (hashFunction type key).

Definition dup_key (key : K) : K := match keyDup type with Some f => f key | None => key end.
Definition dup_val (val : V) : V := match valDup type with Some f => f val | None => val end.

Definition dictFreeEntryKey (e : dictEntry) (w : world) : world :=
  match keyDestructor type with Some f => set_ext w (f (e_key e) (ext w)) | None => w end.
Definition dictFreeEntryVal (e : dictEntry) (w : world) : world :=
  match valDestructor type with Some f => set_ext w (f (e_val e) (ext w)) | None => w end.

(** ** Pointers *)
Definition entry_at (w : world) (p : Z) : result dictEntry :=
  if p =? 0 then Fault NullDeref else
  match entries w !! p with Some e => Ok e | None => Fault OutOfBounds end.

(** [p->next = q]. *)
Definition set_next (w : world) (p q : Z) : result world :=
  e ← entry_at w p;
  Ok (set_entries w (<[p := mk_entry (e_key e) (e_val e) q]> (entries w))).

Definition slot_get (t : option (list Z)) (i : Z) : result Z :=
  t ← deref t; load t i.
Definition slot_set (t : option (list Z)) (i p : Z) : result (list Z) :=
  t ← deref t; store t i p.

(** [calloc] of [realsize] pointers. *)
Definition new_table (realsize : Z) : option (list Z) :=
  if malloc_ok (8 * realsize) then Some (replicate (Z.to_nat realsize) 0) else None.

Definition free_entry (w : world) (p : Z) : result world :=
  _ ← entry_at w p; Ok (set_entries w (delete p (entries w))).

(** ** Creation *)
Definition _dictReset : dict := mk_dict None 0 0 0.

Definition _dictInit (ht : dict) : dict * Z := (_dictReset, DICT_OK).

(** [malloc] is not checked: [_dictInit] writes through its result. *)
Definition dictCreate : result dict :=
  if malloc_ok 48 then Ok (fst (_dictInit (mk_dict None 0 0 0))) else Fault NullDeref.

(** ** dictExpand *)

(** The chain at [he] goes, entry by entry, to the slots of the new table. *)
Fixpoint move_chain (fuel : nat) (w : world) (ntable : option (list Z)) (nmask used he : Z) :
    result (world * option (list Z) * Z) :=
  match fuel with
  | O => Fault OutOfFuel
  | S f =>
      if he =? 0 then Ok (w, ntable, used) else
      e ← entry_at w he;
      let nextHe := e_next e in
      let h := u32 (Z.land (dictHashKey (e_key e)) nmask) in
      first ← slot_get ntable h;
      w ← set_next w he first;
      ntable ← slot_set ntable h he;
      move_chain f w (Some ntable) nmask (u64 (used - 1)) nextHe
  end.

Fixpoint expand_loop (n : nat) (w : world) (table : option (list Z)) (i : Z)
    (ntable : option (list Z)) (nmask used : Z) : result (world * option (list Z) * Z) :=
  match n with
  | O => Ok (w, ntable, used)
  | S n =>
      if negb (0 <? used) then Ok (w, ntable, used) else
      he ← slot_get table i;
      if he =? 0 then expand_loop n w table (i + 1) ntable nmask used else
      '(w, ntable, used) ← move_chain (S (size (entries w))) w ntable nmask used he;
      expand_loop n w table (i + 1) ntable nmask used
  end.

Definition dictExpand (w : world) (ht : dict) (size : Z) : result (world * dict * Z) :=
  realsize ← _dictNextPower size;
  if size <? ht_used ht then Ok (w, ht, DICT_ERR) else
  let n := mk_dict (new_table realsize) realsize (u64 (realsize - 1)) (ht_used ht) in
  '(w, ntable, used) ←
    expand_loop (Z.to_nat (ht_size ht)) w (ht_table ht) 0 (ht_table n) (ht_sizemask n) (ht_used ht);
  _ ← c_assert (used =? 0);
  Ok (w, mk_dict ntable (ht_size n) (ht_sizemask n) (ht_used n), DICT_OK).

Definition _dictExpandIfNeeded (w : world) (ht : dict) : result (world * dict * Z) :=
  if ht_size ht =? 0 then dictExpand w ht DICT_HT_INITIAL_SIZE
  else if ht_used ht =? ht_size ht then dictExpand w ht (u64 (ht_size ht * 2))
  else Ok (w, ht, DICT_OK).

(** ** Lookup *)

(** The entry of the chain at [he] with the key, or [NULL]. *)
Fixpoint find_loop (fuel : nat) (w : world) (key : K) (he : Z) : result Z :=
  match fuel with
  | O => Fault OutOfFuel
  | S f =>
      if he =? 0 then Ok 0 else
      e ← entry_at w he;
      if dictCompareHashKeys key (e_key e) then Ok he else find_loop f w key (e_next e)
  end.

Definition dictFind (w : world) (ht : dict) (key : K) : result Z :=
  if ht_size ht =? 0 then Ok 0 else
  let h := u32 (Z.land (dictHashKey key) (ht_sizemask ht)) in
  he ← slot_get (ht_table ht) h;
  find_loop (S (size (entries w))) w key he.

(** The index of the slot for a new key, or -1. *)
Definition _dictKeyIndex (w : world) (ht : dict) (key : K) : result (world * dict * Z) :=
  '(w, ht, r) ← _dictExpandIfNeeded w ht;
  if r =? DICT_ERR then Ok (w, ht, -1) else
  let h := u32 (Z.land (dictHashKey key) (ht_sizemask ht)) in
  he ← slot_get (ht_table ht) h;
  found ← find_loop (S (size (entries w))) w key he;
  Ok (w, ht, if found =? 0 then s32 h else -1).

(** ** Updates *)
Definition dictAdd (w : world) (ht : dict) (key : K) (val : V) : result (world * dict * Z) :=
  '(w, ht, index) ← _dictKeyIndex w ht key;
  if index =? -1 then Ok (w, ht, DICT_ERR) else
  if negb (malloc_ok 24) then Fault NullDeref else
  let entry := free_ptr w in
  first ← slot_get (ht_table ht) index;
  t ← slot_set (ht_table ht) index entry;
  let e := mk_entry (dup_key key) (dup_val val) first in
  let w := mk_world (<[entry := e]> (entries w)) (entry + 1) (ext w) in
  Ok (w, set_used (set_table ht t) (u64 (ht_used ht + 1)), DICT_OK).

Definition dictReplace (w : world) (ht : dict) (key : K) (val : V) : result (world * dict * Z) :=
  '(w, ht, r) ← dictAdd w ht key val;
  if r =? DICT_OK then Ok (w, ht, 1) else
  entry ← dictFind w ht key;
  auxentry ← entry_at w entry;
  let e := mk_entry (e_key auxentry) (dup_val val) (e_next auxentry) in
  let w := set_entries w (<[entry := e]> (entries w)) in
  Ok (dictFreeEntryVal auxentry w, ht, 0).

(** [h] is the slot of the chain. *)
Fixpoint delete_loop (fuel : nat) (w : world) (ht : dict) (key : K) (h prevde de : Z) :
    result (world * dict * Z) :=
  match fuel with
  | O => Fault OutOfFuel
  | S f =>
      if de =? 0 then Ok (w, ht, DICT_ERR) else
      e ← entry_at w de;
      if dictCompareHashKeys key (e_key e) then
        '(w, ht) ← (if negb (prevde =? 0) then w ← set_next w prevde (e_next e); Ok (w, ht)
                    else t ← slot_set (ht_table ht) h (e_next e); Ok (w, set_table ht t));
        let w := dictFreeEntryVal e (dictFreeEntryKey e w) in
        w ← free_entry w de;
        Ok (w, set_used ht (u64 (ht_used ht - 1)), DICT_OK)
      else delete_loop f w ht key h de (e_next e)
  end.

Definition dictDelete (w : world) (ht : dict) (key : K) : result (world * dict * Z) :=
  if ht_size ht =? 0 then Ok (w, ht, DICT_ERR) else
  let h := u32 (Z.land (dictHashKey key) (ht_sizemask ht)) in
  de ← slot_get (ht_table ht) h;
  delete_loop (S (size (entries w))) w ht key h 0 de.

(** ** Destruction *)
Fixpoint clear_chain (fuel : nat) (w : world) (used he : Z) : result (world * Z) :=
  match fuel with
  | O => Fault OutOfFuel
  | S f =>
      if he =? 0 then Ok (w, used) else
      e ← entry_at w he;
      let w := dictFreeEntryVal e (dictFreeEntryKey e w) in
      w ← free_entry w he;
      clear_chain f w (u64 (used - 1)) (e_next e)
  end.

Fixpoint clear_loop (n : nat) (w : world) (table : option (list Z)) (i used : Z) :
    result (world * Z) :=
  match n with
  | O => Ok (w, used)
  | S n =>
      if negb (0 <? used) then Ok (w, used) else
      he ← slot_get table i;
      if he =? 0 then clear_loop n w table (i + 1) used else
      '(w, used) ← clear_chain (S (size (entries w))) w used he;
      clear_loop n w table (i + 1) used
  end.

Definition _dictClear (w : world) (ht : dict) : result (world * dict * Z) :=
  '(w, _) ← clear_loop (Z.to_nat (ht_size ht)) w (ht_table ht) 0 (ht_used ht);
  Ok (w, _dictReset, DICT_OK).

Definition dictRelease (w : world) (ht : dict) : result world :=
  '(w, _, _) ← _dictClear w ht; Ok w.

(** ** Iteration *)
Record dictIterator : Type := mk_iter { i_index : Z; i_entry : Z; i_nextEntry : Z }.

(** [malloc] is not checked. *)
Definition dictGetIterator : result dictIterator :=
  if malloc_ok 32 then Ok (mk_iter (-1) 0 0) else Fault NullDeref.

(** The entry returned ([NULL] at the end); each round moves [index] or
    returns, so that the slots and one more round are enough. *)
Fixpoint dictNext_loop (fuel : nat) (w : world) (ht : dict) (iter : dictIterator) :
    result (dictIterator * Z) :=
  match fuel with
  | O => Fault OutOfFuel
  | S f =>
      let step (iter : dictIterator) :=
        if negb (i_entry iter =? 0) then
          e ← entry_at w (i_entry iter);
          Ok (mk_iter (i_index iter) (i_entry iter) (e_next e), i_entry iter)
        else dictNext_loop f w ht iter in
      if i_entry iter =? 0 then
        let index := s32 (i_index iter + 1) in
        if s32 (ht_size ht) <=? index then Ok (mk_iter index 0 (i_nextEntry iter), 0)
        else
          p ← slot_get (ht_table ht) index;
          step (mk_iter index p (i_nextEntry iter))
      else step (mk_iter (i_index iter) (i_nextEntry iter) (i_nextEntry iter))
  end.

Definition dictNext (w : world) (ht : dict) (iter : dictIterator) : result (dictIterator * Z) :=
  dictNext_loop (S (S (Z.to_nat (ht_size ht)))) w ht iter.

End dict.

Arguments dictEntry : clear implicits.
Arguments dictType : clear implicits.
Arguments world : clear implicits.
