(* ===== verification/DictFacts.v ===== *)
(** * DictFacts: the representation of hash tables and their loops

    [chain m p l]: the entries from pointer [p] on are the nodes [l]. The loops
    of dict.c are followed along chains; [placed] says that each node is in the
    slot of its key. *)
From S2P Require Import Prelude Mem SdsFacts SdsTextFacts Dict.
From stdpp Require Import list list_numbers strings sets gmap.
From Stdlib Require Import ZArith Lia.
Open Scope Z_scope.

(** ** _dictNextPower *)
Lemma nextPower_loop_spec fuel : forall k size, 0 <= k <= 63 -> size <= 2 ^ 63 ->
  63 - k < Z.of_nat fuel ->
  exists j, k <= j <= 63 /\ nextPower_loop fuel (2 ^ k) size = Ok (2 ^ j) /\ size <= 2 ^ j /\
    (forall i, k <= i < j -> 2 ^ i < size).
Proof.
  induction fuel as [|fuel IH]; intros k size Hk Hs Hf; [lia|]. cbn [nextPower_loop].
  destruct (size <=? 2 ^ k) eqn:E; bool_to_prop.
  { exists k. split_and!; [lia|lia|done|done|lia]. }
  assert (k <> 63) by (intros ->; lia).
  assert (2 ^ (k + 1) = 2 ^ k * 2) as Hp by (rewrite Z.pow_add_r by lia; lia).
  assert (2 ^ k <= 2 ^ 62) by (apply Z.pow_le_mono_r; lia).
  rewrite u64_id, <- Hp by lia.
  destruct (IH (k + 1) size) as (j & Hj & -> & Hle & Hmin); [lia..|].
  exists j. split_and!; [lia|lia|done|done|]. intros i Hi.
  destruct (Z.eq_dec i k) as [->|]; [lia|]. apply Hmin. lia.
Qed.

Lemma dictNextPower_spec size : 0 <= size < LONG_MAX ->
  exists j, 2 <= j <= 63 /\ _dictNextPower size = Ok (2 ^ j) /\ size <= 2 ^ j /\
    (forall i, 2 <= i < j -> 2 ^ i < size).
Proof.
  unfold LONG_MAX, _dictNextPower, LONG_MAX. intros Hs. if_false.
  destruct (nextPower_loop_spec 64 2 size) as (j & ? & ? & ? & ?); [lia..|]. by exists j.
Qed.

(** ** Chains *)
Section facts.
Context {K V X : Type} `{Countable K} {M : Malloc}.
Context (type : dictType K V X).

Abbreviation entry := (dictEntry K V).
Abbreviation node := (Z * (K * V))%type.

Definition ptrs (l : list node) : list Z := l.*1.
Definition keys (l : list node) : list K := l.*2.*1.

Fixpoint chain (m : gmap Z entry) (p : Z) (l : list node) : Prop :=
  match l with
  | [] => p = 0
  | (q, (k, v)) :: l =>
      p = q /\ q <> 0 /\ exists nx, m !! q = Some (mk_entry k v nx) /\ chain m nx l
  end.

Lemma chain_frame m m' l : forall p, chain m p l ->
  (forall q, q ∈ ptrs l -> m' !! q = m !! q) -> chain m' p l.
Proof.
  induction l as [|[q [k v]] l IH]; intros p Hc Hm; [done|].
  destruct Hc as (-> & Hq & nx & Hnx & Hc). cbn. split_and!; [done|done|].
  exists nx. split; [rewrite Hm by (cbn; apply elem_of_cons; auto); done|].
  apply IH; [done|]. intros q1 Hq1. apply Hm. cbn. apply elem_of_cons. auto.
Qed.

Lemma chain_insert m p l q e : chain m p l -> q ∉ ptrs l -> chain (<[q:=e]> m) p l.
Proof.
  intros Hc Hq. eapply chain_frame; [done|]. intros q' Hq'. rewrite lookup_insert_ne; [done|].
  intros ->. done.
Qed.

Lemma chain_delete m p l q : chain m p l -> q ∉ ptrs l -> chain (delete q m) p l.
Proof.
  intros Hc Hq. eapply chain_frame; [done|]. intros q' Hq'. rewrite lookup_delete_ne; [done|].
  intros ->. done.
Qed.

Lemma chain_lookup m l : forall p q k v, chain m p l -> (q, (k, v)) ∈ l ->
  q <> 0 /\ exists nx, m !! q = Some (mk_entry k v nx).
Proof.
  induction l as [|[q' [k' v']] l IH]; intros p q k v Hc Hin; [by apply elem_of_nil in Hin|].
  destruct Hc as (-> & Hq' & nx & Hnx & Hc). apply elem_of_cons in Hin as [[= -> -> ->]|Hin].
  - split; [done|]. by exists nx.
  - by eapply IH.
Qed.

Lemma chain_nil m l : chain m 0 l -> l = [].
Proof. destruct l as [|[q [k v]] l]; [done|]. by intros (<- & ? & _). Qed.

Lemma chain_app m l1 : forall p l2, chain m p (l1 ++ l2) -> exists q, chain m q l2.
Proof.
  induction l1 as [|[q [k v]] l1 IH]; intros p l2 Hc; [by exists p|].
  destruct Hc as (_ & _ & nx & _ & Hc). by eapply IH.
Qed.

Definition find_node (k : K) (l : list node) : option node :=
  snd <$> list_find (fun n => n.2.1 = k) l.

Lemma entry_at_spec (w : world K V X) p e : p <> 0 -> entries w !! p = Some e ->
  entry_at w p = Ok e.
Proof. intros Hp He. unfold entry_at. by bool_false (p =? 0); rewrite He. Qed.

Hypothesis dup_key_id : forall k, dup_key type k = k.

(** The comparison tells the key from the others of [l]. *)
Definition tells (k : K) (l : list node) : Prop :=
  forall k', k' ∈ keys l -> dictCompareHashKeys type k k' = bool_decide (k = k').

Lemma tells_cons k n l : tells k (n :: l) ->
  dictCompareHashKeys type k n.2.1 = bool_decide (k = n.2.1) /\ tells k l.
Proof. intros Ht. split; [apply Ht; by left|]. intros k' Hk. apply Ht. by right. Qed.

Lemma tells_sub k l l' : (forall x, x ∈ l' -> x ∈ l) -> tells k l -> tells k l'.
Proof.
  intros Hs Ht k' Hk. apply Ht. unfold keys in *. apply list_elem_of_fmap in Hk as (y & -> & Hy).
  apply list_elem_of_fmap in Hy as (x & -> & Hx). do 2 apply list_elem_of_fmap_2. by apply Hs.
Qed.

Lemma find_loop_spec w k l : forall fuel p, chain (entries w) p l -> tells k l -> (length l < fuel)%nat ->
  find_loop type fuel w k p = Ok (match find_node k l with Some n => n.1 | None => 0 end).
Proof.
  induction l as [|[q [k' v]] l IH]; intros [|fuel] p Hc Ht Hf; cbn [length] in Hf; try lia;
    cbn [find_loop].
  { by rewrite Hc. }
  apply tells_cons in Ht as [Heq Ht]. cbn [fst snd] in Heq.
  destruct Hc as (-> & Hq & nx & Hnx & Hc). bool_false (q =? 0).
  rewrite (entry_at_spec _ _ _ Hq Hnx). cbn [mbind result_bind e_key e_next].
  rewrite Heq. unfold find_node. cbn [list_find snd fst].
  destruct (decide (k' = k)) as [->|Hne].
  - by rewrite bool_decide_eq_true_2.
  - rewrite bool_decide_eq_false_2 by congruence. rewrite IH by (done || lia).
    unfold find_node. by destruct (list_find _ l) as [[i n]|].
Qed.

(** ** Slots *)
Definition slot (mask : Z) (k : K) : nat := Z.to_nat (u32 (Z.land (dictHashKey type k) mask)).

Definition put_node (mask : Z) (cs : list (list node)) (n : node) : list (list node) :=
  let i := slot mask n.2.1 in <[i := n :: default [] (cs !! i)]> cs.

Definition move_nodes (mask : Z) (cs : list (list node)) (l : list node) : list (list node) :=
  foldl (put_node mask) cs l.

Definition fits_mask (mask : Z) (cs : list (list node)) : Prop :=
  exists k, 2 <= k <= 31 /\ mask = 2 ^ k - 1 /\ zlen cs = 2 ^ k.

Lemma slot_lt mask cs k : fits_mask mask cs -> (slot mask k < length cs)%nat.
Proof.
  intros (j & Hj & -> & Hl). unfold slot.
  replace (2 ^ j - 1) with (Z.ones j) by (rewrite Z.ones_equiv; lia).
  rewrite Z.land_ones by lia. assert (0 < 2 ^ j) by lia.
  assert (2 ^ j <= 2 ^ 31) by (apply Z.pow_le_mono_r; lia).
  pose proof (Z.mod_pos_bound (dictHashKey type k) (2 ^ j) ltac:(lia)).
  rewrite u32_id by lia. lia.
Qed.

Lemma slot_Z mask cs k : fits_mask mask cs ->
  u32 (Z.land (dictHashKey type k) mask) = Z.of_nat (slot mask k) /\
  Z.of_nat (slot mask k) < 2 ^ 31.
Proof.
  intros Hf. pose proof (slot_lt _ _ k Hf) as Hl. destruct Hf as (j & Hj & -> & Hc).
  assert (2 ^ j <= 2 ^ 31) by (apply Z.pow_le_mono_r; lia).
  split; [|lia]. unfold slot. pose proof (u32_range (Z.land (dictHashKey type k) (2 ^ j - 1))). lia.
Qed.

Lemma put_node_length mask cs n : length (put_node mask cs n) = length cs.
Proof. unfold put_node. by rewrite length_insert. Qed.

Lemma fits_put mask cs n : fits_mask mask cs -> fits_mask mask (put_node mask cs n).
Proof. intros (k & ? & ? & ?). exists k. by rewrite put_node_length. Qed.

Lemma insert_concat (cs : list (list node)) i c n : cs !! i = Some c ->
  concat (<[i := n :: c]> cs) ≡ₚ n :: concat cs.
Proof.
  intros Hc. rewrite <- (take_drop_middle cs i c Hc) at 2.
  rewrite insert_take_drop by (by eapply lookup_lt_Some).
  rewrite !concat_app. cbn [concat]. by rewrite <- app_comm_cons, <- Permutation_middle.
Qed.

Lemma put_node_concat mask cs n : fits_mask mask cs -> concat (put_node mask cs n) ≡ₚ n :: concat cs.
Proof.
  intros Hf. unfold put_node. destruct (lookup_lt_is_Some_2 cs (slot mask n.2.1)) as [c Hc].
  { by apply slot_lt. }
  rewrite Hc. by apply insert_concat.
Qed.

Definition placed (mask : Z) (cs : list (list node)) : Prop :=
  forall i c n, cs !! i = Some c -> n ∈ c -> slot mask n.2.1 = i.

Lemma placed_put mask cs n : placed mask cs -> placed mask (put_node mask cs n).
Proof.
  intros Hp i c x Hc Hx. unfold put_node in Hc.
  apply list_lookup_insert_Some in Hc as [(<- & <- & _)|[_ Hc]]; [|by eapply Hp].
  apply elem_of_cons in Hx as [->|Hx]; [done|].
  destruct (cs !! slot mask n.2.1) as [c|] eqn:E; cbn in Hx; [by eapply Hp|].
  by apply elem_of_nil in Hx.
Qed.

Lemma move_nodes_props mask l : forall cs, fits_mask mask cs -> placed mask cs ->
  fits_mask mask (move_nodes mask cs l) /\ placed mask (move_nodes mask cs l) /\
  concat (move_nodes mask cs l) ≡ₚ l ++ concat cs.
Proof.
  induction l as [|n l IH]; intros cs Hf Hp; [done|]. cbn [move_nodes foldl].
  destruct (IH (put_node mask cs n)) as (H1 & H2 & H3); [by apply fits_put|by apply placed_put|].
  split_and!; [done|done|]. unfold move_nodes in H3. rewrite H3, put_node_concat by done.
  by rewrite <- Permutation_middle.
Qed.

(** ** Moving entries to a new table *)
Lemma set_next_spec (w : world K V X) p k v nx q : p <> 0 ->
  entries w !! p = Some (mk_entry k v nx) ->
  set_next w p q = Ok (set_entries w (<[p := mk_entry k v q]> (entries w))).
Proof. intros Hp He. unfold set_next. by rewrite (entry_at_spec _ _ _ Hp He). Qed.

Lemma chains_insert m t cs q e : Forall2 (chain m) t cs -> q ∉ ptrs (concat cs) ->
  Forall2 (chain (<[q:=e]> m)) t cs.
Proof.
  induction 1 as [|p c t cs Hc Ht IH]; [constructor|]. unfold ptrs. cbn [concat].
  rewrite fmap_app, not_elem_of_app. intros [H1 H2]. constructor; [by apply chain_insert|by apply IH].
Qed.

Lemma slot_get_spec t cs m h : Forall2 (chain m) t cs -> (h < length cs)%nat ->
  exists p c, t !! h = Some p /\ cs !! h = Some c /\ slot_get (Some t) (Z.of_nat h) = Ok p /\ chain m p c.
Proof.
  intros Ht Hh. destruct (lookup_lt_is_Some_2 cs h Hh) as [c Hc].
  destruct (Forall2_lookup_r _ _ _ _ _ Ht Hc) as (p & Hp & Hpc).
  exists p, c. split_and!; try done. cbn. apply load_Ok. split; [lia|by rewrite Nat2Z.id].
Qed.

Lemma slot_set_spec (t : list Z) h p : (h < length t)%nat ->
  slot_set (Some t) (Z.of_nat h) p = Ok (<[h := p]> t).
Proof. intros Hh. cbn. rewrite store_Ok by lia. by rewrite Nat2Z.id. Qed.

(** Only the [next] fields of the nodes [l] change. *)
Definition relinked (l : list node) (w w' : world K V X) : Prop :=
  free_ptr w' = free_ptr w /\ ext w' = ext w /\
  (forall p, p ∉ ptrs l -> entries w' !! p = entries w !! p) /\
  dom (entries w') = dom (entries w).

Lemma relinked_trans l1 l2 w1 w2 w3 :
  relinked l1 w1 w2 -> relinked l2 w2 w3 -> relinked (l1 ++ l2) w1 w3.
Proof.
  intros (A1 & B1 & H1 & D1) (A2 & B2 & H2 & D2). split_and!; try congruence.
  intros p. unfold ptrs. rewrite fmap_app, not_elem_of_app. intros [Hp1 Hp2].
  rewrite H2 by done. by apply H1.
Qed.

Lemma move_chain_spec mask l : forall fuel w nt ncs used he,
  chain (entries w) he l -> Forall2 (chain (entries w)) nt ncs ->
  NoDup (ptrs (l ++ concat ncs)) -> fits_mask mask ncs -> (length l < fuel)%nat ->
  zlen l <= used < 2 ^ 64 ->
  exists w' nt', move_chain type fuel w (Some nt) mask used he
      = Ok (w', Some nt', used - zlen l) /\
    Forall2 (chain (entries w')) nt' (move_nodes mask ncs l) /\ relinked l w w'.
Proof.
  induction l as [|[q [k v]] l IH]; intros [|fuel] w nt ncs used he Hc Hnt Hnd Hf Hl Hu;
    cbn [length] in *; try lia; cbn [move_chain].
  { rewrite Hc. cbn. exists w, nt. rewrite Z.sub_0_r. by split_and!. }
  destruct Hc as (-> & Hq & nx & Hnx & Hc). bool_false (q =? 0).
  rewrite (entry_at_spec _ _ _ Hq Hnx). cbn [mbind result_bind e_key e_next].
  destruct (slot_Z _ _ k Hf) as [-> _]. pose proof (slot_lt _ _ k Hf) as Hlt.
  destruct (slot_get_spec nt ncs (entries w) _ Hnt Hlt) as (p & c & Hp & Hcs & -> & Hpc).
  cbn [mbind result_bind]. rewrite (set_next_spec _ _ _ _ _ _ Hq Hnx). cbn [mbind result_bind].
  rewrite slot_set_spec by (by eapply lookup_lt_Some). cbn [mbind result_bind].
  unfold ptrs in Hnd. cbn [app fmap list_fmap] in Hnd. apply NoDup_cons in Hnd as [Hq_out Hnd].
  rewrite fmap_app, not_elem_of_app in Hq_out. destruct Hq_out as [Hql Hqn].
  set (w1 := set_entries w (<[q := mk_entry k v p]> (entries w))).
  assert (Forall2 (chain (entries w1)) (<[slot mask k := q]> nt) (put_node mask ncs (q, (k, v)))) as Hnt1.
  { unfold put_node. cbn [fst snd]. rewrite Hcs. cbn [default from_option id].
    apply Forall2_insert; [by apply chains_insert|]. cbn. split_and!; [done|done|].
    exists p. rewrite lookup_insert_eq. split; [done|]. apply chain_insert; [done|].
    intros Hin. apply Hqn. apply list_elem_of_fmap in Hin as (n & -> & Hn).
    apply list_elem_of_fmap. exists n. split; [done|]. apply list_elem_of_In, in_concat.
    exists c. split; apply list_elem_of_In; [by eapply list_elem_of_lookup_2|done]. }
  destruct (IH fuel w1 (<[slot mask k := q]> nt) (put_node mask ncs (q, (k, v))) (used - 1) nx) as (w' & nt' & Hm & Hch & Hrel);
    [by apply chain_insert|done| |by apply fits_put|lia|lia|].
  { unfold ptrs. rewrite fmap_app in *. rewrite (put_node_concat mask ncs (q, (k, v)) Hf).
    cbn [fmap list_fmap fst]. rewrite <- Permutation_middle. constructor; [|done].
    by rewrite not_elem_of_app. }
  rewrite u64_id by lia. rewrite Hm. exists w', nt'. split_and!.
  - do 2 f_equal. lia.
  - exact Hch.
  - change ((q, (k, v)) :: l) with ([(q, (k, v))] ++ l). eapply relinked_trans; [|exact Hrel].
    split_and!; try done; cbn.
    + intros q' Hq'. apply lookup_insert_ne. intros ->. apply Hq'. by left.
    + rewrite dom_insert_L. apply subseteq_union_1_L. apply singleton_subseteq_l, elem_of_dom.
      by eexists.
Qed.

Lemma chain_length m p l : chain m p l -> NoDup (ptrs l) -> (length l <= size m)%nat.
Proof.
  intros Hc Hnd. assert (length l = length (ptrs l)) as -> by (unfold ptrs; by rewrite length_fmap).
  rewrite <- (size_list_to_set (C:=gset Z) _ Hnd), <- size_dom.
  apply subseteq_size. intros q Hq. apply elem_of_list_to_set in Hq.
  apply list_elem_of_fmap in Hq as ([q' [k v]] & -> & Hin).
  destruct (chain_lookup _ _ _ _ _ _ Hc Hin) as (_ & nx & Hnx). apply elem_of_dom. by eexists.
Qed.

Lemma ptrs_app l1 l2 : ptrs (l1 ++ l2) = ptrs l1 ++ ptrs l2.
Proof. apply fmap_app. Qed.

Lemma chains_frame m m' t cs : Forall2 (chain m) t cs ->
  (forall q, q ∈ ptrs (concat cs) -> m' !! q = m !! q) -> Forall2 (chain m') t cs.
Proof.
  induction 1 as [|p c t cs Hc Ht IH]; intros Hm; [constructor|]. cbn [concat] in Hm.
  constructor.
  - eapply chain_frame; [done|]. intros q Hq. apply Hm. rewrite ptrs_app. apply elem_of_app. auto.
  - apply IH. intros q Hq. apply Hm. rewrite ptrs_app. apply elem_of_app. auto.
Qed.

Lemma relinked_chains l w w' t cs : relinked l w w' -> NoDup (ptrs (l ++ concat cs)) ->
  Forall2 (chain (entries w)) t cs -> Forall2 (chain (entries w')) t cs.
Proof.
  intros (_ & _ & Hm & _) Hnd Ht. eapply chains_frame; [done|]. intros q Hq. apply Hm.
  intros Hl. rewrite ptrs_app in Hnd. apply NoDup_app in Hnd as (_ & Hd & _). by apply (Hd q).
Qed.

Lemma relinked_mono l l' w w' : relinked l w w' -> (forall p, p ∈ ptrs l -> p ∈ ptrs l') -> relinked l' w w'.
Proof. intros (? & ? & Hm & ?) Hl. split_and!; try done. intros p Hp. apply Hm. intros Hx. by apply Hp, Hl. Qed.

Lemma expand_loop_spec mask cs2 : forall w t1 t2 nt ncs used,
  Forall2 (chain (entries w)) t2 cs2 -> Forall2 (chain (entries w)) nt ncs ->
  NoDup (ptrs (concat cs2 ++ concat ncs)) -> fits_mask mask ncs -> placed mask ncs ->
  used = zlen (concat cs2) -> used < 2 ^ 64 ->
  exists w' nt', expand_loop type (length cs2) w (Some (t1 ++ t2)) (zlen t1) (Some nt) mask used
      = Ok (w', Some nt', 0) /\
    Forall2 (chain (entries w')) nt' (move_nodes mask ncs (concat cs2)) /\
    relinked (concat cs2) w w'.
Proof.
  induction cs2 as [|c cs2 IH]; intros w t1 t2 nt ncs used Ht Hnt Hnd Hf Hpl Hu Hu64;
    cbn [length expand_loop concat] in *.
  { subst used. exists w, nt. by split_and!. }
  apply Forall2_cons_inv_r in Ht as (p & t3 & Hc & Ht & ->).
  destruct (0 <? used) eqn:E; bool_to_prop; cbn [negb].
  2:{ assert (c ++ concat cs2 = []) as Hnil by (apply length_zero_iff_nil; lia).
      apply app_eq_nil in Hnil as [-> ->]. exists w, nt. cbn [app]. split_and!; [|done|done].
      do 2 f_equal. simpl in *. lia. }
  rewrite length_app in Hu. cbn [slot_get deref mbind result_bind]. rewrite load_middle.
  cbn [mbind result_bind].
  replace (zlen t1 + 1) with (zlen (t1 ++ [p])) by slia.
  replace (t1 ++ p :: t3) with ((t1 ++ [p]) ++ t3) by solve_app.
  rewrite <- app_assoc in Hnd.
  destruct (p =? 0) eqn:Ep.
  { apply Z.eqb_eq in Ep as ->. apply chain_nil in Hc as ->. cbn [app length] in *.
    apply IH; done || lia. }
  rewrite ptrs_app in Hnd. pose proof Hnd as Hnd0. apply NoDup_app in Hnd0 as (Hndc & Hdis & Hnd2).
  assert (NoDup (ptrs (c ++ concat ncs))) as Hnd3.
  { rewrite ptrs_app in Hnd2 |- *. apply NoDup_app in Hnd2 as (_ & _ & Hn). apply NoDup_app.
    split_and!; [done| |done]. intros q Hq. specialize (Hdis q Hq).
    rewrite ptrs_app, not_elem_of_app in Hdis. tauto. }
  destruct (move_chain_spec mask c (S (size (entries w))) w nt ncs used p Hc Hnt Hnd3 Hf)
    as (w1 & nt1 & -> & Hnt1 & Hrel); [|lia|].
  { apply le_n_S. by eapply chain_length. }
  cbn [mbind result_bind].
  destruct (move_nodes_props mask c ncs Hf Hpl) as (Hf1 & Hpl1 & Hperm).
  assert (ptrs (concat cs2 ++ concat (move_nodes mask ncs c)) ≡ₚ
    ptrs c ++ ptrs (concat cs2 ++ concat ncs)) as HP.
  { assert (ptrs (concat (move_nodes mask ncs c)) ≡ₚ ptrs c ++ ptrs (concat ncs)) as Hp
      by (unfold ptrs; by rewrite Hperm, fmap_app).
    rewrite !ptrs_app, Hp. apply Permutation_app_swap_app. }
  destruct (IH w1 (t1 ++ [p]) t3 nt1 (move_nodes mask ncs c) (used - zlen c))
    as (w2 & nt2 & He & Hnt2 & Hrel2); [|done| |done|done|lia|lia|].
  { eapply relinked_chains; [exact Hrel| |done]. rewrite ptrs_app in Hnd2 |- *.
    apply NoDup_app in Hnd2 as (Hn & _ & _). apply NoDup_app. split_and!; [done| |done].
    intros q Hq. specialize (Hdis q Hq). rewrite ptrs_app, not_elem_of_app in Hdis. tauto. }
  { by rewrite HP. }
  rewrite He. exists w2, nt2. split_and!; [done| |by eapply relinked_trans].
  unfold move_nodes in *. by rewrite foldl_app.
Qed.

End facts.
