(* ===== verification/DictRep.v ===== *)
(** * DictRep: the operations of dict.c on represented tables

    Each operation is shown to do to the map of a table, [dict_map], what the
    operation on maps does, on any store that holds other entries beside the
    table's ([F]). *)
From S2P Require Import Prelude Mem SdsFacts SdsTextFacts Dict DictFacts.
From stdpp Require Import list list_numbers strings sets gmap.
From Stdlib Require Import ZArith Lia.
Open Scope Z_scope.

Section rep.
Context {K V X : Type} `{Countable K} {M : Malloc}.
Context (type : dictType K V X).

Abbreviation entry := (dictEntry K V).
Abbreviation node := (Z * (K * V))%type.

Definition store_ok (w : world K V X) : Prop :=
  0 < free_ptr w /\ forall p e, entries w !! p = Some e -> 0 < p < free_ptr w.

Record dict_rep (w : world K V X) (d : dict) (cs : list (list node)) (F : gmap Z entry) : Prop := {
  dr_table : match ht_table d with
             | Some t => Forall2 (chain (entries w)) t cs /\ fits_mask (ht_sizemask d) cs
             | None => cs = []
             end;
  dr_size : ht_size d = zlen cs;
  dr_used : ht_used d = zlen (concat cs);
  dr_nodup : NoDup (ptrs (concat cs));
  dr_frame : forall p, p ∉ ptrs (concat cs) -> entries w !! p = F !! p;
  dr_own : forall p, p ∈ ptrs (concat cs) -> F !! p = None;
  dr_keys : NoDup (keys (concat cs));
  dr_placed : placed type (ht_sizemask d) cs;
  dr_store : store_ok w
}.

(** The map that a table stands for. *)
Definition dict_map (cs : list (list node)) : gmap K V := list_to_map (concat cs).*2.

Lemma dict_map_perm cs cs' : NoDup (keys (concat cs)) -> concat cs ≡ₚ concat cs' ->
  dict_map cs = dict_map cs'.
Proof. intros Hnd Hp. unfold dict_map. apply list_to_map_proper; [done|]. by rewrite Hp. Qed.

Lemma keys_perm (l l' : list node) : l ≡ₚ l' -> NoDup (keys l) -> NoDup (keys l').
Proof. intros Hp. unfold keys. by rewrite Hp. Qed.

Lemma ptrs_perm (l l' : list node) : l ≡ₚ l' -> ptrs l ≡ₚ ptrs l'.
Proof. intros Hp. unfold ptrs. by rewrite Hp. Qed.

Lemma fits_nonempty mask (cs : list (list node)) : fits_mask mask cs -> 0 < zlen cs.
Proof. intros (k & ? & _ & ->). lia. Qed.

Hypothesis dup_key_id : forall k, dup_key type k = k.

(** ** Lookup *)
Lemma in_concat_lookup (cs : list (list node)) n : n ∈ concat cs ->
  exists i c, cs !! i = Some c /\ n ∈ c.
Proof.
  intros Hn. apply list_elem_of_In, in_concat in Hn as (c & Hc & Hn).
  apply list_elem_of_In in Hc, Hn. apply list_elem_of_lookup_1 in Hc as [i Hi]. by exists i, c.
Qed.

Lemma find_in_slot mask cs c k : NoDup (keys (concat cs)) -> placed type mask cs ->
  cs !! slot type mask k = Some c ->
  match find_node k c with
  | Some (p, (k', v)) => k' = k /\ (p, (k, v)) ∈ c /\ dict_map cs !! k = Some v
  | None => dict_map cs !! k = None
  end.
Proof.
  intros Hnd Hpl Hc. unfold find_node.
  destruct (list_find _ c) as [[i [p [k' v]]]|] eqn:E; cbn [fmap option_fmap option_map snd].
  - apply list_find_Some in E as (Hi & Hk & _). cbn in Hk. subst k'.
    apply list_elem_of_lookup_2 in Hi. split_and!; [done..|].
    apply elem_of_list_to_map; [done|]. apply list_elem_of_fmap. exists (p, (k, v)).
    split; [done|]. apply list_elem_of_In, in_concat. exists c. split; apply list_elem_of_In; [|done].
    by eapply list_elem_of_lookup_2.
  - apply list_find_None in E. apply not_elem_of_list_to_map_1. intros Hin.
    apply list_elem_of_fmap in Hin as ([k1 v] & Hk1 & Hin). cbn in Hk1. subst k1.
    apply list_elem_of_fmap in Hin as ([p kv] & Hkv & Hin). cbn in Hkv. subst kv.
    destruct (in_concat_lookup _ _ Hin) as (i & c' & Hi & Hn).
    pose proof (Hpl _ _ _ Hi Hn) as Hs. cbn in Hs. subst i. rewrite Hc in Hi. injection Hi as <-.
    rewrite Forall_forall in E. by apply (E _ Hn).
Qed.

(** The chain of the slot of a key, as the code reaches it. *)
Lemma tells_chain k (cs : list (list node)) i c : cs !! i = Some c -> tells type k (concat cs) -> tells type k c.
Proof.
  intros Hc. apply tells_sub. intros x Hx. apply list_elem_of_In, in_concat. exists c.
  split; apply list_elem_of_In; [by eapply list_elem_of_lookup_2|done].
Qed.

Lemma tells_perm k l l' : l' ≡ₚ l -> tells type k l -> tells type k l'.
Proof. intros Hp. apply tells_sub. intros x Hx. rewrite <- Hp. exact Hx. Qed.

Lemma slot_chain w d cs F t k : dict_rep w d cs F -> ht_table d = Some t -> tells type k (concat cs) ->
  exists p c, cs !! slot type (ht_sizemask d) k = Some c /\ chain (entries w) p c /\
    t !! slot type (ht_sizemask d) k = Some p /\
    slot_get (Some t) (u32 (Z.land (dictHashKey type k) (ht_sizemask d))) = Ok p /\
    find_loop type (S (size (entries w))) w k p
      = Ok (match find_node k c with Some n => n.1 | None => 0 end).
Proof.
  intros Hr Ht Hk. pose proof (dr_table _ _ _ _ Hr) as Htab. rewrite Ht in Htab.
  destruct Htab as [Hcs Hf]. destruct (slot_Z type _ _ k Hf) as [-> _].
  destruct (slot_get_spec t cs (entries w) _ Hcs (slot_lt type _ _ k Hf))
    as (p & c & Hp & Hc & Hg & Hpc).
  exists p, c. split_and!; try done. apply find_loop_spec; [done|exact (tells_chain _ _ _ _ Hc Hk)|].
  apply le_n_S. eapply chain_length; [done|].
  pose proof (dr_nodup _ _ _ _ Hr) as Hnd. rewrite <- (take_drop_middle cs _ _ Hc) in Hnd.
  rewrite concat_app in Hnd. cbn [concat] in Hnd. rewrite !ptrs_app in Hnd.
  apply NoDup_app in Hnd as (_ & _ & Hnd). by apply NoDup_app in Hnd as (Hnd & _ & _).
Qed.

Lemma node_entry w d cs F p k v : dict_rep w d cs F -> (p, (k, v)) ∈ concat cs ->
  p <> 0 /\ exists nx, entries w !! p = Some (mk_entry k v nx).
Proof.
  intros Hr Hin. destruct (in_concat_lookup _ _ Hin) as (i & c & Hc & Hn).
  pose proof (dr_table _ _ _ _ Hr) as Ht. destruct (ht_table d) as [t|]; [|by subst cs].
  destruct Ht as [Ht _]. destruct (Forall2_lookup_r _ _ _ _ _ Ht Hc) as (q & _ & Hq).
  by eapply chain_lookup.
Qed.

(** The store has an entry for each node. *)
Lemma dict_rep_size w d cs F : dict_rep w d cs F -> (length (concat cs) <= size (entries w))%nat.
Proof.
  intros Hr. assert (length (concat cs) = length (ptrs (concat cs))) as ->
    by (unfold ptrs; by rewrite length_fmap).
  rewrite <- (size_list_to_set (C:=gset Z) _ (dr_nodup _ _ _ _ Hr)), <- size_dom.
  apply subseteq_size. intros q Hq. apply elem_of_list_to_set in Hq.
  apply list_elem_of_fmap in Hq as ([q' [k v]] & -> & Hin).
  destruct (node_entry w d cs F q' k v Hr Hin) as (_ & nx & Hnx). apply elem_of_dom. by eexists.
Qed.

Lemma dictFind_spec w d cs F k : dict_rep w d cs F -> tells type k (concat cs) ->
  exists p, dictFind type w d k = Ok p /\
  match dict_map cs !! k with
  | Some v => p <> 0 /\ (p, (k, v)) ∈ concat cs
  | None => p = 0
  end.
Proof.
  intros Hr Hk. pose proof (dr_table _ _ _ _ Hr) as Ht. pose proof (dr_size _ _ _ _ Hr) as Hs.
  unfold dictFind. destruct (ht_table d) as [t|] eqn:Et.
  2:{ subst cs. rewrite Hs. exists 0. done. }
  destruct Ht as [Hcs Hf]. pose proof (fits_nonempty _ _ Hf). bool_false (ht_size d =? 0).
  destruct (slot_chain w d cs F t k Hr Et Hk) as (p & c & Hc & Hpc & _ & -> & Hfind).
  cbn [mbind result_bind]. rewrite Hfind. eexists. split; [done|].
  pose proof (find_in_slot _ cs c k (dr_keys _ _ _ _ Hr) (dr_placed _ _ _ _ Hr) Hc) as Hslot.
  destruct (find_node k c) as [[q [k' v]]|]; [|by rewrite Hslot].
  destruct Hslot as (-> & Hin & ->).
  assert ((q, (k, v)) ∈ concat cs) as Hin'.
  { apply list_elem_of_In, in_concat. exists c. split; apply list_elem_of_In; [|done].
    by eapply list_elem_of_lookup_2. }
  split; [|done]. by eapply node_entry.
Qed.

(** ** Growth *)
Lemma power_exact j : 2 <= j <= 31 -> _dictNextPower (2 ^ j) = Ok (2 ^ j).
Proof.
  intros Hj. assert (2 ^ j <= 2 ^ 31) by (apply Z.pow_le_mono_r; lia).
  destruct (dictNextPower_spec (2 ^ j)) as (i & Hi & -> & Hle & Hmin).
  { unfold LONG_MAX. lia. }
  apply Z.pow_le_mono_r_iff in Hle; [|lia..].
  destruct (Z.eq_dec i j) as [->|Hne]; [done|]. specialize (Hmin j). lia.
Qed.

Lemma store_relinked l w w' : store_ok w -> relinked l w w' -> store_ok w'.
Proof.
  intros [H1 H2] (Hf & _ & _ & Hd). split; [by rewrite Hf|]. intros p e Hp. rewrite Hf.
  assert (p ∈ dom (entries w)) as Hin by (rewrite <- Hd; apply elem_of_dom; by eexists).
  apply elem_of_dom in Hin as [e' He']. by eapply H2.
Qed.

Definition empty_slots (n : nat) : list (list node) := replicate n [].

Lemma empty_slots_concat n : concat (empty_slots n) = [].
Proof. induction n; [done|]. exact IHn. Qed.

Lemma empty_slots_placed mask n : placed type mask (empty_slots n).
Proof.
  intros i c x Hc Hx. apply lookup_replicate in Hc as [-> _]. by apply elem_of_nil in Hx.
Qed.

Lemma empty_slots_chains m n : Forall2 (chain m) (replicate n 0) (empty_slots n).
Proof. induction n; cbn; constructor; done. Qed.

(** Without a table to move to, the first entry is stored through [NULL]. *)
Lemma expand_loop_null w mask cs : forall t1 t2 used, Forall2 (chain (entries w)) t2 cs ->
  used = zlen (concat cs) ->
  match expand_loop type (length cs) w (Some (t1 ++ t2)) (zlen t1) None mask used with
  | Ok (w', t', used') => w' = w /\ t' = None /\ used' = 0 /\ used = 0
  | Fault e => e = NullDeref
  end.
Proof.
  induction cs as [|c cs IH]; intros t1 t2 used Ht Hu; cbn [length expand_loop concat] in *.
  { by subst used. }
  apply Forall2_cons_inv_r in Ht as (p & t3 & Hc & Ht & ->).
  destruct (0 <? used) eqn:E; bool_to_prop; cbn [negb]; [|split_and!; [done|done|lia..]].
  rewrite length_app in Hu. cbn [slot_get deref mbind result_bind]. rewrite load_middle.
  cbn [mbind result_bind]. destruct c as [|[q [k v]] c].
  - cbn in Hc. subst p. cbn [Z.eqb length] in *.
    replace (zlen t1 + 1) with (zlen (t1 ++ [0])) by slia.
    replace (t1 ++ 0 :: t3) with ((t1 ++ [0]) ++ t3) by solve_app.
    apply IH; [done|lia].
  - destruct Hc as (-> & Hq & nx & Hnx & _). bool_false (q =? 0). cbn [move_chain].
    bool_false (q =? 0). by rewrite (entry_at_spec _ _ _ Hq Hnx).
Qed.

(** The table after a growth, or a [NULL] table when [calloc] failed. *)
Definition grown (w : world K V X) (cs : list (list node)) (F : gmap Z entry) (j : Z)
    (r : world K V X * dict * Z) : Prop :=
  let '(w', d', st) := r in
  st = DICT_OK /\ ext w' = ext w /\ free_ptr w' = free_ptr w /\
  ((ht_table d' <> None /\ exists cs', dict_rep w' d' cs' F /\ concat cs' ≡ₚ concat cs /\
      zlen cs' = 2 ^ j) \/
   (ht_table d' = None /\ exists n, malloc_ok n = false)).

Lemma dictExpand_spec w d cs F j : dict_rep w d cs F -> 2 <= j <= 31 ->
  zlen (concat cs) <= 2 ^ j -> returns_total (dictExpand type w d (2 ^ j)) (grown w cs F j).
Proof.
  intros Hr Hj Hle. destruct Hr as [Htab Hsize Hused Hnd Hfr Hown Hkeys Hpl Hst].
  assert (2 ^ j <= 2 ^ 31) by (apply Z.pow_le_mono_r; lia).
  assert (2 ^ 2 <= 2 ^ j) by (apply Z.pow_le_mono_r; lia).
  unfold dictExpand. rewrite power_exact by done. cbn [mbind result_bind]. rewrite Hused.
  bool_false (2 ^ j <? zlen (concat cs)). cbn [ht_table ht_sizemask ht_size ht_used].
  rewrite Hsize, Nat2Z.id, u64_id by lia. unfold new_table. destruct (malloc_ok _) eqn:Em.
  2:{ destruct (ht_table d) as [t|].
      - destruct Htab as [Htab _].
        pose proof (expand_loop_null w (2 ^ j - 1) cs [] t (zlen (concat cs)) Htab eq_refl) as He.
        cbn [app] in He. change (zlen []) with 0 in He.
        destruct (expand_loop _ _ _ _ _ _ _ _) as [[[w' t'] u]|e]; cbn.
        + destruct He as (-> & -> & -> & _). cbn. split_and!; [done..|]. right. by eauto.
        + subst e. by eauto.
      - subst cs. cbn. split_and!; [done..|]. right. by eauto. }
  set (N := Z.to_nat (2 ^ j)).
  assert (fits_mask (2 ^ j - 1) (empty_slots N)) as Hfit.
  { exists j. unfold empty_slots. rewrite length_replicate. split_and!; [lia|lia|done|unfold N; lia]. }
  assert (exists w' nt', expand_loop type (length cs) w (ht_table d) 0 (Some (replicate N 0))
      (2 ^ j - 1) (zlen (concat cs)) = Ok (w', Some nt', 0) /\
    Forall2 (chain (entries w')) nt' (move_nodes type (2 ^ j - 1) (empty_slots N) (concat cs)) /\
    relinked (concat cs) w w') as (w' & nt' & -> & Hnt' & Hrel).
  { destruct (ht_table d) as [t|].
    - destruct Htab as [Htab _].
      apply (expand_loop_spec type (2 ^ j - 1) cs w [] t); try done.
      + apply empty_slots_chains.
      + rewrite empty_slots_concat, app_nil_r. done.
      + apply empty_slots_placed.
      + lia.
    - subst cs. exists w, (replicate N 0). split_and!; [done|apply empty_slots_chains|done]. }
  cbn [mbind result_bind Z.eqb c_assert].
  destruct (move_nodes_props type (2 ^ j - 1) (concat cs) (empty_slots N) Hfit
    (empty_slots_placed _ _)) as (Hf' & Hpl' & Hperm).
  rewrite empty_slots_concat, app_nil_r in Hperm.
  set (cs' := move_nodes _ _ _ _) in *. pose proof Hrel as (Hfp & Hext & Hsame & Hdom).
  cbn. split_and!; [done|done|done|]. left. split; [done|]. exists cs'.
  assert (zlen cs' = 2 ^ j) as Hlen.
  { destruct Hf' as (k & ? & Hk & ->). f_equal.
    assert (2 ^ k = 2 ^ j) as Hkj by lia. apply Z.pow_inj_r in Hkj; lia. }
  split; [|by split]. split; cbn [ht_table ht_size ht_sizemask ht_used].
  - by split.
  - done.
  - by rewrite Hperm.
  - by rewrite (ptrs_perm _ _ Hperm).
  - intros p Hp. rewrite (ptrs_perm _ _ Hperm) in Hp. rewrite Hsame by done. by apply Hfr.
  - intros p Hp. rewrite (ptrs_perm _ _ Hperm) in Hp. by apply Hown.
  - by apply (keys_perm (concat cs)).
  - done.
  - by eapply store_relinked.
Qed.

(** ** Insertion *)

(** Room is made when the table is full; the map does not change. *)
Lemma expandIfNeeded_spec w d cs F : dict_rep w d cs F -> zlen (concat cs) < 2 ^ 31 ->
  returns_total (_dictExpandIfNeeded type w d) (fun '(w', d', st) =>
    st = DICT_OK /\ ext w' = ext w /\ free_ptr w' = free_ptr w /\
    ((ht_table d' <> None /\ exists cs', dict_rep w' d' cs' F /\ concat cs' ≡ₚ concat cs) \/
     (ht_table d' = None /\ exists n, malloc_ok n = false))).
Proof.
  intros Hr Hlt. pose proof (dr_size _ _ _ _ Hr) as Hs. pose proof (dr_used _ _ _ _ Hr) as Hu.
  pose proof (dr_table _ _ _ _ Hr) as Ht. unfold _dictExpandIfNeeded. rewrite Hs, Hu.
  assert (forall j, 2 <= j <= 31 -> zlen (concat cs) <= 2 ^ j ->
    returns_total (dictExpand type w d (2 ^ j)) (fun '(w', d', st) =>
    st = DICT_OK /\ ext w' = ext w /\ free_ptr w' = free_ptr w /\
    ((ht_table d' <> None /\ exists cs', dict_rep w' d' cs' F /\ concat cs' ≡ₚ concat cs) \/
     (ht_table d' = None /\ exists n, malloc_ok n = false)))) as Hgrow.
  { intros j Hj Hle. eapply returns_total_mono; [by apply (dictExpand_spec w d cs F j)|].
    intros [[w' d'] st] (? & ? & ? & [(? & cs' & ? & ? & _)|?]); split_and!; try done.
    - left. split; [done|]. by exists cs'.
    - by right. }
  destruct (ht_table d) as [t|] eqn:Et.
  - destruct Ht as [_ (k & Hk & Hmask & Hlen)]. assert (0 < 2 ^ k) by lia.
    bool_false (zlen cs =? 0). destruct (zlen (concat cs) =? zlen cs) eqn:E; bool_to_prop.
    + assert (k <> 31) by (intros ->; lia). assert (2 ^ (k + 1) = 2 ^ k * 2) as Hp
        by (rewrite Z.pow_add_r by lia; lia).
      assert (2 ^ k <= 2 ^ 30) by (apply Z.pow_le_mono_r; lia).
      rewrite u64_id, Hlen, <- Hp by lia.
      apply Hgrow; lia.
    + cbn. split_and!; [done..|]. left. split; [by rewrite Et|]. by exists cs.
  - subst cs. cbn [length Z.of_nat Z.eqb]. apply (Hgrow 2); cbn; lia.
Qed.

Lemma keyIndex_spec w d cs F k : dict_rep w d cs F -> zlen (concat cs) < 2 ^ 31 -> tells type k (concat cs) ->
  returns_total (_dictKeyIndex type w d k) (fun '(w', d', i) =>
    ext w' = ext w /\ free_ptr w' = free_ptr w /\
    exists cs' t', ht_table d' = Some t' /\ dict_rep w' d' cs' F /\ concat cs' ≡ₚ concat cs /\
      i = match dict_map cs !! k with
          | Some _ => -1
          | None => Z.of_nat (slot type (ht_sizemask d') k)
          end).
Proof.
  intros Hr Hlt Hk. unfold _dictKeyIndex.
  eapply returns_total_bind; [by apply (expandIfNeeded_spec w d cs F)|].
  intros [[w' d'] st] (-> & Hext & Hfp & [[Hne (cs' & Hr' & Hp)]|[Hnone Hm]]).
  2:{ change (DICT_OK =? DICT_ERR) with false. cbn. by rewrite Hnone. }
  change (DICT_OK =? DICT_ERR) with false. cbn iota.
  destruct (ht_table d') as [t'|] eqn:Et; [|done].
  destruct (slot_chain w' d' cs' F t' k Hr' Et (tells_perm _ _ _ Hp Hk)) as (p & c & Hc & Hpc & _ & -> & Hfind).
  cbn [mbind result_bind]. rewrite Hfind. cbn [mbind result_bind returns_total].
  split_and!; [done..|]. exists cs', t'. split_and!; [done..|].
  rewrite <- (dict_map_perm cs' cs (dr_keys _ _ _ _ Hr') Hp).
  pose proof (find_in_slot _ cs' c k (dr_keys _ _ _ _ Hr') (dr_placed _ _ _ _ Hr') Hc) as Hslot.
  pose proof (dr_table _ _ _ _ Hr') as Htab. rewrite Et in Htab. destruct Htab as [_ Hf].
  destruct (find_node k c) as [[q [k' v]]|].
  - destruct Hslot as (-> & Hin & ->).
    destruct (chain_lookup _ _ _ _ _ _ Hpc Hin) as [Hq _]. cbn [fst]. by bool_false (q =? 0).
  - rewrite Hslot. cbn [Z.eqb]. destruct (slot_Z type _ _ k Hf) as [-> ?]. by rewrite s32_id by lia.
Qed.

(** What an insertion does to the chains. *)
Definition added (w : world K V X) (cs : list (list node)) (F : gmap Z entry) (k : K) (v : V)
    (r : world K V X * dict * Z) : Prop :=
  let '(w', d', st) := r in
  ext w' = ext w /\ exists cs', dict_rep w' d' cs' F /\
  match dict_map cs !! k with
  | Some _ => st = DICT_ERR /\ concat cs' ≡ₚ concat cs
  | None => st = DICT_OK /\ concat cs' ≡ₚ (free_ptr w, (k, v)) :: concat cs
  end.

Lemma store_insert (w : world K V X) e : store_ok w ->
  store_ok (mk_world (<[free_ptr w := e]> (entries w)) (free_ptr w + 1) (ext w)).
Proof.
  intros [H1 H2]. split; cbn; [lia|]. intros p e' Hp.
  apply lookup_insert_Some in Hp as [[<- _]|[_ Hp]]; [lia|]. apply H2 in Hp. lia.
Qed.

Lemma own_fresh w d cs F p : dict_rep w d cs F -> p ∈ ptrs (concat cs) -> p < free_ptr w.
Proof.
  intros Hr Hp. apply list_elem_of_fmap in Hp as ([q [k v]] & -> & Hin).
  destruct (node_entry w d cs F q k v Hr Hin) as (_ & nx & Hnx).
  apply (proj2 (dr_store _ _ _ _ Hr)) in Hnx. cbn. lia.
Qed.

Lemma dict_map_keys (cs : list (list node)) k : dict_map cs !! k = None -> k ∉ keys (concat cs).
Proof. intros Hn Hin. by apply not_elem_of_list_to_map_2 in Hn. Qed.

(** A new node at the head of the chain of its slot. *)
Lemma insert_rep w d cs F t k v p : dict_rep w d cs F -> ht_table d = Some t ->
  dict_map cs !! k = None -> zlen (concat cs) < 2 ^ 31 ->
  t !! slot type (ht_sizemask d) k = Some p ->
  let w' := mk_world (<[free_ptr w := mk_entry k v p]> (entries w)) (free_ptr w + 1) (ext w) in
  let d' := set_used (set_table d (<[slot type (ht_sizemask d) k := free_ptr w]> t))
              (u64 (ht_used d + 1)) in
  dict_rep w' d' (put_node type (ht_sizemask d) cs (free_ptr w, (k, v))) F.
Proof.
  intros Hr Et Hnone Hlt Hp w' d'. set (n := (free_ptr w, (k, v))).
  pose proof Hr as [Htab Hsize Hused Hnd Hfr Hown Hkeys Hpl Hst]. rewrite Et in Htab.
  destruct Htab as [Hcs Hf]. pose proof (put_node_concat type _ cs n Hf) as Hperm.
  assert (forall q, q ∈ ptrs (concat cs) -> q < free_ptr w) as Hfresh
    by (intros; by eapply own_fresh).
  destruct (Forall2_lookup_l _ _ _ _ _ Hcs Hp) as (c & Hc & Hpc).
  split; cbn [ht_table ht_size ht_sizemask ht_used set_used set_table d' entries free_ptr w'].
  - split; [|by apply fits_put]. unfold put_node. cbn [n fst snd]. rewrite Hc.
    cbn [default from_option id]. apply Forall2_insert.
    + apply chains_insert; [done|]. intros Hin. apply Hfresh in Hin. lia.
    + cbn. pose proof (proj1 Hst). split_and!; [done|lia|]. exists p.
      rewrite lookup_insert_eq. split; [done|]. apply chain_insert; [done|].
      intros Hin. assert (free_ptr w ∈ ptrs (concat cs)) as Hin2.
      { apply list_elem_of_fmap in Hin as (x & -> & Hx). apply list_elem_of_fmap. exists x.
        split; [done|]. apply list_elem_of_In, in_concat. exists c.
        split; apply list_elem_of_In; [by eapply list_elem_of_lookup_2|done]. }
      apply Hfresh in Hin2. lia.
  - by rewrite put_node_length.
  - rewrite Hperm, Hused. cbn [length]. rewrite u64_id by lia. lia.
  - rewrite (ptrs_perm _ _ Hperm). constructor; [|done]. intros Hin. apply Hfresh in Hin. cbn in Hin. lia.
  - intros q Hq. rewrite (ptrs_perm _ _ Hperm) in Hq. apply not_elem_of_cons in Hq as [Hq1 Hq2].
    rewrite lookup_insert_ne by (cbn in Hq1; congruence). by apply Hfr.
  - intros q Hq. rewrite (ptrs_perm _ _ Hperm) in Hq. apply elem_of_cons in Hq as [->|Hq]; [|by apply Hown].
    cbn. rewrite <- Hfr by (intros Hin; apply Hfresh in Hin; lia).
    destruct (entries w !! free_ptr w) as [e|] eqn:E; [|done]. apply (proj2 Hst) in E. lia.
  - eapply keys_perm; [symmetry; exact Hperm|]. constructor; [|done]. by apply dict_map_keys.
  - by apply placed_put.
  - by apply store_insert.
Qed.

Lemma dictAdd_spec w d cs F k v : dict_rep w d cs F -> zlen (concat cs) < 2 ^ 31 -> tells type k (concat cs) ->
  returns_total (dictAdd type w d k v) (added w cs F k (dup_val type v)).
Proof.
  intros Hr Hlt Hk. unfold dictAdd. eapply returns_total_bind; [by apply (keyIndex_spec w d cs F k)|].
  intros [[w' d'] i] (Hext & Hfp & cs' & t' & Et & Hr' & Hp & ->).
  pose proof (dict_map_perm cs' cs (dr_keys _ _ _ _ Hr') Hp) as Hmap.
  destruct (dict_map cs !! k) as [v'|] eqn:E.
  { cbn. split; [done|]. exists cs'. rewrite E. by split_and!. }
  bool_false (Z.of_nat (slot type (ht_sizemask d') k) =? -1).
  destruct (malloc_ok 24) eqn:Em; cbn [negb]; [|cbn; eauto].
  destruct (slot_chain w' d' cs' F t' k Hr' Et (tells_perm _ _ _ Hp Hk)) as (p & c & Hc & Hpc & Htp & Hget & _).
  pose proof (dr_table _ _ _ _ Hr') as Htab. rewrite Et in Htab. destruct Htab as [Hcs' Hf].
  destruct (slot_Z type _ _ k Hf) as [Hz _]. rewrite Hz in Hget. rewrite Et, Hget.
  cbn [mbind result_bind]. rewrite slot_set_spec by (by eapply lookup_lt_Some).
  cbn [mbind result_bind returns_total added ext]. split; [done|].
  exists (put_node type (ht_sizemask d') cs' (free_ptr w', (k, dup_val type v))).
  rewrite E, dup_key_id. split_and!; [|done|].
  - apply (insert_rep w' d' cs' F t' k _ p); [done|done|by rewrite Hmap| |done]. by rewrite Hp.
  - rewrite put_node_concat by done. by rewrite Hp, Hfp.
Qed.

End rep.
