(* ===== verification/DictOps.v ===== *)
(** * DictOps: replacement, deletion, destruction and iteration (dict.c) *)
From S2P Require Import Prelude Mem SdsFacts SdsTextFacts Dict DictFacts DictRep.
From stdpp Require Import list list_numbers strings sets gmap.
From Stdlib Require Import ZArith Lia.
Open Scope Z_scope.

Section ops.
Context {K V X : Type} `{Countable K} {M : Malloc}.
Context (type : dictType K V X).
Hypothesis dup_key_id : forall k, dup_key type k = k.

Abbreviation entry := (dictEntry K V).
Abbreviation node := (Z * (K * V))%type.

(** The effect of the destructors on the state of the client. *)
Definition free_key (k : K) (x : X) : X :=
  match keyDestructor type with Some f => f k x | None => x end.
Definition free_val (v : V) (x : X) : X :=
  match valDestructor type with Some f => f v x | None => x end.
Definition free_node (x : X) (n : node) : X := free_val n.2.2 (free_key n.2.1 x).

Lemma free_both e (w : world K V X) :
  dictFreeEntryVal type e (dictFreeEntryKey type e w) =
  set_ext w (free_val (e_val e) (free_key (e_key e) (ext w))).
Proof.
  unfold dictFreeEntryVal, dictFreeEntryKey, free_val, free_key.
  destruct w, (keyDestructor type), (valDestructor type); done.
Qed.

Lemma free_val_world e (w : world K V X) :
  dictFreeEntryVal type e w = set_ext w (free_val (e_val e) (ext w)).
Proof. unfold dictFreeEntryVal, free_val. by destruct w, (valDestructor type). Qed.

(** ** Replacing a value *)
Definition upd (q : Z) (v : V) (n : node) : node := if n.1 =? q then (n.1, (n.2.1, v)) else n.

Definition upds (q : Z) (v : V) (l : list node) : list node := upd q v <$> l.

Lemma upd_ptrs q v l : ptrs (upds q v l) = ptrs l.
Proof.
  unfold ptrs, upds. rewrite <- list_fmap_compose. apply list_fmap_ext. intros _ [p [k v']] _.
  unfold upd. cbn. by destruct (p =? q).
Qed.

Lemma upd_keys q v l : keys (upds q v l) = keys l.
Proof.
  unfold keys, upds. rewrite <- !list_fmap_compose. apply list_fmap_ext. intros _ [p [k v']] _.
  unfold upd. cbn. by destruct (p =? q).
Qed.

Lemma upd_concat q v (cs : list (list node)) : concat (upds q v <$> cs) = upds q v (concat cs).
Proof. induction cs as [|c cs IH]; [done|]. cbn. rewrite IH. unfold upds. by rewrite fmap_app. Qed.

Lemma upd_out q v l : q ∉ ptrs l -> upds q v l = l.
Proof.
  induction l as [|[p [k v']] l IH]; [done|]. intros Hq. apply not_elem_of_cons in Hq as [Hp Hq].
  unfold upds in *. cbn. rewrite IH by done. unfold upd. cbn in *. by bool_false (p =? q).
Qed.

Lemma chain_upd m q k v0 v nx l : forall p, chain m p l -> m !! q = Some (mk_entry k v0 nx) ->
  chain (<[q := mk_entry k v nx]> m) p (upds q v l).
Proof.
  induction l as [|[q' [k' v']] l IH]; intros p Hc Hq; [done|].
  destruct Hc as (-> & Hq' & nx' & Hnx' & Hc). unfold upds in *. cbn [fmap list_fmap].
  specialize (IH nx' Hc Hq). unfold upd at 1. cbn [fst snd].
  destruct (q' =? q) eqn:E; bool_to_prop.
  - subst q'. rewrite Hq in Hnx'. injection Hnx' as <- <- <-. cbn. split_and!; [done|done|].
    exists nx. by rewrite lookup_insert_eq.
  - cbn. split_and!; [done|done|]. exists nx'. by rewrite lookup_insert_ne.
Qed.

Lemma upd_perm l q k v0 v : NoDup (ptrs l) -> (q, (k, v0)) ∈ l ->
  exists rest, l ≡ₚ (q, (k, v0)) :: rest /\ upds q v l ≡ₚ (q, (k, v)) :: rest.
Proof.
  intros Hp Hin. apply list_elem_of_split in Hin as (l1 & l2 & ->). exists (l1 ++ l2).
  assert ((l1 ++ (q, (k, v0)) :: l2) ≡ₚ (q, (k, v0)) :: l1 ++ l2) as Hperm
    by (by rewrite <- Permutation_middle).
  split; [done|]. unfold upds. rewrite Hperm. cbn [fmap list_fmap]. unfold upd at 1.
  cbn [fst snd]. rewrite Z.eqb_refl. fold (upds q v (l1 ++ l2)). rewrite upd_out; [done|].
  rewrite (ptrs_perm _ _ Hperm) in Hp. by apply NoDup_cons in Hp as [Hq _].
Qed.

(** The map of a table in which a node was put in front, or taken out. *)
Lemma dict_map_cons (cs cs' : list (list node)) q k v : concat cs' ≡ₚ (q, (k, v)) :: concat cs ->
  NoDup (keys (concat cs')) -> dict_map cs' = <[k := v]> (dict_map cs).
Proof.
  intros Hp Hnd. unfold dict_map at 1. rewrite (list_to_map_proper _ _ Hnd (fmap_Permutation _ _ _ Hp)).
  done.
Qed.

Lemma upds_lookup q v (cs : list (list node)) i c : (upds q v <$> cs) !! i = Some c ->
  exists c0, cs !! i = Some c0 /\ c = upds q v c0.
Proof. rewrite list_lookup_fmap. destruct (cs !! i); [|done]. intros [= <-]. by eexists. Qed.

Lemma update_rep w d cs F q k v0 v nx : dict_rep type w d cs F -> (q, (k, v0)) ∈ concat cs ->
  entries w !! q = Some (mk_entry k v0 nx) ->
  dict_rep type (set_entries w (<[q := mk_entry k v nx]> (entries w))) d (upds q v <$> cs) F.
Proof.
  intros [Htab Hsize Hused Hnd Hfr Hown Hkeys Hpl Hst] Hin Hq.
  assert (q ∈ ptrs (concat cs)) as Hqin.
  { apply list_elem_of_fmap. by exists (q, (k, v0)). }
  split; cbn [set_entries entries free_ptr].
  - destruct (ht_table d) as [t|]; [|by subst cs]. destruct Htab as [Hcs (j & ? & ? & ?)]. split.
    + clear -Hcs Hq. induction Hcs as [|p c t cs Hc Hcs IH]; [constructor|].
      constructor; [by eapply chain_upd|done].
    + exists j. by rewrite length_fmap.
  - by rewrite length_fmap.
  - rewrite upd_concat. unfold upds. by rewrite length_fmap.
  - by rewrite upd_concat, upd_ptrs.
  - intros p Hp. rewrite upd_concat, upd_ptrs in Hp. rewrite lookup_insert_ne by (intros ->; done).
    by apply Hfr.
  - intros p Hp. rewrite upd_concat, upd_ptrs in Hp. by apply Hown.
  - by rewrite upd_concat, upd_keys.
  - intros i c n Hc Hn. apply upds_lookup in Hc as (c0 & Hc0 & ->).
    apply list_elem_of_fmap in Hn as ([p [k' v']] & -> & Hn). unfold upd. cbn.
    destruct (p =? q); by apply (Hpl i c0 (p, (k', v')) Hc0 Hn).
  - destruct Hst as [H1 H2]. split; [done|]. cbn. intros p e Hp.
    apply lookup_insert_Some in Hp as [[<- _]|[_ Hp]]; by eapply H2.
Qed.

(** The destructors do not touch the store of entries. *)
Lemma ext_rep w d cs F x : dict_rep type w d cs F -> dict_rep type (set_ext w x) d cs F.
Proof. by intros []. Qed.

Lemma dictReplace_spec w d cs F k v : dict_rep type w d cs F -> zlen (concat cs) < 2 ^ 31 ->
  tells type k (concat cs) ->
  returns_total (dictReplace type w d k v) (fun '(w', d', r) =>
    exists cs', dict_rep type w' d' cs' F /\
      dict_map cs' = <[k := dup_val type v]> (dict_map cs) /\
      match dict_map cs !! k with
      | Some v0 => r = 0 /\ ext w' = free_val v0 (ext w) /\ zlen (concat cs') = zlen (concat cs)
      | None => r = 1 /\ ext w' = ext w /\ zlen (concat cs') = zlen (concat cs) + 1
      end).
Proof.
  intros Hr Hlt Hk. unfold dictReplace.
  eapply returns_total_bind; [by apply (dictAdd_spec type dup_key_id w d cs F k v)|].
  intros [[w' d'] st] (Hext & cs' & Hr' & Hcase).
  destruct (dict_map cs !! k) as [v0|] eqn:E; destruct Hcase as [-> Hp].
  - change (DICT_ERR =? DICT_OK) with false. cbn iota.
    destruct (dictFind_spec type w' d' cs' F k Hr' (tells_perm type _ _ _ Hp Hk)) as (p & -> & Hfind).
    rewrite (dict_map_perm cs' cs (dr_keys _ _ _ _ _ Hr') Hp), E in Hfind.
    destruct Hfind as [Hp0 Hin]. cbn [mbind result_bind].
    destruct (node_entry type w' d' cs' F p k v0 Hr' Hin) as (_ & nx & Hnx).
    rewrite (entry_at_spec _ _ _ Hp0 Hnx). cbn [mbind result_bind returns_total e_key e_next].
    rewrite free_val_world. exists (upds p (dup_val type v) <$> cs'). split_and!.
    + apply ext_rep. by apply update_rep with (v0 := v0).
    + destruct (upd_perm (concat cs') p k v0 (dup_val type v) (dr_nodup _ _ _ _ _ Hr') Hin)
        as (rest & H1 & H2).
      rewrite <- (dict_map_perm cs' cs (dr_keys _ _ _ _ _ Hr') Hp).
      rewrite (dict_map_cons [rest] cs' p k v0), insert_insert_eq.
      * apply (dict_map_cons [rest] _ p). { rewrite upd_concat, H2. cbn. by rewrite app_nil_r. }
        rewrite upd_concat, upd_keys. apply Hr'.
      * rewrite H1. cbn. by rewrite app_nil_r.
      * apply Hr'.
    + done.
    + cbn. by rewrite Hext.
    + rewrite upd_concat. unfold upds. rewrite length_fmap. by rewrite Hp.
  - change (DICT_OK =? DICT_OK) with true. cbn iota. cbn. exists cs'. split_and!; [done| |done|done|].
    + eapply dict_map_cons; [exact Hp|apply Hr'].
    + rewrite Hp. cbn [length]. lia.
Qed.

(** ** Deletion *)
Lemma chain_relink (m : gmap Z entry) (l1 : list node) q k v nx l2 l3 : forall p, chain m p (l1 ++ (q, (k, v)) :: l2) ->
  chain m nx l3 -> q ∉ ptrs l1 -> q ∉ ptrs l3 ->
  chain (<[q := mk_entry k v nx]> m) p (l1 ++ (q, (k, v)) :: l3).
Proof.
  induction l1 as [|[q' [k' v']] l1 IH]; intros p Hc Hnx H1 H3; cbn [app] in *.
  - destruct Hc as (-> & Hq & nx' & _ & _). cbn. split_and!; [done|done|]. exists nx.
    rewrite lookup_insert_eq. split; [done|]. by apply chain_insert.
  - destruct Hc as (-> & Hq' & nx' & Hnx' & Hc). apply not_elem_of_cons in H1 as [Hne H1].
    cbn. split_and!; [done|done|]. exists nx'. split; [by rewrite lookup_insert_ne|by apply IH].
Qed.

Lemma free_entry_spec (w : world K V X) q e : q <> 0 -> entries w !! q = Some e ->
  free_entry w q = Ok (mk_world (delete q (entries w)) (free_ptr w) (ext w)).
Proof. intros Hq He. unfold free_entry. by rewrite (entry_at_spec _ _ _ Hq He). Qed.

Definition last_ptr (l : list node) : Z := match last l with Some n => n.1 | None => 0 end.

(** Unlinking the first node of [l1 ++ (q, _) :: l2] with the key. *)
Lemma delete_loop_spec (w : world K V X) d t h k v q (l2 l1 : list node) : forall fuel pre de,
  ht_table d = Some t -> chain (entries w) de (l1 ++ (q, (k, v)) :: l2) ->
  (exists p, t !! h = Some p /\ chain (entries w) p (pre ++ l1 ++ (q, (k, v)) :: l2)) ->
  NoDup (ptrs (pre ++ l1 ++ (q, (k, v)) :: l2)) -> k ∉ keys l1 -> tells type k (l1 ++ (q, (k, v)) :: l2) ->
  (length l1 < fuel)%nat ->
  exists m p, delete_loop type fuel w d k (Z.of_nat h) (last_ptr pre) de =
      Ok (mk_world (delete q m) (free_ptr w) (free_val v (free_key k (ext w))),
          set_used (set_table d (<[h := p]> t)) (u64 (ht_used d - 1)), DICT_OK) /\
    chain m p (pre ++ l1 ++ l2) /\
    (forall x, x ∉ ptrs (pre ++ l1) -> m !! x = entries w !! x) /\
    dom m = dom (entries w).
Proof.
  induction l1 as [|[q' [k' v']] l1 IH]; intros [|fuel] pre de Ht Hde (p & Hp & Hpc) Hnd Hk Hte Hf;
    cbn [length app] in *; try lia; cbn [delete_loop]; apply tells_cons in Hte as [Heq Hte]; cbn [fst snd] in Heq.
  - destruct Hde as (-> & Hq & nx & Hnx & Hl2). bool_false (q =? 0).
    rewrite (entry_at_spec _ _ _ Hq Hnx). cbn [mbind result_bind e_key e_val e_next].
    rewrite Heq, bool_decide_eq_true_2 by done.
    pose proof Hnd as Hnd'. rewrite ptrs_app in Hnd'. apply NoDup_app in Hnd' as (Hnd1 & Hdis & Hnd2).
    unfold ptrs in Hnd2. cbn in Hnd2. apply NoDup_cons in Hnd2 as [Hq2 Hnd2].
    destruct pre as [|pn pre _] using rev_ind.
    + cbn [last_ptr last Z.eqb negb]. rewrite Ht.
      rewrite slot_set_spec by (by eapply lookup_lt_Some). cbn [mbind result_bind].
      rewrite free_both. cbn [e_key e_val].
      rewrite (free_entry_spec (set_ext w _) _ _ Hq Hnx). cbn. exists (entries w), nx. split_and!; done.
    + destruct pn as [pp [pk pv]]. unfold last_ptr. rewrite last_snoc. cbn [fst].
      rewrite <- app_assoc in Hpc. cbn [app] in Hpc.
      destruct (chain_lookup _ _ _ pp pk pv Hpc) as [Hpp (pnx & Hpnx)]; [set_solver|].
      bool_false (pp =? 0). cbn [negb]. rewrite (set_next_spec _ _ _ _ _ _ Hpp Hpnx).
      cbn [mbind result_bind]. rewrite free_both. cbn [e_key e_val].
      assert (pp <> q) as Hne.
      { intros ->. apply (Hdis q); [|by left]. rewrite ptrs_app. apply elem_of_app. right. by left. }
      assert (<[pp := mk_entry pk pv nx]> (entries w) !! q = Some (mk_entry k v nx)) as Hnx'
        by (by rewrite lookup_insert_ne).
      rewrite (free_entry_spec (set_ext (set_entries w _) _) _ _ Hq Hnx'). cbn.
      exists (<[pp := mk_entry pk pv nx]> (entries w)), p. rewrite list_insert_id by done.
      rewrite ptrs_app in Hnd1, Hdis. apply NoDup_app in Hnd1 as (_ & Hd1 & _).
      split_and!.
      * f_equal. f_equal. f_equal. destruct d. cbn in *. by subst.
      * rewrite <- app_assoc. cbn. eapply chain_relink; [exact Hpc|done| |].
        -- intros Hx. apply (Hd1 pp Hx). by left.
        -- intros Hx. apply (Hdis pp); [apply elem_of_app; right; by left|]. right. exact Hx.
      * intros x Hx. rewrite app_nil_r, ptrs_app in Hx. apply not_elem_of_app in Hx as [_ Hx].
        apply lookup_insert_ne. intros ->. apply Hx. by left.
      * rewrite dom_insert_L. apply subseteq_union_1_L, singleton_subseteq_l, elem_of_dom. by eexists.
  - pose proof Hde as (-> & Hq' & nx & Hnx & Hl). bool_false (q' =? 0).
    rewrite (entry_at_spec _ _ _ Hq' Hnx). cbn [mbind result_bind e_key e_val e_next].
    apply not_elem_of_cons in Hk as [Hk1 Hk2]. cbn in Hk1.
    rewrite Heq, bool_decide_eq_false_2 by done.
    destruct (IH fuel (pre ++ [(q', (k', v'))]) nx Ht Hl) as (m & p1 & Hd & Hch & Hm & Hdm).
    + exists p. rewrite <- app_assoc. by split.
    + by rewrite <- app_assoc.
    + done.
    + done.
    + lia.
    + unfold last_ptr in Hd. rewrite last_snoc in Hd. cbn [fst] in Hd. rewrite Hd.
      exists m, p1. rewrite <- !app_assoc in *. by split_and!.
Qed.

Lemma dict_map_delete (l l' : list node) q k v : l ≡ₚ (q, (k, v)) :: l' -> NoDup (keys l) ->
  list_to_map (M := gmap K V) l'.*2 = delete k (list_to_map l.*2).
Proof.
  intros Hp Hnd. rewrite (list_to_map_proper _ _ Hnd (fmap_Permutation _ _ _ Hp)).
  pose proof (keys_perm _ _ Hp Hnd) as Hnd'. apply NoDup_cons in Hnd' as [Hk _]. cbn.
  rewrite delete_insert_id; [done|]. by apply not_elem_of_list_to_map_1.
Qed.

Lemma delete_absent (w : world K V X) d k h (l : list node) : forall fuel prev de,
  chain (entries w) de l -> k ∉ keys l -> tells type k l -> (length l < fuel)%nat ->
  delete_loop type fuel w d k h prev de = Ok (w, d, DICT_ERR).
Proof.
  induction l as [|[q [k' v']] l IH]; intros [|fuel] prev de Hde Hk Hte Hf; cbn [length] in Hf; try lia;
    cbn [delete_loop]; [by rewrite Hde|]. apply tells_cons in Hte as [Heq Hte]. cbn [fst snd] in Heq.
  destruct Hde as (-> & Hq & nx & Hnx & Hl). bool_false (q =? 0).
  rewrite (entry_at_spec _ _ _ Hq Hnx). cbn [mbind result_bind e_key e_next].
  apply not_elem_of_cons in Hk as [Hk1 Hk2]. cbn in Hk1.
  rewrite Heq, bool_decide_eq_false_2 by done. apply IH; done || lia.
Qed.

Lemma find_node_split k (c : list node) :
  match find_node k c with
  | Some (q, (k', v)) => exists l1 l2, c = l1 ++ (q, (k', v)) :: l2 /\ k ∉ keys l1
  | None => k ∉ keys c
  end.
Proof.
  unfold find_node. induction c as [|[q [k' v]] c IH]; [apply not_elem_of_nil|].
  cbn [list_find fst snd]. destruct (decide (k' = k)) as [->|Hne].
  - exists [], c. split; [done|apply not_elem_of_nil].
  - destruct (list_find _ c) as [[i [q1 [k1 v1]]]|]; cbn in IH |- *.
    + destruct IH as (l1 & l2 & -> & Hk). exists ((q, (k', v)) :: l1), l2. split; [done|].
      apply not_elem_of_cons. by split.
    + apply not_elem_of_cons. by split.
Qed.

Lemma concat_insert (cs : list (list node)) i c c' : cs !! i = Some c ->
  exists l1 l2, concat cs = l1 ++ c ++ l2 /\ concat (<[i := c']> cs) = l1 ++ c' ++ l2.
Proof.
  intros Hc. exists (concat (take i cs)), (concat (drop (S i) cs)).
  rewrite <- (take_drop_middle cs i c Hc) at 1.
  rewrite insert_take_drop by (by eapply lookup_lt_Some). by rewrite !concat_app.
Qed.

Lemma ptrs_disjoint (cs : list (list node)) i j c1 c2 z : NoDup (ptrs (concat cs)) ->
  cs !! i = Some c1 -> cs !! j = Some c2 -> z ∈ ptrs c1 -> z ∈ ptrs c2 -> i = j.
Proof.
  revert i j. induction cs as [|c cs IH]; intros i j Hnd Hi Hj H1 H2; [done|].
  cbn [concat] in Hnd. rewrite ptrs_app in Hnd. apply NoDup_app in Hnd as (_ & Hdis & Hnd).
  assert (forall j c', cs !! j = Some c' -> z ∈ ptrs c' -> z ∈ ptrs (concat cs)) as Hin.
  { intros j' c' Hj' Hz. destruct (concat_insert cs j' c' [] Hj') as (a & b & -> & _).
    rewrite !ptrs_app, !elem_of_app. auto. }
  destruct i as [|i], j as [|j]; cbn in Hi, Hj; try done.
  - injection Hi as <-. exfalso. by eapply Hdis, Hin.
  - injection Hj as <-. exfalso. by eapply Hdis, Hin.
  - f_equal. by apply IH.
Qed.

(** A table without one node of the chain of a slot. *)
Lemma delete_rep w d cs F t k v q p l1 l2 m x : dict_rep type w d cs F -> ht_table d = Some t ->
  let h := slot type (ht_sizemask d) k in
  cs !! h = Some (l1 ++ (q, (k, v)) :: l2) -> chain m p (l1 ++ l2) ->
  (forall x, x ∉ ptrs l1 -> m !! x = entries w !! x) -> dom m = dom (entries w) ->
  let w' := mk_world (delete q m) (free_ptr w) x in
  let d' := set_used (set_table d (<[h := p]> t)) (u64 (ht_used d - 1)) in
  let cs' := <[h := l1 ++ l2]> cs in
  concat cs ≡ₚ (q, (k, v)) :: concat cs' /\
  (zlen (concat cs) < 2 ^ 64 -> dict_rep type w' d' cs' F).
Proof.
  intros Hr Et h Hc Hch Hm Hdom w' d' cs'.
  destruct Hr as [Htab Hsize Hused Hnd Hfr Hown Hkeys Hpl Hst]. rewrite Et in Htab.
  destruct Htab as [Hcs (j & Hj & Hmask & Hlen)].
  destruct (concat_insert cs h _ (l1 ++ l2) Hc) as (a & b & Ha & Hb).
  assert (concat cs ≡ₚ (q, (k, v)) :: concat cs') as Hperm.
  { unfold cs'. rewrite Ha, Hb. rewrite <- !app_assoc. cbn. rewrite !Permutation_middle.
    rewrite (app_assoc a l1). rewrite <- Permutation_middle. by rewrite <- app_assoc. }
  split; [done|]. intros Hsmall.
  pose proof (ptrs_perm _ _ Hperm) as Hpp. pose proof Hnd as Hnd'. rewrite Hpp in Hnd'.
  apply NoDup_cons in Hnd' as [Hq Hnd'].
  assert (forall x, x ∈ ptrs (l1 ++ l2) -> x ∈ ptrs (concat cs')) as Hsub.
  { intros y Hy. unfold cs'. rewrite Hb, !ptrs_app. rewrite ptrs_app in Hy.
    apply elem_of_app in Hy as [Hy|Hy]; rewrite !elem_of_app; auto. }
  assert (q ∉ ptrs (l1 ++ l2)) as Hq' by (intros Hx; by apply Hq, Hsub).
  split; cbn [ht_table ht_size ht_sizemask ht_used set_used set_table d' entries free_ptr w'].
  - split; [|exists j; unfold cs'; by rewrite length_insert].
    apply Forall2_same_length_lookup_2; [unfold cs'; rewrite !length_insert; by eapply Forall2_length|].
    intros i y c Hi Hci. unfold cs' in Hci.
    apply list_lookup_insert_Some in Hci as [(<- & <- & Hlt)|[Hne Hci]].
    + rewrite list_lookup_insert_eq in Hi by (erewrite Forall2_length; done).
      injection Hi as <-. by apply chain_delete.
    + rewrite list_lookup_insert_ne in Hi by done.
      pose proof (Forall2_lookup_lr _ _ _ _ _ _ Hcs Hi Hci) as Hyc.
      assert (forall z, z ∈ ptrs c -> z ∉ ptrs (l1 ++ (q, (k, v)) :: l2)) as Hdis.
      { clear -Hne Hci Hc Hnd. intros z Hz1 Hz2. apply Hne.
        eapply ptrs_disjoint; [exact Hnd|exact Hc|exact Hci|exact Hz2|exact Hz1]. }
      eapply chain_frame; [exact Hyc|]. intros z Hz. specialize (Hdis z Hz).
      rewrite ptrs_app, not_elem_of_app in Hdis. destruct Hdis as [D1 D2].
      apply not_elem_of_cons in D2 as [D2 _]. rewrite lookup_delete_ne by (cbn in D2; congruence).
      by apply Hm.
  - unfold cs'. by rewrite length_insert.
  - rewrite Hused. rewrite Hperm. cbn [length]. rewrite Hperm in Hsmall. cbn [length] in Hsmall.
    rewrite u64_id by lia. lia.
  - done.
  - intros y Hy. destruct (Z.eq_dec y q) as [->|Hne].
    + rewrite lookup_delete_eq. symmetry. apply Hown. rewrite Hpp. by left.
    + rewrite lookup_delete_ne by done. rewrite Hm.
      * apply Hfr. rewrite Hpp. apply not_elem_of_cons. by split.
      * intros Hx. apply Hy, Hsub. rewrite ptrs_app. apply elem_of_app. by left.
  - intros y Hy. apply Hown. rewrite Hpp. by right.
  - apply (keys_perm _ _ Hperm) in Hkeys. by apply NoDup_cons in Hkeys as [_ ?].
  - intros i c n Hci Hn. unfold cs' in Hci.
    apply list_lookup_insert_Some in Hci as [(<- & <- & _)|[_ Hci]]; [|by eapply Hpl].
    eapply Hpl; [exact Hc|]. apply elem_of_app in Hn as [Hn|Hn]; apply elem_of_app; [by left|].
    right. by right.
  - destruct Hst as [S1 S2]. split; [done|]. cbn. intros y e Hy.
    apply lookup_delete_Some in Hy as [_ Hy].
    assert (y ∈ dom (entries w)) as Hin by (rewrite <- Hdom; apply elem_of_dom; by eexists).
    apply elem_of_dom in Hin as [e' He']. by eapply S2.
Qed.

Lemma dictDelete_spec w d cs F k : dict_rep type w d cs F -> zlen (concat cs) < 2 ^ 64 ->
  tells type k (concat cs) ->
  exists w' d' r, dictDelete type w d k = Ok (w', d', r) /\
  match dict_map cs !! k with
  | None => r = DICT_ERR /\ w' = w /\ d' = d
  | Some v => r = DICT_OK /\ ext w' = free_val v (free_key k (ext w)) /\
      exists cs', dict_rep type w' d' cs' F /\ dict_map cs' = delete k (dict_map cs) /\
        zlen (concat cs') = zlen (concat cs) - 1
  end.
Proof.
  intros Hr Hsmall Hte. pose proof (dr_table _ _ _ _ _ Hr) as Ht. pose proof (dr_size _ _ _ _ _ Hr) as Hs.
  unfold dictDelete. destruct (ht_table d) as [t|] eqn:Et.
  2:{ subst cs. rewrite Hs. exists w, d, DICT_ERR. by split_and!. }
  destruct Ht as [Hcs Hf]. pose proof (fits_nonempty _ _ Hf). bool_false (ht_size d =? 0).
  destruct (slot_chain type w d cs F t k Hr Et Hte) as (p & c & Hc & Hpc & Htp & -> & _).
  apply (tells_chain type k cs _ c Hc) in Hte.
  cbn [mbind result_bind]. destruct (slot_Z type _ _ k Hf) as [-> _].
  pose proof (find_in_slot type _ cs c k (dr_keys _ _ _ _ _ Hr) (dr_placed _ _ _ _ _ Hr) Hc) as Hslot.
  pose proof (find_node_split k c) as Hsplit.
  destruct (concat_insert cs _ _ [] Hc) as (a & b & Ha & _).
  pose proof (dr_nodup _ _ _ _ _ Hr) as Hnd. rewrite Ha, !ptrs_app in Hnd.
  apply NoDup_app in Hnd as (_ & _ & Hnd). apply NoDup_app in Hnd as (Hnd & _ & _).
  pose proof (chain_length _ _ _ Hpc Hnd) as Hlen.
  destruct (find_node k c) as [[q [k' v]]|].
  - destruct Hslot as (-> & _ & ->). destruct Hsplit as (l1 & l2 & -> & Hk).
    destruct (delete_loop_spec w d t (slot type (ht_sizemask d) k) k v q l2 l1
      (S (size (entries w))) [] p Et Hpc) as (m & p' & Hd & Hch & Hm & Hdom); try done.
    { by exists p. }
    { rewrite length_app in Hlen. lia. }
    change (last_ptr []) with 0 in Hd. rewrite Hd. eexists _, _, _. split; [reflexivity|].
    destruct (delete_rep w d cs F t k v q p' l1 l2 m (free_val v (free_key k (ext w))) Hr Et Hc Hch Hm Hdom)
      as [Hperm Hrep]. split_and!; [done|done|]. eexists. split_and!; [by apply Hrep| |].
    + unfold dict_map. eapply dict_map_delete; [exact Hperm|apply Hr].
    + rewrite Hperm. cbn [length]. lia.
  - rewrite Hslot. rewrite (delete_absent w d k _ c) by (done || lia).
    exists w, d, DICT_ERR. by split_and!.
Qed.

(** ** Destruction *)

(** The nodes [l] are freed, in order. *)
Definition freed (l : list node) (w w' : world K V X) : Prop :=
  ext w' = foldl free_node (ext w) l /\ free_ptr w' = free_ptr w /\
  (forall p, p ∈ ptrs l -> entries w' !! p = None) /\
  (forall p, p ∉ ptrs l -> entries w' !! p = entries w !! p).

Lemma freed_trans l1 l2 w1 w2 w3 : freed l1 w1 w2 -> freed l2 w2 w3 -> freed (l1 ++ l2) w1 w3.
Proof.
  intros (E1 & P1 & N1 & S1) (E2 & P2 & N2 & S2). split_and!.
  - by rewrite E2, E1, foldl_app.
  - congruence.
  - intros p Hp. destruct (decide (p ∈ ptrs l2)) as [H2|H2]; [by apply N2|].
    rewrite S2 by done. apply N1. rewrite ptrs_app in Hp. apply elem_of_app in Hp. tauto.
  - intros p Hp. rewrite ptrs_app, not_elem_of_app in Hp. destruct Hp.
    rewrite S2 by done. by apply S1.
Qed.

Lemma clear_chain_spec l : forall fuel w used p, chain (entries w) p l -> NoDup (ptrs l) ->
  (length l < fuel)%nat -> zlen l <= used < 2 ^ 64 ->
  exists w', clear_chain type fuel w used p = Ok (w', used - zlen l) /\ freed l w w'.
Proof.
  induction l as [|[q [k v]] l IH]; intros [|fuel] w used p Hc Hnd Hf Hu; cbn [length] in *; try lia;
    cbn [clear_chain].
  { rewrite Hc. cbn. exists w. rewrite Z.sub_0_r. split; [done|]. split_and!; try done.
    intros x Hx. by apply elem_of_nil in Hx. }
  destruct Hc as (-> & Hq & nx & Hnx & Hc). bool_false (q =? 0).
  rewrite (entry_at_spec _ _ _ Hq Hnx). cbn [mbind result_bind e_next].
  rewrite free_both. cbn [e_key e_val].
  rewrite (free_entry_spec (set_ext w _) _ _ Hq Hnx). cbn [mbind result_bind].
  apply NoDup_cons in Hnd as [Hql Hnd]. cbn in Hql.
  set (w1 := mk_world _ _ _).
  destruct (IH fuel w1 (used - 1) nx) as (w' & Hcl & Hfr); [by apply chain_delete|done|lia|lia|].
  rewrite u64_id, Hcl by lia. exists w'. split; [do 2 f_equal; lia|].
  change ((q, (k, v)) :: l) with ([(q, (k, v))] ++ l). eapply freed_trans; [|exact Hfr].
  split_and!; try done; cbn.
  - intros x Hx. apply list_elem_of_singleton in Hx as ->. apply lookup_delete_eq.
  - intros x Hx. apply lookup_delete_ne. intros ->. apply Hx. by left.
Qed.

Lemma clear_loop_spec cs : forall w t1 t2 used, Forall2 (chain (entries w)) t2 cs ->
  NoDup (ptrs (concat cs)) -> used = zlen (concat cs) -> used < 2 ^ 64 ->
  exists w', clear_loop type (length cs) w (Some (t1 ++ t2)) (zlen t1) used = Ok (w', 0) /\
    freed (concat cs) w w'.
Proof.
  assert (forall w, freed [] w w) as Hnil.
  { intros w. split_and!; try done. intros p Hp. by apply elem_of_nil in Hp. }
  induction cs as [|c cs IH]; intros w t1 t2 used Ht Hnd Hu Hu64; cbn [length clear_loop concat] in *.
  { subst used. by exists w. }
  apply Forall2_cons_inv_r in Ht as (p & t3 & Hc & Ht & ->).
  rewrite length_app in Hu. rewrite ptrs_app in Hnd. apply NoDup_app in Hnd as (Hnd1 & Hdis & Hnd2).
  destruct (0 <? used) eqn:E; bool_to_prop; cbn [negb].
  2:{ exists w. split; [do 2 f_equal; lia|]. destruct c, (concat cs); try (simpl in *; lia). apply Hnil. }
  cbn [slot_get deref mbind result_bind]. rewrite load_middle. cbn [mbind result_bind].
  replace (zlen t1 + 1) with (zlen (t1 ++ [p])) by slia.
  replace (t1 ++ p :: t3) with ((t1 ++ [p]) ++ t3) by solve_app.
  destruct (p =? 0) eqn:Ep.
  { apply Z.eqb_eq in Ep as ->. apply chain_nil in Hc as ->. apply IH; try done; cbn in *; lia. }
  destruct (clear_chain_spec c (S (size (entries w))) w used p Hc Hnd1) as (w1 & -> & Hf1); [|lia|].
  { apply le_n_S. by eapply chain_length. }
  cbn [mbind result_bind].
  destruct (IH w1 (t1 ++ [p]) t3 (used - zlen c)) as (w2 & Hcl & Hf2); [|done|lia|lia|].
  { eapply chains_frame; [exact Ht|]. intros q Hq. apply Hf1. intros Hqc. by apply (Hdis q). }
  rewrite Hcl. exists w2. split; [done|]. by eapply freed_trans.
Qed.

(** Clearing frees every entry once and leaves the rest of the store. *)
Lemma dictClear_spec w d cs F : dict_rep type w d cs F -> zlen (concat cs) < 2 ^ 64 ->
  exists w' d', _dictClear type w d = Ok (w', d', DICT_OK) /\ entries w' = F /\
    ext w' = foldl free_node (ext w) (concat cs) /\ dict_rep type w' d' [] F /\
    free_ptr w' = free_ptr w.
Proof.
  intros [Htab Hsize Hused Hnd Hfr Hown Hkeys Hpl Hst] Hlt. unfold _dictClear.
  assert (exists w', clear_loop type (Z.to_nat (ht_size d)) w (ht_table d) 0 (ht_used d) = Ok (w', 0) /\
    freed (concat cs) w w') as (w' & -> & Hf).
  { rewrite Hsize, Hused, Nat2Z.id. destruct (ht_table d) as [t|].
    - destruct Htab as [Htab _]. by apply (clear_loop_spec cs w [] t).
    - subst cs. exists w. split; [done|]. split_and!; try done. intros p Hp. by apply elem_of_nil in Hp. }
  destruct Hf as (He & Hp & Hn & Hs).
  assert (entries w' = F) as HF.
  { apply map_eq. intros p. destruct (decide (p ∈ ptrs (concat cs))) as [Hin|Hin].
    - by rewrite Hn, Hown.
    - by rewrite Hs, Hfr. }
  exists w', _dictReset. split_and!; [done|done|done| |done].
  split; cbn; [done|done|done|constructor|by rewrite HF|by intros p ?%elem_of_nil|constructor|done|].
  - destruct Hst as [S1 S2]. split; [by rewrite Hp|]. intros p e Hpe. rewrite Hp.
    destruct (decide (p ∈ ptrs (concat cs))) as [Hin|Hin]; [by rewrite Hn in Hpe|].
    rewrite Hs in Hpe by done. by eapply S2.
Qed.

(** ** Iteration *)

(** The nodes an iterator has still to return: the rest of its chain, from the
    saved pointer on, and the chains of the slots after it. *)
Definition iter_at (m : gmap Z entry) (cs : list (list node)) (it : dictIterator)
    (rem : list node) : Prop :=
  -1 <= i_index it < zlen cs /\ exists l,
    rem = l ++ concat (drop (Z.to_nat (i_index it + 1)) cs) /\
    if i_entry it =? 0 then l = [] else chain m (i_nextEntry it) l.

(** The next node, or [NULL] at the end. *)
Definition next_is (m : gmap Z entry) (cs : list (list node)) (rem : list node)
    (r : result (dictIterator * Z)) : Prop :=
  exists it' p, r = Ok (it', p) /\
  match rem with
  | [] => p = 0
  | n :: rem => p = n.1 /\ iter_at m cs it' rem
  end.

Lemma dictNext_loop_spec fuel : forall w d cs F t it rem, dict_rep type w d cs F ->
  ht_table d = Some t -> zlen cs < 2 ^ 31 - 1 -> iter_at (entries w) cs it rem ->
  zlen cs - i_index it + (if i_entry it =? 0 then 0 else 1) <= Z.of_nat fuel ->
  next_is (entries w) cs rem (dictNext_loop fuel w d it).
Proof.
  induction fuel as [|fuel IH]; intros w d cs F t it rem Hr Et Hlen (Hi & l & -> & Hl) Hf;
    [split_if_in Hf; lia|].
  pose proof (dr_table _ _ _ _ _ Hr) as Htab. rewrite Et in Htab. destruct Htab as [Hcs _].
  cbn [dictNext_loop].
  assert (forall i p l, -1 <= i < zlen cs -> chain (entries w) p l ->
    (p = 0 -> zlen cs - i <= Z.of_nat fuel) ->
    next_is (entries w) cs (l ++ concat (drop (Z.to_nat (i + 1)) cs))
      (if negb (p =? 0) then e ← entry_at w p; Ok (mk_iter i p (e_next e), p)
       else dictNext_loop fuel w d (mk_iter i p (i_nextEntry it)))) as Hstep.
  { intros i p l' Hi' Hc Hfu. destruct l' as [|[q [k v]] l'].
    - cbn in Hc. subst p. cbn [Z.eqb negb app]. specialize (Hfu eq_refl).
      apply (IH w d cs F t (mk_iter i 0 (i_nextEntry it)) _ Hr Et Hlen); [|cbn; lia].
      split; [done|]. by exists [].
    - destruct Hc as (-> & Hq & nx & Hnx & Hc). bool_false (q =? 0). cbn [negb].
      rewrite (entry_at_spec _ _ _ Hq Hnx). cbn [mbind result_bind e_next app].
      eexists _, q. split_and!; [done|done|]. split; [done|]. exists l'.
      cbn [i_index i_entry i_nextEntry]. split; [done|]. by bool_false (q =? 0). }
  destruct (i_entry it =? 0) eqn:E.
  - subst l. rewrite (s32_id (i_index it + 1)) by lia. pose proof (dr_size _ _ _ _ _ Hr) as Hs.
    rewrite Hs, (s32_id (zlen cs)) by lia. cbn [app].
    destruct (zlen cs <=? i_index it + 1) eqn:El; bool_to_prop.
    + rewrite drop_ge by lia. by eexists _, 0.
    + destruct (lookup_lt_is_Some_2 cs (Z.to_nat (i_index it + 1))) as [c Hc]; [lia|].
      destruct (slot_get_spec t cs (entries w) (Z.to_nat (i_index it + 1)) Hcs ltac:(lia))
        as (p & c' & _ & Hc' & Hg & Hpc). rewrite Hc in Hc'. injection Hc' as <-.
      rewrite Z2Nat.id in Hg by lia. rewrite Et, Hg. cbn [mbind result_bind i_entry i_index i_nextEntry].
      assert (drop (Z.to_nat (i_index it + 1)) cs = c :: drop (Z.to_nat (i_index it + 1 + 1)) cs) as ->.
      { rewrite (drop_S cs c) by done. do 2 f_equal. lia. }
      cbn [concat]. apply (Hstep (i_index it + 1) p c); [lia|done|lia].
  - apply (Hstep (i_index it) (i_nextEntry it) l); [lia|done|lia].
Qed.

Lemma dictNext_spec w d cs F t it rem : dict_rep type w d cs F -> ht_table d = Some t ->
  zlen cs < 2 ^ 31 - 1 -> iter_at (entries w) cs it rem ->
  next_is (entries w) cs rem (dictNext w d it).
Proof.
  intros Hr Et Hlen Hit. unfold dictNext. eapply dictNext_loop_spec; [done..|].
  rewrite (dr_size _ _ _ _ _ Hr), Nat2Z.id. destruct Hit as (? & _). split_if; lia.
Qed.

Lemma iter_start m (cs : list (list node)) : 0 < zlen cs -> iter_at m cs (mk_iter (-1) 0 0) (concat cs).
Proof. intros. split; [cbn; lia|]. by exists []. Qed.

End ops.
