(* ===== verification/DictCorrect.v ===== *)
(** * DictCorrect: what the hash table of dict.c promises

    A table is a finite map, its growth is by powers of two, clearing it frees
    every entry once, and an iterator returns every entry once. *)
From S2P Require Import Prelude Mem SdsFacts SdsTextFacts Dict DictFacts DictRep DictOps.
From stdpp Require Import list list_numbers strings sets gmap fin_maps.
From Stdlib Require Import ZArith Lia.
Open Scope Z_scope.

Section correct.
Context {K V X : Type} `{Countable K} {M : Malloc}.

(** ** Operations and their effect on maps *)
Inductive dict_op : Type :=
  | OpAdd (k : K) (v : V)
  | OpReplace (k : K) (v : V)
  | OpDelete (k : K)
  | OpFind (k : K).

(** What an operation returns: a status, or the value found. *)
Inductive dict_out : Type :=
  | Status (n : Z)
  | Found (v : option V).

Context (type : dictType K V X).

(** [dictGetEntryVal(dictFind(ht, key))], or [NULL]. *)
Definition find_val (w : world K V X) (d : dict) (k : K) : result dict_out :=
  p ← dictFind type w d k;
  if p =? 0 then Ok (Found None) else e ← entry_at w p; Ok (Found (Some (e_val e))).

Definition run_dict_op (w : world K V X) (d : dict) (op : dict_op) :
    result (world K V X * dict * dict_out) :=
  match op with
  | OpAdd k v => '(w, d, r) ← dictAdd type w d k v; Ok (w, d, Status r)
  | OpReplace k v => '(w, d, r) ← dictReplace type w d k v; Ok (w, d, Status r)
  | OpDelete k => '(w, d, r) ← dictDelete type w d k; Ok (w, d, Status r)
  | OpFind k => r ← find_val w d k; Ok (w, d, r)
  end.

Fixpoint run_dict_ops (w : world K V X) (d : dict) (ops : list dict_op) :
    result (world K V X * dict * list dict_out) :=
  match ops with
  | [] => Ok (w, d, [])
  | op :: ops =>
      '(w, d, r) ← run_dict_op w d op;
      '(w, d, rs) ← run_dict_ops w d ops;
      Ok (w, d, r :: rs)
  end.

(** The same on a map, with the state [x] of the destructors. *)
Definition spec_dict_op (m : gmap K V) (x : X) (op : dict_op) : gmap K V * X * dict_out :=
  match op with
  | OpAdd k v =>
      match m !! k with
      | Some _ => (m, x, Status DICT_ERR)
      | None => (<[k := dup_val type v]> m, x, Status DICT_OK)
      end
  | OpReplace k v =>
      match m !! k with
      | Some v0 => (<[k := dup_val type v]> m, free_val type v0 x, Status 0)
      | None => (<[k := dup_val type v]> m, x, Status 1)
      end
  | OpDelete k =>
      match m !! k with
      | Some v => (delete k m, free_val type v (free_key type k x), Status DICT_OK)
      | None => (m, x, Status DICT_ERR)
      end
  | OpFind k => (m, x, Found (m !! k))
  end.

Fixpoint spec_dict_ops (m : gmap K V) (x : X) (ops : list dict_op) : gmap K V * X * list dict_out :=
  match ops with
  | [] => (m, x, [])
  | op :: ops =>
      let '(m, x, r) := spec_dict_op m x op in
      let '(m, x, rs) := spec_dict_ops m x ops in
      (m, x, r :: rs)
  end.

Hypothesis compare_eq : forall k1 k2, dictCompareHashKeys type k1 k2 = bool_decide (k1 = k2).
Hypothesis dup_key_id : forall k, dup_key type k = k.

Lemma tells_all k l : tells type k l.
Proof. intros k' _. apply compare_eq. Qed.

(** The table stands for the map, the destructors have left [x]. *)
Definition dict_state (F : gmap Z (dictEntry K V)) (n : Z) (w : world K V X) (d : dict)
    (m : gmap K V) (x : X) : Prop :=
  exists cs, dict_rep type w d cs F /\ dict_map cs = m /\ zlen (concat cs) <= n /\ ext w = x.

Lemma dict_op_spec F n w d m x op : dict_state F n w d m x -> n < 2 ^ 31 ->
  returns_total (run_dict_op w d op) (fun '(w', d', r) =>
    dict_state F (n + 1) w' d' (spec_dict_op m x op).1.1 (spec_dict_op m x op).1.2 /\
    r = (spec_dict_op m x op).2).
Proof.
  intros (cs & Hr & <- & Hlen & <-) Hn. destruct op as [k v|k v|k|k]; cbn [run_dict_op spec_dict_op].
  - eapply returns_total_bind; [apply (dictAdd_spec type dup_key_id w d cs F k v Hr); [lia|apply tells_all]|].
    intros [[w' d'] r] (He & cs' & Hr' & Hc). cbn. destruct (dict_map cs !! k) as [v0|];
      destruct Hc as [-> Hp]; split; try done; exists cs'; split_and!; try done.
    + apply dict_map_perm; [apply Hr'|done].
    + rewrite Hp. lia.
    + eapply dict_map_cons; [exact Hp|apply Hr'].
    + rewrite Hp. cbn [length]. lia.
  - eapply returns_total_bind; [apply (dictReplace_spec type dup_key_id w d cs F k v Hr); [lia|apply tells_all]|].
    intros [[w' d'] r] (cs' & Hr' & Hm & Hc). cbn. destruct (dict_map cs !! k) as [v0|];
      destruct Hc as (-> & He & Hl); split; try done; exists cs'; split_and!; try done; lia.
  - destruct (dictDelete_spec type dup_key_id w d cs F k Hr) as (w' & d' & r & -> & Hc); [lia|apply tells_all|].
    cbn. destruct (dict_map cs !! k) as [v0|].
    + destruct Hc as (-> & He & cs' & Hr' & Hm & Hl). split; [|done].
      exists cs'. split_and!; try done. lia.
    + destruct Hc as (-> & -> & ->). split; [|done]. exists cs. split_and!; try done. lia.
  - unfold find_val. destruct (dictFind_spec type w d cs F k Hr (tells_all _ _)) as (p & -> & Hf).
    cbn [mbind result_bind]. destruct (dict_map cs !! k) as [v0|].
    + destruct Hf as [Hp Hin]. bool_false (p =? 0).
      destruct (node_entry type w d cs F p k v0 Hr Hin) as (_ & nx & Hnx).
      rewrite (entry_at_spec _ _ _ Hp Hnx). cbn. split; [|done].
      exists cs. split_and!; try done. lia.
    + subst p. cbn. split; [|done]. exists cs. split_and!; try done. lia.
Qed.

Lemma dict_ops_spec F ops : forall n w d m x, dict_state F n w d m x ->
  n + zlen ops <= 2 ^ 31 ->
  returns_total (run_dict_ops w d ops) (fun '(w', d', rs) =>
    dict_state F (n + zlen ops) w' d' (spec_dict_ops m x ops).1.1 (spec_dict_ops m x ops).1.2 /\
    rs = (spec_dict_ops m x ops).2).
Proof.
  induction ops as [|op ops IH]; intros n w d m x Hst Hn; cbn [run_dict_ops spec_dict_ops length] in *.
  { cbn. by rewrite Z.add_0_r. }
  eapply returns_total_bind; [apply (dict_op_spec F n w d m x op Hst); lia|].
  intros [[w1 d1] r] [Hst1 ->]. destruct (spec_dict_op m x op) as [[m1 x1] r1]. cbn [fst snd] in *.
  eapply returns_total_bind; [apply (IH (n + 1) w1 d1 m1 x1 Hst1); lia|].
  intros [[w2 d2] rs] [Hst2 ->]. destruct (spec_dict_ops m1 x1 ops) as [[m2 x2] rs2]. cbn in *.
  split; [|done]. destruct Hst2 as (cs & ? & ? & ? & ?). exists cs. split_and!; try done. lia.
Qed.

(** C36: a hash table is a finite map. Any sequence of additions,
    replacements, deletions and lookups gives the results that it gives on
    maps, runs the destructors on the values and keys that go, and leaves the
    other entries of the store alone; the one fault is an unchecked
    allocation. *)
Theorem dict_refines_map F n w d m x ops : dict_state F n w d m x -> n + zlen ops <= 2 ^ 31 ->
  returns_total (run_dict_ops w d ops) (fun '(w', d', rs) =>
    dict_state F (n + zlen ops) w' d' (spec_dict_ops m x ops).1.1 (spec_dict_ops m x ops).1.2 /\
    rs = (spec_dict_ops m x ops).2).
Proof. apply dict_ops_spec. Qed.

(** ** Destruction *)

(** [dictRelease] frees every entry of the table once, with its key and
    its value, and nothing else of the store. *)
Theorem dictRelease_frees w d cs F : dict_rep type w d cs F -> zlen (concat cs) < 2 ^ 64 ->
  exists w' l, dictRelease type w d = Ok w' /\ entries w' = F /\
    l.*2 ≡ₚ map_to_list (dict_map cs) /\ ext w' = foldl (free_node type) (ext w) l.
Proof.
  intros Hr Hlt. unfold dictRelease.
  destruct (dictClear_spec type w d cs F Hr Hlt) as (w' & d' & -> & HF & He & _).
  exists w', (concat cs). split_and!; [done|done| |done].
  unfold dict_map. rewrite map_to_list_to_map; [done|]. apply Hr.
Qed.

(** ** Iteration *)

(** [while ((de = dictNext(it)) != NULL)], collecting the entries. *)
Fixpoint visit (fuel : nat) (w : world K V X) (d : dict) (it : dictIterator) :
    result (list (K * V)) :=
  match fuel with
  | O => Fault OutOfFuel
  | S f =>
      '(it, p) ← dictNext w d it;
      if p =? 0 then Ok [] else
      e ← entry_at w p;
      l ← visit f w d it;
      Ok ((e_key e, e_val e) :: l)
  end.

Lemma visit_spec w d cs F t : dict_rep type w d cs F -> ht_table d = Some t ->
  zlen cs < 2 ^ 31 - 1 -> forall rem fuel it, iter_at (entries w) cs it rem ->
  (forall n, n ∈ rem -> n ∈ concat cs) -> (length rem < fuel)%nat ->
  visit fuel w d it = Ok rem.*2.
Proof.
  intros Hr Et Hlen. induction rem as [|[q [k v]] rem IH]; intros [|fuel] it Hit Hin Hf;
    cbn [length] in Hf; try lia; cbn [visit];
    destruct (dictNext_spec type w d cs F t it _ Hr Et Hlen Hit) as (it' & p & -> & Hp);
    cbn [mbind result_bind].
  { by subst p. }
  destruct Hp as [-> Hit']. cbn [fst].
  destruct (node_entry type w d cs F q k v Hr) as (Hq & nx & Hnx); [apply Hin; by left|].
  bool_false (q =? 0). rewrite (entry_at_spec _ _ _ Hq Hnx). cbn [mbind result_bind].
  rewrite (IH fuel it' Hit'); [done| |lia]. intros n Hn. apply Hin. by right.
Qed.

(** An iterator returns every entry of the table once, and then
    [NULL]. *)
Theorem iterator_visits w d cs F it : dict_rep type w d cs F -> 0 < zlen cs < 2 ^ 31 - 1 ->
  dictGetIterator = Ok it ->
  exists l, visit (S (length (concat cs))) w d it = Ok l /\ l ≡ₚ map_to_list (dict_map cs).
Proof.
  intros Hr Hlen Hit. pose proof (dr_table _ _ _ _ _ Hr) as Ht.
  destruct (ht_table d) as [t|] eqn:Et; [|subst cs; simpl in Hlen; lia].
  unfold dictGetIterator in Hit. destruct (malloc_ok 32); [|done]. injection Hit as <-.
  exists (concat cs).*2. split.
  - apply (visit_spec w d cs F t Hr Et); [lia|apply iter_start; lia|done|lia].
  - unfold dict_map. rewrite map_to_list_to_map; [done|apply Hr].
Qed.

End correct.

(** ** Growth *)

(** [_dictNextPower] ends for every size and gives the least power of two
    that is at least 4 and the size. *)
Theorem dictNextPower_least size : 0 <= size < LONG_MAX ->
  exists j, 2 <= j <= 63 /\ _dictNextPower size = Ok (2 ^ j) /\ size <= 2 ^ j /\
    (forall i, 2 <= i < j -> 2 ^ i < size).
Proof. apply dictNextPower_spec. Qed.

Lemma dictNextPower_least_witness :
  exists j, 2 <= j <= 63 /\ _dictNextPower 1000 = Ok (2 ^ j) /\ 1000 <= 2 ^ j /\
    (forall i, 2 <= i < j -> 2 ^ i < 1000).
Proof. apply dictNextPower_least. unfold LONG_MAX. lia. Defined.

(** ** Instances *)

(** Byte strings as keys, as the subscriptions of async.c have them; the
    destructor of keys collects what is freed. *)
Definition string_dict : dictType bytes Z (list bytes) := {|
  hashFunction := fun k => match dictGenHashFunction k (zlen k) with Ok h => h | Fault _ => 0 end;
  keyDup := None;
  valDup := None;
  keyCompare := None;
  keyDestructor := Some (fun k x => k :: x);
  valDestructor := None
|}.

Definition empty_world : world bytes Z (list bytes) := mk_world ∅ 1 [].

Lemma empty_dict_rep : dict_rep string_dict empty_world _dictReset [] ∅.
Proof.
  split; cbn; [done|done|done|constructor|done|by intros p ?%elem_of_nil|constructor|done|].
  split; [done|]. intros p e He. discriminate He.
Qed.

Lemma string_compare k1 k2 : dictCompareHashKeys string_dict k1 k2 = bool_decide (k1 = k2).
Proof. done. Qed.
Lemma string_dup k : dup_key string_dict k = k.
Proof. done. Qed.

(** Five keys, so that the table grows. *)
Definition some_ops : list (@dict_op bytes Z) :=
  [OpAdd (lit "a") 1; OpAdd (lit "b") 2; OpAdd (lit "a") 3; OpReplace (lit "b") 4; OpAdd (lit "c") 5;
   OpAdd (lit "d") 6; OpAdd (lit "e") 7; OpDelete (lit "a"); OpFind (lit "b"); OpFind (lit "a")].

Lemma dict_refines_map_witness :
  dict_state string_dict ∅ 0 empty_world _dictReset ∅ [] /\
  returns_total (M := malloc_yes) (run_dict_ops (M := malloc_yes) string_dict empty_world _dictReset some_ops)
    (fun '(w', d', rs) =>
      dict_state string_dict ∅ 10 w' d' (spec_dict_ops string_dict ∅ [] some_ops).1.1 [lit "a"] /\
      rs = [Status 0; Status 0; Status 1; Status 0; Status 0; Status 0; Status 0; Status 0;
            Found (Some 4); Found None]).
Proof.
  assert (dict_state string_dict ∅ 0 empty_world _dictReset ∅ []) as Hst.
  { exists []. split_and!; [apply empty_dict_rep|done|done|done]. }
  split; [exact Hst|].
  pose proof (dict_refines_map (M := malloc_yes) string_dict string_compare string_dup ∅ 0 empty_world
    _dictReset ∅ [] some_ops Hst ltac:(vm_compute; discriminate)) as Href.
  eapply returns_total_mono; [exact Href|]. intros [[w' d'] rs] [Hs ->]. split; [exact Hs|].
  vm_compute. reflexivity.
Defined.

(** A table with one entry. *)
Lemma one_entry : exists w d cs, dict_rep string_dict w d cs ∅ /\
  dict_map cs = {[ lit "a" := 1 ]} /\ zlen (concat cs) = 1 /\ 0 < zlen cs < 2 ^ 31 - 1.
Proof.
  pose proof (dictAdd_spec (M := malloc_yes) string_dict string_dup _ _ _ _ (lit "a") 1
    empty_dict_rep ltac:(done) (tells_all string_dict string_compare _ _)) as H1.
  assert (exists w d, dictAdd (M := malloc_yes) string_dict empty_world _dictReset (lit "a") 1
    = Ok (w, d, DICT_OK) /\ ht_size d = 4) as (w & d & E & Hs).
  { eexists _, _. split; [vm_compute; reflexivity|reflexivity]. }
  rewrite E in H1. destruct H1 as (_ & cs & Hr & _ & Hp). exists w, d, cs.
  split_and!; [done| |by rewrite Hp|..].
  - exact (dict_map_cons [] cs 1 (lit "a") 1 Hp (dr_keys _ _ _ _ _ Hr)).
  - pose proof (dr_size _ _ _ _ _ Hr). lia.
  - pose proof (dr_size _ _ _ _ _ Hr). lia.
Qed.

Lemma dictRelease_frees_witness : exists w d cs w' l,
  dict_map cs = {[ lit "a" := 1 ]} /\ dictRelease string_dict w d = Ok w' /\ entries w' = ∅ /\
  l.*2 ≡ₚ map_to_list (dict_map cs) /\ ext w' = foldl (free_node string_dict) (ext w) l.
Proof.
  destruct one_entry as (w & d & cs & Hr & Hm & Hl & _).
  destruct (dictRelease_frees string_dict w d cs ∅ Hr ltac:(lia)) as (w' & l & ? & ? & ? & ?).
  exists w, d, cs, w', l. auto.
Defined.

Lemma iterator_visits_witness : exists (w : world bytes Z (list bytes)) d cs l,
  dict_map cs = {[ lit "a" := 1 ]} /\
  visit (S (length (concat cs))) w d (mk_iter (-1) 0 0) = Ok l /\ l ≡ₚ map_to_list (dict_map cs).
Proof.
  destruct one_entry as (w & d & cs & Hr & Hm & _ & Hl).
  destruct (iterator_visits (M := malloc_yes) string_dict w d cs ∅ (mk_iter (-1) 0 0) Hr Hl eq_refl)
    as (l & ? & ?).
  exists w, d, cs, l. auto.
Defined.
