(* ===== verification/System.v ===== *)
(** * System: the operating system as a parameter

    The program reaches the network through system calls and the resolver of
    the C library. They are the operations of a class over a world [W]; a call
    may do anything to the world, [errno] included. What a theorem needs of the
    calls is stated by the law classes of this file:
    [Channel] (what a descriptor carried to its peer), [StreamSocket] (a
    connected socket whose peer answers what it was sent) and [Descriptors]
    (which descriptors are open). *)
From S2P Require Import Prelude Mem.
From stdpp Require Import list list_numbers strings sets gmap.
From Stdlib Require Import ZArith Lia.
Open Scope Z_scope.

(** ** Constants (Linux) *)
Definition EINTR : Z := 4.
Definition EAGAIN : Z := 11.
Definition EADDRNOTAVAIL : Z := 99.
Definition ETIMEDOUT : Z := 110.
Definition EHOSTUNREACH : Z := 113.
Definition EINPROGRESS : Z := 115.
Definition AF_LOCAL : Z := 1.
Definition AF_INET : Z := 2.
Definition AF_INET6 : Z := 10.
Definition SOCK_STREAM : Z := 1.
Definition SOL_SOCKET : Z := 1.
Definition IPPROTO_TCP : Z := 6.
Definition SO_REUSEADDR : Z := 2.
Definition SO_KEEPALIVE : Z := 9.
Definition SO_RCVTIMEO : Z := 20.
Definition SO_SNDTIMEO : Z := 21.
Definition TCP_NODELAY : Z := 1.
Definition TCP_KEEPIDLE : Z := 4.
Definition TCP_KEEPINTVL : Z := 5.
Definition TCP_KEEPCNT : Z := 6.
Definition O_NONBLOCK : Z := 2048.

Record timeval : Type := mk_timeval {
  tv_sec : Z;
  tv_usec : Z
}.

(** What [setsockopt] is given to read. *)
Inductive optval : Type :=
  | OptInt (v : Z)
  | OptTime (tv : timeval).

(** A node of the list of [getaddrinfo]; [ai_addr] stands for the address and
    its length. *)
Record addrinfo : Type := mk_addrinfo {
  ai_family : Z;
  ai_socktype : Z;
  ai_protocol : Z;
  ai_addr : bytes
}.

(** ** The calls

    [sys_read] gives [None] for -1. [sys_poll] waits for [POLLOUT].
    [sys_so_error] is [getsockopt(SO_ERROR)], [None] when the call fails.
    [sys_getaddrinfo node service family] asks for stream sockets. *)
Class Sys (W : Type) := {
  sys_errno : W -> Z;
  set_errno : Z -> W -> W;
  strerror : Z -> bytes;
  gai_strerror : Z -> bytes;
  sys_read : Z -> Z -> W -> option bytes * W;
  sys_write : Z -> bytes -> W -> Z * W;
  sys_close : Z -> W -> W;
  sys_socket : Z -> Z -> Z -> W -> Z * W;
  sys_setsockopt : Z -> Z -> Z -> optval -> W -> Z * W;
  sys_getfl : Z -> W -> Z * W;
  sys_setfl : Z -> Z -> W -> Z * W;
  sys_poll : Z -> Z -> W -> Z * W;
  sys_so_error : Z -> W -> option Z * W;
  sys_getaddrinfo : option bytes -> option bytes -> Z -> W -> Z * list addrinfo * W;
  sys_freeaddrinfo : list addrinfo -> W -> W;
  sys_bind : Z -> bytes -> W -> Z * W;
  sys_connect : Z -> bytes -> W -> Z * W
}.

(** ** A connected stream socket

    [sent w] is what the descriptor [fd] carried to the peer. A write fails, or
    takes a part of what it is given. *)
Class Channel (W : Type) {OS : Sys W} (fd : Z) := {
  sent : W -> bytes;
  channel_law : forall b (w : W), b <> [] -> exists n w', sys_write fd b w = (n, w') /\
    ((n = -1 /\ sent w' = sent w) \/
     (0 <= n <= zlen b /\ sent w' = sent w ++ take (Z.to_nat n) b))
}.

(** [received w] is what was read from it and [serve s] all the peer writes
    once it has read [s]. Writes succeed; a read gives a non-empty part, in
    order, of what the peer wrote. *)
Class StreamSocket (W : Type) {OS : Sys W} (fd : Z) {Ch : Channel W fd} := {
  received : W -> bytes;
  serve : bytes -> bytes;
  write_law : forall b (w : W) n w', b <> [] -> sys_write fd b w = (n, w') ->
    1 <= n /\ received w' = received w;
  read_law : forall n (w : W) rest, 1 <= n -> rest <> [] -> serve (sent w) = received w ++ rest ->
    exists b w', sys_read fd n w = (Some b, w') /\ b <> [] /\ zlen b <= n /\
      b `prefix_of` rest /\ received w' = received w ++ b /\ sent w' = sent w
}.

(** ** Descriptors

    [opened w] are the descriptors that are open. Only [socket] opens one, a
    new one, and only [close] closes one. *)
Class Descriptors (W : Type) {OS : Sys W} := {
  opened : W -> gset Z;
  opened_socket : forall f t p (w : W) s w', sys_socket f t p w = (s, w') ->
    (s = -1 /\ opened w' = opened w) \/
    (0 <= s /\ (s ∉ opened w) /\ opened w' = {[s]} ∪ opened w);
  opened_close : forall fd (w : W), opened (sys_close fd w) = opened w ∖ {[fd]};
  opened_errno : forall e (w : W), opened (set_errno e w) = opened w;
  opened_setsockopt : forall fd l o v (w : W), opened (sys_setsockopt fd l o v w).2 = opened w;
  opened_getfl : forall fd (w : W), opened (sys_getfl fd w).2 = opened w;
  opened_setfl : forall fd v (w : W), opened (sys_setfl fd v w).2 = opened w;
  opened_poll : forall fd n (w : W), opened (sys_poll fd n w).2 = opened w;
  opened_so_error : forall fd (w : W), opened (sys_so_error fd w).2 = opened w;
  opened_getaddrinfo : forall a b f (w : W), opened (sys_getaddrinfo a b f w).2 = opened w;
  opened_freeaddrinfo : forall l (w : W), opened (sys_freeaddrinfo l w) = opened w;
  opened_bind : forall fd a (w : W), opened (sys_bind fd a w).2 = opened w;
  opened_connect : forall fd a (w : W), opened (sys_connect fd a w).2 = opened w
}.
