(* ===== verification/Context.v ===== *)
(** * Context: a connection to a server (hiredis.c)

    [redisContext] with its output buffer and its reader: creation and
    destruction, buffered writes and reads over a descriptor, replies, and the
    functions that append commands. A call of the program threads the context,
    the store of reply objects and the world. *)
From S2P Require Import Prelude Mem Sds SdsFacts Reply Reader Format System.
From stdpp Require Import list list_numbers strings sets gmap.
From Stdlib Require Import ZArith Lia.
Open Scope Z_scope.

(** ** Data (hiredis.h) *)
Definition REDIS_BLOCK : Z := 1.
Definition REDIS_CONNECTED : Z := 2.
Definition REDIS_DISCONNECTING : Z := 4.
Definition REDIS_FREEING : Z := 8.
Definition REDIS_IN_CALLBACK : Z := 16.
Definition REDIS_SUBSCRIBED : Z := 32.
Definition REDIS_MONITORING : Z := 64.
Definition REDIS_REUSEADDR : Z := 128.
Definition REDIS_KEEPALIVE_INTERVAL : Z := 15.
Definition REDIS_CONNECT_RETRIES : Z := 10.

Inductive redisConnectionType : Type :=
  | REDIS_CONN_TCP
  | REDIS_CONN_UNIX.

#[export] Instance redisConnectionType_eq_dec : EqDecision redisConnectionType.
Proof. solve_decision. Defined.

(** The options of a connection that is made over TCP; a string is its
    content, without the terminator. *)
Record tcp_options : Type := mk_tcp {
  host : option bytes;
  source_addr : option bytes;
  port : Z
}.

Record redisContext : Type := mk_context {
  c_err : Z;
  c_errstr : bytes;
  c_fd : Z;
  c_flags : Z;
  c_obuf : option sds;
  c_reader : option (redisReader heap);
  c_connection_type : redisConnectionType;
  c_timeout : option timeval;
  c_tcp : tcp_options;
  c_path : option bytes
}.

Definition set_err c (err : Z) (errstr : bytes) : redisContext :=
  mk_context err errstr (c_fd c) (c_flags c) (c_obuf c) (c_reader c) (c_connection_type c)
    (c_timeout c) (c_tcp c) (c_path c).
Definition set_fd c (fd : Z) : redisContext :=
  mk_context (c_err c) (c_errstr c) fd (c_flags c) (c_obuf c) (c_reader c)
    (c_connection_type c) (c_timeout c) (c_tcp c) (c_path c).
Definition set_flags c (flags : Z) : redisContext :=
  mk_context (c_err c) (c_errstr c) (c_fd c) flags (c_obuf c) (c_reader c)
    (c_connection_type c) (c_timeout c) (c_tcp c) (c_path c).
Definition set_obuf c (obuf : option sds) : redisContext :=
  mk_context (c_err c) (c_errstr c) (c_fd c) (c_flags c) obuf (c_reader c)
    (c_connection_type c) (c_timeout c) (c_tcp c) (c_path c).
Definition set_reader c (r : option (redisReader heap)) : redisContext :=
  mk_context (c_err c) (c_errstr c) (c_fd c) (c_flags c) (c_obuf c) r
    (c_connection_type c) (c_timeout c) (c_tcp c) (c_path c).
Definition set_connection_type c (t : redisConnectionType) : redisContext :=
  mk_context (c_err c) (c_errstr c) (c_fd c) (c_flags c) (c_obuf c) (c_reader c) t
    (c_timeout c) (c_tcp c) (c_path c).
Definition set_timeout c (tv : option timeval) : redisContext :=
  mk_context (c_err c) (c_errstr c) (c_fd c) (c_flags c) (c_obuf c) (c_reader c)
    (c_connection_type c) tv (c_tcp c) (c_path c).
Definition set_tcp c (t : tcp_options) : redisContext :=
  mk_context (c_err c) (c_errstr c) (c_fd c) (c_flags c) (c_obuf c) (c_reader c)
    (c_connection_type c) (c_timeout c) t (c_path c).
Definition set_path c (p : option bytes) : redisContext :=
  mk_context (c_err c) (c_errstr c) (c_fd c) (c_flags c) (c_obuf c) (c_reader c)
    (c_connection_type c) (c_timeout c) (c_tcp c) p.

(** [c->flags & f], [c->flags |= f] and [c->flags &= ~f]. *)
Definition has_flag c (f : Z) : bool := negb (Z.land (c_flags c) f =? 0).
Definition add_flag c (f : Z) : redisContext := set_flags c (Z.lor (c_flags c) f).
Definition clear_flag c (f : Z) : redisContext := set_flags c (Z.ldiff (c_flags c) f).

Section context.
Context {M : Malloc} {HM : HeapMalloc} {W : Type} {OS : Sys W}.
Implicit Types (c : redisContext) (h : heap) (w : W).

(** [sizeof(c->errstr)] is 128; [str = None] is [NULL]. *)
Definition __redisSetError c (type : Z) (str : option bytes) w : result redisContext :=
  match str with
  | Some s => Ok (set_err c type (take 127 s))
  | None =>
      _ ← c_assert (type =? REDIS_ERR_IO);
      Ok (set_err c type (take 127 (strerror (sys_errno w))))
  end.

(** ** Creation and destruction *)
Definition redisReaderCreate : result (option (redisReader heap)) :=
  redisReaderCreateWithFunctions (Some defaultFunctions).

(** What [redisFree] leaves in the store and in the world; the memory of the
    context and of its strings is not tracked. *)
Definition redisFree (c : option redisContext) h w : result (heap * W) :=
  match c with
  | None => Ok (h, w)
  | Some c =>
      let w := if 0 <? c_fd c then sys_close (c_fd c) w else w in
      h ← match c_reader c with
          | Some r => redisReaderFree r h
          | None => Ok h
          end;
      Ok (h, w)
  end.

(** [calloc] clears [fd], [flags] and the options. *)
Definition sizeof_redisContext : Z := 208.
Definition redisContextInit h w : result (option redisContext * heap * W) :=
  if negb (malloc_ok sizeof_redisContext) then Ok (None, h, w) else
  obuf ← sdsempty;
  reader ← redisReaderCreate;
  let c := mk_context 0 [] 0 0 obuf reader REDIS_CONN_TCP None (mk_tcp None None 0) None in
  match obuf, reader with
  | Some _, Some _ => Ok (Some c, h, w)
  | _, _ => '(h, w) ← redisFree (Some c) h w; Ok (None, h, w)
  end.

Definition redisFreeKeepFd c h w : result (Z * heap * W) :=
  let fd := c_fd c in
  '(h, w) ← redisFree (Some (set_fd c (-1))) h w;
  Ok (fd, h, w).

Definition redisConnectFd (fd : Z) h w : result (option redisContext * heap * W) :=
  '(c, h, w) ← redisContextInit h w;
  match c with
  | None => Ok (None, h, w)
  | Some c =>
      let c := set_fd c fd in
      Ok (Some (add_flag c (Z.lor REDIS_BLOCK REDIS_CONNECTED)), h, w)
  end.

(** ** Input and output *)

(** [errno] after a failed call: is it to be tried again later? *)
Definition try_again c w : bool :=
  ((sys_errno w =? EAGAIN) && negb (has_flag c REDIS_BLOCK)) || (sys_errno w =? EINTR).

Definition redisBufferRead c h w : result (Z * redisContext * heap * W) :=
  if negb (c_err c =? 0) then Ok (REDIS_ERR, c, h, w) else
  let '(got, w) := sys_read (c_fd c) (1024 * 16) w in
  match got with
  | None =>
      if try_again c w then Ok (REDIS_OK, c, h, w) else
      c ← __redisSetError c REDIS_ERR_IO None w; Ok (REDIS_ERR, c, h, w)
  | Some [] =>
      c ← __redisSetError c REDIS_ERR_EOF (Some (lit "Server closed the connection")) w;
      Ok (REDIS_ERR, c, h, w)
  | Some buf =>
      r ← deref (c_reader c);
      '(st, r, h) ← redisReaderFeed r h (Some buf) (zlen buf);
      let c := set_reader c (Some r) in
      if negb (st =? REDIS_OK) then
        c ← __redisSetError c (rr_err r) (Some (rr_errstr r)) w; Ok (REDIS_ERR, c, h, w)
      else Ok (REDIS_OK, c, h, w)
  end.

(** The second component is the [int] stored through [done], given when the
    call returns [REDIS_OK]. [write] returns an [ssize_t], kept in an [int]. *)
Definition redisBufferWrite c w : result (Z * option Z * redisContext * W) :=
  if negb (c_err c =? 0) then Ok (REDIS_ERR, None, c, w) else
  obuf ← deref (c_obuf c);
  '(st, c, w) ←
    (if 0 <? sdslen obuf then
       b ← slice (sds_buf obuf) 0 (sdslen obuf);
       let '(n, w) := sys_write (c_fd c) b w in
       let nwritten := s32 n in
       if nwritten =? -1 then
         if try_again c w then Ok (REDIS_OK, c, w) else
         c ← __redisSetError c REDIS_ERR_IO None w; Ok (REDIS_ERR, c, w)
       else if 0 <? nwritten then
         if nwritten =? s32 (sdslen obuf) then
           obuf ← sdsempty; Ok (REDIS_OK, set_obuf c obuf, w)
         else
           obuf ← sdsrange obuf nwritten (-1); Ok (REDIS_OK, set_obuf c (Some obuf), w)
       else Ok (REDIS_OK, c, w)
     else Ok (REDIS_OK, c, w));
  if st =? REDIS_ERR then Ok (REDIS_ERR, None, c, w) else
  obuf ← deref (c_obuf c);
  Ok (REDIS_OK, Some (c_bool (sdslen obuf =? 0)), c, w).

(** The second component is what is stored through [reply]. *)
Definition redisGetReplyFromReader c h w (want : bool) :
    result (Z * option Z * redisContext * heap) :=
  r ← deref (c_reader c);
  '(st, out, r, h) ← redisReaderGetReply r h want;
  let c := set_reader c (Some r) in
  if st =? REDIS_ERR then
    c ← __redisSetError c (rr_err r) (Some (rr_errstr r)) w; Ok (REDIS_ERR, out, c, h)
  else Ok (REDIS_OK, out, c, h).

(** [do ... while (!wdone)]. *)
Fixpoint write_until_done (fuel : nat) c w : result (Z * redisContext * W) :=
  match fuel with
  | O => Fault OutOfFuel
  | S f =>
      '(st, wdone, c, w) ← redisBufferWrite c w;
      if st =? REDIS_ERR then Ok (REDIS_ERR, c, w) else
      if default 0 wdone =? 0 then write_until_done f c w else Ok (REDIS_OK, c, w)
  end.

(** [do ... while (aux == NULL)]. *)
Fixpoint read_until_reply (fuel : nat) c h w : result (Z * Z * redisContext * heap * W) :=
  match fuel with
  | O => Fault OutOfFuel
  | S f =>
      '(st, c, h, w) ← redisBufferRead c h w;
      if st =? REDIS_ERR then Ok (REDIS_ERR, NULL, c, h, w) else
      '(st, aux, c, h) ← redisGetReplyFromReader c h w true;
      if st =? REDIS_ERR then Ok (REDIS_ERR, NULL, c, h, w) else
      if default NULL aux =? NULL then read_until_reply f c h w
      else Ok (REDIS_OK, default NULL aux, c, h, w)
  end.

(** [fuel] bounds the rounds of each loop; how many there are depends on the
    socket. The second component is what is stored through [reply]: nothing
    when the call fails. *)
Definition redisGetReply (fuel : nat) c h w (want : bool) :
    result (Z * option Z * redisContext * heap * W) :=
  '(st, aux, c, h) ← redisGetReplyFromReader c h w true;
  if st =? REDIS_ERR then Ok (REDIS_ERR, None, c, h, w) else
  let aux := default NULL aux in
  '(st, aux, c, h, w) ←
    (if (aux =? NULL) && has_flag c REDIS_BLOCK then
       '(st, c, w) ← write_until_done fuel c w;
       if st =? REDIS_ERR then Ok (REDIS_ERR, aux, c, h, w) else
       read_until_reply fuel c h w
     else Ok (REDIS_OK, aux, c, h, w));
  if st =? REDIS_ERR then Ok (REDIS_ERR, None, c, h, w) else
  Ok (REDIS_OK, if want then Some aux else None, c, h, w).

(** ** Commands *)
Definition __redisAppendCommand c (cmd : bytes) (len : Z) w : result (Z * redisContext) :=
  obuf ← deref (c_obuf c);
  newbuf ← sdscatlen obuf cmd len;
  match newbuf with
  | None =>
      c ← __redisSetError c REDIS_ERR_OOM (Some (lit "Out of memory")) w; Ok (REDIS_ERR, c)
  | Some newbuf => Ok (REDIS_OK, set_obuf c (Some newbuf))
  end.

Definition redisAppendFormattedCommand c (cmd : bytes) (len : Z) w : result (Z * redisContext) :=
  '(st, c) ← __redisAppendCommand c cmd len w;
  if negb (st =? REDIS_OK) then Ok (REDIS_ERR, c) else Ok (REDIS_OK, c).

(** [vformat] is [printf] of one conversion, as in Format.v. *)
Definition redisvAppendCommand (vformat : bytes -> list va -> bytes) c (format : bytes)
    (ap : list va) w : result (Z * redisContext) :=
  '(len, cmd) ← redisvFormatCommand vformat true format ap;
  if len =? -1 then
    c ← __redisSetError c REDIS_ERR_OOM (Some (lit "Out of memory")) w; Ok (REDIS_ERR, c)
  else if len =? -2 then
    c ← __redisSetError c REDIS_ERR_OTHER (Some (lit "Invalid format string")) w;
    Ok (REDIS_ERR, c)
  else
    cmd ← deref cmd;
    '(st, c) ← __redisAppendCommand c cmd (u64 len) w;
    if negb (st =? REDIS_OK) then Ok (REDIS_ERR, c) else Ok (REDIS_OK, c).

Definition redisAppendCommand (vformat : bytes -> list va -> bytes) c (format : bytes)
    (ap : list va) w : result (Z * redisContext) :=
  redisvAppendCommand vformat c format ap w.

Definition redisAppendCommandArgv c (argc : Z) (argv : list bytes) (argvlen : option (list Z)) w :
    result (Z * redisContext) :=
  '(len, cmd) ← redisFormatSdsCommandArgv true argc argv argvlen;
  if len =? -1 then
    c ← __redisSetError c REDIS_ERR_OOM (Some (lit "Out of memory")) w; Ok (REDIS_ERR, c)
  else
    cmd ← deref cmd;
    '(st, c) ← __redisAppendCommand c (sds_buf cmd) (u64 len) w;
    if negb (st =? REDIS_OK) then Ok (REDIS_ERR, c) else Ok (REDIS_OK, c).

(** The reply, or [NULL]. *)
Definition __redisBlockForReply (fuel : nat) c h w : result (Z * redisContext * heap * W) :=
  if has_flag c REDIS_BLOCK then
    '(st, reply, c, h, w) ← redisGetReply fuel c h w true;
    if negb (st =? REDIS_OK) then Ok (NULL, c, h, w) else Ok (default NULL reply, c, h, w)
  else Ok (NULL, c, h, w).

Definition redisvCommand (vformat : bytes -> list va -> bytes) (fuel : nat) c (format : bytes)
    (ap : list va) h w : result (Z * redisContext * heap * W) :=
  '(st, c) ← redisvAppendCommand vformat c format ap w;
  if negb (st =? REDIS_OK) then Ok (NULL, c, h, w) else __redisBlockForReply fuel c h w.

Definition redisCommand (vformat : bytes -> list va -> bytes) (fuel : nat) c (format : bytes)
    (ap : list va) h w : result (Z * redisContext * heap * W) :=
  redisvCommand vformat fuel c format ap h w.

Definition redisCommandArgv (fuel : nat) c (argc : Z) (argv : list bytes)
    (argvlen : option (list Z)) h w : result (Z * redisContext * heap * W) :=
  '(st, c) ← redisAppendCommandArgv c argc argv argvlen w;
  if negb (st =? REDIS_OK) then Ok (NULL, c, h, w) else __redisBlockForReply fuel c h w.
End context.
