(* ===== verification/ContextFacts.v ===== *)
(** * ContextFacts: what the operations of a context do

    Writes against a [Channel], reads and replies against the abstract reader
    of ReaderView.v, and the two loops of [redisGetReply] on a [StreamSocket]:
    a blocking context behaves as a reader that was fed all the peer sends
    ([exchange], [getReply_exchange]). *)
From S2P Require Import Prelude Mem Sds SdsFacts SdsSplit Reply Reader ReaderSpec ReaderView.
From S2P Require Import Streaming Format FormatFacts System Context.
From stdpp Require Import list list_numbers strings sets gmap.
From Stdlib Require Import ZArith Lia.
Open Scope Z_scope.

Section facts.
Context {M : Malloc} {HM : HeapMalloc} {W : Type} {OS : Sys W}.
Implicit Types (c : redisContext) (h : heap) (w : W) (a : areader (H := heap)).

Hypothesis malloc_total : forall n, malloc_ok n = true.

(** [p] waits in the output buffer; the reader stands for [a]. *)
Definition holds p c : Prop := exists s, c_obuf c = Some s /\ sds_is p s.
Definition reads_as a c : Prop := exists r, c_reader c = Some r /\ areader_is a r.

(** ** Writing *)
Section channel.
Context (fd : Z) {Ch : Channel W fd}.

(** What [redisBufferWrite] does with [p] pending. *)
Inductive write_case p c w : result (Z * option Z * redisContext * W) -> Prop :=
  | WriteNothing :
      p = [] -> write_case p c w (Ok (REDIS_OK, Some 1, c, w))
  | WriteSome n w' s' :
      p <> [] -> sys_write fd p w = (n, w') -> 0 <= n <= zlen p ->
      sent w' = sent w ++ take (Z.to_nat n) p -> sds_is (drop (Z.to_nat n) p) s' ->
      write_case p c w
        (Ok (REDIS_OK, Some (c_bool (zlen p - n =? 0)), set_obuf c (Some s'), w'))
  | WriteRetry w' :
      p <> [] -> sys_write fd p w = (-1, w') -> sent w' = sent w -> try_again c w' = true ->
      write_case p c w (Ok (REDIS_OK, Some 0, c, w'))
  | WriteFails w' :
      p <> [] -> sys_write fd p w = (-1, w') -> sent w' = sent w -> try_again c w' = false ->
      write_case p c w (Ok (REDIS_ERR, None,
        set_err c REDIS_ERR_IO (take 127 (strerror (sys_errno w'))), w')).

Lemma bufferWrite_case p c w : c_fd c = fd -> c_err c = 0 -> holds p c -> zlen p < 2 ^ 31 - 1 ->
  write_case p c w (redisBufferWrite c w).
Proof.
  intros Hfd He (s & Hs & Hp) Hlen. unfold redisBufferWrite. rewrite He, Hs, Hfd.
  cbn [Z.eqb negb deref mbind result_bind]. rewrite (sds_is_len _ _ Hp).
  destruct p as [|x p'].
  { bool_false (0 <? zlen (@nil Z)). cbn [mbind result_bind].
    change (REDIS_OK =? REDIS_ERR) with false. cbv iota.
    rewrite Hs. cbn [deref mbind result_bind]. rewrite (sds_is_len _ _ Hp). by apply WriteNothing. }
  set (p := x :: p') in *. assert (p <> []) as Hne by done.
  assert (1 <= zlen p) as Hp1 by (unfold p; cbn [length]; lia).
  bool_true (0 <? zlen p). destruct (sds_is_buf _ _ Hp) as (rest & Hb & _).
  rewrite Hb, slice_prefix by done. cbn [mbind result_bind].
  destruct (channel_law p w Hne) as (n & w' & Hw & Hn). rewrite Hw.
  rewrite (s32_id (zlen p)) by lia.
  destruct Hn as [[-> Hsent]|[Hn Hsent]].
  - change (s32 (-1)) with (-1). cbn [Z.eqb Pos.eqb].
    destruct (try_again c w') eqn:Et; cbn [mbind result_bind].
    + rewrite Hs. cbn. rewrite (sds_is_len _ _ Hp). bool_false (zlen p =? 0). by apply WriteRetry.
    + by apply WriteFails.
  - rewrite s32_id by lia. bool_false (n =? -1). destruct (0 <? n) eqn:E0; bool_to_prop.
    + destruct (n =? zlen p) eqn:En; bool_to_prop.
      * destruct (returns_ok _ _ malloc_total sdsempty_spec) as (s' & -> & Hs').
        cbn [mbind result_bind deref c_obuf set_obuf]. rewrite (sds_is_len _ _ Hs').
        replace (zlen [] =? 0) with (zlen p - n =? 0) by (rewrite En, Z.sub_diag; done).
        apply WriteSome; try done. rewrite drop_ge by lia. done.
      * destruct (sdsrange_spec s p n (-1) Hp) as (s' & -> & Hs'); [lia..|].
        assert (range_spec p n (-1) = drop (Z.to_nat n) p) as Hr.
        { unfold range_spec. cbn [Z.ltb Z.compare]. bool_false (n <? 0).
          replace (Z.min (Z.max 0 (zlen p + -1)) (zlen p - 1)) with (zlen p - 1) by lia.
          rewrite take_ge; [done|]. rewrite length_drop. lia. }
        rewrite Hr in Hs'. cbn [mbind result_bind deref c_obuf set_obuf].
        rewrite (sds_is_len _ _ Hs'), length_drop.
        replace (Z.of_nat _ =? 0) with (zlen p - n =? 0).
        2: { bool_false (zlen p - n =? 0). symmetry. apply Z.eqb_neq. lia. }
        by apply WriteSome.
    + assert (n = 0) as -> by lia. cbn [mbind result_bind]. rewrite Hs.
      cbn [mbind result_bind deref]. rewrite (sds_is_len _ _ Hp).
      replace (zlen p) with (zlen p - 0) at 1 by lia.
      replace (Ok (REDIS_OK, _, c, w')) with (Ok (REDIS_OK, Some (c_bool (zlen p - 0 =? 0)),
        set_obuf c (Some s), w')) by (by rewrite <- Hs; destruct c).
      apply WriteSome; done.
Qed.
End channel.

(** ** Asking the reader *)
Lemma abs_get_ok_live a h q a' h' : alive a -> abs_get a h = Ok (REDIS_OK, q, a', h') ->
  exists k u, a' = Live k u.
Proof.
  destruct a as [k u|k]; cbn; [|by intros _ [= ?]]. intros Hl Ha. inv_ok.
  destruct r; inv_ok; simplify_eq; by eauto.
Qed.

Lemma fromReader_ok c h w r a q a' h' : c_reader c = Some r -> areader_is a r ->
  abs_get a h = Ok (REDIS_OK, q, a', h') -> exists r' k u,
    redisGetReplyFromReader c h w true = Ok (REDIS_OK, Some q, set_reader c (Some r'), h') /\
    a' = Live k u /\ areader_is a' r' /\ rr_len r' <= rr_len r.
Proof.
  intros Hr Ha Hg. unfold redisGetReplyFromReader. rewrite Hr. cbn [deref mbind result_bind].
  pose proof (getReply_spec a r h true Ha) as Hs. rewrite Hg in Hs.
  destruct (abs_get_ok_live _ _ _ _ _ (areader_alive _ _ Ha) Hg) as (k & u & ->).
  destruct Hs as (r' & -> & Ha' & Hl). cbn [mbind result_bind].
  change (REDIS_OK =? REDIS_ERR) with false. by exists r', k, u.
Qed.

Lemma fromReader_err c h w r a q a' h' : c_reader c = Some r -> areader_is a r ->
  abs_get a h = Ok (REDIS_ERR, q, a', h') -> exists k,
    redisGetReplyFromReader c h w true =
      Ok (REDIS_ERR, Some q, set_err (set_reader c (Some k)) (rr_err k) (take 127 (rr_errstr k)), h') /\
    a' = Dead k /\ rr_err k <> 0.
Proof.
  intros Hr Ha Hg. unfold redisGetReplyFromReader. rewrite Hr. cbn [deref mbind result_bind].
  pose proof (getReply_spec a r h true Ha) as Hs. rewrite Hg in Hs.
  destruct (abs_get_dead _ _ _ _ _ _ (areader_alive _ _ Ha) Hg) as (k & -> & _ & He); [done|].
  destruct Hs as (r' & -> & [-> _] & _). cbn [mbind result_bind].
  by exists k.
Qed.

(** ** A stream socket *)
Section stream.
Context (fd : Z) {Ch : Channel W fd} {SS : StreamSocket W fd}.

Lemma holds_set_obuf p c s : sds_is p s -> holds p (set_obuf c (Some s)).
Proof. intros. by exists s. Qed.

(** The first loop sends the output buffer. *)
Lemma write_until_done_sends : forall fuel p c w, c_fd c = fd -> c_err c = 0 -> holds p c ->
  zlen p < 2 ^ 31 - 1 -> (length p < fuel)%nat ->
  exists s w', write_until_done fuel c w = Ok (REDIS_OK, set_obuf c (Some s), w') /\
    sds_is [] s /\ sent w' = sent w ++ p /\ received w' = received w.
Proof.
  induction fuel as [|fuel IH]; intros p c w Hfd He Hp Hlen Hf; [lia|].
  cbn [write_until_done].
  destruct (bufferWrite_case fd p c w Hfd He Hp Hlen)
    as [->|n w' s' Hne Hw Hn Hsent Hs'|w' Hne Hw _ _|w' Hne Hw _ _].
  - destruct Hp as (s & Hs & Hp). exists s, w. cbn. rewrite app_nil_r.
    split_and!; try done. rewrite <- Hs. by destruct c.
  - destruct (write_law p w n w' Hne Hw) as [Hn1 Hr].
    cbn [mbind result_bind default]. change (REDIS_OK =? REDIS_ERR) with false. cbv iota.
    destruct (zlen p - n =? 0) eqn:E; bool_to_prop; cbn [c_bool Z.eqb Pos.eqb].
    + exists s', w'. split; [done|]. rewrite Hsent, !take_ge by lia.
      split_and!; try done. by rewrite drop_ge in Hs' by lia.
    + destruct (IH (drop (Z.to_nat n) p) (set_obuf c (Some s')) w')
        as (s2 & w2 & Hl & H2 & Hs2 & Hr2); try done.
      * by apply holds_set_obuf.
      * rewrite length_drop. lia.
      * rewrite length_drop. lia.
      * exists s2, w2. rewrite Hl. split_and!; try done; [|congruence].
        by rewrite Hs2, Hsent, <- app_assoc, take_drop.
  - by destruct (write_law p w (-1) w' Hne Hw).
  - by destruct (write_law p w (-1) w' Hne Hw).
Qed.

(** One read feeds the reader a part of what is to come. *)
Lemma bufferRead_feeds c h w k unread r rest : c_fd c = fd -> c_err c = 0 ->
  c_reader c = Some r -> areader_is (Live k unread) r -> serve (sent w) = received w ++ rest ->
  rest <> [] -> rr_len r + zlen rest < 2 ^ 31 - 1 ->
  exists b rest' r' w', redisBufferRead c h w = Ok (REDIS_OK, set_reader c (Some r'), h, w') /\
    b <> [] /\ rest = b ++ rest' /\ areader_is (Live k (unread ++ b)) r' /\
    rr_len r' = rr_len r + zlen b /\ received w' = received w ++ b /\ sent w' = sent w.
Proof.
  intros Hfd He Hr Ha Hserve Hne Hroom. unfold redisBufferRead. rewrite He, Hfd. cbn [Z.eqb negb].
  destruct (read_law (1024 * 16) w rest ltac:(lia) Hne Hserve)
    as (b & w' & Hrd & Hb & Hbl & [rest' ->] & Hrc & Hst).
  rewrite Hrd. destruct b as [|x b']; [done|]. set (b := x :: b') in *.
  assert (1 <= zlen b) as Hb1 by (unfold b; cbn [length]; lia).
  rewrite length_app in Hroom. rewrite Hr. cbn [deref mbind result_bind].
  destruct (feed_live k unread r h b [] malloc_total Ha Hb1) as (r' & Hf & Ha' & Hl).
  { unfold room. lia. }
  rewrite app_nil_r in Hf. rewrite Hf. cbn [mbind result_bind]. 
  exists b, rest', r', w'. by split_and!.
Qed.

(** The state of an exchange in which the peer is sent [T] in all: [p] of it
    waits in the buffer, the reader stands for [a] and [rest] is still to come.
    [N] bounds what is left to write and to read, [L] the input the reader will
    have kept. *)
Record exchange (N : nat) (L : Z) (T p : bytes) a (rest : bytes) c w : Prop := {
  ex_fd : c_fd c = fd;
  ex_err : c_err c = 0;
  ex_block : has_flag c REDIS_BLOCK = true;
  ex_out : holds p c /\ T = sent w ++ p /\ zlen p < 2 ^ 31 - 1 /\ (length p < N)%nat;
  ex_in : serve T = received w ++ rest /\ (length rest < N)%nat;
  ex_reader : exists r, c_reader c = Some r /\ areader_is a r /\ rr_len r + zlen rest <= L
}.

Lemma abs_feed_nil a : abs_feed a [] = a.
Proof. destruct a; cbn; by rewrite ?app_nil_r. Qed.

(** The second loop ends with the reply that the whole answer of the peer
    gives. *)
Lemma read_until_reply_gets L : L < 2 ^ 31 - 1 -> forall fuel c h w k u r rest q A' h',
  c_fd c = fd -> c_err c = 0 -> c_reader c = Some r -> areader_is (Live k u) r ->
  serve (sent w) = received w ++ rest -> rr_len r + zlen rest <= L ->
  (length rest < fuel)%nat ->
  (exists A h', abs_get (Live k u) h = Ok (REDIS_OK, NULL, A, h')) ->
  abs_get (Live k (u ++ rest)) h = Ok (REDIS_OK, q, A', h') -> q <> NULL ->
  exists a' r' rest' w',
    read_until_reply fuel c h w = Ok (REDIS_OK, q, set_reader c (Some r'), h', w') /\
    areader_is a' r' /\ A' = abs_feed a' rest' /\ serve (sent w') = received w' ++ rest' /\
    sent w' = sent w /\ rr_len r' + zlen rest' <= L /\
    (length rest' <= length rest)%nat.
Proof.
  intros HL. induction fuel as [|fuel IH]; intros c h w k u r rest q A' h' Hfd He Hr Ha Hserve Hroom Hf
    (A0 & h0 & Hidle) Hget Hq; [lia|].
  destruct (decide (rest = [])) as [->|Hne].
  { rewrite app_nil_r, Hidle in Hget. congruence. }
  destruct (bufferRead_feeds c h w k u r rest) as
    (b & rest' & r1 & w1 & Hrd & Hb & -> & Ha1 & Hl1 & Hrc & Hst);
    [done..|lia|].
  cbn [read_until_reply]. rewrite Hrd. cbn [mbind result_bind].
  change (REDIS_OK =? REDIS_ERR) with false. cbv iota.
  rewrite length_app in Hf, Hroom. rewrite app_assoc in Hget. rewrite <- Hst in Hserve.
  rewrite app_assoc, <- Hrc in Hserve.
  change (Live k ((u ++ b) ++ rest')) with (abs_feed (Live k (u ++ b)) rest') in Hget.
  pose proof (areader_alive _ _ Ha1) as Hal.
  destruct (abs_get (Live k (u ++ b)) h) as [[[[st q1] a1] h1]|f] eqn:Eg.
  2: { rewrite (abs_get_fault _ rest' _ _ Hal Eg) in Hget. done. }
  rewrite (abs_get_feed _ rest' _ _ _ _ _ Hal Eg) in Hget.
  destruct (decide (st = REDIS_OK)) as [->|Hst1].
  2: { rewrite (proj2 (Z.eqb_neq st REDIS_OK) Hst1) in Hget. cbn [andb] in Hget. congruence. }
  destruct (fromReader_ok (set_reader c (Some r1)) h w1 r1 _ _ _ _ eq_refl Ha1 Eg)
    as (r2 & k2 & u2 & -> & -> & Ha2 & Hl2). cbn [mbind result_bind default id].
  change (REDIS_OK =? REDIS_ERR) with false. change (REDIS_OK =? REDIS_OK) with true in Hget.
  cbv iota. assert (rr_len r2 + zlen rest' <= L) as Hroom' by lia.
  destruct (q1 =? NULL) eqn:Eq; bool_to_prop; cbn [andb] in Hget.
  - subst q1. destruct (IH (set_reader c (Some r2)) h1 w1 k2 u2 r2 rest' q A' h')
      as (a' & r' & rest2 & w' & Hrun & HA & HA' & Hs & Hs' & Hr' & Hle); try done.
    + destruct b; [done|]. cbn [length] in Hf. lia.
    + pose proof (abs_get_feed _ [] _ _ _ _ _ Hal Eg) as Hi.
      rewrite !abs_feed_nil, Eg in Hi. by exists (Live k2 u2), h1.
    + exists a', r', rest2, w'. split_and!; try done; [congruence|].
      rewrite length_app. lia.
  - simplify_eq. exists (Live k2 u2), r2, rest', w1. split_and!; try done.
    rewrite length_app. lia.
Qed.

(** A blocking [redisGetReply] returns what the reader would return, had it been
    fed the whole answer of the peer. *)
Lemma getReply_exchange N L T p a rest c h w want q A' h' : L < 2 ^ 31 - 1 ->
  exchange N L T p a rest c w ->
  abs_get (abs_feed a rest) h = Ok (REDIS_OK, q, A', h') -> q <> NULL ->
  exists c' w' p' a' rest', redisGetReply N c h w want =
      Ok (REDIS_OK, if want then Some q else None, c', h', w') /\
    exchange N L T p' a' rest' c' w' /\ A' = abs_feed a' rest' /\
    (p = [] \/ (exists A h1, abs_get a h = Ok (REDIS_OK, NULL, A, h1)) -> p' = []).
Proof.
  intros HL [Hfd He Hb (Hp & HT & Hpl & HN) (Hs & HN') (r & Hr & Ha & Hrl)] Hget Hq.
  pose proof (areader_alive _ _ Ha) as Hal. unfold redisGetReply.
  destruct (abs_get a h) as [[[[st q1] a1] h1]|f] eqn:Eg.
  2: { by rewrite (abs_get_fault _ rest _ _ Hal Eg) in Hget. }
  rewrite (abs_get_feed _ rest _ _ _ _ _ Hal Eg) in Hget.
  destruct (decide (st = REDIS_OK)) as [->|Hst].
  2: { rewrite (proj2 (Z.eqb_neq st REDIS_OK) Hst) in Hget. cbn [andb] in Hget. congruence. }
  destruct (fromReader_ok c h w r _ _ _ _ Hr Ha Eg) as (r1 & k1 & u1 & -> & -> & Ha1 & Hl1).
  cbn [mbind result_bind default id]. change (REDIS_OK =? REDIS_ERR) with false.
  change (REDIS_OK =? REDIS_OK) with true in Hget. cbn [andb] in Hget. cbv iota.
  change (has_flag (set_reader c (Some r1)) REDIS_BLOCK) with (has_flag c REDIS_BLOCK). rewrite Hb.
  destruct (q1 =? NULL) eqn:Eq; bool_to_prop; cbn [andb].
  - subst q1.
    destruct (write_until_done_sends N p (set_reader c (Some r1)) w)
      as (s & w1 & -> & Hs1 & Hsent & Hrc); try done. cbn [mbind result_bind].
    change (REDIS_OK =? REDIS_ERR) with false. cbv iota.
    destruct (read_until_reply_gets L HL N (set_obuf (set_reader c (Some r1)) (Some s)) h1 w1 k1 u1 r1
      rest q A' h') as (a' & r' & rest' & w' & -> & Ha' & HA' & Hserve & Hst & Hlen & Hle); try done.
    + rewrite Hsent, <- HT, Hrc. done.
    + lia.
    + pose proof (abs_get_feed _ [] _ _ _ _ _ Hal Eg) as Hi.
      rewrite !abs_feed_nil, Eg in Hi. by exists (Live k1 u1), h1.
    + cbn [mbind result_bind]. eexists _, w', [], a', rest'. split; [done|].
      split_and!; try done. split; try done; cbn [length].
      * split_and!; [by exists s|by rewrite app_nil_r, Hst, Hsent|lia..].
      * rewrite HT, <- Hsent, <- Hst. split; [done|lia].
      * by exists r'.
  - simplify_eq. change (REDIS_OK =? REDIS_ERR) with false. cbn [mbind result_bind].
    change (REDIS_OK =? REDIS_ERR) with false.
    eexists _, w, p, (Live k1 u1), rest. split; [done|]. split_and!; try done.
    + split; try done. exists r1. split_and!; try done. lia.
    + intros [Hp0|(A & h1 & ?)]; [done|congruence].
Qed.

(** A command goes to the end of what waits, and the peer will answer it. *)
Lemma append_holds c cmd r p w : holds p c -> zlen p + zlen cmd < 2 ^ 62 -> exists s,
  __redisAppendCommand c (cmd ++ r) (zlen cmd) w = Ok (REDIS_OK, set_obuf c (Some s)) /\
  sds_is (p ++ cmd) s.
Proof.
  intros (s & Hs & Hp) Hlen. unfold __redisAppendCommand. rewrite Hs. cbn [deref mbind result_bind].
  destruct (returns_ok _ _ malloc_total (sdscatlen_spec s p cmd r Hp Hlen)) as (s' & -> & Hs').
  by exists s'.
Qed.

Lemma appendArgv_holds c ds argv argvlen p w : holds p c -> args_are ds argv argvlen ->
  zlen (command ds) < INT_MAX -> zlen p < 2 ^ 31 -> exists s,
  redisAppendCommandArgv c (zlen ds) argv argvlen w = Ok (REDIS_OK, set_obuf c (Some s)) /\
  sds_is (p ++ command ds) s.
Proof.
  intros Hp Ha Hlen Hpl. unfold redisAppendCommandArgv.
  pose proof (sds_argv_spec ds argv argvlen Ha Hlen) as Hf.
  destruct (redisFormatSdsCommandArgv true (zlen ds) argv argvlen) as [[len [cmd|]]|e].
  2: { destruct Hf as (_ & n & Hn). by rewrite malloc_total in Hn. }
  2: { destruct Hf as (_ & n & Hn). by rewrite malloc_total in Hn. }
  destruct Hf as [-> Hcmd]. unfold INT_MAX in Hlen. cbn [mbind result_bind].
  bool_false (zlen (command ds) =? -1). cbn [deref mbind result_bind].
  rewrite u64_id by lia. destruct (sds_is_buf _ _ Hcmd) as (r & -> & _).
  destruct (append_holds c (command ds) (0 :: r) p w Hp ltac:(lia)) as (s & -> & Hs).
  cbn [mbind result_bind]. by exists s.
Qed.

Lemma append_exchange N L T p a rest c w s d rest' : exchange N L T p a rest c w ->
  sds_is (p ++ d) s -> serve (T ++ d) = serve T ++ rest' ->
  zlen (p ++ d) < 2 ^ 31 - 1 -> (length (p ++ d) < N)%nat -> (length (rest ++ rest') < N)%nat ->
  exchange N (L + zlen rest') (T ++ d) (p ++ d) a (rest ++ rest') (set_obuf c (Some s)) w.
Proof.
  intros [Hfd He Hb (Hp & HT & Hpl & HN) (Hs & HN') (r & Hr & Ha & Hrl)] Hsd Hserve H1 H2 H3.
  split; try done.
  - split_and!; try done; [by exists s|]. by rewrite HT, app_assoc.
  - by rewrite Hserve, Hs, app_assoc.
  - exists r. split_and!; try done. rewrite length_app. lia.
Qed.

(** A new context on a connected descriptor. *)
Lemma connectFd_new h w : exists s r, redisConnectFd fd h w =
    Ok (Some (mk_context 0 [] fd (Z.lor REDIS_BLOCK REDIS_CONNECTED) (Some s) (Some r)
          REDIS_CONN_TCP None (mk_tcp None None 0) None), h, w) /\
  sds_is [] s /\ redisReaderCreate = Ok (Some r) /\
  areader_is (Live (new_core (Some defaultFunctions)) []) r /\ rr_len r = 0.
Proof.
  unfold redisConnectFd, redisContextInit. rewrite malloc_total. cbn [negb].
  destruct (returns_ok _ _ malloc_total sdsempty_spec) as (s & -> & Hs).
  destruct (create_live (Some defaultFunctions) malloc_total) as (r & Hc & Hr & Hl).
  unfold redisReaderCreate. rewrite Hc. by exists s, r.
Qed.
End stream.
End facts.
