(* ===== verification/Peer.v ===== *)
(** * Peer: a world with a connected peer, for the instances

    A concrete [Sys]: descriptor 3 is connected to a peer that answers with
    [srv]; a write takes at most five bytes and a read gives at most three. A
    connection is in progress when [connect] returns. *)
From S2P Require Import Prelude Mem System.
From stdpp Require Import list list_numbers strings sets gmap.
From Stdlib Require Import ZArith Lia.
Open Scope Z_scope.

Record peer : Type := mk_peer {
  p_errno : Z;
  p_sent : bytes;
  p_received : bytes;
  p_open : bool
}.

Section peer.
Context (srv : bytes -> bytes).

Definition peer_write (b : bytes) (w : peer) : Z * peer :=
  let b := take 5 b in
  (zlen b, mk_peer (p_errno w) (p_sent w ++ b) (p_received w) (p_open w)).

Definition peer_read (n : Z) (w : peer) : option bytes * peer :=
  let rest := drop (length (p_received w)) (srv (p_sent w)) in
  let b := take (Z.to_nat (Z.min n 3)) rest in
  (Some b, mk_peer (p_errno w) (p_sent w) (p_received w ++ b) (p_open w)).

Definition peer_sys : Sys peer := {|
  sys_errno := p_errno;
  set_errno e w := mk_peer e (p_sent w) (p_received w) (p_open w);
  strerror _ := lit "error";
  gai_strerror _ := lit "error";
  sys_read _ n w := peer_read n w;
  sys_write _ b w := peer_write b w;
  sys_close fd w := mk_peer (p_errno w) (p_sent w) (p_received w) (negb (fd =? 3) && p_open w);
  sys_socket _ _ _ w :=
    if p_open w then (-1, w) else (3, mk_peer (p_errno w) (p_sent w) (p_received w) true);
  sys_setsockopt _ _ _ _ w := (0, w);
  sys_getfl _ w := (0, w);
  sys_setfl _ _ w := (0, w);
  sys_poll _ _ w := (1, w);
  sys_so_error _ w := (Some 0, w);
  sys_getaddrinfo _ _ f w := (0, [mk_addrinfo f SOCK_STREAM IPPROTO_TCP [127; 0; 0; 1]], w);
  sys_freeaddrinfo _ w := w;
  sys_bind _ _ w := (0, w);
  sys_connect _ _ w := (-1, mk_peer EINPROGRESS (p_sent w) (p_received w) (p_open w))
|}.

Definition peer_channel : Channel (OS := peer_sys) peer 3.
Proof.
  refine {| sent := p_sent : peer -> bytes |}.
  intros b w Hb. eexists _, _. split; [done|]. right. cbn. rewrite length_take.
  split; [lia|]. rewrite Nat2Z.id. f_equal.
  destruct (le_lt_dec 5 (length b)).
  - by rewrite Nat.min_l by lia.
  - by rewrite Nat.min_r, !take_ge by lia.
Defined.

Definition peer_socket : StreamSocket (OS := peer_sys) peer 3 (Ch := peer_channel).
Proof.
  refine (@Build_StreamSocket _ peer_sys 3 peer_channel p_received srv _ _).
  - intros b w n w' Hb [= <- <-]. split; [|done]. rewrite length_take.
    destruct b; [done|]. cbn [length]. lia.
  - intros n w rest Hn Hne Hs. eexists _, _. split; [done|].
    change (sent w) with (p_sent w) in Hs. rewrite Hs, drop_app_length.
    split_and!; try done.
    + destruct rest; [done|]. destruct (Z.to_nat (Z.min n 3)) eqn:E; [lia|done].
    + rewrite length_take. lia.
    + apply prefix_take.
Defined.

Definition peer_descriptors : Descriptors (OS := peer_sys) peer.
Proof.
  refine {| opened w := if p_open w then {[3]} else ∅ : gset Z |}; try done.
  - intros f t p w s w' Hs. cbn in Hs. destruct w as [e o i []]; injection Hs as <- <-; [by left|right].
    cbn. split_and!; [done|apply not_elem_of_empty|]. by rewrite union_empty_r_L.
  - intros fd w. cbn. destruct (Z.eqb_spec fd 3) as [->|Hne], (p_open w); cbn; apply leibniz_equiv; set_solver.
Defined.
End peer.

(** The descriptor is open, or it is not. *)
Definition new_peer : peer := mk_peer 0 [] [] true.
Definition idle_peer : peer := mk_peer 0 [] [] false.

(** ** A kernel with descriptors

    [socket] gives the descriptors 3, 4, ... unless they are taken; [connect]
    fails with [connect_errno] when that is not 0; the resolver knows one
    address, or none. *)
Record kernel : Type := mk_kernel {
  k_errno : Z;
  k_open : gset Z;
  k_next : Z
}.

Section kernel.
Context (connect_errno : Z) (resolves : bool).

Definition kernel_socket (w : kernel) : Z * kernel :=
  if decide (k_next w ∈ k_open w) then (-1, w)
  else if k_next w <? 0 then (-1, w)
  else (k_next w, mk_kernel (k_errno w) ({[k_next w]} ∪ k_open w) (k_next w + 1)).

Definition kernel_sys : Sys kernel := {|
  sys_errno := k_errno;
  set_errno e w := mk_kernel e (k_open w) (k_next w);
  strerror _ := lit "error";
  gai_strerror _ := lit "unknown host";
  sys_read _ _ w := (None, w);
  sys_write _ _ w := (-1, w);
  sys_close fd w := mk_kernel (k_errno w) (k_open w ∖ {[fd]}) (k_next w);
  sys_socket _ _ _ w := kernel_socket w;
  sys_setsockopt _ _ _ _ w := (0, w);
  sys_getfl _ w := (0, w);
  sys_setfl _ _ w := (0, w);
  sys_poll _ _ w := (1, w);
  sys_so_error _ w := (Some 0, w);
  sys_getaddrinfo _ _ f w :=
    if resolves then (0, [mk_addrinfo f SOCK_STREAM IPPROTO_TCP [127; 0; 0; 1]], w) else (-2, [], w);
  sys_freeaddrinfo _ w := w;
  sys_bind _ _ w := (0, w);
  sys_connect _ _ w :=
    if connect_errno =? 0 then (0, w)
    else (-1, mk_kernel connect_errno (k_open w) (k_next w))
|}.

Definition kernel_descriptors : Descriptors (OS := kernel_sys) kernel.
Proof.
  refine {| opened := k_open : kernel -> gset Z |}; try done.
  - intros f t p w s w' Hs. cbn in Hs. unfold kernel_socket in Hs.
    destruct (decide _) as [Hd|Hd]; [injection Hs as <- <-; by left|].
    destruct (k_next w <? 0) eqn:E; injection Hs as <- <-; [by left|right].
    apply Z.ltb_ge in E. by split_and!.
  - intros. cbn. by destruct resolves.
  - intros. cbn. by destruct (connect_errno =? 0).
Defined.
End kernel.

(** A process that has its three standard descriptors. *)
Definition new_kernel : kernel := mk_kernel 0 {[0; 1; 2]} 3.
