(* ===== verification/ContextCorrect.v ===== *)
(** * ContextCorrect: what a connection guarantees

    Commands and replies over a [StreamSocket], and the order of what is sent
    over any [Channel]. *)
From S2P Require Import Prelude Mem Sds SdsFacts SdsText SdsSplit Reply Reader ReaderSpec ReaderView.
From S2P Require Import ReaderStream Streaming ReplyTree ReaderDefault Resp Session ReaderCorrect.
From S2P Require Import Format FormatFacts System Context ContextFacts Peer.
From stdpp Require Import list list_numbers strings sets gmap.
From Stdlib Require Import ZArith Lia.
Open Scope Z_scope.

(** ** Clients *)
Section clients.
Context {M : Malloc} {HM : HeapMalloc} {W : Type} {OS : Sys W}.

(** The arguments of a command, as the program passes them. *)
Definition command_args : Type := list bytes * option (list Z).
Definition call_is (ds : list bytes) (cmd : command_args) : Prop :=
  args_are ds cmd.1 cmd.2 /\ zlen cmd.1 = zlen ds /\ zlen (command ds) < INT_MAX.

(** A pipeline: append commands, then ask for [n] replies. *)
Fixpoint append_all c (cmds : list command_args) (w : W) : result (Z * redisContext) :=
  match cmds with
  | [] => Ok (REDIS_OK, c)
  | (argv, argvlen) :: cmds =>
      '(st, c) ← redisAppendCommandArgv c (zlen argv) argv argvlen w;
      if st =? REDIS_OK then append_all c cmds w else Ok (st, c)
  end.

Fixpoint get_replies (N n : nat) c h (w : W) : result (list Z * Z * redisContext * heap * W) :=
  match n with
  | O => Ok ([], REDIS_OK, c, h, w)
  | S n =>
      '(st, p, c, h, w) ← redisGetReply N c h w true;
      if st =? REDIS_OK then
        '(ps, st, c, h, w) ← get_replies N n c h w; Ok (default NULL p :: ps, st, c, h, w)
      else Ok ([], st, c, h, w)
  end.

(** Request and response: one [redisCommandArgv] after the other. *)
Fixpoint run_commands (N : nat) c (cmds : list command_args) h (w : W) :
    result (list Z * redisContext * heap * W) :=
  match cmds with
  | [] => Ok ([], c, h, w)
  | (argv, argvlen) :: cmds =>
      '(p, c, h, w) ← redisCommandArgv N c (zlen argv) argv argvlen h w;
      '(ps, c, h, w) ← run_commands N c cmds h w;
      Ok (p :: ps, c, h, w)
  end.

(** What a client that does not block does with the output: append bytes, or
    write when the socket is ready. *)
Inductive out_op : Type :=
  | Append (d : bytes)
  | Flush.

Definition appended (op : out_op) : bytes :=
  match op with Append d => d | Flush => [] end.

Fixpoint run_out c (ops : list out_op) (w : W) : result (redisContext * W) :=
  match ops with
  | [] => Ok (c, w)
  | Append d :: ops =>
      '(_, c) ← redisAppendFormattedCommand c d (zlen d) w; run_out c ops w
  | Flush :: ops =>
      '(_, _, c, w) ← redisBufferWrite c w; run_out c ops w
  end.

(** ** Lemmas *)
Hypothesis malloc_total : forall n, malloc_ok n = true.

Lemma append_all_holds dss : forall cmds c p (w : W), holds p c -> Forall2 call_is dss cmds ->
  zlen p + zlen (flat_map command dss) < 2 ^ 31 -> exists s,
  append_all c cmds w = Ok (REDIS_OK, set_obuf c (Some s)) /\ sds_is (p ++ flat_map command dss) s.
Proof.
  induction dss as [|ds dss IH]; intros cmds c p w Hp Hc Hlen.
  - apply Forall2_nil_inv_l in Hc as ->. destruct Hp as (s & Hs & Hp). exists s.
    cbn. rewrite app_nil_r, <- Hs. by destruct c.
  - apply Forall2_cons_inv_l in Hc as ([argv argvlen] & cmds' & (Ha & Hn & Hl) & Hc & ->).
    cbn [fst snd] in *. cbn [flat_map append_all] in *. rewrite length_app in Hlen. rewrite Hn.
    destruct (appendArgv_holds malloc_total c ds argv argvlen p w Hp Ha Hl ltac:(lia))
      as (s & -> & Hs). cbn [mbind result_bind]. change (REDIS_OK =? REDIS_OK) with true.
    destruct (IH cmds' (set_obuf c (Some s)) (p ++ command ds) w) as (s' & -> & Hs').
    + by exists s.
    + done.
    + rewrite length_app. lia.
    + exists s'. rewrite app_assoc. done.
Qed.

Section socket.
Context (fd : Z) {Ch : Channel W fd} {SS : StreamSocket W fd}.
Hypothesis heap_total : forall n size, heap_ok n size = true.

(** What one reply does to an exchange. *)
Lemma exchange_value N L T p a rest c h (w : W) k v A F : L < 2 ^ 31 - 1 ->
  exchange fd N L T p a rest c w -> abs_feed a rest = Live k (resp_encode v ++ A) -> live k ->
  parsing k (-1) [] h F -> sendable v -> (depth v <= 8)%nat ->
  exists t k' c' h' w' p' a' rest',
    redisGetReply N c h w true = Ok (REDIS_OK, Some (ptr t), c', h', w') /\
    exchange fd N L T p' a' rest' c' w' /\ abs_feed a' rest' = Live k' A /\ live k' /\
    parsing k' (-1) [] h' (list_to_map (cells_of t) ∪ F) /\ tree_val t v /\
    heap_rep h' (cells_of t) F /\ ptr t <> NULL /\
    (p = [] \/ a = Live k [] -> p' = []).
Proof.
  intros HL He Ha Hl Hk Hv Hd.
  destruct (get_value heap_total k h F v A Hl Hk Hv Hd)
    as (t & k' & h' & Hg & Hnn & Ht & Hh & Hl' & Hk'). rewrite <- Ha in Hg.
  destruct (getReply_exchange malloc_total fd _ _ _ _ _ _ _ _ _ true _ _ _ HL He Hg Hnn)
    as (c' & w' & p' & a' & rest' & Hr & He' & HA & Hp).
  exists t, k', c', h', w', p', a', rest'. split_and!; try done. intros Hc. apply Hp.
  destruct Hc as [?| ->]; [by left|right]. exists (Live k []), h.
  cbn [abs_get]. pose proof (live_ridx _ Hl). rewrite abs_parse_step by apply Hl. if_true.
  by rewrite (live_idle _ Hl).
Qed.

Lemma get_replies_exchange N L T vs : L < 2 ^ 31 - 1 -> forall p a rest c h (w : W) k F,
  exchange fd N L T p a rest c w -> abs_feed a rest = Live k (flat_map resp_encode vs) -> live k ->
  parsing k (-1) [] h F -> Forall sendable vs -> Forall (fun v => depth v <= 8)%nat vs ->
  exists ts c' h' w' p' a' rest',
    get_replies N (length vs) c h w = Ok (ptr <$> ts, REDIS_OK, c', h', w') /\
    exchange fd N L T p' a' rest' c' w' /\ Forall2 tree_val ts vs /\
    heap_rep h' (flat_map cells_of ts) F /\
    (p = [] \/ (vs <> [] /\ a = Live k []) -> p' = []).
Proof.
  intros HL. induction vs as [|v vs IH]; intros p a rest c h w k F He Ha Hl Hk Hvs Hd.
  - exists [], c, h, w, p, a, rest. split_and!; try done; [apply Hk|]. by intros [?|[? _]].
  - apply Forall_cons in Hvs as [Hv Hvs]. apply Forall_cons in Hd as [Hdv Hd].
    cbn [flat_map] in Ha.
    destruct (exchange_value _ _ _ _ _ _ _ _ _ _ _ _ _ HL He Ha Hl Hk Hv Hdv)
      as (t & k1 & c1 & h1 & w1 & p1 & a1 & rest1 & Hg & He1 & Ha1 & Hl1 & Hk1 & Ht & Hh & _ & Hp).
    destruct (IH p1 a1 rest1 c1 h1 w1 k1 _ He1 Ha1 Hl1 Hk1 Hvs Hd)
      as (ts & c' & h' & w' & p' & a' & rest' & Hr & He' & Hts & Hh' & Hp').
    exists (t :: ts), c', h', w', p', a', rest'. split_and!; try done.
    + cbn [length get_replies]. rewrite Hg. cbn [mbind result_bind].
      change (REDIS_OK =? REDIS_OK) with true. cbv iota. by rewrite Hr.
    + by constructor.
    + cbn [flat_map]. rewrite (Permutation_app_comm (cells_of t)). by eapply heap_rep_take.
    + intros Hc. apply Hp'. left. apply Hp. destruct Hc as [?|[_ ?]]; auto.
Qed.

(** The peer answers each command with a value, when it has read it. *)
Fixpoint answers (T : bytes) (dss : list (list bytes)) (vs : list resp) : Prop :=
  match dss, vs with
  | [], [] => True
  | ds :: dss, v :: vs =>
      serve (T ++ command ds) = serve T ++ resp_encode v /\ answers (T ++ command ds) dss vs
  | _, _ => False
  end.

Lemma command_exchange N L T ds cmd c h (w : W) k v F :
  exchange fd N L T [] (Live k []) [] c w -> live k -> parsing k (-1) [] h F -> call_is ds cmd ->
  serve (T ++ command ds) = serve T ++ resp_encode v -> sendable v -> (depth v <= 8)%nat ->
  L + zlen (resp_encode v) < 2 ^ 31 - 1 ->
  (length (command ds) < N)%nat -> (length (resp_encode v) < N)%nat ->
  exists t k' c' h' w',
    redisCommandArgv N c (zlen cmd.1) cmd.1 cmd.2 h w = Ok (ptr t, c', h', w') /\
    exchange fd N (L + zlen (resp_encode v)) (T ++ command ds) [] (Live k' []) [] c' w' /\
    live k' /\ parsing k' (-1) [] h' (list_to_map (cells_of t) ∪ F) /\ tree_val t v /\
    heap_rep h' (cells_of t) F.
Proof.
  intros He Hl Hk (Ha & Hn & Hlen) Hserve Hv Hd HL HN1 HN2. unfold redisCommandArgv. rewrite Hn.
  destruct (appendArgv_holds malloc_total c ds cmd.1 cmd.2 [] w) as (s & -> & Hs);
    [apply He|done|done|cbn; lia|]. cbn [mbind result_bind].
  change (REDIS_OK =? REDIS_OK) with true. cbn [negb]. unfold INT_MAX in Hlen.
  pose proof (append_exchange fd N L T [] _ [] c w s (command ds) (resp_encode v) He Hs Hserve
    Hlen HN1 HN2) as He'. cbn [app] in He'.
  unfold __redisBlockForReply. pose proof (ex_block _ _ _ _ _ _ _ _ _ He') as Hb. rewrite Hb.
  destruct (exchange_value N _ _ _ _ _ _ h w k v [] F HL He' ltac:(cbn; by rewrite app_nil_r)
    Hl Hk Hv Hd) as (t & k' & c' & h' & w' & p' & a' & rest' & Hg & He2 & Ha2 & Hl' & Hk' & Ht &
    Hh & _ & Hp). rewrite Hg. cbn [mbind result_bind default id].
  change (REDIS_OK =? REDIS_OK) with true. cbn [negb].
  rewrite Hp in He2 by auto. destruct a' as [k2 u|k2]; [|done]. cbn [abs_feed] in Ha2.
  injection Ha2 as -> Hu. apply app_nil in Hu as [-> ->].
  by exists t, k', c', h', w'.
Qed.

Lemma commands_exchange N dss : forall L T vs cmds c h (w : W) k F,
  exchange fd N L T [] (Live k []) [] c w -> live k -> parsing k (-1) [] h F ->
  Forall2 call_is dss cmds -> answers T dss vs -> Forall sendable vs ->
  Forall (fun v => depth v <= 8)%nat vs -> L + zlen (flat_map resp_encode vs) < 2 ^ 31 - 1 ->
  Forall (fun ds => length (command ds) < N)%nat dss ->
  (length (flat_map resp_encode vs) < N)%nat ->
  exists ts c' h' w',
    run_commands N c cmds h w = Ok (ptr <$> ts, c', h', w') /\ Forall2 tree_val ts vs /\
    heap_rep h' (flat_map cells_of ts) F /\ sent w' = T ++ flat_map command dss.
Proof.
  induction dss as [|ds dss IH]; intros L T [|v vs] cmds c h w k F He Hl Hk Hc Hans Hvs Hd HL HNd HNv;
    try done.
  - apply Forall2_nil_inv_l in Hc as ->. exists [], c, h, w. split_and!; try done; [apply Hk|].
    destruct He as [_ _ _ (_ & HT & _) _ _]. cbn. by rewrite HT, !app_nil_r.
  - apply Forall2_cons_inv_l in Hc as ([argv argvlen] & cmds' & Hcall & Hc & ->).
    destruct Hans as [Hs Hans]. apply Forall_cons in Hvs as [Hv Hvs].
    apply Forall_cons in Hd as [Hdv Hd]. apply Forall_cons in HNd as [HNd1 HNd].
    cbn [flat_map] in *. rewrite length_app in HL, HNv.
    destruct (command_exchange N L T ds _ c h w k v F He Hl Hk Hcall Hs Hv Hdv)
      as (t & k1 & c1 & h1 & w1 & Hg & He1 & Hl1 & Hk1 & Ht & Hh); [lia..|].
    destruct (IH _ _ vs cmds' c1 h1 w1 k1 _ He1 Hl1 Hk1 Hc Hans Hvs Hd)
      as (ts & c' & h' & w' & Hr & Hts & Hh' & Hsent); [lia|done|lia|].
    exists (t :: ts), c', h', w'. cbn [fst snd run_commands] in *. rewrite Hg.
    cbn [mbind result_bind]. rewrite Hr. split_and!; try done; [by constructor|..].
    + cbn [flat_map]. rewrite (Permutation_app_comm (cells_of t)). by eapply heap_rep_take.
    + by rewrite Hsent, <- app_assoc.
Qed.
End socket.
End clients.

(** ** Instances *)

(** A peer that answers [PING] twice. *)
Definition ping : list bytes := [lit "PING"].
Definition pong : bytes := lit "+PONG" ++ crlf.
Definition ping_server (s : bytes) : bytes :=
  if decide (s = command ping) then pong
  else if decide (s = command ping ++ command ping) then pong ++ pong else [].

Lemma ping_call : call_is ping ([cstr "PING"], None).
Proof.
  assert (Forall2 c_string ping [cstr "PING"]) as H.
  { apply Forall2_cons_2; [split; [by repeat constructor|by exists []]|constructor]. }
  split; [|done]. split; [|exact H]. eapply Forall2_impl; [exact H|]. intros d q [_ [s ->]].
  by eexists.
Qed.

Lemma pong_sendable : sendable (RStatus (lit "PONG")).
Proof. cbn. rewrite list_elem_of_In. cbn. unfold CR. intuition lia. Qed.

(** ** Properties *)

(** C14: a client of a new blocking connection that appends commands and then
    asks for their replies sends exactly the encodings of the commands, in
    order, whatever parts of them a write takes, and gets the values the peer
    answers, one reply each, in order, whatever parts of them a read gives.
    Both loops of [redisGetReply] end. *)
Theorem pipeline_replies {M : Malloc} {HM : HeapMalloc} {W : Type} {OS : Sys W} (fd : Z)
    {Ch : Channel W fd} {SS : StreamSocket W fd} N dss cmds vs c h (w : W) F :
  (forall n, malloc_ok n = true) -> (forall n size, heap_ok n size = true) ->
  Forall2 call_is dss cmds -> Forall sendable vs -> Forall (fun v => depth v <= 8)%nat vs ->
  vs <> [] -> zlen (flat_map command dss) < 2 ^ 31 - 1 ->
  zlen (flat_map resp_encode vs) < 2 ^ 31 - 1 ->
  (length (flat_map command dss) < N)%nat -> (length (flat_map resp_encode vs) < N)%nat ->
  serve (sent w ++ flat_map command dss) = received w ++ flat_map resp_encode vs ->
  redisConnectFd fd h w = Ok (Some c, h, w) -> heap_rep h [] F ->
  exists c1 ps c2 h2 w2 ts,
    append_all c cmds w = Ok (REDIS_OK, c1) /\
    get_replies N (length vs) c1 h w = Ok (ps, REDIS_OK, c2, h2, w2) /\
    mapM (reply_value (size (cells h2)) h2) ps = Some vs /\
    ps = ptr <$> ts /\ heap_rep h2 (flat_map cells_of ts) F /\
    sent w2 = sent w ++ flat_map command dss /\ holds [] c2.
Proof.
  intros HMt HHt Hc Hvs Hd Hne Hl1 Hl2 HN1 HN2 Hserve Hconn Hh.
  destruct (connectFd_new HMt fd h w) as (s0 & r0 & Hc0 & Hs0 & _ & Hr0 & Hrl).
  rewrite Hconn in Hc0. injection Hc0 as ->. set (c := mk_context _ _ _ _ _ _ _ _ _ _) in *.
  destruct (append_all_holds HMt dss cmds c [] w) as (s & Ha & Hs); [by exists s0|done|cbn; lia|].
  set (c1 := set_obuf c (Some s)) in *. set (p := flat_map command dss) in *.
  set (e := flat_map resp_encode vs) in *.
  assert (exchange fd N (zlen e) (sent w ++ p) p
    (Live (new_core (Some defaultFunctions)) []) e c1 w) as He.
  { split; try done; [|by exists r0; split_and!; [..|cbn; lia]].
    split_and!; try done. by exists s. }
  destruct (get_replies_exchange HMt fd HHt N (zlen e) _ vs Hl2 p _ e c1 h w
    (new_core (Some defaultFunctions)) F He) as (ts & c2 & h2 & w2 & p2 & a2 & rest2 & Hg &
    [_ _ _ (Hp2 & HT & _) _ _] & Hts & Hh2 & Hp); try done.
  { apply new_core_live. }
  { by apply default_parsing. }
  exists c1, (ptr <$> ts), c2, h2, w2, ts. rewrite Hp in * by auto. rewrite app_nil_r in HT.
  split_and!; try done. by eapply read_back.
Qed.

(** Two commands and their replies, over small writes and reads. *)
Lemma pipeline_replies_witness : exists c c1 ps c2 h2 w2 ts,
  redisConnectFd (M := malloc_yes) (HM := heap_all) (OS := peer_sys ping_server) 3 empty_heap new_peer
    = Ok (Some c, empty_heap, new_peer) /\
  append_all (M := malloc_yes) (OS := peer_sys ping_server) c
    [([cstr "PING"], None); ([cstr "PING"], None)] new_peer = Ok (REDIS_OK, c1) /\
  get_replies (M := malloc_yes) (OS := peer_sys ping_server) 50 2 c1 empty_heap new_peer
    = Ok (ps, REDIS_OK, c2, h2, w2) /\
  mapM (reply_value (size (cells h2)) h2) ps = Some [RStatus (lit "PONG"); RStatus (lit "PONG")] /\
  ps = ptr <$> ts /\ heap_rep h2 (flat_map cells_of ts) ∅ /\
  p_sent w2 = command ping ++ command ping /\ holds [] c2.
Proof.
  destruct (connectFd_new (M := malloc_yes) (HM := heap_all) (OS := peer_sys ping_server)
    ltac:(done) 3 empty_heap new_peer) as (s & r & Hc & _).
  revert Hc. set (c := mk_context _ _ _ _ _ _ _ _ _ _). clearbody c. intros Hc.
  destruct (pipeline_replies (M := malloc_yes) (HM := heap_all) (OS := peer_sys ping_server)
    (Ch := peer_channel ping_server) (SS := peer_socket ping_server) 3 50 [ping; ping]
    [([cstr "PING"], None); ([cstr "PING"], None)] [RStatus (lit "PONG"); RStatus (lit "PONG")]
    c empty_heap new_peer ∅ ltac:(done) ltac:(done))
    as (c1 & ps & c2 & h2 & w2 & ts & H1 & H2 & H3 & H4 & H5 & H6 & H7).
  - apply Forall2_cons_2; [|apply Forall2_cons_2; [|constructor]]; apply ping_call.
  - apply Forall_cons_2; [|apply Forall_cons_2; [|constructor]]; apply pong_sendable.
  - repeat constructor; cbn; lia.
  - done.
  - vm_compute. reflexivity.
  - vm_compute. reflexivity.
  - vm_compute. lia.
  - vm_compute. lia.
  - vm_compute. reflexivity.
  - exact Hc.
  - exact empty_heap_rep.
  - exists c, c1, ps, c2, h2, w2, ts. auto 10.
Defined.

(** A client that sends one command after the other with
    [redisCommandArgv] on a new blocking connection gets, from each call, the
    value the peer answers to that command; every call returns. *)
Theorem commands_replies {M : Malloc} {HM : HeapMalloc} {W : Type} {OS : Sys W} (fd : Z)
    {Ch : Channel W fd} {SS : StreamSocket W fd} N dss cmds vs c h (w : W) F :
  (forall n, malloc_ok n = true) -> (forall n size, heap_ok n size = true) ->
  Forall2 call_is dss cmds -> answers fd (sent w) dss vs -> serve (sent w) = received w ->
  Forall sendable vs -> Forall (fun v => depth v <= 8)%nat vs ->
  zlen (flat_map resp_encode vs) < 2 ^ 31 - 1 ->
  Forall (fun ds => length (command ds) < N)%nat dss ->
  (length (flat_map resp_encode vs) < N)%nat ->
  redisConnectFd fd h w = Ok (Some c, h, w) -> heap_rep h [] F ->
  exists ps c2 h2 w2 ts,
    run_commands N c cmds h w = Ok (ps, c2, h2, w2) /\
    mapM (reply_value (size (cells h2)) h2) ps = Some vs /\
    ps = ptr <$> ts /\ heap_rep h2 (flat_map cells_of ts) F /\
    sent w2 = sent w ++ flat_map command dss.
Proof.
  intros HMt HHt Hc Hans Hserve Hvs Hd Hl HNd HNv Hconn Hh.
  destruct (connectFd_new HMt fd h w) as (s0 & r0 & Hc0 & Hs0 & _ & Hr0 & Hrl).
  rewrite Hconn in Hc0. injection Hc0 as ->. set (c := mk_context _ _ _ _ _ _ _ _ _ _) in *.
  assert (exchange fd N 0 (sent w) [] (Live (new_core (Some defaultFunctions)) []) [] c w) as He.
  { split; try done.
    - split_and!; [by exists s0|by rewrite app_nil_r|done|cbn; lia].
    - rewrite app_nil_r. split; [done|cbn; lia].
    - exists r0. split_and!; [done|done|cbn; lia]. }
  destruct (commands_exchange HMt fd HHt N dss 0 _ vs cmds c h w _ F He (new_core_live _)
    (default_parsing h F Hh) Hc Hans Hvs Hd ltac:(lia) HNd HNv)
    as (ts & c2 & h2 & w2 & Hr & Hts & Hh2 & Hsent).
  exists (ptr <$> ts), c2, h2, w2, ts. split_and!; try done. by eapply read_back.
Qed.

Lemma commands_replies_witness : exists c ps c2 h2 w2 ts,
  redisConnectFd (M := malloc_yes) (HM := heap_all) (OS := peer_sys ping_server) 3 empty_heap
    new_peer = Ok (Some c, empty_heap, new_peer) /\
  run_commands (M := malloc_yes) (OS := peer_sys ping_server) 50 c
    [([cstr "PING"], None); ([cstr "PING"], None)] empty_heap new_peer = Ok (ps, c2, h2, w2) /\
  mapM (reply_value (size (cells h2)) h2) ps = Some [RStatus (lit "PONG"); RStatus (lit "PONG")] /\
  ps = ptr <$> ts /\ heap_rep h2 (flat_map cells_of ts) ∅ /\
  p_sent w2 = command ping ++ command ping.
Proof.
  destruct (connectFd_new (M := malloc_yes) (HM := heap_all) (OS := peer_sys ping_server)
    ltac:(done) 3 empty_heap new_peer) as (s & r & Hc & _).
  revert Hc. set (c := mk_context _ _ _ _ _ _ _ _ _ _). clearbody c. intros Hc.
  destruct (commands_replies (M := malloc_yes) (HM := heap_all) (OS := peer_sys ping_server)
    (Ch := peer_channel ping_server) (SS := peer_socket ping_server) 3 50 [ping; ping]
    [([cstr "PING"], None); ([cstr "PING"], None)] [RStatus (lit "PONG"); RStatus (lit "PONG")]
    c empty_heap new_peer ∅ ltac:(done) ltac:(done))
    as (ps & c2 & h2 & w2 & ts & H1 & H2 & H3 & H4 & H5).
  - apply Forall2_cons_2; [|apply Forall2_cons_2; [|constructor]]; apply ping_call.
  - vm_compute. done.
  - done.
  - apply Forall_cons_2; [|apply Forall_cons_2; [|constructor]]; apply pong_sendable.
  - repeat constructor; cbn; lia.
  - vm_compute. reflexivity.
  - apply Forall_cons_2; [|apply Forall_cons_2; [|constructor]]; vm_compute; lia.
  - vm_compute. lia.
  - exact Hc.
  - exact empty_heap_rep.
  - exists c, ps, c2, h2, w2, ts. auto 10.
Defined.

(** C15: whatever a write does, fails included, what was sent followed by what
    waits in the output buffer is what the client appended, in order: no byte
    is lost, repeated or moved, and no step faults. *)
Theorem output_order {M : Malloc} {W : Type} {OS : Sys W} (fd : Z) {Ch : Channel W fd} ops :
  (forall n, malloc_ok n = true) -> forall c p (w : W),
  c_fd c = fd -> holds p c -> zlen (p ++ flat_map appended ops) < 2 ^ 31 - 1 ->
  exists c' w' p', run_out c ops w = Ok (c', w') /\ holds p' c' /\
    sent w' ++ p' = sent w ++ p ++ flat_map appended ops.
Proof.
  intros HMt. induction ops as [|op ops IH]; intros c p w Hfd Hp Hl.
  { exists c, w, p. cbn. by rewrite app_nil_r. }
  cbn [flat_map run_out] in *. destruct op as [d|]; cbn [appended app] in *.
  - rewrite app_assoc in Hl. unfold redisAppendFormattedCommand.
    destruct (append_holds HMt c d [] p w Hp) as (s & Ha & Hs).
    { rewrite !length_app in Hl. lia. }
    rewrite app_nil_r in Ha. rewrite Ha. cbn [mbind result_bind].
    destruct (IH (set_obuf c (Some s)) (p ++ d) w) as (c' & w' & p' & Hr & Hp' & He);
      [done|by exists s|done|].
    exists c', w', p'. split_and!; try done. by rewrite He, <- app_assoc.
  - destruct (decide (c_err c = 0)) as [He|He].
    + destruct (bufferWrite_case HMt fd p c w Hfd He Hp) as [->|n w' s' Hne Hw Hn Hsent Hs'
        |w' Hne Hw Hsent _|w' Hne Hw Hsent _]; cbn [mbind result_bind].
      * rewrite length_app in Hl. lia.
      * by apply IH.
      * destruct (IH (set_obuf c (Some s')) (drop (Z.to_nat n) p) w')
          as (c2 & w2 & p2 & Hr & Hp2 & He2); [done|by exists s'| |].
        { rewrite length_app in *. rewrite length_drop. lia. }
        exists c2, w2, p2. split_and!; try done.
        by rewrite He2, Hsent, <- app_assoc, (app_assoc (take _ _)), take_drop.
      * rewrite <- Hsent. by apply IH.
      * rewrite <- Hsent. by apply IH.
    + unfold redisBufferWrite. bool_false (c_err c =? 0). cbn [negb mbind result_bind].
      by apply IH.
Qed.

(** Two appends with a partial write between them. *)
Lemma output_order_witness : exists c c' w' p',
  redisConnectFd (M := malloc_yes) (HM := heap_all) (OS := peer_sys ping_server) 3 empty_heap
    new_peer = Ok (Some c, empty_heap, new_peer) /\
  run_out (M := malloc_yes) (OS := peer_sys ping_server) c
    [Append (lit "abcdefg"); Flush; Append (lit "hi")] new_peer = Ok (c', w') /\
  holds p' c' /\ p_sent w' ++ p' = lit "abcdefghi".
Proof.
  destruct (connectFd_new (M := malloc_yes) (HM := heap_all) (OS := peer_sys ping_server)
    ltac:(done) 3 empty_heap new_peer) as (s & r & Hc & Hs & _).
  revert Hc. set (c := mk_context _ _ _ _ _ _ _ _ _ _). intros Hc.
  destruct (output_order (M := malloc_yes) (OS := peer_sys ping_server)
    (Ch := peer_channel ping_server) 3 [Append (lit "abcdefg"); Flush; Append (lit "hi")]
    ltac:(done) c [] new_peer ltac:(done) ltac:(by exists s) ltac:(done))
    as (c' & w' & p' & H1 & H2 & H3).
  exists c, c', w', p'. auto.
Defined.
