(* ===== verification/Net.v ===== *)
(** * Net: sockets (net.c)

    Making a connection over TCP or a Unix socket, with timeouts, source
    addresses and retries, and the options of a socket. *)
From S2P Require Import Prelude Mem Sds Reply Reader System Context.
From stdpp Require Import list list_numbers strings sets gmap.
From Stdlib Require Import ZArith Lia.
Open Scope Z_scope.

(** A pointer argument that may be the context's own: [redisReconnect] passes
    the fields of the context, and the code compares pointers. *)
Inductive arg (A : Type) : Type :=
  | Own
  | Given (a : option A).
Arguments Own {A}.
Arguments Given {A} a.

Section net.
Context {M : Malloc} {W : Type} {OS : Sys W}.
Implicit Types (c : redisContext) (w : W).

(** ** Errors and options *)
Definition redisContextCloseFd c w : redisContext * W :=
  if 0 <=? c_fd c then (set_fd c (-1), sys_close (c_fd c) w) else (c, w).

(** The text of [errno] after [prefix]; [buf] has 128 bytes. *)
Definition __redisSetErrorFromErrno c (type : Z) (prefix : option bytes) w : result redisContext :=
  let buf := match prefix with Some p => take 127 (p ++ [58; 32]) | None => [] end in
  let buf := buf ++ take (127 - length buf) (strerror (sys_errno w)) in
  __redisSetError c type (Some buf) w.

(** The error of [errno], after which the descriptor is closed. *)
Definition fail_close c (prefix : option bytes) w : result (Z * redisContext * W) :=
  c ← __redisSetErrorFromErrno c REDIS_ERR_IO prefix w;
  let '(c, w) := redisContextCloseFd c w in
  Ok (REDIS_ERR, c, w).

Definition redisSetReuseAddr c w : result (Z * redisContext * W) :=
  let '(rc, w) := sys_setsockopt (c_fd c) SOL_SOCKET SO_REUSEADDR (OptInt 1) w in
  if rc =? -1 then fail_close c None w else Ok (REDIS_OK, c, w).

Definition redisCreateSocket c (type : Z) w : result (Z * redisContext * W) :=
  let '(s, w) := sys_socket type SOCK_STREAM 0 w in
  if s =? -1 then
    c ← __redisSetErrorFromErrno c REDIS_ERR_IO None w; Ok (REDIS_ERR, c, w)
  else
    let c := set_fd c s in
    if type =? AF_INET then
      '(st, c, w) ← redisSetReuseAddr c w;
      if st =? REDIS_ERR then Ok (REDIS_ERR, c, w) else Ok (REDIS_OK, c, w)
    else Ok (REDIS_OK, c, w).

Definition redisSetBlocking c (blocking : bool) w : result (Z * redisContext * W) :=
  let '(flags, w) := sys_getfl (c_fd c) w in
  if flags =? -1 then fail_close c (Some (lit "fcntl(F_GETFL)")) w else
  let flags := if blocking then Z.ldiff flags O_NONBLOCK else Z.lor flags O_NONBLOCK in
  let '(rc, w) := sys_setfl (c_fd c) flags w in
  if rc =? -1 then fail_close c (Some (lit "fcntl(F_SETFL)")) w else Ok (REDIS_OK, c, w).

(** The options of glibc; an error does not close the descriptor. *)
Definition redisKeepAlive c (interval : Z) w : result (Z * redisContext * W) :=
  let fd := c_fd c in
  let fail c w :=
    c ← __redisSetError c REDIS_ERR_OTHER (Some (strerror (sys_errno w))) w;
    Ok (REDIS_ERR, c, w) in
  let '(rc, w) := sys_setsockopt fd SOL_SOCKET SO_KEEPALIVE (OptInt 1) w in
  if rc =? -1 then fail c w else
  let '(rc, w) := sys_setsockopt fd IPPROTO_TCP TCP_KEEPIDLE (OptInt interval) w in
  if rc <? 0 then fail c w else
  let val := Z.quot interval 3 in
  let val := if val =? 0 then 1 else val in
  let '(rc, w) := sys_setsockopt fd IPPROTO_TCP TCP_KEEPINTVL (OptInt val) w in
  if rc <? 0 then fail c w else
  let '(rc, w) := sys_setsockopt fd IPPROTO_TCP TCP_KEEPCNT (OptInt 3) w in
  if rc <? 0 then fail c w else
  Ok (REDIS_OK, c, w).

Definition redisSetTcpNoDelay c w : result (Z * redisContext * W) :=
  let '(rc, w) := sys_setsockopt (c_fd c) IPPROTO_TCP TCP_NODELAY (OptInt 1) w in
  if rc =? -1 then fail_close c (Some (lit "setsockopt(TCP_NODELAY)")) w
  else Ok (REDIS_OK, c, w).

(** ** Timeouts *)
Definition __MAX_MSEC : Z := (LONG_MAX - 999) / 1000.

(** The status and what is stored through [result]. *)
Definition redisContextTimeoutMsec c : Z * Z :=
  let msec := -1 in
  match c_timeout c with
  | None => (REDIS_OK, msec)
  | Some t =>
      if (1000000 <? tv_usec t) || (__MAX_MSEC <? tv_sec t) then (REDIS_ERR, msec) else
      let msec := s64 (s64 (tv_sec t * 1000) + Z.quot (s64 (tv_usec t + 999)) 1000) in
      (REDIS_OK, if (msec <? 0) || (INT_MAX <? msec) then INT_MAX else msec)
  end.

Definition redisCheckSocketError c w : result (Z * redisContext * W) :=
  let '(err, w) := sys_so_error (c_fd c) w in
  match err with
  | None =>
      c ← __redisSetErrorFromErrno c REDIS_ERR_IO (Some (lit "getsockopt(SO_ERROR)")) w;
      Ok (REDIS_ERR, c, w)
  | Some err =>
      if negb (err =? 0) then
        let w := set_errno err w in
        c ← __redisSetErrorFromErrno c REDIS_ERR_IO None w; Ok (REDIS_ERR, c, w)
      else Ok (REDIS_OK, c, w)
  end.

Definition redisContextWaitReady c (msec : Z) w : result (Z * redisContext * W) :=
  if sys_errno w =? EINPROGRESS then
    let '(res, w) := sys_poll (c_fd c) (s32 msec) w in
    if res =? -1 then fail_close c (Some (lit "poll(2)")) w
    else if res =? 0 then fail_close c None (set_errno ETIMEDOUT w)
    else
      '(st, c, w) ← redisCheckSocketError c w;
      if negb (st =? REDIS_OK) then Ok (REDIS_ERR, c, w) else Ok (REDIS_OK, c, w)
  else fail_close c None w.

Definition redisContextSetTimeout c (tv : timeval) w : result (Z * redisContext * W) :=
  let '(rc, w) := sys_setsockopt (c_fd c) SOL_SOCKET SO_RCVTIMEO (OptTime tv) w in
  if rc =? -1 then
    c ← __redisSetErrorFromErrno c REDIS_ERR_IO (Some (lit "setsockopt(SO_RCVTIMEO)")) w;
    Ok (REDIS_ERR, c, w)
  else
  let '(rc, w) := sys_setsockopt (c_fd c) SOL_SOCKET SO_SNDTIMEO (OptTime tv) w in
  if rc =? -1 then
    c ← __redisSetErrorFromErrno c REDIS_ERR_IO (Some (lit "setsockopt(SO_SNDTIMEO)")) w;
    Ok (REDIS_ERR, c, w)
  else Ok (REDIS_OK, c, w).

(** ** Taking possession of the arguments *)
Definition arg_value {A} (a : arg A) (own : option A) : option A :=
  match a with
  | Own => own
  | Given a => a
  end.

Definition strdup (s : option bytes) : result (option bytes) :=
  s ← deref s; Ok (if malloc_ok (zlen s + 1) then Some s else None).

Definition keep_host c (addr : arg bytes) : result redisContext :=
  match addr with
  | Own => Ok c
  | Given a =>
      h ← strdup a; Ok (set_tcp c (mk_tcp h (source_addr (c_tcp c)) (port (c_tcp c))))
  end.

Definition keep_source c (src : arg bytes) : result redisContext :=
  match src with
  | Own => Ok c
  | Given None => Ok (set_tcp c (mk_tcp (host (c_tcp c)) None (port (c_tcp c))))
  | Given a =>
      s ← strdup a; Ok (set_tcp c (mk_tcp (host (c_tcp c)) s (port (c_tcp c))))
  end.

(** The copy is made in the [struct timeval] the context has, or in a new one,
    which is not checked. *)
Definition keep_timeout c (timeout : arg timeval) : result redisContext :=
  match timeout with
  | Own => Ok c
  | Given None => Ok (set_timeout c None)
  | Given (Some tv) =>
      _ ← (match c_timeout c with
           | None => if malloc_ok 16 then Ok tt else Fault NullDeref
           | Some _ => Ok tt
           end);
      Ok (set_timeout c (Some tv))
  end.

(** ** TCP *)

(** How an attempt at one address ends: the next address ([continue]), the
    same again ([goto addrretry]), or [goto error]. *)
Inductive attempt : Type :=
  | Skip
  | Retry
  | GotoError
  | Proceed.

(** [bind] to the first address that takes. *)
Fixpoint bind_any (s : Z) (bs : list addrinfo) w : bool * W :=
  match bs with
  | [] => (false, w)
  | b :: bs =>
      let '(rc, w) := sys_bind s (ai_addr b) w in
      if negb (rc =? -1) then (true, w) else bind_any s bs w
  end.

(** [if (c->tcp.source_addr) ...]; [family] is that of [hints]. *)
Definition bind_source c (s : Z) (family : Z) (reuseaddr : bool) w :
    result (attempt * redisContext * W) :=
  match source_addr (c_tcp c) with
  | None => Ok (Proceed, c, w)
  | Some src =>
      let '(rv, bservinfo, w) := sys_getaddrinfo (Some src) None family w in
      if negb (rv =? 0) then
        c ← __redisSetError c REDIS_ERR_OTHER
              (Some (take 127 (lit "Can't get addr: " ++ gai_strerror rv))) w;
        Ok (GotoError, c, w)
      else
      let '(rc, w) := if reuseaddr then sys_setsockopt s SOL_SOCKET SO_REUSEADDR (OptInt 1) w
                      else (0, w) in
      if rc <? 0 then Ok (GotoError, c, sys_freeaddrinfo bservinfo w) else
      let '(bound, w) := bind_any s bservinfo w in
      let w := sys_freeaddrinfo bservinfo w in
      if bound then Ok (Proceed, c, w) else
        c ← __redisSetError c REDIS_ERR_OTHER
              (Some (take 127 (lit "Can't bind socket: " ++ strerror (sys_errno w)))) w;
        Ok (GotoError, c, w)
  end.

(** [connect] and what becomes of its errors; [reuses] counts the retries. *)
Definition connect_addr c (s : Z) (p : addrinfo) (blocking reuseaddr : bool) (reuses msec : Z) w :
    result (attempt * Z * redisContext * W) :=
  let '(rc, w) := sys_connect s (ai_addr p) w in
  if rc =? -1 then
    if sys_errno w =? EHOSTUNREACH then
      let '(c, w) := redisContextCloseFd c w in Ok (Skip, reuses, c, w)
    else if (sys_errno w =? EINPROGRESS) && negb blocking then Ok (Proceed, reuses, c, w)
    else if (sys_errno w =? EADDRNOTAVAIL) && reuseaddr then
      let reuses := reuses + 1 in
      if REDIS_CONNECT_RETRIES <=? reuses then Ok (GotoError, reuses, c, w)
      else let '(c, w) := redisContextCloseFd c w in Ok (Retry, reuses, c, w)
    else
      '(st, c, w) ← redisContextWaitReady c msec w;
      if negb (st =? REDIS_OK) then Ok (GotoError, reuses, c, w)
      else Ok (Proceed, reuses, c, w)
  else Ok (Proceed, reuses, c, w).

(** One round of the loop, from [addrretry] on. *)
Definition try_addr c (p : addrinfo) (family : Z) (blocking reuseaddr : bool) (reuses msec : Z) w :
    result (attempt * Z * redisContext * W) :=
  let '(s, w) := sys_socket (ai_family p) (ai_socktype p) (ai_protocol p) w in
  if s =? -1 then Ok (Skip, reuses, c, w) else
  let c := set_fd c s in
  '(st, c, w) ← redisSetBlocking c false w;
  if negb (st =? REDIS_OK) then Ok (GotoError, reuses, c, w) else
  '(o, c, w) ← bind_source c s family reuseaddr w;
  match o with
  | Proceed =>
      '(o, reuses, c, w) ← connect_addr c s p blocking reuseaddr reuses msec w;
      match o with
      | Proceed =>
          '(st, c, w) ← (if blocking then redisSetBlocking c true w else Ok (REDIS_OK, c, w));
          if negb (st =? REDIS_OK) then Ok (GotoError, reuses, c, w) else
          '(st, c, w) ← redisSetTcpNoDelay c w;
          if negb (st =? REDIS_OK) then Ok (GotoError, reuses, c, w)
          else Ok (Proceed, reuses, add_flag c REDIS_CONNECTED, w)
      | _ => Ok (o, reuses, c, w)
      end
  | _ => Ok (o, reuses, c, w)
  end.

(** The rounds at one address; [fuel] bounds the retries. *)
Fixpoint retry_addr (fuel : nat) c (p : addrinfo) (family : Z) (blocking reuseaddr : bool)
    (reuses msec : Z) w : result (attempt * Z * redisContext * W) :=
  match fuel with
  | O => Fault OutOfFuel
  | S f =>
      '(o, reuses, c, w) ← try_addr c p family blocking reuseaddr reuses msec w;
      match o with
      | Retry => retry_addr f c p family blocking reuseaddr reuses msec w
      | _ => Ok (o, reuses, c, w)
      end
  end.

Fixpoint try_addrs c (ps : list addrinfo) (family : Z) (blocking reuseaddr : bool)
    (reuses msec : Z) w : result (Z * redisContext * W) :=
  match ps with
  | [] =>
      c ← __redisSetError c REDIS_ERR_OTHER
            (Some (take 127 (lit "Can't create socket: " ++ strerror (sys_errno w)))) w;
      Ok (REDIS_ERR, c, w)
  | p :: ps =>
      '(o, reuses, c, w) ← retry_addr (Z.to_nat REDIS_CONNECT_RETRIES) c p family blocking
                             reuseaddr reuses msec w;
      match o with
      | Skip => try_addrs c ps family blocking reuseaddr reuses msec w
      | Proceed => Ok (REDIS_OK, c, w)
      | _ => Ok (REDIS_ERR, c, w)
      end
  end.

Definition _redisContextConnectTcp c (addr : arg bytes) (prt : Z) (timeout : arg timeval)
    (src : arg bytes) w : result (Z * redisContext * W) :=
  let blocking := has_flag c REDIS_BLOCK in
  let reuseaddr := has_flag c REDIS_REUSEADDR in
  let c := set_connection_type c REDIS_CONN_TCP in
  let c := set_tcp c (mk_tcp (host (c_tcp c)) (source_addr (c_tcp c)) prt) in
  c ← keep_host c addr;
  c ← keep_timeout c timeout;
  let '(st, timeout_msec) := redisContextTimeoutMsec c in
  if negb (st =? REDIS_OK) then
    c ← __redisSetError c REDIS_ERR_IO (Some (lit "Invalid timeout specified")) w;
    Ok (REDIS_ERR, c, sys_freeaddrinfo [] w)
  else
  c ← keep_source c src;
  let _port := take 5 (sdec prt) in
  let '(rv, servinfo, w) := sys_getaddrinfo (host (c_tcp c)) (Some _port) AF_INET w in
  let '(rv, servinfo, family, w) :=
    if rv =? 0 then (rv, servinfo, AF_INET, w)
    else let '(rv, servinfo, w) := sys_getaddrinfo (arg_value addr (host (c_tcp c)))
                                     (Some _port) AF_INET6 w in
         (rv, servinfo, AF_INET6, w) in
  if negb (rv =? 0) then
    c ← __redisSetError c REDIS_ERR_OTHER (Some (gai_strerror rv)) w; Ok (REDIS_ERR, c, w)
  else
  '(rv, c, w) ← try_addrs c servinfo family blocking reuseaddr 0 timeout_msec w;
  Ok (rv, c, sys_freeaddrinfo servinfo w).

Definition redisContextConnectTcp c (addr : arg bytes) (prt : Z) (timeout : arg timeval) w :
    result (Z * redisContext * W) :=
  _redisContextConnectTcp c addr prt timeout (Given None) w.

Definition redisContextConnectBindTcp c (addr : arg bytes) (prt : Z) (timeout : arg timeval)
    (src : arg bytes) w : result (Z * redisContext * W) :=
  _redisContextConnectTcp c addr prt timeout src w.

(** ** Unix sockets *)
Definition keep_path c (path : arg bytes) : result redisContext :=
  match path with
  | Own => Ok c
  | Given a => p ← strdup a; Ok (set_path c p)
  end.

(** [sa.sun_path] has 108 bytes. *)
Definition redisContextConnectUnix c (path : arg bytes) (timeout : arg timeval) w :
    result (Z * redisContext * W) :=
  let blocking := has_flag c REDIS_BLOCK in
  '(st, c, w) ← redisCreateSocket c AF_LOCAL w;
  if st <? 0 then Ok (REDIS_ERR, c, w) else
  '(st, c, w) ← redisSetBlocking c false w;
  if negb (st =? REDIS_OK) then Ok (REDIS_ERR, c, w) else
  let c := set_connection_type c REDIS_CONN_UNIX in
  c ← keep_path c path;
  c ← keep_timeout c timeout;
  let '(st, timeout_msec) := redisContextTimeoutMsec c in
  if negb (st =? REDIS_OK) then Ok (REDIS_ERR, c, w) else
  sun_path ← deref (arg_value path (c_path c));
  let '(rc, w) := sys_connect (c_fd c) (take 107 sun_path) w in
  '(st, c, w) ←
    (if rc =? -1 then
       if (sys_errno w =? EINPROGRESS) && negb blocking then Ok (REDIS_OK, c, w)
       else redisContextWaitReady c timeout_msec w
     else Ok (REDIS_OK, c, w));
  if negb (st =? REDIS_OK) then Ok (REDIS_ERR, c, w) else
  '(st, c, w) ← (if blocking then redisSetBlocking c true w else Ok (REDIS_OK, c, w));
  if negb (st =? REDIS_OK) then Ok (REDIS_ERR, c, w) else
  Ok (REDIS_OK, add_flag c REDIS_CONNECTED, w).
End net.
