(* ===== verification/Connect.v ===== *)
(** * Connect: making, remaking and tuning connections (hiredis.c)

    The [redisConnect] functions, [redisReconnect], [redisSetTimeout] and
    [redisEnableKeepAlive], on top of net.c. *)
From S2P Require Import Prelude Mem Sds Reply Reader System Context Net.
From stdpp Require Import list list_numbers strings sets gmap.
From Stdlib Require Import ZArith Lia.
Open Scope Z_scope.

Section connect.
Context {M : Malloc} {HM : HeapMalloc} {W : Type} {OS : Sys W}.
Implicit Types (c : redisContext) (h : heap) (w : W).

(** What the [redisConnect] functions share: a new context with its flags, and
    a connection whose status is dropped. *)
Definition connect_with (flags : redisContext -> redisContext)
    (conn : redisContext -> W -> result (Z * redisContext * W)) h w :
    result (option redisContext * heap * W) :=
  '(c, h, w) ← redisContextInit h w;
  match c with
  | None => Ok (None, h, w)
  | Some c =>
      '(_, c, w) ← conn (flags c) w;
      Ok (Some c, h, w)
  end.

Definition block c : redisContext := add_flag c REDIS_BLOCK.
Definition nonblock c : redisContext := clear_flag c REDIS_BLOCK.

Definition redisConnect (ip : bytes) (prt : Z) h w : result (option redisContext * heap * W) :=
  connect_with block
    (fun c w => redisContextConnectTcp c (Given (Some ip)) prt (Given None) w) h w.

Definition redisConnectWithTimeout (ip : bytes) (prt : Z) (tv : timeval) h w :
    result (option redisContext * heap * W) :=
  connect_with block
    (fun c w => redisContextConnectTcp c (Given (Some ip)) prt (Given (Some tv)) w) h w.

Definition redisConnectNonBlock (ip : bytes) (prt : Z) h w :
    result (option redisContext * heap * W) :=
  connect_with nonblock
    (fun c w => redisContextConnectTcp c (Given (Some ip)) prt (Given None) w) h w.

Definition redisConnectBindNonBlock (ip : bytes) (prt : Z) (src : option bytes) h w :
    result (option redisContext * heap * W) :=
  connect_with nonblock
    (fun c w => redisContextConnectBindTcp c (Given (Some ip)) prt (Given None) (Given src) w) h w.

Definition redisConnectBindNonBlockWithReuse (ip : bytes) (prt : Z) (src : option bytes) h w :
    result (option redisContext * heap * W) :=
  connect_with (fun c => add_flag (nonblock c) REDIS_REUSEADDR)
    (fun c w => redisContextConnectBindTcp c (Given (Some ip)) prt (Given None) (Given src) w) h w.

Definition redisConnectUnix (path : bytes) h w : result (option redisContext * heap * W) :=
  connect_with block (fun c w => redisContextConnectUnix c (Given (Some path)) (Given None) w) h w.

Definition redisConnectUnixWithTimeout (path : bytes) (tv : timeval) h w :
    result (option redisContext * heap * W) :=
  connect_with block
    (fun c w => redisContextConnectUnix c (Given (Some path)) (Given (Some tv)) w) h w.

Definition redisConnectUnixNonBlock (path : bytes) h w : result (option redisContext * heap * W) :=
  connect_with nonblock
    (fun c w => redisContextConnectUnix c (Given (Some path)) (Given None) w) h w.

(** [c->fd] keeps the number of the descriptor that was closed. *)
Definition redisReconnect c h w : result (Z * redisContext * heap * W) :=
  let c := set_err c 0 [] in
  let w := if 0 <? c_fd c then sys_close (c_fd c) w else w in
  r ← deref (c_reader c);
  h ← redisReaderFree r h;
  obuf ← sdsempty;
  reader ← redisReaderCreate;
  let c := set_reader (set_obuf c obuf) reader in
  '(st, c, w) ←
    match c_connection_type c with
    | REDIS_CONN_TCP => redisContextConnectBindTcp c Own (port (c_tcp c)) Own Own w
    | REDIS_CONN_UNIX => redisContextConnectUnix c Own Own w
    end;
  Ok (st, c, h, w).

Definition redisSetTimeout c (tv : timeval) w : result (Z * redisContext * W) :=
  if has_flag c REDIS_BLOCK then redisContextSetTimeout c tv w else Ok (REDIS_ERR, c, w).

Definition redisEnableKeepAlive c w : result (Z * redisContext * W) :=
  '(st, c, w) ← redisKeepAlive c REDIS_KEEPALIVE_INTERVAL w;
  if negb (st =? REDIS_OK) then Ok (REDIS_ERR, c, w) else Ok (REDIS_OK, c, w).
End connect.
