(* ===== verification/NetFacts.v ===== *)
(** * NetFacts: descriptors and errors of net.c

    Every function of net.c either succeeds and leaves its descriptor open and
    the context as it was, or fails with an error; on failure the descriptor is
    closed or still in the context. *)
From S2P Require Import Prelude Mem Sds Reply Reader System Context Net.
From stdpp Require Import list list_numbers strings sets gmap.
From Stdlib Require Import ZArith Lia.
Open Scope Z_scope.

Create HintDb net.

Section facts.
Context {M : Malloc} {W : Type} {OS : Sys W} {D : Descriptors W}.
Implicit Types (c : redisContext) (w : W) (base : gset Z).

(** The descriptor of the context is open, next to those of [base]. *)
Record holding base c w : Prop := {
  hold_fd : 0 <= c_fd c;
  hold_new : c_fd c ∉ base;
  hold_open : opened w = {[c_fd c]} ∪ base
}.

(** What a connection changes only by setting [REDIS_CONNECTED]. *)
Definition kept c : Z * option (redisReader heap) * option sds :=
  (c_flags c, c_reader c, c_obuf c).
Definition connected (k : Z * option (redisReader heap) * option sds) :
    Z * option (redisReader heap) * option sds :=
  (Z.lor k.1.1 REDIS_CONNECTED, k.1.2, k.2).

(** What a failure leaves: the error, and at most the descriptor of [c']. *)
Record failed base c c' w : Prop := {
  failed_err : c_err c' <> 0;
  failed_flags : kept c' = kept c;
  failed_fd : holding base c' w \/ (opened w = base /\ c_fd c' = -1)
}.

Definition step_ok base c (m : result (Z * redisContext * W)) : Prop :=
  exists st c' w', m = Ok (st, c', w') /\
    ((st = REDIS_OK /\ c' = c /\ holding base c w') \/
     (st = REDIS_ERR /\ failed base c c' w')).

Lemma holding_world base c w w' : opened w' = opened w -> holding base c w -> holding base c w'.
Proof. intros Hw [H1 H2 H3]. split; [done..|]. by rewrite Hw. Qed.

Lemma holding_fd base c c' w : c_fd c' = c_fd c -> holding base c w -> holding base c' w.
Proof. intros Hc [H1 H2 H3]. rewrite <- Hc in H1, H2, H3. by split. Qed.

Lemma errno_error c type prefix w : exists s,
  __redisSetErrorFromErrno c type prefix w = Ok (set_err c type s).
Proof. unfold __redisSetErrorFromErrno, __redisSetError. by eexists. Qed.

Lemma closeFd_gone base c w : holding base c w ->
  redisContextCloseFd c w = (set_fd c (-1), sys_close (c_fd c) w) /\
  opened (sys_close (c_fd c) w) = base.
Proof.
  intros [H1 H2 H3]. unfold redisContextCloseFd. bool_true (0 <=? c_fd c). split; [done|].
  rewrite opened_close, H3. set_solver.
Qed.

Lemma fail_close_ok base c prefix w : holding base c w -> step_ok base c (fail_close c prefix w).
Proof.
  intros Hh. unfold fail_close. destruct (errno_error c REDIS_ERR_IO prefix w) as [s ->].
  cbn [mbind result_bind]. destruct (closeFd_gone base (set_err c REDIS_ERR_IO s) w) as [-> Ho].
  { by apply (holding_fd base c). }
  eexists _, _, _. split; [done|]. right. split; [done|]. split; [done|done|]. by right.
Qed.

Lemma step_ok_done base c w : holding base c w -> step_ok base c (Ok (REDIS_OK, c, w)).
Proof. intros. eexists _, _, _. split; [done|]. by left. Qed.

(** An error that leaves the descriptor open. *)
Lemma step_ok_error base c type s w : type <> 0 -> holding base c w ->
  step_ok base c (Ok (REDIS_ERR, set_err c type s, w)).
Proof.
  intros Ht Hh. eexists _, _, _. split; [done|]. right. split; [done|].
  split; [done|done|]. left. by apply (holding_fd base c).
Qed.

(** A call that does not touch the descriptors. *)
Ltac call E := match goal with
  | |- context [let '(_, _) := ?m in _] =>
      destruct m eqn:E;
      apply (f_equal snd) in E; cbn [snd] in E; symmetry in E
  end.

Lemma setBlocking_ok base c b w : holding base c w -> step_ok base c (redisSetBlocking c b w).
Proof.
  intros Hh. unfold redisSetBlocking. call E1.
  assert (holding base c w0) as H1.
  { eapply holding_world; [|done]. rewrite E1. apply opened_getfl. }
  split_if; [by apply fail_close_ok|]. call E2.
  assert (holding base c w1) as H2.
  { eapply holding_world; [|done]. rewrite E2. apply opened_setfl. }
  split_if; [by apply fail_close_ok|by apply step_ok_done].
Qed.

Lemma noDelay_ok base c w : holding base c w -> step_ok base c (redisSetTcpNoDelay c w).
Proof.
  intros Hh. unfold redisSetTcpNoDelay. call E1.
  assert (holding base c w0) as H1.
  { eapply holding_world; [|done]. rewrite E1. apply opened_setsockopt. }
  split_if; [by apply fail_close_ok|by apply step_ok_done].
Qed.

Lemma checkSocketError_ok base c w : holding base c w -> step_ok base c (redisCheckSocketError c w).
Proof.
  intros Hh. unfold redisCheckSocketError. call E1.
  assert (holding base c w0) as H1.
  { eapply holding_world; [|done]. rewrite E1. apply opened_so_error. }
  destruct o as [err|].
  - split_if; [|by apply step_ok_done].
    destruct (errno_error c REDIS_ERR_IO None (set_errno err w0)) as [s ->].
    apply step_ok_error; [done|]. eapply holding_world; [apply opened_errno|done].
  - destruct (errno_error c REDIS_ERR_IO (Some (lit "getsockopt(SO_ERROR)")) w0) as [s ->].
    by apply step_ok_error.
Qed.

Lemma step_ok_bind base c (m : result (Z * redisContext * W)) : step_ok base c m ->
  step_ok base c ('(st, c, w) ← m;
    if negb (st =? REDIS_OK) then Ok (REDIS_ERR, c, w) else Ok (REDIS_OK, c, w)).
Proof.
  intros (st & c' & w' & -> & [(-> & -> & Hh)|[-> Hf]]); eexists _, _, _; split; try done; auto.
Qed.

Lemma waitReady_ok base c msec w : holding base c w ->
  step_ok base c (redisContextWaitReady c msec w).
Proof.
  intros Hh. unfold redisContextWaitReady. split_if; [|by apply fail_close_ok].
  call E1.
  assert (holding base c w0) as H1.
  { eapply holding_world; [|done]. rewrite E1. apply opened_poll. }
  split_if; [by apply fail_close_ok|]. split_if.
  - apply fail_close_ok. eapply holding_world; [apply opened_errno|done].
  - by apply step_ok_bind, checkSocketError_ok.
Qed.

(** ** One attempt *)
Lemma bind_any_opened s bs w : opened (bind_any s bs w).2 = opened w.
Proof.
  revert w. induction bs as [|b bs IH]; intros w; cbn [bind_any]; [done|]. call E1. split_if.
  - cbn. by rewrite E1, opened_bind.
  - by rewrite IH, E1, opened_bind.
Qed.

(** An attempt goes on with the context as it was, or gives up. An error may be
    silent only when [reuse] is set. *)
Definition gives_up base c (reuse : bool) c' w : Prop :=
  kept c' = kept c /\ (reuse = false -> c_err c' <> 0) /\
  (holding base c' w \/ (opened w = base /\ c_fd c' = -1)).

Lemma failed_gives_up base c reuse c' w : failed base c c' w -> gives_up base c reuse c' w.
Proof. intros []. by split_and!. Qed.

Lemma bind_source_ok base c family reuse w : holding base c w -> exists o c' w',
  bind_source c (c_fd c) family reuse w = Ok (o, c', w') /\
  ((o = Proceed /\ c' = c /\ holding base c w') \/
   (o = GotoError /\ gives_up base c reuse c' w')).
Proof.
  intros Hh. unfold bind_source. destruct (source_addr (c_tcp c)) as [src|].
  2: { eexists _, _, _. split; [done|]. by left. }
  destruct (sys_getaddrinfo (Some src) None family w) as [[rv bs] w0] eqn:E0.
  assert (holding base c w0) as H0.
  { eapply holding_world; [|done]. pose proof (opened_getaddrinfo (Some src) None family w) as Ho.
    by rewrite E0 in Ho. }
  split_if.
  { eexists _, _, _. split; [done|]. right. split; [done|]. split_and!; try done. left.
    by apply (holding_fd base c). }
  assert (forall m : Z * W, m = (if reuse then sys_setsockopt (c_fd c) SOL_SOCKET SO_REUSEADDR
    (OptInt 1) w0 else (0, w0)) -> holding base c m.2) as H1.
  { intros m ->. destruct reuse; [|done]. eapply holding_world; [apply opened_setsockopt|done]. }
  destruct (if reuse then _ else _) as [rc w1] eqn:E1. specialize (H1 _ eq_refl). cbn [snd] in H1.
  split_if.
  { eexists _, _, _. split; [done|]. right. split; [done|]. split_and!; try done.
    - intros ->. injection E1 as <- <-. lia.
    - left. eapply holding_world; [apply opened_freeaddrinfo|done]. }
  call Eb. assert (holding base c (sys_freeaddrinfo bs w2)) as H2.
  { eapply holding_world; [apply opened_freeaddrinfo|]. eapply holding_world; [|done].
    by rewrite Eb, bind_any_opened. }
  destruct b; eexists _, _, _; split; try done; [by left|]. right. split; [done|].
  split_and!; try done. left. by apply (holding_fd base c).
Qed.

(** How one attempt at a connection ends. *)
Inductive attempt_ends base c (reuse : bool) (reuses : Z) :
    attempt -> Z -> redisContext -> W -> Prop :=
  | EndSkip c' w' : opened w' = base -> c_fd c' = c_fd c \/ c_fd c' = -1 ->
      c_err c' = c_err c -> kept c' = kept c ->
      attempt_ends base c reuse reuses Skip reuses c' w'
  | EndRetry c' w' : opened w' = base -> c_fd c' = -1 -> reuse = true ->
      reuses + 1 < REDIS_CONNECT_RETRIES -> c_err c' = c_err c -> kept c' = kept c ->
      attempt_ends base c reuse reuses Retry (reuses + 1) c' w'
  | EndError n c' w' : gives_up base c reuse c' w' ->
      attempt_ends base c reuse reuses GotoError n c' w'
  | EndProceed c' w' : holding base c' w' -> c_err c' = c_err c ->
      kept c' = connected (kept c) ->
      attempt_ends base c reuse reuses Proceed reuses c' w'.

Lemma connect_addr_ok base c p blocking reuse reuses msec w : holding base c w ->
  exists o n c' w',
    connect_addr c (c_fd c) p blocking reuse reuses msec w = Ok (o, n, c', w') /\
    ((o = Proceed /\ n = reuses /\ c' = c /\ holding base c w') \/
     (o <> Proceed /\ (o = Skip -> c_fd c' = -1) /\ attempt_ends base c reuse reuses o n c' w')).
Proof.
  intros Hh. unfold connect_addr. call E0.
  assert (holding base c w0) as H0.
  { eapply holding_world; [|done]. by rewrite E0, opened_connect. }
  destruct (closeFd_gone base c w0 H0) as [Hc Ho]. rewrite Hc.
  split_if; [|eexists _, _, _, _; split; [done|by left]].
  split_if.
  { eexists _, _, _, _. split; [done|]. right. split_and!; [done..|].
    by constructor; [|right|..]. }
  destruct (_ && negb blocking); [eexists _, _, _, _; split; [done|by left]|].
  destruct (_ && reuse) eqn:Er.
  - apply andb_prop in Er as [_ ->].
    split_if; eexists _, _, _, _; (split; [done|]); right; (split_and!; [done..|]).
    + constructor. split_and!; [done|done|by left].
    + constructor; try done; lia.
  - destruct (waitReady_ok base c msec w0 H0) as (st & c' & w' & -> & [(-> & -> & Hw)|[-> Hf]]);
      cbn [mbind result_bind]; eexists _, _, _, _; (split; [done|]).
    + by left.
    + right. split_and!; [done..|]. constructor. by apply failed_gives_up.
Qed.

Lemma gives_up_fd base c c0 reuse c' w : kept c = kept c0 -> gives_up base c reuse c' w ->
  gives_up base c0 reuse c' w.
Proof. intros Hf (H1 & H2 & H3). split_and!; try done. congruence. Qed.

Lemma try_addr_ok c p family blocking reuse reuses msec w : exists o n c' w',
  try_addr c p family blocking reuse reuses msec w = Ok (o, n, c', w') /\
  attempt_ends (opened w) c reuse reuses o n c' w'.
Proof.
  unfold try_addr. set (base := opened w).
  destruct (sys_socket (ai_family p) (ai_socktype p) (ai_protocol p) w) as [s w0] eqn:E0.
  apply opened_socket in E0. destruct E0 as [[-> Ho]|(Hs & Hnew & Ho)].
  { eexists _, _, _, _. split; [done|]. by constructor; [|left|..]. }
  bool_false (s =? -1). set (c1 := set_fd c s).
  assert (holding base c1 w0) as H0 by by split.
  destruct (setBlocking_ok base c1 false w0 H0) as (st & c2 & w1 & -> & [(-> & -> & H1)|[-> Hf]]);
    cbn [mbind result_bind].
  2: { eexists _, _, _, _. split; [done|]. constructor.
       by apply (failed_gives_up base c1). }
  change (REDIS_OK =? REDIS_OK) with true. cbn [negb].
  pose proof (bind_source_ok base c1 family reuse w1 H1) as Hb. change (c_fd c1) with s in Hb.
  destruct Hb as (o & c2 & w2 & -> & [(-> & -> & H2)|[-> Hg]]); cbn [mbind result_bind].
  2: { eexists _, _, _, _. split; [done|]. by constructor. }
  pose proof (connect_addr_ok base c1 p blocking reuse reuses msec w2 H2) as Hco.
  change (c_fd c1) with s in Hco.
  destruct Hco as (o & n & c2 & w3 & -> & [(-> & -> & -> & H3)|(Hne & Hsk & He)]); cbn [mbind result_bind].
  2: { exists o, n, c2, w3. split; [by destruct o|]. inversion He; subst; try done; constructor; auto. }
  assert (step_ok base c1
    (if blocking then redisSetBlocking c1 true w3 else Ok (REDIS_OK, c1, w3))) as Hb.
  { destruct blocking; [by apply setBlocking_ok|by apply step_ok_done]. }
  destruct Hb as (st & c2 & w4 & -> & [(-> & -> & H4)|[-> Hf]]); cbn [mbind result_bind].
  2: { eexists _, _, _, _. split; [done|]. constructor. by apply (failed_gives_up base c1). }
  change (REDIS_OK =? REDIS_OK) with true. cbn [negb].
  destruct (noDelay_ok base c1 w4 H4) as (st & c2 & w5 & -> & [(-> & -> & H5)|[-> Hf]]);
    cbn [mbind result_bind].
  2: { eexists _, _, _, _. split; [done|]. constructor. by apply (failed_gives_up base c1). }
  eexists _, _, _, _. split; [done|]. by constructor; [apply (holding_fd base c1)|..].
Qed.

(** ** All attempts *)
Lemma retry_addr_ok base reuse p family blocking msec fuel : forall c reuses w,
  opened w = base -> 0 <= reuses < REDIS_CONNECT_RETRIES ->
  REDIS_CONNECT_RETRIES - reuses <= Z.of_nat fuel ->
  exists o n m c' w',
    retry_addr fuel c p family blocking reuse reuses msec w = Ok (o, n, c', w') /\
    o <> Retry /\ 0 <= m < REDIS_CONNECT_RETRIES /\ attempt_ends base c reuse m o n c' w'.
Proof.
  induction fuel as [|fuel IH]; intros c reuses w Ho Hr Hf; [lia|]. cbn [retry_addr].
  destruct (try_addr_ok c p family blocking reuse reuses msec w) as (o & n & c1 & w1 & -> & He).
  cbn [mbind result_bind]. rewrite Ho in He.
  assert (o = Retry \/ o <> Retry) as [->|Hne] by (destruct o; auto).
  2: { exists o, n, reuses, c1, w1. by destruct o. }
  inversion He as [|? ? H1 H2 H3 H4 H5 H6| |]; subst.
  destruct (IH c1 (reuses + 1) w1 H1 ltac:(lia) ltac:(lia))
    as (o & n & m & c' & w' & -> & Hne & Hm & He').
  exists o, n, m, c', w'. split_and!; try done; [lia..|].
  inversion He' as [? ? G1 G2 G3 G4|? ? G1 G2 G3 G4 G5 G6|? ? ? G1|? ? G1 G2 G3]; subst; try done;
    constructor; try congruence; try done.
  - right. destruct G2; congruence.
  - by apply (gives_up_fd _ c1).
Qed.

(** How a connection ends. [quiet] is a failure that may leave no error. *)
Definition connect_ends base c (quiet : Prop) (m : result (Z * redisContext * W)) : Prop :=
  exists st c' w', m = Ok (st, c', w') /\
    ((st = REDIS_OK /\ c_err c' = c_err c /\ holding base c' w' /\
      kept c' = connected (kept c)) \/
     (st = REDIS_ERR /\ (quiet \/ c_err c' <> 0) /\ kept c' = kept c /\
      (holding base c' w' \/ (opened w' = base /\ (c_fd c' = c_fd c \/ c_fd c' = -1))))).

Lemma connect_ends_quiet base c (q1 q2 : Prop) m : (q1 -> q2) -> connect_ends base c q1 m ->
  connect_ends base c q2 m.
Proof.
  intros Hq (st & c' & w' & -> & Hc). exists st, c', w'. split; [done|].
  destruct Hc as [?|(? & H2 & ?)]; [by left|right]. split; [done|].
  split; [destruct H2; auto|done].
Qed.

Lemma try_addrs_ok base reuse ps family blocking msec : forall c reuses w,
  opened w = base -> 0 <= reuses < REDIS_CONNECT_RETRIES ->
  connect_ends base c (reuse = true) (try_addrs c ps family blocking reuse reuses msec w).
Proof.
  induction ps as [|p ps IH]; intros c reuses w Ho Hr; cbn [try_addrs].
  { unfold __redisSetError. cbn [mbind result_bind]. eexists _, _, _. split; [done|]. right.
    split_and!; [done|by right|done|]. right. split; [done|by left]. }
  destruct (retry_addr_ok base reuse p family blocking msec (Z.to_nat REDIS_CONNECT_RETRIES)
    c reuses w Ho Hr) as (o & n & m & c1 & w1 & -> & Hne & Hm & He).
  { unfold REDIS_CONNECT_RETRIES in *. lia. }
  cbn [mbind result_bind].
  inversion He as [? ? H1 H2 H3 H4|? ? H1 H2 H3 H4 H5 H6|? ? ? (H1 & H2 & H3)|? ? H1 H2 H3]; subst.
  - destruct (IH c1 n w1 H1 Hm) as (st & c2 & w2 & -> & Hc). exists st, c2, w2. split; [done|].
    destruct Hc as [(-> & E1 & E2 & E3)|(-> & E1 & E2 & E3)]; [left|right].
    + split_and!; [done|congruence|done|congruence].
    + split_and!; [done|done|congruence|]. destruct E3 as [?|[? E3]]; [by left|right].
      split; [done|]. destruct E3; [|by right]. destruct H2; [left|right]; congruence.
  - done.
  - eexists _, _, _. split; [done|]. right. split_and!; [done| |done|].
    + destruct reuse; [by left|right; auto].
    + destruct H3 as [?|[? ?]]; [by left|right; auto].
  - eexists _, _, _. split; [done|]. by left.
Qed.

Hypothesis malloc_total : forall n, malloc_ok n = true.

(** The options that are kept do not matter to the descriptors. *)
Definition same_conn c c' : Prop :=
  c_fd c' = c_fd c /\ c_err c' = c_err c /\ kept c' = kept c.

Lemma connect_ends_conn base c c' quiet m : same_conn c c' -> connect_ends base c' quiet m ->
  connect_ends base c quiet m.
Proof.
  intros (H1 & H2 & H3) (st & c2 & w' & -> & Hc). exists st, c2, w'. split; [done|].
  by rewrite H1, H2, H3 in Hc.
Qed.

Lemma keep_host_conn c addr : arg_value addr (Some []) <> None -> exists c',
  keep_host c addr = Ok c' /\ same_conn c c'.
Proof.
  intros Ha. destruct addr as [|[a|]]; [by exists c| |done]. cbn. by eexists.
Qed.

Lemma keep_source_conn c src : exists c', keep_source c src = Ok c' /\ same_conn c c'.
Proof. destruct src as [|[a|]]; by eexists. Qed.

Lemma keep_timeout_conn c tv : exists c', keep_timeout c tv = Ok c' /\ same_conn c c'.
Proof.
  destruct tv as [|[a|]]; cbn; [by eexists| |by eexists].
  destruct (c_timeout c); rewrite ?malloc_total; by eexists.
Qed.

Lemma same_conn_trans c1 c2 c3 : same_conn c1 c2 -> same_conn c2 c3 -> same_conn c1 c3.
Proof. intros (?&?&?) (?&?&?). split_and!; congruence. Qed.

Lemma connect_fails base c c' type s w (quiet : Prop) : same_conn c c' -> opened w = base ->
  type <> 0 -> connect_ends base c quiet (Ok (REDIS_ERR, set_err c' type s, w)).
Proof.
  intros (H1 & H2 & H3) Ho Ht. eexists _, _, _. split; [done|]. right.
  split_and!; [done|by right|done|]. right. split; [done|by left].
Qed.

Lemma connectTcp_ok c addr prt timeout src w : arg_value addr (Some []) <> None ->
  connect_ends (opened w) c (has_flag c REDIS_REUSEADDR = true)
    (_redisContextConnectTcp c addr prt timeout src w).
Proof.
  intros Ha. unfold _redisContextConnectTcp.
  set (c0 := set_tcp _ _). assert (same_conn c c0) as H0 by done.
  destruct (keep_host_conn c0 addr Ha) as (c1 & -> & H1). cbn [mbind result_bind].
  destruct (keep_timeout_conn c1 timeout) as (c2 & -> & H2). cbn [mbind result_bind].
  pose proof (same_conn_trans _ _ _ (same_conn_trans _ _ _ H0 H1) H2) as Hc2.
  destruct (redisContextTimeoutMsec c2) as [st msec]. split_if.
  { cbn [mbind result_bind]. by apply connect_fails; [|apply opened_freeaddrinfo|]. }
  destruct (keep_source_conn c2 src) as (c3 & -> & H3). cbn [mbind result_bind].
  pose proof (same_conn_trans _ _ _ Hc2 H3) as Hc3.
  destruct (sys_getaddrinfo (host (c_tcp c3)) _ _ w) as [[rv si] w0] eqn:E0.
  assert (opened w0 = opened w) as Ho.
  { apply (f_equal (fun m => opened m.2)) in E0. by rewrite opened_getaddrinfo in E0. }
  set (m := if rv =? 0 then _ else _).
  assert (opened m.2 = opened w) as Hm.
  { unfold m. split_if; [done|].
    destruct (sys_getaddrinfo (arg_value _ _) _ _ w0) as [[rv2 si2] w2] eqn:E2.
    apply (f_equal (fun m => opened m.2)) in E2. rewrite opened_getaddrinfo in E2. cbn in *.
    congruence. }
  destruct m as [[[rv2 si2] family] w2]. cbn [snd] in Hm. split_if.
  { cbn [mbind result_bind]. by apply connect_fails. }
  destruct (try_addrs_ok (opened w) (has_flag c REDIS_REUSEADDR) si2 family (has_flag c REDIS_BLOCK)
    msec c3 0 w2 Hm ltac:(done)) as (st2 & c4 & w4 & -> & He).
  cbn [mbind result_bind]. apply (connect_ends_conn _ _ c3); [done|].
  exists st2, c4, (sys_freeaddrinfo si2 w4). split; [done|].
  rewrite opened_freeaddrinfo. destruct He as [(-> & ? & ? & ?)|(-> & ? & ? & Hd)]; [left|right].
  - split_and!; try done. by eapply holding_world; [apply opened_freeaddrinfo|].
  - split_and!; try done. destruct Hd as [?|?]; [left|by right].
    by eapply holding_world; [apply opened_freeaddrinfo|].
Qed.

(** ** Unix sockets *)
Definition bad_timeout (t : option timeval) : Prop :=
  match t with
  | Some tv => 1000000 < tv_usec tv \/ __MAX_MSEC < tv_sec tv
  | None => False
  end.

Lemma timeoutMsec_status c st msec : redisContextTimeoutMsec c = (st, msec) ->
  (st = REDIS_OK /\ ~ bad_timeout (c_timeout c)) \/ (st = REDIS_ERR /\ bad_timeout (c_timeout c)).
Proof.
  unfold redisContextTimeoutMsec. destruct (c_timeout c) as [t|]; cbn [bad_timeout].
  2: { intros [= <- _]. left. auto. }
  destruct (1000000 <? tv_usec t) eqn:E1, (__MAX_MSEC <? tv_sec t) eqn:E2; cbn [orb];
    bool_to_prop; intros [= <- _]; (right; split; [done|lia]) || (left; split; [done|lia]).
Qed.

Lemma keep_timeout_value c tv c' : keep_timeout c tv = Ok c' ->
  c_timeout c' = arg_value tv (c_timeout c).
Proof.
  destruct tv as [|[a|]]; cbn; [by intros [= <-]| |by intros [= <-]].
  destruct (c_timeout c); rewrite ?malloc_total; by intros [= <-].
Qed.

Lemma step_connect_ends base c c1 w1 quiet st c2 w2 : same_conn c (set_fd c1 (c_fd c)) ->
  holding base c1 w1 -> st = REDIS_ERR -> failed base c1 c2 w2 ->
  connect_ends base c quiet (Ok (st, c2, w2)).
Proof.
  intros (_ & H2 & H3) Hh -> [F1 F2 F3]. eexists _, _, _. split; [done|]. right.
  split_and!; [done|by right| |].
  - rewrite F2. exact H3.
  - destruct F3 as [?|[? ?]]; [by left|right]. split; [done|by right].
Qed.

Lemma connectUnix_ok c path timeout w : arg_value path (c_path c) <> None ->
  connect_ends (opened w) c (bad_timeout (arg_value timeout (c_timeout c)))
    (redisContextConnectUnix c path timeout w).
Proof.
  intros Hp. unfold redisContextConnectUnix, redisCreateSocket. set (base := opened w).
  destruct (sys_socket AF_LOCAL SOCK_STREAM 0 w) as [s w0] eqn:E0.
  apply opened_socket in E0. destruct E0 as [[-> Ho]|(Hs & Hnew & Ho)].
  { change (-1 =? -1) with true. cbv iota. destruct (errno_error c REDIS_ERR_IO None w0) as [t ->].
    cbn [mbind result_bind]. by apply connect_fails. }
  bool_false (s =? -1). change (AF_LOCAL =? AF_INET) with false. cbn [mbind result_bind].
  change (REDIS_OK <? 0) with false. cbv iota. set (c1 := set_fd c s).
  assert (holding base c1 w0) as H0 by by split.
  assert (same_conn c (set_fd c1 (c_fd c))) as Hc1 by done.
  destruct (setBlocking_ok base c1 false w0 H0) as (st & c2 & w1 & -> & [(-> & -> & H1)|[-> Hf]]);
    cbn [mbind result_bind]; [|by apply (step_connect_ends base c c1 w0)].
  change (REDIS_OK =? REDIS_OK) with true. cbn [negb]. set (c2 := set_connection_type c1 _).
  assert (exists c3, keep_path c2 path = Ok c3 /\ same_conn c2 c3 /\ c_timeout c3 = c_timeout c /\
    arg_value path (c_path c3) <> None) as (c3 & -> & H3 & Ht3 & Hp3).
  { destruct path as [|[a|]]; [by exists c2| |done]. cbn. rewrite malloc_total. by eexists. }
  cbn [mbind result_bind]. destruct (keep_timeout_conn c3 timeout) as (c4 & Hk & H4).
  pose proof (keep_timeout_value _ _ _ Hk) as Ht4. rewrite Hk, Ht3 in *. cbn [mbind result_bind].
  assert (same_conn c1 c4) as Hc4 by by apply (same_conn_trans _ c3).
  assert (arg_value path (c_path c4) <> None) as Hp4.
  { destruct timeout as [|[a|]]; cbn in Hk; [congruence| |injection Hk as <-; done].
    destruct (c_timeout c3); rewrite ?malloc_total in Hk; cbn in Hk; injection Hk as <-; done. }
  assert (holding base c4 w1) as Hh4.
  { destruct Hc4 as (? & _ & _). by apply (holding_fd base c1). }
  assert (same_conn c (set_fd c4 (c_fd c))) as Hcc by (destruct Hc4 as (?&?&?); by split_and!).
  destruct (redisContextTimeoutMsec c4) as [st msec] eqn:Em.
  apply timeoutMsec_status in Em. rewrite Ht4 in Em. destruct Em as [[-> _]|[-> Hbad]].
  2: { eexists _, _, _. split; [done|]. right. destruct Hc4 as (?&?&?).
       split_and!; [done|by left|done|by left]. }
  change (REDIS_OK =? REDIS_OK) with true. cbn [negb].
  destruct (arg_value path (c_path c4)) as [sp|]; [|done]. cbn [deref mbind result_bind].
  call E3. assert (holding base c4 w2) as H2.
  { eapply holding_world; [|done]. by rewrite E3, opened_connect. }
  assert (step_ok base c4 (if z =? -1
    then if (sys_errno w2 =? EINPROGRESS) && negb (has_flag c REDIS_BLOCK)
         then Ok (REDIS_OK, c4, w2) else redisContextWaitReady c4 msec w2
    else Ok (REDIS_OK, c4, w2))) as Hw.
  { repeat split_if; auto using step_ok_done, waitReady_ok. }
  destruct Hw as (st & c5 & w3 & -> & [(-> & -> & H5)|[-> Hf]]);
    cbn [mbind result_bind]; [|by apply (step_connect_ends base c c4 w2)].
  change (REDIS_OK =? REDIS_OK) with true. cbn [negb].
  assert (step_ok base c4
    (if has_flag c REDIS_BLOCK then redisSetBlocking c4 true w3 else Ok (REDIS_OK, c4, w3))) as Hb.
  { split_if; auto using step_ok_done, setBlocking_ok. }
  destruct Hb as (st & c5 & w4 & -> & [(-> & -> & H6)|[-> Hf]]);
    cbn [mbind result_bind]; [|by apply (step_connect_ends base c c4 w3)].
  eexists _, _, _. split; [done|]. left. destruct Hcc as (_ & E1 & E2). 
  split_and!; [done|exact E1|by apply (holding_fd base c4)|].
  change (connected (kept c4) = connected (kept c)). by f_equal.
Qed.
End facts.
