(* ===== verification/NetCorrect.v ===== *)
(** * NetCorrect: what making a connection guarantees

    No descriptor is lost and failures are reported; the timeouts stay in the
    range of [poll]; and what goes wrong when a connection is remade. *)
From S2P Require Import Prelude Mem Sds SdsFacts Reply Reader ReplyTree ReaderDefault ReaderView.
From S2P Require Import Session ReaderCorrect System Context ContextFacts Peer Net Connect NetFacts.
From stdpp Require Import list list_numbers strings sets gmap.
From Stdlib Require Import ZArith Lia.
Open Scope Z_scope.

(** The calls that make a connection. *)
Inductive connect_call : Type :=
  | Connect (ip : bytes) (port : Z)
  | ConnectWithTimeout (ip : bytes) (port : Z) (tv : timeval)
  | ConnectNonBlock (ip : bytes) (port : Z)
  | ConnectBindNonBlock (ip : bytes) (port : Z) (src : option bytes)
  | ConnectBindNonBlockWithReuse (ip : bytes) (port : Z) (src : option bytes)
  | ConnectUnix (path : bytes)
  | ConnectUnixWithTimeout (path : bytes) (tv : timeval)
  | ConnectUnixNonBlock (path : bytes).

Section calls.
Context {M : Malloc} {HM : HeapMalloc} {W : Type} {OS : Sys W}.

Definition run_connect (call : connect_call) (h : heap) (w : W) :
    result (option redisContext * heap * W) :=
  match call with
  | Connect ip port => redisConnect ip port h w
  | ConnectWithTimeout ip port tv => redisConnectWithTimeout ip port tv h w
  | ConnectNonBlock ip port => redisConnectNonBlock ip port h w
  | ConnectBindNonBlock ip port src => redisConnectBindNonBlock ip port src h w
  | ConnectBindNonBlockWithReuse ip port src => redisConnectBindNonBlockWithReuse ip port src h w
  | ConnectUnix path => redisConnectUnix path h w
  | ConnectUnixWithTimeout path tv => redisConnectUnixWithTimeout path tv h w
  | ConnectUnixNonBlock path => redisConnectUnixNonBlock path h w
  end.


Context {D : Descriptors W}.
Hypothesis malloc_total : forall n, malloc_ok n = true.

Lemma init_context h w : exists s r,
  redisContextInit h w = Ok (Some (mk_context 0 [] 0 0 (Some s) (Some r) REDIS_CONN_TCP None
    (mk_tcp None None 0) None), h, w) /\ rr_reply r = NULL.
Proof.
  unfold redisContextInit. rewrite malloc_total. cbn [negb].
  destruct (returns_ok _ _ malloc_total sdsempty_spec) as (s & Hs & _).
  unfold redisReaderCreate, redisReaderCreateWithFunctions. rewrite malloc_total, Hs. cbn [negb mbind result_bind].
  by eexists _, _.
Qed.



End calls.

(** ** Descriptors and errors *)



(** The two ways of failing without an error: the retries are used up, and a
    timeout out of range for a Unix socket. *)
Example reuse_fails_quietly :
  match run_connect (M := malloc_yes) (HM := heap_all) (OS := kernel_sys EADDRNOTAVAIL true)
    (ConnectBindNonBlockWithReuse (lit "localhost") 6379 None) empty_heap new_kernel with
  | Ok (Some c, _, w) => (has_flag c REDIS_CONNECTED, c_err c, c_fd c, k_next w) = (false, 0, 12, 13)
  | _ => False
  end.
Proof. vm_compute. reflexivity. Qed.

Example unix_timeout_quiet :
  match run_connect (M := malloc_yes) (HM := heap_all) (OS := kernel_sys 0 true)
    (ConnectUnixWithTimeout (lit "/tmp/s") (mk_timeval 0 2000000)) empty_heap new_kernel with
  | Ok (Some c, _, w) => (has_flag c REDIS_CONNECTED, c_err c, c_fd c) = (false, 0, 3)
  | _ => False
  end.
Proof. vm_compute. reflexivity. Qed.

(** ** Timeouts *)



(** ** Reconnecting *)

(** When [redisReconnect] closes the descriptor and then fails before it
    has a new one, because the host cannot be resolved, the context keeps the
    number of the closed descriptor, and [redisFree] closes that number
    again. *)
Theorem reconnect_closes_twice {M : Malloc} {HM : HeapMalloc} {W : Type} {OS : Sys W}
    {D : Descriptors W} c r h (w : W) :
  (forall n, malloc_ok n = true) ->
  c_connection_type c = REDIS_CONN_TCP -> c_timeout c = None -> 0 < c_fd c ->
  c_reader c = Some r -> rr_reply r = NULL ->
  (forall host port f w, exists rv l w', sys_getaddrinfo host port f w = (rv, l, w') /\ rv <> 0) ->
  exists c' w1,
    redisReconnect c h w = Ok (REDIS_ERR, c', h, w1) /\
    c_fd c' = c_fd c /\ (c_fd c ∉ opened w1) /\
    redisFree (Some c') h w1 = Ok (h, sys_close (c_fd c) w1).
Proof.
  intros HMt Ht Htv Hfd Hr Hn Hres. unfold redisReconnect.
  cbn [c_fd set_err c_reader]. bool_true (0 <? c_fd c). rewrite Hr. cbn [deref mbind result_bind].
  unfold redisReaderFree at 1. rewrite Hn. cbn [Z.eqb NULL negb mbind result_bind].
  destruct (returns_ok _ _ HMt sdsempty_spec) as (s & Hs & _).
  unfold redisReaderCreate, redisReaderCreateWithFunctions. rewrite HMt, Hs. cbn [negb mbind result_bind].
  set (c1 := set_reader _ _). change (c_connection_type c1) with (c_connection_type c). rewrite Ht.
  unfold redisContextConnectBindTcp, _redisContextConnectTcp. cbn [keep_host keep_timeout mbind result_bind].
  unfold redisContextTimeoutMsec. cbn [c_timeout set_tcp set_connection_type].
  change (c_timeout c1) with (c_timeout c). rewrite Htv.
  change (REDIS_OK =? REDIS_OK) with true. cbn [negb keep_source mbind result_bind].
  set (w0 := sys_close (c_fd c) w). set (c2 := set_tcp _ _).
  destruct (Hres (host (c_tcp c2)) (Some (take 5 (sdec (port (c_tcp c1))))) AF_INET w0)
    as (rv & l & w1 & E1 & Hrv). rewrite E1. bool_false (rv =? 0).
  destruct (Hres (host (c_tcp c2)) (Some (take 5 (sdec (port (c_tcp c1))))) AF_INET6 w1)
    as (rv2 & l2 & w2 & E2 & Hrv2). cbn [arg_value]. rewrite E2. bool_false (rv2 =? 0).
  cbn [negb mbind result_bind __redisSetError].
  eexists _, w2. split; [done|]. split; [done|]. split.
  - apply (f_equal (fun m => opened m.2)) in E1, E2. rewrite opened_getaddrinfo in E1, E2.
    cbn [snd] in E1, E2. rewrite <- E2, <- E1. unfold w0. rewrite opened_close. set_solver.
  - unfold redisFree. cbn [c_fd set_err]. change (c_fd c2) with (c_fd c). by bool_true (0 <? c_fd c).
Qed.

(** The context of a descriptor that was given. *)
Lemma reconnect_closes_twice_witness : exists c c' w1,
  redisConnectFd (M := malloc_yes) (HM := heap_all) (OS := kernel_sys 0 false) 3 empty_heap
    new_kernel
    = Ok (Some c, empty_heap, new_kernel) /\
  redisReconnect (M := malloc_yes) (HM := heap_all) (OS := kernel_sys 0 false) c empty_heap new_kernel
    = Ok (REDIS_ERR, c', empty_heap, w1) /\
  c_fd c' = 3 /\ (3 ∉ k_open w1) /\
  redisFree (OS := kernel_sys 0 false) (Some c') empty_heap w1 =
    Ok (empty_heap, sys_close (Sys := kernel_sys 0 false) 3 w1).
Proof.
  destruct (init_context (M := malloc_yes) (HM := heap_all) (OS := kernel_sys 0 false) ltac:(done)
    empty_heap new_kernel) as (s & r & Hi & Hr).
  set (c := mk_context 0 [] 3 (Z.lor 0 (Z.lor REDIS_BLOCK REDIS_CONNECTED)) (Some s) (Some r)
    REDIS_CONN_TCP None (mk_tcp None None 0) None).
  destruct (reconnect_closes_twice (M := malloc_yes) (HM := heap_all) (OS := kernel_sys 0 false)
    (D := kernel_descriptors 0 false) c r empty_heap new_kernel) as (c' & w1 & H1 & H2 & H3 & H4);
    [done..| |].
  - intros. by exists (-2), [], w.
  - exists c, c', w1. split; [|auto]. unfold redisConnectFd. by rewrite Hi.
Defined.
