(* ===== verification/Callbacks.v ===== *)
(** * Callbacks: the callback lists of async.c

    A callback is queued in a node of its own; nodes are linked by [next] and
    a list is the pair of its first and its last node. [NULL] is 0. *)
From S2P Require Import Prelude Mem Reply.
From stdpp Require Import list list_numbers strings sets gmap.
From Stdlib Require Import ZArith Lia.
Open Scope Z_scope.

(** [cb_fn] is the function, 0 for [NULL]; [cb_next] is kept by the node. *)
Record redisCallback : Type := mk_cb {
  cb_fn : Z;
  cb_privdata : Z
}.

Record cb_node : Type := mk_node {
  cb_next : Z;
  cb_data : redisCallback
}.

Record redisCallbackList : Type := mk_cblist {
  l_head : Z;
  l_tail : Z
}.

Definition empty_cblist : redisCallbackList := mk_cblist NULL NULL.

(** The store of nodes and the next pointer that [malloc] returns. *)
Record cb_store : Type := mk_store {
  nodes : gmap Z cb_node;
  next_node : Z
}.

Definition node_at (s : cb_store) (p : Z) : result cb_node :=
  if p =? NULL then Fault NullDeref else
  match nodes s !! p with Some n => Ok n | None => Fault OutOfBounds end.

Definition set_node (s : cb_store) (p : Z) (n : cb_node) : cb_store :=
  mk_store (<[p := n]> (nodes s)) (next_node s).

Section callbacks.
Context {M : Malloc}.

(** [sizeof(redisCallback)] is 24. *)
Definition __redisPushCallback (l : redisCallbackList) (source : redisCallback) (s : cb_store) :
    result (Z * redisCallbackList * cb_store) :=
  if negb (malloc_ok 24) then Ok (REDIS_ERR_OOM, l, s) else
  let cb := next_node s in
  let s := mk_store (<[cb := mk_node NULL source]> (nodes s)) (cb + 1) in
  let head := if l_head l =? NULL then cb else l_head l in
  s ← (if negb (l_tail l =? NULL) then
         n ← node_at s (l_tail l); Ok (set_node s (l_tail l) (mk_node cb (cb_data n)))
       else Ok s);
  Ok (REDIS_OK, mk_cblist head cb, s).

(** The callback that is copied to [target], when there is one. *)
Definition __redisShiftCallback (l : redisCallbackList) (s : cb_store) :
    result (Z * option redisCallback * redisCallbackList * cb_store) :=
  let cb := l_head l in
  if negb (cb =? NULL) then
    n ← node_at s cb;
    let l := mk_cblist (cb_next n) (if cb =? l_tail l then NULL else l_tail l) in
    Ok (REDIS_OK, Some (cb_data n), l, mk_store (delete cb (nodes s)) (next_node s))
  else Ok (REDIS_ERR, None, l, s).
End callbacks.

(** ** Queues

    [queue s l q]: the list [l] holds the callbacks of [q] in order, each in a
    node [p] of the store. *)
Fixpoint links (s : gmap Z cb_node) (p : Z) (q : list (Z * redisCallback)) : Prop :=
  match q with
  | [] => p = NULL
  | (p', cb) :: q =>
      p = p' /\ p <> NULL /\ exists nx, s !! p = Some (mk_node nx cb) /\ links s nx q
  end.

Definition tail_of (q : list (Z * redisCallback)) : Z :=
  match last q with Some x => x.1 | None => NULL end.

(** [F] are the nodes of the other lists. *)
Record queue (s : cb_store) (l : redisCallbackList) (q : list (Z * redisCallback)) : Prop := {
  q_links : links (nodes s) (l_head l) q;
  q_tail : l_tail l = tail_of q;
  q_nodup : NoDup q.*1
}.

(** A store in which fresh nodes are new. *)
Definition cbs_ok (s : cb_store) : Prop :=
  0 < next_node s /\ forall p n, nodes s !! p = Some n -> p < next_node s.

Lemma links_in s p q x : links s p q -> x ∈ q -> x.1 <> NULL /\ is_Some (s !! x.1).
Proof.
  revert p. induction q as [|[p' cb] q IH]; intros p Hl Hx; [by apply elem_of_nil in Hx|].
  destruct Hl as (-> & Hp & nx & Hs & Hl). apply elem_of_cons in Hx as [->|Hx].
  - cbn. split; [done|by eexists].
  - by eapply IH.
Qed.

Lemma links_insert s p q r n : links s p q -> r ∉ q.*1 -> links (<[r := n]> s) p q.
Proof.
  revert p. induction q as [|[p' cb] q IH]; intros p Hl Hr; [done|]. cbn in Hr.
  apply not_elem_of_cons in Hr as [Hne Hr]. destruct Hl as (-> & Hp & nx & Hs & Hl).
  split_and!; try done. exists nx. rewrite lookup_insert_ne by done. split; [done|by apply IH].
Qed.

Lemma links_delete s p q r : links s p q -> r ∉ q.*1 -> links (delete r s) p q.
Proof.
  revert p. induction q as [|[p' cb] q IH]; intros p Hl Hr; [done|]. cbn in Hr.
  apply not_elem_of_cons in Hr as [Hne Hr]. destruct Hl as (-> & Hp & nx & Hs & Hl).
  split_and!; try done. exists nx. rewrite lookup_delete_ne by done. split; [done|by apply IH].
Qed.

Lemma links_head s p q : links s p q -> (p = NULL <-> q = []).
Proof. destruct q as [|[p' cb] q]; cbn; [done|]. intros (-> & Hp & _). done. Qed.

(** Linking a new last node. *)
Lemma links_snoc s p q r cb : links s p q -> NoDup q.*1 -> r <> NULL -> r ∉ q.*1 ->
  s !! r = Some (mk_node NULL cb) ->
  links (match last q with
         | Some x => <[x.1 := mk_node r x.2]> s
         | None => s
         end) (if p =? NULL then r else p) (q ++ [(r, cb)]).
Proof.
  revert p. induction q as [|[p' c'] q IH]; intros p Hl Hnd Hr Hrq Hs.
  - cbn in *. subst p. by split_and!; [..|exists NULL].
  - cbn in Hnd, Hrq. apply NoDup_cons in Hnd as [Hp' Hnd]. apply not_elem_of_cons in Hrq as [Hne Hrq].
    destruct Hl as (-> & Hp & nx & Hn & Hl). bool_false (p' =? NULL).
    destruct q as [|x q].
    + cbn in Hl. subst nx. cbn. split_and!; try done. exists r.
      rewrite lookup_insert_eq. split; [done|]. split_and!; try done. exists NULL.
      by rewrite lookup_insert_ne.
    + specialize (IH nx Hl Hnd Hr Hrq Hs).
      assert (nx <> NULL) as Hnx.
      { intros E. by apply (links_head _ _ _ Hl) in E. }
      rewrite (proj2 (Z.eqb_neq nx NULL) Hnx) in IH.
      change (last ((p', c') :: x :: q)) with (last (x :: q)).
      destruct (last (x :: q)) as [y|] eqn:El; [|by apply last_None in El].
      split_and!; try done. exists nx. split; [|done].
      rewrite lookup_insert_ne; [done|]. intros <-. apply Hp'.
      apply last_Some_elem_of in El. apply list_elem_of_fmap. by exists y.
Qed.

Lemma tail_in q : q <> [] -> tail_of q ∈ q.*1.
Proof.
  intros Hq. unfold tail_of. destruct (last q) as [x|] eqn:E; [|by apply last_None in E].
  apply last_Some_elem_of in E. apply list_elem_of_fmap. by exists x.
Qed.

Section specs.
Context {M : Malloc}.

(** A push adds at the end, a shift takes from the front. *)
Lemma push_queue s l q cb : malloc_ok 24 = true -> cbs_ok s -> queue s l q -> exists p l' s',
  __redisPushCallback l cb s = Ok (REDIS_OK, l', s') /\ queue s' l' (q ++ [(p, cb)]) /\ cbs_ok s' /\
  (p ∉ q.*1) /\
  forall l2 q2, queue s l2 q2 -> (forall x, x ∈ q2.*1 -> x ∉ q.*1) -> queue s' l2 q2 /\ (p ∉ q2.*1).
Proof.
  intros Hm [Hn Hs] [Hl Ht Hnd]. unfold __redisPushCallback. rewrite Hm. cbn [negb].
  set (p := next_node s). set (s1 := mk_store (<[p := mk_node NULL cb]> (nodes s)) (p + 1)).
  assert (forall q2 pq, links (nodes s) pq q2 -> p ∉ q2.*1) as Hfresh.
  { intros q2 pq H2 Hin. apply list_elem_of_fmap in Hin as (x & Hx & Hin).
    destruct (links_in _ _ _ _ H2 Hin) as [_ [n Hxn]]. apply Hs in Hxn. unfold p in Hx. lia. }
  pose proof (Hfresh _ _ Hl) as Hp.
  assert (links (nodes s1) (l_head l) q) as Hl1 by by apply links_insert.
  assert (p <> NULL) as Hp0 by (unfold p, NULL; lia).
  pose proof (links_snoc _ _ _ p cb Hl1 Hnd Hp0 Hp (lookup_insert_eq _ _ _)) as Hsn.
  assert (NoDup (q ++ [(p, cb)]).*1) as Hnd'.
  { rewrite fmap_app. apply NoDup_app. split_and!; [done| |apply NoDup_singleton].
    intros x Hx ->%list_elem_of_singleton. done. }
  assert (tail_of (q ++ [(p, cb)]) = p) as Htl by (unfold tail_of; by rewrite last_snoc).
  rewrite Ht. destruct (last q) as [[t ct]|] eqn:El.
  - assert (tail_of q = t) as -> by (unfold tail_of; by rewrite El).
    assert ((t, ct) ∈ q) as Hin by by apply last_Some_elem_of.
    destruct (links_in _ _ _ _ Hl1 Hin) as [Ht0 [nt Hnt]]. cbn [fst] in Ht0, Hnt.
    assert (t <> p) as Htp.
    { intros ->. apply Hp. apply list_elem_of_fmap. by exists (p, ct). }
    assert (cb_data nt = ct) as Hct.
    { clear -Hl1 Hin Hnt. revert Hl1 Hin. generalize (l_head l). induction q as [|[a ca] q IH].
      - intros ? _ ?%elem_of_nil. done.
      - intros h (-> & _ & nx & Ha & Hl) [[= -> ->]|Hin]%elem_of_cons; [|by eapply IH].
        rewrite Ha in Hnt. by injection Hnt as <-. }
    bool_false (t =? NULL). cbn [negb]. unfold node_at. bool_false (t =? NULL). rewrite Hnt.
    cbn [mbind result_bind]. rewrite Hct.
    eexists p, _, _. split; [done|]. split_and!; [split; [exact Hsn|done|done]| |done|].
    + split; [cbn; unfold p; lia|]. cbn. intros r n Hr. unfold p in *.
      destruct (decide (r = t)) as [->|]; [|rewrite lookup_insert_ne in Hr by done].
      * cbn in Hnt. rewrite lookup_insert_ne in Hnt by done. apply Hs in Hnt. lia.
      * destruct (decide (r = next_node s)) as [->|]; [lia|].
        rewrite lookup_insert_ne in Hr by done. apply Hs in Hr. lia.
    + intros l2 q2 [G1 G2 G3] Hdis. split; [split; try done|by eapply Hfresh].
      apply links_insert; [apply links_insert; [done|by eapply Hfresh]|].
      intros Hin2. apply Hdis in Hin2. apply Hin2. apply list_elem_of_fmap. by exists (t, ct).
  - apply last_None in El as ->. cbn in Ht, Hsn, Hl. change (tail_of []) with NULL.
    cbn [negb Z.eqb NULL mbind result_bind]. eexists p, _, _. split; [done|].
    split_and!; [split; [exact Hsn|done|done]| |done|].
    + split; [cbn; unfold p; lia|]. cbn. intros r n Hr. unfold p in *.
      destruct (decide (r = next_node s)) as [->|]; [lia|].
      rewrite lookup_insert_ne in Hr by done. apply Hs in Hr. lia.
    + intros l2 q2 [G1 G2 G3] Hdis. split; [split; try done|by eapply Hfresh].
      apply links_insert; [done|by eapply Hfresh].
Qed.

Lemma shift_empty s l : queue s l [] -> __redisShiftCallback l s = Ok (REDIS_ERR, None, l, s).
Proof. intros [Hl _ _]. unfold __redisShiftCallback. cbn in Hl. by rewrite Hl. Qed.

Lemma shift_queue s l p cb q : queue s l ((p, cb) :: q) -> exists l' s',
  __redisShiftCallback l s = Ok (REDIS_OK, Some cb, l', s') /\ queue s' l' q /\
  next_node s' = next_node s /\ nodes s' = delete p (nodes s).
Proof.
  intros [(Hh & Hp & nx & Hs & Hl) Ht Hnd]. unfold __redisShiftCallback. rewrite Hh in *.
  bool_false (p =? NULL). cbn [negb]. unfold node_at. bool_false (p =? NULL). rewrite Hs.
  cbn [mbind result_bind cb_next cb_data]. eexists _, _. split; [done|].
  cbn in Hnd. apply NoDup_cons in Hnd as [Hpq Hnd]. split; [|done]. split; [by apply links_delete| |done].
  cbn [l_tail]. rewrite Ht. destruct q as [|x q].
  - cbn. unfold tail_of. cbn. by rewrite Z.eqb_refl.
  - change (tail_of ((p, cb) :: x :: q)) with (tail_of (x :: q)).
    pose proof (tail_in (x :: q) ltac:(done)) as Hin.
    assert (p <> tail_of (x :: q)) as Hne by (intros ->; done).
    by rewrite (proj2 (Z.eqb_neq _ _) Hne).
Qed.

Lemma shift_frame s p l q : queue s l q -> p ∉ q.*1 ->
  queue (mk_store (delete p (nodes s)) (next_node s)) l q.
Proof. intros [H1 H2 H3] Hp. split; try done. by apply links_delete. Qed.
End specs.

(** ** Queues of the client

    Pushes and shifts of one list, and what they do to a list of callbacks. *)
Inductive list_op : Type :=
  | Push (cb : redisCallback)
  | Shift.

Section operations.
Context {M : Malloc}.

Fixpoint run_list (ops : list list_op) (l : redisCallbackList) (s : cb_store) :
    result (list (Z * option redisCallback) * redisCallbackList * cb_store) :=
  match ops with
  | [] => Ok ([], l, s)
  | Push cb :: ops =>
      '(st, l, s) ← __redisPushCallback l cb s;
      '(out, l, s) ← run_list ops l s; Ok ((st, None) :: out, l, s)
  | Shift :: ops =>
      '(st, cb, l, s) ← __redisShiftCallback l s;
      '(out, l, s) ← run_list ops l s; Ok ((st, cb) :: out, l, s)
  end.

Fixpoint run_fifo (ops : list list_op) (q : list redisCallback) :
    list (Z * option redisCallback) * list redisCallback :=
  match ops, q with
  | [], _ => ([], q)
  | Push cb :: ops, _ =>
      if malloc_ok 24 then let '(out, q) := run_fifo ops (q ++ [cb]) in ((REDIS_OK, None) :: out, q)
      else let '(out, q) := run_fifo ops q in ((REDIS_ERR_OOM, None) :: out, q)
  | Shift :: ops, cb :: q => let '(out, q) := run_fifo ops q in ((REDIS_OK, Some cb) :: out, q)
  | Shift :: ops, [] => let '(out, q) := run_fifo ops [] in ((REDIS_ERR, None) :: out, q)
  end.

(** C24: a list of callbacks is a first-in first-out queue under any sequence
    of pushes and shifts, allocations that fail included: the operations never
    touch a node that is not in the store, the list stays linked from its head
    to its tail without repetition, and the nodes of every other list stay as
    they are. *)
Theorem callback_list_fifo ops s l q : cbs_ok s -> queue s l q -> exists out l' s' q',
  run_list ops l s = Ok (out, l', s') /\ queue s' l' q' /\ cbs_ok s' /\
  run_fifo ops q.*2 = (out, q'.*2) /\
  forall l2 q2, queue s l2 q2 -> (forall x, x ∈ q2.*1 -> x ∉ q.*1) -> queue s' l2 q2.
Proof.
  revert s l q. induction ops as [|[cb|] ops IH]; intros s l q Hok Hq.
  - exists [], l, s, q. by split_and!.
  - cbn [run_list run_fifo]. destruct (malloc_ok 24) eqn:Em.
    + destruct (push_queue s l q cb Em Hok Hq) as (p & l1 & s1 & -> & Hq1 & Hok1 & Hp & Hfr).
      destruct (IH s1 l1 _ Hok1 Hq1) as (out & l' & s' & q' & Hrun & Hq' & Hok' & Hf & Hfr').
      exists ((REDIS_OK, None) :: out), l', s', q'. cbn [mbind result_bind]. rewrite Hrun.
      rewrite fmap_app in Hf. cbn [fmap list_fmap snd] in Hf. rewrite Hf. split_and!; try done.
      intros l2 q2 H2 Hd. destruct (Hfr l2 q2 H2 Hd) as [H2' Hp2]. apply Hfr'; [done|].
      intros x Hx. rewrite fmap_app, not_elem_of_app. split; [by apply Hd|].
      intros ->%list_elem_of_singleton. done.
    + unfold __redisPushCallback. rewrite Em.
      destruct (IH s l q Hok Hq) as (out & l' & s' & q' & Hrun & Hq' & Hok' & Hf & Hfr').
      exists ((REDIS_ERR_OOM, None) :: out), l', s', q'. cbn [negb mbind result_bind]. rewrite Hrun, Hf.
      by split_and!.
  - cbn [run_list]. destruct q as [|[p cb] q].
    + rewrite (shift_empty _ _ Hq).
      destruct (IH s l [] Hok Hq) as (out & l' & s' & q' & Hrun & Hq' & Hok' & Hf & Hfr').
      exists ((REDIS_ERR, None) :: out), l', s', q'. cbn [mbind result_bind]. rewrite Hrun.
      cbn [fmap list_fmap run_fifo] in *. rewrite Hf. by split_and!.
    + destruct (shift_queue _ _ _ _ _ Hq) as (l1 & s1 & -> & Hq1 & Hn & Hdel).
      assert (Hok1 : cbs_ok s1).
      { destruct Hok as [H1 H2]. split; [by rewrite Hn|]. rewrite Hn, Hdel.
        intros x n [_ Hx]%lookup_delete_Some. by eapply H2. }
      destruct (IH s1 l1 q Hok1 Hq1) as (out & l' & s' & q' & Hrun & Hq' & Hok' & Hf & Hfr').
      exists ((REDIS_OK, Some cb) :: out), l', s', q'. cbn [mbind result_bind]. rewrite Hrun.
      cbn [fmap list_fmap run_fifo snd]. rewrite Hf. split_and!; try done.
      intros l2 q2 H2 Hd. apply Hfr'.
      * destruct H2 as [G1 G2 G3]. split; try done. rewrite Hdel. apply links_delete; [done|].
        intros Hp. apply Hd in Hp. apply Hp. by left.
      * intros x Hx Hxq. apply Hd in Hx. apply Hx. by right.
Qed.
End operations.

Lemma callback_list_fifo_witness :
  let M := {| malloc_ok := fun _ => true; junk := fun _ => 0 |} in
  exists l' s' q',
    run_list [Push (mk_cb 7 1); Push (mk_cb 8 2); Shift; Push (mk_cb 9 3); Shift] empty_cblist
      (mk_store ∅ 1) =
      Ok ([(REDIS_OK, None); (REDIS_OK, None); (REDIS_OK, Some (mk_cb 7 1)); (REDIS_OK, None);
           (REDIS_OK, Some (mk_cb 8 2))], l', s') /\
    queue s' l' q' /\ q'.*2 = [mk_cb 9 3].
Proof.
  intros M. set (ops := [Push (mk_cb 7 1); Push (mk_cb 8 2); Shift; Push (mk_cb 9 3); Shift]).
  destruct (callback_list_fifo ops (mk_store ∅ 1) empty_cblist [])
    as (out & l' & s' & q' & H1 & H2 & _ & H3 & _).
  - split; [done|]. intros p n. cbn. by rewrite lookup_empty.
  - split; [done|done|constructor].
  - exists l', s', q'. injection H3 as H4 H5. rewrite H4. by split_and!.
Defined.
