(* ===== verification/Async.v ===== *)
(** * Async: contexts driven by an event loop (async.c)

    [redisAsyncContext] with its callback lists and its subscriptions: the
    operations of async.c in a state monad over the context, the stores of
    replies, callbacks and dictionary entries, and the world. The client's
    callbacks are code of the client: they are a parameter that says, from what
    has happened so far, which functions of the library the callback calls. *)
From S2P Require Import Prelude Mem Sds SdsFacts Reply Reader Format System Context Net Connect.
From S2P Require Import Dict Callbacks.
From stdpp Require Import list list_numbers strings sets gmap.
From Stdlib Require Import ZArith Lia.
Open Scope Z_scope.

(** ** The dictionaries of subscriptions

    Keys are the contents of sds strings. The memory of keys and values is not
    tracked, so that the destructors have nothing to do. *)
Definition callbackHash (key : bytes) : Z :=
  match dictGenHashFunction key (zlen key) with Ok h => h | Fault _ => 0 end.

Definition callbackKeyCompare (key1 key2 : bytes) : bool :=
  let l1 := s32 (zlen key1) in
  let l2 := s32 (zlen key2) in
  if negb (l1 =? l2) then false
  else memcmp (take (Z.to_nat (u64 l1)) key1) (take (Z.to_nat (u64 l1)) key2) =? 0.

Definition callbackDict : dictType bytes redisCallback unit := {|
  hashFunction := callbackHash;
  keyDup := None;
  valDup := Some (fun src => src);
  keyCompare := Some callbackKeyCompare;
  keyDestructor := Some (fun _ x => x);
  valDestructor := Some (fun _ x => x)
|}.

(** ** The context (async.h) *)

(** Which hooks of the event library are set. *)
Record event_hooks : Type := mk_hooks {
  has_addRead : bool;
  has_delRead : bool;
  has_addWrite : bool;
  has_delWrite : bool;
  has_cleanup : bool
}.

(** [ac->errstr] is [NULL] or points to [c->errstr]: [a_errstr] says which.
    A function pointer is a number, 0 for [NULL]. *)
Record redisAsyncContext : Type := mk_async {
  a_c : redisContext;
  a_err : Z;
  a_errstr : bool;
  a_ev : event_hooks;
  a_onConnect : Z;
  a_onDisconnect : Z;
  a_replies : redisCallbackList;
  a_invalid : redisCallbackList;
  a_channels : dict;
  a_patterns : dict
}.

Definition set_c ac (c : redisContext) : redisAsyncContext :=
  mk_async c (a_err ac) (a_errstr ac) (a_ev ac) (a_onConnect ac) (a_onDisconnect ac)
    (a_replies ac) (a_invalid ac) (a_channels ac) (a_patterns ac).
Definition set_a_err ac (err : Z) : redisAsyncContext :=
  mk_async (a_c ac) err true (a_ev ac) (a_onConnect ac) (a_onDisconnect ac)
    (a_replies ac) (a_invalid ac) (a_channels ac) (a_patterns ac).
Definition set_onConnect ac (fn : Z) : redisAsyncContext :=
  mk_async (a_c ac) (a_err ac) (a_errstr ac) (a_ev ac) fn (a_onDisconnect ac)
    (a_replies ac) (a_invalid ac) (a_channels ac) (a_patterns ac).
Definition set_onDisconnect ac (fn : Z) : redisAsyncContext :=
  mk_async (a_c ac) (a_err ac) (a_errstr ac) (a_ev ac) (a_onConnect ac) fn
    (a_replies ac) (a_invalid ac) (a_channels ac) (a_patterns ac).
Definition set_replies ac (l : redisCallbackList) : redisAsyncContext :=
  mk_async (a_c ac) (a_err ac) (a_errstr ac) (a_ev ac) (a_onConnect ac) (a_onDisconnect ac)
    l (a_invalid ac) (a_channels ac) (a_patterns ac).
Definition set_invalid ac (l : redisCallbackList) : redisAsyncContext :=
  mk_async (a_c ac) (a_err ac) (a_errstr ac) (a_ev ac) (a_onConnect ac) (a_onDisconnect ac)
    (a_replies ac) l (a_channels ac) (a_patterns ac).
Definition set_channels ac (d : dict) : redisAsyncContext :=
  mk_async (a_c ac) (a_err ac) (a_errstr ac) (a_ev ac) (a_onConnect ac) (a_onDisconnect ac)
    (a_replies ac) (a_invalid ac) d (a_patterns ac).
Definition set_patterns ac (d : dict) : redisAsyncContext :=
  mk_async (a_c ac) (a_err ac) (a_errstr ac) (a_ev ac) (a_onConnect ac) (a_onDisconnect ac)
    (a_replies ac) (a_invalid ac) (a_channels ac) d.

(** What the library calls outside: the callbacks of the client, with the
    store of replies as the callback of a reply finds it, and the hooks. *)
Inductive event : Type :=
  | EvReply (fn privdata reply : Z) (h : heap)
  | EvConnect (fn status : Z)
  | EvDisconnect (fn status : Z)
  | EvAddRead
  | EvDelRead
  | EvAddWrite
  | EvDelWrite
  | EvCleanup.

(** What the callback of a client may call. *)
Inductive action : Type :=
  | ActCommand (fn privdata : Z) (cmd : bytes) (len : Z)
  | ActSetConnect (fn : Z)
  | ActSetDisconnect (fn : Z)
  | ActDisconnect
  | ActFree.

Section async.
Context {M : Malloc} {HM : HeapMalloc} {W : Type} {OS : Sys W}.

(** The state of a program with one asynchronous context; [s_freed] when the
    memory of the context was released. *)
Record state : Type := mk_state {
  s_ac : redisAsyncContext;
  s_heap : heap;
  s_cbs : cb_store;
  s_dicts : world bytes redisCallback unit;
  s_sys : W;
  s_log : list event;
  s_freed : bool
}.

(** ** The monad *)
Definition async (A : Type) : Type := state -> result (A * state).
#[export] Instance async_ret : MRet async := fun A a s => Ok (a, s).
#[export] Instance async_bind : MBind async := fun A B k m s =>
  match m s with
  | Ok (a, s) => k a s
  | Fault f => Fault f
  end.

Definition fault {A} (f : fault) : async A := fun _ => Fault f.
Definition lift {A} (m : result A) : async A := fun s => a ← m; Ok (a, s).

(** Access to the context: none after it was freed. *)
Definition get_ac : async redisAsyncContext := fun s =>
  if s_freed s then Fault OutOfBounds else Ok (s_ac s, s).
Definition put_ac (ac : redisAsyncContext) : async unit := fun s =>
  if s_freed s then Fault OutOfBounds else
  Ok (tt, mk_state ac (s_heap s) (s_cbs s) (s_dicts s) (s_sys s) (s_log s) (s_freed s)).
Definition get_c : async redisContext := ac ← get_ac; mret (a_c ac).
Definition put_c (c : redisContext) : async unit := ac ← get_ac; put_ac (set_c ac c).

Definition gets {A} (f : state -> A) : async A := fun s => Ok (f s, s).
Definition put_heap (h : heap) : async unit := fun s =>
  Ok (tt, mk_state (s_ac s) h (s_cbs s) (s_dicts s) (s_sys s) (s_log s) (s_freed s)).
Definition put_cbs (cbs : cb_store) : async unit := fun s =>
  Ok (tt, mk_state (s_ac s) (s_heap s) cbs (s_dicts s) (s_sys s) (s_log s) (s_freed s)).
Definition put_dicts (d : world bytes redisCallback unit) : async unit := fun s =>
  Ok (tt, mk_state (s_ac s) (s_heap s) (s_cbs s) d (s_sys s) (s_log s) (s_freed s)).
Definition put_sys (w : W) : async unit := fun s =>
  Ok (tt, mk_state (s_ac s) (s_heap s) (s_cbs s) (s_dicts s) w (s_log s) (s_freed s)).
Definition log (e : event) : async unit := fun s =>
  Ok (tt, mk_state (s_ac s) (s_heap s) (s_cbs s) (s_dicts s) (s_sys s) (s_log s ++ [e]) (s_freed s)).
Definition release : async unit := fun s =>
  Ok (tt, mk_state (s_ac s) (s_heap s) (s_cbs s) (s_dicts s) (s_sys s) (s_log s) true).

Definition when (b : bool) (m : async unit) : async unit := if b then m else mret tt.

(** The context with flags [f] set or cleared. *)
Definition raise (f : Z) : async unit := c ← get_c; put_c (add_flag c f).
Definition lower (f : Z) : async unit := c ← get_c; put_c (clear_flag c f).
Definition flagged (f : Z) : async bool := c ← get_c; mret (has_flag c f).

(** ** The hooks *)
Definition _EL_ADD_READ : async unit := ac ← get_ac; when (has_addRead (a_ev ac)) (log EvAddRead).
Definition _EL_DEL_READ : async unit := ac ← get_ac; when (has_delRead (a_ev ac)) (log EvDelRead).
Definition _EL_ADD_WRITE : async unit :=
  ac ← get_ac; when (has_addWrite (a_ev ac)) (log EvAddWrite).
Definition _EL_DEL_WRITE : async unit :=
  ac ← get_ac; when (has_delWrite (a_ev ac)) (log EvDelWrite).
Definition _EL_CLEANUP : async unit := ac ← get_ac; when (has_cleanup (a_ev ac)) (log EvCleanup).

(** ** Creation *)

(** [sizeof(redisAsyncContext)] is 368. *)
Definition redisAsyncInitialize (c : redisContext) : result (option redisAsyncContext) :=
  if negb (malloc_ok 368) then Ok None else
  let c := clear_flag c REDIS_CONNECTED in
  channels ← dictCreate;
  patterns ← dictCreate;
  Ok (Some (mk_async c 0 false (mk_hooks false false false false false) 0 0
              empty_cblist empty_cblist channels patterns)).

(** [ac] with the error of its context. *)
Definition copy_error ac : redisAsyncContext := set_a_err ac (c_err (a_c ac)).

Definition __redisAsyncCopyError : async unit := ac ← get_ac; put_ac (copy_error ac).

Definition redisAsyncConnect (ip : bytes) (prt : Z) (h : heap) (w : W) :
    result (option redisAsyncContext * heap * W) :=
  '(c, h, w) ← redisConnectNonBlock ip prt h w;
  match c with
  | None => Ok (None, h, w)
  | Some c =>
      ac ← redisAsyncInitialize c;
      match ac with
      | None => '(h, w) ← redisFree (Some c) h w; Ok (None, h, w)
      | Some ac => Ok (Some (copy_error ac), h, w)
      end
  end.

(** Without a check, a missing context is given to [redisAsyncInitialize]:
    [realloc] of [NULL] then gives memory whose content is read unset. *)
Definition initialize_unchecked (c : option redisContext) (h : heap) (w : W) :
    result (option redisAsyncContext * heap * W) :=
  match c with
  | None => if malloc_ok 368 then Fault OutOfBounds else Ok (None, h, w)
  | Some c => ac ← redisAsyncInitialize c; Ok (option_map copy_error ac, h, w)
  end.

Definition redisAsyncConnectBind (ip : bytes) (prt : Z) (src : option bytes) (h : heap) (w : W) :
    result (option redisAsyncContext * heap * W) :=
  '(c, h, w) ← redisConnectBindNonBlock ip prt src h w; initialize_unchecked c h w.

Definition redisAsyncConnectBindWithReuse (ip : bytes) (prt : Z) (src : option bytes) (h : heap)
    (w : W) : result (option redisAsyncContext * heap * W) :=
  '(c, h, w) ← redisConnectBindNonBlockWithReuse ip prt src h w; initialize_unchecked c h w.

Definition redisAsyncConnectUnix (path : bytes) (h : heap) (w : W) :
    result (option redisAsyncContext * heap * W) :=
  '(c, h, w) ← redisConnectUnixNonBlock path h w;
  match c with
  | None => Ok (None, h, w)
  | Some c =>
      ac ← redisAsyncInitialize c;
      match ac with
      | None => '(h, w) ← redisFree (Some c) h w; Ok (None, h, w)
      | Some ac => Ok (Some (copy_error ac), h, w)
      end
  end.

Definition redisAsyncSetConnectCallback (fn : Z) : async Z :=
  ac ← get_ac;
  if a_onConnect ac =? 0 then
    _ ← put_ac (set_onConnect ac fn); _ ← _EL_ADD_WRITE; mret REDIS_OK
  else mret REDIS_ERR.

Definition redisAsyncSetDisconnectCallback (fn : Z) : async Z :=
  ac ← get_ac;
  if a_onDisconnect ac =? 0 then _ ← put_ac (set_onDisconnect ac fn); mret REDIS_OK
  else mret REDIS_ERR.

(** ** Callback lists of the context *)
Definition push_reply (cb : redisCallback) : async Z :=
  ac ← get_ac; s ← gets s_cbs;
  '(st, l, s) ← lift (__redisPushCallback (a_replies ac) cb s);
  _ ← put_cbs s; _ ← put_ac (set_replies ac l); mret st.
Definition push_invalid (cb : redisCallback) : async Z :=
  ac ← get_ac; s ← gets s_cbs;
  '(st, l, s) ← lift (__redisPushCallback (a_invalid ac) cb s);
  _ ← put_cbs s; _ ← put_ac (set_invalid ac l); mret st.
Definition shift_reply : async (option redisCallback) :=
  ac ← get_ac; s ← gets s_cbs;
  '(_, cb, l, s) ← lift (__redisShiftCallback (a_replies ac) s);
  _ ← put_cbs s; _ ← put_ac (set_replies ac l); mret cb.
Definition shift_invalid : async (option redisCallback) :=
  ac ← get_ac; s ← gets s_cbs;
  '(_, cb, l, s) ← lift (__redisShiftCallback (a_invalid ac) s);
  _ ← put_cbs s; _ ← put_ac (set_invalid ac l); mret cb.

(** ** Commands *)

(** [strtol] in base 10 from offset [i]: blanks, a sign, digits; the value is
    cut to the range of [long]. *)
Fixpoint strtol_digits (fuel : nat) (m : bytes) (i v : Z) : result Z :=
  match fuel with
  | O => Fault OutOfFuel
  | S f =>
      c ← load m i;
      if isdigit c then strtol_digits f m (i + 1) (v * 10 + (c - 48)) else Ok v
  end.

Fixpoint strtol_blanks (fuel : nat) (m : bytes) (i : Z) : result Z :=
  match fuel with
  | O => Fault OutOfFuel
  | S f => c ← load m i; if isspace c then strtol_blanks f m (i + 1) else Ok i
  end.

Definition strtol (m : bytes) (i : Z) : result Z :=
  i ← strtol_blanks (S (length m)) m i;
  c ← load m i;
  let i := if (c =? 45) || (c =? 43) then i + 1 else i in
  v ← strtol_digits (S (length m)) m i 0;
  let v := if c =? 45 then - v else v in
  Ok (Z.max (- 2 ^ 63) (Z.min v LONG_MAX)).

(** [strchr(m + i, ch)] as an offset, [None] for [NULL]. *)
Fixpoint strchr (fuel : nat) (m : bytes) (i ch : Z) : result (option Z) :=
  match fuel with
  | O => Fault OutOfFuel
  | S f =>
      c ← load m i;
      if c =? ch then Ok (Some i) else if c =? 0 then Ok None else strchr f m (i + 1) ch
  end.

(** [strncasecmp(m + i, s, n) == 0] and, without [n], [strcasecmp]. *)
Fixpoint casecmp (s : bytes) (m : bytes) (i : Z) : result bool :=
  match s with
  | [] => Ok true
  | d :: s =>
      c ← load m i;
      if negb (tolower c =? tolower d) then Ok false
      else if c =? 0 then Ok true else casecmp s m (i + 1)
  end.

(** The offset and the length of the argument at [start], and the offset of
    the next. *)
Definition nextArgument (m : bytes) (start : Z) : result (option (Z * Z * Z)) :=
  c ← load m start;
  p ← (if negb (c =? 36) then strchr (S (length m)) m start 36 else Ok (Some start));
  match p with
  | None => Ok None
  | Some p =>
      n ← strtol m (p + 1);
      let len := u64 (s32 n) in
      p ← strchr (S (length m)) m p 13;
      _ ← c_assert (match p with Some _ => true | None => false end);
      p ← deref p;
      Ok (Some (p + 2, len, s64 (p + 2 + len + 2)))
  end.

(** The channels or patterns of a (P)SUBSCRIBE command, from offset [p]. *)
Fixpoint subscribe_all (fuel : nat) (cmd : bytes) (pvariant : bool) (cb : redisCallback) (p : Z) :
    async unit :=
  match fuel with
  | O => fault OutOfFuel
  | S f =>
      arg ← lift (nextArgument cmd p);
      match arg with
      | None => mret tt
      | Some (astr, alen, p) =>
          name ← lift (slice cmd astr alen);
          sname ← lift (sdsnewlen (Some name) alen);
          sname ← lift (deref sname);
          _ ← (if negb (malloc_ok 24) then fault NullDeref else mret tt);
          ac ← get_ac; ds ← gets s_dicts;
          _ ← (if pvariant then
                 '(ds, d, _) ← lift (dictReplace callbackDict ds (a_patterns ac) (contents sname) cb);
                 _ ← put_dicts ds; put_ac (set_patterns ac d)
               else
                 '(ds, d, _) ← lift (dictReplace callbackDict ds (a_channels ac) (contents sname) cb);
                 _ ← put_dicts ds; put_ac (set_channels ac d));
          subscribe_all f cmd pvariant cb p
      end
  end.

Definition subscribe_text : bytes := lit "subscribe" ++ crlf.
Definition unsubscribe_text : bytes := lit "unsubscribe" ++ crlf.
Definition monitor_text : bytes := lit "monitor" ++ crlf.

(** The end of [__redisAsyncCommand]: the output buffer and the event loop. *)
Definition append_command (cmd : bytes) (len : Z) : async Z :=
  c ← get_c; w ← gets s_sys;
  '(_, c) ← lift (__redisAppendCommand c cmd len w);
  _ ← put_c c;
  _ ← _EL_ADD_WRITE;
  mret REDIS_OK.

(** [cmd] is the memory at [cmd], [len] bytes of which are the command. *)
Definition __redisAsyncCommand (fn privdata : Z) (cmd : bytes) (len : Z) : async Z :=
  closing ← flagged (Z.lor REDIS_DISCONNECTING REDIS_FREEING);
  if (closing : bool) then mret REDIS_ERR else
  let cb := mk_cb fn privdata in
  arg ← lift (nextArgument cmd 0);
  _ ← lift (c_assert (match arg with Some _ => true | None => false end));
  '(cstr, clen, p) ← lift (deref arg);
  d ← lift (load cmd p);
  let hasnext := d =? 36 in
  c0 ← lift (load cmd cstr);
  let pvariant := tolower c0 =? 112 in
  let cstr := if pvariant then cstr + 1 else cstr in
  is_sub ← (if hasnext then lift (casecmp subscribe_text cmd cstr) else mret false);
  if (is_sub : bool) then
    _ ← raise REDIS_SUBSCRIBED;
    _ ← subscribe_all (S (length cmd)) cmd pvariant cb p;
    append_command cmd len
  else
  is_unsub ← lift (casecmp unsubscribe_text cmd cstr);
  if (is_unsub : bool) then
    subscribed ← flagged REDIS_SUBSCRIBED;
    if negb subscribed then mret REDIS_ERR else append_command cmd len
  else
  is_monitor ← lift (casecmp monitor_text cmd cstr);
  if (is_monitor : bool) then
    _ ← raise REDIS_MONITORING;
    _ ← push_reply cb;
    append_command cmd len
  else
    subscribed ← flagged REDIS_SUBSCRIBED;
    _ ← (if (subscribed : bool) then push_invalid cb else push_reply cb);
    append_command cmd len.

Definition redisvAsyncCommand (vformat : bytes -> list va -> bytes) (fn privdata : Z)
    (format : bytes) (ap : list va) : async Z :=
  '(len, cmd) ← lift (redisvFormatCommand vformat true format ap);
  if len <? 0 then mret REDIS_ERR else
  cmd ← lift (deref cmd);
  __redisAsyncCommand fn privdata cmd (u64 len).

Definition redisAsyncCommand (vformat : bytes -> list va -> bytes) (fn privdata : Z)
    (format : bytes) (ap : list va) : async Z :=
  redisvAsyncCommand vformat fn privdata format ap.

Definition redisAsyncCommandArgv (fn privdata : Z) (argc : Z) (argv : list bytes)
    (argvlen : option (list Z)) : async Z :=
  '(len, cmd) ← lift (redisFormatSdsCommandArgv true argc argv argvlen);
  if len <? 0 then mret REDIS_ERR else
  cmd ← lift (deref cmd);
  __redisAsyncCommand fn privdata (sds_buf cmd) (u64 len).

Definition redisAsyncFormattedCommand (fn privdata : Z) (cmd : bytes) (len : Z) : async Z :=
  __redisAsyncCommand fn privdata cmd len.

(** ** Running callbacks

    [user e] is the code of the client that the event [e] runs. *)
Section callbacks.
Context (user : event -> async unit).

Definition __redisRunCallback (cb : redisCallback) (reply : Z) : async unit :=
  if negb (cb_fn cb =? NULL) then
    _ ← raise REDIS_IN_CALLBACK;
    h ← gets s_heap;
    _ ← user (EvReply (cb_fn cb) (cb_privdata cb) reply h);
    lower REDIS_IN_CALLBACK
  else mret tt.

(** [while (__redisShiftCallback(...) == REDIS_OK) __redisRunCallback(...)]. *)
Fixpoint run_all (fuel : nat) (shift : async (option redisCallback)) : async unit :=
  match fuel with
  | O => fault OutOfFuel
  | S f =>
      cb ← shift;
      match cb with
      | Some cb => _ ← __redisRunCallback cb NULL; run_all f shift
      | None => mret tt
      end
  end.

(** [while ((de = dictNext(it)) != NULL)]; [d] reads the dictionary. *)
Fixpoint run_entries (fuel : nat) (d : redisAsyncContext -> dict) (it : dictIterator) :
    async unit :=
  match fuel with
  | O => fault OutOfFuel
  | S f =>
      ac ← get_ac; ds ← gets s_dicts;
      '(it, de) ← lift (dictNext ds (d ac) it);
      if de =? 0 then mret tt else
      e ← lift (entry_at ds de);
      _ ← __redisRunCallback (e_val e) NULL;
      run_entries f d it
  end.

Definition run_dict (d : redisAsyncContext -> dict) : async unit :=
  it ← lift dictGetIterator;
  ds ← gets s_dicts;
  _ ← run_entries (S (size (entries ds))) d it;
  ac ← get_ac; ds ← gets s_dicts;
  ds ← lift (dictRelease callbackDict ds (d ac));
  put_dicts ds.

Definition __redisAsyncFree : async unit :=
  cbs ← gets s_cbs;
  _ ← run_all (S (size (nodes cbs))) shift_reply;
  cbs ← gets s_cbs;
  _ ← run_all (S (size (nodes cbs))) shift_invalid;
  _ ← run_dict a_channels;
  _ ← run_dict a_patterns;
  _ ← _EL_CLEANUP;
  ac ← get_ac;
  let c := a_c ac in
  _ ← (if negb (a_onDisconnect ac =? NULL) && has_flag c REDIS_CONNECTED then
         if has_flag c REDIS_FREEING then user (EvDisconnect (a_onDisconnect ac) REDIS_OK)
         else user (EvDisconnect (a_onDisconnect ac) (if a_err ac =? 0 then REDIS_OK else REDIS_ERR))
       else mret tt);
  c ← get_c; h ← gets s_heap; w ← gets s_sys;
  '(h, w) ← lift (redisFree (Some c) h w);
  _ ← put_heap h; _ ← put_sys w;
  release.

Definition redisAsyncFree : async unit :=
  _ ← raise REDIS_FREEING;
  in_callback ← flagged REDIS_IN_CALLBACK;
  if negb in_callback then __redisAsyncFree else mret tt.

Definition __redisAsyncDisconnect : async unit :=
  _ ← __redisAsyncCopyError;
  ac ← get_ac;
  _ ← (if a_err ac =? 0 then
         cb ← shift_reply;
         lift (c_assert (match cb with None => true | Some _ => false end))
       else raise REDIS_DISCONNECTING);
  __redisAsyncFree.

Definition redisAsyncDisconnect : async unit :=
  _ ← raise REDIS_DISCONNECTING;
  in_callback ← flagged REDIS_IN_CALLBACK;
  ac ← get_ac;
  if negb in_callback && (l_head (a_replies ac) =? NULL) then __redisAsyncDisconnect
  else mret tt.

(** ** Replies *)

(** [reply->element[i]]. *)
Definition element_at (h : heap) (r : redisReply) (i : Z) : result redisReply :=
  element ← deref (r_element r);
  p ← load element i;
  get_cell h p.

(** The callback of a message, [dst] when there is none. *)
Definition __redisGetSubscribeCallback (reply : Z) (dst : redisCallback) : async redisCallback :=
  h ← gets s_heap;
  r ← lift (get_cell h reply);
  if r_type r =? REDIS_REPLY_ARRAY then
    _ ← lift (c_assert (2 <=? r_elements r));
    e0 ← lift (element_at h r 0);
    _ ← lift (c_assert (r_type e0 =? REDIS_REPLY_STRING));
    stype ← lift (deref (r_str e0));
    c0 ← lift (load stype 0);
    let pvariant := tolower c0 =? 112 in
    e1 ← lift (element_at h r 1);
    _ ← lift (c_assert (r_type e1 =? REDIS_REPLY_STRING));
    str ← lift (deref (r_str e1));
    sname ← lift (sdsnewlen (Some str) (r_len e1));
    sname ← lift (deref sname);
    ac ← get_ac; ds ← gets s_dicts;
    let callbacks := if pvariant then a_patterns ac else a_channels ac in
    de ← lift (dictFind callbackDict ds callbacks (contents sname));
    if negb (de =? 0) then
      e ← lift (entry_at ds de);
      is_unsub ← lift (casecmp (lit "unsubscribe" ++ [0]) stype (if pvariant then 1 else 0));
      _ ← (if (is_unsub : bool) then
             '(ds, d, _) ← lift (dictDelete callbackDict ds callbacks (contents sname));
             _ ← put_dicts ds;
             _ ← put_ac (if pvariant then set_patterns ac d else set_channels ac d);
             e2 ← lift (element_at h r 2);
             _ ← lift (c_assert (r_type e2 =? REDIS_REPLY_INTEGER));
             when (r_integer e2 =? 0) (lower REDIS_SUBSCRIBED)
           else mret tt);
      mret (e_val e)
    else mret dst
  else
    cb ← shift_invalid;
    mret (default dst cb).

(** [c->reader->fn->freeObject(reply)]. *)
Definition free_reply (reply : Z) : async unit :=
  c ← get_c; h ← gets s_heap;
  r ← lift (deref (c_reader c));
  fn ← lift (deref (rr_fn r));
  free ← lift (deref (freeObject fn));
  h ← lift (free reply h);
  put_heap h.

(** [redisGetReply(c, &reply)]; [N] is the fuel of its loops, which a context
    that does not block does not enter. *)
Definition next_reply (N : nat) : async (Z * Z) :=
  c ← get_c; h ← gets s_heap; w ← gets s_sys;
  '(st, reply, c, h, w) ← lift (redisGetReply N c h w true);
  _ ← put_c c; _ ← put_heap h; _ ← put_sys w;
  mret (st, default NULL reply).

(** The loop of [redisProcessCallbacks]; [cb] is what the last round left. *)
Fixpoint process_replies (fuel N : nat) (cb : redisCallback) : async unit :=
  match fuel with
  | O => fault OutOfFuel
  | S f =>
      '(status, reply) ← next_reply N;
      if negb (status =? REDIS_OK) then __redisAsyncDisconnect else
      if reply =? NULL then
        ac ← get_ac;
        let c := a_c ac in
        obuf ← lift (deref (c_obuf c));
        if has_flag c REDIS_DISCONNECTING && (sdslen obuf =? 0)
           && (l_head (a_replies ac) =? NULL) then __redisAsyncDisconnect
        else when (has_flag c REDIS_MONITORING) (_ ← push_reply cb; mret tt)
      else
      shifted ← shift_reply;
      h ← gets s_heap;
      is_error ← (match shifted with
                  | Some _ => mret false
                  | None => r ← lift (get_cell h reply); mret (r_type r =? REDIS_REPLY_ERROR)
                  end);
      if (is_error : bool) then
        c ← get_c;
        r ← lift (get_cell h reply);
        str ← lift (deref (r_str r));
        n ← lift (strlen str);
        _ ← put_c (set_err c REDIS_ERR_OTHER (take 127 (take (Z.to_nat n) str)));
        _ ← free_reply reply;
        __redisAsyncDisconnect
      else
      cb ← (match shifted with
            | Some cb => mret cb
            | None =>
                subscribed ← flagged REDIS_SUBSCRIBED;
                monitoring ← flagged REDIS_MONITORING;
                _ ← lift (c_assert (subscribed || monitoring));
                if (subscribed : bool) then __redisGetSubscribeCallback reply cb else mret cb
            end);
      if negb (cb_fn cb =? NULL) then
        _ ← __redisRunCallback cb reply;
        _ ← free_reply reply;
        freeing ← flagged REDIS_FREEING;
        if (freeing : bool) then __redisAsyncFree else process_replies f N cb
      else
        _ ← free_reply reply;
        process_replies f N cb
  end.

(** A round that finds a reply consumes input. *)
Definition redisProcessCallbacks (N : nat) : async unit :=
  c ← get_c;
  let fuel := match c_reader c with
              | Some r => S (Z.to_nat (rr_len r - rr_pos r))
              | None => 1%nat
              end in
  process_replies fuel N (mk_cb NULL NULL).

(** ** Events of the descriptor *)
Definition check_socket : async Z :=
  c ← get_c; w ← gets s_sys;
  '(st, c, w) ← lift (redisCheckSocketError c w);
  _ ← put_c c; _ ← put_sys w; mret st.

Definition __redisAsyncHandleConnect : async Z :=
  st ← check_socket;
  if st =? REDIS_ERR then
    w ← gets s_sys;
    if sys_errno w =? EINPROGRESS then mret REDIS_OK else
    ac ← get_ac;
    _ ← (if negb (a_onConnect ac =? NULL) then user (EvConnect (a_onConnect ac) REDIS_ERR)
         else mret tt);
    _ ← __redisAsyncDisconnect;
    mret REDIS_ERR
  else
    _ ← raise REDIS_CONNECTED;
    ac ← get_ac;
    _ ← (if negb (a_onConnect ac =? NULL) then user (EvConnect (a_onConnect ac) REDIS_OK)
         else mret tt);
    mret REDIS_OK.

(** [m] when the context is connected, or becomes so. *)
Definition when_connected (m : async unit) : async unit :=
  connected ← flagged REDIS_CONNECTED;
  if (connected : bool) then m else
  st ← __redisAsyncHandleConnect;
  if negb (st =? REDIS_OK) then mret tt else
  connected ← flagged REDIS_CONNECTED;
  if negb connected then mret tt else m.

Definition redisAsyncHandleRead (N : nat) : async unit :=
  when_connected (
    c ← get_c; h ← gets s_heap; w ← gets s_sys;
    '(st, c, h, w) ← lift (redisBufferRead c h w);
    _ ← put_c c; _ ← put_heap h; _ ← put_sys w;
    if st =? REDIS_ERR then __redisAsyncDisconnect
    else _ ← _EL_ADD_READ; redisProcessCallbacks N).

Definition redisAsyncHandleWrite : async unit :=
  when_connected (
    c ← get_c; w ← gets s_sys;
    '(st, done, c, w) ← lift (redisBufferWrite c w);
    _ ← put_c c; _ ← put_sys w;
    if st =? REDIS_ERR then __redisAsyncDisconnect
    else
      _ ← (if default 0 done =? 0 then _EL_ADD_WRITE else _EL_DEL_WRITE);
      _EL_ADD_READ).
End callbacks.

(** ** The client

    [script log] are the calls that a callback makes when the events so far,
    its own included, are [log]. Callbacks may nest, to depth [n] at most. *)
Section client.
Context (script : list event -> list action).

Definition run_action (user : event -> async unit) (a : action) : async unit :=
  match a with
  | ActCommand fn privdata cmd len => _ ← __redisAsyncCommand fn privdata cmd len; mret tt
  | ActSetConnect fn => _ ← redisAsyncSetConnectCallback fn; mret tt
  | ActSetDisconnect fn => _ ← redisAsyncSetDisconnectCallback fn; mret tt
  | ActDisconnect => redisAsyncDisconnect user
  | ActFree => redisAsyncFree user
  end.

Fixpoint run_actions (user : event -> async unit) (l : list action) : async unit :=
  match l with
  | [] => mret tt
  | a :: l => _ ← run_action user a; run_actions user l
  end.

Fixpoint run_user (n : nat) (e : event) : async unit :=
  match n with
  | O => fault OutOfFuel
  | S n =>
      _ ← log e;
      l ← gets s_log;
      run_actions (run_user n) (script l)
  end.
End client.
End async.
