(* ===== verification/AsyncFacts.v ===== *)
(** * AsyncFacts: flags, callbacks and destruction of an asynchronous context

    While a context is closing, the callbacks of the client cannot do it harm:
    commands are refused and disconnecting is put off ([quiet]). Each loop of
    [__redisAsyncFree] then runs every callback it finds once. *)
From S2P Require Import Prelude Mem Sds SdsFacts Reply Reader Format System Context Net Connect.
From S2P Require Import Dict DictFacts DictRep DictOps Callbacks Async.
From stdpp Require Import list list_numbers strings sets gmap.
From Stdlib Require Import ZArith Lia.
Open Scope Z_scope.

(** ** Flags *)

Lemma add_flag_has c f g : has_flag c g = true -> has_flag (add_flag c f) g = true.
Proof.
  unfold has_flag. rewrite !negb_true_iff, !Z.eqb_neq. cbn [c_flags add_flag set_flags].
  rewrite Z.land_lor_distr_l, Z.lor_eq_0_iff. tauto.
Qed.

Lemma add_flag_sub c f g : Z.land f g <> 0 -> has_flag (add_flag c f) g = true.
Proof.
  unfold has_flag. rewrite negb_true_iff, Z.eqb_neq. cbn [c_flags add_flag set_flags].
  rewrite Z.land_lor_distr_l, Z.lor_eq_0_iff. tauto.
Qed.

Lemma add_flag_other c f g : Z.land f g = 0 -> has_flag (add_flag c f) g = has_flag c g.
Proof.
  intros H. unfold has_flag. cbn [c_flags add_flag set_flags].
  by rewrite Z.land_lor_distr_l, H, Z.lor_0_r.
Qed.

Lemma clear_flag_other c f g : Z.land f g = 0 -> has_flag (clear_flag c f) g = has_flag c g.
Proof.
  intros H. unfold has_flag. cbn [c_flags clear_flag set_flags]. do 2 f_equal.
  apply Z.bits_inj'. intros n Hn. apply (f_equal (fun z => Z.testbit z n)) in H.
  rewrite Z.land_spec, Z.bits_0 in H. rewrite !Z.land_spec, Z.ldiff_spec.
  destruct (Z.testbit (c_flags c) n), (Z.testbit f n), (Z.testbit g n); done.
Qed.

Lemma clear_flag_self c f : has_flag (clear_flag c f) f = false.
Proof.
  unfold has_flag. cbn [c_flags clear_flag set_flags]. apply negb_false_iff, Z.eqb_eq.
  apply Z.bits_inj'. intros n Hn. rewrite Z.land_spec, Z.ldiff_spec, Z.bits_0.
  destruct (Z.testbit (c_flags c) n), (Z.testbit f n); done.
Qed.

Section facts.
Context {M : Malloc} {HM : HeapMalloc} {W : Type} {OS : Sys W}.
Abbreviation state := (state (W := W)).
Abbreviation async := (async (W := W)).
Implicit Types (s : state) (c : redisContext).

Lemma abind {A B} (m : async A) (k : A -> async B) s a s' :
  m s = Ok (a, s') -> (m ≫= k) s = k a s'.
Proof. intros H. unfold mbind, async_bind. by rewrite H. Qed.

(** ** Changes of the context *)

(** Callbacks of the client that ran, with the reply or the status they got. *)
Inductive called : Type :=
  | Replied (fn privdata reply : Z)
  | Disconnected (fn status : Z).

Definition called_of (l : list event) : list called :=
  omap (fun e => match e with
                 | EvReply fn pd r _ => Some (Replied fn pd r)
                 | EvDisconnect fn st => Some (Disconnected fn st)
                 | _ => None
                 end) l.

Definition with_ac s ac : state :=
  mk_state ac (s_heap s) (s_cbs s) (s_dicts s) (s_sys s) (s_log s) (s_freed s).

Definition closing c : Prop := has_flag c (Z.lor REDIS_DISCONNECTING REDIS_FREEING) = true.

(** Everything but the flags, the log and the two callbacks for events. *)
Definition core s :=
  (s_heap s, s_cbs s, s_dicts s, s_sys s, s_freed s,
   (a_replies (s_ac s), a_invalid (s_ac s), a_channels (s_ac s), a_patterns (s_ac s)),
   (a_err (s_ac s), a_ev (s_ac s)), set_flags (a_c (s_ac s)) 0).

(** [s'] comes after [s], the client having run [l]. *)
Record quiet s s' : Prop := {
  quiet_core : core s' = core s;
  quiet_connected : has_flag (a_c (s_ac s')) REDIS_CONNECTED = has_flag (a_c (s_ac s)) REDIS_CONNECTED;
  quiet_callback : has_flag (a_c (s_ac s')) REDIS_IN_CALLBACK = has_flag (a_c (s_ac s)) REDIS_IN_CALLBACK;
  quiet_closing : closing (a_c (s_ac s)) -> closing (a_c (s_ac s'));
  quiet_freeing : has_flag (a_c (s_ac s)) REDIS_FREEING = true ->
                  has_flag (a_c (s_ac s')) REDIS_FREEING = true;
  quiet_ending : a_onDisconnect (s_ac s) <> NULL ->
                 a_onDisconnect (s_ac s') = a_onDisconnect (s_ac s);
  quiet_log : called_of (s_log s') = called_of (s_log s)
}.

Lemma quiet_refl s : quiet s s.
Proof. by split. Qed.

Lemma quiet_trans s1 s2 s3 : quiet s1 s2 -> quiet s2 s3 -> quiet s1 s3.
Proof.
  intros [A1 A2 A3 A4 A5 A6 A7] [B1 B2 B3 B4 B5 B6 B7]. split; try congruence; auto.
  intros H. rewrite B6; [auto|]. by rewrite A6.
Qed.

Lemma quiet_freed s s' : quiet s s' -> s_freed s' = s_freed s.
Proof. intros [Hc _ _ _ _ _ _]. unfold core in Hc. by simplify_eq. Qed.

(** ** What the client can call while the context is closing *)
Section script.
Context (script : list event -> list action).

Lemma get_ac_live s : s_freed s = false -> get_ac s = Ok (s_ac s, s).
Proof. intros H. unfold get_ac. by rewrite H. Qed.

Lemma put_ac_run s ac : s_freed s = false -> put_ac ac s = Ok (tt, with_ac s ac).
Proof. intros H. unfold put_ac, with_ac. by rewrite H. Qed.

Lemma raise_run s f : s_freed s = false ->
  raise f s = Ok (tt, with_ac s (set_c (s_ac s) (add_flag (a_c (s_ac s)) f))).
Proof.
  intros H. unfold raise, get_c, put_c, get_ac, put_ac, mbind, async_bind, mret, async_ret, with_ac.
  by rewrite !H.
Qed.

Lemma lower_run s f : s_freed s = false ->
  lower f s = Ok (tt, with_ac s (set_c (s_ac s) (clear_flag (a_c (s_ac s)) f))).
Proof.
  intros H. unfold lower, get_c, put_c, get_ac, put_ac, mbind, async_bind, mret, async_ret, with_ac.
  by rewrite !H.
Qed.

Lemma flagged_run s f : s_freed s = false -> flagged f s = Ok (has_flag (a_c (s_ac s)) f, s).
Proof.
  intros H. unfold flagged, get_c, get_ac, mbind, async_bind, mret, async_ret. by rewrite !H.
Qed.

Lemma quiet_raise s f : Z.land f REDIS_CONNECTED = 0 -> Z.land f REDIS_IN_CALLBACK = 0 ->
  quiet s (with_ac s (set_c (s_ac s) (add_flag (a_c (s_ac s)) f))).
Proof.
  intros H1 H2. split; cbn; try done.
  - by apply add_flag_other.
  - by apply add_flag_other.
  - by apply add_flag_has.
  - by apply add_flag_has.
Qed.

(** Actions that are safe when callbacks of events run. *)
Definition harmless (a : action) : Prop :=
  match a with ActDisconnect | ActFree => False | _ => True end.

Lemma action_quiet user a s : s_freed s = false -> closing (a_c (s_ac s)) ->
  (has_flag (a_c (s_ac s)) REDIS_IN_CALLBACK = true \/ harmless a) ->
  exists s', run_action user a s = Ok (tt, s') /\ quiet s s'.
Proof.
  intros Hf Hc Hin. destruct a as [fn pd cmd len|fn|fn| |]; cbn [run_action].
  - exists s. split; [|apply quiet_refl]. unfold __redisAsyncCommand.
    erewrite abind; [done|]. erewrite abind; [|by apply flagged_run]. unfold closing in Hc.
    by rewrite Hc.
  - unfold redisAsyncSetConnectCallback.
    destruct (a_onConnect (s_ac s) =? 0) eqn:E.
    + set (s1 := with_ac s (set_onConnect (s_ac s) fn)).
      assert (quiet s s1) as Hq by done.
      assert (exists s2, _EL_ADD_WRITE s1 = Ok (tt, s2) /\ quiet s1 s2) as (s2 & Hs2 & Hq2).
      { unfold _EL_ADD_WRITE, get_ac, mbind, async_bind. cbn [s_freed s1 with_ac]. rewrite Hf.
        destruct (has_addWrite _); cbn [when].
        - eexists. split; [done|]. split; try done. cbn. unfold called_of.
          rewrite omap_app. cbn. by rewrite app_nil_r.
        - eexists. split; [done|]. apply quiet_refl. }
      exists s2. split; [|by eapply quiet_trans].
      erewrite abind; [done|]. erewrite abind; [|by apply get_ac_live]. rewrite E.
      erewrite abind; [|by apply put_ac_run]. by rewrite (abind _ _ _ _ _ Hs2).
    + exists s. split; [|apply quiet_refl]. erewrite abind; [done|].
      erewrite abind; [|by apply get_ac_live]. by rewrite E.
  - unfold redisAsyncSetDisconnectCallback.
    destruct (a_onDisconnect (s_ac s) =? 0) eqn:E.
    + exists (with_ac s (set_onDisconnect (s_ac s) fn)).
      split; [|split; try done; bool_to_prop; by rewrite E].
      erewrite abind; [done|]. erewrite abind; [|by apply get_ac_live]. rewrite E.
      erewrite abind; [|by apply put_ac_run]. done.
    + exists s. split; [|apply quiet_refl]. erewrite abind; [done|].
      erewrite abind; [|by apply get_ac_live]. by rewrite E.
  - destruct Hin as [Hin|[]]. eexists. split; [|by apply (quiet_raise s REDIS_DISCONNECTING)].
    unfold redisAsyncDisconnect. erewrite abind; [|by apply raise_run].
    erewrite abind; [|by apply flagged_run]. cbn [s_ac with_ac a_c set_c].
    rewrite add_flag_other, Hin by done. erewrite abind; [done|by apply get_ac_live].
  - destruct Hin as [Hin|[]]. eexists. split; [|by apply (quiet_raise s REDIS_FREEING)].
    unfold redisAsyncFree. erewrite abind; [|by apply raise_run].
    erewrite abind; [|by apply flagged_run]. cbn [s_ac with_ac a_c set_c].
    by rewrite add_flag_other, Hin by done.
Qed.

Lemma actions_quiet user l : forall s, s_freed s = false -> closing (a_c (s_ac s)) ->
  (has_flag (a_c (s_ac s)) REDIS_IN_CALLBACK = true \/ Forall harmless l) ->
  exists s', run_actions user l s = Ok (tt, s') /\ quiet s s'.
Proof.
  induction l as [|a l IH]; intros s Hf Hc Hin; cbn [run_actions].
  { exists s. split; [done|apply quiet_refl]. }
  assert (has_flag (a_c (s_ac s)) REDIS_IN_CALLBACK = true \/ harmless a) as Ha.
  { destruct Hin as [?|Hl]; [by left|right]. by inversion Hl. }
  destruct (action_quiet user a s Hf Hc Ha) as (s1 & H1 & Hq1).
  erewrite abind by exact H1.
  destruct (IH s1) as (s2 & H2 & Hq2).
  - by rewrite (quiet_freed _ _ Hq1).
  - by apply (quiet_closing _ _ Hq1).
  - destruct Hin as [Hin|Hl]; [left|right; by inversion Hl].
    by rewrite (quiet_callback _ _ Hq1).
  - exists s2. split; [done|]. by eapply quiet_trans.
Qed.

(** ** Callbacks with a [NULL] reply *)

(** What the callbacks of [cbs] log: one entry each, unless the function is
    [NULL]. *)
Definition calls (reply : Z) (cbs : list redisCallback) : list called :=
  omap (fun cb => if cb_fn cb =? NULL then None else Some (Replied (cb_fn cb) (cb_privdata cb) reply)) cbs.

Lemma calls_cons r cb l : calls r (cb :: l) = calls r [cb] ++ calls r l.
Proof. unfold calls. by rewrite <- omap_app. Qed.

Lemma calls_app r l1 l2 : calls r (l1 ++ l2) = calls r l1 ++ calls r l2.
Proof. apply omap_app. Qed.

Record ran s (l : list called) s' : Prop := {
  ran_core : core s' = core s;
  ran_connected : has_flag (a_c (s_ac s')) REDIS_CONNECTED = has_flag (a_c (s_ac s)) REDIS_CONNECTED;
  ran_callback : has_flag (a_c (s_ac s)) REDIS_IN_CALLBACK = false ->
                 has_flag (a_c (s_ac s')) REDIS_IN_CALLBACK = false;
  ran_closing : closing (a_c (s_ac s)) -> closing (a_c (s_ac s'));
  ran_freeing : has_flag (a_c (s_ac s)) REDIS_FREEING = true ->
                has_flag (a_c (s_ac s')) REDIS_FREEING = true;
  ran_ending : a_onDisconnect (s_ac s) <> NULL ->
               a_onDisconnect (s_ac s') = a_onDisconnect (s_ac s);
  ran_log : called_of (s_log s') = called_of (s_log s) ++ l
}.

Lemma ran_refl s : ran s [] s.
Proof. split; try done. by rewrite app_nil_r. Qed.

Lemma ran_trans s1 l1 s2 l2 s3 : ran s1 l1 s2 -> ran s2 l2 s3 -> ran s1 (l1 ++ l2) s3.
Proof.
  intros [A1 A2 A3 A4 A5 A6 A7] [B1 B2 B3 B4 B5 B6 B7].
  split; try congruence; auto; [|by rewrite B7, A7, app_assoc].
  intros H. rewrite B6; [auto|]. by rewrite A6.
Qed.

Lemma ran_freed s l s' : ran s l s' -> s_freed s' = s_freed s.
Proof. intros [Hc _ _ _ _ _ _]. unfold core in Hc. by simplify_eq. Qed.

Lemma quiet_ran s s' : quiet s s' -> ran s [] s'.
Proof. intros []. split; try congruence; auto. by rewrite app_nil_r. Qed.

Lemma user_quiet n e s : s_freed s = false -> closing (a_c (s_ac s)) ->
  (has_flag (a_c (s_ac s)) REDIS_IN_CALLBACK = true \/
   Forall harmless (script (s_log s ++ [e]))) ->
  exists s1 s', run_user script (S n) e s = Ok (tt, s') /\ log e s = Ok (tt, s1) /\ quiet s1 s'.
Proof.
  intros Hf Hc Hin. cbn [run_user]. eexists. 
  destruct (actions_quiet (run_user script n) (script (s_log s ++ [e]))
    (mk_state (s_ac s) (s_heap s) (s_cbs s) (s_dicts s) (s_sys s) (s_log s ++ [e]) (s_freed s))
    Hf Hc Hin) as (s' & Hs' & Hq).
  exists s'. split; [|by split]. erewrite abind; [|done]. by erewrite abind.
Qed.

Lemma callback_ran n cb r s : s_freed s = false -> closing (a_c (s_ac s)) ->
  exists s', __redisRunCallback (run_user script (S n)) cb r s = Ok (tt, s') /\
    ran s (calls r [cb]) s'.
Proof.
  intros Hf Hc. unfold __redisRunCallback, calls. cbn [omap list_omap].
  destruct (cb_fn cb =? NULL) eqn:E; cbn [negb].
  { exists s. split; [done|apply ran_refl]. }
  erewrite abind; [|by apply raise_run].
  set (s1 := with_ac s _). erewrite abind; [|done].
  assert (closing (a_c (s_ac s1))) as Hc1 by by apply add_flag_has.
  assert (has_flag (a_c (s_ac s1)) REDIS_IN_CALLBACK = true) as Hcb by by apply add_flag_sub.
  destruct (user_quiet n (EvReply (cb_fn cb) (cb_privdata cb) r (s_heap s1)) s1 Hf Hc1
    (or_introl Hcb)) as (s2 & s3 & Hu & Hl & Hq).
  injection Hl as Hl. erewrite abind by exact Hu.
  assert (s_freed s3 = false) as Hf3 by (rewrite (quiet_freed _ _ Hq), <- Hl; done).
  eexists. split; [by apply lower_run|].
  destruct Hq as [Q1 Q2 Q3 Q4 Q5 Q6 Q7]. rewrite <- Hl in Q1, Q2, Q3, Q4, Q5, Q6, Q7.
  cbn in Q2, Q3, Q4, Q5, Q6. split; [exact Q1|..|exact Q6|]; cbn.
  - rewrite clear_flag_other, Q2, add_flag_other; done.
  - intros _. apply clear_flag_self.
  - intros _. unfold closing. rewrite clear_flag_other by done. by apply Q4.
  - intros H. rewrite clear_flag_other by done. apply Q5. by apply add_flag_has.
  - etrans; [exact Q7|]. unfold called_of. cbn [s_log s1 with_ac]. by rewrite omap_app.
Qed.

(** ** Emptying a list

    [lst] and [set] are the field of the list. *)
Section emptying.
Context (lst : redisAsyncContext -> redisCallbackList).
Context (set : redisAsyncContext -> redisCallbackList -> redisAsyncContext).

Definition shift_of : async (option redisCallback) :=
  ac ← get_ac; s ← gets s_cbs;
  '(_, cb, l, s) ← lift (__redisShiftCallback (lst ac) s);
  _ ← put_cbs s; _ ← put_ac (set ac l); mret cb.

Definition upd s cbs l : state :=
  mk_state (set (s_ac s) l) (s_heap s) cbs (s_dicts s) (s_sys s) (s_log s) (s_freed s).

Hypothesis lst_set : forall ac l, lst (set ac l) = l.
Hypothesis set_set : forall ac l l', set (set ac l) l' = set ac l'.
Hypothesis c_set : forall ac l, a_c (set ac l) = a_c ac.
Hypothesis end_set : forall ac l, a_onDisconnect (set ac l) = a_onDisconnect ac.
Hypothesis core_set : forall s s' cbs l, core s = core s' -> core (upd s cbs l) = core (upd s' cbs l).
Hypothesis core_lst : forall s s', core s = core s' -> lst (s_ac s) = lst (s_ac s').

Lemma ran_upd s l s' cbs q : ran s l s' -> ran (upd s cbs q) l (upd s' cbs q).
Proof.
  intros [A1 A2 A3 A4 A5 A6 A7]. split; cbn [upd s_ac s_log]; rewrite ?c_set, ?end_set; try done.
  by apply core_set.
Qed.

Lemma shift_of_run s st cb l cbs : s_freed s = false ->
  __redisShiftCallback (lst (s_ac s)) (s_cbs s) = Ok (st, cb, l, cbs) ->
  shift_of s = Ok (cb, upd s cbs l).
Proof.
  intros Hf Hs. unfold shift_of. erewrite abind; [|by apply get_ac_live].
  erewrite abind; [|done]. erewrite abind; [|unfold lift; by rewrite Hs]. cbv beta iota.
  erewrite abind; [|done]. erewrite abind; [|by apply put_ac_run]. done.
Qed.

Lemma run_all_ran n q : forall fuel s, s_freed s = false -> closing (a_c (s_ac s)) ->
  queue (s_cbs s) (lst (s_ac s)) q -> (length q < fuel)%nat ->
  exists s' cbs l, run_all (run_user script (S n)) fuel shift_of s = Ok (tt, s') /\
    ran (upd s cbs l) (calls NULL q.*2) s' /\ queue cbs l [] /\
    next_node cbs = next_node (s_cbs s) /\
    (forall p, nodes cbs !! p = if decide (p ∈ q.*1) then None else nodes (s_cbs s) !! p).
Proof.
  induction q as [|[p cb] q IH]; intros [|fuel] s Hf Hc Hq Hlen; cbn [length] in Hlen; try lia;
    cbn [run_all].
  - erewrite abind; [|by eapply shift_of_run, shift_empty].
    eexists _, _, _. split; [done|]. split; [apply ran_refl|]. split_and!; [done|done|].
    intros p. cbn. destruct (decide _) as [Hin|]; [by apply elem_of_nil in Hin|done].
  - destruct (shift_queue _ _ _ _ _ Hq) as (l1 & cbs1 & Hs & Hq1 & Hn1 & Hd1).
    erewrite abind; [|by eapply shift_of_run]. set (s1 := upd s cbs1 l1).
    assert (closing (a_c (s_ac s1))) as Hc1 by (cbn; by rewrite c_set).
    destruct (callback_ran n cb NULL s1 Hf Hc1) as (s2 & H2 & R2). erewrite abind by exact H2.
    pose proof (ran_core _ _ _ R2) as Hcore.
    assert (s_cbs s2 = cbs1) as Hcb2 by (unfold core in Hcore; by simplify_eq).
    assert (lst (s_ac s2) = l1) as Hl2 by (rewrite (core_lst _ _ Hcore); apply lst_set).
    destruct (IH fuel s2) as (s3 & cbs & l & H3 & R3 & Hq3 & Hn3 & Hd3).
    + by rewrite (ran_freed _ _ _ R2).
    + by apply (ran_closing _ _ _ R2).
    + by rewrite Hcb2, Hl2.
    + lia.
    + exists s3, cbs, l. split; [done|]. split.
      * cbn [fmap list_fmap snd]. rewrite calls_cons. eapply ran_trans; [|exact R3].
        assert (upd s cbs l = upd s1 cbs l) as ->; [|by apply ran_upd].
        unfold upd, s1. cbn. by rewrite set_set.
      * split_and!; [done|by rewrite Hn3, Hcb2|]. intros r. rewrite Hd3, Hcb2, Hd1. cbn [fmap list_fmap fst].
        pose proof (q_nodup _ _ _ Hq) as Hnd. apply NoDup_cons in Hnd as [Hpq _]. cbn in Hpq.
        destruct (decide (r ∈ q.*1)) as [Hr|Hr].
        { rewrite decide_True by (by right). done. }
        destruct (decide (r = p)) as [->|Hrp].
        { rewrite lookup_delete_eq, decide_True by (by left). done. }
        rewrite lookup_delete_ne, decide_False by
          (done || (intros [?|?]%elem_of_cons; done)). done.
Qed.
End emptying.

(** ** Emptying a dictionary *)
Section dictionary.
Context (d : redisAsyncContext -> dict).
Hypothesis core_dict : forall s s', core s = core s' -> d (s_ac s) = d (s_ac s').
Hypothesis malloc_total : forall n, malloc_ok n = true.

Definition with_dicts s ds : state :=
  mk_state (s_ac s) (s_heap s) (s_cbs s) ds (s_sys s) (s_log s) (s_freed s).

Lemma ran_dicts s l s' ds : ran s l s' -> ran (with_dicts s ds) l (with_dicts s' ds).
Proof.
  intros [A1 A2 A3 A4 A5 A6 A7]. split; try done.
  assert (forall s, core (with_dicts s ds) =
    let '(h, cbs, _, w, fr, ls, x, c) := core s in (h, cbs, ds, w, fr, ls, x, c)) as Hw by done.
  by rewrite !Hw, A1.
Qed.

Abbreviation values := (fun l : list (Z * (bytes * redisCallback)) => l.*2.*2).

Lemma run_entries_ran n cs F t rem : zlen cs < 2 ^ 31 - 1 -> forall fuel it s,
  s_freed s = false -> closing (a_c (s_ac s)) ->
  dict_rep callbackDict (s_dicts s) (d (s_ac s)) cs F -> ht_table (d (s_ac s)) = Some t ->
  iter_at (entries (s_dicts s)) cs it rem -> (forall x, x ∈ rem -> x ∈ concat cs) ->
  (length rem < fuel)%nat ->
  exists s', run_entries (run_user script (S n)) fuel d it s = Ok (tt, s') /\
    ran s (calls NULL (values rem)) s'.
Proof.
  intros Hcs. induction rem as [|[q [k v]] rem IH]; intros [|fuel] it s Hf Hc Hr Ht Hit Hin Hlen;
    cbn [length] in Hlen; try lia; cbn [run_entries];
    (erewrite abind; [|by apply get_ac_live]); (erewrite abind; [|done]);
    destruct (dictNext_spec _ _ _ _ _ _ _ _ Hr Ht Hcs Hit) as (it' & p & Hn & Hp);
    (erewrite abind; [|unfold lift; by rewrite Hn]); cbv beta iota.
  - subst p. exists s. split; [done|apply ran_refl].
  - destruct Hp as [-> Hit']. cbn [fst].
    destruct (node_entry _ _ _ _ _ q k v Hr) as (Hq & nx & Hnx); [apply Hin; by left|].
    bool_false (q =? 0). erewrite abind; [|unfold lift; by rewrite (entry_at_spec _ _ _ Hq Hnx)].
    cbn [e_val]. destruct (callback_ran n v NULL s Hf Hc) as (s2 & H2 & R2). erewrite abind by exact H2.
    pose proof (ran_core _ _ _ R2) as Hcore.
    assert (s_dicts s2 = s_dicts s) as Hds by (unfold core in Hcore; by simplify_eq).
    pose proof (core_dict _ _ Hcore) as Hd2.
    destruct (IH fuel it' s2) as (s3 & H3 & R3); [..|lia|].
    + by rewrite (ran_freed _ _ _ R2).
    + by apply (ran_closing _ _ _ R2).
    + by rewrite Hds, Hd2.
    + by rewrite Hd2.
    + by rewrite Hds.
    + intros x Hx. apply Hin. by right.
    + exists s3. split; [done|].
      cbn [fmap list_fmap snd]. rewrite calls_cons. by eapply ran_trans.
Qed.

Lemma run_dict_ran n cs F s : s_freed s = false -> closing (a_c (s_ac s)) ->
  dict_rep callbackDict (s_dicts s) (d (s_ac s)) cs F -> zlen cs < 2 ^ 31 - 1 ->
  zlen (concat cs) < 2 ^ 64 ->
  exists s', run_dict (run_user script (S n)) d s = Ok (tt, s') /\
    ran (with_dicts s (mk_world F (free_ptr (s_dicts s)) tt)) (calls NULL (values (concat cs))) s'.
Proof.
  intros Hf Hc Hr Hcs Hlen. unfold run_dict, dictGetIterator. rewrite malloc_total.
  erewrite abind; [|done]. erewrite abind; [|done].
  assert (exists s1, run_entries (run_user script (S n)) (S (size (entries (s_dicts s)))) d
    (mk_iter (-1) 0 0) s = Ok (tt, s1) /\ ran s (calls NULL (values (concat cs))) s1)
    as (s1 & H1 & R1).
  { pose proof (dr_table _ _ _ _ _ Hr) as Ht. destruct (ht_table (d (s_ac s))) as [t|] eqn:Et.
    - apply (run_entries_ran n cs F t); try done.
      + apply iter_start. destruct Ht as [_ Hfit]. by apply (fits_nonempty _ _ Hfit).
      + pose proof (dict_rep_size _ _ _ _ _ Hr). lia.
    - subst cs. exists s. split; [|apply ran_refl]. cbn [run_entries].
      erewrite abind; [|by apply get_ac_live]. erewrite abind; [|done].
      pose proof (dr_size _ _ _ _ _ Hr) as Hz. cbn [length] in Hz.
      assert (dictNext (s_dicts s) (d (s_ac s)) (mk_iter (-1) 0 0) = Ok (mk_iter 0 0 0, 0)) as Hn.
      { unfold dictNext. cbn [dictNext_loop i_entry]. by rewrite Hz. }
      erewrite abind; [|unfold lift; by rewrite Hn]. done. }
  erewrite abind by exact H1. pose proof (ran_core _ _ _ R1) as Hcore.
  assert (s_dicts s1 = s_dicts s) as Hds by (unfold core in Hcore; by simplify_eq).
  erewrite abind; [|apply get_ac_live; by rewrite (ran_freed _ _ _ R1)].
  erewrite abind; [|done]. rewrite Hds, (core_dict _ _ Hcore).
  destruct (dictClear_spec _ _ _ _ _ Hr Hlen) as (w' & d' & Hcl & He & _ & _ & Hp).
  erewrite abind; [|unfold lift, dictRelease; by rewrite Hcl].
  eexists. split; [done|]. replace w' with (mk_world F (free_ptr (s_dicts s)) tt).
  { by apply ran_dicts. }
  destruct w' as [e p []]. cbn in *. by subst.
Qed.
End dictionary.

(** ** Destruction *)

Lemma core_fields s s' : core s = core s' ->
  s_heap s = s_heap s' /\ s_cbs s = s_cbs s' /\ s_dicts s = s_dicts s' /\ s_sys s = s_sys s' /\
  s_freed s = s_freed s' /\ a_replies (s_ac s) = a_replies (s_ac s') /\
  a_invalid (s_ac s) = a_invalid (s_ac s') /\ a_channels (s_ac s) = a_channels (s_ac s') /\
  a_patterns (s_ac s) = a_patterns (s_ac s') /\ c_fd (a_c (s_ac s)) = c_fd (a_c (s_ac s')) /\
  c_reader (a_c (s_ac s)) = c_reader (a_c (s_ac s')).
Proof.
  unfold core. intros Hc. injection Hc as H1 H2 H3 H4 H5 H6 H7 H8 H9 H10 H11 H12.
  by split_and!.
Qed.

(** What the context owns: two queues and two dictionaries. *)
Record owns s (q1 q2 : list (Z * redisCallback)) (cs1 cs2 : list (list (Z * (bytes * redisCallback))))
    (F : gmap Z (dictEntry bytes redisCallback)) : Prop := {
  own_replies : queue (s_cbs s) (a_replies (s_ac s)) q1;
  own_invalid : queue (s_cbs s) (a_invalid (s_ac s)) q2;
  own_disjoint : forall p, p ∈ q2.*1 -> p ∉ q1.*1;
  own_dicts : exists F1, dict_rep callbackDict (s_dicts s) (a_channels (s_ac s)) cs1 F1 /\
    dict_rep callbackDict (mk_world F1 (free_ptr (s_dicts s)) tt) (a_patterns (s_ac s)) cs2 F;
  own_size : zlen cs1 < 2 ^ 31 - 1 /\ zlen cs2 < 2 ^ 31 - 1 /\
    zlen (concat cs1) < 2 ^ 64 /\ zlen (concat cs2) < 2 ^ 64
}.

Lemma queue_size (s : cb_store) l q : queue s l q -> (length q <= size (nodes s))%nat.
Proof.
  intros [Hl _ Hnd]. rewrite <- (length_fmap fst).
  rewrite <- (size_list_to_set (C:=gset Z) _ Hnd), <- size_dom.
  apply subseteq_size. intros p Hp. apply elem_of_list_to_set in Hp.
  apply list_elem_of_fmap in Hp as (x & -> & Hx).
  destruct (links_in _ _ _ _ Hl Hx) as [_ [n Hn]]. apply elem_of_dom. by exists n.
Qed.

Lemma queue_same (s s' : cb_store) l q : (forall p, p ∈ q.*1 -> nodes s' !! p = nodes s !! p) -> queue s l q ->
  queue s' l q.
Proof.
  intros Hs [H1 H2 H3]. split; try done. clear H2 H3. revert H1 Hs. generalize (l_head l).
  induction q as [|[p cb] q IH]; intros h; cbn; [done|]. intros (-> & Hp & nx & Hn & Hl) Hs.
  split_and!; try done. exists nx. split; [rewrite Hs; [done|by left]|].
  apply IH; [done|]. intros x Hx. apply Hs. by right.
Qed.

Hypothesis malloc_total : forall n, malloc_ok n = true.

(** The callbacks that the context holds, in the order in which they run. *)
Definition held (q1 q2 : list (Z * redisCallback)) (cs1 cs2 : list (list (Z * (bytes * redisCallback)))) :
    list redisCallback :=
  q1.*2 ++ q2.*2 ++ (concat cs1).*2.*2 ++ (concat cs2).*2.*2.

Lemma core_replies s s' : core s = core s' -> a_replies (s_ac s) = a_replies (s_ac s').
Proof. intros Hc. apply core_fields in Hc. tauto. Qed.

Lemma core_invalid s s' : core s = core s' -> a_invalid (s_ac s) = a_invalid (s_ac s').
Proof. intros Hc. apply core_fields in Hc. tauto. Qed.

Lemma core_channels s s' : core s = core s' -> a_channels (s_ac s) = a_channels (s_ac s').
Proof. intros Hc. apply core_fields in Hc. tauto. Qed.

Lemma core_patterns s s' : core s = core s' -> a_patterns (s_ac s) = a_patterns (s_ac s').
Proof. intros Hc. apply core_fields in Hc. tauto. Qed.

Lemma core_set_replies s s' cbs l : core s = core s' ->
  core (upd set_replies s cbs l) = core (upd set_replies s' cbs l).
Proof.
  assert (forall s, core (upd set_replies s cbs l) =
    let '(h, _, ds, w, fr, (_, i, ch, pa), x, c) := core s in
    (h, cbs, ds, w, fr, (l, i, ch, pa), x, c)) as Hu by done.
  intros H. by rewrite !Hu, H.
Qed.

Lemma core_set_invalid s s' cbs l : core s = core s' ->
  core (upd set_invalid s cbs l) = core (upd set_invalid s' cbs l).
Proof.
  assert (forall s, core (upd set_invalid s cbs l) =
    let '(h, _, ds, w, fr, (r, _, ch, pa), x, c) := core s in
    (h, cbs, ds, w, fr, (r, l, ch, pa), x, c)) as Hu by done.
  intros H. by rewrite !Hu, H.
Qed.

Lemma asyncFree_loops n s q1 q2 cs1 cs2 F : s_freed s = false -> closing (a_c (s_ac s)) ->
  has_flag (a_c (s_ac s)) REDIS_IN_CALLBACK = false -> owns s q1 q2 cs1 cs2 F ->
  exists s', (let u := run_user script (S n) in
      cbs ← gets s_cbs;
      _ ← run_all u (S (size (nodes cbs))) shift_reply;
      cbs ← gets s_cbs;
      _ ← run_all u (S (size (nodes cbs))) shift_invalid;
      _ ← run_dict u a_channels;
      run_dict u a_patterns) s = Ok (tt, s') /\
    called_of (s_log s') = called_of (s_log s) ++ calls NULL (held q1 q2 cs1 cs2) /\
    (forall p, nodes (s_cbs s') !! p =
       if decide (p ∈ q1.*1 \/ p ∈ q2.*1) then None else nodes (s_cbs s) !! p) /\
    entries (s_dicts s') = F /\ s_heap s' = s_heap s /\ s_sys s' = s_sys s /\ s_freed s' = false /\
    closing (a_c (s_ac s')) /\ has_flag (a_c (s_ac s')) REDIS_IN_CALLBACK = false /\
    c_fd (a_c (s_ac s')) = c_fd (a_c (s_ac s)) /\ c_reader (a_c (s_ac s')) = c_reader (a_c (s_ac s)) /\
    has_flag (a_c (s_ac s')) REDIS_CONNECTED = has_flag (a_c (s_ac s)) REDIS_CONNECTED /\
    (a_onDisconnect (s_ac s) <> NULL -> a_onDisconnect (s_ac s') = a_onDisconnect (s_ac s)) /\
    (has_flag (a_c (s_ac s)) REDIS_FREEING = true -> has_flag (a_c (s_ac s')) REDIS_FREEING = true).
Proof.
  intros Hf Hc Hcb [Hq1 Hq2 Hdis (F1 & Hd1 & Hd2) (Hz1 & Hz2 & Hz3 & Hz4)]. cbv zeta.
  erewrite abind; [|done].
  destruct (run_all_ran a_replies set_replies ltac:(done) ltac:(done) ltac:(done) ltac:(done)
    core_set_replies core_replies n q1 (S (size (nodes (s_cbs s)))) s Hf Hc Hq1)
    as (s1 & cbs1 & l1 & H1 & R1 & _ & Hn1 & Hd3).
  { pose proof (queue_size _ _ _ Hq1). lia. }
  erewrite abind by exact H1. erewrite abind; [|done].
  destruct (core_fields _ _ (ran_core _ _ _ R1)) as (A1 & A2 & A3 & A4 & A5 & A6 & A7 & A8 & A9 & A10 & A11).
  cbn in A1, A2, A3, A4, A5, A6, A7, A8, A9, A10, A11.
  destruct (run_all_ran a_invalid set_invalid ltac:(done) ltac:(done) ltac:(done) ltac:(done)
    core_set_invalid core_invalid n q2 (S (size (nodes (s_cbs s1)))) s1)
    as (s2 & cbs2 & l2 & H2 & R2 & _ & Hn2 & Hd4).
  { by rewrite A5. }
  { by apply (ran_closing _ _ _ R1). }
  { rewrite A2, A7. apply (queue_same (s_cbs s)); [|done]. intros p Hp. rewrite Hd3.
    by rewrite decide_False by auto. }
  { rewrite A2. assert (length q2 <= size (nodes cbs1))%nat; [|lia].
    eapply queue_size, (queue_same (s_cbs s)); [|done]. intros p Hp. rewrite Hd3.
    by rewrite decide_False by auto. }
  erewrite abind by exact H2.
  destruct (core_fields _ _ (ran_core _ _ _ R2)) as (B1 & B2 & B3 & B4 & B5 & B6 & B7 & B8 & B9 & B10 & B11).
  cbn in B1, B2, B3, B4, B5, B6, B7, B8, B9, B10, B11.
  destruct (run_dict_ran a_channels core_channels malloc_total n cs1 F1 s2)
    as (s3 & H3 & R3); [by rewrite B5, A5|by apply (ran_closing _ _ _ R2), (ran_closing _ _ _ R1)| |done|done|].
  { by rewrite B3, A3, B8, A8. }
  erewrite abind by exact H3.
  destruct (core_fields _ _ (ran_core _ _ _ R3)) as (C1 & C2 & C3 & C4 & C5 & C6 & C7 & C8 & C9 & C10 & C11).
  cbn in C1, C2, C3, C4, C5, C6, C7, C8, C9, C10, C11.
  destruct (run_dict_ran a_patterns core_patterns malloc_total n cs2 F s3)
    as (s4 & H4 & R4); [by rewrite C5, B5, A5| | |done|done|].
  { by apply (ran_closing _ _ _ R3), (ran_closing _ _ _ R2), (ran_closing _ _ _ R1). }
  { by rewrite C3, C9, B9, A9, B3, A3. }
  destruct (core_fields _ _ (ran_core _ _ _ R4)) as (D1 & D2 & D3 & D4 & D5 & D6 & D7 & D8 & D9 & D10 & D11).
  cbn in D1, D2, D3, D4, D5, D6, D7, D8, D9, D10, D11.
  exists s4. split; [exact H4|].
  split. { rewrite (ran_log _ _ _ R4). cbn [s_log with_dicts]. rewrite (ran_log _ _ _ R3).
    cbn [s_log with_dicts]. rewrite (ran_log _ _ _ R2). cbn [s_log upd]. rewrite (ran_log _ _ _ R1).
    cbn [s_log upd]. unfold held. rewrite !calls_app, !app_assoc. done. }
  split. { intros p. rewrite D2, C2, B2, Hd4, A2, Hd3.
    destruct (decide (p ∈ q2.*1)), (decide (p ∈ q1.*1)), (decide (p ∈ q1.*1 \/ p ∈ q2.*1)); tauto. }
  split_and!; try congruence.
  - by rewrite D3.
  - by apply (ran_closing _ _ _ R4), (ran_closing _ _ _ R3), (ran_closing _ _ _ R2), (ran_closing _ _ _ R1).
  - by apply (ran_callback _ _ _ R4), (ran_callback _ _ _ R3), (ran_callback _ _ _ R2), (ran_callback _ _ _ R1).
  - rewrite (ran_connected _ _ _ R4). cbn. rewrite (ran_connected _ _ _ R3). cbn.
    rewrite (ran_connected _ _ _ R2). cbn. by rewrite (ran_connected _ _ _ R1).
  - intros H. pose proof (ran_ending _ _ _ R1 H) as E1. cbn in E1.
    pose proof (ran_ending _ _ _ R2) as E2. pose proof (ran_ending _ _ _ R3) as E3.
    pose proof (ran_ending _ _ _ R4) as E4. cbn in E2, E3, E4. 
    specialize (E2 ltac:(by rewrite E1)). specialize (E3 ltac:(by rewrite E2, E1)).
    rewrite E4; [congruence|]. by rewrite E3, E2, E1.
  - intros Hfr. by apply (ran_freeing _ _ _ R4), (ran_freeing _ _ _ R3), (ran_freeing _ _ _ R2),
      (ran_freeing _ _ _ R1).
Qed.

(** The context is gone, and everything it owned: each callback it held ran
    once, without a reply, and then [onDisconnect] if the context had connected,
    with a status in [P]. *)
Record gone s q1 q2 cs1 cs2 (F : gmap Z (dictEntry bytes redisCallback)) (h' : heap) (P : Z -> Prop) s' : Prop := {
  gone_freed : s_freed s' = true;
  gone_calls : exists fn st, called_of (s_log s') =
    called_of (s_log s) ++ calls NULL (held q1 q2 cs1 cs2) ++
      (if negb (fn =? NULL) && has_flag (a_c (s_ac s)) REDIS_CONNECTED then [Disconnected fn st]
       else []) /\
    (a_onDisconnect (s_ac s) <> NULL -> fn = a_onDisconnect (s_ac s)) /\ P st;
  gone_nodes : forall p, nodes (s_cbs s') !! p =
    if decide (p ∈ q1.*1 \/ p ∈ q2.*1) then None else nodes (s_cbs s) !! p;
  gone_entries : entries (s_dicts s') = F;
  gone_heap : s_heap s' = h';
  gone_fd : s_sys s' = if 0 <? c_fd (a_c (s_ac s)) then sys_close (c_fd (a_c (s_ac s))) (s_sys s)
                       else s_sys s
}.

Lemma asyncFree_run n s q1 q2 cs1 cs2 F r h' : s_freed s = false -> closing (a_c (s_ac s)) ->
  has_flag (a_c (s_ac s)) REDIS_IN_CALLBACK = false -> owns s q1 q2 cs1 cs2 F ->
  c_reader (a_c (s_ac s)) = Some r -> redisReaderFree r (s_heap s) = Ok h' ->
  (forall l fn st, Forall harmless (script (l ++ [EvDisconnect fn st]))) ->
  exists s', __redisAsyncFree (run_user script (S (S n))) s = Ok (tt, s') /\
    gone s q1 q2 cs1 cs2 F h'
      (fun st => has_flag (a_c (s_ac s)) REDIS_FREEING = true -> st = REDIS_OK) s'.
Proof.
  intros Hf Hc Hcb Ho Hr Hfree Hscript.
  destruct (asyncFree_loops (S n) s q1 q2 cs1 cs2 F Hf Hc Hcb Ho)
    as (s1 & H1 & Hlog & Hn & He & Hh & Hw & Hf1 & Hc1 & Hcb1 & Hfd & Hrd & Hcon & Hen & Hfr).
  cbv zeta in H1. set (u := run_user script (S (S n))) in *.
  assert (__redisAsyncFree u s = (let w := __redisAsyncFree u in
    (_ ← _EL_CLEANUP; ac ← get_ac; let c := a_c ac in
     _ ← (if negb (a_onDisconnect ac =? NULL) && has_flag c REDIS_CONNECTED then
            if has_flag c REDIS_FREEING then u (EvDisconnect (a_onDisconnect ac) REDIS_OK)
            else u (EvDisconnect (a_onDisconnect ac)
                      (if a_err ac =? 0 then REDIS_OK else REDIS_ERR))
          else mret tt);
     c ← get_c; h ← gets s_heap; w ← gets s_sys;
     '(h, w) ← lift (redisFree (Some c) h w);
     _ ← put_heap h; _ ← put_sys w; release) s1)) as ->.
  { revert H1. unfold __redisAsyncFree, mbind, async_bind.
    destruct (gets s_cbs s) as [[cbs t1]|]; [|done].
    destruct (run_all u _ shift_reply t1) as [[[] t2]|]; [|done].
    destruct (gets s_cbs t2) as [[cbs2 t3]|]; [|done].
    destruct (run_all u _ shift_invalid t3) as [[[] t4]|]; [|done].
    destruct (run_dict u a_channels t4) as [[[] t5]|]; [|done]. by intros ->. }
  cbv zeta.
  assert (exists s2, _EL_CLEANUP s1 = Ok (tt, s2) /\ quiet s1 s2) as (s2 & H2 & Q2).
  { unfold _EL_CLEANUP. destruct (has_cleanup (a_ev (s_ac s1))) eqn:E.
    - eexists. split; [erewrite abind; [|by apply get_ac_live]; by rewrite E|].
      split; try done. cbn. unfold called_of. rewrite omap_app. cbn. by rewrite app_nil_r.
    - exists s1. split; [|apply quiet_refl]. erewrite abind; [|by apply get_ac_live]. by rewrite E. }
  erewrite abind by exact H2.
  assert (s_freed s2 = false) as Hf2 by by rewrite (quiet_freed _ _ Q2).
  erewrite abind; [|by apply get_ac_live]. cbv zeta.
  set (disc := if negb _ && _ then _ else _).
  set (con := has_flag (a_c (s_ac s)) REDIS_CONNECTED).
  set (fn := a_onDisconnect (s_ac s2)).
  assert (a_onDisconnect (s_ac s) <> NULL -> fn = a_onDisconnect (s_ac s)) as Hend.
  { intros H. unfold fn. rewrite (quiet_ending _ _ Q2); rewrite Hen; done. }
  assert (exists s3 st, disc s2 = Ok (tt, s3) /\
    ran s2 (if negb (fn =? NULL) && con then [Disconnected fn st] else []) s3 /\
    (has_flag (a_c (s_ac s)) REDIS_FREEING = true -> st = REDIS_OK)) as (s3 & st & H3 & R3 & Hst).
  { assert (forall st, exists s3, u (EvDisconnect fn st) s2 = Ok (tt, s3) /\
      ran s2 [Disconnected fn st] s3) as Hu.
    { intros st. destruct (user_quiet (S n) (EvDisconnect fn st) s2 Hf2)
        as (s3 & s4 & Hu & Hl & Q).
      - by apply (quiet_closing _ _ Q2).
      - right. apply Hscript.
      - exists s4. split; [exact Hu|]. injection Hl as <-. apply quiet_ran in Q.
        destruct Q as [G1 G2 G3 G4 G5 G6 G7]. split; try done. rewrite G7. unfold called_of.
        cbn [s_log]. rewrite omap_app. cbn. by rewrite app_nil_r. }
    unfold disc. rewrite (quiet_connected _ _ Q2), Hcon. fold con fn.
    destruct (negb (fn =? NULL) && con); [|exists s2, REDIS_OK; split_and!; [done|apply ran_refl|done]].
    destruct (has_flag (a_c (s_ac s2)) REDIS_FREEING) eqn:Efr;
      [destruct (Hu REDIS_OK) as (s3 & H3 & R3); by exists s3, REDIS_OK|].
    destruct (Hu (if a_err (s_ac s2) =? 0 then REDIS_OK else REDIS_ERR)) as (s3 & H3 & R3).
    eexists s3, _. split_and!; [exact H3|done|]. intros Hfr1.
    apply Hfr, (quiet_freeing _ _ Q2) in Hfr1. congruence. }
  erewrite abind by exact H3.
  destruct (core_fields _ _ (ran_core _ _ _ R3)) as (A1 & A2 & A3 & A4 & A5 & A6 & A7 & A8 & A9 & A10 & A11).
  destruct (core_fields _ _ (quiet_core _ _ Q2)) as (B1 & B2 & B3 & B4 & B5 & B6 & B7 & B8 & B9 & B10 & B11).
  erewrite abind; [|unfold get_c; erewrite abind; [done|apply get_ac_live; by rewrite A5]].
  do 2 (erewrite abind; [|done]).
  erewrite abind; [|unfold lift, redisFree; rewrite A11, B11, Hrd, Hr, A1, B1, Hh, Hfree; done].
  cbv beta iota. do 2 (erewrite abind; [|done]). eexists. split; [done|].
  split; cbn; try done.
  - exists fn, st. split_and!; [|done..]. etrans; [exact (ran_log _ _ _ R3)|].
    by rewrite (quiet_log _ _ Q2), Hlog, <- app_assoc.
  - intros p. by rewrite A2, B2, Hn.
  - by rewrite A3, B3.
  - by rewrite A10, B10, Hfd, A4, B4, Hw.
Qed.
End script.
End facts.
