(* ===== verification/AsyncCommand.v ===== *)
(** * AsyncCommand: the commands of an asynchronous context

    [__redisAsyncCommand] reads the name of the command back from its
    encoding: [nextArgument] finds the arguments of a [command], and the
    comparisons with fixed texts say which word the name is. *)
From S2P Require Import Prelude Mem Sds SdsFacts SdsText SdsSplit Reply Reader Format FormatFacts.
From S2P Require Import System Context ContextFacts Net Connect Dict DictFacts DictRep DictOps.
From S2P Require Import Callbacks Async AsyncFacts.
From stdpp Require Import list list_numbers strings sets gmap.
From Stdlib Require Import ZArith Lia.
Open Scope Z_scope.

(** ** Searching memory *)
Lemma strchr_found ch mid : forall fuel m pre post, m = pre ++ mid ++ ch :: post ->
  ch ∉ mid -> 0 ∉ mid -> (length mid < fuel)%nat ->
  strchr fuel m (zlen pre) ch = Ok (Some (zlen pre + zlen mid)).
Proof.
  induction mid as [|d mid IH]; intros [|fuel] m pre post Hm H1 H2 Hf; cbn [length] in *; try lia;
    cbn [strchr].
  - rewrite (load_at m _ pre ch post) by done. cbn [mbind result_bind].
    rewrite Z.eqb_refl. do 2 f_equal. lia.
  - apply not_elem_of_cons in H1 as [Hd1 H1]. apply not_elem_of_cons in H2 as [Hd2 H2].
    rewrite (load_at m _ pre d (mid ++ ch :: post)) by done. cbn [mbind result_bind].
    bool_false (d =? ch). bool_false (d =? 0).
    replace (zlen pre + 1) with (zlen (pre ++ [d])) by slia.
    rewrite (IH fuel m (pre ++ [d]) post); [do 2 f_equal; slia|by rewrite Hm, <- app_assoc|done..|lia].
Qed.

Lemma strchr_none ch mid : forall fuel m pre post, m = pre ++ mid ++ 0 :: post ->
  ch ∉ mid -> 0 ∉ mid -> ch <> 0 -> (length mid < fuel)%nat ->
  strchr fuel m (zlen pre) ch = Ok None.
Proof.
  induction mid as [|d mid IH]; intros [|fuel] m pre post Hm H1 H2 Hc Hf; cbn [length] in *; try lia;
    cbn [strchr].
  - rewrite (load_at m _ pre 0 post) by done. cbn [mbind result_bind]. by bool_false (0 =? ch).
  - apply not_elem_of_cons in H1 as [Hd1 H1]. apply not_elem_of_cons in H2 as [Hd2 H2].
    rewrite (load_at m _ pre d (mid ++ 0 :: post)) by done. cbn [mbind result_bind].
    bool_false (d =? ch). bool_false (d =? 0).
    replace (zlen pre + 1) with (zlen (pre ++ [d])) by slia.
    apply (IH fuel m (pre ++ [d]) post); [by rewrite Hm, <- app_assoc|done..|lia].
Qed.

Lemma strtol_digits_spec ds x : Forall is_digit ds -> isdigit x = false ->
  forall fuel m pre post v, m = pre ++ ds ++ x :: post -> (length ds < fuel)%nat ->
  strtol_digits fuel m (zlen pre) v = Ok (foldl dec_step v ds).
Proof.
  intros Hds Hx. induction ds as [|d ds IH]; intros [|fuel] m pre post v Hm Hf; cbn [length] in *;
    try lia; cbn [strtol_digits].
  - rewrite (load_at m _ pre x post) by done. cbn [mbind result_bind]. by rewrite Hx.
  - apply Forall_cons in Hds as [Hd Hds]. unfold is_digit in Hd.
    rewrite (load_at m _ pre d (ds ++ x :: post)) by done. cbn [mbind result_bind].
    replace (isdigit d) with true by (unfold isdigit; by bool_true (48 <=? d); bool_true (d <=? 57)).
    replace (zlen pre + 1) with (zlen (pre ++ [d])) by slia.
    cbn [foldl]. apply IH with (post := post); [done|by rewrite Hm, <- app_assoc|lia].
Qed.

Lemma strtol_udec n m pre post : 0 <= n < 2 ^ 63 -> m = pre ++ udec n ++ CR :: post ->
  strtol m (zlen pre) = Ok n.
Proof.
  intros Hn Hm. unfold strtol.
  destruct (udec_nonempty n ltac:(lia)) as (d & ds & E & Hd). unfold is_digit in Hd.
  assert (load m (zlen pre) = Ok d) as Hl by (apply (load_at m _ pre d (ds ++ CR :: post)); [by rewrite Hm, E|done]).
  cbn [strtol_blanks]. rewrite Hl. cbn [mbind result_bind].
  replace (isspace d) with false.
  2: { unfold isspace. bool_false (d =? 32). bool_false (d <=? 13). by rewrite andb_false_r. }
  cbn [mbind result_bind]. rewrite Hl. cbn [mbind result_bind].
  bool_false (d =? 45). bool_false (d =? 43). cbn [orb].
  rewrite (strtol_digits_spec (udec n) CR) with (post := post); [|by apply udec_digits; lia|done|done|].
  2: { rewrite Hm, !length_app. cbn [length]. lia. }
  cbn [mbind result_bind]. fold (dec_value (udec n)). rewrite dec_value_udec by lia.
  unfold LONG_MAX. f_equal. lia.
Qed.

(** ** Arguments *)
Lemma udec_no n c : 0 <= n -> ~ is_digit c -> c ∉ udec n.
Proof.
  intros Hn Hc Hin. pose proof (udec_digits n Hn) as H. rewrite Forall_forall in H. by apply Hc, H.
Qed.

(** The argument [d] comes after a text [gap] without a dollar sign. *)
Lemma nextArgument_bulk m pre gap d post : m = pre ++ gap ++ bulk d ++ post ->
  36 ∉ gap -> 0 ∉ gap -> zlen (pre ++ gap ++ bulk d) < 2 ^ 31 ->
  nextArgument m (zlen pre) = Ok (Some (zlen pre + zlen gap + zlen (udec (zlen d)) + 3, zlen d,
    zlen pre + zlen gap + zlen (bulk d))).
Proof.
  intros Hm H1 H2 Hlen. unfold nextArgument.
  pose proof (bulk_eq d) as Hb. pose proof (bulk_zlen d) as Hbl.
  rewrite !length_app in Hlen.
  set (u := udec (zlen d)) in *. assert (m = (pre ++ gap) ++ 36 :: u ++ CR :: LF :: d ++ crlf ++ post) as Hm'.
  { rewrite Hm, Hb. unfold crlf. solve_app. }
  assert (exists c, load m (zlen pre) = Ok c /\
    (if negb (c =? 36) then strchr (S (length m)) m (zlen pre) 36 else Ok (Some (zlen pre))) =
    Ok (Some (zlen pre + zlen gap))) as (c & -> & Hp).
  { destruct gap as [|g gap].
    - exists 36. rewrite app_nil_r in Hm'. split; [eapply (load_at m _ pre 36); [exact Hm'|done]|].
      cbn [negb Z.eqb Pos.eqb]. do 2 f_equal. cbn. lia.
    - rewrite <- app_assoc in Hm'. exists g. split; [eapply (load_at m _ pre g); [exact Hm'|done]|]. pose proof H1 as H1'.
      apply not_elem_of_cons in H1' as [Hg _]. bool_false (g =? 36). cbn [negb].
      eapply strchr_found; [exact Hm'|done..|]. rewrite Hm'. slia. }
  cbn [mbind result_bind]. rewrite Hp. cbn [mbind result_bind].
  replace (zlen pre + zlen gap + 1) with (zlen ((pre ++ gap) ++ [36])) by slia.
  rewrite (strtol_udec (zlen d) m ((pre ++ gap) ++ [36]) (LF :: d ++ crlf ++ post));
    [|lia|rewrite Hm'; solve_app].
  cbn [mbind result_bind]. rewrite (s32_id (zlen d)), (u64_id (zlen d)) by lia.
  replace (zlen pre + zlen gap) with (zlen (pre ++ gap)) by slia.
  rewrite (strchr_found 13 (36 :: u)) with (post := LF :: d ++ crlf ++ post).
  - cbn [mbind result_bind c_assert deref]. rewrite length_app, length_cons, s64_id by lia.
    repeat (f_equal; try lia).
  - rewrite Hm'. done.
  - apply not_elem_of_cons. split; [done|]. apply udec_no; [lia|unfold is_digit; lia].
  - apply not_elem_of_cons. split; [done|]. apply udec_no; [lia|unfold is_digit; lia].
  - rewrite Hm'. slia.
Qed.

Lemma nextArgument_end m pre post : m = pre ++ 0 :: post -> nextArgument m (zlen pre) = Ok None.
Proof.
  intros Hm. unfold nextArgument. rewrite (load_at m _ pre 0 post) by done.
  cbn [mbind result_bind negb Z.eqb].
  by rewrite (strchr_none 36 []) with (post := post) by (done || set_solver || slia).
Qed.

Lemma header_plain args c : c = 36 \/ c = 0 -> c ∉ header args.
Proof.
  intros Hc. unfold header. rewrite not_elem_of_cons, not_elem_of_app.
  split; [lia|]. split; [apply udec_no; unfold is_digit; lia|].
  unfold crlf, CR, LF. rewrite !not_elem_of_cons. split_and!; [lia..|set_solver].
Qed.

(** ** Words *)

(** What a comparison with the text [t] gives for the memory [x]. *)
Definition spells (t x : bytes) : bool :=
  bool_decide (map tolower (take (length t) x) = map tolower t).

Lemma tolower_zero c : tolower c = 0 -> c = 0.
Proof. unfold tolower. split_if; lia. Qed.

Lemma casecmp_spec t : forall m pre x, m = pre ++ x -> no_nul t -> 0 ∈ x ->
  casecmp t m (zlen pre) = Ok (spells t x).
Proof.
  induction t as [|d t IH]; intros m pre x Hm Ht Hx; cbn [casecmp]; [done|].
  apply Forall_cons in Ht as [Hd Ht]. destruct x as [|c x]; [by apply elem_of_nil in Hx|].
  rewrite (load_at m _ pre c x) by done. cbn [mbind result_bind]. unfold spells.
  cbn [length take map]. destruct (tolower c =? tolower d) eqn:E; bool_to_prop; cbn [negb].
  - assert (c <> 0) as Hc by (intros ->; apply Hd, tolower_zero; by rewrite <- E).
    bool_false (c =? 0).
    apply elem_of_cons in Hx as [<-|Hx].
    { done. }
    replace (zlen pre + 1) with (zlen (pre ++ [c])) by slia.
    rewrite (IH m (pre ++ [c]) x); [|by rewrite Hm, <- app_assoc|done..].
    unfold spells. f_equal. apply bool_decide_ext. rewrite E. split; congruence.
  - f_equal. symmetry. apply bool_decide_eq_false. congruence.
Qed.

Lemma tolower_CR c : tolower c = CR <-> c = CR.
Proof. unfold tolower, CR. split_if; lia. Qed.

Lemma spells_word w name post : CR ∉ name -> CR ∉ w ->
  spells (w ++ crlf) (name ++ crlf ++ post) = bool_decide (map tolower name = map tolower w).
Proof.
  intros Hn Hw. unfold spells. apply bool_decide_ext. revert w Hw.
  induction name as [|c name IH]; intros [|d w] Hw.
  - by cbn.
  - apply not_elem_of_cons in Hw as [Hd Hw]. cbn. split; [|done]. intros [= E _].
    symmetry in E. change (tolower 13) with CR in E. by rewrite tolower_CR in E.
  - apply not_elem_of_cons in Hn as [Hc Hn]. cbn. split; [|done]. intros [= E _].
    change (tolower 13) with CR in E. by rewrite tolower_CR in E.
  - apply not_elem_of_cons in Hn as [Hc Hn]. apply not_elem_of_cons in Hw as [Hd Hw].
    cbn. specialize (IH Hn w Hw). split; intros [= -> E]; f_equal; [by apply IH|].
    by apply IH in E.
Qed.

(** The word that the library looks at: the name, less a leading P. *)
Definition command_word (name : bytes) : bytes :=
  match name with
  | c :: rest => if tolower c =? 112 then rest else name
  | [] => []
  end.

Definition is_word (w : string) (name : bytes) : bool :=
  bool_decide (map tolower (command_word name) = map tolower (lit w)).

(** A leading P, in a command or in the kind of a message, is for patterns. *)
Definition for_patterns (word : bytes) : bool :=
  match word with c :: _ => tolower c =? 112 | [] => false end.

(** What [__redisAsyncCommand] finds at the start of an encoded command. *)
Lemma command_head name args r : zlen (command (name :: args)) < INT_MAX -> CR ∉ name ->
  let m := command (name :: args) ++ 0 :: r in
  exists i clen p d c0, nextArgument m 0 = Ok (Some (i, clen, p)) /\ load m p = Ok d /\
    (d =? 36) = negb (bool_decide (args = [])) /\ load m i = Ok c0 /\
    (forall w, CR ∉ lit w -> no_nul (lit w) ->
       casecmp (lit w ++ crlf) m (if tolower c0 =? 112 then i + 1 else i) = Ok (is_word w name)) /\
    p = zlen (header (name :: args) ++ bulk name) /\ (tolower c0 =? 112) = for_patterns name.
Proof.
  intros Hlen Hcr. cbv zeta. set (m := command (name :: args) ++ 0 :: r). unfold INT_MAX in Hlen.
  pose proof (command_eq (name :: args)) as Hc. fold (header (name :: args)) in Hc.
  set (hd := header (name :: args)) in *. cbn [flat_map] in Hc.
  set (post := flat_map bulk args ++ 0 :: r).
  assert (m = [] ++ hd ++ bulk name ++ post) as Hm by (unfold m; rewrite Hc; unfold post; solve_app).
  pose proof (bulk_zlen name) as Hb. pose proof (bulk_eq name) as Hbe.
  rewrite Hc, !length_app in Hlen.
  set (b := hd ++ 36 :: udec (zlen name) ++ crlf).
  assert (m = b ++ name ++ crlf ++ post) as Hmb.
  { rewrite Hm, Hbe. unfold b. solve_app. }
  assert (zlen b = zlen hd + zlen (udec (zlen name)) + 3) as Hbl.
  { unfold b. rewrite !length_app, length_cons, length_app. cbn [length crlf]. lia. }
  exists (zlen b), (zlen name), (zlen (hd ++ bulk name)).
  assert (exists d, load m (zlen (hd ++ bulk name)) = Ok d /\ (d =? 36) = negb (bool_decide (args = [])))
    as (d & Hd & Hd36).
  { assert (m = (hd ++ bulk name) ++ post) as E by (rewrite Hm; solve_app).
    destruct args as [|a args].
    - exists 0. split; [|done]. by apply (load_at m _ (hd ++ bulk name) 0 r).
    - exists 36. split; [|done]. eapply (load_at m _ (hd ++ bulk name) 36); [|done].
      rewrite E. unfold post. cbn [flat_map]. rewrite bulk_eq. solve_app. }
  assert (exists c0 x, name ++ crlf = c0 :: x /\
    name ++ crlf = (if tolower c0 =? 112 then [c0] else []) ++ command_word name ++ crlf /\
    (tolower c0 =? 112) = for_patterns name) as (c0 & x & Hx & Hw & Hpat).
  { destruct name as [|c name]; [by exists CR, [LF]|]. exists c, (name ++ crlf). split; [done|].
    cbn [command_word for_patterns]. by destruct (tolower c =? 112). }
  exists d, c0. split_and!; [|done|done| | |done|done].
  - change 0 with (zlen (@nil Z)). rewrite (nextArgument_bulk m [] hd name post Hm).
    + repeat (f_equal; try (rewrite ?length_app; cbn [length]; lia)).
    + apply header_plain. by left.
    + apply header_plain. by right.
    + cbn [app]. rewrite length_app. lia.
  - eapply (load_at m _ b c0); [|done]. rewrite Hmb, (app_assoc name), Hx. done.
  - intros w Hw1 Hw2. set (pv := if tolower c0 =? 112 then [c0] else []).
    assert (m = (b ++ pv) ++ command_word name ++ crlf ++ post) as Hmp.
    { rewrite Hmb, (app_assoc name), Hw. unfold pv. by rewrite <- !app_assoc. }
    replace (if tolower c0 =? 112 then zlen b + 1 else zlen b) with (zlen (b ++ pv)).
    2: { unfold pv. destruct (tolower c0 =? 112); rewrite length_app; cbn [length]; lia. }
    rewrite (casecmp_spec _ _ _ _ Hmp).
    + rewrite spells_word; [done| |done]. intros Hin. apply Hcr.
      destruct name as [|c name]; [done|]. cbn [command_word] in Hin.
      destruct (tolower c =? 112); [by right|done].
    + unfold no_nul. apply Forall_app. split; [done|]. by repeat constructor.
    + unfold post. rewrite !elem_of_app, elem_of_cons. tauto.
Qed.

(** Commands that are neither SUBSCRIBE, UNSUBSCRIBE nor MONITOR, nor one of
    these with a leading P. *)
Definition ordinary (ds : list bytes) : bool :=
  match ds with
  | name :: _ =>
      bool_decide (CR ∉ name) && negb (is_word "subscribe" name) &&
      negb (is_word "unsubscribe" name) && negb (is_word "monitor" name)
  | [] => false
  end.

(** Decides a closed proposition. *)
Ltac decide_now := refine (bool_decide_unpack _ _); vm_compute; exact I.

(** ** Queueing a command *)
Section command.
Context {M : Malloc} {HM : HeapMalloc} {W : Type} {OS : Sys W}.
Abbreviation state := (state (W := W)).
Implicit Types (s : state).

Hypothesis malloc_total : forall n, malloc_ok n = true.

(** Output was added, and the event loop told. *)
Definition written s (o : sds) : state :=
  mk_state (set_c (s_ac s) (set_obuf (a_c (s_ac s)) (Some o))) (s_heap s) (s_cbs s) (s_dicts s)
    (s_sys s) (s_log s ++ if has_addWrite (a_ev (s_ac s)) then [EvAddWrite] else []) (s_freed s).

Lemma add_write_run s : s_freed s = false -> _EL_ADD_WRITE s = Ok (tt,
  mk_state (s_ac s) (s_heap s) (s_cbs s) (s_dicts s) (s_sys s)
    (s_log s ++ if has_addWrite (a_ev (s_ac s)) then [EvAddWrite] else []) (s_freed s)).
Proof.
  intros Hf. unfold _EL_ADD_WRITE. erewrite abind; [|by apply get_ac_live].
  destruct (has_addWrite _); cbn [when]; [done|]. rewrite app_nil_r. by destruct s.
Qed.

Lemma append_command_run s p cmd r : s_freed s = false -> holds p (a_c (s_ac s)) ->
  zlen p + zlen cmd < 2 ^ 62 -> exists o,
  append_command (cmd ++ r) (zlen cmd) s = Ok (REDIS_OK, written s o) /\ sds_is (p ++ cmd) o.
Proof.
  intros Hf Hp Hl. destruct (append_holds malloc_total _ cmd r p (s_sys s) Hp Hl) as (o & Ho & Hs).
  exists o. split; [|done]. unfold append_command.
  erewrite abind; [|unfold get_c; erewrite abind; [done|by apply get_ac_live]].
  erewrite abind; [|done]. erewrite abind; [|unfold lift; by rewrite Ho]. cbv beta iota.
  erewrite abind; [|unfold put_c; erewrite abind; [by apply put_ac_run|by apply get_ac_live]].
  erewrite abind; [|by apply add_write_run]. done.
Qed.

Lemma push_reply_run s cb q : s_freed s = false -> cbs_ok (s_cbs s) ->
  queue (s_cbs s) (a_replies (s_ac s)) q -> exists p l cbs,
  push_reply cb s = Ok (REDIS_OK, upd set_replies s cbs l) /\ queue cbs l (q ++ [(p, cb)]) /\
  cbs_ok cbs /\ forall l2 q2, queue (s_cbs s) l2 q2 -> (forall x, x ∈ q2.*1 -> x ∉ q.*1) ->
    queue cbs l2 q2 /\ (p ∉ q2.*1).
Proof.
  intros Hf Hok Hq.
  destruct (push_queue _ _ _ cb (malloc_total 24) Hok Hq) as (p & l & cbs & Hr & Hq' & Hok' & _ & Hfr).
  exists p, l, cbs. split_and!; try done. unfold push_reply.
  erewrite abind; [|by apply get_ac_live]. erewrite abind; [|done].
  erewrite abind; [|unfold lift; by rewrite Hr]. cbv beta iota.
  erewrite abind; [|done]. erewrite abind; [|by apply put_ac_run]. done.
Qed.

(** An ordinary command adds its callback to the replies that are awaited and
    its text to the output. *)
Lemma command_run s fn pd ds r p q : s_freed s = false ->
  has_flag (a_c (s_ac s)) (Z.lor REDIS_DISCONNECTING REDIS_FREEING) = false ->
  has_flag (a_c (s_ac s)) REDIS_SUBSCRIBED = false ->
  ordinary ds = true -> zlen (command ds) < INT_MAX ->
  holds p (a_c (s_ac s)) -> zlen p + zlen (command ds) < 2 ^ 62 ->
  cbs_ok (s_cbs s) -> queue (s_cbs s) (a_replies (s_ac s)) q ->
  exists n l cbs o,
    __redisAsyncCommand fn pd (command ds ++ 0 :: r) (zlen (command ds)) s =
      Ok (REDIS_OK, written (upd set_replies s cbs l) o) /\
    sds_is (p ++ command ds) o /\ queue cbs l (q ++ [(n, mk_cb fn pd)]) /\ cbs_ok cbs /\
    forall l2 q2, queue (s_cbs s) l2 q2 -> (forall x, x ∈ q2.*1 -> x ∉ q.*1) ->
      queue cbs l2 q2 /\ (n ∉ q2.*1).
Proof.
  intros Hf Hcl Hsub Hord Hlen Hp Hpl Hok Hq. destruct ds as [|name args]; [done|].
  cbn [ordinary] in Hord. bool_to_prop. 
  destruct (command_head name args r Hlen) as (i & clen & j & d & c0 & G1 & G2 & _ & G3 & G4 & _).
  { by eapply bool_decide_eq_true_1. }
  assert (forall w, CR ∉ lit w -> no_nul (lit w) -> is_word w name = false ->
    casecmp (lit w ++ crlf) (command (name :: args) ++ 0 :: r)
      (if tolower c0 =? 112 then i + 1 else i) = Ok false) as Hw.
  { intros w ? ? <-. by apply G4. }
  assert (Hs := Hw "subscribe" ltac:(decide_now) ltac:(decide_now) ltac:(done)).
  assert (Hu := Hw "unsubscribe" ltac:(decide_now) ltac:(decide_now) ltac:(done)).
  assert (Hm := Hw "monitor" ltac:(decide_now) ltac:(decide_now) ltac:(done)).
  unfold __redisAsyncCommand. erewrite abind; [|by apply flagged_run]. rewrite Hcl.
  erewrite abind; [|unfold lift; by rewrite G1]. erewrite abind; [|done].
  erewrite abind; [|done]. cbv beta iota. erewrite abind; [|unfold lift; by rewrite G2].
  erewrite abind; [|unfold lift; by rewrite G3]. cbv zeta.
  erewrite (abind _ _ _ false s).
  2: { destruct (d =? 36); [|done]. unfold lift, subscribe_text. by rewrite Hs. }
  cbv beta iota. erewrite abind; [|unfold lift, unsubscribe_text; by rewrite Hu].
  cbv beta iota. erewrite abind; [|unfold lift, monitor_text; by rewrite Hm].
  cbv beta iota. erewrite abind; [|by apply flagged_run]. rewrite Hsub. cbv beta iota.
  destruct (push_reply_run s (mk_cb fn pd) q Hf Hok Hq) as (n & l & cbs & Hr & Hq' & Hok' & Hfr).
  erewrite abind by exact Hr.
  destruct (append_command_run (upd set_replies s cbs l) p (command (name :: args)) (0 :: r) Hf Hp Hpl)
    as (o & Ho & Hso).
  by exists n, l, cbs, o.
Qed.
End command.
