(* ===== verification/AsyncReplies.v ===== *)
(** * AsyncReplies: replies delivered to callbacks

    The client of this file makes requests from its callbacks. The context is
    [ready] with the callbacks [q] and the output [p]; the reader is [pending]
    on a stream of encoded values, of which it has read a part. A read event
    runs the callbacks of the values that are complete. *)
From S2P Require Import Prelude Mem Sds SdsFacts Reply Reader ReaderSpec ReaderStream ReaderView Streaming.
From S2P Require Import ReplyTree ReaderDefault Resp RoundTrip Session Format FormatFacts.
From S2P Require Import System Context ContextFacts Net Connect Dict Callbacks.
From S2P Require Import Async AsyncFacts AsyncCommand.
From stdpp Require Import list list_numbers strings sets gmap.
From Stdlib Require Import ZArith Lia.
Open Scope Z_scope.

(** ** Streams of values *)

(** [x] is not yet all of the first value of [vs]. *)
Definition short (x : bytes) (vs : list resp) : Prop :=
  match vs with
  | [] => x = []
  | v :: _ => (length x < length (resp_encode v))%nat
  end.

Abbreviation encodes := (flat_map resp_encode).

Lemma resp_encode_pos v : (0 < length (resp_encode v))%nat.
Proof. destruct v; cbn [resp_encode length]; lia. Qed.

(** The values that are complete in a prefix of a stream. *)
Lemma split_stream vs : forall x y, x ++ y = encodes vs -> exists vs1 vs2 tail,
  vs = vs1 ++ vs2 /\ x = encodes vs1 ++ tail /\ short tail vs2 /\ tail ++ y = encodes vs2.
Proof.
  induction vs as [|v vs IH]; intros x y Hxy.
  { cbn in Hxy. apply app_nil in Hxy as [-> ->]. by exists [], [], []. }
  cbn [flat_map] in Hxy. destruct (decide (length x < length (resp_encode v))%nat) as [Hx|Hx].
  { by exists [], (v :: vs), x. }
  assert (x = resp_encode v ++ drop (length (resp_encode v)) x) as Ex.
  { apply (f_equal (take (length (resp_encode v)))) in Hxy as Ht.
    rewrite take_app_length, take_app_le in Ht by lia.
    rewrite <- Ht at 1. symmetry. apply take_drop. }
  set (x' := drop _ x) in *. rewrite Ex, <- app_assoc in Hxy. apply app_inv_head in Hxy.
  destruct (IH _ _ Hxy) as (vs1 & vs2 & tail & -> & Hx' & Hs & Ht).
  exists (v :: vs1), vs2, tail. split_and!; try done.
  cbn [flat_map]. by rewrite Ex, Hx', <- app_assoc.
Qed.

Lemma leaf_obj_leaf v o : leaf_obj v = Some o -> is_leaf o.
Proof. destruct v as [s|s|n|s| |[|]]; intros [= <-]; unfold is_leaf; cbn; auto. Qed.

Lemma tree_val_leaves t : forall v, tree_val t v -> leaves_ok t.
Proof.
  induction t as [|p o|p ts IH] using tree_ind'; intros v Hv; inversion Hv; subst; cbn [leaves_ok].
  - by eapply leaf_obj_leaf.
  - apply (leaves_ok_arr p). apply Forall_forall. intros t Ht. rewrite Forall_forall in IH.
    apply list_elem_of_lookup in Ht as Hi. destruct Hi as [i Hi].
    match goal with H : Forall2 _ _ _ |- _ =>
      destruct (Forall2_lookup_l _ _ _ _ _ H Hi) as (v' & _ & Htv) end.
    by eapply IH.
Qed.

Lemma parsing_heap {M : Malloc} {HM : HeapMalloc} k ty fs h h' F F' : parsing k ty fs h F ->
  heap_rep h' (zcells NULL fs) F' -> parsing k ty fs h' F'.
Proof. intros [H1 H2 H3 H4 H5 H6 H7 _]. by split. Qed.

Section reader.
Context {M : Malloc} {HM : HeapMalloc}.
Hypothesis heap_total : forall n size, heap_ok n size = true.
Abbreviation reader := (redisReader heap).
Implicit Types (k : reader) (F : gmap Z redisReply) (h : heap).

(** A part of a value gives no reply. *)
Lemma short_idle k h F x vs : live k -> parsing k (-1) [] h F -> short x vs ->
  Forall sendable vs -> Forall (fun v => depth v <= 8)%nat vs ->
  (exists y, x ++ y = encodes vs) ->
  exists a h', abs_get (Live k x) h = Ok (REDIS_OK, NULL, a, h').
Proof.
  intros Hl Hk Hs Hv Hd [y Hy]. destruct vs as [|v vs].
  { cbn in Hs. subst x. exists (Live k []), h. cbn [abs_get]. pose proof (live_ridx _ Hl).
    rewrite abs_parse_step by apply Hl. if_true. by rewrite (live_idle _ Hl). }
  cbn in Hs. cbn [flat_map] in Hy. apply Forall_cons in Hv as [Hv _]. apply Forall_cons in Hd as [Hd _].
  set (z := drop (length x) (resp_encode v)).
  assert (resp_encode v = x ++ z) as Hz.
  { apply (f_equal (take (length x))) in Hy as Ht.
    rewrite take_app_length, take_app_le in Ht by lia. rewrite Ht. symmetry. apply take_drop. }
  assert (z <> []) as Hne by (intros E; rewrite Hz, E, app_nil_r in Hs; lia).
  destruct (get_value heap_total k h F v [] Hl Hk Hv Hd) as (t & k' & h' & Hg & Hnn & _).
  rewrite app_nil_r, Hz in Hg.
  destruct (abs_get (Live k x) h) as [[[[st p] a1] h1]|f] eqn:Eg.
  2: { pose proof (abs_get_fault (Live k x) z h f Hl Eg) as Hf.
       cbn [abs_feed] in Hf. congruence. }
  pose proof (abs_get_feed (Live k x) z h _ _ _ _ Hl Eg) as Hf. cbn [abs_feed] in Hf.
  rewrite Hf in Hg. destruct (st =? REDIS_OK) eqn:E1, (p =? NULL) eqn:E2; bool_to_prop; cbn [andb] in Hg.
  - subst. by exists a1, h1.
  - injection Hg as -> -> Ha ->. exfalso. destruct a1 as [k1 u1|k1]; [|done]. cbn in Ha.
    injection Ha as -> Hu. by apply app_nil in Hu as [_ ?].
  - injection Hg as -> -> Ha ->. done.
  - injection Hg as -> -> Ha ->. done.
Qed.

(** The reader [a] with the store [h] answers as one that is between two values
    and was given [u]. *)
Record pending (a : areader (H := heap)) h (u : bytes) F : Prop := {
  pen_live : match a with Live k _ => live k | Dead _ => False end;
  pen_heap : u = [] -> heap_rep h [] F;
  pen_core : exists k0 h0, live k0 /\ parsing k0 (-1) [] h0 F /\
    forall x, abs_get (abs_feed a x) h = abs_get (Live k0 (u ++ x)) h0
}.

Lemma pending_alive a h u F : pending a h u F -> alive a.
Proof. intros [H _ _]. by destruct a. Qed.

Lemma pending_feed a h u F x : pending a h u F -> pending (abs_feed a x) h (u ++ x) F.
Proof.
  intros [Hl Hh (k0 & h0 & Hk & Hp & Hx)]. split.
  - by destruct a.
  - intros [-> ->]%app_nil. auto.
  - exists k0, h0. split_and!; try done. intros y. rewrite <- app_assoc, <- Hx.
    destruct a; cbn; [by rewrite app_assoc|done].
Qed.

Lemma pending_core k h u F : live k -> parsing k (-1) [] h F -> pending (Live k u) h u F.
Proof. intros Hl Hp. split; [done|intros _; apply Hp|]. by exists k, h. Qed.

(** The next reply of a pending reader. *)
Lemma pending_value a h v u F : pending a h (resp_encode v ++ u) F -> sendable v ->
  (depth v <= 8)%nat -> exists t k h',
  abs_get a h = Ok (REDIS_OK, ptr t, Live k u, h') /\ ptr t <> NULL /\ tree_val t v /\
  heap_rep h' (cells_of t) F /\ base k /\
  forall h2, heap_rep h2 [] F -> pending (Live k u) h2 u F.
Proof.
  intros [Hl _ (k0 & h0 & Hk & Hp & Hx)] Hv Hd.
  destruct (get_value heap_total k0 h0 F v u Hk Hp Hv Hd) as (t & k & h' & Hg & Hnn & Ht & Hh & Hl' & Hp').
  exists t, k, h'. specialize (Hx []). rewrite abs_feed_nil, app_nil_r in Hx.
  split_and!; try done; [by rewrite Hx|apply Hp'|].
  intros h2 H2. apply pending_core; [done|]. by eapply parsing_heap.
Qed.

Lemma pending_idle a h u vs F y : pending a h u F -> short u vs -> Forall sendable vs ->
  Forall (fun v => depth v <= 8)%nat vs -> u ++ y = encodes vs -> exists a' h',
  abs_get a h = Ok (REDIS_OK, NULL, a', h') /\ pending a' h' u F.
Proof.
  intros Hpen Hs Hv Hd Hy. pose proof (pending_alive _ _ _ _ Hpen) as Hl.
  destruct Hpen as [_ _ (k0 & h0 & Hk & Hp & Hx)].
  destruct (short_idle k0 h0 F u vs Hk Hp Hs Hv Hd (ex_intro _ y Hy)) as (a0 & h1 & Hg).
  pose proof (Hx []) as Hx0. rewrite abs_feed_nil, app_nil_r, Hg in Hx0.
  exists a0, h1. split; [done|]. destruct (abs_get_alive _ _ _ _ _ _ Hl Hx0) as [Hl0 _].
  split; [by destruct (abs_get_ok_live _ _ _ _ _ Hl Hx0) as (? & ? & ->)|..].
  { intros ->. cbn [abs_get] in Hg. pose proof (live_ridx _ Hk).
    rewrite abs_parse_step in Hg by apply Hk.
    rewrite (proj2 (Z.leb_le 0 (rr_ridx k0))), (live_idle _ Hk) in Hg by done.
    cbn in Hg. simplify_eq. apply Hp. }
  exists k0, h0. split_and!; try done. intros x.
  pose proof (abs_get_feed a x h _ _ _ _ Hl Hx0) as Hf.
  change (_ && _) with true in Hf. cbv iota in Hf. by rewrite <- Hf, Hx.
Qed.
End reader.

(** ** Requests *)

(** A command with the callback for its reply. *)
Definition request : Type := redisCallback * list bytes.

Definition texts (rqs : list request) : bytes := flat_map command rqs.*2.

(** The action [a] is the request [rq]. *)
Definition asks (a : action) (rq : request) : Prop :=
  exists r, a = ActCommand (cb_fn rq.1) (cb_privdata rq.1) (command rq.2 ++ 0 :: r)
                  (zlen (command rq.2)) /\
    ordinary rq.2 = true /\ zlen (command rq.2) < INT_MAX.

(** The callbacks that got a reply, with the store in which they found it. *)
Definition replies (l : list event) : list (redisCallback * Z * heap) :=
  omap (fun e => match e with EvReply fn pd r h => Some (mk_cb fn pd, r, h) | _ => None end) l.

Lemma replies_app l1 l2 : replies (l1 ++ l2) = replies l1 ++ replies l2.
Proof. apply omap_app. Qed.

(** No reply came. *)
Definition silent (e : event) : Prop :=
  match e with EvReply _ _ _ _ => False | _ => True end.

(** A callback got the value [v]. *)
Definition got (x : redisCallback * Z * heap) (y : redisCallback * resp) : Prop :=
  x.1.1 = y.1 /\ reply_value (size (cells x.2)) x.2 x.1.2 = Some y.2.

(** A [NULL] function is not called. *)
Definition callable (y : redisCallback * resp) : Prop := cb_fn y.1 <> NULL.
#[export] Instance callable_dec y : Decision (callable y).
Proof. unfold callable. apply _. Defined.

Lemma has_flag_or c f g : has_flag c (Z.lor f g) = has_flag c f || has_flag c g.
Proof.
  unfold has_flag. rewrite Z.land_lor_distr_r, <- negb_andb. f_equal.
  destruct (Z.land (c_flags c) f =? 0) eqn:E1, (Z.land (c_flags c) g =? 0) eqn:E2;
    bool_to_prop; cbn [andb]; try (apply Z.eqb_neq; rewrite Z.lor_eq_0_iff; tauto).
  by rewrite E1, E2.
Qed.

Lemma add_clear c f : has_flag c f = false -> clear_flag (add_flag c f) f = c.
Proof.
  unfold has_flag. intros H. bool_to_prop.
  unfold clear_flag, add_flag. cbn [c_flags set_flags].
  replace (Z.ldiff (Z.lor (c_flags c) f) f) with (c_flags c); [by destruct c|].
  apply Z.bits_inj'. intros n Hn. apply (f_equal (fun z => Z.testbit z n)) in H.
  rewrite Z.land_spec, Z.bits_0 in H. rewrite Z.ldiff_spec, Z.lor_spec.
  destruct (Z.testbit (c_flags c) n), (Z.testbit f n); done.
Qed.

Section client.
Context {M : Malloc} {HM : HeapMalloc} {W : Type} {OS : Sys W}.
Abbreviation state := (state (W := W)).
Implicit Types (s : state).
Hypothesis malloc_total : forall n, malloc_ok n = true.

(** The context is open and waits with the callbacks [q]; [p] is to be sent. *)
Record ready s (q : list (Z * redisCallback)) (p : bytes) : Prop := {
  rd_live : s_freed s = false;
  rd_open : has_flag (a_c (s_ac s)) (Z.lor REDIS_DISCONNECTING REDIS_FREEING) = false;
  rd_mode : has_flag (a_c (s_ac s)) (Z.lor REDIS_SUBSCRIBED REDIS_MONITORING) = false;
  rd_queue : queue (s_cbs s) (a_replies (s_ac s)) q;
  rd_cbs : cbs_ok (s_cbs s);
  rd_out : holds p (a_c (s_ac s))
}.

(** Everything that requests do not change. *)
Definition frame s :=
  (s_heap s, s_dicts s, s_sys s, s_freed s, a_ev (s_ac s), set_obuf (a_c (s_ac s)) None,
   (a_invalid (s_ac s), a_channels (s_ac s), a_patterns (s_ac s),
    a_onConnect (s_ac s), a_onDisconnect (s_ac s))).

Lemma frame_fields s s' : frame s' = frame s ->
  s_heap s' = s_heap s /\ s_sys s' = s_sys s /\ c_flags (a_c (s_ac s')) = c_flags (a_c (s_ac s)) /\
  c_reader (a_c (s_ac s')) = c_reader (a_c (s_ac s)) /\ c_err (a_c (s_ac s')) = c_err (a_c (s_ac s)) /\
  c_fd (a_c (s_ac s')) = c_fd (a_c (s_ac s)) /\ a_ev (s_ac s') = a_ev (s_ac s).
Proof. unfold frame. intros H. simplify_eq. by split_and!. Qed.

Lemma frame_owned s s' : frame s' = frame s ->
  s_dicts s' = s_dicts s /\ a_invalid (s_ac s') = a_invalid (s_ac s) /\
  a_channels (s_ac s') = a_channels (s_ac s) /\ a_patterns (s_ac s') = a_patterns (s_ac s) /\
  a_onDisconnect (s_ac s') = a_onDisconnect (s_ac s).
Proof. unfold frame. intros H. simplify_eq. by split_and!. Qed.

(** What requests do: no callback runs, and the event for writing is asked
    for. *)
Record requested s s' : Prop := {
  rq_frame : frame s' = frame s;
  rq_log : exists evs, s_log s' = s_log s ++ evs /\ Forall (eq EvAddWrite) evs
}.

Lemma requested_refl s : requested s s.
Proof. split; [done|]. exists []. by rewrite app_nil_r. Qed.

Lemma requested_trans s1 s2 s3 : requested s1 s2 -> requested s2 s3 -> requested s1 s3.
Proof.
  intros [A1 (e1 & A2 & A3)] [B1 (e2 & B2 & B3)]. split; [congruence|].
  exists (e1 ++ e2). rewrite B2, A2, app_assoc. split; [done|]. by apply Forall_app.
Qed.

Lemma command_ready s fn pd ds r q p : ready s q p -> ordinary ds = true ->
  zlen (command ds) < INT_MAX -> zlen p + zlen (command ds) < 2 ^ 62 -> exists n s',
  __redisAsyncCommand fn pd (command ds ++ 0 :: r) (zlen (command ds)) s = Ok (REDIS_OK, s') /\
  ready s' (q ++ [(n, mk_cb fn pd)]) (p ++ command ds) /\ requested s s' /\
  s_log s' = s_log s ++ (if has_addWrite (a_ev (s_ac s)) then [EvAddWrite] else []).
Proof.
  intros [H1 H2 H3 H4 H5 H6] Hord Hlen Hp. pose proof H3 as H3'.
  rewrite has_flag_or in H3'. bool_to_prop.
  destruct (command_run malloc_total s fn pd ds r p q)
    as (n & l & cbs & o & Hr & Ho & Hq & Hok & _); try done.
  exists n. eexists. split; [exact Hr|]. split.
  - split; try done; cbn [written upd s_ac a_c set_c set_replies]. by exists o.
  - split; [|done]. split; [done|]. cbn [written upd s_log s_ac a_ev set_replies].
    eexists. split; [done|]. destruct (has_addWrite _); by repeat constructor.
Qed.

Lemma request_run s user a rq q p : ready s q p -> asks a rq ->
  zlen p + zlen (command rq.2) < 2 ^ 62 -> exists n s',
  run_action user a s = Ok (tt, s') /\ ready s' (q ++ [(n, rq.1)]) (p ++ command rq.2) /\
  requested s s'.
Proof.
  intros Hr (r & -> & Hord & Hlen) Hp.
  destruct (command_ready s (cb_fn rq.1) (cb_privdata rq.1) rq.2 r q p Hr Hord Hlen Hp)
    as (n & s' & Hc & Hr' & Hq & _).
  exists n, s'. split; [cbn [run_action]; by rewrite (abind _ _ _ _ _ Hc)|].
  by destruct rq as [[] ?].
Qed.

Lemma requests_run user l rqs : Forall2 asks l rqs -> forall s q p, ready s q p ->
  zlen p + zlen (texts rqs) < 2 ^ 62 -> exists q2 s',
  run_actions user l s = Ok (tt, s') /\ ready s' (q ++ q2) (p ++ texts rqs) /\ requested s s' /\
  q2.*2 = rqs.*1.
Proof.
  induction 1 as [|a rq l rqs Ha Hl IH]; intros s q p Hr Hp; cbn [run_actions].
  - exists [], s. cbn. rewrite !app_nil_r. split_and!; try done. apply requested_refl.
  - unfold texts in *. cbn [fmap list_fmap flat_map] in *. rewrite length_app in Hp.
    destruct (request_run s user a rq q p Hr Ha) as (n & s1 & H1 & Hr1 & Hq1); [lia|].
    rewrite (abind _ _ _ _ _ H1).
    destruct (IH s1 _ _ Hr1) as (q2 & s2 & H2 & Hr2 & Hq2 & Hq). { rewrite length_app. lia. }
    exists ((n, rq.1) :: q2), s2. rewrite !app_assoc. split_and!; try done.
    + by rewrite <- app_assoc in Hr2.
    + by eapply requested_trans.
    + cbn. by rewrite Hq.
Qed.

(** ** Callbacks with a reply *)
Section plan.
Context (script : list event -> list action) (plan : list event -> list request) (B : Z).
Hypothesis script_plan : forall l, Forall2 asks (script l) (plan l).
Hypothesis plan_bound : forall l, zlen (texts (plan l)) <= B.

(** The requests that the callbacks make when [evs] happens after [l]. *)
Fixpoint issued (l evs : list event) : list request :=
  match evs with
  | [] => []
  | e :: evs =>
      (match e with EvReply _ _ _ _ => plan (l ++ [e]) | _ => [] end) ++ issued (l ++ [e]) evs
  end.

Lemma issued_app l e1 e2 : issued l (e1 ++ e2) = issued l e1 ++ issued (l ++ e1) e2.
Proof.
  revert l. induction e1 as [|e e1 IH]; intros l; cbn [app issued]; [by rewrite app_nil_r|].
  by rewrite IH, <- !app_assoc.
Qed.

Lemma issued_none l evs : Forall silent evs -> issued l evs = [].
Proof.
  intros H. revert l. induction H as [|e evs He _ IH]; intros l; cbn; [done|].
  destruct e; try done; apply IH.
Qed.

Lemma replies_none evs : Forall silent evs -> replies evs = [].
Proof. unfold replies. induction 1 as [|e evs He _ IH]; [done|]. by destruct e. Qed.

Lemma asked_silent evs : Forall (eq EvAddWrite) evs -> Forall silent evs.
Proof. intros H. eapply Forall_impl; [exact H|]. by intros ? <-. Qed.

(** What happens while replies are delivered. *)
Definition delivered (e : event) : Prop :=
  match e with EvReply _ _ _ _ | EvAddRead | EvAddWrite => True | _ => False end.

(** A step of the client: [evs] happen, and what they ask for is queued. *)
Record served s q p evs s' q' p' : Prop := {
  se_ready : ready s' q' p';
  se_log : s_log s' = s_log s ++ evs;
  se_queue : exists q2, q' = q ++ q2 /\ q2.*2 = (issued (s_log s) evs).*1;
  se_out : p' = p ++ texts (issued (s_log s) evs);
  se_kind : Forall delivered evs
}.

Lemma callback_served n cb r s q p : ready s q p ->
  has_flag (a_c (s_ac s)) REDIS_IN_CALLBACK = false -> zlen p + B < 2 ^ 62 ->
  exists s' evs q', __redisRunCallback (run_user script (S n)) cb r s = Ok (tt, s') /\
    served s q p evs s' q' (p ++ texts (issued (s_log s) evs)) /\ frame s' = frame s /\
    zlen (texts (issued (s_log s) evs)) <= B /\
    replies evs = if cb_fn cb =? NULL then [] else [(cb, r, s_heap s)].
Proof.
  intros Hr Hcb Hp. unfold __redisRunCallback. destruct (cb_fn cb =? NULL) eqn:E; cbn [negb].
  { pose proof (plan_bound []). exists s, [], q. cbn. rewrite app_nil_r. split_and!; try done; [|lia].
    split; try done; [by rewrite app_nil_r|exists []; by rewrite app_nil_r|by rewrite app_nil_r]. }
  erewrite abind; [|apply raise_run, Hr]. set (s1 := with_ac s _). erewrite abind; [|done].
  cbn [run_user]. set (e := EvReply _ _ _ _).
  set (s2 := mk_state (s_ac s1) (s_heap s1) (s_cbs s1) (s_dicts s1) (s_sys s1) (s_log s1 ++ [e])
    (s_freed s1)).
  assert (ready s2 q p) as Hr2.
  { destruct Hr as [H1 H2 H3 H4 H5 H6]. split; try done; cbn [s2 s1 s_ac with_ac a_c set_c];
      by rewrite add_flag_other. }
  pose proof (script_plan (s_log s ++ [e])) as Hs. pose proof (plan_bound (s_log s ++ [e])) as Hb.
  destruct (requests_run (run_user script n) _ _ Hs s2 q p Hr2 ltac:(lia))
    as (q2 & s3 & Ha & Hr3 & [Hfr (evs & Hl & Hev)] & Hq).
  erewrite abind; [|erewrite abind; [|done]; erewrite abind; [|done]; exact Ha].
  assert (s_freed s3 = false) as Hf3 by apply Hr3.
  destruct (frame_fields _ _ Hfr) as (F1 & F2 & F3 & F4 & F5 & F6 & F7).
  set (s4 := with_ac s3 (set_c (s_ac s3) (clear_flag (a_c (s_ac s3)) REDIS_IN_CALLBACK))).
  assert (issued (s_log s) (e :: evs) = plan (s_log s ++ [e])) as His.
  { cbn [issued e]. by rewrite issued_none, app_nil_r by (by apply asked_silent). }
  exists s4, (e :: evs), (q ++ q2). rewrite His. split_and!; [by apply lower_run| | |done|].
  - split; rewrite ?His; try done; [|cbn [s2 s1 s_log with_ac] in Hl; by rewrite <- app_assoc in Hl|by exists q2|].
    + destruct Hr3 as [H1 H2 H3 H4 H5 H6]. split; try done; cbn [s4 s_ac with_ac a_c set_c];
        by rewrite clear_flag_other.
    + constructor; [done|]. eapply Forall_impl; [exact Hev|]. by intros ? <-.
  - assert (frame s4 = (let '(h, d, w, fr, ev, c, x) := frame s3 in
      (h, d, w, fr, ev, clear_flag c REDIS_IN_CALLBACK, x))) as -> by done.
    rewrite Hfr. unfold frame. cbn [s2 s1 s_heap s_dicts s_sys s_freed s_ac with_ac a_c set_c a_ev
      a_invalid a_channels a_patterns a_onConnect a_onDisconnect].
    replace (clear_flag (set_obuf (add_flag (a_c (s_ac s)) REDIS_IN_CALLBACK) None) REDIS_IN_CALLBACK)
      with (set_obuf (a_c (s_ac s)) None); [done|].
    symmetry. by apply (add_clear (set_obuf (a_c (s_ac s)) None)).
  - change (replies (e :: evs)) with ((mk_cb (cb_fn cb) (cb_privdata cb), r, s_heap s) :: replies evs).
    rewrite replies_none by (by apply asked_silent). by destruct cb.
Qed.
End plan.
End client.
