(* ===== verification/AsyncDeliver.v ===== *)
(** * AsyncDeliver: the loop of redisProcessCallbacks and read events

    One round takes a value from the reader and runs the first callback that
    waits; the loop ends when the rest of the input is a part of a value. A
    read event feeds the reader, then runs the loop. *)
From S2P Require Import Prelude Mem Sds SdsFacts Reply Reader ReaderSpec ReaderStream ReaderView Streaming.
From S2P Require Import ReplyTree ReaderDefault Resp RoundTrip Session Format FormatFacts.
From S2P Require Import System Context ContextFacts Net Connect Dict Callbacks.
From S2P Require Import Async AsyncFacts AsyncCommand AsyncReplies.
From stdpp Require Import list list_numbers strings sets gmap.
From Stdlib Require Import ZArith Lia.
Open Scope Z_scope.

Section deliver.
Context {M : Malloc} {HM : HeapMalloc} {W : Type} {OS : Sys W}.
Abbreviation state := (state (W := W)).
Implicit Types (s : state) (a : areader (H := heap)).
Hypothesis malloc_total : forall n, malloc_ok n = true.
Hypothesis heap_total : forall n size, heap_ok n size = true.

(** ** Replies of the reader *)

(** The context does not block; its reader is pending on [u] and holds at most
    [L] bytes. *)
Record listening s (u : bytes) (F : gmap Z redisReply) (L : Z) : Prop := {
  li_callback : has_flag (a_c (s_ac s)) REDIS_IN_CALLBACK = false;
  li_block : has_flag (a_c (s_ac s)) REDIS_BLOCK = false;
  li_reader : exists a r, c_reader (a_c (s_ac s)) = Some r /\ areader_is a r /\ rr_len r <= L /\
    pending a (s_heap s) u F
}.

(** What the delivery of replies leaves. *)
Definition link s :=
  (s_sys s, c_flags (a_c (s_ac s)), c_err (a_c (s_ac s)), c_fd (a_c (s_ac s)), a_ev (s_ac s)).

Lemma frame_link s s' : frame s' = frame s -> link s' = link s.
Proof. intros H. apply frame_fields in H as (_ & H1 & H2 & _ & H3 & H4 & H5). unfold link. congruence. Qed.

Definition with_reply s r h : state :=
  mk_state (set_c (s_ac s) (set_reader (a_c (s_ac s)) (Some r))) h (s_cbs s) (s_dicts s) (s_sys s)
    (s_log s) (s_freed s).

Lemma ready_reply s q p r h : ready s q p -> ready (with_reply s r h) q p.
Proof. intros [H1 H2 H3 H4 H5 H6]. by split. Qed.

Lemma next_reply_run N s r a q a' h' : s_freed s = false ->
  has_flag (a_c (s_ac s)) REDIS_BLOCK = false -> c_reader (a_c (s_ac s)) = Some r ->
  areader_is a r -> abs_get a (s_heap s) = Ok (REDIS_OK, q, a', h') -> exists r' k u,
  next_reply N s = Ok ((REDIS_OK, q), with_reply s r' h') /\ a' = Live k u /\ areader_is a' r' /\
  rr_len r' <= rr_len r.
Proof.
  intros Hf Hb Hr Ha Hg.
  destruct (fromReader_ok (a_c (s_ac s)) (s_heap s) (s_sys s) r a q a' h' Hr Ha Hg)
    as (r' & k & u & Hfr & Hk & Ha' & Hl).
  exists r', k, u. split_and!; try done. unfold next_reply.
  erewrite abind; [|unfold get_c; erewrite abind; [done|by apply get_ac_live]].
  do 2 (erewrite abind; [|done]).
  erewrite abind.
  2: { unfold lift, redisGetReply. rewrite Hfr. cbn [mbind result_bind default id].
       change (REDIS_OK =? REDIS_ERR) with false. cbv iota.
       change (has_flag (set_reader (a_c (s_ac s)) (Some r')) REDIS_BLOCK)
         with (has_flag (a_c (s_ac s)) REDIS_BLOCK). rewrite Hb, andb_false_r.
       cbn [mbind result_bind]. change (REDIS_OK =? REDIS_ERR) with false. done. }
  cbv beta iota.
  erewrite abind; [|unfold put_c; erewrite abind; [by apply put_ac_run|by apply get_ac_live]].
  by do 2 (erewrite abind; [|done]).
Qed.

Lemma areader_fn k u r : base k -> areader_is (Live k u) r -> rr_fn r = Some defaultFunctions.
Proof.
  intros [_ _ Hf _] (Hl & k0 & b & c & Hk0 & Hi & Hst & _ & _ & _ & ->).
  change (rr_fn (conc b (zlen c) k0 u)) with (rr_fn k0). rewrite <- Hf.
  destruct (start_ready _ _ Hi Hst) as [He _]. unfold env in He. by simplify_eq.
Qed.

Lemma free_reply_run s r p h : s_freed s = false -> c_reader (a_c (s_ac s)) = Some r ->
  rr_fn r = Some defaultFunctions -> freeReplyObject p (s_heap s) = Ok h ->
  free_reply p s = Ok (tt,
    mk_state (s_ac s) h (s_cbs s) (s_dicts s) (s_sys s) (s_log s) (s_freed s)).
Proof.
  intros Hf Hr Hfn Hh. unfold free_reply.
  erewrite abind; [|unfold get_c; erewrite abind; [done|by apply get_ac_live]].
  erewrite abind; [|done]. erewrite abind; [|unfold lift; by rewrite Hr].
  erewrite abind; [|unfold lift; by rewrite Hfn]. erewrite abind; [|done].
  erewrite abind; [|unfold lift; by rewrite Hh]. done.
Qed.

Lemma shift_reply_run s n cb q p : ready s ((n, cb) :: q) p -> exists cbs l,
  shift_reply s = Ok (Some cb, upd set_replies s cbs l) /\ ready (upd set_replies s cbs l) q p.
Proof.
  intros [H1 H2 H3 H4 H5 H6]. destruct (shift_queue _ _ _ _ _ H4) as (l & cbs & Hs & Hq & Hn & Hd).
  exists cbs, l. split; [by eapply (shift_of_run a_replies set_replies)|].
  split; try done. destruct H5 as [G1 G2]. split; cbn [s_cbs upd]; [by rewrite Hn|]. intros x nd.
  rewrite Hn, Hd. intros [_ Hx]%lookup_delete_Some. by eapply G2.
Qed.

(** ** The loop *)
Section plan.
Context (script : list event -> list action) (plan : list event -> list request) (B : Z).
Hypothesis script_plan : forall l, Forall2 asks (script l) (plan l).
Hypothesis plan_bound : forall l, zlen (texts (plan l)) <= B.
Abbreviation user n := (run_user script (S n)).
Abbreviation served := (served plan).

Lemma served_refl s q p : ready s q p -> served s q p [] s q p.
Proof.
  intros Hr. split; [done|by rewrite app_nil_r|exists []; by rewrite app_nil_r|by rewrite app_nil_r|constructor].
Qed.

Lemma served_trans s1 q1 p1 e1 s2 q2 p2 e2 s3 q3 p3 n : served s1 q1 p1 e1 s2 q2 p2 ->
  (n <= length q1)%nat -> served s2 (drop n q2) p2 e2 s3 q3 p3 ->
  served s1 (drop n q1) p1 (e1 ++ e2) s3 q3 p3.
Proof.
  intros [A1 A2 (qa & -> & A3) -> A5] Hn [B1 B2 (qb & -> & B3) -> B5]. rewrite A2 in *.
  split; [done|by rewrite B2, app_assoc| | |by apply Forall_app].
  - exists (qa ++ qb). rewrite drop_app_le by done. rewrite issued_app, !fmap_app, A3, B3, app_assoc.
    done.
  - unfold texts. by rewrite issued_app, fmap_app, flat_map_app, app_assoc.
Qed.

(** One round, for the value [v]. *)
Lemma process_value N n fuel cb0 s m cb q p v u F L : ready s ((m, cb) :: q) p ->
  listening s (resp_encode v ++ u) F L -> sendable v -> (depth v <= 8)%nat ->
  zlen p + B < 2 ^ 62 ->
  exists s' evs q' p', process_replies (user n) (S fuel) N cb0 s = process_replies (user n) fuel N cb s' /\
    served s q p evs s' q' p' /\ listening s' u F L /\ link s' = link s /\ zlen p' <= zlen p + B /\
    Forall2 got (replies evs) (filter callable [(cb, v)]).
Proof.
  intros Hr [Hcb Hb (a & r & Hrd & Ha & Hrl & Hpen)] Hv Hd Hp.
  destruct (pending_value heap_total a _ v u F Hpen Hv Hd)
    as (t & k & h1 & Hg & Hnn & Ht & Hh & Hbase & Hnext).
  destruct (next_reply_run N s r a _ _ _ (rd_live _ _ _ Hr) Hb Hrd Ha Hg)
    as (r1 & k1 & u1 & Hnr & [= <- <-] & Ha1 & Hl1).
  cbn [process_replies]. rewrite (abind _ _ _ _ _ Hnr). cbv beta iota.
  change (REDIS_OK =? REDIS_OK) with true. cbn [negb]. bool_false (ptr t =? NULL).
  set (s1 := with_reply s r1 h1).
  destruct (shift_reply_run s1 m cb q p) as (cbs & l & Hs & Hr2); [by apply ready_reply|].
  rewrite (abind _ _ _ _ _ Hs). set (s2 := upd set_replies s1 cbs l) in *.
  erewrite abind; [|done]. erewrite abind; [|done]. cbv beta iota. erewrite abind; [|done].
  destruct (callback_served malloc_total script plan B script_plan plan_bound n cb (ptr t) s2 q p Hr2 Hcb Hp)
    as (s3 & evs & q' & Hrun & Hsv & Hfr & Hle & Hev).
  destruct (frame_fields _ _ Hfr) as (F1 & F2 & F3 & F4 & F5 & F6 & F7).
  rewrite <- (app_nil_r (cells_of t)) in Hh.
  destruct (freeReplyObject_tree t h1 [] F (tree_val_leaves _ _ Ht) Hh) as (h2 & Hfree & Hh2).
  rewrite app_nil_r in Hh.
  assert (Hfr3 : free_reply (ptr t) s3 = Ok (tt, mk_state (s_ac s3) h2 (s_cbs s3) (s_dicts s3) (s_sys s3)
    (s_log s3) (s_freed s3))).
  { apply (free_reply_run s3 r1).
    - apply (se_ready _ _ _ _ _ _ _ _ Hsv).
    - by rewrite F4.
    - by eapply areader_fn.
    - by rewrite F1. }
  set (s4 := mk_state (s_ac s3) h2 _ _ _ _ _) in Hfr3.
  assert (Hr4 : ready s4 q' (p ++ texts (issued plan (s_log s2) evs))).
  { destruct (se_ready _ _ _ _ _ _ _ _ Hsv). by split. }
  exists s4, evs, q', (p ++ texts (issued plan (s_log s2) evs)). split_and!.
  - destruct (negb (cb_fn cb =? NULL)) eqn:Efn.
    + rewrite (abind _ _ _ _ _ Hrun), (abind _ _ _ _ _ Hfr3).
      erewrite abind; [|by apply flagged_run, Hr4].
      pose proof (rd_open _ _ _ Hr4) as Hop. rewrite has_flag_or in Hop. apply orb_false_iff in Hop as [_ ->].
      done.
    + unfold __redisRunCallback in Hrun. rewrite Efn in Hrun. injection Hrun as <-.
      by rewrite (abind _ _ _ _ _ Hfr3).
  - destruct Hsv as [_ S2 S3 _ S5]. by split.
  - split.
    + unfold has_flag. change (a_c (s_ac s4)) with (a_c (s_ac s3)). by rewrite F3.
    + unfold has_flag. change (a_c (s_ac s4)) with (a_c (s_ac s3)). by rewrite F3.
    + exists (Live k u), r1. change (s_ac s4) with (s_ac s3). split_and!; [by rewrite F4|done|lia|by apply Hnext].
  - by rewrite (frame_link _ _ Hfr : link s4 = link s2).
  - rewrite length_app. lia.
  - rewrite Hev. rewrite filter_cons, filter_nil. unfold callable at 1. cbn [fst].
    destruct (cb_fn cb =? NULL) eqn:E; bool_to_prop.
    + rewrite decide_False by auto. constructor.
    + rewrite decide_True by done. apply Forall2_cons. split; [|constructor]. split; [done|]. cbn [fst snd].
      change (s_heap s2) with h1. apply tree_value; [done| |].
      * etrans; [apply height_cells|]. by eapply heap_rep_size.
      * intros x o Hx. by eapply heap_rep_elem.
Qed.

(** The last round: what is left is a part of a value. *)
Lemma process_idle N u fuel cb s q p x y vs F L : ready s q p -> listening s x F L ->
  short x vs -> Forall sendable vs -> Forall (fun v => depth v <= 8)%nat vs -> x ++ y = encodes vs ->
  exists s', process_replies u (S fuel) N cb s = Ok (tt, s') /\ ready s' q p /\
    listening s' x F L /\ link s' = link s /\ s_log s' = s_log s.
Proof.
  intros Hr [Hcb Hb (a & r & Hrd & Ha & Hrl & Hpen)] Hs Hv Hd Hy.
  destruct (pending_idle heap_total a _ x vs F y Hpen Hs Hv Hd Hy) as (a' & h' & Hg & Hpen').
  destruct (next_reply_run N s r a _ _ _ (rd_live _ _ _ Hr) Hb Hrd Ha Hg)
    as (r1 & k1 & u1 & Hnr & -> & Ha1 & Hl1).
  exists (with_reply s r1 h'). pose proof (ready_reply _ _ _ r1 h' Hr) as Hr1. split.
  - cbn [process_replies]. rewrite (abind _ _ _ _ _ Hnr). cbv beta iota.
    change (REDIS_OK =? REDIS_OK) with true. change (NULL =? NULL) with true. cbn [negb]. cbv iota.
    erewrite abind; [|apply get_ac_live, Hr1].
    destruct (rd_out _ _ _ Hr1) as (o & Ho & _). cbv zeta.
    erewrite abind; [|unfold lift; by rewrite Ho].
    pose proof (rd_open _ _ _ Hr1) as Hop. pose proof (rd_mode _ _ _ Hr1) as Hmo.
    rewrite has_flag_or in Hop, Hmo. apply orb_false_iff in Hop as [-> _].
    apply orb_false_iff in Hmo as [_ ->]. done.
  - split_and!; try done. split; try done. exists (Live k1 u1), r1. split_and!; try done. cbn. lia.
Qed.

Lemma zip_app_short {A C} (l1 l2 : list A) (k : list C) : (length k <= length l1)%nat ->
  zip (l1 ++ l2) k = zip l1 k.
Proof.
  revert k. induction l1 as [|x l1 IH]; intros [|c k] Hk; cbn [length] in Hk; try lia; cbn.
  - by destruct l2.
  - done.
  - by rewrite IH by lia.
Qed.

(** The loop delivers the values that are complete. *)
Lemma process_values N n vs2 tail y F L : short tail vs2 -> tail ++ y = encodes vs2 ->
  Forall sendable vs2 -> Forall (fun v => depth v <= 8)%nat vs2 ->
  forall vs1 fuel cb s q p, ready s q p -> listening s (encodes vs1 ++ tail) F L ->
  Forall sendable vs1 -> Forall (fun v => depth v <= 8)%nat vs1 -> (length vs1 <= length q)%nat ->
  (length vs1 < fuel)%nat -> zlen p + zlen vs1 * B < 2 ^ 62 ->
  exists s' evs q' p', process_replies (user n) fuel N cb s = Ok (tt, s') /\
    served s (drop (length vs1) q) p evs s' q' p' /\ listening s' tail F L /\ link s' = link s /\
    zlen p' <= zlen p + zlen vs1 * B /\ Forall2 got (replies evs) (filter callable (zip q.*2 vs1)).
Proof.
  intros Hs2 Hy Hv2 Hd2. pose proof (plan_bound []) as HB. induction vs1 as [|v vs1 IH];
    intros [|fuel] cb s q p Hr Hli Hv Hd Hq Hf Hp; cbn [length] in *; try lia.
  - destruct (process_idle N (user n) fuel cb s q p tail y vs2 F L) as (s' & Hrun & Hr' & Hli' & Hk & Hl);
      try done. exists s', [], q, p. rewrite drop_0. split_and!; try done.
    + destruct (served_refl _ _ _ Hr') as [A1 A2 A3 A4 A5]. split; try done. by rewrite app_nil_r, <- Hl.
    + lia.
    + rewrite zip_with_nil_r. constructor.
  - destruct q as [|[m c] q]; cbn [length] in *; [lia|].
    rewrite Nat2Z.inj_succ, Z.mul_succ_l in Hp. assert (0 <= zlen vs1 * B) by (apply Z.mul_nonneg_nonneg; lia).
    apply Forall_cons in Hv as [Hv Hvs].
    apply Forall_cons in Hd as [Hd Hds]. cbn [flat_map] in Hli. rewrite <- app_assoc in Hli.
    destruct (process_value N n fuel cb s m c q p v _ F L Hr Hli Hv Hd) as
      (s1 & e1 & q1 & p1 & Hrun & Hsv1 & Hli1 & Hk1 & Hp1 & Hg1); [lia|].
    destruct (se_queue _ _ _ _ _ _ _ _ Hsv1) as (q2 & -> & _).
    destruct (IH fuel c s1 (q ++ q2) p1) as (s2 & e2 & q3 & p3 & Hrun2 & Hsv2 & Hli2 & Hk2 & Hp2 & Hg2); try done.
    + apply Hsv1.
    + rewrite length_app. lia.
    + lia.
    + lia.
    + exists s2, (e1 ++ e2), q3, p3. rewrite Hrun. cbn [drop]. split_and!; try done.
      * eapply served_trans; [exact Hsv1|lia|exact Hsv2].
      * congruence.
      * rewrite Nat2Z.inj_succ, Z.mul_succ_l. lia.
      * unfold replies in *. rewrite omap_app. cbn [fmap list_fmap snd zip zip_with].
        rewrite fmap_app, zip_app_short in Hg2 by (rewrite length_fmap; lia).
        change ((c, v) :: ?l) with ([(c, v)] ++ l). rewrite filter_app. by apply Forall2_app.
Qed.

(** ** Read events *)

(** The context is connected and nothing is wrong. *)
Record connected s : Prop := {
  co_flag : has_flag (a_c (s_ac s)) REDIS_CONNECTED = true;
  co_err : c_err (a_c (s_ac s)) = 0
}.

Lemma bufferRead_run s u F L b w rest vs : listening s u F L -> connected s ->
  sys_read (c_fd (a_c (s_ac s))) (1024 * 16) (s_sys s) = (Some b, w) -> b <> [] ->
  L + zlen b < 2 ^ 31 - 1 -> short u vs -> u ++ b ++ rest = encodes vs -> exists r,
  redisBufferRead (a_c (s_ac s)) (s_heap s) (s_sys s) =
    Ok (REDIS_OK, set_reader (a_c (s_ac s)) (Some r), s_heap s, w) /\
  (exists a, areader_is a r /\ rr_len r <= L + zlen b /\ pending a (s_heap s) (u ++ b) F) /\
  zlen b <= rr_len r - rr_pos r.
Proof.
  intros [Hcb Hbl (a & r & Hrd & Ha & Hrl & Hpen)] [_ He] Hrb Hne HL Hs Hst.
  assert (1 <= zlen b) as Hb1 by (destruct b; [done|cbn [length]; lia]).
  destruct a as [k u'|k]; [|by destruct Hpen].
  destruct (feed_live k u' r (s_heap s) b [] malloc_total Ha Hb1) as (r1 & Hf & Ha1 & Hl1).
  { unfold room. lia. }
  rewrite app_nil_r in Hf. exists r1. split_and!.
  - unfold redisBufferRead. rewrite He, Hrb. cbn [Z.eqb negb]. destruct b as [|x b]; [done|].
    rewrite Hrd. cbn [deref mbind result_bind]. by rewrite Hf.
  - exists (Live k (u' ++ b)). split_and!; [done|lia|]. by apply (pending_feed (Live k u')).
  - destruct Ha1 as (_ & k0 & c & d & _ & _ & _ & _ & _ & _ & ->).
    unfold conc. cbn [set_input rr_len rr_pos]. rewrite length_app. lia.
Qed.

Lemma complete_count u b vs vs1 vs2 tail : short u vs -> vs = vs1 ++ vs2 ->
  u ++ b = encodes vs1 ++ tail -> (length vs1 <= length b)%nat.
Proof.
  intros Hs -> Hb. destruct vs1 as [|v vs1]; cbn [app short flat_map length] in *; [lia|].
  apply (f_equal length) in Hb. rewrite !length_app in Hb.
  assert (length vs1 <= length (encodes vs1))%nat; [|lia].
  clear. induction vs1 as [|v vs1 IH]; [done|]. cbn [flat_map length]. rewrite length_app.
  pose proof (resp_encode_pos v). lia.
Qed.

(** A read event delivers every value that it completes. *)
Lemma handleRead_serves N n s q p u F L b w rest vs : ready s q p -> listening s u F L ->
  connected s -> sys_read (c_fd (a_c (s_ac s))) (1024 * 16) (s_sys s) = (Some b, w) -> b <> [] ->
  L + zlen b < 2 ^ 31 - 1 -> short u vs -> u ++ b ++ rest = encodes vs ->
  Forall sendable vs -> Forall (fun v => depth v <= 8)%nat vs -> (length vs <= length q)%nat ->
  zlen p + zlen vs * B < 2 ^ 62 ->
  exists vs1 vs2 tail s' evs q' p', vs = vs1 ++ vs2 /\ short tail vs2 /\ tail ++ rest = encodes vs2 /\
    redisAsyncHandleRead (user n) N s = Ok (tt, s') /\
    served s (drop (length vs1) q) p evs s' q' p' /\ listening s' tail F (L + zlen b) /\
    connected s' /\ c_fd (a_c (s_ac s')) = c_fd (a_c (s_ac s)) /\ s_sys s' = w /\
    zlen p' <= zlen p + zlen vs1 * B /\ Forall2 got (replies evs) (filter callable (zip q.*2 vs1)) /\
    a_ev (s_ac s') = a_ev (s_ac s) /\ (has_addRead (a_ev (s_ac s)) = true -> EvAddRead ∈ evs).
Proof.
  intros Hr Hli Hco Hrb Hne HL Hs Hst Hv Hd Hq Hp.
  destruct (bufferRead_run s u F L b w rest vs Hli Hco Hrb Hne HL Hs Hst)
    as (r & Hbr & (a & Ha & Hrl & Hpen) & Hroom).
  rewrite app_assoc in Hst. destruct (split_stream vs _ _ Hst) as (vs1 & vs2 & tail & Hvs & Hub & Hs2 & Hy).
  pose proof (complete_count _ _ _ _ _ _ Hs Hvs Hub) as Hcount.
  rewrite Hvs, length_app in Hq, Hp. pose proof (plan_bound []) as HB.
  rewrite Nat2Z.inj_add, Z.mul_add_distr_r in Hp.
  assert (0 <= zlen vs2 * B) by (apply Z.mul_nonneg_nonneg; lia).
  rewrite Hvs in Hv, Hd. apply Forall_app in Hv as [Hv1 Hv2]. apply Forall_app in Hd as [Hd1 Hd2].
  set (s1 := mk_state (set_c (s_ac s) (set_reader (a_c (s_ac s)) (Some r))) (s_heap s) (s_cbs s)
    (s_dicts s) w (s_log s) (s_freed s)).
  set (evr := if has_addRead (a_ev (s_ac s)) then [EvAddRead] else []).
  set (s2 := mk_state (s_ac s1) (s_heap s) (s_cbs s) (s_dicts s) w (s_log s ++ evr) (s_freed s)).
  assert (Hr2 : ready s2 q p) by (destruct Hr; by split).
  rewrite Hub in Hpen.
  assert (Hli2 : listening s2 (encodes vs1 ++ tail) F (L + zlen b)).
  { destruct Hli. split; try done. by exists a, r. }
  destruct (process_values N n vs2 tail rest F _ Hs2 Hy Hv2 Hd2 vs1
    (S (Z.to_nat (rr_len r - rr_pos r))) (mk_cb NULL NULL) s2 q p Hr2 Hli2 Hv1 Hd1)
    as (s3 & evs & q' & p' & Hrun & Hsv & Hli3 & Hk & Hp3 & Hg); [lia..|].
  unfold link in Hk. injection Hk as K1 K2 K3 K4 K5.
  exists vs1, vs2, tail, s3, (evr ++ evs), q', p'. split_and!; try done.
  - unfold redisAsyncHandleRead, when_connected. assert (Hf : s_freed s = false) by apply Hr.
    erewrite abind; [|by apply flagged_run]. rewrite (co_flag _ Hco). cbv iota.
    erewrite abind; [|unfold get_c; erewrite abind; [done|by apply get_ac_live]].
    do 2 (erewrite abind; [|done]). erewrite abind; [|unfold lift; by rewrite Hbr]. cbv beta iota.
    erewrite abind; [|unfold put_c; erewrite abind; [by apply put_ac_run|by apply get_ac_live]].
    do 2 (erewrite abind; [|done]). change (REDIS_OK =? REDIS_ERR) with false. cbv iota.
    change (mk_state _ _ _ _ _ _ _) with s1. assert (Ha1 : _EL_ADD_READ s1 = Ok (tt, s2)).
    { unfold _EL_ADD_READ. erewrite abind; [|by apply get_ac_live]. unfold s2, evr.
      change (a_ev (s_ac s1)) with (a_ev (s_ac s)).
      destruct (has_addRead _); cbn [when]; [done|]. by rewrite app_nil_r. }
    rewrite (abind _ _ _ _ _ Ha1). unfold redisProcessCallbacks.
    erewrite abind; [|unfold get_c; erewrite abind; [done|by apply get_ac_live]].
    exact Hrun.
  - destruct Hsv as [A1 A2 A3 A4 A5]. cbn [s2 s_log] in A2, A3, A4.
    assert (issued plan (s_log s) (evr ++ evs) = issued plan (s_log s ++ evr) evs) as Hi.
    { rewrite issued_app. unfold evr. by destruct (has_addRead _). }
    split; rewrite ?Hi; try done; [by rewrite A2, <- app_assoc|].
    apply Forall_app. split; [|done]. unfold evr. destruct (has_addRead _); by repeat constructor.
  - destruct Hco as [C1 C2]. split; [|by rewrite K3]. unfold has_flag. by rewrite K2.
  - rewrite replies_app. unfold evr. by destruct (has_addRead _).
  - intros Hadd. unfold evr. rewrite Hadd. by left.
Qed.

(** ** Sequences of events *)
Lemma zip_split {A C} (l : list A) (k1 k2 : list C) : (length k1 <= length l)%nat ->
  zip l (k1 ++ k2) = zip l k1 ++ zip (drop (length k1) l) k2.
Proof.
  revert l. induction k1 as [|c k1 IH]; intros l Hl; cbn [length] in Hl; cbn [app length].
  - by rewrite zip_with_nil_r, drop_0.
  - destruct l as [|x l]; cbn [length] in Hl; [lia|]. cbn [zip_with drop app]. by rewrite IH by lia.
Qed.

(** The descriptor becomes readable [k] times. *)
Fixpoint read_events (u : event -> async (W := W) unit) (N k : nat) : async unit :=
  match k with
  | O => mret tt
  | S k => _ ← redisAsyncHandleRead u N; read_events u N k
  end.

Section socket.
Context (fd : Z) {Ch : Channel W fd} {SS : StreamSocket W fd}.

(** Reading a stream to its end. *)
Lemma read_events_serve N n F : forall m s q p u L rest vs, (length rest <= m)%nat ->
  ready s q p -> listening s u F L -> connected s -> c_fd (a_c (s_ac s)) = fd ->
  serve (sent (s_sys s)) = received (s_sys s) ++ rest -> u ++ rest = encodes vs -> short u vs ->
  L + zlen rest < 2 ^ 31 - 1 -> Forall sendable vs -> Forall (fun v => depth v <= 8)%nat vs ->
  (length vs <= length q)%nat -> zlen p + zlen vs * B < 2 ^ 62 ->
  exists k s' evs q' p', read_events (user n) N k s = Ok (tt, s') /\ (k <= m)%nat /\
    served s (drop (length vs) q) p evs s' q' p' /\ connected s' /\ c_fd (a_c (s_ac s')) = fd /\
    (exists L', listening s' [] F L') /\
    Forall2 got (replies evs) (filter callable (zip q.*2 vs)).
Proof.
  induction m as [|m IH]; intros s q p u L rest vs Hm Hr Hli Hco Hfd Hserve Hst Hs HL Hv Hd Hq Hp.
  - assert (rest = []) as -> by (destruct rest; cbn [length] in Hm; [done|lia]).
    rewrite app_nil_r in Hst. destruct vs as [|v vs].
    2: { cbn [short flat_map] in Hs, Hst. rewrite Hst, length_app in Hs. lia. }
    cbn in Hs. subst u. exists 0%nat, s, [], q, p. split_and!; try done.
    + cbn [length]. rewrite drop_0. by apply served_refl.
    + by exists L.
    + rewrite zip_with_nil_r. constructor.
  - destruct (decide (rest = [])) as [->|Hne].
    { destruct (IH s q p u L [] vs) as (k & H); try done; [cbn; lia|].
      destruct H as (s' & evs & q' & p' & H1 & H2 & H3). exists k, s', evs, q', p'.
      split; [done|]. split; [lia|done]. }
    destruct (read_law (1024 * 16) (s_sys s) rest ltac:(lia) Hne Hserve)
      as (b & w & Hrd & Hb & _ & [rest' ->] & Hrc & Hsn).
    rewrite length_app in Hm, HL. rewrite <- Hfd in Hrd.
    destruct (handleRead_serves N n s q p u F L b w rest' vs Hr Hli Hco Hrd Hb ltac:(lia) Hs Hst Hv Hd
      Hq Hp) as (vs1 & vs2 & tail & s1 & e1 & q1 & p1 & Hvs & Hs2 & Hy & Hrun & Hsv & Hli1 & Hco1 &
        Hfd1 & Hw1 & Hp1 & Hg1 & _).
    assert (1 <= length b)%nat by (destruct b; [done|cbn [length]; lia]).
    rewrite Hvs in Hv, Hd, Hq, Hp |- *. apply Forall_app in Hv as [_ Hv2]. apply Forall_app in Hd as [_ Hd2].
    rewrite length_app in Hq, Hp. rewrite Nat2Z.inj_add, Z.mul_add_distr_r in Hp.
    destruct (se_queue _ _ _ _ _ _ _ _ Hsv) as (q2 & Eq & _).
    destruct (IH s1 q1 p1 tail (L + zlen b) rest' vs2) as
      (k & s2 & e2 & q3 & p3 & Hrun2 & Hk & Hsv2 & Hco2 & Hfd2 & Hli2 & Hg2); try done; try lia.
    + apply Hsv.
    + by rewrite Hw1, Hsn, Hserve, Hrc, app_assoc.
    + rewrite Eq, length_app, length_drop. lia.
    + exists (S k), s2, (e1 ++ e2), q3, p3. split_and!; try done; [..|lia| |].
      * cbn [read_events]. by rewrite (abind _ _ _ _ _ Hrun).
      * rewrite length_app, <- drop_drop. eapply served_trans; [exact Hsv| |exact Hsv2].
        rewrite length_drop. lia.
      * rewrite replies_app, zip_split by (rewrite length_fmap; lia).
        rewrite filter_app. apply Forall2_app; [done|].
        rewrite Eq, fmap_app, zip_app_short in Hg2 by (rewrite length_fmap, length_drop; lia).
        by rewrite <- fmap_drop.
Qed.
End socket.
End plan.
End deliver.
