(* ===== verification/AsyncCorrect.v ===== *)
(** * AsyncCorrect: what an asynchronous context guarantees

    Every callback runs once: with its reply, in order, while the connection
    lasts, or without one when the context is freed or the connection ends. *)
From S2P Require Import Prelude Mem Sds SdsFacts SdsText SdsSplit Reply Reader ReaderSpec ReaderStream ReaderView.
From S2P Require Import Streaming ReplyTree ReaderDefault Resp RoundTrip Session Format FormatFacts.
From S2P Require Import ReaderCorrect System Context ContextFacts Peer ContextCorrect Net Connect.
From S2P Require Import Dict DictFacts DictRep DictCorrect Callbacks.
From S2P Require Import Async AsyncFacts AsyncCommand AsyncReplies AsyncDeliver.
From stdpp Require Import list list_numbers strings sets gmap.
From Stdlib Require Import ZArith Lia.
Open Scope Z_scope.

(** ** Clients *)
Section clients.
Context {M : Malloc} {HM : HeapMalloc} {W : Type} {OS : Sys W}.
Abbreviation state := (state (W := W)).
Implicit Types (s : state).

(** A program sends commands, each with its callback. *)
Fixpoint send_all (rqs : list (redisCallback * command_args)) : async (W := W) Z :=
  match rqs with
  | [] => mret REDIS_OK
  | (cb, (argv, argvlen)) :: rqs =>
      st ← redisAsyncCommandArgv (cb_fn cb) (cb_privdata cb) (zlen argv) argv argvlen;
      if st =? REDIS_OK then send_all rqs else mret st
  end.

(** The descriptor becomes writable [k] times. *)
Fixpoint write_events (u : event -> async (W := W) unit) (k : nat) : async unit :=
  match k with
  | O => mret tt
  | S k => _ ← redisAsyncHandleWrite u; write_events u k
  end.

Hypothesis malloc_total : forall n, malloc_ok n = true.

(** Nothing but the output changes, and no callback gets a reply. *)
Lemma requested_listening s s' u F L : requested s s' -> listening s u F L -> listening s' u F L.
Proof.
  intros [Hf _] [H1 H2 (a & r & H3 & H4)]. destruct (frame_fields _ _ Hf) as (F1 & _ & F3 & F4 & _).
  split; [unfold has_flag; by rewrite F3..|]. exists a, r. by rewrite F1, F4.
Qed.

Lemma requested_connected s s' : requested s s' -> connected s -> connected s' /\
  c_fd (a_c (s_ac s')) = c_fd (a_c (s_ac s)) /\ s_sys s' = s_sys s.
Proof.
  intros [Hf _] [H1 H2]. destruct (frame_fields _ _ Hf) as (_ & F2 & F3 & _ & F5 & F6 & _).
  split_and!; try done. split; [unfold has_flag; by rewrite F3|by rewrite F5].
Qed.

Lemma commandArgv_run s cb ds cmd q p : ready s q p -> call_is ds cmd -> ordinary ds = true ->
  zlen p + zlen (command ds) < 2 ^ 62 -> exists n s',
  redisAsyncCommandArgv (cb_fn cb) (cb_privdata cb) (zlen cmd.1) cmd.1 cmd.2 s = Ok (REDIS_OK, s') /\
  ready s' (q ++ [(n, cb)]) (p ++ command ds) /\ requested s s'.
Proof.
  intros Hr (Ha & Hn & Hlen) Hord Hp. unfold redisAsyncCommandArgv. rewrite Hn.
  pose proof (sds_argv_spec ds _ _ Ha Hlen) as Hf.
  destruct (redisFormatSdsCommandArgv true (zlen ds) cmd.1 cmd.2) as [[len [o|]]|e].
  2: { destruct Hf as (_ & n & Hx). by rewrite malloc_total in Hx. }
  2: { destruct Hf as (_ & n & Hx). by rewrite malloc_total in Hx. }
  destruct Hf as [-> Ho]. destruct (sds_is_buf _ _ Ho) as (r & Hb & _).
  erewrite abind; [|done]. cbv beta iota. bool_false (zlen (command ds) <? 0).
  erewrite abind; [|done]. rewrite Hb, u64_id by (unfold INT_MAX in Hlen; lia).
  destruct (command_ready malloc_total s (cb_fn cb) (cb_privdata cb) ds r q p Hr Hord Hlen Hp)
    as (n & s' & Hrun & Hr' & Hq & _).
  exists n, s'. by destruct cb.
Qed.

(** ** Writing *)
Section socket.
Context (fd : Z) {Ch : Channel W fd} {SS : StreamSocket W fd}.

(** The hooks are only logged. *)
Definition logged s (evs : list event) : state :=
  mk_state (s_ac s) (s_heap s) (s_cbs s) (s_dicts s) (s_sys s) (s_log s ++ evs) (s_freed s).

Lemma hook_run (b : event_hooks -> bool) e s : s_freed s = false ->
  (ac ← get_ac; when (b (a_ev ac)) (log e)) s =
    Ok (tt, logged s (if b (a_ev (s_ac s)) then [e] else [])).
Proof.
  intros Hf. erewrite abind; [|by apply get_ac_live]. destruct (b _); cbn [when]; [done|].
  unfold logged. rewrite app_nil_r. by destruct s.
Qed.

Lemma hook_silent (b : bool) e : silent e -> Forall silent (if b then [e] else []).
Proof. destruct b; by repeat constructor. Qed.

(** What writing leaves. *)
Record wrote s (p : bytes) s' (p' : bytes) : Prop := {
  wr_sent : exists x, p = x ++ p' /\ sent (s_sys s') = sent (s_sys s) ++ x;
  wr_received : received (s_sys s') = received (s_sys s);
  wr_log : exists evs, s_log s' = s_log s ++ evs /\ Forall silent evs
}.

Lemma wrote_trans s1 p1 s2 p2 s3 p3 : wrote s1 p1 s2 p2 -> wrote s2 p2 s3 p3 -> wrote s1 p1 s3 p3.
Proof.
  intros [(x & -> & A1) A2 (e1 & A3 & A4)] [(y & -> & B1) B2 (e2 & B3 & B4)]. split.
  - exists (x ++ y). by rewrite B1, A1, <- !app_assoc.
  - congruence.
  - exists (e1 ++ e2). rewrite B3, A3, <- app_assoc. split; [done|]. by apply Forall_app.
Qed.

(** The hooks that a write runs, when it leaves nothing to write or not. *)
Definition write_hooks (ev : event_hooks) (all : bool) : list event :=
  (if all then if has_delWrite ev then [EvDelWrite] else []
   else if has_addWrite ev then [EvAddWrite] else []) ++
  (if has_addRead ev then [EvAddRead] else []).

Lemma write_hooks_silent ev b : Forall silent (write_hooks ev b).
Proof. apply Forall_app. split; [destruct b|]; by apply hook_silent. Qed.

Lemma handleWrite_run u s q p x F L : ready s q p -> listening s x F L -> connected s ->
  c_fd (a_c (s_ac s)) = fd -> zlen p < 2 ^ 31 - 1 -> exists s' p',
  redisAsyncHandleWrite u s = Ok (tt, s') /\ ready s' q p' /\ listening s' x F L /\ connected s' /\
  c_fd (a_c (s_ac s')) = fd /\ wrote s p s' p' /\ (p = [] \/ length p' < length p)%nat /\
  s_log s' = s_log s ++ write_hooks (a_ev (s_ac s)) (bool_decide (p' = [])) /\
  a_ev (s_ac s') = a_ev (s_ac s).
Proof.
  intros Hr Hli Hco Hfd Hl. set (c := a_c (s_ac s)) in *.
  assert (exists d o w p', redisBufferWrite c (s_sys s) = Ok (REDIS_OK, Some d, set_obuf c (Some o), w) /\
    sds_is p' o /\ (exists x, p = x ++ p' /\ sent w = sent (s_sys s) ++ x) /\
    received w = received (s_sys s) /\ (p = [] \/ length p' < length p)%nat /\
    d = c_bool (bool_decide (p' = [])))
    as (d & o & w & p' & Hb & Ho & Hsent & Hrc & Hlt & ->).
  { destruct (bufferWrite_case malloc_total fd p c (s_sys s) Hfd (co_err _ Hco) (rd_out _ _ _ Hr) Hl)
      as [->|n w o Hne Hw Hn Hsent Ho|w Hne Hw _ _|w Hne Hw _ _].
    - destruct (rd_out _ _ _ Hr) as (o & Ho & Hs). fold c in Ho. exists 1, o, (s_sys s), [].
      split_and!; try done; [|exists []; by rewrite !app_nil_r|by left].
      do 3 f_equal. rewrite <- Ho. by destruct c.
    - destruct (write_law p _ n w Hne Hw) as [Hn1 Hrc]. eexists _, o, w, (drop (Z.to_nat n) p).
      split_and!; try done; [exists (take (Z.to_nat n) p); by rewrite take_drop|right; rewrite length_drop; lia|].
      f_equal. apply eq_true_iff_eq. rewrite Z.eqb_eq, bool_decide_eq_true, <- length_zero_iff_nil, length_drop.
      lia.
    - by destruct (write_law p _ (-1) w Hne Hw).
    - by destruct (write_law p _ (-1) w Hne Hw). }
  set (ac := set_c (s_ac s) (set_obuf c (Some o))).
  assert (redisAsyncHandleWrite u s = Ok (tt, mk_state ac (s_heap s) (s_cbs s) (s_dicts s) w
    (s_log s ++ write_hooks (a_ev (s_ac s)) (bool_decide (p' = []))) (s_freed s))) as Hrun.
  { assert (Hf : s_freed s = false) by apply Hr. unfold redisAsyncHandleWrite, when_connected.
    erewrite abind; [|by apply flagged_run]. rewrite (co_flag _ Hco). cbv iota.
    erewrite abind; [|unfold get_c; erewrite abind; [done|by apply get_ac_live]].
    erewrite abind; [|done]. erewrite abind; [|unfold lift; fold c; by rewrite Hb]. cbv beta iota.
    erewrite abind; [|unfold put_c; erewrite abind; [by apply put_ac_run|by apply get_ac_live]].
    erewrite abind; [|done]. change (REDIS_OK =? REDIS_ERR) with false. cbv iota.
    set (s1 := mk_state ac (s_heap s) (s_cbs s) (s_dicts s) w (s_log s) (s_freed s)).
    change (mk_state _ _ _ _ w (s_log (with_ac _ _)) _) with s1.
    erewrite abind.
    2: { instantiate (1 := logged s1 (if bool_decide (p' = []) then
           if has_delWrite (a_ev ac) then [EvDelWrite] else [] else
           if has_addWrite (a_ev ac) then [EvAddWrite] else [])). instantiate (1 := tt).
         destruct (bool_decide (p' = [])); by apply hook_run. }
    etrans; [by apply hook_run|]. unfold logged, write_hooks. cbn [s_ac s_log s_heap s_cbs s_dicts s_sys s_freed].
    by rewrite <- app_assoc. }
  eexists _, p'. split; [exact Hrun|]. split_and!; try done.
  - destruct Hr. split; try done. by exists o.
  - by destruct Hli.
  - by destruct Hco.
  - split; try done. eexists. split; [done|apply write_hooks_silent].
Qed.

Lemma write_events_run u F L x : forall m s q p, (length p <= m)%nat -> ready s q p ->
  listening s x F L -> connected s -> c_fd (a_c (s_ac s)) = fd -> zlen p < 2 ^ 31 - 1 ->
  exists k s', write_events u k s = Ok (tt, s') /\ (k <= m)%nat /\ ready s' q [] /\
    listening s' x F L /\ connected s' /\ c_fd (a_c (s_ac s')) = fd /\ wrote s p s' [].
Proof.
  induction m as [|m IH]; intros s q p Hm Hr Hli Hco Hfd Hl;
    (destruct (decide (p = [])) as [->|Hne];
     [exists 0%nat, s; split_and!; try done; try lia; split;
      [exists []; by rewrite !app_nil_r|done|exists []; by rewrite app_nil_r]|]).
  - destruct p; [done|cbn [length] in Hm; lia].
  - destruct (handleWrite_run u s q p x F L Hr Hli Hco Hfd Hl)
      as (s1 & p1 & Hrun & Hr1 & Hli1 & Hco1 & Hfd1 & Hw1 & [?|Hlt] & _ & _); [done|].
    destruct (IH s1 q p1) as (k & s2 & Hrun2 & Hk & Hr2 & Hli2 & Hco2 & Hfd2 & Hw2); try done; [lia..|].
    exists (S k), s2. split_and!; try done; [|lia|by eapply wrote_trans].
    cbn [write_events]. by rewrite (abind _ _ _ _ _ Hrun).
Qed.
End socket.

(** ** Ending *)

(** The part of [s] that [gone] is about. *)
Lemma gone_of (s1 s2 : state) q1 q2 cs1 cs2 F h' (P Q : Z -> Prop) s' :
  s_log s2 = s_log s1 -> s_cbs s2 = s_cbs s1 -> s_sys s2 = s_sys s1 ->
  a_onDisconnect (s_ac s2) = a_onDisconnect (s_ac s1) ->
  has_flag (a_c (s_ac s2)) REDIS_CONNECTED = has_flag (a_c (s_ac s1)) REDIS_CONNECTED ->
  c_fd (a_c (s_ac s2)) = c_fd (a_c (s_ac s1)) -> (forall st, P st -> Q st) ->
  gone s2 q1 q2 cs1 cs2 F h' P s' -> gone s1 q1 q2 cs1 cs2 F h' Q s'.
Proof.
  intros E1 E2 E3 E4 E5 E6 HPQ [G1 (fn & st & G2 & G3 & G4) G5 G6 G7 G8].
  rewrite E1, E5 in G2. rewrite E4 in G3. rewrite E3, E6 in G8.
  split; try done; [exists fn, st; auto|]. intros p. by rewrite G5, E2.
Qed.

Lemma disconnect_run script n s q1 q2 cs1 cs2 F r h' : s_freed s = false ->
  c_err (a_c (s_ac s)) <> 0 -> has_flag (a_c (s_ac s)) REDIS_IN_CALLBACK = false ->
  owns s q1 q2 cs1 cs2 F -> c_reader (a_c (s_ac s)) = Some r ->
  redisReaderFree r (s_heap s) = Ok h' ->
  (forall l fn st, Forall harmless (script (l ++ [EvDisconnect fn st]))) -> exists s',
  __redisAsyncDisconnect (run_user script (S (S n))) s = Ok (tt, s') /\
  gone s q1 q2 cs1 cs2 F h' (fun _ => True) s'.
Proof.
  intros Hf He Hcb Ho Hr Hfree Hsc. unfold __redisAsyncDisconnect.
  erewrite abind; [|unfold __redisAsyncCopyError; erewrite abind; [by apply put_ac_run|by apply get_ac_live]].
  erewrite abind; [|by apply get_ac_live]. cbn [s_ac with_ac]. unfold copy_error at 1. cbn [a_err set_a_err].
  bool_false (c_err (a_c (s_ac s)) =? 0). erewrite abind; [|by apply raise_run].
  set (s1 := with_ac _ _).
  destruct (asyncFree_run script malloc_total n s1 q1 q2 cs1 cs2 F r h') as (s' & Hrun & Hg); try done.
  - by apply add_flag_sub.
  - change (has_flag (add_flag (a_c (s_ac s)) REDIS_DISCONNECTING) REDIS_IN_CALLBACK = false).
    by rewrite add_flag_other.
  - by destruct Ho.
  - exists s'. split; [done|]. eapply gone_of; [..|exact Hg]; try done.
    change (has_flag (add_flag (a_c (s_ac s)) REDIS_DISCONNECTING) REDIS_CONNECTED =
      has_flag (a_c (s_ac s)) REDIS_CONNECTED). by rewrite add_flag_other.
Qed.

(** The program calls for the requests [rqs]. *)
Definition calls_are (rqs : list request) (cs : list (redisCallback * command_args)) : Prop :=
  Forall2 (fun rq c => rq.1 = c.1 /\ call_is rq.2 c.2 /\ ordinary rq.2 = true) rqs cs.

Lemma send_all_run rqs cs : calls_are rqs cs -> forall s q p, ready s q p ->
  zlen p + zlen (texts rqs) < 2 ^ 62 -> exists q2 s',
  send_all cs s = Ok (REDIS_OK, s') /\ ready s' (q ++ q2) (p ++ texts rqs) /\ requested s s' /\
  q2.*2 = rqs.*1.
Proof.
  induction 1 as [|[cb ds] [cb' [argv argvlen]] rqs cs (Hcb & Hcall & Hord) _ IH]; intros s q p Hr Hp.
  - exists [], s. unfold texts. cbn. rewrite !app_nil_r. split_and!; try done. apply requested_refl.
  - cbn [fst snd] in Hcb, Hcall, Hord. subst cb'. unfold texts in *. cbn [fmap list_fmap flat_map snd] in *.
    rewrite length_app in Hp.
    destruct (commandArgv_run s cb ds (argv, argvlen) q p Hr Hcall Hord ltac:(lia))
      as (n & s1 & Hrun & Hr1 & Hq1).
    destruct (IH s1 _ _ Hr1) as (q2 & s2 & Hrun2 & Hr2 & Hq2 & Hs2); [rewrite length_app; lia|].
    exists ((n, cb) :: q2), s2. split_and!.
    + cbn [send_all]. cbn [fst snd] in Hrun. rewrite (abind _ _ _ _ _ Hrun). exact Hrun2.
    + by rewrite <- !app_assoc in Hr2.
    + by eapply requested_trans.
    + cbn. by rewrite Hs2.
Qed.
End clients.

(** ** Properties *)

(** C4: a program that sends commands on a connected context, each with a
    callback, and then lets the event loop run gets its commands to the peer,
    in order, and each callback gets the value the peer answers to its
    command, in order, once, whatever parts writes take and reads give. The
    callbacks may send commands themselves: these are queued behind, their
    callbacks and their bytes in the same order. Every reply is released. *)
Theorem async_pipeline {M : Malloc} {HM : HeapMalloc} {W : Type} {OS : Sys W} (fd : Z)
    {Ch : Channel W fd} {SS : StreamSocket W fd} script plan B N n (s : state (W := W)) F L rqs cs vs :
  (forall n, malloc_ok n = true) -> (forall n size, heap_ok n size = true) ->
  (forall l, Forall2 asks (script l) (plan l)) -> (forall l, zlen (texts (plan l)) <= B) ->
  ready s [] [] -> listening s [] F L -> connected s -> c_fd (a_c (s_ac s)) = fd ->
  calls_are rqs cs -> Forall sendable vs -> Forall (fun v => depth v <= 8)%nat vs ->
  length vs = length rqs -> zlen (texts rqs) < 2 ^ 31 - 1 -> zlen vs * B < 2 ^ 61 ->
  L + zlen (flat_map resp_encode vs) < 2 ^ 31 - 1 ->
  serve (sent (s_sys s) ++ texts rqs) = received (s_sys s) ++ flat_map resp_encode vs ->
  exists s1 k1 s2 k2 s3 evs q p,
    send_all cs s = Ok (REDIS_OK, s1) /\
    write_events (run_user script (S n)) k1 s1 = Ok (tt, s2) /\
    sent (s_sys s2) = sent (s_sys s) ++ texts rqs /\
    read_events (run_user script (S n)) N k2 s2 = Ok (tt, s3) /\
    Forall2 got (replies evs) (filter callable (zip rqs.*1 vs)) /\
    served plan s2 [] [] evs s3 q p /\ heap_rep (s_heap s3) [] F.
Proof.
  intros HMt HHt Hsc Hpl Hr Hli Hco Hfd Hcs Hv Hd Hlen Hl1 Hl2 HL Hserve.
  destruct (send_all_run HMt rqs cs Hcs s [] [] Hr) as (q2 & s1 & H1 & Hr1 & Hq1 & Hq2); [cbn; lia|].
  destruct (requested_connected s s1 Hq1 Hco) as (Hco1 & Hfd1 & Hs1).
  pose proof (requested_listening s s1 [] F L Hq1 Hli) as Hli1. cbn [app] in Hr1. rewrite Hfd in Hfd1.
  destruct (write_events_run HMt fd (run_user script (S n)) F L [] (length (texts rqs)) s1 q2 (texts rqs)
    ltac:(done) Hr1 Hli1 Hco1 Hfd1 Hl1)
    as (k1 & s2 & H2 & _ & Hr2 & Hli2 & Hco2 & Hfd2 & [(x & Hx & Hsn) Hrc _]).
  rewrite app_nil_r in Hx. subst x. rewrite Hs1 in Hsn, Hrc.
  assert (length q2 = length vs) as Hlq.
  { rewrite Hlen, <- (length_fmap snd q2), Hq2. by rewrite length_fmap. }
  destruct (read_events_serve HMt HHt script plan B Hsc Hpl fd N n F _ s2 q2 [] [] L (flat_map resp_encode vs) vs
    (Nat.le_refl _) Hr2 Hli2 Hco2 Hfd2) as
    (k2 & s3 & evs & q' & p' & H3 & _ & Hsv & _ & _ & (L' & Hli3) & Hg).
  - by rewrite Hsn, Hrc.
  - done.
  - destruct vs; [done|]. cbn. apply resp_encode_pos.
  - done.
  - done.
  - done.
  - lia.
  - cbn. lia.
  - exists s1, k1, s2, k2, s3, evs, q', p'. rewrite <- Hq2.
    rewrite drop_ge in Hsv by lia. split_and!; try done.
    destruct (li_reader _ _ _ _ Hli3) as (a & r & _ & _ & _ & Hp). by apply (pen_heap _ _ _ _ Hp).
Qed.

(** C5: [redisAsyncFree], called outside a callback, ends: every callback that
    the context holds - for replies, for replies to commands sent while
    subscribed, for channels, for patterns - runs once, in this order, without
    a reply, then the callback for the disconnection if the context had
    connected, with [REDIS_OK]; the context, its queues and its tables are
    gone, the store is as its reader leaves it, and the descriptor is closed.
    This holds whatever the callbacks for replies do: send commands, disconnect
    or free the context themselves. *)
Theorem async_free {M : Malloc} {HM : HeapMalloc} {W : Type} {OS : Sys W} script n
    (s : state (W := W)) q1 q2 cs1 cs2 F r h' :
  (forall n, malloc_ok n = true) -> s_freed s = false ->
  has_flag (a_c (s_ac s)) REDIS_IN_CALLBACK = false -> owns s q1 q2 cs1 cs2 F ->
  c_reader (a_c (s_ac s)) = Some r -> redisReaderFree r (s_heap s) = Ok h' ->
  (forall l fn st, Forall harmless (script (l ++ [EvDisconnect fn st]))) -> exists s',
  redisAsyncFree (run_user script (S (S n))) s = Ok (tt, s') /\
  gone s q1 q2 cs1 cs2 F h' (fun st => st = REDIS_OK) s'.
Proof.
  intros HMt Hf Hcb Ho Hr Hfree Hsc. unfold redisAsyncFree.
  erewrite abind; [|by apply raise_run]. set (s1 := with_ac _ _).
  assert (H1 : forall g, Z.land REDIS_FREEING g = 0 ->
    has_flag (a_c (s_ac s1)) g = has_flag (a_c (s_ac s)) g) by (intros; by apply add_flag_other).
  erewrite abind; [|by apply flagged_run]. rewrite H1, Hcb by done. cbn [negb].
  destruct (asyncFree_run script HMt n s1 q1 q2 cs1 cs2 F r h') as (s' & Hrun & Hg); try done.
  - by apply add_flag_sub.
  - by rewrite H1.
  - by destruct Ho.
  - exists s'. split; [done|]. eapply gone_of; [..|exact Hg]; try done; [by apply H1|].
    intros st Hst. by apply Hst, add_flag_sub.
Qed.

(** C6: when the server closes the connection, the next read event ends the
    context: every callback that it holds runs once, in order, without a
    reply, then the callback for the disconnection, and everything is
    released. *)
Theorem async_eof {M : Malloc} {HM : HeapMalloc} {W : Type} {OS : Sys W} script N n
    (s : state (W := W)) w q1 q2 cs1 cs2 F r h' :
  (forall n, malloc_ok n = true) -> s_freed s = false -> connected s ->
  has_flag (a_c (s_ac s)) REDIS_IN_CALLBACK = false -> owns s q1 q2 cs1 cs2 F ->
  c_reader (a_c (s_ac s)) = Some r -> redisReaderFree r (s_heap s) = Ok h' ->
  sys_read (c_fd (a_c (s_ac s))) (1024 * 16) (s_sys s) = (Some [], w) ->
  (forall l fn st, Forall harmless (script (l ++ [EvDisconnect fn st]))) -> exists s',
  redisAsyncHandleRead (run_user script (S (S n))) N s = Ok (tt, s') /\
  gone (mk_state (s_ac s) (s_heap s) (s_cbs s) (s_dicts s) w (s_log s) (s_freed s))
    q1 q2 cs1 cs2 F h' (fun _ => True) s'.
Proof.
  intros HMt Hf [Hcn He] Hcb Ho Hr Hfree Hrd Hsc. unfold redisAsyncHandleRead, when_connected.
  erewrite abind; [|by apply flagged_run]. rewrite Hcn.
  erewrite abind; [|unfold get_c; erewrite abind; [done|by apply get_ac_live]].
  do 2 (erewrite abind; [|done]).
  erewrite abind; [|unfold lift, redisBufferRead; rewrite He, Hrd; done]. cbv beta iota.
  erewrite abind; [|unfold put_c; erewrite abind; [by apply put_ac_run|by apply get_ac_live]].
  do 2 (erewrite abind; [|done]). change (REDIS_ERR =? REDIS_ERR) with true. cbv iota.
  set (s1 := mk_state _ _ _ _ _ _ _).
  destruct (disconnect_run HMt script n s1 q1 q2 cs1 cs2 F r h') as (s' & Hrun & Hg); try done.
  - by destruct Ho.
  - exists s'. split; [exact Hrun|]. by eapply gone_of; [..|exact Hg].
Qed.

(** ** Instances *)

(** A context on a connected descriptor, as [redisAsyncConnect] makes it and
    once the connection is known to be made; [fn] is the callback for the
    disconnection. *)
Section instance.
Context {M : Malloc} {HM : HeapMalloc} {W : Type} {OS : Sys W}.

Definition attached (fd : Z) (o : sds) (r : redisReader heap) (ev : event_hooks) (fn : Z) (h : heap)
    (w : W) : state (W := W) :=
  mk_state
    (mk_async (mk_context 0 [] fd REDIS_CONNECTED (Some o) (Some r) REDIS_CONN_TCP None
                (mk_tcp None None 0) None)
       0 false ev 0 fn empty_cblist empty_cblist _dictReset _dictReset)
    h (mk_store ∅ 1) (mk_world ∅ 1 tt) w [] false.

Lemma attached_start fd ev fn h w F : (forall n, malloc_ok n = true) -> heap_rep h [] F ->
  exists o r, redisReaderCreate = Ok (Some r) /\ ready (attached fd o r ev fn h w) [] [] /\
    listening (attached fd o r ev fn h w) [] F 0 /\ connected (attached fd o r ev fn h w).
Proof.
  intros HMt Hh. destruct (connectFd_new HMt fd h w) as (o & r & _ & Ho & Hr & Ha & Hl).
  exists o, r. split_and!; try done.
  - assert (Hq : queue (mk_store ∅ 1) empty_cblist []) by (split; [done|done|constructor]).
    assert (Hs : cbs_ok (mk_store ∅ 1)).
    { split; [done|]. intros p nd. cbn. by rewrite lookup_empty. }
    split; try done. by exists o.
  - split; try done. eexists _, r. split_and!; try done; [lia|].
    apply pending_core; [apply new_core_live|by apply default_parsing].
Qed.

Lemma fresh_dict_rep F : F = ∅ ->
  dict_rep callbackDict (mk_world F 1 tt) _dictReset [] F.
Proof.
  intros ->. split; cbn; [done|done|done|constructor|done|by intros p ?%elem_of_nil|constructor|done|].
  split; [done|]. intros p e He. discriminate He.
Qed.

(** It holds the callbacks of the requests that were sent. *)
Lemma attached_owns fd o r ev fn h w s q p : ready s q p ->
  requested (attached fd o r ev fn h w) s ->
  s_freed s = false /\ connected s /\ has_flag (a_c (s_ac s)) REDIS_IN_CALLBACK = false /\
  owns s q [] [] [] ∅ /\ c_reader (a_c (s_ac s)) = Some r /\ s_heap s = h /\ s_sys s = w /\
  c_fd (a_c (s_ac s)) = fd /\ a_onDisconnect (s_ac s) = fn /\
  has_flag (a_c (s_ac s)) REDIS_CONNECTED = true.
Proof.
  intros Hr [Hf _]. destruct (frame_fields _ _ Hf) as (F1 & F2 & F3 & F4 & F5 & F6 & F7).
  destruct (frame_owned _ _ Hf) as (E1 & E2 & E3 & E4 & E5).
  cbn in F1, F2, F3, F4, F5, F6, E1, E2, E3, E4, E5.
  split_and!; try done; try (unfold has_flag; by rewrite F3); [by apply Hr|..].
  - split; [unfold has_flag; by rewrite F3|by rewrite F5].
  - split; [apply Hr| | | |by split_and!].
    + rewrite E2. split; [done|done|constructor].
    + intros x Hx. by apply elem_of_nil in Hx.
    + exists ∅. rewrite E1, E3, E4. split; by apply fresh_dict_rep.
Qed.
End instance.

(** The callback 7 sends another [PING], for the callback 9. *)
Definition again (l : list event) : list action :=
  match last l with
  | Some (EvReply fn _ _ _) =>
      if fn =? 7 then [ActCommand 9 0 (command ping ++ [0]) (zlen (command ping))] else []
  | _ => []
  end.

Definition again_plan (l : list event) : list request :=
  match last l with
  | Some (EvReply fn _ _ _) => if fn =? 7 then [(mk_cb 9 0, ping)] else []
  | _ => []
  end.

Lemma again_asks l : Forall2 asks (again l) (again_plan l) /\ zlen (texts (again_plan l)) <= 14.
Proof.
  unfold again, again_plan. destruct (last l) as [[fn pd r h| | | | | | |]|]; try by split.
  destruct (fn =? 7); [|by split]. split; [|by vm_compute].
  apply Forall2_cons_2; [|constructor]. by exists [].
Qed.

Definition no_hooks : event_hooks := mk_hooks false false false false false.

Lemma async_pipeline_witness : exists o r s1 k1 s2 k2 s3 evs q p,
  let M := malloc_yes in
  let HM := heap_all in
  let OS := peer_sys ping_server in
  let s := attached 3 o r (mk_hooks true true true true true) 0 empty_heap new_peer in
  send_all [(mk_cb 7 1, ([cstr "PING"], None)); (mk_cb 8 2, ([cstr "PING"], None))] s =
    Ok (REDIS_OK, s1) /\
  write_events (run_user again 1) k1 s1 = Ok (tt, s2) /\
  read_events (run_user again 1) 50 k2 s2 = Ok (tt, s3) /\
  p_sent (s_sys s2) = command ping ++ command ping /\
  Forall2 got (replies evs) [(mk_cb 7 1, RStatus (lit "PONG")); (mk_cb 8 2, RStatus (lit "PONG"))] /\
  served again_plan s2 [] [] evs s3 q p /\ heap_rep (s_heap s3) [] ∅.
Proof.
  destruct (attached_start (M := malloc_yes) (HM := heap_all) (OS := peer_sys ping_server) 3
    (mk_hooks true true true true true) 0 empty_heap new_peer ∅ ltac:(done) empty_heap_rep)
    as (o & r & _ & Hr & Hli & Hco).
  destruct (async_pipeline (M := malloc_yes) (HM := heap_all) (OS := peer_sys ping_server)
    (Ch := peer_channel ping_server) (SS := peer_socket ping_server) 3 again again_plan 14 50 0
    (attached 3 o r (mk_hooks true true true true true) 0 empty_heap new_peer) ∅ 0
    [(mk_cb 7 1, ping); (mk_cb 8 2, ping)]
    [(mk_cb 7 1, ([cstr "PING"], None)); (mk_cb 8 2, ([cstr "PING"], None))]
    [RStatus (lit "PONG"); RStatus (lit "PONG")] ltac:(done) ltac:(done)
    (fun l => proj1 (again_asks l)) (fun l => proj2 (again_asks l)) Hr Hli Hco eq_refl)
    as (s1 & k1 & s2 & k2 & s3 & evs & q & p & H1 & H2 & H3 & H4 & H5 & H6 & H7).
  - apply Forall2_cons_2; [|apply Forall2_cons_2; [|constructor]];
      (split; [done|]; split; [apply ping_call|by vm_compute]).
  - apply Forall_cons_2; [|apply Forall_cons_2; [|constructor]]; apply pong_sendable.
  - repeat constructor; cbn; lia.
  - done.
  - by vm_compute.
  - by vm_compute.
  - by vm_compute.
  - by vm_compute.
  - exists o, r, s1, k1, s2, k2, s3, evs, q, p. cbv zeta.
    split; [exact H1|]. split; [exact H2|]. split; [exact H4|]. split; [exact H3|].
    split; [exact H5|]. split; [exact H6|exact H7].
Defined.

(** Callbacks that free the context and disconnect it. *)
Definition rash (l : list event) : list action :=
  match last l with
  | Some (EvReply _ _ _ _) => [ActFree; ActDisconnect; ActFree]
  | _ => []
  end.

Lemma rash_harmless l fn st : Forall harmless (rash (l ++ [EvDisconnect fn st])).
Proof. unfold rash. rewrite last_snoc. constructor. Qed.

Lemma new_reader_free {M : Malloc} {HM : HeapMalloc} r h :
  redisReaderCreate = Ok (Some r) -> redisReaderFree r h = Ok h.
Proof.
  unfold redisReaderCreate, redisReaderCreateWithFunctions. destruct (malloc_ok 560); [|done]. intros H.
  cbn [negb] in H. destruct sdsempty as [[b|]|]; cbn in H; [|done..]. by injection H as <-.
Qed.

(** A context that waits for two replies. *)
Lemma two_waiting : exists o r s q,
  let M := malloc_yes in
  let HM := heap_all in
  let OS := peer_sys ping_server in
  send_all [(mk_cb 7 1, ([cstr "PING"], None)); (mk_cb 8 2, ([cstr "PING"], None))]
    (attached 3 o r no_hooks 5 empty_heap new_peer) = Ok (REDIS_OK, s) /\
  redisReaderCreate = Ok (Some r) /\ ready s q (command ping ++ command ping) /\
  requested (attached 3 o r no_hooks 5 empty_heap new_peer) s /\ q.*2 = [mk_cb 7 1; mk_cb 8 2].
Proof.
  destruct (attached_start (M := malloc_yes) (HM := heap_all) (OS := peer_sys ping_server) 3
    no_hooks 5 empty_heap new_peer ∅ ltac:(done) empty_heap_rep) as (o & r & Hc & Hr & _).
  destruct (send_all_run (M := malloc_yes) (OS := peer_sys ping_server) ltac:(done)
    [(mk_cb 7 1, ping); (mk_cb 8 2, ping)]
    [(mk_cb 7 1, ([cstr "PING"], None)); (mk_cb 8 2, ([cstr "PING"], None))]
    ltac:(apply Forall2_cons_2; [|apply Forall2_cons_2; [|constructor]];
      (split; [done|]; split; [apply ping_call|by vm_compute])) _ _ _ Hr ltac:(by vm_compute))
    as (q & s & Hs & Hrs & Hq & Hcb).
  exists o, r, s, q. cbv zeta. exact (conj Hs (conj Hc (conj Hrs (conj Hq Hcb)))).
Qed.

Lemma async_free_witness : exists o r s s',
  let M := malloc_yes in
  let HM := heap_all in
  let OS := peer_sys ping_server in
  send_all [(mk_cb 7 1, ([cstr "PING"], None)); (mk_cb 8 2, ([cstr "PING"], None))]
    (attached 3 o r no_hooks 5 empty_heap new_peer) = Ok (REDIS_OK, s) /\
  redisAsyncFree (run_user rash 2) s = Ok (tt, s') /\ s_freed s' = true /\
  called_of (s_log s') = called_of (s_log s) ++
    [Replied 7 1 NULL; Replied 8 2 NULL; Disconnected 5 REDIS_OK].
Proof.
  destruct two_waiting as (o & r & s & q & Hs & Hc & Hrs & Hq & Hcb).
  destruct (attached_owns _ _ _ _ _ _ _ _ _ _ Hrs Hq) as (H1 & H2 & H3 & H4 & H5 & H6 & H7 & H8 & H9 & H10).
  destruct (async_free (M := malloc_yes) (HM := heap_all) (OS := peer_sys ping_server) rash 0 s q [] [] [] ∅ r
    empty_heap ltac:(done) H1 H3 H4 H5) as (s' & Hrun & Hg).
  - rewrite H6. by apply (new_reader_free (M := malloc_yes) (HM := heap_all)).
  - apply rash_harmless.
  - exists o, r, s, s'. cbv zeta. split; [exact Hs|]. split; [exact Hrun|].
    destruct Hg as [G1 (fn & st & G2 & G3 & ->) _ _ _ _]. split; [exact G1|].
    rewrite G2, G3, H9, H10 by (by rewrite H9). unfold held. cbn [app]. by rewrite Hcb.
Defined.

(** The peer sends nothing more. *)
Lemma async_eof_witness : exists o r s s' st,
  let M := malloc_yes in
  let HM := heap_all in
  let OS := peer_sys ping_server in
  send_all [(mk_cb 7 1, ([cstr "PING"], None)); (mk_cb 8 2, ([cstr "PING"], None))]
    (attached 3 o r no_hooks 5 empty_heap new_peer) = Ok (REDIS_OK, s) /\
  redisAsyncHandleRead (run_user rash 2) 0 s = Ok (tt, s') /\ s_freed s' = true /\
  called_of (s_log s') = called_of (s_log s) ++
    [Replied 7 1 NULL; Replied 8 2 NULL; Disconnected 5 st].
Proof.
  destruct two_waiting as (o & r & s & q & Hs & Hc & Hrs & Hq & Hcb).
  destruct (attached_owns _ _ _ _ _ _ _ _ _ _ Hrs Hq) as (H1 & H2 & H3 & H4 & H5 & H6 & H7 & H8 & H9 & H10).
  destruct (async_eof (M := malloc_yes) (HM := heap_all) (OS := peer_sys ping_server) rash 0 0 s new_peer q
    [] [] [] ∅ r empty_heap ltac:(done) H1 H2 H3 H4 H5) as (s' & Hrun & Hg).
  - rewrite H6. by apply (new_reader_free (M := malloc_yes) (HM := heap_all)).
  - rewrite H7. reflexivity.
  - apply rash_harmless.
  - destruct Hg as [G1 (fn & st & G2 & G3 & _) _ _ _ _].
    exists o, r, s, s', st. cbv zeta. split; [exact Hs|]. split; [exact Hrun|]. split; [exact G1|].
    cbn [s_log s_ac] in G2, G3. rewrite G2, G3, H9, H10 by (by rewrite H9).
    unfold held. cbn [app]. by rewrite Hcb.
Defined.

(** * What an asynchronous context does not guarantee *)
(** A new context with the given flags, callback for the connection and input. *)
Definition fresh_async (flags fn : Z) (input : bytes) : result (state (W := peer)) :=
  let M := malloc_yes in
  let HM := heap_all in
  o ← sdsempty; o ← deref o;
  r ← redisReaderCreate; r ← deref r;
  '(_, r, h) ← redisReaderFeed r empty_heap (Some input) (zlen input);
  Ok (mk_state
    (mk_async (mk_context 0 [] 3 flags (Some o) (Some r) REDIS_CONN_TCP None (mk_tcp None None 0) None)
       0 false no_hooks fn 0 empty_cblist empty_cblist _dictReset _dictReset)
    h (mk_store ∅ 1) (mk_world ∅ 1 tt) new_peer [] false).

Definition outcome {A} (s : result (state (W := peer))) (m : async (W := peer) A) : result (list called) :=
  s ← s; '(_, s) ← m s; Ok (called_of (s_log s)).

(** A callback for the connection that frees the context: the caller reads its
    flags afterwards. *)
Example connect_callback_frees :
  let M := malloc_yes in let HM := heap_all in let OS := peer_sys ping_server in
  outcome (fresh_async 0 5 [])
    (redisAsyncHandleWrite (run_user (fun l => match last l with
                                               | Some (EvConnect _ _) => [ActFree]
                                               | _ => []
                                               end) 2)) = Fault OutOfBounds.
Proof. vm_compute. reflexivity. Qed.

(** MONITOR: a read that does not complete a reply queues a callback that is
    [NULL], and the line "a" is lost. *)
Definition monitor_peer (_ : bytes) : bytes :=
  lit "+OK" ++ crlf ++ lit "+a" ++ crlf ++ lit "+b" ++ crlf.

Example monitor_loses_a_line :
  let M := malloc_yes in let HM := heap_all in let OS := peer_sys monitor_peer in
  let cmd := command [lit "MONITOR"] in
  (s ← fresh_async REDIS_CONNECTED 0 [];
   '(_, s) ← __redisAsyncCommand 7 0 (cmd ++ [0]) (zlen cmd) s;
   '(_, s) ← read_events (run_user (fun _ => []) 1) 0 5 s;
   Ok (omap (fun x => match reply_value 9 x.2 x.1.2 with Some (RStatus t) => Some t | _ => None end)
         (replies (s_log s)))) = Ok [lit "OK"; lit "b"].
Proof. vm_compute. reflexivity. Qed.

(** A message for a channel without a callback runs the callback of the reply
    before it again. *)
Example stale_callback :
  let M := malloc_yes in let HM := heap_all in let OS := peer_sys ping_server in
  let get := command [lit "GET"; lit "k"] in
  let sub := command [lit "SUBSCRIBE"; lit "foo"] in
  outcome (fresh_async REDIS_CONNECTED 0
    (lit "+x" ++ crlf ++ command [lit "message"; lit "bar"; lit "m"]))
    (_ ← __redisAsyncCommand 7 0 (get ++ [0]) (zlen get);
     _ ← __redisAsyncCommand 8 0 (sub ++ [0]) (zlen sub);
     redisProcessCallbacks (run_user (fun _ => []) 1) 0) = Ok [Replied 7 0 1; Replied 7 0 2].
Proof. vm_compute. reflexivity. Qed.
