(* ===== verification/AsyncRelease.v ===== *)
(** * AsyncRelease: a context that reports its disconnection is freed

    A relation between the states before and after, which every function of the
    asynchronous context keeps whatever the callbacks of the client do: the log
    grows, and a context whose disconnect callback ran was released. *)
From S2P Require Import Prelude Mem Sds Reply Reader Format System Context Net Connect Dict Callbacks Async.
From stdpp Require Import list list_numbers strings sets gmap.
From Stdlib Require Import ZArith Lia.
Open Scope Z_scope.

Definition disconnects (e : event) : bool := match e with EvDisconnect _ _ => true | _ => false end.

Section release.
Context {M : Malloc} {HM : HeapMalloc} {W : Type} {OS : Sys W}.
Abbreviation state := (state (W := W)).
Abbreviation async := (async (W := W)).
Implicit Types (s : state) (e : event).

(** ** A logic of one relation

    [R] relates a state to those that differ in nothing but memory, or that
    have an event that is [allowed] at the end of the log. *)
Class Growth (R : state -> state -> Prop) (allowed : event -> bool) : Prop := {
  growth_trans s1 s2 s3 : R s1 s2 -> R s2 s3 -> R s1 s3;
  growth_same s s' : s_log s' = s_log s -> s_freed s' = s_freed s -> R s s';
  growth_log s s' e : allowed e = true -> s_log s' = s_log s ++ [e] -> s_freed s' = s_freed s -> R s s';
  growth_allowed e : disconnects e = false -> allowed e = true
}.

(** What [m] does keeps [R]. *)
Definition keeps (R : state -> state -> Prop) {A} (m : async A) : Prop :=
  forall s a s', m s = Ok (a, s') -> R s s'.

Section relation.
Context (R : state -> state -> Prop) (allowed : event -> bool) {G : Growth R allowed}.

Lemma growth_refl s : R s s.
Proof. by apply growth_same. Qed.

Lemma keeps_bind {A B} (m : async A) (k : A -> async B) :
  keeps R m -> (forall a, keeps R (k a)) -> keeps R (m ≫= k).
Proof.
  intros Hm Hk s b s' H. unfold mbind, async_bind in H. destruct (m s) as [[a s1]|] eqn:E; [|done].
  eapply growth_trans; [by eapply Hm|by eapply Hk].
Qed.

Lemma keeps_ret {A} (a : A) : keeps R (mret a).
Proof. intros s b s' [= <- <-]. apply growth_refl. Qed.

Lemma keeps_fault {A} f : keeps R (fault (A := A) f).
Proof. done. Qed.

Lemma keeps_lift {A} (m : result A) : keeps R (lift m).
Proof.
  intros s a s' H. unfold lift in H. destruct m as [x|]; [|done]. injection H as <- <-.
  apply growth_refl.
Qed.

Lemma keeps_gets {A} (f : state -> A) : keeps R (gets f).
Proof. intros s a s' [= <- <-]. apply growth_refl. Qed.

Lemma keeps_get_ac : keeps R get_ac.
Proof.
  intros s a s' H. unfold get_ac in H. destruct (s_freed s); [done|]. injection H as <- <-.
  apply growth_refl.
Qed.

Lemma keeps_put_ac ac : keeps R (put_ac ac).
Proof.
  intros s a s' H. unfold put_ac in H. destruct (s_freed s) eqn:E; [done|]. injection H as <- <-.
  by apply growth_same.
Qed.

Lemma keeps_put_heap h : keeps R (put_heap h).
Proof. intros s a s' [= <- <-]. by apply growth_same. Qed.
Lemma keeps_put_cbs cbs : keeps R (put_cbs cbs).
Proof. intros s a s' [= <- <-]. by apply growth_same. Qed.
Lemma keeps_put_dicts d : keeps R (put_dicts d).
Proof. intros s a s' [= <- <-]. by apply growth_same. Qed.
Lemma keeps_put_sys w : keeps R (put_sys w).
Proof. intros s a s' [= <- <-]. by apply growth_same. Qed.

Lemma keeps_log e : allowed e = true -> keeps R (log e).
Proof. intros He s a s' [= <- <-]. by eapply growth_log. Qed.

Lemma keeps_hook e : disconnects e = false -> keeps R (log e).
Proof. intros He. by apply keeps_log, growth_allowed. Qed.
End relation.
End release.

Create HintDb keeps.
#[export] Hint Resolve keeps_ret keeps_fault keeps_lift keeps_gets keeps_get_ac keeps_put_ac
  keeps_put_heap keeps_put_cbs keeps_put_dicts keeps_put_sys : keeps.
#[export] Hint Extern 1 (keeps _ (log _)) => by eapply keeps_hook : keeps.
#[export] Hint Extern 0 (Growth _ _) => eassumption : keeps.

(** Through the text of a function. *)
Ltac keep :=
  intros; cbv zeta;
  lazymatch goal with
  | |- keeps _ (_ ≫= _) => eapply keeps_bind; [eassumption|keep|keep]
  | |- keeps _ (match ?x with _ => _ end) => destruct x; keep
  | |- keeps _ (when _ _) => unfold when; keep
  | |- keeps _ _ => first [solve [eauto with keeps nocore typeclass_instances] | idtac]
  end.

Section functions.
Context {M : Malloc} {HM : HeapMalloc} {W : Type} {OS : Sys W}.
Abbreviation state := (state (W := W)).
Abbreviation async := (async (W := W)).
Context (R : state -> state -> Prop) (allowed : event -> bool) {G : Growth R allowed}.

Lemma keeps_raise f : keeps R (raise f).
Proof. unfold raise, get_c, put_c. keep. Qed.
Lemma keeps_lower f : keeps R (lower f).
Proof. unfold lower, get_c, put_c. keep. Qed.
Lemma keeps_flagged f : keeps R (flagged f).
Proof. unfold flagged, get_c. keep. Qed.
Hint Resolve keeps_raise keeps_lower keeps_flagged : keeps.

Lemma keeps_hooks : keeps R _EL_ADD_READ /\ keeps R _EL_DEL_READ /\ keeps R _EL_ADD_WRITE /\
  keeps R _EL_DEL_WRITE /\ keeps R _EL_CLEANUP.
Proof. unfold _EL_ADD_READ, _EL_DEL_READ, _EL_ADD_WRITE, _EL_DEL_WRITE, _EL_CLEANUP. split_and!; keep. Qed.
Hint Extern 1 (keeps _ _EL_ADD_READ) => apply keeps_hooks : keeps.
Hint Extern 1 (keeps _ _EL_DEL_READ) => apply keeps_hooks : keeps.
Hint Extern 1 (keeps _ _EL_ADD_WRITE) => apply keeps_hooks : keeps.
Hint Extern 1 (keeps _ _EL_DEL_WRITE) => apply keeps_hooks : keeps.
Hint Extern 1 (keeps _ _EL_CLEANUP) => apply keeps_hooks : keeps.

Lemma keeps_lists cb : keeps R (push_reply cb) /\ keeps R (push_invalid cb) /\
  keeps R shift_reply /\ keeps R shift_invalid.
Proof. unfold push_reply, push_invalid, shift_reply, shift_invalid. split_and!; keep. Qed.
Hint Extern 1 (keeps _ (push_reply _)) => apply keeps_lists : keeps.
Hint Extern 1 (keeps _ (push_invalid _)) => apply keeps_lists : keeps.
Hint Extern 1 (keeps _ shift_reply) => apply (keeps_lists (mk_cb 0 0)) : keeps.
Hint Extern 1 (keeps _ shift_invalid) => apply (keeps_lists (mk_cb 0 0)) : keeps.

Lemma keeps_copy_error : keeps R __redisAsyncCopyError.
Proof. unfold __redisAsyncCopyError. keep. Qed.
Hint Resolve keeps_copy_error : keeps.

Lemma keeps_set_callbacks fn : keeps R (redisAsyncSetConnectCallback fn) /\
  keeps R (redisAsyncSetDisconnectCallback fn).
Proof. unfold redisAsyncSetConnectCallback, redisAsyncSetDisconnectCallback. split_and!; keep. Qed.

Lemma keeps_subscribe_all fuel : forall cmd pv cb p, keeps R (subscribe_all fuel cmd pv cb p).
Proof. induction fuel; cbn [subscribe_all]; keep. Qed.
Hint Resolve keeps_subscribe_all : keeps.

Lemma keeps_append_command cmd len : keeps R (append_command cmd len).
Proof. unfold append_command, get_c, put_c. keep. Qed.
Hint Resolve keeps_append_command : keeps.

Lemma keeps_command fn privdata cmd len : keeps R (__redisAsyncCommand fn privdata cmd len).
Proof. unfold __redisAsyncCommand. keep. Qed.
Hint Resolve keeps_command : keeps.

Lemma keeps_asyncCommand vformat fn privdata format ap :
  keeps R (redisAsyncCommand vformat fn privdata format ap).
Proof. unfold redisAsyncCommand, redisvAsyncCommand. keep. Qed.

Lemma keeps_replies N reply dst : keeps R (next_reply N) /\ keeps R (free_reply reply) /\
  keeps R (__redisGetSubscribeCallback reply dst) /\ keeps R check_socket.
Proof.
  unfold next_reply, free_reply, __redisGetSubscribeCallback, check_socket, get_c, put_c.
  split_and!; keep.
Qed.
Hint Extern 1 (keeps _ (next_reply _)) => apply (keeps_replies _ 0 (mk_cb 0 0)) : keeps.
Hint Extern 1 (keeps _ (free_reply _)) => apply (keeps_replies 0 _ (mk_cb 0 0)) : keeps.
Hint Extern 1 (keeps _ (__redisGetSubscribeCallback _ _)) => apply (keeps_replies 0) : keeps.
Hint Extern 1 (keeps _ check_socket) => apply (keeps_replies 0 0 (mk_cb 0 0)) : keeps.

(** ** With the callbacks of the client *)
Section callbacks.
Context (user : event -> async unit).
Hypothesis user_keeps : forall e, allowed e = true -> keeps R (user e).

Lemma user_other e : disconnects e = false -> keeps R (user e).
Proof. intros He. by apply user_keeps, growth_allowed. Qed.
Hint Extern 1 (keeps _ (user _)) => by apply user_other : keeps.

Lemma keeps_runCallback cb reply : keeps R (__redisRunCallback user cb reply).
Proof. unfold __redisRunCallback. keep. Qed.
Hint Resolve keeps_runCallback : keeps.

Lemma keeps_run_all fuel shift : keeps R shift -> keeps R (run_all user fuel shift).
Proof. intros Hs. induction fuel; cbn [run_all]; keep. Qed.
Hint Resolve keeps_run_all : keeps.

Lemma keeps_run_entries fuel d : forall it, keeps R (run_entries user fuel d it).
Proof. induction fuel; cbn [run_entries]; keep. Qed.
Hint Resolve keeps_run_entries : keeps.

Lemma keeps_run_dict d : keeps R (run_dict user d).
Proof. unfold run_dict. keep. Qed.
Hint Resolve keeps_run_dict : keeps.

Lemma keeps_free_all : (forall e, keeps R (user e)) -> keeps R release ->
  keeps R (__redisAsyncFree user).
Proof. intros Hu Hr. unfold __redisAsyncFree, get_c. keep. Qed.

(** ** Once a context is freed in the same way *)
Hypothesis free_keeps : keeps R (__redisAsyncFree user).

Lemma keeps_free : keeps R (redisAsyncFree user).
Proof. unfold redisAsyncFree. keep. Qed.

Lemma keeps_disconnect : keeps R (__redisAsyncDisconnect user) /\ keeps R (redisAsyncDisconnect user).
Proof.
  assert (keeps R (__redisAsyncDisconnect user)) as H by (unfold __redisAsyncDisconnect; keep).
  split; [done|]. unfold redisAsyncDisconnect. keep.
Qed.
Hint Extern 1 (keeps _ (__redisAsyncDisconnect user)) => apply keeps_disconnect : keeps.
Hint Extern 1 (keeps _ (redisAsyncDisconnect user)) => apply keeps_disconnect : keeps.

Lemma keeps_process_replies fuel N : forall cb, keeps R (process_replies user fuel N cb).
Proof. induction fuel; cbn [process_replies]; unfold get_c, put_c; keep. Qed.
Hint Resolve keeps_process_replies : keeps.

Lemma keeps_handleConnect : keeps R (__redisAsyncHandleConnect user).
Proof. unfold __redisAsyncHandleConnect. keep. Qed.
Hint Resolve keeps_handleConnect : keeps.

Lemma keeps_when_connected m : keeps R m -> keeps R (when_connected user m).
Proof. unfold when_connected. keep. Qed.

Lemma keeps_handleRead N : keeps R (redisAsyncHandleRead user N).
Proof.
  apply keeps_when_connected. unfold redisProcessCallbacks, get_c, put_c. keep.
Qed.

Lemma keeps_handleWrite : keeps R (redisAsyncHandleWrite user).
Proof. apply keeps_when_connected. unfold get_c, put_c. keep. Qed.

Lemma keeps_run_actions l : keeps R (run_actions user l).
Proof.
  induction l as [|a l IH]; cbn [run_actions]; [keep|].
  eapply keeps_bind; [done| |done]. pose proof keeps_free. pose proof keeps_set_callbacks as Hs.
  destruct a; cbn [run_action]; keep; try apply Hs.
Qed.
End callbacks.
End functions.

(** ** The two relations *)
Section relations.
Context {M : Malloc} {HM : HeapMalloc} {W : Type} {OS : Sys W}.
Abbreviation state := (state (W := W)).
Abbreviation async := (async (W := W)).

(** The log grows. *)
Definition grows (s s' : state) : Prop :=
  (exists evs, s_log s' = s_log s ++ evs) /\ (s_freed s = true -> s_freed s' = true).

#[export] Instance grows_growth : Growth grows (fun _ => true).
Proof.
  split; [|by split; [exists []; rewrite app_nil_r|congruence]|by intros; split; [eexists|congruence]|done].
  intros s1 s2 s3 [[e1 H1] F1] [[e2 H2] F2]. split; [|by auto].
  exists (e1 ++ e2). by rewrite H2, H1, app_assoc.
Qed.

(** And a context that was disconnected is free. *)
Definition releases (s s' : state) : Prop :=
  exists evs, s_log s' = s_log s ++ evs /\ (s_freed s = true -> s_freed s' = true) /\
  (existsb disconnects evs = true -> s_freed s' = true).

#[export] Instance releases_growth : Growth releases (fun e => negb (disconnects e)).
Proof.
  split.
  - intros s1 s2 s3 (e1 & H1 & F1 & D1) (e2 & H2 & F2 & D2). exists (e1 ++ e2).
    split_and!; [by rewrite H2, H1, app_assoc|by auto|].
    rewrite existsb_app. intros [H|H]%orb_true_iff; auto.
  - intros s s' H F. exists []. rewrite app_nil_r. split_and!; [done|congruence|done].
  - intros s s' e He H F. exists [e]. split_and!; [done|congruence|].
    cbn. rewrite orb_false_r. by destruct (disconnects e).
  - intros e He. by rewrite He.
Qed.

Lemma grows_free (user : event -> async unit) : (forall e, keeps grows (user e)) ->
  keeps grows (__redisAsyncFree user).
Proof.
  intros Hu. eapply keeps_free_all; [apply grows_growth|done..|].
  intros s a s' [= <- <-]. split; [exists []; by rewrite app_nil_r|done].
Qed.

(** Where a function ends. *)
Definition ends (P : state -> Prop) {A} (m : async A) : Prop := forall s a s', m s = Ok (a, s') -> P s'.

Lemma ends_bind P {A B} (m : async A) (k : A -> async B) : (forall a, ends P (k a)) -> ends P (m ≫= k).
Proof.
  intros Hk s b s' H. unfold mbind, async_bind in H. destruct (m s) as [[a s1]|]; [|done]. by eapply Hk.
Qed.

Lemma free_releases (user : event -> async unit) : ends (fun s => s_freed s = true) (__redisAsyncFree user).
Proof.
  unfold __redisAsyncFree. repeat (apply ends_bind; intros).
  case_match. repeat (apply ends_bind; intros). by intros s x s' [= <- <-].
Qed.

Lemma releases_free (user : event -> async unit) : (forall e, keeps grows (user e)) ->
  keeps releases (__redisAsyncFree user).
Proof.
  intros Hu s a s' H. destruct (grows_free user Hu s a s' H) as [[evs He] Hf].
  exists evs. split_and!; [done..|]. intros _. by eapply free_releases.
Qed.

(** Whatever the callbacks of the client do. *)
Context (script : list event -> list action).

Lemma grows_user n : forall e, keeps grows (run_user script n e).
Proof.
  induction n as [|n IH]; intros e; cbn [run_user]; [done|]. pose proof grows_growth as G.
  eapply keeps_bind; [done|by eapply keeps_log|]. intros _.
  eapply keeps_bind; [done|by eapply keeps_gets|]. intros l.
  eapply keeps_run_actions; [done|apply (grows_free _ IH)].
Qed.

Lemma releases_user n : forall e, disconnects e = false -> keeps releases (run_user script n e).
Proof.
  destruct n as [|n]; intros e He; cbn [run_user]; [done|]. pose proof releases_growth as G.
  eapply keeps_bind; [done|apply (keeps_log _ (fun e => negb (disconnects e))); by rewrite He|]. intros _.
  eapply keeps_bind; [done|by eapply keeps_gets|]. intros l.
  eapply keeps_run_actions; [done|by apply (releases_free _ (grows_user n))].
Qed.

(** The functions that a program calls. *)
Lemma calls_release n : let user := run_user script n in
  (forall N, keeps releases (redisAsyncHandleRead user N)) /\ keeps releases (redisAsyncHandleWrite user) /\
  (forall fn pd cmd len, keeps releases (redisAsyncFormattedCommand fn pd cmd len)) /\
  (forall vf fn pd fmt ap, keeps releases (redisAsyncCommand vf fn pd fmt ap)) /\
  (forall fn, keeps releases (redisAsyncSetConnectCallback fn)) /\
  (forall fn, keeps releases (redisAsyncSetDisconnectCallback fn)).
Proof.
  intros user. pose proof releases_growth as G.
  assert (forall e, negb (disconnects e) = true -> keeps releases (user e)) as Hu.
  { intros e He. apply releases_user. by destruct (disconnects e). }
  assert (keeps releases (__redisAsyncFree user)) as Hf by apply (releases_free _ (grows_user n)).
  split_and!; intros.
  - by eapply keeps_handleRead.
  - by eapply keeps_handleWrite.
  - by eapply keeps_command.
  - by eapply keeps_asyncCommand.
  - by eapply (keeps_set_callbacks releases _).
  - by eapply (keeps_set_callbacks releases _).
Qed.
End relations.
