(* ===== verification/StdMap.v ===== *)
(** * StdMap: ordered maps

    The [std::map] of the C++ parts: a list of keys and values, in the order
    of the keys. Iteration follows the list. *)
From S2P Require Import Prelude Mem.
From stdpp Require Import list list_numbers strings gmap sorting.
From Stdlib Require Import ZArith Lia.
Open Scope Z_scope.

(** ** Keys

    [std::less] of a key type. *)
Class KeyOrder (K : Type) `{EqDecision K} := {
  key_lt : K -> K -> bool;
  key_lt_irrefl a : key_lt a a = false;
  key_lt_trans a b c : key_lt a b = true -> key_lt b c = true -> key_lt a c = true;
  key_lt_total a b : key_lt a b = false -> a <> b -> key_lt b a = true
}.

#[export] Program Instance Z_order : KeyOrder Z := {| key_lt := Z.ltb |}.
Next Obligation. intros. apply Z.ltb_irrefl. Qed.
Next Obligation. intros. bool_to_prop. apply Z.ltb_lt. lia. Qed.
Next Obligation. intros. bool_to_prop. apply Z.ltb_lt. lia. Qed.

(** [std::string] compares the common prefix byte by byte, then the lengths. *)
Fixpoint bytes_lt (a b : bytes) : bool :=
  match a, b with
  | _, [] => false
  | [], _ :: _ => true
  | x :: a, y :: b => (x <? y) || (x =? y) && bytes_lt a b
  end.

#[export] Program Instance bytes_order : KeyOrder bytes := {| key_lt := bytes_lt |}.
Next Obligation.
  induction a as [|x a IH]; simpl; [done|]. by rewrite Z.ltb_irrefl, Z.eqb_refl, IH.
Qed.
Next Obligation.
  induction a as [|x a IH]; intros [|y b] [|z c] H1 H2; simpl in *; try done.
  apply orb_true_iff in H1, H2. apply orb_true_iff.
  destruct H1 as [H1|H1], H2 as [H2|H2]; bool_to_prop; subst.
  - left. apply Z.ltb_lt. lia.
  - left. by apply Z.ltb_lt.
  - left. by apply Z.ltb_lt.
  - right. rewrite Z.eqb_refl. simpl. by eapply IH.
Qed.
Next Obligation.
  induction a as [|x a IH]; intros [|y b] H Hne; simpl in *; try done.
  bool_to_prop. destruct (Z.lt_trichotomy x y) as [?|[->|?]]; [lia| |].
  - rewrite Z.ltb_irrefl, Z.eqb_refl in *. simpl in *. apply IH; congruence.
  - apply orb_true_iff. left. by apply Z.ltb_lt.
Qed.

Section stdmap.
Context {K V : Type} `{KeyOrder K}.
Implicit Types (m : list (K * V)).

(** ** Operations *)
Fixpoint std_find (k : K) m : option V :=
  match m with
  | [] => None
  | (k', v) :: m => if decide (k = k') then Some v else std_find k m
  end.

(** [m[k] = v]. *)
Fixpoint std_set (k : K) (v : V) m : list (K * V) :=
  match m with
  | [] => [(k, v)]
  | (k', v') :: m' =>
      if key_lt k k' then (k, v) :: m
      else if decide (k = k') then (k, v) :: m' else (k', v') :: std_set k v m'
  end.

(** [insert] and [emplace] keep the value of a key that is there. *)
Definition std_insert (k : K) (v : V) m : list (K * V) :=
  match std_find k m with Some _ => m | None => std_set k v m end.

Definition std_erase (k : K) m : list (K * V) :=
  filter (fun x => x.1 <> k) m.

(** ** Laws *)
Definition std_sorted m : Prop :=
  StronglySorted (fun a b : K => key_lt a b = true) m.*1.

Lemma find_set_eq k v m : std_find k (std_set k v m) = Some v.
Proof.
  induction m as [|[k' v'] m IH]; simpl; [by rewrite decide_True|].
  destruct (key_lt k k'); simpl; [by rewrite decide_True|].
  destruct (decide (k = k')) as [->|]; simpl; [by rewrite decide_True|].
  by rewrite decide_False.
Qed.

Lemma find_set_ne k k' v m : k <> k' -> std_find k (std_set k' v m) = std_find k m.
Proof.
  intros Hne. induction m as [|[k1 v1] m IH]; simpl; [by rewrite decide_False|].
  destruct (key_lt k' k1); simpl; [by rewrite decide_False|].
  destruct (decide (k' = k1)) as [->|]; simpl; [by rewrite !decide_False|].
  by rewrite IH.
Qed.

Lemma find_set k k' v m :
  std_find k (std_set k' v m) = if decide (k = k') then Some v else std_find k m.
Proof.
  destruct (decide (k = k')) as [->|]; [apply find_set_eq|by apply find_set_ne].
Qed.

Lemma find_erase_eq k m : std_find k (std_erase k m) = None.
Proof.
  unfold std_erase. induction m as [|[k' v'] m IH]; simpl; [done|].
  rewrite filter_cons. simpl. repeat case_decide; simpl; subst; try done.
  by rewrite decide_False by congruence.
Qed.

Lemma find_erase_ne k k' m : k <> k' -> std_find k (std_erase k' m) = std_find k m.
Proof.
  intros Hne. unfold std_erase. induction m as [|[k1 v1] m IH]; simpl; [done|].
  rewrite filter_cons. simpl.
  by destruct (decide (k1 <> k')); simpl; case_decide; simpl; subst; [| |exfalso; tauto|].
Qed.

Lemma find_elem k v m : std_find k m = Some v -> (k, v) ∈ m.
Proof.
  induction m as [|[k' v'] m IH]; simpl; [done|]. case_decide; set_solver.
Qed.

Lemma find_None k m : std_find k m = None <-> k ∉ m.*1.
Proof.
  induction m as [|[k' v'] m IH]; simpl; [set_solver|].
  case_decide; subst; [set_solver|]. rewrite IH. set_solver.
Qed.

Lemma elem_find k v m : std_sorted m -> (k, v) ∈ m -> std_find k m = Some v.
Proof.
  unfold std_sorted. induction m as [|[k' v'] m IH]; simpl; [set_solver|].
  intros Hs [[= -> ->]|Hin]%elem_of_cons; [by rewrite decide_True|].
  inversion Hs as [|? ? Hs' Hall]; subst. rewrite decide_False; [by apply IH|].
  intros ->. rewrite Forall_forall in Hall.
  assert (key_lt k' k' = true) as Ht by (apply Hall, list_elem_of_fmap; by exists (k', v)).
  by rewrite key_lt_irrefl in Ht.
Qed.

Lemma keys_set k v m x : x ∈ (std_set k v m).*1 <-> x = k \/ x ∈ m.*1.
Proof.
  induction m as [|[k' v'] m IH]; simpl; [set_solver|].
  repeat case_match; subst; simpl; rewrite ?elem_of_cons, ?IH; naive_solver.
Qed.

Lemma sorted_set k v m : std_sorted m -> std_sorted (std_set k v m).
Proof.
  unfold std_sorted. induction m as [|[k' v'] m IH]; simpl; intros Hs.
  - repeat constructor.
  - inversion Hs as [|? ? Hs' Hall]; subst. destruct (key_lt k k') eqn:E; simpl.
    + constructor; [done|]. constructor; [done|].
      eapply Forall_impl; [exact Hall|]. intros x Hx. by eapply key_lt_trans.
    + case_decide; subst; simpl; [by constructor|]. constructor; [by apply IH|].
      apply Forall_forall. intros x [->|Hx]%keys_set.
      * by apply key_lt_total.
      * by eapply Forall_forall in Hall.
Qed.

Lemma sorted_insert k v m : std_sorted m -> std_sorted (std_insert k v m).
Proof. unfold std_insert. case_match; [done|apply sorted_set]. Qed.

Lemma find_insert k k' v m :
  std_find k (std_insert k' v m) =
  if decide (k = k') then Some (default v (std_find k m)) else std_find k m.
Proof.
  unfold std_insert. destruct (std_find k' m) eqn:E; case_decide; subst.
  - by rewrite E.
  - done.
  - by rewrite find_set_eq, E.
  - by apply find_set_ne.
Qed.

Lemma sorted_erase k m : std_sorted m -> std_sorted (std_erase k m).
Proof.
  unfold std_sorted, std_erase. induction m as [|[k' v'] m IH]; simpl; [done|].
  intros Hs. inversion Hs as [|? ? Hs' Hall]; subst. rewrite filter_cons. simpl.
  case_decide; simpl; [|by apply IH]. constructor; [by apply IH|].
  rewrite Forall_forall in *. intros x ([y z]&->&Hin)%list_elem_of_fmap.
  apply list_elem_of_filter in Hin as [_ Hin]. apply Hall, list_elem_of_fmap.
  by exists (y, z).
Qed.

Lemma sorted_NoDup m : std_sorted m -> NoDup m.*1.
Proof.
  unfold std_sorted. induction m.*1 as [|k l IH]; intros Hs; [constructor|].
  inversion Hs as [|? ? Hs' Hall]; subst. constructor; [|by apply IH].
  intros Hin. rewrite Forall_forall in Hall. specialize (Hall _ Hin).
  by rewrite key_lt_irrefl in Hall.
Qed.
End stdmap.

#[export] Hint Resolve sorted_set sorted_insert sorted_erase : core.
