(* ===== verification/Timers.v ===== *)
(** * Timers: timers of an event loop (timer.h, timer.cpp, timerManager.h,
    timerManager.cpp)

    A timer is an event of libevent that calls a handler for a number of
    rounds; a timer manager owns timers, names them by numbers and deletes
    those that are finished. *)
From S2P Require Import Prelude Mem.
From stdpp Require Import list list_numbers strings sets gmap.
From Stdlib Require Import ZArith Lia.
Open Scope Z_scope.

(** ** libevent

    Whether [event_new] and [event_add] succeed, for the flag and the timeout
    they are given; what a callback of type [CBHandler] returns. *)
Class Libevent := {
  event_new_ok : bool -> bool;
  event_add_ok : Z * Z -> bool;
  cb_result : Z -> Z -> Z -> Z
}.

(** An event that is pending: its flag [EV_PERSIST], its timeout in seconds
    and microseconds. *)
Record event : Type := mk_event {
  ev_persist : bool;
  ev_timeout : Z * Z
}.

(** A [Timer::Handler]: a function of the client, the closure of [startAfter]
    or the closure of [startCB]. *)
Inductive Handler : Type :=
  | UserHandler (h : Z)
  | StartRounds (interval round : Z) (handler : Handler)
  | RunCB.

(** A call of a function of the client. *)
Inductive call : Type :=
  | Call (h : Z)
  | CallCB (cb userData tid : Z).

Record Timer : Type := mkTimer {
  _event : option event;
  _interval : Z;
  _round : Z;
  _curRound : Z;
  _handler : option Handler;
  _userData : Z;
  _CBHandler : Z;
  _tid : Z
}.

(** The constructor. *)
Definition new_Timer : Timer := mkTimer None 0 1 0 None 0 0 0.

Definition set_cur (t : Timer) (e : option event) (cur : Z) : Timer :=
  mkTimer e (_interval t) (_round t) cur (_handler t) (_userData t) (_CBHandler t) (_tid t).

Definition isFinished (t : Timer) : bool := _round t <=? _curRound t.

Definition reset (t : Timer) : Timer :=
  match _event t with
  | Some _ => set_cur t None (u64 (_round t + 1))
  | None => t
  end.

Definition stop (t : Timer) : Timer := reset t.

Section timers.
Context {L : Libevent}.

(** [interval] is a [uint32_t], [round] a [uint64_t]. *)
Definition startRounds (interval round : Z) (handler : Handler) (t : Timer) : bool * Timer :=
  match _event t with
  | Some _ => (false, t)
  | None =>
      let persist := 1 <? round in
      if negb (event_new_ok persist) then (false, t) else
      let tv := (Z.quot interval 1000, Z.rem interval 1000 * 1000) in
      let t := set_cur t (Some (mk_event persist tv)) (_curRound t) in
      if negb (event_add_ok tv) then (false, reset t) else
      (true, mkTimer (_event t) interval round 0 (Some handler)
               (_userData t) (_CBHandler t) (_tid t))
  end.

Definition startOnce (interval : Z) (handler : Handler) (t : Timer) : bool * Timer :=
  startRounds interval 1 handler t.

Definition startForever (interval : Z) (handler : Handler) (t : Timer) : bool * Timer :=
  startRounds interval (u32 (-1)) handler t.

Definition startAfter (after interval round : Z) (handler : Handler) (t : Timer) : bool * Timer :=
  startOnce after (StartRounds interval round handler) t.

Definition startCB (interval cb userData tid : Z) (t : Timer) : bool * Timer :=
  let t := mkTimer (_event t) (_interval t) (_round t) (_curRound t) (_handler t)
             userData cb tid in
  startForever interval RunCB t.

(** Calling a handler; the handlers are closures over the timer. *)
Definition run_handler (handler : Handler) (t : Timer) : list call * Timer :=
  match handler with
  | UserHandler h => ([Call h], t)
  | StartRounds interval round h => ([], (startRounds interval round h t).2)
  | RunCB =>
      let ret := cb_result (_CBHandler t) (_userData t) (_tid t) in
      ([CallCB (_CBHandler t) (_userData t) (_tid t)], if ret =? -1 then stop t else t)
  end.

(** An empty [std::function] throws. *)
Definition eventHandler (t : Timer) : result (list call * Timer) :=
  let handler := _handler t in
  let t := set_cur t (_event t) (u64 (_curRound t + 1)) in
  let t := if _round t <=? _curRound t then reset t else t in
  h ← deref handler;
  Ok (run_handler h t).

(** The event loop calls the handler [n] times, as long as the event is
    pending. *)
Fixpoint fires (n : nat) (t : Timer) : result (list call * Timer) :=
  match n, _event t with
  | S n, Some _ =>
      '(l, t) ← eventHandler t;
      '(l', t) ← fires n t;
      Ok (l ++ l', t)
  | _, _ => Ok ([], t)
  end.

(** ** The timer manager *)
Definition AUDIT_TIMER : Z := 5000.

(** The map owns its timers: the pointers that [getTimer] returns are used
    and dropped by its callers. *)
Record TimerManager : Type := mkTM {
  uniqueID_atomic : Z;
  t_map : gmap Z Timer;
  audit_timer : Timer
}.

(** The two constructors: of the instance, and for a given loop. *)
Definition new_TimerManager (first : Z) : TimerManager :=
  mkTM first ∅ (startForever AUDIT_TIMER (UserHandler 0) new_Timer).2.
Definition instance_TimerManager : TimerManager := new_TimerManager 1.
Definition loop_TimerManager : TimerManager := new_TimerManager 0.

Definition getUniqueID (m : TimerManager) : Z * TimerManager :=
  (uniqueID_atomic m, mkTM (s32 (uniqueID_atomic m + 1)) (t_map m) (audit_timer m)).

(** [use] is what the caller does with the new timer. [emplace] does nothing
    when the number is taken, and then the timer dies with its pointer. *)
Definition getTimer (use : Timer -> bool * Timer) (m : TimerManager) : Z * TimerManager :=
  let '(tid, m) := getUniqueID m in
  let t := (use new_Timer).2 in
  match t_map m !! tid with
  | Some _ => (tid, m)
  | None => (tid, mkTM (uniqueID_atomic m) (<[tid := t]> (t_map m)) (audit_timer m))
  end.

Definition auditTimer (m : TimerManager) : TimerManager :=
  mkTM (uniqueID_atomic m) (filter (fun x => isFinished x.2 = false) (t_map m)) (audit_timer m).

(** The destructor of the timer frees its event. *)
Definition killTimer (timerID : Z) (m : TimerManager) : bool * TimerManager :=
  (true, mkTM (uniqueID_atomic m) (delete timerID (t_map m)) (audit_timer m)).

(** The event of timer [tid] fires. *)
Definition timer_fires (tid : Z) (m : TimerManager) : result (list call * TimerManager) :=
  match t_map m !! tid with
  | Some t =>
      '(l, t) ← fires 1 t;
      Ok (l, mkTM (uniqueID_atomic m) (<[tid := t]> (t_map m)) (audit_timer m))
  | None => Ok ([], m)
  end.

(** ** Facts *)

(** A timer is between the constructor and its last round. *)
Inductive timer_state (t : Timer) : Prop :=
  | T_fresh : _event t = None -> _round t = 1 -> _curRound t = 0 -> timer_state t
  | T_armed e : _event t = Some e -> is_Some (_handler t) ->
      0 <= _curRound t -> _curRound t < Z.max 1 (_round t) -> _round t < 2 ^ 64 - 1 ->
      timer_state t
  | T_finished : _event t = None -> _round t <= _curRound t -> timer_state t.

Lemma reset_finished t : 0 <= _round t < 2 ^ 64 - 1 -> is_Some (_event t) ->
  reset t = set_cur t None (_round t + 1).
Proof. intros Hr [e He]. unfold reset. by rewrite He, u64_id by lia. Qed.

Lemma startRounds_ok interval round handler t :
  _event t = None -> event_new_ok (1 <? round) = true ->
  event_add_ok (Z.quot interval 1000, Z.rem interval 1000 * 1000) = true ->
  startRounds interval round handler t =
  (true, mkTimer (Some (mk_event (1 <? round) (Z.quot interval 1000, Z.rem interval 1000 * 1000)))
           interval round 0 (Some handler) (_userData t) (_CBHandler t) (_tid t)).
Proof. intros He Hn Ha. unfold startRounds. by rewrite He, Hn, Ha. Qed.

Lemma startRounds_state interval round handler t :
  0 <= round < 2 ^ 64 - 1 -> timer_state t -> 0 <= _round t < 2 ^ 64 - 1 ->
  timer_state (startRounds interval round handler t).2 /\
  0 <= _round (startRounds interval round handler t).2 < 2 ^ 64 - 1.
Proof.
  intros Hr Ht Hrt. unfold startRounds. destruct (_event t) eqn:He; [by simpl|].
  destruct (event_new_ok _); simpl; [|by simpl].
  destruct (event_add_ok _); simpl.
  - split; [|lia]. eapply T_armed; simpl; [done|eauto|lia..].
  - split; [|done]. apply T_finished; simpl; [done|]. rewrite u64_id; lia.
Qed.

(** One event of a timer that has rounds left. *)
Lemma eventHandler_step h t e :
  _event t = Some e -> _handler t = Some (UserHandler h) -> 0 <= _curRound t ->
  _curRound t < Z.max 1 (_round t) -> 0 <= _round t < 2 ^ 64 - 1 ->
  eventHandler t =
  Ok ([Call h], if _curRound t + 1 <? Z.max 1 (_round t) then set_cur t (Some e) (_curRound t + 1)
                else set_cur t None (_round t + 1)).
Proof.
  intros He Hh H1 H2 H3. unfold eventHandler. rewrite Hh. simpl. rewrite u64_id by lia.
  rewrite He. do 2 f_equal. destruct (_curRound t + 1 <? Z.max 1 (_round t)) eqn:E; bool_to_prop.
  - by if_false.
  - if_true. rewrite reset_finished; simpl; eauto.
Qed.

Lemma fires_unarmed n t : _event t = None -> fires n t = Ok ([], t).
Proof. intros He. destruct n; simpl; [done|]. by rewrite He. Qed.

Lemma fires_rounds h n t e :
  _event t = Some e -> _handler t = Some (UserHandler h) -> 0 <= _curRound t ->
  _curRound t < Z.max 1 (_round t) -> 0 <= _round t < 2 ^ 64 - 1 ->
  let left := Z.max 1 (_round t) - _curRound t in
  fires n t =
  Ok (replicate (n `min` Z.to_nat left) (Call h),
      if Z.of_nat n <? left then set_cur t (Some e) (_curRound t + Z.of_nat n)
      else set_cur t None (_round t + 1)).
Proof.
  revert t. induction n as [|n IH]; intros t He Hh H1 H2 H3; cbv zeta.
  - simpl. if_true. rewrite Z.add_0_r. by destruct t; simpl in *; subst.
  - simpl. rewrite He. erewrite eventHandler_step by done. simpl.
    replace (Z.to_nat (Z.max 1 (_round t) - _curRound t)) with
      (S (Z.to_nat (Z.max 1 (_round t) - _curRound t - 1))) by lia.
    destruct (_curRound t + 1 <? Z.max 1 (_round t)) eqn:E; bool_to_prop.
    + rewrite IH by (simpl; (done || lia)). simpl. do 3 f_equal; [f_equal; lia|].
      destruct (Z.of_nat n <? _) eqn:E1; bool_to_prop; [if_true|by if_false].
      unfold set_cur; simpl. f_equal; lia.
    + rewrite fires_unarmed by done. simpl.
      replace (Z.to_nat _) with 0%nat by lia. rewrite Nat.min_0_r. simpl. by if_false.
Qed.
End timers.
