(* ===== verification/TimersCorrect.v ===== *)
(** * TimersCorrect: the properties of timers

    A timer calls its handler once per round and no more; the audit of a
    manager deletes no timer that still has to fire. *)
From S2P Require Import Prelude Mem Timers.
From stdpp Require Import list list_numbers strings sets gmap.
From Stdlib Require Import ZArith Lia.
Open Scope Z_scope.

(** A manager as its clients use it. *)
Inductive tm_op : Type :=
  | StartTimer (interval round : Z) (handler : Handler)
  | StartTimerAfter (after interval round : Z) (handler : Handler)
  | StartTimerCB (interval cb userData tid : Z)
  | KillTimer (tid : Z)
  | Audit
  | Fire (tid : Z).

Section correct.
Context {L : Libevent}.

Definition run_op (o : tm_op) (m : TimerManager) : result (list call * TimerManager) :=
  match o with
  | StartTimer i r h => Ok ([], (getTimer (startRounds i r h) m).2)
  | StartTimerAfter a i r h => Ok ([], (getTimer (startAfter a i r h) m).2)
  | StartTimerCB i cb ud tid => Ok ([], (getTimer (startCB i cb ud tid) m).2)
  | KillTimer tid => Ok ([], (killTimer tid m).2)
  | Audit => Ok ([], auditTimer m)
  | Fire tid => timer_fires tid m
  end.

Fixpoint run_ops (l : list tm_op) (m : TimerManager) : result (list call * TimerManager) :=
  match l with
  | [] => Ok ([], m)
  | o :: l =>
      '(c, m) ← run_op o m;
      '(c', m) ← run_ops l m;
      Ok (c ++ c', m)
  end.

(** ** The invariant of a manager *)
Definition round_ok (round : Z) : Prop := 0 <= round < 2 ^ 64 - 1.

Fixpoint handler_ok (h : Handler) : Prop :=
  match h with
  | StartRounds _ round h => round_ok round /\ handler_ok h
  | _ => True
  end.

Definition op_ok (o : tm_op) : Prop :=
  match o with
  | StartTimer _ round h | StartTimerAfter _ _ round h => round_ok round /\ handler_ok h
  | _ => True
  end.

Record timer_ok (t : Timer) : Prop := {
  ok_state : timer_state t;
  ok_round : round_ok (_round t);
  ok_handler h : _handler t = Some h -> handler_ok h
}.

Definition manager_ok (m : TimerManager) : Prop := map_Forall (fun _ => timer_ok) (t_map m).

Lemma new_Timer_ok : timer_ok new_Timer.
Proof. split; simpl; [by apply T_fresh|unfold round_ok; simpl; lia|done]. Qed.

Lemma startRounds_keeps interval round h t :
  round_ok round -> handler_ok h -> timer_ok t -> timer_ok (startRounds interval round h t).2.
Proof.
  unfold round_ok. intros Hr Hh [Hs Hrt Ht]. unfold round_ok in Hrt.
  destruct (startRounds_state interval round h t) as [Hs' _]; [lia|done|lia|].
  unfold startRounds in *. destruct (_event t) eqn:He; [by split|].
  destruct (event_new_ok _); simpl in *; [|by split].
  destruct (event_add_ok _); simpl in *; split; simpl in *; try done.
  by intros ? [= <-].
Qed.

Lemma stop_keeps t : timer_ok t -> timer_ok (stop t).
Proof.
  intros [Hs Hr Hh]. unfold stop, reset. destruct (_event t) eqn:He; [|done].
  unfold round_ok in Hr. split; simpl; try done.
  apply T_finished; simpl; [done|]. rewrite u64_id; lia.
Qed.

Lemma run_handler_keeps h t : handler_ok h -> timer_ok t -> timer_ok (run_handler h t).2.
Proof.
  intros Hh Ht. destruct h; simpl in *; [done| |].
  - by apply startRounds_keeps; destruct Hh.
  - split_if; [by apply stop_keeps|done].
Qed.

Lemma eventHandler_keeps t : timer_ok t -> is_Some (_event t) ->
  exists l t', eventHandler t = Ok (l, t') /\ timer_ok t'.
Proof.
  intros [Hs Hr Hh] [e He]. destruct Hs as [?|e' _ [h Eh] H1 H2 H3|?]; [congruence| |congruence].
  unfold round_ok in Hr. unfold eventHandler. rewrite Eh. simpl. rewrite He.
  rewrite u64_id by lia. destruct (run_handler _ _) as [l t'] eqn:E.
  exists l, t'. split; [done|]. change t' with (l, t').2. rewrite <- E.
  apply run_handler_keeps; [by apply Hh|]. split_if.
  - rewrite reset_finished; simpl; [|lia|eauto]. split; simpl; [|done..].
    apply T_finished; simpl; [done|lia].
  - split; simpl; [|done..]. eapply T_armed; simpl; [done|eauto|lia..].
Qed.

Lemma getTimer_keeps use m : timer_ok (use new_Timer).2 -> manager_ok m ->
  manager_ok (getTimer use m).2.
Proof.
  intros Hu Hm. unfold getTimer. simpl. destruct (t_map m !! _); simpl; [done|].
  unfold manager_ok in *. simpl. by apply map_Forall_insert_2.
Qed.

Lemma run_op_keeps o m : op_ok o -> manager_ok m ->
  exists l m', run_op o m = Ok (l, m') /\ manager_ok m'.
Proof.
  intros Ho Hm. destruct o as [i r h|a i r h|i cb ud tid|tid| |tid]; simpl in *.
  - eexists _, _. split; [done|]. apply getTimer_keeps; [|done].
    apply startRounds_keeps; try apply Ho. apply new_Timer_ok.
  - eexists _, _. split; [done|]. apply getTimer_keeps; [|done].
    apply startRounds_keeps; [unfold round_ok; lia|done|apply new_Timer_ok].
  - eexists _, _. split; [done|]. apply getTimer_keeps; [|done].
    apply startRounds_keeps; [unfold round_ok; vm_compute; split; congruence|done|].
    split; simpl; [by apply T_fresh|unfold round_ok; lia|done].
  - eexists _, _. split; [done|]. unfold manager_ok. simpl. by apply map_Forall_delete.
  - eexists _, _. split; [done|]. unfold manager_ok, auditTimer. simpl.
    intros k t [Hk _]%map_lookup_filter_Some. by apply (Hm k t).
  - unfold timer_fires. destruct (t_map m !! tid) as [t|] eqn:E; [|eauto].
    simpl. destruct (_event t) eqn:Ee; simpl.
    + destruct (eventHandler_keeps t) as (l & t' & -> & Ht'); [by apply (Hm tid t)|by eexists|].
      simpl. rewrite app_nil_r. eexists _, _. split; [done|].
      unfold manager_ok. simpl. by apply map_Forall_insert_2.
    + eexists _, _. split; [done|]. unfold manager_ok. simpl.
      apply map_Forall_insert_2; [by apply (Hm tid t)|done].
Qed.

Lemma run_ops_keeps l m : Forall op_ok l -> manager_ok m ->
  exists c m', run_ops l m = Ok (c, m') /\ manager_ok m'.
Proof.
  revert m. induction l as [|o l IH]; intros m Hl Hm; simpl; [eauto|].
  inversion Hl; subst. destruct (run_op_keeps o m) as (c & m1 & -> & Hm1); [done..|].
  simpl. destruct (IH m1) as (c' & m2 & -> & Hm2); [done..|]. simpl. eauto.
Qed.

Lemma auditTimer_lookup m tid t : t_map m !! tid = Some t ->
  t_map (auditTimer m) !! tid = if isFinished t then None else Some t.
Proof.
  intros Ht. unfold auditTimer. simpl. rewrite map_lookup_filter, Ht. simpl.
  destruct (isFinished t); reflexivity.
Qed.

(** ** Properties *)

(** A timer started for [round] rounds calls its handler at each of its
    first [round] events (once, when [round] is 0); it stays pending until
    the last of them, and from then on it is finished and calls nothing. *)
Theorem timer_rounds (interval round h : Z) (t : Timer)
    (Ht : _event t = None)
    (Hr : 0 <= round < 2 ^ 64 - 1)
    (Hnew : event_new_ok (1 <? round) = true)
    (Hadd : event_add_ok (Z.quot interval 1000, Z.rem interval 1000 * 1000) = true) :
  exists t1, startRounds interval round (UserHandler h) t = (true, t1) /\
  forall n, exists t2,
    fires n t1 = Ok (replicate (n `min` Z.to_nat (Z.max 1 round)) (Call h), t2) /\
    (is_Some (_event t2) <-> Z.of_nat n < Z.max 1 round) /\
    (_event t2 = None -> isFinished t2 = true).
Proof.
  eexists. split; [by apply startRounds_ok|]. intros n.
  eexists. split; [erewrite fires_rounds by (simpl; (done || lia)); simpl;
    by rewrite Z.sub_0_r|].
  destruct (Z.of_nat n <? Z.max 1 round) eqn:E; bool_to_prop; simpl.
  - split; [|done]. split; [done|eauto].
  - split; [split; [by intros []|lia]|]. intros _. unfold isFinished. simpl.
    apply Z.leb_le. lia.
Qed.

(** C37: Whatever timers are started, killed and fired, the audit of the
    manager keeps every timer that is pending, except one of 0 rounds, which it
    deletes before its only event; other timers that it deletes would call
    nothing more; it keeps or deletes, and changes none. *)
Theorem audit_safe (first : Z) (l : list tm_op) (Hl : Forall op_ok l) :
  exists c m, run_ops l (new_TimerManager first) = Ok (c, m) /\
  forall tid t, t_map m !! tid = Some t ->
    (t_map (auditTimer m) !! tid = Some t \/ t_map (auditTimer m) !! tid = None) /\
    (is_Some (_event t) -> t_map (auditTimer m) !! tid = if decide (_round t = 0) then None else Some t) /\
    (t_map (auditTimer m) !! tid = None -> is_Some (_event t) \/ forall n, fires n t = Ok ([], t)).
Proof.
  destruct (run_ops_keeps l (new_TimerManager first) Hl) as (c & m & Hm & Hok).
  { by apply map_Forall_empty. }
  exists c, m. split; [done|]. intros tid t Ht. rewrite (auditTimer_lookup m tid t Ht).
  destruct (Hok tid t Ht) as [Hs Hr _]. unfold round_ok in Hr.
  split; [destruct (isFinished t); auto|]. split.
  - intros [e He]. destruct Hs as [?|? _ _ ? ? _|?]; [congruence| |congruence]. unfold isFinished.
    case_decide; [by bool_true (_round t <=? _curRound t)|by bool_false (_round t <=? _curRound t)].
  - intros _. destruct (_event t) eqn:E; [by left; eexists|right]. intros n. by apply fires_unarmed.
Qed.

(** A timer of no rounds is pending and deleted by the audit, before its
    only event. *)
Example audit_zero_rounds :
  event_new_ok false = true -> event_add_ok (1, 0) = true ->
  let t := (startRounds 1000 0 (UserHandler 7) new_Timer).2 in
  _event t = Some (mk_event false (1, 0)) /\ isFinished t = true.
Proof. intros Hn Ha. rewrite startRounds_ok by done. done. Qed.
End correct.

(** libevent when nothing fails. *)
#[export] Instance libevent_all : Libevent :=
  {| event_new_ok _ := true; event_add_ok _ := true; cb_result _ _ _ := 0 |}.

Lemma timer_rounds_witness :
  exists t1, startRounds 1500 3 (UserHandler 7) new_Timer = (true, t1) /\
  forall n, exists t2,
    fires n t1 = Ok (replicate (n `min` 3) (Call 7), t2) /\
    (is_Some (_event t2) <-> Z.of_nat n < 3) /\ (_event t2 = None -> isFinished t2 = true).
Proof. apply (timer_rounds (L := libevent_all) 1500 3 7 new_Timer); vm_compute; repeat split; congruence. Defined.

Lemma audit_safe_witness :
  let l := [StartTimer 10 2 (UserHandler 1); StartTimerAfter 5 10 3 (UserHandler 2);
            Fire 1; Fire 0; StartTimerCB 7 3 4 5; KillTimer 2; Fire 0] in
  exists c m, run_ops l (new_TimerManager 0) = Ok (c, m) /\
  forall tid t, t_map m !! tid = Some t ->
    (t_map (auditTimer m) !! tid = Some t \/ t_map (auditTimer m) !! tid = None) /\
    (is_Some (_event t) -> t_map (auditTimer m) !! tid = if decide (_round t = 0) then None else Some t) /\
    (t_map (auditTimer m) !! tid = None -> is_Some (_event t) \/ forall n, fires n t = Ok ([], t)).
Proof.
  apply (audit_safe (L := libevent_all)). repeat constructor; vm_compute; congruence.
Defined.
