(* ===== verification/Tasks.v ===== *)
(** * Tasks: tasks, their queues and their manager (task_base.hpp,
    task_manager.hpp, util.hpp of task_base, task_base.cpp, task_manager.cpp)

    A task has a thread that runs an event loop, a queue of messages guarded
    by a mutex, and an eventfd that wakes the loop. A sender puts a message in
    the queue and then writes the eventfd; the loop reads the eventfd, swaps
    the queue with a private one and handles what it holds. The task manager
    finds tasks by their names; its own task, task0, asks the others for a sign
    of life.

    The operations that several threads interleave are split where the code
    takes or leaves a lock or makes a system call ([act]); [step] is one such
    piece of any thread. [None] is a C++ exception that nothing catches, or a
    use of [NULL]. The map of tasks is not locked; as its comments say, it does
    not change once the tasks run. *)
From S2P Require Import Prelude Mem Reply StdMap Timers.
From stdpp Require Import list list_numbers strings sets gmap.
From Stdlib Require Import ZArith Lia.
Open Scope Z_scope.

(** ** Messages *)
Inductive MSG_TYPE : Type :=
  | TASK_HB | TASK_RESTART | TASK_PUT | TASK_GET | TASK_DEL | TASK_PING
  | TASK_REDIS_ADD_CONN | TASK_REDIS_DEL_CONN | TASK_REDIS_RAW | TASK_REDIS_FORMAT_RAW
  | TASK_REDIS_PUT | TASK_REDIS_GET | TASK_REDIS_DEL | TASK_REDIS_PING
  | TASK_HB_RSP | TASK_REDIS_RESTART | TASK_HB_REQ | TASK_MAX.

#[export] Instance MSG_TYPE_eq_dec : EqDecision MSG_TYPE.
Proof. solve_decision. Defined.

(** [TASK_REDIS_RAW_MSG] and [TASK_REDIS_FORMAT_RAW_MSG] have the same fields. *)
Record TASK_REDIS_MSG : Type := mk_redis_msg {
  usr_data : Z;
  msg_cb : Z;
  msg_body : bytes
}.

Record add_conn_payload : Type := mk_add_conn {
  pl_ip : bytes;
  pl_port : Z
}.

(** What an [any] holds: a value with its type. *)
Inductive TASK_ANY : Type :=
  | AnyString (s : bytes)
  | AnyRaw (m : TASK_REDIS_MSG)
  | AnyFormatRaw (m : TASK_REDIS_MSG)
  | AnyAddConn (p : add_conn_payload).

(** [TASK_ANY_CAST] throws when the type is another. *)
Definition cast_string (a : TASK_ANY) : option bytes :=
  match a with AnyString s => Some s | _ => None end.
Definition cast_raw (a : TASK_ANY) : option TASK_REDIS_MSG :=
  match a with AnyRaw m => Some m | _ => None end.
Definition cast_format_raw (a : TASK_ANY) : option TASK_REDIS_MSG :=
  match a with AnyFormatRaw m => Some m | _ => None end.
Definition cast_add_conn (a : TASK_ANY) : option add_conn_payload :=
  match a with AnyAddConn p => Some p | _ => None end.

Record TASK_MSG : Type := mk_msg {
  msg_type : MSG_TYPE;
  msg_seq_id : Z;
  msg_from : bytes;
  msg_to : bytes;
  msg_any : TASK_ANY
}.

Definition TASK0 : bytes := lit "task0".
Definition TASK_HB_INTERVAL : Z := 5000.

(** The handler that [start_hb] gives its timer. *)
Definition HB_HANDLER : Handler := UserHandler 1.

(** ** Tasks

    [W] is the state of the tasks of the application: a class derived from
    [task_base] with its [on_message]. The other events of its loop change it
    along [worker_event], and the threads of the application send the messages
    of [app_sends] to tasks. *)
Class Worker (W : Type) := {
  worker_message : W -> TASK_MSG -> option W;
  worker_event : W -> W -> Prop;
  app_sends : bytes -> TASK_MSG -> Prop
}.

(** The fields of [manager_task]; [first_loop] belongs to its thread. *)
Record manager_task : Type := mk_manager {
  hb_map : list (bytes * bool);
  _hb_tid : Z;
  first_loop : bool
}.

Inductive derived (W : Type) : Type :=
  | ManagerTask (m : manager_task)
  | WorkerTask (w : W).
Arguments ManagerTask {W} m.
Arguments WorkerTask {W} w.

Record task_base (W : Type) : Type := mk_task {
  _hb_itval : Z;
  _task_queue : list TASK_MSG;
  _tmp_task_queue : list TASK_MSG;
  _name : bytes;
  _evfd : Z;
  _timer_mgr : TimerManager;
  _detail_info : Z;
  running : bool;
  this : derived W
}.
Arguments mk_task {W}.
Arguments _hb_itval {W} t : rename.
Arguments _task_queue {W} t : rename.
Arguments _tmp_task_queue {W} t : rename.
Arguments _name {W} t : rename.
Arguments _evfd {W} t : rename.
Arguments _timer_mgr {W} t : rename.
Arguments _detail_info {W} t : rename.
Arguments running {W} t : rename.
Arguments this {W} t : rename.

(** The tasks by their pointers, and the counters of the eventfds. *)
Record task_manager (W : Type) : Type := mk_tasks {
  task_map : list (bytes * Z);
  objects : gmap Z (task_base W);
  eventfds : gmap Z Z;
  mgr_hb_itval : Z;
  _seq_id : Z
}.
Arguments mk_tasks {W}.
Arguments task_map {W} s : rename.
Arguments objects {W} s : rename.
Arguments eventfds {W} s : rename.
Arguments mgr_hb_itval {W} s : rename.
Arguments _seq_id {W} s : rename.

Section tasks.
Context {W : Type} {worker : Worker W} {L : Libevent}.
Implicit Types (t : task_base W) (s : task_manager W) (m : TASK_MSG).

(** ** Updates of fields *)
Definition set_queues t (q tmp : list TASK_MSG) : task_base W :=
  mk_task (_hb_itval t) q tmp (_name t) (_evfd t) (_timer_mgr t) (_detail_info t)
    (running t) (this t).
Definition set_this t (d : derived W) : task_base W :=
  mk_task (_hb_itval t) (_task_queue t) (_tmp_task_queue t) (_name t) (_evfd t)
    (_timer_mgr t) (_detail_info t) (running t) d.
Definition set_timers t (itval : Z) (tm : TimerManager) : task_base W :=
  mk_task itval (_task_queue t) (_tmp_task_queue t) (_name t) (_evfd t)
    tm (_detail_info t) (running t) (this t).
Definition set_task_detail_info (info : Z) t : task_base W :=
  mk_task (_hb_itval t) (_task_queue t) (_tmp_task_queue t) (_name t) (_evfd t)
    (_timer_mgr t) info (running t) (this t).
Definition set_loop t (fd : Z) (run : bool) : task_base W :=
  mk_task (_hb_itval t) (_task_queue t) (_tmp_task_queue t) (_name t) fd
    (_timer_mgr t) (_detail_info t) run (this t).
Definition set_object s (p : Z) t : task_manager W :=
  mk_tasks (task_map s) (<[p := t]> (objects s)) (eventfds s) (mgr_hb_itval s) (_seq_id s).
Definition set_eventfd s (fd n : Z) : task_manager W :=
  mk_tasks (task_map s) (objects s) (<[fd := n]> (eventfds s)) (mgr_hb_itval s) (_seq_id s).
Definition set_task_map s (tm : list (bytes * Z)) : task_manager W :=
  mk_tasks tm (objects s) (eventfds s) (mgr_hb_itval s) (_seq_id s).

(** The constructors. [_detail_info] is left uninitialised by the code; it is 0
    here. *)
Definition new_task (name : bytes) (w : W) : task_base W :=
  mk_task TASK_HB_INTERVAL [] [] name (-1) loop_TimerManager 0 false (WorkerTask w).
Definition new_manager_task : task_base W :=
  mk_task TASK_HB_INTERVAL [] [] TASK0 (-1) loop_TimerManager 0 false
    (ManagerTask (mk_manager [] 0 true)).
Definition new_task_manager : task_manager W := mk_tasks [] ∅ ∅ 5000 0.

(** ** Sending *)
Definition in_queue (p : Z) m s : option (task_manager W) :=
  t ← objects s !! p;
  Some (set_object s p (set_queues t (_task_queue t ++ [m]) (_tmp_task_queue t))).

(** [write] of 1 to an eventfd; a counter has at most [2^64 - 2], and the
    write fails rather than go beyond. *)
Definition write_evfd (fd : Z) s : bool * task_manager W :=
  match eventfds s !! fd with
  | Some n => if n + 1 <=? 2 ^ 64 - 2 then (true, set_eventfd s fd (n + 1)) else (false, s)
  | None => (false, s)
  end.

(** [read] of an eventfd: the counter, which becomes 0. *)
Definition read_evfd (fd : Z) s : option (Z * task_manager W) :=
  match eventfds s !! fd with
  | Some n => if n =? 0 then None else Some (n, set_eventfd s fd 0)
  | None => None
  end.

(** Without another thread in between. *)
Definition send2task (name : bytes) m s : option (bool * task_manager W) :=
  match std_find name (task_map s) with
  | None => Some (false, s)
  | Some p =>
      s ← in_queue p m s;
      t ← objects s !! p;
      Some (write_evfd (_evfd t) s)
  end.

(** The message that the first form of [send2task] builds. *)
Definition new_msg (type : MSG_TYPE) (body : TASK_ANY) (seq_id : Z) : TASK_MSG :=
  mk_msg type seq_id [] [] body.

(** ** Pieces of threads *)
Inductive act : Type :=
  | InQueue (p : Z) (m : TASK_MSG)
  | WriteFd (p : Z)
  | ReadFd (p : Z)
  | SwapQueues (p : Z)
  | HandleMsgs (p : Z).

(** [send2task] as pieces. *)
Definition send2task_acts (name : bytes) m s : list act :=
  match std_find name (task_map s) with
  | None => []
  | Some p => [InQueue p m; WriteFd p]
  end.

(** [evfdCallback] and [process_msg]. *)
Definition evfdCallback (p : Z) : list act := [ReadFd p; SwapQueues p; HandleMsgs p].

(** What a piece tells: a message has been put in a queue, or handled, or a
    task restarted. *)
Inductive note : Type :=
  | Sent (p : Z) (m : TASK_MSG)
  | Handled (p : Z) (m : TASK_MSG)
  | Restarted (p : Z).

(** ** Handling *)
Definition manager_on_message (d : manager_task) m : option manager_task :=
  if decide (msg_type m = TASK_HB_RSP) then
    name ← cast_string (msg_any m);
    Some (mk_manager (std_set name true (hb_map d)) (_hb_tid d) (first_loop d))
  else Some d.

Definition on_message (d : derived W) m : option (derived W) :=
  match d with
  | ManagerTask d => ManagerTask <$> manager_on_message d m
  | WorkerTask w => WorkerTask <$> worker_message w m
  end.

(** The response to a heartbeat request: the message with another type and
    body. *)
Definition hb_response (name : bytes) m : TASK_MSG :=
  mk_msg TASK_HB_RSP (msg_seq_id m) (msg_from m) (msg_to m) (AnyString name).

(** One round of the loop of [process_msg]: the rest of the thread's code. *)
Definition handle_msg (p : Z) s : option (list note * list act * task_manager W) :=
  t ← objects s !! p;
  match _tmp_task_queue t with
  | [] => Some ([], [], s)
  | m :: rest =>
      if decide (msg_type m = TASK_HB_REQ) then
        let t := set_queues t (_task_queue t) rest in
        if decide (_name t = TASK0) then
          d ← on_message (this t) m;
          Some ([Handled p m], [HandleMsgs p], set_object s p (set_this t d))
        else
          Some ([Handled p m],
                send2task_acts TASK0 (hb_response (_name t) m) s ++ [HandleMsgs p],
                set_object s p t)
      else
        d ← on_message (this t) m;
        Some ([Handled p m], [HandleMsgs p],
              set_object s p (set_this (set_queues t (_task_queue t) rest) d))
  end.

(** One piece, followed by [k]. *)
Definition exec (a : act) (k : list act) s : option (list note * list act * task_manager W) :=
  match a with
  | InQueue p m => s ← in_queue p m s; Some ([Sent p m], k, s)
  | WriteFd p => t ← objects s !! p; Some ([], k, (write_evfd (_evfd t) s).2)
  | ReadFd p =>
      t ← objects s !! p;
      match read_evfd (_evfd t) s with
      | Some (_, s) => Some ([], k, s)
      | None => Some ([], [], s)
      end
  | SwapQueues p =>
      t ← objects s !! p;
      Some ([], k, set_object s p (set_queues t (_tmp_task_queue t) (_task_queue t)))
  | HandleMsgs p => '(l, c, s) ← handle_msg p s; Some (l, c ++ k, s)
  end.

(** ** The heartbeat *)

(** The loop over [hb_map]: the tasks to restart, and whether it came to its
    end; it leaves the whole handler at a task that is gone. *)
Fixpoint hb_check (hb : list (bytes * bool)) (tmp_task_map : list (bytes * Z)) : list Z * bool :=
  match hb with
  | [] => ([], true)
  | (name, rsp) :: hb =>
      if decide (name = TASK0) then hb_check hb tmp_task_map
      else if rsp then hb_check hb tmp_task_map
      else match std_find name tmp_task_map with
           | None => ([], false)
           | Some p => let '(l, b) := hb_check hb tmp_task_map in (p :: l, b)
           end
  end.

Definition hb_reset (tmp_task_map : list (bytes * Z)) : list (bytes * bool) :=
  foldl (fun hb it => std_insert it.1 false hb) [] tmp_task_map.

(** The loop of [send_hb_all] over the map: the pieces, and the next number. *)
Fixpoint hb_requests (it : list (bytes * Z)) (seq_id : Z) s : list act * Z :=
  match it with
  | [] => ([], seq_id)
  | (name, _) :: it =>
      if decide (name = TASK0) then hb_requests it seq_id s
      else
        let c := send2task_acts name (new_msg TASK_HB_REQ (AnyString name) seq_id) s in
        let '(k, n) := hb_requests it (u32 (seq_id + 1)) s in
        (c ++ k, n)
  end.

Definition send_hb_all s : list act * task_manager W :=
  let '(k, n) := hb_requests (task_map s) (_seq_id s) s in
  (k, mk_tasks (task_map s) (objects s) (eventfds s) (mgr_hb_itval s) n).

(** The handler of the timer, in task [p]: the restarts, what it sends.
    [restart] does nothing in the classes of the program. *)
Definition on_heartbeat (p : Z) s : option (list note * list act * task_manager W) :=
  t ← objects s !! p;
  match this t with
  | WorkerTask _ => None
  | ManagerTask d =>
      if first_loop d then
        Some ([], [], set_object s p (set_this t (ManagerTask (mk_manager (hb_map d) (_hb_tid d) false))))
      else
        let '(l, all) := hb_check (hb_map d) (task_map s) in
        if negb all then Some (Restarted <$> l, [], s) else
        let d := mk_manager (hb_reset (task_map s)) (_hb_tid d) (first_loop d) in
        let '(k, s) := send_hb_all (set_object s p (set_this t (ManagerTask d))) in
        Some (Restarted <$> l, k, s)
  end.

(** [getTimer] stores the number before the timer is started. *)
Definition start_hb t : option (task_base W) :=
  match this t with
  | WorkerTask _ => None
  | ManagerTask d =>
      let '(tid, tm) := getTimer (startForever (_hb_itval t) HB_HANDLER) (_timer_mgr t) in
      Some (set_this (set_timers t (_hb_itval t) tm)
              (ManagerTask (mk_manager (hb_map d) tid (first_loop d))))
  end.

(** [set_hb_interval] of the two classes. *)
Definition set_hb_interval (interval : Z) t : option (task_base W) :=
  match this t with
  | WorkerTask _ => Some (set_timers t interval (_timer_mgr t))
  | ManagerTask d =>
      let t := set_timers t interval (_timer_mgr t) in
      if negb (_hb_tid d =? 0) then
        start_hb (set_timers t interval (killTimer (_hb_tid d) (_timer_mgr t)).2)
      else Some t
  end.

(** ** The manager's operations *)

(** A task is given by its pointer. *)
Definition add_tasks (task : Z) s : option (bool * task_manager W) :=
  t ← objects s !! task;
  Some (true, set_task_map s (std_set (_name t) task (task_map s))).

Definition del_tasks (name : bytes) s : bool * task_manager W :=
  (true, set_task_map s (std_erase name (task_map s))).

Definition get_task_id (name : bytes) s : option Z :=
  match std_find name (task_map s) with
  | None => Some (-1)
  | Some p => _evfd <$> objects s !! p
  end.

(** Returns at the first task of the map, whatever it is; 0 is [nullptr]. *)
Definition get_task_ptr_p_with_detail_info (info : Z) s : option Z :=
  match task_map s with
  | [] => Some NULL
  | (_, p) :: _ => t ← objects s !! p; Some (if _detail_info t =? info then p else NULL)
  end.

(** The parameter hides the field of the same name, which it is meant to set. *)
Definition set_manager_hb_interval (interval : Z) s : option (task_manager W) :=
  p ← std_find TASK0 (task_map s);
  t ← objects s !! p;
  t ← set_hb_interval interval t;
  Some (set_object s p t).

Definition on_before_loop t : option (task_base W) :=
  match this t with ManagerTask _ => start_hb t | WorkerTask _ => Some t end.

(** [init] of a task. [fd] is what [eventfd] returns and [ev_ok] whether the
    event on it can be made. The task's code starts when its loop does. *)
Definition init_task (fd : Z) (ev_ok : bool) (p : Z) s : option (bool * task_manager W) :=
  t ← objects s !! p;
  if fd <? 0 then Some (false, set_object s p (set_loop t fd false)) else
  let s := set_eventfd s fd 0 in
  if negb ev_ok then Some (false, set_object s p (set_loop t fd false)) else
  t ← on_before_loop (set_loop t fd false);
  Some (true, set_object s p (set_loop t fd true)).

(** The loop of [init] over the tasks other than task0. *)
Fixpoint init_tasks (os : Z -> Z * bool) (it : list (bytes * Z)) s : option (task_manager W) :=
  match it with
  | [] => Some s
  | (name, p) :: it =>
      if decide (name = TASK0) then init_tasks os it s
      else '(_, s) ← init_task (os p).1 (os p).2 p s; init_tasks os it s
  end.

(** [init] of the manager: [p0] is the pointer of the new [manager_task].
    With [_poll] the loop of task0 runs in the caller's thread. *)
Definition init (os : Z -> Z * bool) (p0 : Z) s : option (bool * task_manager W) :=
  '(_, s) ← add_tasks p0 (set_object s p0 new_manager_task);
  match std_find TASK0 (task_map s) with
  | None => Some (false, s)
  | Some _ =>
      s ← init_tasks os (task_map s) s;
      p ← std_find TASK0 (task_map s);
      t ← objects s !! p;
      t ← set_hb_interval (mgr_hb_itval s) t;
      '(_, s) ← init_task (os p).1 (os p).2 p (set_object s p t);
      Some (true, s)
  end.

(** ** Threads

    [code] is what remains of each thread's code: the thread of a task has the
    task's pointer as its key and is in its event loop when nothing remains; the
    other keys are threads of the application. *)
Record system : Type := mk_system {
  mgr : task_manager W;
  code : gmap Z (list act)
}.

(** A thread executes a piece, or the loop of a task finds its eventfd
    readable. *)
Inductive work : system -> list note -> system -> Prop :=
  | Work_act s c k p a l k' s' :
      c !! p = Some (a :: k) -> exec a k s = Some (l, k', s') ->
      work (mk_system s c) l (mk_system s' (<[p := k']> c))
  | Work_wake s c p t n :
      c !! p = Some [] -> objects s !! p = Some t -> running t = true ->
      eventfds s !! _evfd t = Some n -> 0 < n ->
      work (mk_system s c) [] (mk_system s (<[p := evfdCallback p]> c)).

(** What comes from outside: the application sends a message, the heartbeat
    timer of task0 fires, another event happens in a task. *)
Inductive stimulus : system -> list note -> system -> Prop :=
  | Client s c p name m :
      c !! p = Some [] -> objects s !! p = None -> app_sends name m ->
      stimulus (mk_system s c) [] (mk_system s (<[p := send2task_acts name m s]> c))
  | Heartbeat s c p t tid tm l k s' :
      c !! p = Some [] -> objects s !! p = Some t -> running t = true ->
      timer_fires tid (_timer_mgr t) = Ok ([Call 1], tm) ->
      on_heartbeat p (set_object s p (set_timers t (_hb_itval t) tm)) = Some (l, k, s') ->
      stimulus (mk_system s c) l (mk_system s' (<[p := k]> c))
  | Event s c p t w w' :
      c !! p = Some [] -> objects s !! p = Some t -> running t = true ->
      this t = WorkerTask w -> worker_event w w' ->
      stimulus (mk_system s c) [] (mk_system (set_object s p (set_this t (WorkerTask w'))) c).

Definition step (x : system) (l : list note) (y : system) : Prop :=
  work x l y \/ stimulus x l y.

(** Runs, with what they tell. *)
Inductive run (R : system -> list note -> system -> Prop) : system -> list note -> system -> Prop :=
  | Run_refl x : run R x [] x
  | Run_step x l y l' z : R x l y -> run R y l' z -> run R x (l ++ l') z.

(** Every thread is where it waits for something from outside. *)
Definition quiet (x : system) : Prop :=
  forall p k, code x !! p = Some k -> k = [] /\
  forall t, objects (mgr x) !! p = Some t -> running t = true ->
  eventfds (mgr x) !! _evfd t = Some 0.

(** The threads after [init]: one in each loop, [clients] of the application. *)
Definition started (s : task_manager W) (clients : list Z) : system :=
  mk_system s (gset_to_gmap [] (dom (filter (fun x => running x.2 = true) (objects s)) ∪
                                list_to_set (filter (fun p => objects s !! p = None) clients))).

(** What has been put in the queue of [p], and handled there. *)
Definition sent_to (p : Z) (l : list note) : list TASK_MSG :=
  omap (fun n => match n with Sent q m => if decide (q = p) then Some m else None | _ => None end) l.
Definition handled_by (p : Z) (l : list note) : list TASK_MSG :=
  omap (fun n => match n with Handled q m => if decide (q = p) then Some m else None | _ => None end) l.
Definition restarted (l : list note) : list Z :=
  omap (fun n => match n with Restarted q => Some q | _ => None end) l.
End tasks.
Arguments system W : clear implicits.
