(* ===== verification/TasksFacts.v ===== *)
(** * TasksFacts: the invariant of the tasks

    What remains of each thread's code has one of four shapes ([shape]); a
    private queue is not empty only while its thread handles it; a queue that
    is not empty has a wake-up on the way ([awake]). *)
From S2P Require Import Prelude Mem Reply StdMap Timers Tasks.
From stdpp Require Import list list_numbers strings sets gmap.
From Stdlib Require Import ZArith Lia.
Open Scope Z_scope.

(** The stdpp notation for [option]'s bind, inverted. *)
Ltac inv_opt :=
  repeat match goal with
  | H : mbind _ _ = Some _ |- _ =>
      let a := fresh "a" in let E := fresh "E" in
      apply bind_Some in H as (a & E & H)
  | H : Some _ = Some _ |- _ => injection H as H; subst
  end.

Section facts.
Context {W : Type} {worker : Worker W} {L : Libevent}.
Implicit Types (t : task_base W) (s : task_manager W) (x : system W) (m : TASK_MSG).

(** ** The shapes of code *)
Definition is_task s (p : Z) : Prop := is_Some (objects s !! p).

Inductive sends s : list act -> Prop :=
  | Sends_nil : sends s []
  | Sends_write q k : is_task s q -> sends s k -> sends s (WriteFd q :: k)
  | Sends_queue q m k : is_task s q -> sends s k -> sends s (InQueue q m :: WriteFd q :: k).

Inductive shape s (p : Z) : list act -> Prop :=
  | Sh_sends k : sends s k -> shape s p k
  | Sh_handle k : is_task s p -> sends s k -> shape s p (k ++ [HandleMsgs p])
  | Sh_swap : is_task s p -> shape s p [SwapQueues p; HandleMsgs p]
  | Sh_read : is_task s p -> shape s p (evfdCallback p).

(** ** The invariant *)
Definition pending_write x (p : Z) : Prop :=
  exists q k, code x !! q = Some k /\ WriteFd p ∈ k.

Definition awake x (p : Z) t : Prop :=
  (exists n, eventfds (mgr x) !! _evfd t = Some n /\ 0 < n) \/
  pending_write x p \/
  (exists k, code x !! p = Some (SwapQueues p :: k)).

(** What the tasks keep: their names, descriptors and threads. *)
Record wf s : Prop := {
  wf_map name p : std_find name (task_map s) = Some p ->
    exists t, objects s !! p = Some t /\ _name t = name;
  wf_self p t : objects s !! p = Some t -> running t = true ->
    std_find (_name t) (task_map s) = Some p;
  wf_fd p t : objects s !! p = Some t -> running t = true ->
    exists n, eventfds s !! _evfd t = Some n /\ 0 <= n;
  wf_inj p q t u : objects s !! p = Some t -> objects s !! q = Some u ->
    running t = true -> running u = true -> _evfd t = _evfd u -> p = q
}.

Record inv x : Prop := {
  inv_wf : wf (mgr x);
  inv_shape p k : code x !! p = Some k -> shape (mgr x) p k;
  inv_thread p t : objects (mgr x) !! p = Some t ->
    is_Some (code x !! p) <-> running t = true;
  inv_tmp p t : objects (mgr x) !! p = Some t -> _tmp_task_queue t <> [] ->
    exists k, sends (mgr x) k /\ code x !! p = Some (k ++ [HandleMsgs p]);
  inv_awake p t : objects (mgr x) !! p = Some t -> running t = true ->
    _task_queue t <> [] -> awake x p t;
  inv_read p t k : objects (mgr x) !! p = Some t -> code x !! p = Some (ReadFd p :: k) ->
    exists n, eventfds (mgr x) !! _evfd t = Some n /\ 0 < n
}.

(** ** Steps that keep the tasks *)
Definition is_manager (d : derived W) : bool :=
  match d with ManagerTask _ => true | WorkerTask _ => false end.

Definition task_key t : bytes * Z * bool * bool :=
  (_name t, _evfd t, running t, is_manager (this t)).

Record same_tasks s s' : Prop := {
  same_map : task_map s' = task_map s;
  same_key p : task_key <$> objects s' !! p = task_key <$> objects s !! p
}.

Lemma same_tasks_lookup s s' p t' : same_tasks s s' -> objects s' !! p = Some t' ->
  exists t, objects s !! p = Some t /\ task_key t' = task_key t.
Proof.
  intros [_ Hk] Ht. specialize (Hk p). rewrite Ht in Hk. simpl in Hk.
  symmetry in Hk. apply fmap_Some in Hk as (t & ? & ?). eauto.
Qed.

Lemma same_tasks_sym s s' : same_tasks s s' -> same_tasks s' s.
Proof. intros [Hm Hk]. by split. Qed.

Lemma same_tasks_is s s' p : same_tasks s s' -> is_task s p -> is_task s' p.
Proof.
  intros Hs%same_tasks_sym [t Ht]. eapply same_tasks_lookup in Ht as (t' & ? & _); [|done].
  by exists t'.
Qed.

Lemma same_tasks_object s p t t' : objects s !! p = Some t -> task_key t' = task_key t ->
  same_tasks s (set_object s p t').
Proof.
  intros Ht Hk. split; [done|]. intros q. simpl.
  destruct (decide (p = q)) as [->|]; [|by rewrite lookup_insert_ne].
  rewrite lookup_insert_eq, Ht. change (Some (task_key t') = Some (task_key t)). by rewrite Hk.
Qed.

Lemma same_tasks_eventfd s fd n : same_tasks s (set_eventfd s fd n).
Proof. by split. Qed.

Lemma same_tasks_refl s : same_tasks s s.
Proof. by split. Qed.

Lemma sends_same s s' k : same_tasks s s' -> sends s k -> sends s' k.
Proof.
  intros Hs. induction 1; constructor; eauto using same_tasks_is.
Qed.

Lemma shape_same s s' p k : same_tasks s s' -> shape s p k -> shape s' p k.
Proof.
  intros Hs. destruct 1;
    [apply Sh_sends|apply Sh_handle|apply Sh_swap|apply Sh_read];
    eauto using same_tasks_is, sends_same.
Qed.

Definition fds_grow s s' : Prop :=
  forall fd n, eventfds s !! fd = Some n -> 0 <= n ->
  exists n', eventfds s' !! fd = Some n' /\ 0 <= n'.

Lemma fds_same s s' : eventfds s' = eventfds s -> fds_grow s s'.
Proof. intros He fd n Hn. rewrite He. eauto. Qed.

Lemma wf_same s s' : same_tasks s s' -> fds_grow s s' -> wf s -> wf s'.
Proof.
  intros Hs Hf [Hm Hsf Hd Hi]. split.
  - intros name p Hp. rewrite (same_map _ _ Hs) in Hp. apply Hm in Hp as (t & Ht & Hn).
    eapply same_tasks_lookup in Ht as (t' & Ht' & Hk); [|by apply same_tasks_sym].
    exists t'. split; [done|]. unfold task_key in Hk. congruence.
  - intros p t' Ht' Hr. eapply same_tasks_lookup in Ht' as (t & Ht & Hk); [|done].
    injection Hk as -> _ Hr' _. rewrite (same_map _ _ Hs). apply Hsf; congruence.
  - intros p t' Ht' Hr. eapply same_tasks_lookup in Ht' as (t & Ht & Hk); [|done].
    unfold task_key in Hk. injection Hk as _ He Hr' _. rewrite Hr in Hr'.
    destruct (Hd p t) as (n & Hn & Hn0); [done..|]. rewrite He. by eapply Hf.
  - intros p q t' u' Ht' Hu' Hr1 Hr2 He.
    eapply same_tasks_lookup in Ht' as (t & Ht & Hk); [|done].
    eapply same_tasks_lookup in Hu' as (u & Hu & Hk'); [|done].
    unfold task_key in Hk, Hk'. eapply Hi; [exact Ht|exact Hu|congruence..].
Qed.

(** Another thread's view of a step that replaces one code by another. *)
Lemma pending_write_step s c s' q a k k' p :
  c !! q = Some (a :: k) -> a <> WriteFd p -> (forall b, b ∈ k -> b ∈ k') ->
  pending_write (mk_system s c) p -> pending_write (mk_system s' (<[q := k']> c)) p.
Proof.
  intros Hq Ha Hk (r & kr & Hr & Hin). simpl in *. destruct (decide (r = q)) as [->|].
  - exists q, k'. simpl. rewrite lookup_insert_eq. split; [done|]. rewrite Hq in Hr.
    injection Hr as <-. apply elem_of_cons in Hin as [<-|Hin]; [done|]. by apply Hk.
  - exists r, kr. simpl. by rewrite lookup_insert_ne.
Qed.

Lemma pending_write_idle s c s' q k' p :
  c !! q = Some [] ->
  pending_write (mk_system s c) p -> pending_write (mk_system s' (<[q := k']> c)) p.
Proof.
  intros Hq (r & kr & Hr & Hin). simpl in *. destruct (decide (r = q)) as [->|].
  - rewrite Hq in Hr. injection Hr as <-. by apply not_elem_of_nil in Hin.
  - exists r, kr. simpl. by rewrite lookup_insert_ne.
Qed.

(** ** Reading a shape off the next piece *)
Lemma sends_no_read s r k : ~ sends s (ReadFd r :: k).
Proof. by inversion 1. Qed.

Lemma shape_cons s p a k : shape s p (a :: k) ->
  match a with
  | InQueue q m => is_task s q /\ shape s p k /\ exists k', k = WriteFd q :: k'
  | WriteFd q => is_task s q /\ shape s p k /\ forall r k', k <> ReadFd r :: k'
  | ReadFd q => q = p /\ is_task s p /\ k = [SwapQueues p; HandleMsgs p]
  | SwapQueues q => q = p /\ is_task s p /\ k = [HandleMsgs p]
  | HandleMsgs q => q = p /\ is_task s p /\ k = []
  end.
Proof.
  intros Hs. inversion Hs as [k0 Hk E|k0 Ht Hk E|Ht E|Ht E]; subst.
  - inversion Hk; subst; split_and?; eauto using Sh_sends, Sends_write.
    intros r k' ->. by eapply sends_no_read.
  - destruct k0 as [|b k0]; injection E as <- <-; [done|].
    inversion Hk; subst; split_and?; eauto using Sh_handle.
    + intros r k' E. destruct k0; [done|]; injection E as -> _. by eapply sends_no_read.
    + apply (Sh_handle s p (_ :: _)); [done|by constructor].
  - done.
  - done.
Qed.

Lemma shape_nil_sends s p : shape s p [].
Proof. apply Sh_sends. constructor. Qed.

Lemma sends_app s k k' : sends s k -> sends s k' -> sends s (k ++ k').
Proof. induction 1; simpl; [done|..]; intros; constructor; auto. Qed.

Lemma sends_last s k p : sends s k -> ~ HandleMsgs p ∈ k.
Proof.
  induction 1; rewrite ?elem_of_cons; [apply not_elem_of_nil|naive_solver..].
Qed.

Lemma send2task_sends s name m : wf s -> sends s (send2task_acts name m s).
Proof.
  intros Hw. unfold send2task_acts. destruct (std_find name (task_map s)) as [p|] eqn:E;
    [|constructor].
  apply (wf_map s Hw) in E as (t & Ht & _). repeat constructor; by exists t.
Qed.

Lemma hb_requests_sends s it n : wf s -> sends s (hb_requests it n s).1.
Proof.
  intros Hw. revert n. induction it as [|[name p] it IH]; intros n; simpl; [constructor|].
  case_decide; [done|]. destruct (hb_requests it _ s) as [k n'] eqn:E. simpl.
  apply sends_app; [by apply send2task_sends|]. change k with (k, n').1. by rewrite <- E.
Qed.

(** The code of a thread that is handling messages. *)
Definition handling s (p : Z) (k : list act) : Prop :=
  exists k', sends s k' /\ k = k' ++ [HandleMsgs p].

Lemma handling_tail s p a k : handling s p (a :: k) -> (forall q, a <> HandleMsgs q) ->
  handling s p k.
Proof.
  intros (k' & Hk' & E) Ha. destruct k' as [|b k']; injection E as -> ->; [by destruct (Ha p)|].
  inversion Hk'; subst; [by exists k'|]. eexists (_ :: _). split; [|done]. by constructor.
Qed.

(** ** Building the invariant after a step of thread [q] *)
Definition keeps_counters s s' (q : Z) : Prop :=
  forall p t n, p <> q -> objects s !! p = Some t -> running t = true ->
  eventfds s !! _evfd t = Some n -> 0 < n ->
  exists n', eventfds s' !! _evfd t = Some n' /\ 0 < n'.

Lemma keeps_counters_same s s' q : eventfds s' = eventfds s -> keeps_counters s s' q.
Proof. intros He p t n _ _ _. rewrite He. eauto. Qed.

Lemma inv_update s c s' q k k' :
  inv (mk_system s c) -> c !! q = Some k ->
  same_tasks s s' -> fds_grow s s' -> keeps_counters s s' q -> shape s' q k' ->
  (forall p t', objects s' !! p = Some t' -> _tmp_task_queue t' <> [] ->
     if decide (p = q) then handling s' p k'
     else exists t, objects s !! p = Some t /\ _tmp_task_queue t = _tmp_task_queue t') ->
  (forall p t', objects s' !! p = Some t' -> running t' = true -> _task_queue t' <> [] ->
     awake (mk_system s' (<[q := k']> c)) p t') ->
  (forall t k1, objects s' !! q = Some t -> k' = ReadFd q :: k1 ->
     exists n, eventfds s' !! _evfd t = Some n /\ 0 < n) ->
  inv (mk_system s' (<[q := k']> c)).
Proof.
  intros [Hw Hsh Hth Htmp Haw Hrd] Hq Hs Hf Hc Hk' Ht' Haw' Hrd'. simpl in *. split; simpl.
  - by eapply wf_same.
  - intros p k1 Hp. apply lookup_insert_Some in Hp as [[<- <-]|[Hne Hp]]; [done|].
    eapply shape_same; eauto.
  - intros p t' Hp. eapply same_tasks_lookup in Hp as (t & Ht & Hk); [|done].
    injection Hk as _ _ -> _. rewrite <- (Hth p t Ht).
    destruct (decide (p = q)) as [->|]; [|by rewrite lookup_insert_ne].
    rewrite lookup_insert_eq, Hq. split; eauto.
  - intros p t' Hp Hne. specialize (Ht' p t' Hp Hne). case_decide as Hd.
    + subst. destruct Ht' as (k1 & ? & ->). exists k1. by rewrite lookup_insert_eq.
    + destruct Ht' as (t & Ht & E). rewrite <- E in Hne.
      destruct (Htmp p t Ht Hne) as (k1 & Hk1 & E1). exists k1.
      rewrite lookup_insert_ne by done. split; [by eapply sends_same|done].
  - done.
  - intros p t' k1 Hp Hk1. apply lookup_insert_Some in Hk1 as [[<- ->]|[Hne Hk1]].
    + by eapply Hrd'.
    + eapply same_tasks_lookup in Hp as (t & Ht & Hk); [|done]. injection Hk as _ -> _ _.
      destruct (Hrd p t k1 Ht Hk1) as (n & Hn & Hn0).
      eapply Hc; eauto. apply (Hth p t Ht). by eexists.
Qed.

(** ** Pieces executed without another thread in between *)
Fixpoint run_acts (k : list act) s : option (task_manager W) :=
  match k with
  | [] => Some s
  | a :: k => '(_, _, s) ← exec a k s; run_acts k s
  end.

(** [send2task] is its pieces. *)
Lemma send2task_pieces name m s b s' : send2task name m s = Some (b, s') ->
  run_acts (send2task_acts name m s) s = Some s'.
Proof.
  unfold send2task, send2task_acts. intros H.
  destruct (std_find name (task_map s)) as [p|]; [|by injection H as _ ->].
  apply bind_Some in H as (s1 & E1 & H). apply bind_Some in H as (t & Ht & H).
  simpl. rewrite E1. simpl. rewrite Ht. simpl. by destruct (write_evfd _ _); injection H as _ ->.
Qed.
End facts.
