(* ===== verification/TasksInv.v ===== *)
(** * TasksInv: every step keeps the invariant of the tasks, and the order of
    each queue *)
From S2P Require Import Prelude Mem Reply StdMap Timers Tasks TasksFacts.
From stdpp Require Import list list_numbers strings sets gmap.
From Stdlib Require Import ZArith Lia.
Open Scope Z_scope.

Section steps.
Context {W : Type} {worker : Worker W} {L : Libevent}.
Implicit Types (t : task_base W) (s : task_manager W) (x : system W) (m : TASK_MSG).

(** What task [p] has been sent and has not handled. *)
Definition pending s (p : Z) : list TASK_MSG :=
  match objects s !! p with
  | Some t => _tmp_task_queue t ++ _task_queue t
  | None => []
  end.

(** A step that tells [l] takes [pending s] to [pending s']. *)
Definition flow s (l : list note) s' : Prop :=
  forall p, pending s p ++ sent_to p l = handled_by p l ++ pending s' p.

Lemma flow_refl s : flow s [] s.
Proof. intros p. simpl. by rewrite app_nil_r. Qed.

Lemma pending_object s p t q :
  pending (set_object s p t) q =
  if decide (p = q) then _tmp_task_queue t ++ _task_queue t else pending s q.
Proof.
  unfold pending. simpl. case_decide as Hd; subst.
  - by rewrite lookup_insert_eq.
  - by rewrite lookup_insert_ne.
Qed.

(** A step that leaves the queues alone. *)
Lemma flow_object s p t t' : objects s !! p = Some t ->
  _tmp_task_queue t' = _tmp_task_queue t -> _task_queue t' = _task_queue t ->
  flow s [] (set_object s p t').
Proof.
  intros Ht H1 H2 q. simpl. rewrite app_nil_r, pending_object. case_decide; [|done].
  subst. unfold pending. by rewrite Ht, H1, H2.
Qed.

Lemma write_evfd_same fd s : same_tasks s (write_evfd fd s).2 /\
  objects (write_evfd fd s).2 = objects s.
Proof. unfold write_evfd. repeat case_match; by split. Qed.

Lemma write_evfd_other fd s fd' n : eventfds s !! fd' = Some n -> 0 <= n ->
  exists n', eventfds (write_evfd fd s).2 !! fd' = Some n' /\ n <= n'.
Proof.
  intros Hn Hn0. unfold write_evfd. destruct (eventfds s !! fd) as [v|] eqn:E; [|eauto with lia].
  split_if; simpl; [|eauto with lia].
  destruct (decide (fd = fd')) as [->|]; simplify_map_eq; eexists; (split; [done|lia]).
Qed.

Lemma write_evfd_wakes fd s n : eventfds s !! fd = Some n -> 0 <= n ->
  exists n', eventfds (write_evfd fd s).2 !! fd = Some n' /\ 0 < n'.
Proof.
  intros Hn Hn0. unfold write_evfd. rewrite Hn. split_if; simpl.
  - eexists. rewrite lookup_insert_eq. split; [done|lia].
  - exists n. split; [done|lia].
Qed.

(** ** One lemma per piece *)
Lemma shape_of s c q k a : inv (mk_system s c) -> c !! q = Some (a :: k) -> shape s q (a :: k).
Proof. intros Hi Hq. by apply (inv_shape _ Hi). Qed.

Lemma handling_of s c q k a p t : inv (mk_system s c) -> c !! q = Some (a :: k) -> p = q ->
  objects s !! p = Some t -> _tmp_task_queue t <> [] -> handling s p (a :: k).
Proof.
  intros Hi Hq -> Ht Hne. destruct (inv_tmp _ Hi q t Ht Hne) as (k' & Hk' & E).
  simpl in E. rewrite Hq in E. injection E as E. by exists k'.
Qed.

Lemma handling_same s s' p k' : same_tasks s s' -> handling s p k' -> handling s' p k'.
Proof. intros Hs (k1 & ? & ->). exists k1. split; [by eapply sends_same|done]. Qed.

Lemma queue_step s c q k p m s' : inv (mk_system s c) -> c !! q = Some (InQueue p m :: k) ->
  in_queue p m s = Some s' ->
  inv (mk_system s' (<[q := k]> c)) /\ flow s [Sent p m] s'.
Proof.
  intros Hi Hq Hs. unfold in_queue in Hs. inv_opt.
  pose proof (shape_of _ _ _ _ _ Hi Hq) as Hsh. apply shape_cons in Hsh as (_ & Hsh & k1 & Ek).
  set (t' := set_queues a (_task_queue a ++ [m]) (_tmp_task_queue a)).
  assert (same_tasks s (set_object s p t')) as Hst by (by eapply same_tasks_object).
  split.
  - eapply inv_update; eauto using fds_same, keeps_counters_same, shape_same.
    + intros r t1 Hr Hne. simpl in Hr. case_decide as Hd.
      * subst r. apply (handling_same _ _ _ _ Hst), (handling_tail _ _ (InQueue p m)); [|done].
        destruct (decide (p = q)) as [->|].
        -- rewrite lookup_insert_eq in Hr. injection Hr as <-. eapply handling_of; eauto.
        -- rewrite lookup_insert_ne in Hr by done. by eapply handling_of.
      * destruct (decide (p = r)) as [->|].
        -- rewrite lookup_insert_eq in Hr. injection Hr as <-. eauto.
        -- rewrite lookup_insert_ne in Hr by done. eauto.
    + intros r t1 Hr Hrun Hne. simpl in Hr. destruct (decide (p = r)) as [->|].
      * right. left. exists q, k. simpl. rewrite lookup_insert_eq. subst k. set_solver.
      * rewrite lookup_insert_ne in Hr by done.
        destruct (inv_awake _ Hi r t1 Hr Hrun Hne) as [?|[?|(k2 & E2)]]; [by left| |].
        -- right. left. eapply pending_write_step; eauto.
        -- right. right. exists k2. simpl in *. rewrite lookup_insert_ne; [done|]. congruence.
    + intros t1 k2 _ ->. done.
  - intros r. rewrite pending_object. unfold pending, sent_to, handled_by. simpl.
    case_decide; subst; simpl; [|by rewrite app_nil_r].
    by rewrite E, app_assoc.
Qed.

Lemma write_step s c q k p t : inv (mk_system s c) -> c !! q = Some (WriteFd p :: k) ->
  objects s !! p = Some t ->
  let s' := (write_evfd (_evfd t) s).2 in
  inv (mk_system s' (<[q := k]> c)) /\ flow s [] s'.
Proof.
  intros Hi Hq Ht s'. destruct (write_evfd_same (_evfd t) s) as [Hst Ho].
  pose proof (shape_of _ _ _ _ _ Hi Hq) as Hsh. apply shape_cons in Hsh as (_ & Hsh & Hnr).
  fold s' in Hst, Ho. split.
  - eapply inv_update; eauto using shape_same.
    + intros fd n Hn Hn0. destruct (write_evfd_other (_evfd t) s fd n) as (n' & ? & ?); eauto with lia.
    + intros r u n _ _ _ Hn Hn0.
      destruct (write_evfd_other (_evfd t) s (_evfd u) n) as (n' & ? & ?); eauto with lia.
    + intros r t1 Hr Hne. rewrite Ho in Hr. case_decide; [|eauto]. subst r.
      eapply handling_same; [done|]. apply (handling_tail _ _ (WriteFd p)); [|done].
      by eapply handling_of.
    + intros r t1 Hr Hrun Hne. rewrite Ho in Hr.
      destruct (decide (r = p)) as [->|Hrp].
      { left. destruct (wf_fd _ (inv_wf _ Hi) p t1) as (n & Hn & Hn0); [done..|].
        rewrite Ht in Hr. injection Hr as <-. by eapply write_evfd_wakes. }
      destruct (inv_awake _ Hi r t1 Hr Hrun Hne) as [(n & Hn & Hn0)|[?|(k2 & E2)]].
      * left. destruct (write_evfd_other (_evfd t) s (_evfd t1) n) as (n' & ? & ?); eauto with lia.
      * right. left. eapply pending_write_step; eauto. congruence.
      * right. right. exists k2. simpl in *. rewrite lookup_insert_ne; [done|]. congruence.
    + intros t1 k2 _ ->. by destruct (Hnr q k2).
  - intros r. simpl. unfold pending. by rewrite Ho, app_nil_r.
Qed.

Lemma swap_step s c q k p t : inv (mk_system s c) -> c !! q = Some (SwapQueues p :: k) ->
  objects s !! p = Some t ->
  let s' := set_object s p (set_queues t (_tmp_task_queue t) (_task_queue t)) in
  inv (mk_system s' (<[q := k]> c)) /\ flow s [] s'.
Proof.
  intros Hi Hq Ht s'.
  pose proof (shape_of _ _ _ _ _ Hi Hq) as Hsh. apply shape_cons in Hsh as (-> & _ & ->).
  assert (same_tasks s s') as Hst by (by eapply same_tasks_object).
  assert (_tmp_task_queue t = []) as Etmp.
  { destruct (decide (_tmp_task_queue t = [])) as [|Hne]; [done|].
    destruct (handling_of _ _ _ _ _ _ _ Hi Hq eq_refl Ht Hne) as (k' & Hk' & E).
    destruct k' as [|b k']; [done|]. injection E as <- _. inversion Hk'. }
  split.
  - eapply inv_update; eauto using fds_same, keeps_counters_same.
    + apply (Sh_handle s' q []); [|constructor]. eapply same_tasks_is; [done|by exists t].
    + intros r t1 Hr Hne. simpl in Hr. case_decide as Hd.
      * exists []. split; [constructor|by subst].
      * rewrite lookup_insert_ne in Hr by done. eauto.
    + intros r t1 Hr Hrun Hne. simpl in Hr. destruct (decide (q = r)) as [->|].
      * rewrite lookup_insert_eq in Hr. injection Hr as <-. by rewrite Etmp in Hne.
      * rewrite lookup_insert_ne in Hr by done.
        destruct (inv_awake _ Hi r t1 Hr Hrun Hne) as [?|[?|(k2 & E2)]]; [by left| |].
        -- right. left. eapply pending_write_step; eauto.
        -- right. right. exists k2. simpl in *. by rewrite lookup_insert_ne.
    + done.
  - intros r. simpl. rewrite app_nil_r. unfold s'. rewrite pending_object. case_decide; [|done].
    subst. unfold pending. rewrite Ht. simpl. by rewrite Etmp, app_nil_r.
Qed.

Lemma read_step s c q k p t n s' : inv (mk_system s c) -> c !! q = Some (ReadFd p :: k) ->
  objects s !! p = Some t -> read_evfd (_evfd t) s = Some (n, s') ->
  inv (mk_system s' (<[q := k]> c)) /\ flow s [] s'.
Proof.
  intros Hi Hq Ht Hs. unfold read_evfd in Hs.
  destruct (eventfds s !! _evfd t) as [v|] eqn:Ev; [|done].
  destruct (v =? 0) eqn:Ez; [done|]. injection Hs as <- <-.
  pose proof (shape_of _ _ _ _ _ Hi Hq) as Hsh. apply shape_cons in Hsh as (-> & Hp & ->).
  assert (running t = true) as Hrt by (apply (inv_thread _ Hi q t Ht); by eexists).
  assert (same_tasks s (set_eventfd s (_evfd t) 0)) as Hst by apply same_tasks_eventfd.
  assert (forall r u, r <> q -> objects s !! r = Some u -> running u = true ->
    eventfds (set_eventfd s (_evfd t) 0) !! _evfd u = eventfds s !! _evfd u) as Hother.
  { intros r u Hne Hu Hru. simpl. rewrite lookup_insert_ne; [done|]. intros He.
    apply Hne. symmetry. by eapply (wf_inj _ (inv_wf _ Hi)). }
  split.
  - eapply inv_update; eauto.
    + intros fd n0 Hn Hn0. simpl. destruct (decide (fd = _evfd t)) as [->|];
        simplify_map_eq; eexists; (split; [done|lia]).
    + intros r u n0 Hne Hu Hru. rewrite (Hother r u Hne Hu Hru). eauto.
    + by apply Sh_swap.
    + intros r t1 Hr Hne. case_decide; [|eauto]. subst r.
      destruct (handling_of _ _ _ _ _ _ _ Hi Hq eq_refl Hr Hne) as (k' & Hk' & E).
      destruct k' as [|b k']; [done|]. injection E as <- _. inversion Hk'.
    + intros r t1 Hr Hrun Hne. destruct (decide (r = q)) as [->|Hrq].
      { right. right. simpl. rewrite lookup_insert_eq. eauto. }
      destruct (inv_awake _ Hi r t1 Hr Hrun Hne) as [(n0 & Hn & Hn0)|[?|(k2 & E2)]].
      * left. exists n0. split; [|done]. rewrite <- Hn. by apply (Hother r).
      * right. left. eapply pending_write_step; eauto.
      * right. right. exists k2. simpl in *. by rewrite lookup_insert_ne.
    + done.
  - intros r. simpl. by rewrite app_nil_r.
Qed.

(** The loop of [process_msg] takes the first message of the private queue. *)
Record took s (p : Z) (m : TASK_MSG) s' : Prop := {
  took_tasks : same_tasks s s';
  took_fds : eventfds s' = eventfds s;
  took_pending : flow s [Handled p m] s';
  took_queue r t' : objects s' !! r = Some t' ->
    exists t, objects s !! r = Some t /\ _task_queue t' = _task_queue t /\
    (r <> p -> _tmp_task_queue t' = _tmp_task_queue t)
}.

Lemma took_intro s p m t d rest :
  objects s !! p = Some t -> _tmp_task_queue t = m :: rest ->
  is_manager d = is_manager (this t) ->
  took s p m (set_object s p (set_this (set_queues t (_task_queue t) rest) d)).
Proof.
  intros Ht Etmp Hd. split; [|done| |].
  - eapply same_tasks_object; [done|]. unfold task_key. simpl. by rewrite Hd.
  - intros r. rewrite pending_object. unfold pending. simpl. unfold sent_to, handled_by. simpl.
    case_decide; subst; simpl; [by rewrite Ht, Etmp, app_nil_r|by rewrite app_nil_r].
  - intros r t' Hr. simpl in Hr. destruct (decide (p = r)) as [->|].
    + rewrite lookup_insert_eq in Hr. injection Hr as <-. exists t. by split_and?.
    + rewrite lookup_insert_ne in Hr by done. exists t'. by split_and?.
Qed.

Lemma on_message_kind (d d' : derived W) m : on_message d m = Some d' ->
  is_manager d' = is_manager d.
Proof. destruct d; simpl; intros (? & ? & ->)%fmap_Some; done. Qed.

(** The outcomes of a round of the loop. *)
Lemma handle_msg_inv s p l k' s' : wf s -> handle_msg p s = Some (l, k', s') ->
  exists t, objects s !! p = Some t /\
  ((_tmp_task_queue t = [] /\ l = [] /\ k' = [] /\ s' = s) \/
   exists m rest, _tmp_task_queue t = m :: rest /\ l = [Handled p m] /\
   took s p m s' /\ handling s' p k').
Proof.
  intros Hw H. unfold handle_msg in H. inv_opt. exists a. split; [done|].
  destruct (_tmp_task_queue a) as [|m rest] eqn:Etmp; [left; by simplify_eq|right].
  exists m, rest. split; [done|].
  assert (set_queues a (_task_queue a) rest =
          set_this (set_queues a (_task_queue a) rest) (this a)) as Eq by done.
  repeat case_decide; inv_opt; simplify_eq; split_and?; try done;
    try (exists []; split; [constructor|done]);
    try (apply took_intro; [done..|by eapply on_message_kind]).
  - rewrite Eq. by apply took_intro.
  - eexists. split; [|done]. eapply sends_same; [|by apply send2task_sends].
    by eapply same_tasks_object.
Qed.

Lemma handle_step s c q k p l k' s' : inv (mk_system s c) ->
  c !! q = Some (HandleMsgs p :: k) -> handle_msg p s = Some (l, k', s') ->
  inv (mk_system s' (<[q := k' ++ k]> c)) /\ flow s l s'.
Proof.
  intros Hi Hq Hs.
  pose proof (shape_of _ _ _ _ _ Hi Hq) as Hsh. apply shape_cons in Hsh as (-> & Hp & ->).
  rewrite app_nil_r. apply handle_msg_inv in Hs as (t & Ht & Hcase); [|by apply (inv_wf _ Hi)].
  destruct Hcase as [(Etmp & -> & -> & ->)|(m & rest & Etmp & -> & [Hst Hfd Hfl Hqu] & Hk')].
  - split; [|apply flow_refl].
    eapply inv_update; eauto using same_tasks_refl, fds_same, keeps_counters_same, shape_nil_sends.
    + intros r t1 Hr Hne. case_decide; [|eauto]. subst r. congruence.
    + intros r t1 Hr Hrun Hne. destruct (inv_awake _ Hi r t1 Hr Hrun Hne) as [?|[?|(k2 & E2)]];
        [by left| |].
      * right. left. by eapply pending_write_step.
      * right. right. exists k2. simpl in *. rewrite lookup_insert_ne; [done|]. congruence.
    + done.
  - split; [|done].
    eapply inv_update; eauto using fds_same, keeps_counters_same.
    + destruct Hk' as (k1 & ? & ->). apply Sh_handle; [by eapply same_tasks_is|done].
    + intros r t1 Hr Hne. case_decide; [by subst|].
      destruct (Hqu r t1 Hr) as (t0 & ? & _ & E). exists t0. by rewrite E.
    + intros r t1 Hr Hrun Hne. destruct (Hqu r t1 Hr) as (t0 & Ht0 & E & _).
      rewrite E in Hne. destruct (same_tasks_lookup _ _ _ _ Hst Hr) as (t0' & Ht0' & Hk).
      rewrite Ht0 in Ht0'. injection Ht0' as <-. injection Hk as _ He Hr' _.
      rewrite Hr' in Hrun. unfold awake. simpl. rewrite He, Hfd.
      destruct (inv_awake _ Hi r t0 Ht0 Hrun Hne) as [?|[?|(k2 & E2)]]; [by left| |].
      * right. left. eapply pending_write_step; [done..| |done]. by intros ? ?%not_elem_of_nil.
      * right. right. exists k2. simpl in *. rewrite lookup_insert_ne; [done|]. congruence.
    + intros t1 k1 _ ->. destruct Hk' as (k2 & Hk2 & E). destruct k2; [done|].
      injection E as <- _. inversion Hk2.
Qed.

(** ** The steps of threads *)
Lemma work_step x l y : inv x -> work x l y -> inv y /\ flow (mgr x) l (mgr y).
Proof.
  intros Hi Hw. destruct Hw as [s c k q a l k' s' Hq Hex|s c q t n Hq Ht Hrt Hn Hn0].
  - destruct a as [p m|p|p|p|p]; simpl in Hex; apply bind_Some in Hex as (o & Eo & Hex).
    + injection Hex as <- <- <-. by apply queue_step.
    + injection Hex as <- <- <-. by apply (write_step s c q k p o).
    + destruct (read_evfd (_evfd o) s) as [[n s1]|] eqn:Er.
      * injection Hex as <- <- <-. by eapply read_step.
      * pose proof (shape_of _ _ _ _ _ Hi Hq) as Hsh. apply shape_cons in Hsh as (-> & _ & _).
        destruct (inv_read _ Hi q o k) as (n & Hn & Hn0); [done..|]. simpl in Hn.
        unfold read_evfd in Er. rewrite Hn in Er. by replace (n =? 0) with false in Er by lia.
    + injection Hex as <- <- <-. by apply (swap_step s c q k p o).
    + destruct o as [[l1 k1] s1]. injection Hex as <- <- <-. by eapply handle_step.
  - simpl. split; [|apply flow_refl].
    eapply inv_update; eauto using same_tasks_refl, fds_same, keeps_counters_same.
    + apply Sh_read. by exists t.
    + intros r t1 Hr Hne. case_decide; [|eauto]. subst r.
      destruct (inv_tmp _ Hi q t1 Hr Hne) as (k' & _ & E). simpl in E. rewrite Hq in E.
      by destruct k'.
    + intros r t1 Hr Hrun Hne. destruct (inv_awake _ Hi r t1 Hr Hrun Hne) as [?|[?|(k2 & E2)]];
        [by left| |].
      * right. left. by eapply pending_write_idle.
      * right. right. exists k2. simpl in *. rewrite lookup_insert_ne; [done|]. congruence.
    + intros t1 k1 Ht1 _. exists n. simplify_eq. done.
Qed.

(** ** What comes from outside *)

(** The thread was waiting; queues and counters are as they were. *)
Lemma outside_step s c q k' s' l : inv (mk_system s c) -> c !! q = Some [] ->
  same_tasks s s' -> eventfds s' = eventfds s -> sends s' k' ->
  (forall r t', objects s' !! r = Some t' -> exists t, objects s !! r = Some t /\
     _tmp_task_queue t' = _tmp_task_queue t /\ _task_queue t' = _task_queue t) ->
  (forall p, sent_to p l = [] /\ handled_by p l = []) ->
  inv (mk_system s' (<[q := k']> c)) /\ flow s l s'.
Proof.
  intros Hi Hq Hst Hfd Hk' Hqu Hl. split.
  - eapply inv_update; eauto using fds_same, keeps_counters_same, Sh_sends.
    + intros r t1 Hr Hne. destruct (Hqu r t1 Hr) as (t0 & Ht0 & E & _).
      case_decide as Hd; [|exists t0; by rewrite E]. subst r. rewrite E in Hne.
      destruct (inv_tmp _ Hi q t0 Ht0 Hne) as (k & _ & E1). simpl in E1. rewrite Hq in E1.
      by destruct k.
    + intros r t1 Hr Hrun Hne. destruct (Hqu r t1 Hr) as (t0 & Ht0 & _ & E).
      rewrite E in Hne. destruct (same_tasks_lookup _ _ _ _ Hst Hr) as (t0' & Ht0' & Hk).
      rewrite Ht0 in Ht0'. injection Ht0' as <-. injection Hk as _ He Hr' _.
      rewrite Hr' in Hrun. unfold awake. simpl. rewrite He, Hfd.
      destruct (inv_awake _ Hi r t0 Ht0 Hrun Hne) as [?|[?|(k2 & E2)]]; [by left| |].
      * right. left. by eapply pending_write_idle.
      * right. right. exists k2. simpl in *. rewrite lookup_insert_ne; [done|]. congruence.
    + intros t1 k1 _ ->. by apply sends_no_read in Hk'.
  - intros r. destruct (Hl r) as [-> ->]. rewrite app_nil_r. simpl. unfold pending.
    pose proof (same_key _ _ Hst r) as Hk. destruct (objects s' !! r) as [t'|] eqn:E.
    + destruct (Hqu r t' E) as (t & -> & -> & ->). done.
    + destruct (objects s !! r); done.
Qed.

Lemma queues_of_object s p t t' : objects s !! p = Some t ->
  _tmp_task_queue t' = _tmp_task_queue t -> _task_queue t' = _task_queue t ->
  forall r u', objects (set_object s p t') !! r = Some u' ->
  exists u, objects s !! r = Some u /\
    _tmp_task_queue u' = _tmp_task_queue u /\ _task_queue u' = _task_queue u.
Proof.
  intros Ht H1 H2 r u' Hr. simpl in Hr. destruct (decide (p = r)) as [->|].
  - rewrite lookup_insert_eq in Hr. injection Hr as <-. eauto.
  - rewrite lookup_insert_ne in Hr by done. eauto.
Qed.

Lemma same_tasks_trans s1 s2 s3 : same_tasks s1 s2 -> same_tasks s2 s3 -> same_tasks s1 s3.
Proof.
  intros [Hm Hk] [Hm' Hk']. split; [congruence|]. intros p. by rewrite Hk'.
Qed.

(** What the handler of the heartbeat timer does: it changes fields of its own
    task, and sends. *)
Record beat s (p : Z) (l : list note) (k : list act) s' : Prop := {
  beat_tasks : same_tasks s s';
  beat_fds : eventfds s' = eventfds s;
  beat_sends : sends s' k;
  beat_queues r t' : objects s' !! r = Some t' -> exists t, objects s !! r = Some t /\
    _tmp_task_queue t' = _tmp_task_queue t /\ _task_queue t' = _task_queue t;
  beat_notes q : sent_to q l = [] /\ handled_by q l = []
}.

Lemma restarted_notes (l : list Z) q :
  sent_to q (Restarted <$> l) = [] /\ handled_by q (Restarted <$> l) = [].
Proof. unfold sent_to, handled_by. induction l; simpl; [done|]. by destruct IHl. Qed.

Lemma on_heartbeat_beat s p l k s' : wf s -> on_heartbeat p s = Some (l, k, s') ->
  beat s p l k s'.
Proof.
  intros Hw H. unfold on_heartbeat in H. inv_opt. destruct (this a) as [d|w] eqn:Ed; [|done].
  assert (forall d', same_tasks s (set_object s p (set_this a (ManagerTask d')))) as Hd'.
  { intros d'. eapply same_tasks_object; [done|]. unfold task_key. simpl. by rewrite Ed. }
  destruct (first_loop d).
  { injection H as <- <- <-. split; [done|done|constructor|by eapply queues_of_object|done]. }
  destruct (hb_check (hb_map d) (task_map s)) as [l1 all].
  destruct all; simpl in H.
  - unfold send_hb_all in H.
    set (s1 := set_object s p _) in H. destruct (hb_requests _ _ s1) as [k1 n] eqn:Ek.
    injection H as <- <- <-.
    assert (same_tasks s s1) as Hst by apply Hd'.
    assert (same_tasks s1 (mk_tasks (task_map s1) (objects s1) (eventfds s1) (mgr_hb_itval s1) n))
      as Hst1 by by split.
    split; [by eapply same_tasks_trans|done| |by eapply queues_of_object|apply restarted_notes].
    eapply sends_same; [exact Hst1|]. change k1 with (k1, n).1. rewrite <- Ek.
    apply hb_requests_sends. eapply wf_same; eauto using fds_same.
  - injection H as <- <- <-.
    split; [apply same_tasks_refl|done|constructor|eauto|apply restarted_notes].
Qed.

Lemma stimulus_step x l y : inv x -> stimulus x l y -> inv y /\ flow (mgr x) l (mgr y).
Proof.
  intros Hi Hs.
  destruct Hs as [s c q name m Hq Ho Happ|s c q t tid tm l k s' Hq Ho Hrt Htm Hb|s c q t w w' Hq Ho Hrt Ht Hev];
    simpl.
  - eapply outside_step; eauto using same_tasks_refl.
    apply send2task_sends, (inv_wf _ Hi).
  - set (s0 := set_object s q (set_timers t (_hb_itval t) tm)) in *.
    assert (same_tasks s s0) as Hst by (by eapply same_tasks_object).
    apply on_heartbeat_beat in Hb as [Hst' Hfd Hk Hqu Hl];
      [|eapply wf_same; eauto using fds_same; apply (inv_wf _ Hi)].
    eapply outside_step; eauto using same_tasks_trans.
    intros r t' Hr. destruct (Hqu r t' Hr) as (t1 & Ht1 & -> & ->).
    by apply (queues_of_object s q t (set_timers t (_hb_itval t) tm)).
  - set (s1 := set_object s q (set_this t (WorkerTask w'))).
    rewrite <- (insert_id c q []) by done.
    eapply outside_step; eauto.
    + eapply same_tasks_object; [done|]. unfold task_key. simpl. by rewrite Ht.
    + constructor.
    + by apply (queues_of_object s q t (set_this t (WorkerTask w'))).
Qed.

Lemma step_inv x l y : inv x -> step x l y -> inv y /\ flow (mgr x) l (mgr y).
Proof. intros Hi [H|H]; eauto using work_step, stimulus_step. Qed.

(** ** Runs *)
Lemma sent_to_app p l l' : sent_to p (l ++ l') = sent_to p l ++ sent_to p l'.
Proof. apply omap_app. Qed.
Lemma handled_by_app p l l' : handled_by p (l ++ l') = handled_by p l ++ handled_by p l'.
Proof. apply omap_app. Qed.

Lemma run_inv x l y : run step x l y -> inv x -> inv y /\ flow (mgr x) l (mgr y).
Proof.
  induction 1 as [x|x l y l' z Hxy Hyz IH]; intros Hi.
  - split; [done|apply flow_refl].
  - apply step_inv in Hxy as [Hy Hf]; [|done]. destruct (IH Hy) as [Hz Hf'].
    split; [done|]. intros p. rewrite sent_to_app, handled_by_app, app_assoc, Hf.
    by rewrite <- !app_assoc, Hf'.
Qed.

Lemma run_work x l y : run work x l y -> run step x l y.
Proof. induction 1; econstructor; eauto. by left. Qed.

Lemma run_app R x l y l' z : @run W R x l y -> run R y l' z -> run R x (l ++ l') z.
Proof.
  induction 1; intros; simpl; [done|]. rewrite <- app_assoc. econstructor; eauto.
Qed.
End steps.
