(* ===== verification/TasksLive.v ===== *)
(** * TasksLive: the threads of tasks come to rest

    The types of messages are kept, so that no handler throws; the work that
    is left gets less with every step of a thread; and when no thread can
    step, nothing is pending. *)
From S2P Require Import Prelude Mem Reply StdMap Timers Tasks TasksFacts TasksInv.
From stdpp Require Import list list_numbers strings sets gmap.
From Stdlib Require Import ZArith Lia.
Open Scope Z_scope.

(** ** Sums over maps *)
Definition msum {A} (f : A -> nat) (m : gmap Z A) : nat := sum_list_with f (map_to_list m).*2.

Lemma msum_insert_new {A} (f : A -> nat) m k x : m !! k = None ->
  msum f (<[k := x]> m) = (f x + msum f m)%nat.
Proof.
  intros Hk. unfold msum. by rewrite (map_to_list_insert m k x Hk).
Qed.

Lemma msum_insert {A} (f : A -> nat) m k x y : m !! k = Some x ->
  (msum f (<[k := y]> m) + f x = msum f m + f y)%nat.
Proof.
  intros Hk. rewrite <- (insert_id m k x) at 2 by done.
  rewrite <- (insert_delete_eq m k y), <- (insert_delete_eq m k x).
  rewrite !msum_insert_new by apply lookup_delete_eq. lia.
Qed.

(** ** The laws of a worker

    The interface that the classes of an application implement: in the states
    that are [worker_ok], a message of the types it takes does not make it
    throw. *)
Class WorkerInv (W : Type) := worker_ok : W -> Prop.

Class WorkerLaws (W : Type) `{Worker W} `{WorkerInv W} := {
  worker_takes : TASK_MSG -> Prop;
  worker_message_ok w m : worker_ok w -> worker_takes m ->
    exists w', worker_message w m = Some w' /\ worker_ok w';
  worker_event_ok w w' : worker_event w w' -> worker_ok w -> worker_ok w';
  app_sends_ok name m : app_sends name m -> name <> TASK0 /\ worker_takes m
}.

Section live.
Context {W : Type} {worker : Worker W} {wk_inv : WorkerInv W} {laws : WorkerLaws W} {L : Libevent}.
Implicit Types (t : task_base W) (s : task_manager W) (x : system W) (m : TASK_MSG).

(** ** Types of messages *)
Definition takes (d : derived W) m : Prop :=
  match d with
  | ManagerTask _ => msg_type m = TASK_HB_RSP -> exists name, msg_any m = AnyString name
  | WorkerTask _ => msg_type m = TASK_HB_REQ \/ worker_takes m
  end.

Definition this_ok (d : derived W) : Prop :=
  match d with ManagerTask _ => True | WorkerTask w => worker_ok w end.

Record typed_task t : Prop := {
  typed_this : this_ok (this t);
  typed_name : _name t = TASK0 <-> is_manager (this t) = true;
  typed_queues : Forall (takes (this t)) (_tmp_task_queue t ++ _task_queue t)
}.

Definition typed_code s (k : list act) : Prop :=
  forall p m t, InQueue p m ∈ k -> objects s !! p = Some t -> running t = true ->
  takes (this t) m.

Record typed x : Prop := {
  typed_tasks p t : objects (mgr x) !! p = Some t -> running t = true -> typed_task t;
  typed_codes q k : code x !! q = Some k -> typed_code (mgr x) k
}.

Lemma takes_kind (d d' : derived W) m : is_manager d = is_manager d' -> takes d m -> takes d' m.
Proof. by destruct d, d'. Qed.

Lemma typed_code_same s s' k : same_tasks s s' -> typed_code s k -> typed_code s' k.
Proof.
  intros Hs Hk p m t' Hin Ht' Hr. eapply same_tasks_lookup in Ht' as (t & Ht & E); [|done].
  injection E as _ _ Er E. eapply takes_kind; [symmetry; exact E|].
  eapply Hk; eauto; congruence.
Qed.

Lemma typed_code_app s k k' : typed_code s k -> typed_code s k' -> typed_code s (k ++ k').
Proof. intros H1 H2 p m t [Hin|Hin]%elem_of_app; eauto. Qed.

Lemma typed_code_none s k : (forall p m, ~ InQueue p m ∈ k) -> typed_code s k.
Proof. intros Hk p m t Hin. by apply Hk in Hin. Qed.

Lemma typed_send2task s name m p t : wf s ->
  std_find name (task_map s) = Some p -> objects s !! p = Some t ->
  (running t = true -> takes (this t) m) -> typed_code s (send2task_acts name m s).
Proof.
  intros Hw Hp Ht Hm q m' t' Hin Ht'. unfold send2task_acts in Hin. rewrite Hp in Hin.
  apply elem_of_cons in Hin as [[= -> ->]|[?|?%not_elem_of_nil]%elem_of_cons]; [|done..].
  intros Hr. rewrite Ht in Ht'. injection Ht' as <-. by apply Hm.
Qed.

(** Replacing one task and the code of one thread. *)
Lemma typed_update s c s' q k k' :
  typed (mk_system s c) -> c !! q = Some k -> same_tasks s s' -> typed_code s' k' ->
  (forall p t', objects s' !! p = Some t' -> running t' = true ->
     typed_task t' \/ objects s !! p = Some t') ->
  typed (mk_system s' (<[q := k']> c)).
Proof.
  intros [Ht Hc] Hq Hs Hk' Hts. split; simpl in *.
  - intros p t' Hp Hr. destruct (Hts p t' Hp Hr) as [?|?]; eauto.
  - intros r k1 [[<- <-]|[_ Hr]]%lookup_insert_Some; [done|].
    eapply typed_code_same; eauto.
Qed.

Lemma typed_object s p t t' : objects s !! p = Some t ->
  (running t' = true -> typed_task t') ->
  forall r u', objects (set_object s p t') !! r = Some u' -> running u' = true ->
  typed_task u' \/ objects s !! r = Some u'.
Proof.
  intros Ht Ht' r u' Hr Hrun. simpl in Hr. destruct (decide (p = r)) as [->|].
  - rewrite lookup_insert_eq in Hr. injection Hr as <-. by left; apply Ht'.
  - rewrite lookup_insert_ne in Hr by done. by right.
Qed.

Lemma on_message_typed (d : derived W) m : this_ok d -> takes d m ->
  (is_manager d = false -> msg_type m <> TASK_HB_REQ) ->
  exists d', on_message d m = Some d' /\ this_ok d' /\ is_manager d' = is_manager d.
Proof.
  intros Hd Hm Hne. destruct d as [d|w]; simpl in *.
  - unfold manager_on_message. case_decide as Hty; simpl.
    + destruct (Hm Hty) as (name & ->). simpl. eauto.
    + eauto.
  - destruct Hm as [?|Hm]; [by destruct (Hne eq_refl)|].
    destruct (worker_message_ok w m Hd Hm) as (w' & -> & ?). simpl. eauto.
Qed.

(** A message for the task of a name, with the right type for its class. *)
Lemma typed_send2task_name s name m :
  wf s -> (forall p t, objects s !! p = Some t -> running t = true ->
    _name t = TASK0 <-> is_manager (this t) = true) ->
  (name = TASK0 -> forall d, takes (ManagerTask d) m) ->
  (name <> TASK0 -> forall w, takes (WorkerTask w) m) ->
  typed_code s (send2task_acts name m s).
Proof.
  intros Hw Hn H0 H1. destruct (std_find name (task_map s)) as [p|] eqn:Ep.
  - destruct (wf_map _ Hw _ _ Ep) as (t & Ht & <-). eapply typed_send2task; eauto.
    intros Hr. destruct (Hn p t Ht Hr) as [Hn1 Hn2]. destruct (this t) as [d|w]; simpl in *.
    + by apply (H0 (Hn2 eq_refl) d).
    + apply (H1 (fun E => ltac:(by apply Hn1 in E)) w).
  - unfold send2task_acts. rewrite Ep. apply typed_code_none. intros ? ?. apply not_elem_of_nil.
Qed.

Lemma typed_names s c p t : typed (mk_system s c) -> objects s !! p = Some t ->
  running t = true -> _name t = TASK0 <-> is_manager (this t) = true.
Proof. intros Ht Hp Hr. apply (typed_name t), (typed_tasks _ Ht p t Hp Hr). Qed.

Lemma typed_names_same s s' : same_tasks s s' ->
  (forall p t, objects s !! p = Some t -> running t = true ->
    _name t = TASK0 <-> is_manager (this t) = true) ->
  forall p t, objects s' !! p = Some t -> running t = true ->
  _name t = TASK0 <-> is_manager (this t) = true.
Proof.
  intros Hs Hn p t' Hp Hr. eapply same_tasks_lookup in Hp as (t & Ht & E); [|done].
  injection E as -> _ Er ->. eapply Hn; eauto; congruence.
Qed.

(** The loop of [process_msg] does not throw, and sends what task0 takes. *)
Lemma handle_msg_typed s c p t :
  wf s -> typed (mk_system s c) -> objects s !! p = Some t -> running t = true ->
  exists l k' s', handle_msg p s = Some (l, k', s') /\ typed_code s' k' /\
  forall q u', objects s' !! q = Some u' -> running u' = true ->
  typed_task u' \/ objects s !! q = Some u'.
Proof.
  intros Hw Hty Ht Hr. pose proof (typed_tasks _ Hty p t Ht Hr) as [Hthis Hname Hq].
  unfold handle_msg. rewrite Ht. simpl. destruct (_tmp_task_queue t) as [|m rest] eqn:Etmp.
  { eexists _, _, _. split; [done|]. split; [|by right].
    apply typed_code_none. intros ? ?. apply not_elem_of_nil. }
  inversion Hq as [|? ? Hm Hrest]; subst.
  assert (forall d, this_ok d -> is_manager d = is_manager (this t) ->
    typed_task (set_this (set_queues t (_task_queue t) rest) d)) as Hnew.
  { intros d Hd Hk. split; simpl; [done|by rewrite Hk|].
    eapply Forall_impl; [exact Hrest|]. intros m'. by apply takes_kind. }
  assert (forall s', typed_code s' [HandleMsgs p]) as Hloop.
  { intros s'. apply typed_code_none. intros ? ? [?|?%not_elem_of_nil]%elem_of_cons; done. }
  destruct (decide (msg_type m = TASK_HB_REQ)) as [Ety|Ety].
  - destruct (decide (_name t = TASK0)) as [En|En].
    + destruct (on_message_typed (this t) m) as (d' & -> & Hd' & Hk); [done..| |].
      { intros E. apply Hname in En. congruence. }
      simpl. eexists _, _, _. split; [done|]. split; [done|].
      eapply typed_object; [done|]. intros _. by apply Hnew.
    + eexists _, _, _. split; [done|].
      assert (same_tasks s (set_object s p (set_queues t (_task_queue t) rest))) as Hst
        by (by eapply same_tasks_object).
      split.
      * apply typed_code_app; [|done]. eapply typed_code_same; [exact Hst|].
        eapply typed_send2task_name; [done|by intros; eapply typed_names|..].
        -- intros _ d _. simpl. eauto.
        -- done.
      * eapply typed_object; [done|]. intros _. by apply (Hnew (this t)).
  - destruct (on_message_typed (this t) m) as (d' & -> & Hd' & Hk); [done..|].
    simpl. eexists _, _, _. split; [done|]. split; [done|].
    eapply typed_object; [done|]. intros _. by apply Hnew.
Qed.

Lemma typed_code_incl s k k' : (forall a, a ∈ k' -> a ∈ k) -> typed_code s k -> typed_code s k'.
Proof. intros Hi Hk p m t Hin. eapply Hk; eauto. Qed.

(** A thread that has something to execute can execute it. *)
Lemma exec_typed s c q a k : inv (mk_system s c) -> typed (mk_system s c) ->
  c !! q = Some (a :: k) ->
  exists l k' s', exec a k s = Some (l, k', s') /\ typed (mk_system s' (<[q := k']> c)).
Proof.
  intros Hi Hty Hq. pose proof (inv_wf _ Hi) as Hw. simpl in Hw.
  pose proof (inv_shape _ Hi q _ Hq) as Hsh. simpl in Hsh. apply shape_cons in Hsh.
  pose proof (typed_codes _ Hty q _ Hq) as Hk. simpl in Hk.
  assert (typed_code s k) as Hk1 by (eapply typed_code_incl; [|exact Hk]; set_solver).
  assert (forall p t, objects s !! p = Some t -> p = q -> running t = true) as Hrun.
  { intros p t Ht ->. apply (inv_thread _ Hi q t Ht). by eexists. }
  destruct a as [p m|p|p|p|p]; simpl.
  - destruct Hsh as ([t Ht] & _ & _). unfold in_queue. rewrite Ht. simpl.
    eexists _, _, _. split; [done|].
    assert (same_tasks s (set_object s p (set_queues t (_task_queue t ++ [m]) (_tmp_task_queue t))))
      as Hst by (by eapply same_tasks_object).
    eapply typed_update; eauto using typed_code_same.
    eapply typed_object; [done|]. simpl. intros Hr.
    destruct (typed_tasks _ Hty p t Ht Hr) as [H1 H2 H3]. split; simpl; [exact H1|exact H2|].
    rewrite app_assoc. apply Forall_app. split; [done|]. apply Forall_singleton.
    eapply Hk; eauto. by apply elem_of_cons; left.
  - destruct Hsh as ([t Ht] & _ & _). rewrite Ht. simpl. eexists _, _, _. split; [done|].
    destruct (write_evfd_same (_evfd t) s) as [Hst Ho].
    eapply typed_update; eauto using typed_code_same. intros r t' Hr. rewrite Ho in Hr. by right.
  - destruct Hsh as (-> & [t Ht] & _). rewrite Ht. simpl.
    destruct (inv_read _ Hi q t k) as (n & Hn & Hn0); [done..|]. simpl in Hn.
    unfold read_evfd. rewrite Hn. replace (n =? 0) with false by lia.
    eexists _, _, _. split; [done|].
    eapply typed_update; eauto using same_tasks_eventfd, typed_code_same.
  - destruct Hsh as (-> & [t Ht] & _). rewrite Ht. simpl. eexists _, _, _. split; [done|].
    assert (same_tasks s (set_object s q (set_queues t (_tmp_task_queue t) (_task_queue t))))
      as Hst by (by eapply same_tasks_object).
    eapply typed_update; eauto using typed_code_same.
    eapply typed_object; [done|]. simpl. intros Hr.
    destruct (typed_tasks _ Hty q t Ht Hr) as [H1 H2 H3]. split; simpl; [done..|].
    by rewrite Forall_app in *; destruct H3.
  - destruct Hsh as (-> & [t Ht] & ->).
    destruct (handle_msg_typed s c q t) as (l & k' & s' & E & Hk' & Hts); eauto.
    rewrite E. simpl. rewrite app_nil_r. eexists _, _, _. split; [done|].
    destruct (handle_msg_inv _ _ _ _ _ Hw E) as (t0 & Ht0 & [(_ & _ & _ & ->)|(m & rest & _ & _ & Htk & _)]).
    + eapply typed_update; eauto using same_tasks_refl.
    + eapply typed_update; eauto using took_tasks.
Qed.

Lemma work_typed x l y : inv x -> typed x -> work x l y -> typed y.
Proof.
  intros Hi Hty Hw. destruct Hw as [s c k q a l k' s' Hq Hex|s c q t n Hq Ht Hrt Hn Hn0].
  - destruct (exec_typed s c q a k) as (l1 & k1 & s1 & E & ?); [done..|].
    rewrite Hex in E. by injection E as -> -> ->.
  - eapply typed_update; eauto using same_tasks_refl. apply typed_code_none. intros p m.
    unfold evfdCallback. rewrite !elem_of_cons. intros [?|[?|[?|?%not_elem_of_nil]]]; done.
Qed.

(** ** Steps from outside *)
Lemma typed_hb_requests s it n : wf s ->
  (forall p t, objects s !! p = Some t -> running t = true ->
    _name t = TASK0 <-> is_manager (this t) = true) ->
  typed_code s (hb_requests it n s).1.
Proof.
  intros Hw Hn. revert n. induction it as [|[name p] it IH]; intros n; simpl.
  - apply typed_code_none. intros ? ?. apply not_elem_of_nil.
  - case_decide; [done|]. destruct (hb_requests it _ s) as [k n'] eqn:E. simpl.
    apply typed_code_app; [|change k with (k, n').1; by rewrite <- E].
    apply typed_send2task_name; [done..|]. intros _ w. simpl. auto.
Qed.

Lemma typed_fields t t' : task_key t' = task_key t -> this_ok (this t') ->
  _tmp_task_queue t' = _tmp_task_queue t -> _task_queue t' = _task_queue t ->
  typed_task t -> typed_task t'.
Proof.
  intros Hk Hok H1 H2 [Ha Hb Hc]. injection Hk as Hk1 _ _ Hk2. split; [done| |].
  - by rewrite Hk1, Hk2.
  - rewrite H1, H2. eapply Forall_impl; [exact Hc|]. intros m. by apply takes_kind.
Qed.

Lemma on_heartbeat_typed s p t l k s' : wf s ->
  objects s !! p = Some t -> (running t = true -> typed_task t) ->
  (forall p t, objects s !! p = Some t -> running t = true ->
    _name t = TASK0 <-> is_manager (this t) = true) ->
  on_heartbeat p s = Some (l, k, s') ->
  typed_code s' k /\ forall r u', objects s' !! r = Some u' -> running u' = true ->
  typed_task u' \/ objects s !! r = Some u'.
Proof.
  intros Hw Ht Htt Hn H. unfold on_heartbeat in H. rewrite Ht in H. simpl in H.
  destruct (this t) as [d|w] eqn:Ed; [|done].
  assert (forall d', same_tasks s (set_object s p (set_this t (ManagerTask d')))) as Hst.
  { intros d'. eapply same_tasks_object; [done|]. unfold task_key. simpl. by rewrite Ed. }
  assert (forall d' r u', objects (set_object s p (set_this t (ManagerTask d'))) !! r = Some u' ->
    running u' = true -> typed_task u' \/ objects s !! r = Some u') as Hob.
  { intros d'. eapply typed_object; [done|]. simpl. intros Hr.
    apply (typed_fields t); [unfold task_key; simpl; by rewrite Ed|done..|by apply Htt]. }
  destruct (first_loop d).
  { injection H as <- <- <-. split; [|by apply Hob].
    apply typed_code_none. intros ? ?. apply not_elem_of_nil. }
  destruct (hb_check (hb_map d) (task_map s)) as [l1 all].
  destruct all; simpl in H.
  - unfold send_hb_all in H.
    set (s1 := set_object s p _) in H. destruct (hb_requests _ _ s1) as [k1 n] eqn:Ek.
    injection H as <- <- <-. split; [|by apply Hob].
    change (typed_code s1 k1). change k1 with (k1, n).1. rewrite <- Ek.
    apply typed_hb_requests.
    + eapply wf_same; [by apply Hst|by apply fds_same|done].
    + eapply typed_names_same; [by apply Hst|done].
  - injection H as <- <- <-. split; [|by right].
    apply typed_code_none. intros ? ?. apply not_elem_of_nil.
Qed.

Lemma stimulus_typed x l y : inv x -> typed x -> stimulus x l y -> typed y.
Proof.
  intros Hi Hty Hs. pose proof (inv_wf _ Hi) as Hw.
  destruct Hs as [s c q name m Hq Ho Happ|s c q t tid tm l k s' Hq Ho Hrt Htm Hb|s c q t w w' Hq Ho Hrt Ht Hev];
    simpl in Hw.
  - apply app_sends_ok in Happ as [Hne Htk].
    eapply typed_update; eauto using same_tasks_refl.
    eapply typed_send2task_name; [done|by intros; eapply typed_names|done|].
    intros _ w. by right.
  - set (s0 := set_object s q (set_timers t (_hb_itval t) tm)) in *.
    assert (same_tasks s s0) as Hst by (by eapply same_tasks_object).
    pose proof (typed_tasks _ Hty q t Ho Hrt) as Htt.
    assert (typed_task (set_timers t (_hb_itval t) tm)) as Htt'.
    { apply (typed_fields t); [done|apply Htt|done..]. }
    assert (wf s0) as Hw0 by (eapply wf_same; eauto using fds_same).
    pose proof (on_heartbeat_beat _ _ _ _ _ Hw0 Hb) as Hbt.
    eapply (on_heartbeat_typed s0 q) in Hb as [Hk Hts]; [|done| |done|].
    + eapply typed_update; eauto using same_tasks_trans, beat_tasks.
      intros r u' Hu' Hr. destruct (Hts r u' Hu' Hr) as [?|Hu0]; [by left|].
      eapply typed_object; [exact Ho| |exact Hu0|done]. done.
    + simpl. by rewrite lookup_insert_eq.
    + eapply typed_names_same; [exact Hst|]. by intros; eapply typed_names.
  - rewrite <- (insert_id c q []) by done.
    eapply typed_update; [done|done| | |].
    + eapply same_tasks_object; [done|]. unfold task_key. simpl. by rewrite Ht.
    + apply typed_code_none. intros ? ?. apply not_elem_of_nil.
    + eapply typed_object; [done|]. simpl. intros Hr.
      pose proof (typed_tasks _ Hty q t Ho Hrt) as Htt.
      apply (typed_fields t); [| |done|done|exact Htt].
      * unfold task_key. simpl. by rewrite Ht.
      * simpl. destruct Htt as [Hok _ _]. rewrite Ht in Hok. by eapply worker_event_ok.
Qed.

Lemma run_typed x l y : run step x l y -> inv x -> typed x -> typed y.
Proof.
  induction 1 as [x|x l y l' z Hxy Hyz IH]; intros Hi Hty; [done|]. apply IH.
  - by eapply step_inv.
  - destruct Hxy; eauto using work_typed, stimulus_typed.
Qed.

(** ** The work that is left

    A heartbeat request weighs more than the response to it and the write that
    announces it; an eventfd that is not zero more than what its task does
    with an empty queue. *)
Definition w_msg m : nat := if decide (msg_type m = TASK_HB_REQ) then 12 else 1.
Definition w_msgs (l : list TASK_MSG) : nat := sum_list_with w_msg l.
Definition w_act (a : act) : nat :=
  match a with
  | InQueue _ m => S (w_msg m)
  | WriteFd _ => 8
  | ReadFd _ => 0
  | SwapQueues _ => 1
  | HandleMsgs _ => 3
  end.
Definition w_acts (k : list act) : nat := sum_list_with w_act k.
Definition w_code (k : list act) : nat :=
  match k with [] => 2 | ReadFd _ :: _ => 1 | _ => w_acts k end.
Definition w_task t : nat := w_msgs (_tmp_task_queue t ++ _task_queue t).
Definition w_fd (n : Z) : nat := if 0 <? n then 5 else 0.

Definition w_mgr s : nat := msum w_task (objects s) + msum w_fd (eventfds s).
Definition work_left x : nat := msum w_code (code x) + w_mgr (mgr x).

Lemma w_msgs_app l l' : w_msgs (l ++ l') = (w_msgs l + w_msgs l')%nat.
Proof. apply sum_list_with_app. Qed.

Lemma w_acts_app k k' : w_acts (k ++ k') = (w_acts k + w_acts k')%nat.
Proof. apply sum_list_with_app. Qed.

Lemma w_code_le k : (w_code k <= w_acts k + 2)%nat.
Proof. destruct k as [|[] k]; simpl; lia. Qed.

Lemma w_code_sends s k : sends s k -> k <> [] -> w_code k = w_acts k.
Proof. by destruct 1. Qed.

(** The step of a thread that executes [a] and then [k]. *)
Lemma work_left_act s c s' q k0 k' : c !! q = Some k0 ->
  (w_code k' + w_mgr s' < w_code k0 + w_mgr s)%nat ->
  (work_left (mk_system s' (<[q := k']> c)) < work_left (mk_system s c))%nat.
Proof.
  intros Hq Hlt. unfold work_left. simpl.
  pose proof (msum_insert w_code c q k0 k' Hq). lia.
Qed.

Lemma w_mgr_object s p t t' : objects s !! p = Some t ->
  (w_mgr (set_object s p t') + w_task t = w_mgr s + w_task t')%nat.
Proof. intros Ht. unfold w_mgr. simpl. pose proof (msum_insert w_task _ p t t' Ht). lia. Qed.

Lemma w_mgr_eventfd s fd n n' : eventfds s !! fd = Some n ->
  (w_mgr (set_eventfd s fd n') + w_fd n = w_mgr s + w_fd n')%nat.
Proof. intros Hn. unfold w_mgr. simpl. pose proof (msum_insert w_fd _ fd n n' Hn). lia. Qed.

Lemma w_mgr_write s fd : (w_mgr (write_evfd fd s).2 <= w_mgr s + 5)%nat.
Proof.
  unfold write_evfd. destruct (eventfds s !! fd) as [n|] eqn:E; simpl; [|lia].
  split_if; simpl; [|lia]. pose proof (w_mgr_eventfd s fd n (n + 1) E).
  unfold w_fd in *. repeat case_match; lia.
Qed.

Lemma handle_msg_weight s p l k' s' : handle_msg p s = Some (l, k', s') ->
  (w_code k' + w_mgr s' < 3 + w_mgr s)%nat.
Proof.
  unfold handle_msg. intros H. apply bind_Some in H as (t & Ht & H).
  destruct (_tmp_task_queue t) as [|m rest] eqn:Etmp; [injection H as <- <- <-; simpl; lia|].
  assert (forall d, (w_mgr (set_object s p (set_this (set_queues t (_task_queue t) rest) d)) + w_msg m
    = w_mgr s)%nat) as Hobj.
  { intros d. pose proof (w_mgr_object s p t (set_this (set_queues t (_task_queue t) rest) d) Ht) as E.
    unfold w_task in E. rewrite Etmp in E. simpl in E. unfold w_msgs in *. simpl in E. lia. }
  assert (0 < w_msg m)%nat as Hm by (unfold w_msg; case_decide; lia).
  destruct (decide (msg_type m = TASK_HB_REQ)) as [Ety|Ety].
  - cbn zeta in H. simpl _name in H. destruct (decide (_name t = TASK0)).
    + apply bind_Some in H as (d & _ & H). injection H as <- <- <-.
      specialize (Hobj d). simpl in *. lia.
    + injection H as <- <- <-. specialize (Hobj (this t)).
      assert (w_msg m = 12)%nat as E12 by (unfold w_msg; by rewrite decide_True).
      replace (set_this _ (this t)) with (set_queues t (_task_queue t) rest) in Hobj by done.
      unfold send2task_acts. destruct (std_find _ _); simpl; lia.
  - apply bind_Some in H as (d & _ & H). injection H as <- <- <-.
    specialize (Hobj d). simpl in *. lia.
Qed.

Lemma work_decreases x l y : inv x -> work x l y -> (work_left y < work_left x)%nat.
Proof.
  intros Hi Hw. destruct Hw as [s c k q a l k' s' Hq Hex|s c q t n Hq Ht Hrt Hn Hn0].
  - pose proof (inv_shape _ Hi q _ Hq) as Hsh. simpl in Hsh. apply shape_cons in Hsh.
    eapply work_left_act; [exact Hq|].
    destruct a as [p m|p|p|p|p]; simpl in Hex; apply bind_Some in Hex as (o & Eo & Hex).
    + destruct Hsh as (_ & _ & k1 & ->). injection Hex as <- <- <-.
      unfold in_queue in Eo. apply bind_Some in Eo as (t & Ht & [= <-]).
      pose proof (w_mgr_object s p t (set_queues t (_task_queue t ++ [m]) (_tmp_task_queue t)) Ht) as E.
      unfold w_task in E. simpl in E. rewrite !w_msgs_app in E.
      assert (w_msgs [m] = w_msg m) as Em by (unfold w_msgs; simpl; lia).
      rewrite Em in E. simpl. unfold w_acts. simpl. lia.
    + injection Hex as <- <- <-. pose proof (w_mgr_write s (_evfd o)).
      pose proof (w_code_le k). simpl. unfold w_acts in *. lia.
    + destruct Hsh as (-> & _ & ->). destruct (inv_read _ Hi q o _ Eo Hq) as (n & Hn & Hn0).
      simpl in Hn. unfold read_evfd in Hex. rewrite Hn in Hex.
      replace (n =? 0) with false in Hex by lia. injection Hex as <- <- <-.
      pose proof (w_mgr_eventfd s (_evfd o) n 0 Hn) as E. unfold w_fd in E.
      replace (0 <? n) with true in E by lia. simpl in *. lia.
    + destruct Hsh as (-> & _ & ->). injection Hex as <- <- <-.
      pose proof (w_mgr_object s q o (set_queues o (_tmp_task_queue o) (_task_queue o)) Eo) as E.
      unfold w_task in E. simpl in *. rewrite !w_msgs_app in E. lia.
    + destruct Hsh as (-> & _ & ->). destruct o as [[l1 k1] s1]. injection Hex as <- <- <-.
      rewrite app_nil_r. apply handle_msg_weight in Eo. simpl. lia.
  - eapply work_left_act; [exact Hq|]. simpl. lia.
Qed.

Lemma run_inv_work x l y : run work x l y -> inv x -> inv y.
Proof. intros Hr Hi. by eapply run_inv; [apply run_work|]. Qed.

(** Every run of the threads alone ends. *)
Lemma work_ends x : inv x -> Acc (fun b a => exists l, work a l b) x.
Proof.
  induction x as [x IH] using (induction_ltof1 _ work_left). intros Hi.
  constructor. intros y (l & Hl). apply IH; [by eapply work_decreases|].
  by eapply work_step.
Qed.

(** ** When no thread can step *)
Lemma idle_pending x p t : inv x -> quiet x -> objects (mgr x) !! p = Some t ->
  running t = true -> pending (mgr x) p = [].
Proof.
  intros Hi Hq Ht Hr. unfold pending. rewrite Ht.
  destruct (proj2 (inv_thread _ Hi p t Ht) Hr) as [k Hk].
  destruct (Hq p k Hk) as [-> Hfd]. specialize (Hfd t Ht Hr).
  destruct (_tmp_task_queue t) eqn:Etmp.
  - destruct (_task_queue t) eqn:Eq; [done|]. exfalso.
    destruct (inv_awake _ Hi p t Ht Hr) as [(n & Hn & Hn0)|[(q & k & Hk' & Hin)|(k & Hk')]].
    + congruence.
    + rewrite Hfd in Hn. injection Hn as <-. lia.
    + destruct (Hq q k Hk') as [-> _]. by apply not_elem_of_nil in Hin.
    + congruence.
  - destruct (inv_tmp _ Hi p t Ht) as (k & _ & E); [congruence|]. rewrite Hk in E. by destruct k.
Qed.

Lemma work_or_quiet x : inv x -> typed x -> (exists l y, work x l y) \/ quiet x.
Proof.
  intros Hi Hty. destruct x as [s c].
  destruct (decide (map_Forall (fun _ k => k = []) c)) as [Hidle|Hbusy].
  2: { left. apply map_not_Forall in Hbusy as (q & k & Hq & Hne); [|apply _].
       destruct k as [|a k]; [done|].
       destruct (exec_typed s c q a k Hi Hty Hq) as (l & k' & s' & E & _).
       eexists _, _. by econstructor. }
  destruct (decide (map_Forall (fun p t => is_Some (c !! p) -> running t = true ->
    eventfds s !! _evfd t = Some 0) (objects s))) as [Hz|Hz].
  - right. intros p k Hk. simpl in *. pose proof (Hidle p k Hk) as E. simpl in E. subst.
    split; [done|]. intros t Ht. apply (Hz p t Ht). by eexists.
  - left. apply map_not_Forall in Hz as (p & t & Ht & Hne); [|intros; apply _].
    destruct (c !! p) as [k|] eqn:Ek; [|destruct Hne; by intros []].
    pose proof (Hidle p k Ek) as E. simpl in E. subst k.
    destruct (running t) eqn:Er; [|by destruct Hne].
    destruct (wf_fd _ (inv_wf _ Hi) p t Ht Er) as (n & Hn & Hn0). simpl in Hn.
    eexists _, _. apply (Work_wake s c p t n); [done..|].
    destruct (decide (n = 0)) as [->|]; [|lia]. destruct Hne. intros _ _. done.
Qed.
End live.
