(* ===== verification/TasksStart.v ===== *)
(** * TasksStart: what [init] makes of the tasks

    [init] starts the loop of every task whose eventfd could be made, and the
    system it makes satisfies the invariants. *)
From S2P Require Import Prelude Mem Reply StdMap Timers Tasks TasksFacts TasksInv TasksLive.
From stdpp Require Import list list_numbers strings sets gmap.
From Stdlib Require Import ZArith Lia.
Open Scope Z_scope.

Section start.
Context {W : Type} {worker : Worker W} {wk_inv : WorkerInv W} {laws : WorkerLaws W} {L : Libevent}.
Implicit Types (t : task_base W) (s : task_manager W) (x : system W) (m : TASK_MSG).

(** What the operating system gives: the descriptors of different tasks
    differ. *)
Definition os_ok (os : Z -> Z * bool) : Prop :=
  forall p q, 0 <= (os p).1 -> (os p).1 = (os q).1 -> p = q.

(** The map names the tasks it holds. *)
Definition named s : Prop :=
  std_sorted (task_map s) /\
  forall name p, std_find name (task_map s) = Some p ->
  exists t, objects s !! p = Some t /\ _name t = name.

(** The tasks of an application before [init]. *)
Record built s : Prop := {
  built_named : named s;
  built_task p t : objects s !! p = Some t ->
    _task_queue t = [] /\ _tmp_task_queue t = [] /\ running t = false /\
    exists w, this t = WorkerTask w /\ worker_ok w
}.

(** The marks of the heartbeat. *)
Definition marks (d : derived W) : list (bytes * bool) :=
  match d with ManagerTask d => hb_map d | WorkerTask _ => [] end.

(** During [init]; [p0] is the task of the manager. *)
Record prepared (os : Z -> Z * bool) (p0 : Z) s : Prop := {
  pr_named : named s;
  pr_task0 : std_find TASK0 (task_map s) = Some p0;
  pr_queues p t : objects s !! p = Some t -> _task_queue t = [] /\ _tmp_task_queue t = [];
  pr_run p t : objects s !! p = Some t -> running t = true ->
    std_find (_name t) (task_map s) = Some p /\
    0 <= _evfd t /\ _evfd t = (os p).1 /\ eventfds s !! _evfd t = Some 0;
  pr_kind p t : objects s !! p = Some t ->
    this_ok (this t) /\ (is_manager (this t) = true <-> p = p0);
  pr_marks p t : objects s !! p = Some t -> marks (this t) = []
}.

Lemma new_built : built new_task_manager.
Proof. split; [split; [constructor|done]|done]. Qed.

(** [add_tasks] of a new task. *)
Lemma add_tasks_built s p name w : built s -> objects s !! p = None -> worker_ok w ->
  exists s', add_tasks p (set_object s p (new_task name w)) = Some (true, s') /\ built s'.
Proof.
  intros [[Hs Hn] Ht] Hp Hw. unfold add_tasks. simpl. rewrite lookup_insert_eq. simpl.
  eexists. split; [done|]. split; [split|]; simpl.
  - by apply sorted_set.
  - intros name' q Hq. rewrite find_set in Hq. case_decide as Hd.
    + injection Hq as <-. subst. eexists. by rewrite lookup_insert_eq.
    + destruct (Hn name' q Hq) as (t & Ht' & <-). exists t.
      rewrite lookup_insert_ne; [done|]. congruence.
  - intros q t [[<- <-]|[_ Hq]]%lookup_insert_Some; [|by eapply Ht].
    split_and?; [done..|]. by exists w.
Qed.

(** Changing a task that keeps its name, queues and class. *)
Lemma prepared_object os p0 s p t t' :
  prepared os p0 s -> objects s !! p = Some t -> running t = false ->
  _name t' = _name t -> _task_queue t' = _task_queue t ->
  _tmp_task_queue t' = _tmp_task_queue t -> is_manager (this t') = is_manager (this t) ->
  this_ok (this t') -> marks (this t') = marks (this t) ->
  (running t' = true -> std_find (_name t) (task_map s) = Some p /\
    0 <= _evfd t' /\ _evfd t' = (os p).1 /\ eventfds s !! _evfd t' = Some 0) ->
  prepared os p0 (set_object s p t').
Proof.
  intros [[Hs Hn] H0 Hq Hr Hk Hm] Ht Hf E1 E2 E3 E4 Hok Em Hrun. split; [split; [done|]|done|..]; simpl.
  - intros name q Hf'. destruct (Hn name q Hf') as (u & Hu & <-).
    destruct (decide (p = q)) as [->|]; [|by rewrite lookup_insert_ne; eauto].
    rewrite lookup_insert_eq. rewrite Ht in Hu. injection Hu as <-. eauto.
  - intros q u [[<- <-]|[_ Hu]]%lookup_insert_Some; [|eauto]. rewrite E2, E3. by apply (Hq p).
  - intros q u [[<- <-]|[_ Hu]]%lookup_insert_Some; [|eauto]. rewrite E1. apply Hrun.
  - intros q u [[<- <-]|[_ Hu]]%lookup_insert_Some; [|eauto]. rewrite E4. split; [done|].
    by apply (Hk p).
  - intros q u [[<- <-]|[_ Hu]]%lookup_insert_Some; [|eauto]. rewrite Em. by apply (Hm p).
Qed.

Lemma prepared_eventfd os p0 s fd : prepared os p0 s -> prepared os p0 (set_eventfd s fd 0).
Proof.
  intros [Hn H0 Hq Hr Hk Hm]. split; simpl; try done.
  intros p t Ht Hrun. destruct (Hr p t Ht Hrun) as (? & ? & ? & ?). split_and?; try done.
  destruct (decide (fd = _evfd t)) as [->|]; by simplify_map_eq.
Qed.

Lemma on_before_loop_some t : exists t', on_before_loop t = Some t' /\
  _name t' = _name t /\ _task_queue t' = _task_queue t /\
  _tmp_task_queue t' = _tmp_task_queue t /\ is_manager (this t') = is_manager (this t) /\
  (this_ok (this t) -> this_ok (this t')) /\ marks (this t') = marks (this t).
Proof.
  unfold on_before_loop, start_hb. destruct (this t) as [d|w] eqn:E.
  - destruct (getTimer _ _) as [tid tm]. eexists. by split_and?.
  - exists t. rewrite E. by split_and?.
Qed.

Lemma set_hb_interval_some i t : exists t', set_hb_interval i t = Some t' /\
  _name t' = _name t /\ _task_queue t' = _task_queue t /\ running t' = running t /\
  _tmp_task_queue t' = _tmp_task_queue t /\ is_manager (this t') = is_manager (this t) /\
  (this_ok (this t) -> this_ok (this t')) /\ marks (this t') = marks (this t).
Proof.
  unfold set_hb_interval. destruct (this t) as [d|w] eqn:E.
  - destruct (negb _).
    + unfold start_hb. simpl. rewrite E. destruct (getTimer _ _) as [tid tm].
      eexists. by split_and?.
    + eexists. split; [done|]. simpl. by rewrite E.
  - eexists. split; [done|]. simpl. by rewrite E.
Qed.

Lemma init_task_prepared os p0 s p t : prepared os p0 s ->
  objects s !! p = Some t -> running t = false -> std_find (_name t) (task_map s) = Some p ->
  exists b s', init_task (os p).1 (os p).2 p s = Some (b, s') /\ prepared os p0 s' /\
  task_map s' = task_map s /\ mgr_hb_itval s' = mgr_hb_itval s /\
  (forall q u, p <> q -> objects s !! q = Some u -> objects s' !! q = Some u) /\
  exists t', objects s' !! p = Some t' /\ (0 <= (os p).1 -> (os p).2 = true -> running t' = true).
Proof.
  intros Hp Ht Hr Hf. unfold init_task. rewrite Ht. simpl.
  pose proof (pr_kind _ _ _ Hp p t Ht) as [Hok _].
  assert (forall s1 t1 q u, p <> q -> objects s !! q = Some u -> objects s1 = objects s ->
    objects (set_object s1 p t1) !! q = Some u) as Hother.
  { intros s1 t1 q u Hne Hu E. simpl. by rewrite lookup_insert_ne, E. }
  destruct ((os p).1 <? 0) eqn:Efd; bool_to_prop.
  { eexists _, _. split; [done|]. split_and?; [by eapply prepared_object|done|done| |].
    - intros q u Hne Hu. by apply Hother.
    - eexists. simpl. rewrite lookup_insert_eq. split; [done|lia]. }
  destruct (os p).2; simpl.
  - destruct (on_before_loop_some (set_loop t (os p).1 false))
      as (t' & -> & E1 & E2 & E3 & E4 & E5 & E6).
    eexists _, _. split; [done|]. split_and?; [|done|done| |].
    + eapply prepared_object; [by apply prepared_eventfd|done|done|done..| | |]; [by apply E5|done|].
      intros _. split_and?; [done|done|done|]. apply lookup_insert_eq.
    + intros q u Hne Hu. by apply Hother.
    + eexists. simpl. by rewrite lookup_insert_eq.
  - eexists _, _. split; [done|]. split_and?; [|done|done| |].
    + by eapply prepared_object; [apply prepared_eventfd|..].
    + intros q u Hne Hu. by apply Hother.
    + eexists. simpl. by rewrite lookup_insert_eq.
Qed.

(** A task whose eventfd and event can be made runs after [init]. *)
Definition will_run (os : Z -> Z * bool) (p : Z) : Prop := 0 <= (os p).1 /\ (os p).2 = true.

Lemma init_tasks_prepared os p0 it s : prepared os p0 s -> NoDup it.*1 ->
  (forall name p, (name, p) ∈ it -> std_find name (task_map s) = Some p) ->
  (forall name p t, (name, p) ∈ it -> name <> TASK0 -> objects s !! p = Some t ->
     running t = false) ->
  exists s', init_tasks os it s = Some s' /\ prepared os p0 s' /\
  task_map s' = task_map s /\ mgr_hb_itval s' = mgr_hb_itval s /\
  (forall q u, (forall name, (name, q) ∈ it -> name = TASK0) ->
     objects s !! q = Some u -> objects s' !! q = Some u) /\
  (forall name p, (name, p) ∈ it -> name <> TASK0 -> will_run os p ->
     exists t, objects s' !! p = Some t /\ running t = true).
Proof.
  revert s. induction it as [|[name p] it IH]; intros s Hp Hnd Hin Hrun.
  { exists s. simpl. split_and?; try done. intros ? ? ?%not_elem_of_nil. done. }
  apply NoDup_cons in Hnd as [Hni Hnd]. simpl.
  destruct (decide (name = TASK0)) as [->|Hne].
  { destruct (IH s) as (s' & E & H1 & H2 & H3 & H4 & H5); [done..| | |].
    - intros name q Hq. apply Hin. by right.
    - intros name q t Hq. apply Hrun. by right.
    - exists s'. split_and?; try done.
      + intros q u Hq. apply H4. intros name Hn. apply Hq. by right.
      + intros name q [[= -> ->]|Hq]%elem_of_cons Hne; [done|]. by eapply H5. }
  assert (std_find name (task_map s) = Some p) as Hf by (apply Hin; by left).
  destruct (proj2 (pr_named _ _ _ Hp) name p Hf) as (t & Ht & En).
  assert (running t = false) as Hr by (eapply Hrun; [by left|done..]).
  destruct (init_task_prepared os p0 s p t) as (b & s1 & -> & Hp1 & Em & Ei & Ho & t1 & Ht1 & Hr1);
    [done..|congruence|]. simpl.
  assert (forall nm q, (nm, q) ∈ it -> q <> p) as Hpq.
  { intros nm q Hq ->. destruct (proj2 (pr_named _ _ _ Hp) nm p) as (t2 & Ht2 & En2).
    - apply Hin. by right.
    - apply Hni. rewrite Ht in Ht2. injection Ht2 as <-. apply list_elem_of_fmap.
      exists (nm, p). split; [|done]. simpl. congruence. }
  destruct (IH s1) as (s' & E & H1 & H2 & H3 & H4 & H5); [done..| | |].
  - intros nm q Hq. rewrite Em. apply Hin. by right.
  - intros nm q u Hq Hnm Hu. pose proof (Hpq nm q Hq) as Hne'.
    destruct (proj2 (pr_named _ _ _ Hp) nm q) as (u0 & Hu0 & _); [apply Hin; by right|].
    rewrite (Ho q u0) in Hu by done. injection Hu as <-. eapply Hrun; [by right|done..].
  - exists s'. split_and?; try done; [congruence..| |].
    + intros q u Hq Hu. apply H4; [intros nm Hn; apply Hq; by right|].
      apply Ho; [|done]. intros <-. apply Hne, Hq. by left.
    + intros nm q [[= -> ->]|Hq]%elem_of_cons Hnm Hw; [|by eapply H5].
      destruct Hw. exists t1. split; [|by apply Hr1]. apply H4; [|done].
      intros nm' Hn'. by apply Hpq in Hn'.
Qed.

(** [init] returns, and starts every task that can be started. *)
Lemma init_prepared os p0 s : built s -> objects s !! p0 = None ->
  exists s', init os p0 s = Some (true, s') /\ prepared os p0 s' /\
  task_map s' = std_set TASK0 p0 (task_map s) /\
  forall name p, std_find name (task_map s') = Some p -> will_run os p ->
  exists t, objects s' !! p = Some t /\ running t = true.
Proof.
  intros [[Hs Hn] Hb] Hp0. unfold init, add_tasks. simpl. rewrite lookup_insert_eq. simpl.
  rewrite find_set_eq. set (s0 := set_task_map _ _).
  assert (prepared os p0 s0) as Hpr.
  { split; simpl; [split; simpl; [by apply sorted_set|]|by rewrite find_set_eq|..].
    - intros name q Hq. rewrite find_set in Hq. case_decide as Hd.
      + injection Hq as <-. subst. eexists. by rewrite lookup_insert_eq.
      + destruct (Hn name q Hq) as (t & Ht' & <-). exists t.
        rewrite lookup_insert_ne; [done|]. congruence.
    - intros q t [[<- <-]|[_ Hq]]%lookup_insert_Some; [done|]. by destruct (Hb q t Hq) as (? & ? & _).
    - intros q t [[<- <-]|[_ Hq]]%lookup_insert_Some; [done|].
      destruct (Hb q t Hq) as (_ & _ & E & _). congruence.
    - intros q t [[<- <-]|[_ Hq]]%lookup_insert_Some; [done|].
      destruct (Hb q t Hq) as (_ & _ & _ & w & -> & ?). simpl. split; [done|].
      split; [done|]. intros ->. congruence.
    - intros q t [[<- <-]|[_ Hq]]%lookup_insert_Some; [done|].
      destruct (Hb q t Hq) as (_ & _ & _ & w & -> & _). done. }
  assert (objects s0 !! p0 = Some new_manager_task) as Hm0 by apply lookup_insert_eq.
  destruct (init_tasks_prepared os p0 (task_map s0) s0) as (s1 & Es1 & Hp1 & Em & Ei & Ho & Hw).
  { done. }
  { apply sorted_NoDup. by apply sorted_set. }
  { intros name p Hin. apply elem_find; [by apply sorted_set|done]. }
  { intros name p t Hin Hne. simpl. intros [[<- <-]|[_ Hq]]%lookup_insert_Some; [done|].
    by destruct (Hb p t Hq) as (_ & _ & E & _). }
  assert (objects s1 !! p0 = Some new_manager_task) as Hm1.
  { apply Ho; [|done]. intros name Hin.
    destruct (proj2 (pr_named _ _ _ Hpr) name p0) as (t & Ht & <-).
    - apply elem_find; [by apply sorted_set|done].
    - rewrite Hm0 in Ht. by injection Ht as <-. }
  change (std_set TASK0 p0 (task_map s)) with (task_map s0). rewrite Es1.
  cbn [mbind option_bind]. rewrite (pr_task0 _ _ _ Hp1).
  cbn [mbind option_bind]. rewrite Hm1. cbn [mbind option_bind].
  destruct (set_hb_interval_some (mgr_hb_itval s1) new_manager_task)
    as (t' & -> & E1 & E2 & E3 & E4 & E5 & E6 & E7). cbn [mbind option_bind].
  assert (prepared os p0 (set_object s1 p0 t')) as Hp2.
  { eapply prepared_object; [done|exact Hm1|done..| | |]; [by apply E6|done|]. rewrite E3. done. }
  destruct (init_task_prepared os p0 (set_object s1 p0 t') p0 t')
    as (b & s2 & E & Hp3 & Em' & _ & Ho' & t2 & Ht2 & Hr2);
    [done|simpl; by rewrite lookup_insert_eq|by rewrite E3|rewrite E1; apply (pr_task0 _ _ _ Hp1)|].
  rewrite E. exists s2. split; [done|]. split; [done|]. split; [by rewrite Em'; simpl|].
  intros name p Hf Hwr. destruct (decide (p = p0)) as [->|Hne].
  { exists t2. split; [done|]. destruct Hwr. by apply Hr2. }
  rewrite Em' in Hf. simpl in Hf. rewrite Em in Hf.
  destruct (Hw name p) as (t & Ht & Hr); [by apply find_elem| |done|].
  - intros ->. pose proof (pr_task0 _ _ _ Hpr) as H0. congruence.
  - exists t. split; [|done]. apply Ho'; [done|]. simpl. by rewrite lookup_insert_ne.
Qed.

Lemma prepared_typed_name os p0 s p t : prepared os p0 s -> objects s !! p = Some t ->
  running t = true -> _name t = TASK0 <-> is_manager (this t) = true.
Proof.
  intros Hp Ht Hr. destruct (pr_run _ _ _ Hp p t Ht Hr) as (Hf & _).
  destruct (pr_kind _ _ _ Hp p t Ht) as [_ Hk]. rewrite Hk. pose proof (pr_task0 _ _ _ Hp) as H0.
  split; [intros E; rewrite E in Hf; congruence|intros ->].
  destruct (proj2 (pr_named _ _ _ Hp) TASK0 p0 H0) as (t' & Ht' & <-). congruence.
Qed.

Lemma started_code s clients p k : code (started s clients) !! p = Some k -> k = [].
Proof. intros (_ & <-)%lookup_gset_to_gmap_Some. done. Qed.

Lemma started_thread s clients p t : objects s !! p = Some t ->
  is_Some (code (started s clients) !! p) <-> running t = true.
Proof.
  intros Ht. unfold started. simpl. split.
  - intros [k ([Hd|Hl]%elem_of_union & _)%lookup_gset_to_gmap_Some].
    + apply elem_of_dom in Hd as [u [Hu Hr]%map_lookup_filter_Some]. simpl in Hr. congruence.
    + apply elem_of_list_to_set, list_elem_of_filter in Hl as [E _]. congruence.
  - intros Hr. exists []. apply lookup_gset_to_gmap_Some. split; [|done].
    apply elem_of_union_l, elem_of_dom. exists t. by apply map_lookup_filter_Some.
Qed.

(** The system after [init]. *)
Lemma started_inv os p0 s clients : os_ok os -> prepared os p0 s ->
  inv (started s clients).
Proof.
  intros Hos Hp. split; simpl.
  - split.
    + apply (pr_named _ _ _ Hp).
    + intros p t Ht Hr. by destruct (pr_run _ _ _ Hp p t Ht Hr).
    + intros p t Ht Hr. destruct (pr_run _ _ _ Hp p t Ht Hr) as (_ & _ & _ & ?). by exists 0.
    + intros p q t u Ht Hu Hr1 Hr2 E.
      destruct (pr_run _ _ _ Hp p t Ht Hr1) as (_ & H1 & H2 & _).
      destruct (pr_run _ _ _ Hp q u Hu Hr2) as (_ & _ & H3 & _). apply Hos; congruence.
  - intros p k Hk. apply started_code in Hk as ->. apply shape_nil_sends.
  - apply started_thread.
  - intros p t Ht Hne. by destruct (pr_queues _ _ _ Hp p t Ht).
  - intros p t Ht _ Hne. by destruct (pr_queues _ _ _ Hp p t Ht).
  - intros p t k Ht Hk. by apply started_code in Hk.
Qed.

Lemma started_typed os p0 s clients : prepared os p0 s -> typed (started s clients).
Proof.
  intros Hp. split; simpl.
  - intros p t Ht Hr. split; [by apply (pr_kind _ _ _ Hp p t)|by eapply prepared_typed_name|].
    destruct (pr_queues _ _ _ Hp p t Ht) as [-> ->]. constructor.
  - intros q k Hk. apply started_code in Hk as ->. apply typed_code_none.
    intros ? ?. apply not_elem_of_nil.
Qed.

Lemma started_pending os p0 s p : prepared os p0 s -> pending s p = [].
Proof.
  intros Hp. unfold pending. destruct (objects s !! p) as [t|] eqn:Ht; [|done].
  by destruct (pr_queues _ _ _ Hp p t Ht) as [-> ->].
Qed.
End start.
