(* ===== verification/TasksHeart.v ===== *)
(** * TasksHeart: the heartbeat

    While a task is marked as not having responded, its request or its
    response is on the way. *)
From S2P Require Import Prelude Mem Reply StdMap Timers Tasks TasksFacts TasksInv TasksLive TasksStart.
From stdpp Require Import list list_numbers strings sets gmap.
From Stdlib Require Import ZArith Lia.
Open Scope Z_scope.

Section heart.
Context {W : Type} {worker : Worker W} {wk_inv : WorkerInv W} {laws : WorkerLaws W} {L : Libevent}.
Implicit Types (t : task_base W) (s : task_manager W) (x y : system W) (m : TASK_MSG).

Definition request m : Prop := msg_type m = TASK_HB_REQ.
Definition response (name : bytes) m : Prop :=
  msg_type m = TASK_HB_RSP /\ msg_any m = AnyString name.

(** A message of [P] is in the queues of [p], or a thread is about to put it
    there. *)
Definition on_the_way x (p : Z) (P : TASK_MSG -> Prop) : Prop :=
  (exists r k m, code x !! r = Some k /\ InQueue p m ∈ k /\ P m) \/
  (exists m, m ∈ pending (mgr x) p /\ P m).

Lemma sent_to_elem p m l : Sent p m ∈ l -> m ∈ sent_to p l.
Proof.
  intros Hin. apply list_elem_of_omap. eexists. split; [done|]. simpl. by rewrite decide_True.
Qed.

Lemma handled_by_elem p m l : m ∈ handled_by p l -> Handled p m ∈ l.
Proof.
  intros ([q m'|q m'|q] & Hin & E)%list_elem_of_omap; simpl in E; try done.
  case_decide; [|done]. injection E as ->. by subst.
Qed.

(** What a step does to a message that is about to be put in a queue. *)
Lemma step_code x l y r k p m : inv x -> step x l y -> code x !! r = Some k ->
  InQueue p m ∈ k ->
  (exists k', code y !! r = Some k' /\ InQueue p m ∈ k') \/ Sent p m ∈ l.
Proof.
  intros Hi Hs Hk Hin.
  assert (forall (c : gmap Z (list act)) q k', r <> q -> c !! r = Some k ->
    exists k1, <[q := k']> c !! r = Some k1 /\ InQueue p m ∈ k1) as Hother.
  { intros c q k' Hne Hc. exists k. by rewrite lookup_insert_ne. }
  assert (forall (c : gmap Z (list act)) q k', c !! q = Some [] -> c !! r = Some k ->
    exists k1, <[q := k']> c !! r = Some k1 /\ InQueue p m ∈ k1) as Hidle.
  { intros c q k' Hq Hc. apply Hother; [|done]. intros <-. rewrite Hq in Hc.
    injection Hc as <-. by apply not_elem_of_nil in Hin. }
  destruct Hs as [Hs|Hs];
    [destruct Hs as [s c k0 q a l k' s' Hq Hex|s c q t n Hq Ht Hrt Hn Hn0]|
     destruct Hs as [s c q name m' Hq Ho|s c q t tid tm l k0 s' Hq Ho|s c q t w w' Hq Ho Hrt Ht Hev]];
    simpl in *; try (left; by eapply Hidle); [|left; eauto].
  destruct (decide (r = q)) as [->|Hne]; [|left; by eapply Hother].
  rewrite Hq in Hk. injection Hk as <-. rewrite lookup_insert_eq.
  pose proof (inv_shape _ Hi q _ Hq) as Hsh. simpl in Hsh. apply shape_cons in Hsh.
  apply elem_of_cons in Hin as [<-|Hin].
  { right. simpl in Hex. apply bind_Some in Hex as (s1 & _ & [= <- _ _]). by left. }
  left. exists k'. split; [done|].
  destruct a as [p' m'|p'|p'|p'|p']; simpl in Hex; apply bind_Some in Hex as (o & _ & Hex).
  - by injection Hex as _ <- _.
  - by injection Hex as _ <- _.
  - destruct Hsh as (_ & _ & ->). rewrite !elem_of_cons in Hin.
    destruct Hin as [?|[?|?%not_elem_of_nil]]; done.
  - by injection Hex as _ <- _.
  - destruct Hsh as (_ & _ & ->). by apply not_elem_of_nil in Hin.
Qed.

(** A message on the way stays so until it is handled. *)
Lemma step_on_the_way x l y p P : inv x -> step x l y -> on_the_way x p P ->
  on_the_way y p P \/ exists m, P m /\ Handled p m ∈ l.
Proof.
  intros Hi Hs Hw. destruct (step_inv x l y Hi Hs) as [_ Hf]. specialize (Hf p).
  assert (forall m, P m -> m ∈ pending (mgr x) p ++ sent_to p l ->
    on_the_way y p P \/ exists m, P m /\ Handled p m ∈ l) as Hin.
  { intros m Hm Hin. rewrite Hf in Hin. apply elem_of_app in Hin as [Hh|Hp].
    - right. exists m. split; [done|]. by apply handled_by_elem.
    - left. right. eauto. }
  destruct Hw as [(r & k & m & Hk & Hkin & Hm)|(m & Hp & Hm)].
  - destruct (step_code x l y r k p m Hi Hs Hk Hkin) as [(k' & ? & ?)|Hsent].
    + left. left. eauto 10.
    + apply (Hin m); [done|]. apply elem_of_app. right. by apply sent_to_elem.
  - apply (Hin m); [done|]. apply elem_of_app. by left.
Qed.

(** The step in which a message is handled. *)
Lemma step_handled x l y p m : inv x -> step x l y -> Handled p m ∈ l ->
  is_Some (code x !! p) /\
  exists k, code y !! p = Some k /\ handle_msg p (mgr x) = Some (l, k, mgr y).
Proof.
  intros Hi Hs Hin.
  destruct Hs as [Hs|Hs];
    [destruct Hs as [s c k0 q a l k' s' Hq Hex|s c q t n Hq Ht Hrt Hn Hn0]|
     destruct Hs as [s c q name m' Hq Ho|s c q t tid tm l k0 s' Hq Ho Hrt Htm Hb|s c q t w w' Hq Ho Hrt Ht Hev]];
    simpl in *; try by apply not_elem_of_nil in Hin.
  - pose proof (inv_shape _ Hi q _ Hq) as Hsh. simpl in Hsh. apply shape_cons in Hsh.
    destruct a as [p' m'|p'|p'|p'|p']; simpl in Hex; apply bind_Some in Hex as (o & Eo & Hex).
    + injection Hex as <- _ _. by apply list_elem_of_singleton in Hin.
    + injection Hex as <- _ _. by apply not_elem_of_nil in Hin.
    + destruct (read_evfd _ _) as [[n s1]|]; injection Hex as <- _ _; by apply not_elem_of_nil in Hin.
    + injection Hex as <- _ _. by apply not_elem_of_nil in Hin.
    + destruct Hsh as (-> & _ & ->). destruct o as [[l1 k1] s1]. injection Hex as <- <- <-.
      rewrite app_nil_r. destruct (handle_msg_inv _ _ _ _ _ (inv_wf _ Hi) Eo)
        as (t & _ & [(_ & -> & _)|(m1 & rest & _ & -> & _)]); [by apply not_elem_of_nil in Hin|].
      apply list_elem_of_singleton in Hin as [= -> ->]. split; [by eexists|].
      exists k1. by rewrite lookup_insert_eq.
  - exfalso. apply on_heartbeat_beat in Hb as [_ _ _ _ Hl].
    + destruct (Hl p) as [_ E]. assert (m ∈ handled_by p l) as Hm.
      { apply list_elem_of_omap. eexists. split; [done|]. simpl. by rewrite decide_True. }
      rewrite E in Hm. by apply not_elem_of_nil in Hm.
    + eapply (wf_same s); [by eapply same_tasks_object|by apply fds_same|apply (inv_wf _ Hi)].
Qed.

(** ** The invariant of the heartbeat

    [p0] is task0, with the fields [d] of a [manager_task]. *)
Definition task0 s (p0 : Z) (d : manager_task) : Prop :=
  std_find TASK0 (task_map s) = Some p0 /\
  exists t, objects s !! p0 = Some t /\ this t = ManagerTask d.

Definition hb_inv x : Prop :=
  forall p0 d, task0 (mgr x) p0 d ->
  std_sorted (hb_map d) /\
  forall name, name <> TASK0 -> std_find name (hb_map d) = Some false ->
  exists q, std_find name (task_map (mgr x)) = Some q /\
    (on_the_way x q request \/ on_the_way x p0 (response name)).

(** What a step does to the fields of task0: nothing that matters here, the
    response of a task, or a new round. *)
Inductive hb_change x (l : list note) y (p0 : Z) (d d' : manager_task) : Prop :=
  | Hb_same : hb_map d' = hb_map d ->
      (forall m name, response name m -> ~ Handled p0 m ∈ l) -> hb_change x l y p0 d d'
  | Hb_response m name : response name m -> l = [Handled p0 m] ->
      hb_map d' = std_set name true (hb_map d) -> hb_change x l y p0 d d'
  | Hb_round k : hb_map d' = hb_reset (task_map (mgr x)) -> code y !! p0 = Some k ->
      (forall name q, name <> TASK0 -> std_find name (task_map (mgr x)) = Some q ->
         exists m, InQueue q m ∈ k /\ request m) ->
      hb_change x l y p0 d d'.

Lemma hb_reset_loop (tm : list (bytes * Z)) (hb : list (bytes * bool)) : std_sorted hb ->
  std_sorted (foldl (fun hb it => std_insert it.1 false hb) hb tm) /\
  forall name b, std_find name (foldl (fun hb it => std_insert it.1 false hb) hb tm) = Some b ->
  std_find name hb = Some b \/ (b = false /\ name ∈ tm.*1).
Proof.
  revert hb. induction tm as [|[n p] tm IH]; intros hb Hs; simpl; [eauto|].
  destruct (IH (std_insert n false hb)) as [H1 H2]; [by apply sorted_insert|].
  split; [done|]. intros name b Hf. destruct (H2 name b Hf) as [H3|[-> Hin]];
      [|right; split; [done|]; by right].
  rewrite find_insert in H3. case_decide as Hd; [|by left]. subst.
  destruct (std_find n hb); simpl in H3; [by left|]. right. injection H3 as <-.
    split; [done|by left].
Qed.

Lemma hb_reset_sorted tm : std_sorted (hb_reset tm).
Proof. apply (hb_reset_loop tm []). constructor. Qed.

Lemma hb_reset_find tm name b : std_find name (hb_reset tm) = Some b ->
  exists q, std_find name tm = Some q.
Proof.
  intros Hf. destruct (hb_reset_loop tm []) as [_ H]; [constructor|].
  destruct (H name b Hf) as [?|[_ Hin]]; [done|].
  destruct (std_find name tm) eqn:E; [eauto|]. by apply find_None in E.
Qed.

Lemma hb_requests_all s it n name q : (name, q) ∈ it -> name <> TASK0 ->
  std_find name (task_map s) = Some q ->
  exists m, InQueue q m ∈ (hb_requests it n s).1 /\ request m.
Proof.
  revert n. induction it as [|[nm p] it IH]; intros n Hin Hne Hf; [by apply not_elem_of_nil in Hin|].
  simpl. apply elem_of_cons in Hin as [[= -> ->]|Hin].
  - case_decide; [done|]. destruct (hb_requests it _ s) as [k n'] eqn:E. simpl.
    eexists. split; [unfold send2task_acts; rewrite Hf; by left|done].
  - case_decide; [by apply IH|].
    destruct (IH (u32 (n + 1)) Hin Hne Hf) as (m & Hm & Hr).
    destruct (hb_requests it _ s) as [k n'] eqn:E. simpl in *.
    exists m. split; [|done]. apply elem_of_app. by right.
Qed.

Lemma task0_same_object s s' p0 d : task_map s' = task_map s ->
  objects s' !! p0 = objects s !! p0 -> task0 s p0 d -> task0 s' p0 d.
Proof. intros Hm Ho (Hf & t & Ht & Hd). split; [congruence|]. exists t. by rewrite Ho. Qed.

(** Only the loop of task0 handles what is in its queue. *)
Lemma handle_change s p l k s' p0 d (c c' : gmap Z (list act)) :
  wf s -> handle_msg p s = Some (l, k, s') -> task0 s p0 d ->
  exists d', task0 s' p0 d' /\ hb_change (mk_system s c) l (mk_system s' c') p0 d d'.
Proof.
  intros Hw H H0. unfold handle_msg in H. apply bind_Some in H as (t & Ht & H).
  destruct (decide (p = p0)) as [->|Hne].
  2: { exists d. assert (task_map s' = task_map s /\ objects s' !! p0 = objects s !! p0 /\
         forall m, ~ Handled p0 m ∈ l) as (Hm & Ho & Hl).
       { destruct (_tmp_task_queue t) as [|m rest].
         { injection H as <- <- <-. split_and?; [done..|]. intros ? []%not_elem_of_nil. }
         repeat case_decide; try apply bind_Some in H as (d' & _ & H); injection H as <- <- <-;
           simpl; (split_and?; [done|by rewrite lookup_insert_ne|]);
           intros m' [= Hp _]%list_elem_of_singleton; congruence. }
       split; [by eapply task0_same_object|]. apply Hb_same; [done|]. intros m name _. apply Hl. }
  destruct H0 as (Hf & t0 & Ht0 & Ed). rewrite Ht in Ht0. injection Ht0 as <-.
  assert (_name t = TASK0) as En.
  { destruct (wf_map _ Hw _ _ Hf) as (t1 & Ht1 & E). rewrite Ht in Ht1. by injection Ht1 as <-. }
  destruct (_tmp_task_queue t) as [|m rest].
  { injection H as <- <- <-. exists d. split; [by split; eauto|].
    apply Hb_same; [done|]. intros ? ? _ []%not_elem_of_nil. }
  simpl in H. rewrite (decide_True (P := _name t = TASK0)), Ed in H by done. simpl in H.
  assert (forall d' rest', task0 (set_object s p0 (set_this (set_queues t (_task_queue t) rest')
    (ManagerTask d'))) p0 d') as Hnew.
  { intros d' rest'. split; [done|]. simpl. rewrite lookup_insert_eq. by eexists. }
  unfold manager_on_message in H. destruct (decide (msg_type m = TASK_HB_REQ)) as [Ety|Ety].
  - rewrite decide_False in H by congruence. simpl in H. injection H as <- <- <-.
    exists d. split; [apply Hnew|]. apply Hb_same; [done|].
    intros m' name [E _] [= ->]%list_elem_of_singleton. congruence.
  - destruct (decide (msg_type m = TASK_HB_RSP)) as [Ersp|Ersp]; simpl in H.
    + destruct (msg_any m) as [name| | |] eqn:Ea; simpl in H; [|done..].
      injection H as <- <- <-. eexists. split; [apply Hnew|].
      eapply (Hb_response _ _ _ _ _ _ m name); [by split|done|done].
    + injection H as <- <- <-. exists d. split; [apply Hnew|]. apply Hb_same; [done|].
      intros m' name [E _] [= ->]%list_elem_of_singleton. congruence.
Qed.

Lemma task0_object s p t t' p0 d : objects s !! p = Some t -> this t' = this t ->
  task0 s p0 d -> task0 (set_object s p t') p0 d.
Proof.
  intros Ht Et (Hf & t0 & Ht0 & Ed). split; [done|]. simpl.
  destruct (decide (p = p0)) as [->|]; [|rewrite lookup_insert_ne by done; eauto].
  rewrite lookup_insert_eq. eexists. split; [done|]. congruence.
Qed.

Lemma restarted_not_handled p m (l : list Z) : ~ Handled p m ∈ (Restarted <$> l).
Proof. by intros (? & ? & _)%list_elem_of_fmap. Qed.

(** The heartbeat timer. *)
Lemma heartbeat_change s p0 d l k s' (c c' : gmap Z (list act)) :
  std_sorted (task_map s) -> task0 s p0 d -> on_heartbeat p0 s = Some (l, k, s') ->
  c' !! p0 = Some k ->
  exists d', task0 s' p0 d' /\ hb_change (mk_system s c) l (mk_system s' c') p0 d d'.
Proof.
  intros Hso H0 H Hc. pose proof H0 as (Hf & t & Ht & Ed). unfold on_heartbeat in H.
  rewrite Ht in H. simpl in H. rewrite Ed in H.
  assert (forall d', task0 (set_object s p0 (set_this t (ManagerTask d'))) p0 d') as Hnew.
  { intros d'. split; [done|]. simpl. rewrite lookup_insert_eq. by eexists. }
  destruct (first_loop d).
  { injection H as <- <- <-. eexists. split; [apply Hnew|]. apply Hb_same; [done|].
    intros ? ? _ []%not_elem_of_nil. }
  destruct (hb_check (hb_map d) (task_map s)) as [l1 all].
  destruct all; simpl in H.
  - unfold send_hb_all in H. set (s1 := set_object s p0 _) in H.
    destruct (hb_requests _ _ s1) as [k1 n] eqn:Ek. injection H as <- <- <-.
    eexists. split; [|eapply (Hb_round _ _ _ _ _ _ k1); [|done|]].
    + split; [done|]. eexists. split; [apply lookup_insert_eq|done].
    + done.
    + intros name q Hne Hq.
      destruct (hb_requests_all s1 (task_map s1) (_seq_id s1) name q) as (m & Hm & ?).
      * by apply find_elem.
      * done.
      * done.
      * rewrite Ek in Hm. eauto.
  - injection H as <- <- <-. exists d. split; [done|]. apply Hb_same; [done|].
    intros m name _. apply restarted_not_handled.
Qed.

Lemma step_change x l y p0 d : inv x -> typed x -> std_sorted (task_map (mgr x)) ->
  step x l y -> task0 (mgr x) p0 d ->
  exists d', task0 (mgr y) p0 d' /\ hb_change x l y p0 d d'.
Proof.
  intros Hi Hty Hso Hs H0.
  assert (forall l y, task0 (mgr y) p0 d -> (forall m, ~ Handled p0 m ∈ l) ->
    exists d', task0 (mgr y) p0 d' /\ hb_change x l y p0 d d') as Hsame.
  { intros l1 y1 H1 Hl. exists d. split; [done|]. apply Hb_same; [done|]. intros m name _. apply Hl. }
  assert (forall m, ~ Handled p0 m ∈ []) as Hnil by (intros ? []%not_elem_of_nil).
  destruct Hs as [Hs|Hs];
    [destruct Hs as [s c k0 q a l k' s' Hq Hex|s c q t n Hq Ht Hrt Hn Hn0]|
     destruct Hs as [s c q name m' Hq Ho|s c q t tid tm l k0 s' Hq Ho Hrt Htm Hb|s c q t w w' Hq Ho Hrt Ht Hev]];
    cbn [mgr code] in Hso, H0; try by apply Hsame.
  - pose proof (inv_shape _ Hi q _ Hq) as Hsh. simpl in Hsh. apply shape_cons in Hsh.
    destruct a as [p' m'|p'|p'|p'|p']; simpl in Hex; apply bind_Some in Hex as (o & Eo & Hex).
    + injection Hex as <- <- <-. unfold in_queue in Eo. apply bind_Some in Eo as (t & Ht & [= <-]).
      apply Hsame; [by eapply task0_object|]. by intros m [=]%list_elem_of_singleton.
    + injection Hex as <- <- <-. apply Hsame; [|done]. simpl.
      destruct (write_evfd_same (_evfd o) s) as [[Hm _] Ho].
      eapply task0_same_object; [done|by rewrite Ho|done].
    + destruct (read_evfd _ _) as [[n s1]|] eqn:Er; injection Hex as <- <- <-; [|by apply Hsame].
      apply Hsame; [|done]. simpl. unfold read_evfd in Er.
      repeat case_match; simplify_eq. done.
    + injection Hex as <- <- <-. apply Hsame; [by eapply task0_object|done].
    + destruct o as [[l1 k1] s1]. injection Hex as <- <- <-.
      eapply handle_change; eauto. apply (inv_wf _ Hi).
  - set (s1 := set_object s q (set_timers t (_hb_itval t) tm)) in *.
    assert (q = p0) as ->.
    { assert (_name t = TASK0) as En.
      { apply (typed_names s c q t Hty Ho Hrt). unfold on_heartbeat in Hb. simpl in Hb.
        rewrite lookup_insert_eq in Hb. simpl in Hb. by destruct (this t). }
      pose proof (wf_self _ (inv_wf _ Hi) q t Ho Hrt) as Hf. simpl in Hf.
      destruct H0 as [Hf0 _]. congruence. }
    destruct (heartbeat_change s1 p0 d l k0 s' c (<[p0 := k0]> c)) as (d' & Hd' & Hch);
      [done|by eapply task0_object|done|apply lookup_insert_eq|].
    exists d'. split; [done|]. destruct Hch as [E Hl|m name Hm E Em|k1 E Hk Hall].
    + by apply Hb_same.
    + by eapply Hb_response.
    + by eapply Hb_round.
  - apply Hsame; [|done]. simpl. destruct H0 as (Hf & t0 & Ht0 & Ed).
    split; [done|]. simpl. exists t0. split; [|done]. rewrite lookup_insert_ne; [done|].
    intros ->. congruence.
Qed.

Lemma step_same x l y : inv x -> step x l y -> same_tasks (mgr x) (mgr y).
Proof.
  intros Hi Hs. destruct Hs as [Hs|Hs];
    [destruct Hs as [s c k0 q a l k' s' Hq Hex|s c q t n Hq Ht Hrt Hn Hn0]|
     destruct Hs as [s c q name m' Hq Ho|s c q t tid tm l k0 s' Hq Ho Hrt Htm Hb|s c q t w w' Hq Ho Hrt Ht Hev]];
    cbn [mgr]; try apply same_tasks_refl.
  - destruct a as [p' m'|p'|p'|p'|p']; simpl in Hex; apply bind_Some in Hex as (o & Eo & Hex).
    + injection Hex as _ _ <-. unfold in_queue in Eo. apply bind_Some in Eo as (t & Ht & [= <-]).
      by eapply same_tasks_object.
    + injection Hex as _ _ <-. apply write_evfd_same.
    + destruct (read_evfd _ _) as [[n s1]|] eqn:Er; injection Hex as _ _ <-;
        [|apply same_tasks_refl]. unfold read_evfd in Er. repeat case_match; simplify_eq.
      apply same_tasks_eventfd.
    + injection Hex as _ _ <-. by eapply same_tasks_object.
    + destruct o as [[l1 k1] s1]. injection Hex as _ _ <-.
      destruct (handle_msg_inv _ _ _ _ _ (inv_wf _ Hi) Eo)
        as (t & _ & [(_ & _ & _ & ->)|(m1 & rest & _ & _ & Htk & _)]);
        [apply same_tasks_refl|apply (took_tasks _ _ _ _ Htk)].
  - assert (same_tasks s (set_object s q (set_timers t (_hb_itval t) tm))) as Hst
      by (by eapply same_tasks_object).
    eapply same_tasks_trans; [exact Hst|]. eapply beat_tasks, on_heartbeat_beat; [|exact Hb].
    eapply (wf_same s); [done|by apply fds_same|apply (inv_wf _ Hi)].
  - eapply same_tasks_object; [done|]. unfold task_key. simpl. by rewrite Ht.
Qed.

Lemma task0_back s s' p0 d' : same_tasks s s' -> task0 s' p0 d' -> exists d, task0 s p0 d.
Proof.
  intros Hs (Hf & t' & Ht' & Ed). rewrite (same_map _ _ Hs) in Hf.
  eapply same_tasks_lookup in Ht' as (t & Ht & E); [|done]. injection E as _ _ _ E.
  rewrite Ed in E. destruct (this t) as [d|w] eqn:Et; [|done].
  exists d. split; [done|]. by exists t.
Qed.

Lemma task0_det s p0 d d' : task0 s p0 d -> task0 s p0 d' -> d = d'.
Proof. intros (_ & t & Ht & E) (_ & t' & Ht' & E'). congruence. Qed.

(** A task that handles a request is about to send the response. *)
Lemma handle_request s q l k s' m t p0 : handle_msg q s = Some (l, k, s') ->
  Handled q m ∈ l -> request m -> objects s !! q = Some t -> _name t <> TASK0 ->
  std_find TASK0 (task_map s) = Some p0 ->
  InQueue p0 (hb_response (_name t) m) ∈ k.
Proof.
  intros H Hin Hm Ht Hn Hf. unfold handle_msg in H. rewrite Ht in H. simpl in H.
  destruct (_tmp_task_queue t) as [|m1 rest]; [injection H as <- _ _; by apply not_elem_of_nil in Hin|].
  destruct (decide (msg_type m1 = TASK_HB_REQ)) as [Ety|Ety].
  - rewrite decide_False in H by done. injection H as <- <- _.
    apply list_elem_of_singleton in Hin as [= ->].
    unfold send2task_acts. rewrite Hf. by left.
  - apply bind_Some in H as (d & _ & H). injection H as <- _ _.
    apply list_elem_of_singleton in Hin as [= ->]. by destruct Ety.
Qed.

(** A request or a response that is on the way before a step. *)
Lemma step_flight x l y p0 name q : inv x -> step x l y ->
  std_find TASK0 (task_map (mgr x)) = Some p0 -> name <> TASK0 ->
  std_find name (task_map (mgr x)) = Some q ->
  (forall m, response name m -> ~ Handled p0 m ∈ l) ->
  on_the_way x q request \/ on_the_way x p0 (response name) ->
  on_the_way y q request \/ on_the_way y p0 (response name).
Proof.
  intros Hi Hs H0 Hne Hq Hl [Hw|Hw].
  - destruct (step_on_the_way x l y q request Hi Hs Hw) as [?|(m & Hm & Hin)]; [by left|right].
    destruct (step_handled x l y q m Hi Hs Hin) as (_ & k & Hk & Hh).
    destruct (wf_map _ (inv_wf _ Hi) name q Hq) as (t & Ht & <-).
    left. exists q, k, (hb_response (_name t) m). split; [done|].
    split; [by eapply handle_request|by split].
  - destruct (step_on_the_way x l y p0 (response name) Hi Hs Hw) as [?|(m & Hm & Hin)]; [by right|].
    by destruct (Hl m Hm).
Qed.

Lemma step_hb x l y : inv x -> typed x -> std_sorted (task_map (mgr x)) -> step x l y ->
  hb_inv x -> hb_inv y.
Proof.
  intros Hi Hty Hso Hs Hhb p0 d' H0'. pose proof (step_same x l y Hi Hs) as Hst.
  destruct (task0_back _ _ _ _ Hst H0') as [d H0].
  destruct (step_change x l y p0 d Hi Hty Hso Hs H0) as (d1 & H1 & Hch).
  rewrite (task0_det _ _ _ _ H1 H0') in Hch. clear d1 H1.
  destruct (Hhb p0 d H0) as [Hsd Hfl]. rewrite (same_map _ _ Hst).
  destruct Hch as [E Hl|m name0 Hm El E|k E Hk Hall]; rewrite E.
  - split; [done|]. intros name Hne Hf. destruct (Hfl name Hne Hf) as (q & Hq & Hw).
    exists q. split; [done|]. eapply step_flight; eauto. apply H0.
  - split; [by apply sorted_set|]. intros name Hne Hf. rewrite find_set in Hf.
    case_decide as Hd; [done|]. destruct (Hfl name Hne Hf) as (q & Hq & Hw).
    exists q. split; [done|]. eapply step_flight; eauto; [apply H0|].
    rewrite El. intros m' [_ Em'] [= ->]%list_elem_of_singleton. destruct Hm as [_ Em].
    congruence.
  - split; [apply hb_reset_sorted|]. intros name Hne Hf.
    destruct (hb_reset_find _ _ _ Hf) as [q Hq]. exists q. split; [done|].
    destruct (Hall name q Hne Hq) as (m & Hm & Hr). left. left. eauto 10.
Qed.

Lemma run_hb x l y : run step x l y -> inv x -> typed x -> std_sorted (task_map (mgr x)) ->
  hb_inv x -> hb_inv y.
Proof.
  induction 1 as [x|x l y l' z Hxy Hyz IH]; intros Hi Hty Hso Hhb; [done|]. apply IH.
  - by eapply step_inv.
  - destruct Hxy; eauto using work_typed, stimulus_typed.
  - by rewrite (same_map _ _ (step_same _ _ _ Hi Hxy)).
  - by eapply step_hb.
Qed.

(** In the check, a name that is not marked is no reason to restart. *)
Lemma hb_check_all hb tm : (forall name, (name, false) ∈ hb -> name = TASK0) ->
  hb_check hb tm = ([], true).
Proof.
  induction hb as [|[name b] hb IH]; intros Hall; simpl; [done|].
  assert (forall nm, (nm, false) ∈ hb -> nm = TASK0) as Hall' by (intros; apply Hall; by right).
  rewrite (IH Hall'). case_decide; [done|]. destruct b; [done|].
  destruct H. apply Hall. by left.
Qed.

(** ** A task that handles nothing

    [q] is the task of [name]. *)
Definition never_alive x (name : bytes) : Prop :=
  forall p0 d, task0 (mgr x) p0 d ->
  ~ on_the_way x p0 (response name) /\ std_find name (hb_map d) <> Some true.

(** The responses that a loop sends carry the name of its task. *)
Lemma handle_response s p l k s' p0 m name : wf s -> handle_msg p s = Some (l, k, s') ->
  InQueue p0 m ∈ k -> response name m ->
  exists t m', objects s !! p = Some t /\ _name t = name /\ Handled p m' ∈ l.
Proof.
  intros Hw H Hin [_ Hm]. unfold handle_msg in H. apply bind_Some in H as (t & Ht & H).
  destruct (_tmp_task_queue t) as [|m1 rest]; [injection H as _ <- _; by apply not_elem_of_nil in Hin|].
  assert (~ InQueue p0 m ∈ [HandleMsgs p]) as Hn by by intros [=]%list_elem_of_singleton.
  exists t, m1. split; [done|].
  destruct (decide (msg_type m1 = TASK_HB_REQ)) as [Ety|Ety].
  2: { apply bind_Some in H as (d & _ & H). injection H as _ <- _. done. }
  simpl in H. destruct (decide (_name t = TASK0)) as [En|En].
  { apply bind_Some in H as (d & _ & H). injection H as _ <- _. done. }
  injection H as <- <- _. split; [|by left]. apply elem_of_app in Hin as [Hin|]; [|done].
  unfold send2task_acts in Hin. destruct (std_find _ _); [|by apply not_elem_of_nil in Hin].
  rewrite !elem_of_cons in Hin. destruct Hin as [[= _ ->]|[?|?%not_elem_of_nil]]; [|done..].
  simpl in Hm. congruence.
Qed.

Lemma hb_requests_only s it n p m : InQueue p m ∈ (hb_requests it n s).1 -> request m.
Proof.
  revert n. induction it as [|[name q] it IH]; intros n Hin; simpl in Hin;
    [by apply not_elem_of_nil in Hin|].
  case_decide; [by eapply IH|]. specialize (IH (u32 (n + 1))).
  destruct (hb_requests it _ s) as [k n']. simpl in *.
  apply elem_of_app in Hin as [Hin|]; [|by apply IH].
  unfold send2task_acts in Hin. destruct (std_find _ _); [|by apply not_elem_of_nil in Hin].
  rewrite !elem_of_cons in Hin. by destruct Hin as [[= _ ->]|[?|?%not_elem_of_nil]].
Qed.

Lemma on_heartbeat_only s p0 l k s' p m : on_heartbeat p0 s = Some (l, k, s') ->
  InQueue p m ∈ k -> request m.
Proof.
  intros H Hin. unfold on_heartbeat in H. apply bind_Some in H as (t & _ & H).
  destruct (this t) as [d|w]; [|done].
  destruct (first_loop d); [injection H as _ <- _; by apply not_elem_of_nil in Hin|].
  destruct (hb_check _ _) as [l1 []]; simpl in H.
  - unfold send_hb_all in H. destruct (hb_requests _ _ _) as [k1 n] eqn:E. injection H as _ <- _.
    eapply hb_requests_only. by rewrite E.
  - injection H as _ <- _. by apply not_elem_of_nil in Hin.
Qed.

(** What is put in a queue was about to be. *)
Lemma sent_queued x l y p m : inv x -> step x l y -> Sent p m ∈ l ->
  exists r k, code x !! r = Some k /\ InQueue p m ∈ k.
Proof.
  intros Hi Hs Hin. destruct Hs as [Hs|Hs];
    [destruct Hs as [s c k0 q a l k' s' Hq Hex|s c q t n Hq Ht Hrt Hn Hn0]|
     destruct Hs as [s c q name' m' Hq Ho Happ|s c q t tid tm l k0 s' Hq Ho Hrt Htm Hb|s c q t w w' Hq Ho Hrt Ht Hev]];
    simpl in *; try by apply not_elem_of_nil in Hin.
  - exists q, (a :: k0). split; [done|]. apply elem_of_cons. left.
    destruct a as [p' m'|p'|p'|p'|p']; simpl in Hex; apply bind_Some in Hex as (o & Eo & Hex).
    + injection Hex as <- _ _. by apply list_elem_of_singleton in Hin as [= -> ->].
    + injection Hex as <- _ _. by apply not_elem_of_nil in Hin.
    + destruct (read_evfd _ _) as [[n s1]|]; injection Hex as <- _ _; by apply not_elem_of_nil in Hin.
    + injection Hex as <- _ _. by apply not_elem_of_nil in Hin.
    + destruct o as [[l1 k1] s1]. injection Hex as <- _ _.
      destruct (handle_msg_inv _ _ _ _ _ (inv_wf _ Hi) Eo)
        as (t & _ & [(_ & -> & _)|(m1 & rest & _ & -> & _)]);
        [by apply not_elem_of_nil in Hin|by apply list_elem_of_singleton in Hin].
  - exfalso. apply on_heartbeat_beat in Hb as [_ _ _ _ Hl].
    + destruct (Hl p) as [E _]. apply sent_to_elem in Hin. rewrite E in Hin.
      by apply not_elem_of_nil in Hin.
    + eapply (wf_same s); [by eapply same_tasks_object|by apply fds_same|apply (inv_wf _ Hi)].
Qed.

(** A response that a thread is about to send after a step: it was so before,
    or the step handled a message of its task. *)
Lemma response_queued x l y p0 name r k m : inv x -> step x l y ->
  std_find TASK0 (task_map (mgr x)) = Some p0 ->
  code y !! r = Some k -> InQueue p0 m ∈ k -> response name m ->
  on_the_way x p0 (response name) \/
  exists p t m, objects (mgr x) !! p = Some t /\ _name t = name /\ Handled p m ∈ l.
Proof.
  intros Hi Hs H0 Hk Hin Hm.
  assert (forall s (c : gmap Z (list act)) q k', <[q := k']> c !! r = Some k ->
    (InQueue p0 m ∈ k' -> response name m -> False) ->
    on_the_way (mk_system s c) p0 (response name)) as Hold.
  { intros s c q k' [[<- <-]|[_ Hr]]%lookup_insert_Some Hno; [by destruct Hno|].
    left. eauto 10. }
  destruct Hs as [Hs|Hs];
    [destruct Hs as [s c k0 q a l k' s' Hq Hex|s c q t n Hq Ht Hrt Hn Hn0]|
     destruct Hs as [s c q name' m' Hq Ho Happ|s c q t tid tm l k0 s' Hq Ho Hrt Htm Hb|s c q t w w' Hq Ho Hrt Ht Hev]];
    simpl in *.
  - apply lookup_insert_Some in Hk as [[<- <-]|[_ Hr]]; [|left; left; eauto 10].
    pose proof (inv_shape _ Hi q _ Hq) as Hsh. simpl in Hsh. apply shape_cons in Hsh.
    assert (InQueue p0 m ∈ k0 -> on_the_way (mk_system s c) p0 (response name)) as Hk0.
    { intros Hin'. left. exists q, (a :: k0), m. split_and?; [done|by right|done..]. }
    destruct a as [p' m'|p'|p'|p'|p']; simpl in Hex; apply bind_Some in Hex as (o & Eo & Hex).
    + injection Hex as _ <- _. left. by apply Hk0.
    + injection Hex as _ <- _. left. by apply Hk0.
    + destruct (read_evfd _ _) as [[n s1]|]; injection Hex as _ <- _;
        [left; by apply Hk0|by apply not_elem_of_nil in Hin].
    + injection Hex as _ <- _. left. by apply Hk0.
    + destruct Hsh as (-> & _ & ->). destruct o as [[l1 k1] s1]. injection Hex as <- <- <-.
      rewrite app_nil_r in Hin. right.
      destruct (handle_response s q l1 k1 s1 p0 m name) as (t & m1 & ? & ? & ?); eauto 10.
      apply (inv_wf _ Hi).
  - left. eapply Hold; [exact Hk|]. unfold evfdCallback. rewrite !elem_of_cons.
    by intros [?|[?|[?|?%not_elem_of_nil]]].
  - left. eapply Hold; [exact Hk|]. intros Hin1 _. unfold send2task_acts in Hin1.
    destruct (std_find name' (task_map s)) as [p1|] eqn:E1; [|by apply not_elem_of_nil in Hin1].
    rewrite !elem_of_cons in Hin1. destruct Hin1 as [[= -> ->]|[?|?%not_elem_of_nil]]; [|done..].
    destruct (wf_map _ (inv_wf _ Hi) _ _ E1) as (t1 & Ht1 & En1).
    destruct (wf_map _ (inv_wf _ Hi) _ _ H0) as (t2 & Ht2 & En2).
    apply app_sends_ok in Happ as [Hne _]. apply Hne. congruence.
  - left. eapply Hold; [exact Hk|]. intros Hin1 [Em _].
    apply (on_heartbeat_only _ _ _ _ _ _ _ Hb) in Hin1. unfold request in Hin1. congruence.
  - left. left. eauto 10.
Qed.

Lemma response_origin x l y p0 name : inv x -> step x l y ->
  std_find TASK0 (task_map (mgr x)) = Some p0 ->
  on_the_way y p0 (response name) ->
  on_the_way x p0 (response name) \/
  exists p t m, objects (mgr x) !! p = Some t /\ _name t = name /\ Handled p m ∈ l.
Proof.
  intros Hi Hs H0 [(r & k & m & Hk & Hin & Hm)|(m & Hp & Hm)]; [by eapply response_queued|].
  left. destruct (step_inv x l y Hi Hs) as [_ Hf]. specialize (Hf p0).
  assert (m ∈ pending (mgr x) p0 ++ sent_to p0 l) as Hin.
  { rewrite Hf. apply elem_of_app. by right. }
  apply elem_of_app in Hin as [?|Hin]; [right; eauto|].
  apply list_elem_of_omap in Hin as ([q m'|q m'|q] & Hin & E); simpl in E; try done.
  case_decide; [|done]. injection E as ->. subst q. left.
  destruct (sent_queued x l y p0 m Hi Hs Hin) as (r & k & ? & ?). eauto 10.
Qed.

(** As long as task [q] handles nothing it is never marked as alive. *)
Lemma step_never_alive x l y name q : inv x -> typed x -> std_sorted (task_map (mgr x)) ->
  step x l y -> std_find name (task_map (mgr x)) = Some q -> handled_by q l = [] ->
  never_alive x name -> never_alive y name.
Proof.
  intros Hi Hty Hso Hs Hq Hl Hna p0 d' H0'. pose proof (step_same x l y Hi Hs) as Hst.
  destruct (task0_back _ _ _ _ Hst H0') as [d H0].
  destruct (step_change x l y p0 d Hi Hty Hso Hs H0) as (d1 & H1 & Hch).
  rewrite (task0_det _ _ _ _ H1 H0') in Hch. clear d1 H1.
  destruct (Hna p0 d H0) as [Hno Hf]. split.
  - intros Hw. destruct (response_origin x l y p0 name Hi Hs (proj1 H0) Hw)
      as [?|(p & t & m & Ht & Hn & Hin)]; [done|].
    destruct (step_handled x l y p m Hi Hs Hin) as (Hc & _).
    apply (inv_thread _ Hi p t Ht) in Hc.
    pose proof (wf_self _ (inv_wf _ Hi) p t Ht Hc) as Hp. rewrite Hn, Hq in Hp.
    injection Hp as ->. assert (m ∈ handled_by p l) as Hm.
    { apply list_elem_of_omap. eexists. split; [done|]. simpl. by rewrite decide_True. }
    rewrite Hl in Hm. by apply not_elem_of_nil in Hm.
  - destruct Hch as [E _|m name0 Hm El E|k E _ _]; rewrite E; [done| |].
    + rewrite find_set. case_decide as Hd; [subst name0|done]. intros _. apply Hno.
      right. exists m. split; [|done]. destruct (step_inv x l y Hi Hs) as [_ Hfl].
      specialize (Hfl p0). rewrite El in Hfl. unfold sent_to, handled_by in Hfl.
      simpl in Hfl. rewrite decide_True, app_nil_r in Hfl by done. rewrite Hfl. by left.
    + intros Hf'. destruct (hb_reset_loop (task_map (mgr x)) []) as [_ H]; [constructor|].
      destruct (H name true Hf') as [?|[? _]]; done.
Qed.

Lemma run_never_alive x l y name q : run step x l y -> inv x -> typed x ->
  std_sorted (task_map (mgr x)) -> std_find name (task_map (mgr x)) = Some q ->
  handled_by q l = [] -> never_alive x name -> never_alive y name.
Proof.
  induction 1 as [x|x l y l' z Hxy Hyz IH]; intros Hi Hty Hso Hq Hl Hna; [done|].
  rewrite handled_by_app in Hl. apply app_eq_nil in Hl as [Hl Hl'].
  pose proof (same_map _ _ (step_same _ _ _ Hi Hxy)) as Em.
  apply IH; try rewrite Em; try done.
  - by eapply step_inv.
  - destruct Hxy; eauto using work_typed, stimulus_typed.
  - by eapply step_never_alive.
Qed.

Lemma run_same x l y : run step x l y -> inv x -> same_tasks (mgr x) (mgr y).
Proof.
  induction 1 as [x|x l y l' z Hxy Hyz IH]; intros Hi; [apply same_tasks_refl|].
  eapply same_tasks_trans; [by eapply step_same|]. apply IH. by eapply step_inv.
Qed.

(** The check restarts every task that is not marked, when all are known. *)
Lemma hb_check_marks hb tm name q :
  (forall nm, (nm, false) ∈ hb -> nm <> TASK0 -> is_Some (std_find nm tm)) ->
  (name, false) ∈ hb -> name <> TASK0 -> std_find name tm = Some q ->
  exists r, hb_check hb tm = (r, true) /\ q ∈ r.
Proof.
  intros Hall Hin Hne Hq. induction hb as [|[nm b] hb IH]; [by apply not_elem_of_nil in Hin|].
  assert (forall r1, hb_check hb tm = r1 -> r1.2 = true) as Hend.
  { intros r1 <-. clear IH Hin. assert (forall nm, (nm, false) ∈ hb -> nm <> TASK0 ->
      is_Some (std_find nm tm)) as Hall' by (intros; apply Hall; [by right|done]).
    clear Hall. induction hb as [|[n1 b1] hb IH]; simpl; [done|].
    assert ((hb_check hb tm).2 = true) as E by (apply IH; intros; apply Hall'; [by right|done]).
    case_decide; [done|]. destruct b1; [done|].
    destruct (Hall' n1) as [p1 ->]; [by left|done|]. by destruct (hb_check hb tm). }
  simpl. apply elem_of_cons in Hin as [[= <- <-]|Hin].
  - rewrite decide_False, Hq by done. specialize (Hend _ eq_refl).
    destruct (hb_check hb tm) as [r b]. simpl in Hend. subst b. eexists. split; [done|by left].
  - destruct IH as (r & -> & Hr); [intros; apply Hall; [by right|done]|done|].
    case_decide; [eauto|]. destruct b; [eauto|].
    destruct (Hall nm) as [p1 ->]; [by left|done|]. eexists. split; [done|by right].
Qed.

(** Nothing is on the way to a task that runs when all threads are at rest. *)
Lemma quiet_nothing x q P : inv x -> quiet x ->
  (exists t, objects (mgr x) !! q = Some t /\ running t = true) -> ~ on_the_way x q P.
Proof.
  intros Hi Hq (t & Ht & Hr) [(r & k & m & Hk & Hin & _)|(m & Hin & _)].
  - destruct (Hq r k Hk) as [-> _]. by apply not_elem_of_nil in Hin.
  - rewrite (idle_pending x q t Hi Hq Ht Hr) in Hin. by apply not_elem_of_nil in Hin.
Qed.

Lemma on_heartbeat_check s p d r : task0 s p d -> first_loop d = false ->
  hb_check (hb_map d) (task_map s) = (r, true) ->
  exists k s', on_heartbeat p s = Some (Restarted <$> r, k, s').
Proof.
  intros (_ & t & Ht & Ed) Hf Hc. unfold on_heartbeat. rewrite Ht. simpl. rewrite Ed, Hf, Hc. simpl.
  destruct (send_hb_all _) as [k s']. eauto.
Qed.

Lemma on_heartbeat_ok s p d : std_sorted (task_map s) -> task0 s p d ->
  hb_check (hb_map d) (task_map s) = ([], true) ->
  exists k s', on_heartbeat p s = Some ([], k, s') /\
  (first_loop d = false -> forall name q, name <> TASK0 ->
     std_find name (task_map s) = Some q -> exists m, InQueue q m ∈ k /\ msg_type m = TASK_HB_REQ).
Proof.
  intros Hso (_ & t & Ht & Ed) Hc. unfold on_heartbeat. rewrite Ht. simpl. rewrite Ed.
  destruct (first_loop d); [eexists _, _; split; [done|done]|]. rewrite Hc. simpl.
  unfold send_hb_all. set (s1 := set_object s p _).
  destruct (hb_requests _ _ s1) as [k n] eqn:Ek. eexists _, _. split; [done|].
  intros _ name q Hne Hq.
  destruct (hb_requests_all s1 (task_map s1) (_seq_id s1) name q) as (m & Hm & Hr);
    [by apply find_elem|done|done|]. rewrite Ek in Hm. eauto.
Qed.
End heart.
