(* ===== verification/TasksCorrect.v ===== *)
(** * TasksCorrect: the properties of tasks

    The tasks that [init] starts handle what they are sent, once each and in
    the order of their queues, whatever the threads interleave; no message is
    left behind when the threads come to rest, and they do; no handler throws;
    the heartbeat restarts tasks that do not answer, and no others. *)
From S2P Require Import Prelude Mem Reply StdMap Timers TimersCorrect Tasks TasksFacts TasksInv TasksLive TasksStart TasksHeart.
From stdpp Require Import list list_numbers strings sets gmap.
From Stdlib Require Import ZArith Lia.
Open Scope Z_scope.

(** A worker that keeps what it is given. *)
#[export] Instance keeper : Worker (list TASK_MSG) := {|
  worker_message w m := Some (w ++ [m]);
  worker_event w w' := w' = w;
  app_sends name m := name <> TASK0
|}.

#[export] Instance keeper_inv : WorkerInv (list TASK_MSG) := fun w => True.

#[export] Program Instance keeper_laws : WorkerLaws (list TASK_MSG) := {|
  worker_takes m := True
|}.
Next Obligation. intros w m _ _. by exists (w ++ [m]). Qed.
Next Obligation. done. Qed.
Next Obligation. done. Qed.

(** ** Running a system

    A schedule names the thread that goes on, the timer that fires or the
    message that the application sends. *)
Inductive sched_op : Type :=
  | Go (p : Z)
  | Beat (p tid : Z)
  | SendTo (p : Z) (name : bytes) (m : TASK_MSG).

Section schedule.
Context {W : Type} {worker : Worker W} {L : Libevent}.

Definition sched_step (o : sched_op) (x : system W) : option (list note * system W) :=
  let '(mk_system s c) := x in
  match o with
  | Go p =>
      k ← c !! p;
      match k with
      | a :: k => '(l, k', s') ← exec a k s; Some (l, mk_system s' (<[p := k']> c))
      | [] =>
          t ← objects s !! p; n ← eventfds s !! _evfd t;
          if running t && (0 <? n) then Some ([], mk_system s (<[p := evfdCallback p]> c)) else None
      end
  | Beat p tid =>
      k ← c !! p; t ← objects s !! p;
      match k, timer_fires tid (_timer_mgr t) with
      | [], Ok ([Call 1], tm) =>
          if running t then
            '(l, k', s') ← on_heartbeat p (set_object s p (set_timers t (_hb_itval t) tm));
            Some (l, mk_system s' (<[p := k']> c))
          else None
      | _, _ => None
      end
  | SendTo p name m =>
      k ← c !! p;
      match k, objects s !! p with
      | [], None => Some ([], mk_system s (<[p := send2task_acts name m s]> c))
      | _, _ => None
      end
  end.

Fixpoint sched (l : list sched_op) (x : system W) : option (list note * system W) :=
  match l with
  | [] => Some ([], x)
  | o :: l =>
      '(n, x) ← sched_step o x;
      '(n', x) ← sched l x;
      Some (n ++ n', x)
  end.

Definition sched_ok (o : sched_op) : Prop :=
  match o with SendTo _ name m => app_sends name m | _ => True end.

Lemma sched_step_run o x l y : sched_ok o -> sched_step o x = Some (l, y) -> step x l y.
Proof.
  intros Ho H. destruct x as [s c], o as [p|p tid|p name m]; simpl in H.
  - left. apply bind_Some in H as (k & Hk & H). destruct k as [|a k].
    + apply bind_Some in H as (t & Ht & H). apply bind_Some in H as (n & Hn & H).
      destruct (running t) eqn:Er; [|done]. simpl in H.
      destruct (0 <? n) eqn:En; [|done]. injection H as <- <-. bool_to_prop.
      by eapply Work_wake.
    + apply bind_Some in H as ([[l1 k1] s1] & E & [= <- <-]). by eapply Work_act.
  - right. apply bind_Some in H as (k & Hk & H). apply bind_Some in H as (t & Ht & H).
    destruct k; [|done]. destruct (timer_fires tid (_timer_mgr t)) as [[c1 tm]|] eqn:Et; [|done].
    destruct c1 as [|[[|[]|]|] []]; try done. destruct (running t) eqn:Er; [|done].
    apply bind_Some in H as ([[l1 k1] s1] & E & [= <- <-]). by eapply Heartbeat.
  - right. apply bind_Some in H as (k & Hk & H). destruct k; [|done].
    destruct (objects s !! p) eqn:Ep; [done|]. injection H as <- <-. by apply Client.
Qed.

Lemma sched_run l x n y : Forall sched_ok l -> sched l x = Some (n, y) -> run step x n y.
Proof.
  revert x n. induction l as [|o l IH]; intros x n Hl H; simpl in H.
  - injection H as <- <-. constructor.
  - inversion Hl; subst. apply bind_Some in H as ([n1 x1] & E & H).
    apply bind_Some in H as ([n2 x2] & E' & [= <- <-]).
    econstructor; [by eapply sched_step_run|by apply IH].
Qed.

(** Whether every thread waits. *)
Definition quietb (x : system W) : bool :=
  bool_decide (map_Forall (fun _ k => k = []) (code x)) &&
  bool_decide (map_Forall (fun _ t => running t = true -> eventfds (mgr x) !! _evfd t = Some 0)
    (objects (mgr x))).

Lemma quietb_quiet x : quietb x = true -> quiet x.
Proof.
  unfold quietb. rewrite andb_true_iff, !bool_decide_eq_true. intros [Hc Ho] p k Hk.
  split; [by apply (Hc p)|]. intros t Ht. by apply (Ho p t).
Qed.
End schedule.

Section correct.
Context {W : Type} {worker : Worker W} {wk_inv : WorkerInv W} {laws : WorkerLaws W} {L : Libevent}.
Context (os : Z -> Z * bool) (p0 : Z) (s0 s : task_manager W).

(** What is assumed of the start: tasks that were just made, added by
    [add_tasks], and descriptors that differ. *)
Record starts : Prop := {
  starts_built : built s0;
  starts_new : objects s0 !! p0 = None;
  starts_os : os_ok os;
  starts_init : init os p0 s0 = Some (true, s)
}.

Lemma starts_prepared : starts -> prepared os p0 s.
Proof.
  intros [Hb Hp Hos Hi]. destruct (init_prepared os p0 s0 Hb Hp) as (s' & E & Hpr & _).
  rewrite Hi in E. by injection E as <-.
Qed.

Lemma starts_inv clients l y : starts -> run step (started s clients) l y ->
  inv y /\ flow s l (mgr y).
Proof.
  intros Hs Hr.
  apply (run_inv _ _ _ Hr (started_inv os p0 s clients (starts_os Hs) (starts_prepared Hs))).
Qed.

Lemma starts_typed clients l y : starts -> run step (started s clients) l y -> typed y.
Proof.
  intros Hs Hr. pose proof (starts_prepared Hs) as Hp.
  eapply run_typed; [done|by apply (started_inv os p0 s clients (starts_os Hs))|].
  by apply (started_typed os p0).
Qed.

Lemma starts_flow clients l y p : starts -> run step (started s clients) l y ->
  sent_to p l = handled_by p l ++ pending (mgr y) p.
Proof.
  intros Hs Hr. destruct (starts_inv clients l y Hs Hr) as (_ & Hf).
  rewrite <- Hf. by rewrite (started_pending os p0 s p (starts_prepared Hs)).
Qed.

(** What is known of a state that is reached. *)
Lemma starts_facts clients l y : starts -> run step (started s clients) l y ->
  inv y /\ std_sorted (task_map (mgr y)) /\ same_tasks s (mgr y) /\ hb_inv y /\
  forall name q, std_find name (task_map s) = Some q -> handled_by q l = [] ->
  never_alive y name.
Proof.
  intros Hs Hr. pose proof (starts_prepared Hs) as Hp.
  pose proof (started_inv os p0 s clients (starts_os Hs) Hp) as Hi.
  pose proof (started_typed os p0 s clients Hp) as Ht.
  pose proof (run_same _ _ _ Hr Hi) as Hst. pose proof (proj1 (pr_named _ _ _ Hp)) as Hso.
  assert (forall p d, task0 s p d -> hb_map d = []) as Hm.
  { intros p d (_ & t & Ht' & E). pose proof (pr_marks _ _ _ Hp p t Ht') as Em.
    by rewrite E in Em. }
  destruct (run_inv _ _ _ Hr Hi) as [Hy _]. split_and?; [done|by rewrite (same_map _ _ Hst)|done| |].
  - eapply run_hb; eauto. intros p d Hd. rewrite (Hm p d Hd). split; [constructor|done].
  - intros name q Hq Hl. eapply run_never_alive; eauto. intros p d Hd. rewrite (Hm p d Hd).
    split; [|done]. intros [(r & k & m & Hk & Hin & _)|(m & Hin & _)].
    + apply started_code in Hk as ->. by apply not_elem_of_nil in Hin.
    + simpl in Hin. rewrite (started_pending os p0 s p Hp) in Hin. by apply not_elem_of_nil in Hin.
Qed.

Lemma starts_running name p : starts ->
  (forall name p, std_find name (task_map s) = Some p -> 0 <= (os p).1 /\ (os p).2 = true) ->
  std_find name (task_map s) = Some p -> exists t, objects s !! p = Some t /\ running t = true.
Proof.
  intros [Hb Hp Hos Hi] Hall Hf. destruct (init_prepared os p0 s0 Hb Hp) as (s' & E & _ & _ & Hw).
  rewrite Hi in E. injection E as <-. eapply Hw; [done|]. by eapply Hall.
Qed.
End correct.

Section properties.
Context {W : Type} {worker : Worker W} {wk_inv : WorkerInv W} {laws : WorkerLaws W} {L : Libevent}.

(** C10: The messages that a task handles are those put in its queue, once each
    and in order, whatever the threads of the tasks and of the application
    interleave: what it has handled, with its private queue and its queue
    behind it, is what it was sent. *)
Theorem tasks_fifo (os : Z -> Z * bool) (p0 : Z) (s0 s : task_manager W) (clients : list Z)
    (l : list note) (y : system W)
    (Hs : starts os p0 s0 s)
    (Hr : run step (started s clients) l y) :
  forall p t, objects (mgr y) !! p = Some t ->
  sent_to p l = handled_by p l ++ _tmp_task_queue t ++ _task_queue t.
Proof.
  intros p t Ht. rewrite (starts_flow os p0 s0 s clients l y p Hs Hr).
  unfold pending. by rewrite Ht.
Qed.

(** C9: No wake-up is lost. From any state that is reached, every run of the
    threads alone ends; as long as some task has a message left, some thread
    can take a step; so when the threads come to rest every task that runs has
    handled everything it was sent, in order. *)
Theorem tasks_all_handled (os : Z -> Z * bool) (p0 : Z) (s0 s : task_manager W)
    (clients : list Z) (l : list note) (y : system W)
    (Hs : starts os p0 s0 s)
    (Hr : run step (started s clients) l y) :
  Acc (fun b a => exists n, work a n b) y /\
  forall l' z, run work y l' z ->
    (exists n z', work z n z') \/
    (forall p t, objects (mgr z) !! p = Some t -> running t = true ->
       sent_to p (l ++ l') = handled_by p (l ++ l')).
Proof.
  destruct (starts_inv os p0 s0 s clients l y Hs Hr) as [Hi _].
  split; [by apply work_ends|]. intros l' z Hz.
  pose proof (run_app _ _ _ _ _ _ Hr (run_work _ _ _ Hz)) as Hall.
  destruct (starts_inv os p0 s0 s clients _ z Hs Hall) as [Hiz _].
  pose proof (starts_typed os p0 s0 s clients _ z Hs Hall) as Htz.
  destruct (work_or_quiet z Hiz Htz) as [?|Hq]; [by left|right]. intros p t Ht Hrun.
  rewrite (starts_flow os p0 s0 s clients _ z p Hs Hall).
  by rewrite (idle_pending z p t), app_nil_r.
Qed.

(** C11: No handler throws: in any state that is reached, a thread that has
    something to execute can execute it; every body is cast to the type it
    has, and every pointer it uses is that of a task. *)
Theorem tasks_typed (os : Z -> Z * bool) (p0 : Z) (s0 s : task_manager W)
    (clients : list Z) (l : list note) (y : system W)
    (Hs : starts os p0 s0 s)
    (Hr : run step (started s clients) l y) :
  forall p a k, code y !! p = Some (a :: k) -> is_Some (exec a k (mgr y)).
Proof.
  intros p a k Hk. destruct (starts_inv os p0 s0 s clients l y Hs Hr) as [Hi _].
  pose proof (starts_typed os p0 s0 s clients l y Hs Hr) as Ht.
  destruct y as [sy cy]. destruct (exec_typed sy cy p a k Hi Ht Hk) as (l1 & k1 & s1 & E & _).
  simpl. rewrite E. by eexists.
Qed.

(** [init] starts every task of the map whose eventfd and event can be
    made, its own task0 included, and keeps the map. *)
Theorem init_starts (os : Z -> Z * bool) (p0 : Z) (s0 : task_manager W)
    (Hb : built s0)
    (Hp : objects s0 !! p0 = None) :
  exists s, init os p0 s0 = Some (true, s) /\
  task_map s = std_set TASK0 p0 (task_map s0) /\
  forall name p, std_find name (task_map s) = Some p -> 0 <= (os p).1 -> (os p).2 = true ->
  exists t, objects s !! p = Some t /\ running t = true /\
    get_task_id name s = Some (os p).1 /\ eventfds s !! (os p).1 = Some 0.
Proof.
  destruct (init_prepared os p0 s0 Hb Hp) as (s & E & Hpr & Em & Hrun).
  exists s. split; [done|]. split; [done|]. intros name p Hf H1 H2.
  destruct (Hrun name p Hf) as (t & Ht & Hr); [by split|].
  destruct (pr_run _ _ _ Hpr p t Ht Hr) as (_ & _ & E1 & E2).
  exists t. unfold get_task_id. rewrite Hf, Ht. simpl. by rewrite <- E1.
Qed.

(** C12: The heartbeat raises no false alarm. When all tasks run and the
    threads are at rest, every task that was asked in the last round has been
    marked, so that the timer of task0 restarts none; after the first round it
    asks every other task again. *)
Theorem heartbeat_no_false_alarm (os : Z -> Z * bool) (p0 : Z) (s0 s : task_manager W)
    (clients : list Z) (l : list note) (y : system W)
    (Hs : starts os p0 s0 s)
    (Hall : forall name p, std_find name (task_map s) = Some p -> 0 <= (os p).1 /\ (os p).2 = true)
    (Hr : run step (started s clients) l y)
    (Hq : quiet y) :
  forall p d, task0 (mgr y) p d ->
  exists k s', on_heartbeat p (mgr y) = Some ([], k, s') /\
  (first_loop d = false -> forall name q, name <> TASK0 ->
     std_find name (task_map s) = Some q -> exists m, InQueue q m ∈ k /\ msg_type m = TASK_HB_REQ).
Proof.
  intros p d H0. destruct (starts_facts _ _ _ _ clients l y Hs Hr) as (Hi & Hso & Hst & Hhb & _).
  destruct (Hhb p d H0) as [Hsd Hfl].
  assert (hb_check (hb_map d) (task_map (mgr y)) = ([], true)) as Hck.
  { apply hb_check_all. intros name Hin. destruct (decide (name = TASK0)) as [|Hne]; [done|].
    exfalso. apply elem_find in Hin; [|done]. destruct (Hfl name Hne Hin) as (q & Hfq & Hw).
    assert (forall r nm, std_find nm (task_map (mgr y)) = Some r ->
      forall P, ~ on_the_way y r P) as Hnone.
    { intros r nm Hnm P. rewrite (same_map _ _ Hst) in Hnm. apply quiet_nothing; [done..|].
      destruct (starts_running os p0 s0 s nm r Hs Hall Hnm) as (t & Ht & Hrt).
      apply same_tasks_sym in Hst. eapply same_tasks_lookup in Ht as (t' & Ht' & E); [|exact Hst].
      injection E as _ _ E _. exists t'. split; [done|congruence]. }
    destruct Hw as [Hw|Hw]; [by apply (Hnone q name) in Hw|].
    apply (Hnone p TASK0) in Hw; [done|]. apply H0. }
  rewrite <- (same_map _ _ Hst).
  by apply on_heartbeat_ok.
Qed.

(** C13: The heartbeat finds a task that does not answer: one that has handled
    nothing is restarted at every round that follows one in which it was
    asked. *)
Theorem heartbeat_detects (os : Z -> Z * bool) (p0 : Z) (s0 s : task_manager W)
    (clients : list Z) (l : list note) (y : system W) (name : bytes) (q : Z)
    (Hs : starts os p0 s0 s)
    (Hr : run step (started s clients) l y)
    (Hne : name <> TASK0)
    (Hq : std_find name (task_map s) = Some q)
    (Hsil : handled_by q l = []) :
  forall p d, task0 (mgr y) p d -> first_loop d = false -> name ∈ (hb_map d).*1 ->
  exists n k s', on_heartbeat p (mgr y) = Some (n, k, s') /\ Restarted q ∈ n.
Proof.
  intros p d H0 Hfl Hin. destruct (starts_facts _ _ _ _ clients l y Hs Hr) as (Hi & Hso & Hst & Hhb & Hna).
  destruct (Hhb p d H0) as [Hsd Hmk]. destruct (Hna name q Hq Hsil p d H0) as [_ Hnt].
  destruct (std_find name (hb_map d)) as [[]|] eqn:Ef; [done| |by apply find_None in Ef].
  destruct (hb_check_marks (hb_map d) (task_map (mgr y)) name q) as (r & Er & Hqr).
  - intros nm Hnm Hnm0. apply elem_find in Hnm; [|done].
    destruct (Hmk nm Hnm0 Hnm) as (q1 & -> & _). by eexists.
  - by apply find_elem.
  - done.
  - by rewrite (same_map _ _ Hst).
  - destruct (on_heartbeat_check (mgr y) p d r) as (k & s' & E); [done..|].
    eexists _, k, s'. split; [exact E|]. apply list_elem_of_fmap. eauto.
Qed.
End properties.

(** ** A program with two tasks *)
Definition W1 : bytes := lit "WORKER001".
Definition hello : TASK_MSG := new_msg TASK_PUT (AnyString (lit "hello")) 0.

Definition two_tasks : task_manager (list TASK_MSG) :=
  match add_tasks 2 (set_object new_task_manager 2 (new_task W1 [])) with
  | Some (_, s) => s
  | None => new_task_manager
  end.
Definition fds (p : Z) : Z * bool := (p + 10, true).
Definition running_tasks : task_manager (list TASK_MSG) :=
  match init fds 1 two_tasks with Some (_, s) => s | None => two_tasks end.

Lemma two_tasks_built : built two_tasks.
Proof.
  destruct (add_tasks_built new_task_manager 2 W1 []) as (s & E & Hb); [apply new_built|done|done|].
  unfold two_tasks. by rewrite E.
Qed.

Lemma two_tasks_start : starts fds 1 two_tasks running_tasks.
Proof.
  split; [apply two_tasks_built|done|intros p q _; simpl; lia|].
  destruct (init_prepared fds 1 two_tasks two_tasks_built eq_refl) as (s' & E & _).
  unfold running_tasks. by rewrite E.
Qed.

(** The application puts a message in a queue, and stops before the write. *)
Definition queued : system (list TASK_MSG) :=
  match in_queue 2 hello running_tasks with
  | Some s => mk_system s (<[100 := [WriteFd 2]]> (<[100 := [InQueue 2 hello; WriteFd 2]]>
                            (code (started running_tasks [100]))))
  | None => started running_tasks [100]
  end.

Lemma queued_run : run step (started running_tasks [100]) [Sent 2 hello] queued.
Proof.
  apply (Run_step step (started running_tasks [100]) []
    (mk_system running_tasks (<[100 := send2task_acts W1 hello running_tasks]>
      (code (started running_tasks [100])))) [Sent 2 hello]).
  - right. apply Client; [by vm_compute|by vm_compute|done].
  - rewrite <- (app_nil_r [Sent 2 hello]). eapply Run_step; [|apply Run_refl].
    left. by apply (Work_act _ _ [WriteFd 2] 100 (InQueue 2 hello)); vm_compute.
Qed.

Lemma tasks_fifo_witness : exists t, objects (mgr queued) !! 2 = Some t /\ _task_queue t = [hello] /\
  sent_to 2 [Sent 2 hello] = handled_by 2 [Sent 2 hello] ++ _tmp_task_queue t ++ _task_queue t.
Proof.
  destruct (objects (mgr queued) !! 2) as [t|] eqn:E; [|by vm_compute in E].
  exists t. split; [done|]. split; [vm_compute in E; by injection E as <-|].
  exact (tasks_fifo fds 1 two_tasks running_tasks [100] _ queued two_tasks_start queued_run 2 t E).
Defined.

Lemma tasks_all_handled_witness :
  Acc (fun b a => exists n, work a n b) queued /\
  forall l' z, run work queued l' z ->
    (exists n z', work z n z') \/
    (forall p t, objects (mgr z) !! p = Some t -> running t = true ->
       sent_to p ([Sent 2 hello] ++ l') = handled_by p ([Sent 2 hello] ++ l')).
Proof.
  exact (tasks_all_handled fds 1 two_tasks running_tasks [100] _ queued two_tasks_start queued_run).
Defined.

Lemma tasks_typed_witness : code queued !! 100 = Some [WriteFd 2] /\
  is_Some (exec (WriteFd 2) [] (mgr queued)).
Proof.
  assert (E : code queued !! 100 = Some [WriteFd 2]) by (by vm_compute). split; [exact E|].
  exact (tasks_typed fds 1 two_tasks running_tasks [100] _ queued two_tasks_start queued_run
    100 (WriteFd 2) [] E).
Defined.

Lemma init_starts_witness :
  exists s, init fds 1 two_tasks = Some (true, s) /\
  task_map s = std_set TASK0 1 (task_map two_tasks) /\
  forall name p, std_find name (task_map s) = Some p -> 0 <= (fds p).1 -> (fds p).2 = true ->
  exists t, objects s !! p = Some t /\ running t = true /\
    get_task_id name s = Some (fds p).1 /\ eventfds s !! (fds p).1 = Some 0.
Proof. exact (init_starts fds 1 two_tasks two_tasks_built eq_refl). Defined.

(** Two heartbeats; the worker answers, or is not given the time to. *)
Definition asked : list sched_op := [Beat 1 0; Beat 1 0; Go 1; Go 1].
Definition answered : list sched_op :=
  asked ++ [Go 2; Go 2; Go 2; Go 2; Go 2; Go 2; Go 2; Go 1; Go 1; Go 1; Go 1; Go 1].
Definition run_sched (l : list sched_op) : list note * system (list TASK_MSG) :=
  default ([], started running_tasks [100]) (sched l (started running_tasks [100])).

Lemma run_sched_run l : Forall sched_ok l -> is_Some (sched l (started running_tasks [100])) ->
  run step (started running_tasks [100]) (run_sched l).1 (run_sched l).2.
Proof.
  intros Hl [[n y] E]. unfold run_sched. rewrite E. simpl. by eapply sched_run.
Qed.

Lemma all_run (name : bytes) (p : Z) :
  std_find name (task_map running_tasks) = Some p -> 0 <= (fds p).1 /\ (fds p).2 = true.
Proof.
  intros Hf%find_elem. vm_compute in Hf.
  apply elem_of_cons in Hf as [[= _ ->]|[[= _ ->]|[]%not_elem_of_nil]%elem_of_cons];
    by vm_compute.
Qed.

(** task0 has begun its rounds and has the worker in its map. *)
Definition watches (y : system (list TASK_MSG)) : bool :=
  bool_decide (std_find TASK0 (task_map (mgr y)) = Some 1) &&
  match objects (mgr y) !! 1 with
  | Some t =>
      match this t with
      | ManagerTask d => negb (first_loop d) && bool_decide (W1 ∈ (hb_map d).*1)
      | WorkerTask _ => false
      end
  | None => false
  end.

Lemma run_sched_task0 l : watches (run_sched l).2 = true -> exists d,
  task0 (mgr (run_sched l).2) 1 d /\ first_loop d = false /\ W1 ∈ (hb_map d).*1.
Proof.
  unfold watches, task0. intros [H0%bool_decide_eq_true Hm]%andb_true_iff. revert Hm.
  destruct (objects _ !! 1) as [t|]; [|done].
  destruct (this t) as [d|] eqn:Ed; [|done]. intros [Hf Hw]%andb_true_iff.
  apply negb_true_iff in Hf. apply bool_decide_eq_true in Hw. exists d. split; [|done]. split; [done|]. by exists t.
Qed.

Lemma heartbeat_no_false_alarm_witness : exists d k s' m,
  task0 (mgr (run_sched answered).2) 1 d /\ first_loop d = false /\
  on_heartbeat 1 (mgr (run_sched answered).2) = Some ([], k, s') /\
  InQueue 2 m ∈ k /\ msg_type m = TASK_HB_REQ.
Proof.
  destruct (run_sched_task0 answered) as (d & Ht & Hf & _); [by vm_compute|].
  destruct (heartbeat_no_false_alarm fds 1 two_tasks running_tasks [100] (run_sched answered).1
    (run_sched answered).2 two_tasks_start all_run) with (p := 1) (d := d) as (k & s' & E & Hq).
  - apply run_sched_run; [repeat constructor|]. vm_compute. by eexists.
  - apply quietb_quiet. by vm_compute.
  - exact Ht.
  - destruct (Hq Hf W1 2) as (m & Hm & Hty); [done|by vm_compute|].
    exists d, k, s', m. by split_and!.
Defined.

Lemma heartbeat_detects_witness : exists d n k s',
  task0 (mgr (run_sched asked).2) 1 d /\
  on_heartbeat 1 (mgr (run_sched asked).2) = Some (n, k, s') /\ Restarted 2 ∈ n.
Proof.
  destruct (run_sched_task0 asked) as (d & Ht & Hf & Hw); [by vm_compute|].
  destruct (heartbeat_detects fds 1 two_tasks running_tasks [100] (run_sched asked).1
    (run_sched asked).2 W1 2 two_tasks_start) with (p := 1) (d := d) as (n & k & s' & E & Hr).
  - apply run_sched_run; [repeat constructor|]. vm_compute. by eexists.
  - by vm_compute.
  - by vm_compute.
  - by vm_compute.
  - exact Ht.
  - exact Hf.
  - exact Hw.
  - exists d, n, k, s'. by split_and!.
Defined.

(** * Three runs where the task manager does not do what it means to *)
(** The heartbeat timer of task0: its interval, when it is pending. *)
Definition hb_timer (s : task_manager (list TASK_MSG)) : option Z :=
  t ← objects s !! 1;
  match this t with
  | ManagerTask d => _interval <$> t_map (_timer_mgr t) !! _hb_tid d
  | WorkerTask _ => None
  end.

(** The interval of the heartbeat cannot be changed once it has started. The
    first timer of a manager has the number 0, which [set_hb_interval] takes
    for no timer; and the field of the task manager is assigned to itself. *)
Example hb_interval_ignored :
  hb_timer running_tasks = Some 5000 /\
  exists s, set_manager_hb_interval 1000 running_tasks = Some s /\
  hb_timer s = Some 5000 /\ mgr_hb_itval s = 5000.
Proof. vm_compute. eauto. Qed.

(** A second worker, with the detail info 78; the first has 77. *)
Definition W2 : bytes := lit "WORKER002".
Definition three_tasks : task_manager (list TASK_MSG) :=
  match add_tasks 2 (set_object new_task_manager 2 (set_task_detail_info 77 (new_task W1 []))) with
  | Some (_, s) =>
      match add_tasks 3 (set_object s 3 (set_task_detail_info 78 (new_task W2 []))) with
      | Some (_, s) => s
      | None => s
      end
  | None => new_task_manager
  end.

(** Only the first task of the map is found by its detail info. *)
Example detail_info_of_second :
  get_task_ptr_p_with_detail_info 77 three_tasks = Some 2 /\
  get_task_ptr_p_with_detail_info 78 three_tasks = Some NULL.
Proof. by vm_compute. Qed.

(** When a task that has not answered is deleted, the handler of the heartbeat
    returns before it clears its marks: nothing is sent, and nothing changes,
    so that the heartbeat stops for all tasks. *)
Definition deleted : task_manager (list TASK_MSG) := (del_tasks W1 (mgr (run_sched asked).2)).2.

Example heartbeat_stops : on_heartbeat 1 deleted = Some ([], [], deleted).
Proof. by vm_compute. Qed.
