(* ===== verification/TasksHistory.v ===== *)
(** * TasksHistory: a worker and the messages it was given

    An invariant that relates the messages given to a worker to its state holds
    in every run, when messages and events keep it. *)
From S2P Require Import Prelude Mem Reply StdMap Timers Tasks TasksFacts TasksInv.
From stdpp Require Import list list_numbers strings sets gmap.
From Stdlib Require Import ZArith Lia.
Open Scope Z_scope.

Section history.
Context {W : Type} {worker : Worker W} {L : Libevent}.
Implicit Types (t : task_base W) (s : task_manager W) (x : system W) (m : TASK_MSG).

(** What [on_message] of task [p] was given: heartbeat requests are not. *)
Definition given (p : Z) (l : list note) : list TASK_MSG :=
  filter (fun m => msg_type m <> TASK_HB_REQ) (handled_by p l).

Lemma given_app p l l' : given p (l ++ l') = given p l ++ given p l'.
Proof. unfold given. by rewrite handled_by_app, filter_app. Qed.

(** ** Steps

    Task [p] has the state [w] of a worker. *)
Definition worker_at s (p : Z) (name : bytes) (w : W) : Prop :=
  exists t, objects s !! p = Some t /\ _name t = name /\ this t = WorkerTask w.

(** What a step that tells [l] does to a worker. *)
Inductive moves (p : Z) (l : list note) (w : W) : W -> Prop :=
  | Stays : given p l = [] -> moves p l w w
  | Takes m w' : given p l = [m] -> worker_message w m = Some w' -> moves p l w w'
  | Reacts w' : given p l = [] -> worker_event w w' -> moves p l w w'.

Lemma worker_at_object s q t p name w : worker_at s p name w ->
  (p = q -> _name t = name /\ this t = WorkerTask w) -> worker_at (set_object s q t) p name w.
Proof.
  intros (t0 & H0 & Hn & Ht) Hq. unfold worker_at. simpl. destruct (decide (p = q)) as [->|Hne].
  - rewrite lookup_insert_eq. exists t. destruct (Hq eq_refl). done.
  - rewrite lookup_insert_ne by done. by exists t0.
Qed.

Lemma worker_at_same s s' p name w : objects s' = objects s -> worker_at s p name w ->
  worker_at s' p name w.
Proof. intros E (t & Ht & H). exists t. by rewrite E. Qed.

Lemma handle_msg_moves s q l k s' p name w : handle_msg q s = Some (l, k, s') -> name <> TASK0 ->
  worker_at s p name w -> exists w', worker_at s' p name w' /\ moves p l w w'.
Proof.
  intros H Hname Hw. pose proof Hw as (t & Ht & Hn & Hth). unfold handle_msg in H. inv_opt.
  destruct (decide (p = q)) as [->|Hpq].
  - assert (a = t) as -> by congruence.
    destruct (_tmp_task_queue t) as [|m rest]; [simplify_eq; exists w; (split; [done|by apply Stays])|].
    case_decide as Hty.
    + rewrite decide_False in H by (simpl; congruence). simplify_eq. exists w. split.
      * apply worker_at_object; [done|]. done.
      * apply Stays. unfold given, handled_by. simpl. rewrite decide_True by done.
        by rewrite filter_cons_False, filter_nil by (intros Hf; by apply Hf).
    + rewrite Hth in H. apply bind_Some in H as (d & Ed & H). injection H as <- <- <-. simpl in Ed.
      apply fmap_Some in Ed as (w' & Hm & ->).
      exists w'. split.
      * eexists. simpl. by rewrite lookup_insert_eq.
      * apply (Takes _ _ _ m); [|done]. unfold given, handled_by. simpl. rewrite decide_True by done.
        by rewrite filter_cons_True, filter_nil.
  - exists w. destruct (_tmp_task_queue a) as [|m rest]; [simplify_eq; (split; [done|by apply Stays])|].
    repeat case_decide; inv_opt; simplify_eq;
      (split; [by apply worker_at_object|apply Stays; unfold given, handled_by; simpl;
         by rewrite decide_False by congruence]).
Qed.

Lemma exec_moves a k s l k' s' p name w : exec a k s = Some (l, k', s') -> name <> TASK0 ->
  worker_at s p name w -> exists w', worker_at s' p name w' /\ moves p l w w'.
Proof.
  intros H Hname Hw. destruct a as [q m|q|q|q|q]; simpl in H; apply bind_Some in H as (o & Eo & H).
  - injection H as <- <- <-. exists w. split; [|by apply Stays].
    unfold in_queue in Eo. inv_opt. apply worker_at_object; [done|]. intros ->.
    destruct Hw as (t & Ht & Hw). by simplify_eq.
  - injection H as <- <- <-. exists w. split; [|by apply Stays].
    eapply worker_at_same; [|done]. apply write_evfd_same.
  - exists w. destruct (read_evfd (_evfd o) s) as [[n s1]|] eqn:Er; injection H as <- <- <-;
      (split; [|by apply Stays]); [|done].
    eapply worker_at_same; [|done]. unfold read_evfd in Er. repeat case_match; by simplify_eq.
  - injection H as <- <- <-. exists w. split; [|by apply Stays]. apply worker_at_object; [done|].
    intros ->. destruct Hw as (t & Ht & Hw). by simplify_eq.
  - destruct o as [[l1 k1] s1]. injection H as <- <- <-. by eapply handle_msg_moves.
Qed.

Lemma on_heartbeat_worker q s l k s' p name w : on_heartbeat q s = Some (l, k, s') ->
  worker_at s p name w -> worker_at s' p name w.
Proof.
  intros H Hw. unfold on_heartbeat in H. inv_opt. destruct (this a) as [d|w0] eqn:Ed; [|done].
  assert (forall d', worker_at (set_object s q (set_this a (ManagerTask d'))) p name w) as Hset.
  { intros d'. apply worker_at_object; [done|]. intros ->. destruct Hw as (t & Ht & _ & Eth).
    congruence. }
  destruct (first_loop d); [by simplify_eq|].
  destruct (hb_check (hb_map d) (task_map s)) as [l1 all]. destruct all; simpl in H; [|by simplify_eq].
  unfold send_hb_all in H. destruct (hb_requests _ _ _) as [k1 n]. injection H as <- <- <-.
  by eapply worker_at_same; [|apply Hset].
Qed.

Lemma restarted_given p (r : list Z) : given p (Restarted <$> r) = [].
Proof. unfold given. by rewrite (proj2 (restarted_notes r p)). Qed.

Lemma on_heartbeat_given q s l k s' p : on_heartbeat q s = Some (l, k, s') -> given p l = [].
Proof.
  intros H. unfold on_heartbeat in H. inv_opt. destruct (this a) as [d|w0]; [|done].
  destruct (first_loop d); [by simplify_eq|].
  destruct (hb_check (hb_map d) (task_map s)) as [l1 all].
  destruct all; simpl in H; [|by simplify_eq; apply restarted_given].
  destruct (send_hb_all _) as [k1 s1]. simplify_eq. apply restarted_given.
Qed.

Lemma step_moves x l y p name w : step x l y -> name <> TASK0 -> worker_at (mgr x) p name w ->
  exists w', worker_at (mgr y) p name w' /\ moves p l w w'.
Proof.
  intros [Hs|Hs] Hname Hw.
  - destruct Hs as [s c k q a l k' s' Hq Hex|s c q t n Hq Ht Hrt Hn Hn0]; simpl in *.
    + by eapply exec_moves.
    + exists w. split; [done|by apply Stays].
  - destruct Hs as [s c q name' m Hq Ho Happ|s c q t tid tm l k s' Hq Ho Hrt Htm Hb|s c q t w0 w' Hq Ho Hrt Ht Hev];
      simpl in *.
    + exists w. split; [done|by apply Stays].
    + exists w. split; [|apply Stays; by eapply on_heartbeat_given].
      eapply on_heartbeat_worker; [done|]. apply worker_at_object; [done|]. intros ->.
      destruct Hw as (t0 & Ht0 & Hw). by simplify_eq.
    + destruct Hw as (t0 & Ht0 & Hn0 & Hth). destruct (decide (p = q)) as [->|Hne].
      * assert (t0 = t) as -> by congruence. assert (w0 = w) as -> by congruence. exists w'. split; [|by eapply Reacts].
        eexists. simpl. by rewrite lookup_insert_eq.
      * exists w. split; [|by apply Stays]. exists t0. simpl. by rewrite lookup_insert_ne.
Qed.

(** ** Runs *)
Section invariant.
Context (R : list TASK_MSG -> W -> Prop) (ok : list TASK_MSG -> Prop).
Hypothesis ok_prefix : forall h h', ok (h ++ h') -> ok h.
Hypothesis R_message : forall h w m w', R h w -> ok (h ++ [m]) -> worker_message w m = Some w' ->
  R (h ++ [m]) w'.
Hypothesis R_event : forall h w w', R h w -> worker_event w w' -> R h w'.

Lemma moves_history h p l w w' : moves p l w w' -> R h w -> ok (h ++ given p l) ->
  R (h ++ given p l) w'.
Proof.
  intros [E|m w1 E Hm|w1 E Hev] HR Hok; rewrite E in *.
  - by rewrite app_nil_r.
  - by apply (R_message h w).
  - rewrite app_nil_r. by apply (R_event h w).
Qed.

(** In any run the worker's state is related to what it was given. *)
Lemma run_history x l y : run step x l y -> forall p name w h, name <> TASK0 ->
  worker_at (mgr x) p name w -> R h w -> ok (h ++ given p l) ->
  exists w', worker_at (mgr y) p name w' /\ R (h ++ given p l) w'.
Proof.
  induction 1 as [x|x l y l' z Hxy Hyz IH]; intros p name w h Hname Hw HR Hok.
  - exists w. unfold given. simpl. by rewrite app_nil_r.
  - rewrite given_app, app_assoc in *.
    destruct (step_moves x l y p name w Hxy Hname Hw) as (w1 & Hw1 & Hmv).
    destruct (IH p name w1 (h ++ given p l) Hname Hw1) as (w2 & Hw2 & HR2); [|done|by exists w2].
    eapply moves_history; [done..|]. by eapply ok_prefix.
Qed.
End invariant.
End history.
