(* ===== verification/Worker.v ===== *)
(** * Worker: the redis worker and its client (worker_task.hpp,
    worker_task.cpp, interface.hpp, command.hpp, util.hpp, adapters/libevent.h)

    The worker is a task whose messages carry redis commands; it gives them to
    an asynchronous context of hiredis, which its event loop serves. The client
    builds the messages. The worker keeps every context it made, since others
    than [_context] may still be served.

    The callbacks for connections use members of the worker only, which
    hiredis does not read: they run when the function of hiredis that called
    them returns. They find the worker through the manager, which returns the
    first task of its map if it has the context as its detail information; in
    the program of this file that task is the worker. *)
From S2P Require Import Prelude Mem StdMap Timers Tasks.
From S2P Require Import Sds Reply Reader Format System Context Net Connect Dict Callbacks Async.
From stdpp Require Import list list_numbers strings sets gmap.
From Stdlib Require Import ZArith Lia.
Open Scope Z_scope.

(** ** Commands (command.hpp) *)

(** [redis_formatCommand]: what the stream holds after the loop. *)
Definition redis_formatCommand (argv : list bytes) : bytes :=
  foldl (fun buffer s => buffer ++ 36 :: udec (zlen s) ++ crlf ++ s ++ crlf)
    (42 :: udec (zlen argv) ++ crlf) argv.

(** For keys and values that are strings. *)
Definition get_format_command (type : MSG_TYPE) (key value : bytes) : bytes :=
  match type with
  | TASK_REDIS_PUT => redis_formatCommand [lit "SET"; key; value]
  | _ => []
  end.

(** ** The client (interface.hpp) *)
Definition WORKER001 : bytes := lit "WORKER001".

Inductive request_call : Type :=
  | Put (key value : bytes) (usr_data fn : Z)
  | AddConn (ip : bytes) (port : Z)
  | SendFormatRaw (command : bytes) (usr_data fn : Z)
  | SendRaw (command : bytes) (usr_data fn : Z).

(** The message that a call gives to [send2task], for [WORKER001]. *)
Definition send_format_raw_command (command : bytes) (usr_data fn : Z) : TASK_MSG :=
  new_msg TASK_REDIS_FORMAT_RAW (AnyFormatRaw (mk_redis_msg usr_data fn command)) 0.
Definition send_raw_command (command : bytes) (usr_data fn : Z) : TASK_MSG :=
  new_msg TASK_REDIS_RAW (AnyRaw (mk_redis_msg usr_data fn command)) 0.
Definition put (key value : bytes) (usr_data fn : Z) : TASK_MSG :=
  send_format_raw_command (get_format_command TASK_REDIS_PUT key value) usr_data fn.
Definition add_conn (ip : bytes) (port : Z) : TASK_MSG :=
  new_msg TASK_REDIS_ADD_CONN (AnyAddConn (mk_add_conn ip port)) 0.

Definition request_msg (r : request_call) : TASK_MSG :=
  match r with
  | Put key value usr_data fn => put key value usr_data fn
  | AddConn ip port => add_conn ip port
  | SendFormatRaw command usr_data fn => send_format_raw_command command usr_data fn
  | SendRaw command usr_data fn => send_raw_command command usr_data fn
  end.

(** ** The worker (worker_task.hpp) *)
Inductive conn_status : Type := CONNECTED | CONNECTING | DISCONNECTED.

(** Whether the events for reading and for writing are pending. *)
Record redisLibeventEvents : Type := mk_events {
  le_rev : bool;
  le_wev : bool
}.

(** A context that was made: [cn_events] is [ev.data]. *)
Record connection : Type := mk_conn {
  cn_ac : redisAsyncContext;
  cn_freed : bool;
  cn_events : option redisLibeventEvents
}.

(** The functions [connectCallback] and [disconnectCallback]. *)
Definition CONNECT_CALLBACK : Z := 1.
Definition DISCONNECT_CALLBACK : Z := 2.

(** [_context] is not initialised. [wk_detail] is the member [_detail_info];
    [wk_timers] are the contexts of the reconnect timers that are pending. The
    rest is what hiredis works on. *)
Record worker_task (K : Type) : Type := mk_worker {
  _conn_stat : conn_status;
  _context : option Z;
  _connect_cb : Z;
  _disconnect_cb : Z;
  wk_detail : Z;
  wk_timers : list Z;
  conns : gmap Z connection;
  next_conn : Z;
  wk_heap : heap;
  wk_cbs : cb_store;
  wk_dicts : world bytes redisCallback unit;
  wk_sys : K;
  wk_log : list event
}.
Arguments mk_worker {K}.
Arguments _conn_stat {K} w : rename.
Arguments _context {K} w : rename.
Arguments _connect_cb {K} w : rename.
Arguments _disconnect_cb {K} w : rename.
Arguments wk_detail {K} w : rename.
Arguments wk_timers {K} w : rename.
Arguments conns {K} w : rename.
Arguments next_conn {K} w : rename.
Arguments wk_heap {K} w : rename.
Arguments wk_cbs {K} w : rename.
Arguments wk_dicts {K} w : rename.
Arguments wk_sys {K} w : rename.
Arguments wk_log {K} w : rename.

(** Whether a descriptor can be read and written without waiting: what the
    event loop asks the system. *)
Class Poll (K : Type) := {
  readable : Z -> K -> bool;
  writable : Z -> K -> bool
}.

Section worker.
Context {M : Malloc} {HM : HeapMalloc} {K : Type} {OS : Sys K} {PL : Poll K} {L : Libevent}.
Context (vformat : bytes -> list va -> bytes).
(** The callbacks of the client, as in [Async]. *)
Context (script : list event -> list action) (depth : nat).
Implicit Types (w : worker_task K).

Definition set_conn_stat (stat : conn_status) w : worker_task K :=
  mk_worker stat (_context w) (_connect_cb w) (_disconnect_cb w) (wk_detail w) (wk_timers w)
    (conns w) (next_conn w) (wk_heap w) (wk_cbs w) (wk_dicts w) (wk_sys w) (wk_log w).
Definition set_context (p : Z) w : worker_task K :=
  mk_worker (_conn_stat w) (Some p) (_connect_cb w) (_disconnect_cb w) (wk_detail w) (wk_timers w)
    (conns w) (next_conn w) (wk_heap w) (wk_cbs w) (wk_dicts w) (wk_sys w) (wk_log w).
Definition set_detail (p : Z) w : worker_task K :=
  mk_worker (_conn_stat w) (_context w) (_connect_cb w) (_disconnect_cb w) p (wk_timers w)
    (conns w) (next_conn w) (wk_heap w) (wk_cbs w) (wk_dicts w) (wk_sys w) (wk_log w).
Definition set_wk_timers (l : list Z) w : worker_task K :=
  mk_worker (_conn_stat w) (_context w) (_connect_cb w) (_disconnect_cb w) (wk_detail w) l
    (conns w) (next_conn w) (wk_heap w) (wk_cbs w) (wk_dicts w) (wk_sys w) (wk_log w).
Definition set_conn (p : Z) (cn : connection) w : worker_task K :=
  mk_worker (_conn_stat w) (_context w) (_connect_cb w) (_disconnect_cb w) (wk_detail w)
    (wk_timers w) (<[p := cn]> (conns w)) (next_conn w) (wk_heap w) (wk_cbs w) (wk_dicts w)
    (wk_sys w) (wk_log w).

(** The constructor, for a process in the state [k]. *)
Definition new_worker (k : K) : worker_task K :=
  mk_worker DISCONNECTED None CONNECT_CALLBACK DISCONNECT_CALLBACK NULL [] ∅ 1
    (mk_heap ∅ 1 0) (mk_store ∅ 1) (mk_world ∅ 1 tt) k [].

Definition conn_at (p : Z) w : result connection :=
  if p =? NULL then Fault NullDeref else
  match conns w !! p with Some cn => Ok cn | None => Fault OutOfBounds end.

(** ** Calls of hiredis *)
Definition state_of w (cn : connection) : state (W := K) :=
  mk_state (cn_ac cn) (wk_heap w) (wk_cbs w) (wk_dicts w) (wk_sys w) (wk_log w) (cn_freed cn).

(** The hooks of adapters/libevent.h. *)
Definition hook (e : event) (d : option redisLibeventEvents) : option redisLibeventEvents :=
  match d with
  | None => None
  | Some ev =>
      match e with
      | EvAddRead => Some (mk_events true (le_wev ev))
      | EvDelRead => Some (mk_events false (le_wev ev))
      | EvAddWrite => Some (mk_events (le_rev ev) true)
      | EvDelWrite => Some (mk_events (le_rev ev) false)
      | EvCleanup => None
      | _ => Some ev
      end
  end.

Definition hooks (evs : list event) (d : option redisLibeventEvents) : option redisLibeventEvents :=
  foldl (fun d e => hook e d) d evs.

Definition put_state (p : Z) (d : option redisLibeventEvents) (s : state (W := K)) w :
    worker_task K :=
  mk_worker (_conn_stat w) (_context w) (_connect_cb w) (_disconnect_cb w) (wk_detail w)
    (wk_timers w) (<[p := mk_conn (s_ac s) (s_freed s) d]> (conns w)) (next_conn w)
    (s_heap s) (s_cbs s) (s_dicts s) (s_sys s) (s_log s).

(** A new context, at [p]; [NULL] when there is none. *)
Definition new_conn (ac : option redisAsyncContext) (h : heap) (k : K) w : Z * worker_task K :=
  let p := next_conn w in
  match ac with
  | None =>
      (NULL, mk_worker (_conn_stat w) (_context w) (_connect_cb w) (_disconnect_cb w)
         (wk_detail w) (wk_timers w) (conns w) p h (wk_cbs w) (wk_dicts w) k (wk_log w))
  | Some ac =>
      (p, mk_worker (_conn_stat w) (_context w) (_connect_cb w) (_disconnect_cb w)
         (wk_detail w) (wk_timers w) (<[p := mk_conn ac false None]> (conns w)) (p + 1) h
         (wk_cbs w) (wk_dicts w) k (wk_log w))
  end.

Definition connect_conn (ip : bytes) (prt : Z) w : result (Z * worker_task K) :=
  '(ac, h, k) ← redisAsyncConnect ip prt (wk_heap w) (wk_sys w);
  Ok (new_conn ac h k w).

(** [redisLibeventAttach]; [sizeof(redisLibeventEvents)] is 24, and events are
    not checked. *)
Definition redisLibeventAttach (p : Z) w : result (Z * worker_task K) :=
  cn ← conn_at p w;
  if cn_freed cn then Fault OutOfBounds else
  match cn_events cn with
  | Some _ => Ok (REDIS_ERR, w)
  | None =>
      if negb (malloc_ok 24) then Fault NullDeref else
      if negb (event_new_ok false) then Fault NullDeref else
      let ac := cn_ac cn in
      let ac := mk_async (a_c ac) (a_err ac) (a_errstr ac) (mk_hooks true true true true true)
                  (a_onConnect ac) (a_onDisconnect ac) (a_replies ac) (a_invalid ac)
                  (a_channels ac) (a_patterns ac) in
      Ok (REDIS_OK, set_conn p (mk_conn ac false (Some (mk_events true true))) w)
  end.

(** ** Callbacks for connections (worker_task.cpp) *)

(** [get_task_ptr_p_with_detail_info] finds the worker. *)
Definition found (c : Z) w : bool := wk_detail w =? c.

Definition connectCallback (c status : Z) w : worker_task K :=
  if negb (status =? REDIS_OK) then w
  else if found c w then set_conn_stat CONNECTED w else w.

(** The number of a function of hiredis that sets a callback is dropped. *)
Definition set_callback (m : async (W := K) Z) (p : Z) w : result (worker_task K) :=
  cn ← conn_at p w;
  '(_, s) ← m (state_of w cn);
  Ok (put_state p (hooks (drop (length (wk_log w)) (s_log s)) (cn_events cn)) s w).

(** [c] is used, freed or not; in a callback of [c] it is not freed yet.
    [worker_ptr_p] may be [NULL]. [_context] keeps its value. *)
Definition redisAsyncReconnect (in_callback : bool) (c : Z) w : result (worker_task K) :=
  let worker_ptr_p := found c w in
  cn ← conn_at c w;
  if cn_freed cn && negb in_callback then Fault OutOfBounds else
  host ← deref (host (c_tcp (a_c (cn_ac cn))));
  '(new_c, w) ← connect_conn host (port (c_tcp (a_c (cn_ac cn)))) w;
  if negb worker_ptr_p then Fault NullDeref else
  let w := set_detail new_c w in
  '(_, w) ← redisLibeventAttach new_c w;
  w ← set_callback (redisAsyncSetConnectCallback CONNECT_CALLBACK) new_c w;
  set_callback (redisAsyncSetDisconnectCallback DISCONNECT_CALLBACK) new_c w.

(** A timer that cannot be added is not pending; its result is dropped. *)
Definition disconnectCallback (c status : Z) w : result (worker_task K) :=
  if negb (status =? REDIS_OK) then Ok w
  else if found c w then
    let w := set_conn_stat DISCONNECTED w in
    Ok (if event_new_ok false && event_add_ok (5, 0) then set_wk_timers (wk_timers w ++ [c]) w else w)
  else redisAsyncReconnect true c w.

Definition conn_callback (c : Z) (e : event) w : result (worker_task K) :=
  match e with
  | EvConnect fn status => Ok (if fn =? CONNECT_CALLBACK then connectCallback c status w else w)
  | EvDisconnect fn status => if fn =? DISCONNECT_CALLBACK then disconnectCallback c status w else Ok w
  | _ => Ok w
  end.

Fixpoint conn_callbacks (c : Z) (evs : list event) w : result (worker_task K) :=
  match evs with
  | [] => Ok w
  | e :: evs => w ← conn_callback c e w; conn_callbacks c evs w
  end.

(** A function of hiredis on the context [p], its hooks and its callbacks. *)
Definition on_context {A} (p : Z) (m : async (W := K) A) w : result (worker_task K) :=
  cn ← conn_at p w;
  '(_, s) ← m (state_of w cn);
  let evs := drop (length (wk_log w)) (s_log s) in
  conn_callbacks p evs (put_state p (hooks evs (cn_events cn)) s w).

(** ** Messages *)

(** The bytes of a [std::string] up to the first 0. *)
Fixpoint c_str (s : bytes) : bytes :=
  match s with
  | [] => []
  | x :: s => if x =? 0 then [] else x :: c_str s
  end.

(** [_context] when it was set. *)
Definition the_context w : result Z :=
  match _context w with Some p => Ok p | None => Fault OutOfBounds end.

Definition process_add_conn (payload : add_conn_payload) w : result (bool * worker_task K) :=
  let w := set_conn_stat CONNECTING w in
  '(p, w) ← connect_conn (c_str (pl_ip payload)) (pl_port payload) w;
  let w := set_context p w in
  cn ← conn_at p w;
  if negb (a_err (cn_ac cn) =? 0) then Ok (false, w) else
  '(_, w) ← redisLibeventAttach p w;
  let w := set_detail p w in
  w ← set_callback (redisAsyncSetConnectCallback (_connect_cb w)) p w;
  w ← set_callback (redisAsyncSetDisconnectCallback (_disconnect_cb w)) p w;
  Ok (true, w).

(** A bad cast throws. *)
Definition cast_of {A} (a : option A) : result A :=
  match a with Some a => Ok a | None => Fault AssertFailed end.

Definition worker_on_message (m : TASK_MSG) w : result (worker_task K) :=
  match msg_type m with
  | TASK_REDIS_FORMAT_RAW =>
      msg ← cast_of (cast_format_raw (msg_any m));
      p ← the_context w;
      on_context p (redisAsyncFormattedCommand (msg_cb msg) (usr_data msg) (msg_body msg ++ [0])
                      (zlen (msg_body msg))) w
  | TASK_REDIS_RAW =>
      msg ← cast_of (cast_raw (msg_any m));
      p ← the_context w;
      on_context p (redisAsyncCommand vformat (msg_cb msg) (usr_data msg) (msg_body msg ++ [0]) []) w
  | TASK_REDIS_ADD_CONN =>
      payload ← cast_of (cast_add_conn (msg_any m));
      '(_, w) ← process_add_conn payload w; Ok w
  | _ => Ok w
  end.

(** ** Events of the loop *)
Inductive loop_event : Type :=
  | Readable (p : Z)
  | Writable (p : Z)
  | Reconnect (i : nat).

(** The event is pending and its condition holds. *)
Definition enabled (e : loop_event) w : bool :=
  match e with
  | Readable p =>
      match conns w !! p with
      | Some (mk_conn ac _ (Some ev)) => le_rev ev && readable (c_fd (a_c ac)) (wk_sys w)
      | _ => false
      end
  | Writable p =>
      match conns w !! p with
      | Some (mk_conn ac _ (Some ev)) => le_wev ev && writable (c_fd (a_c ac)) (wk_sys w)
      | _ => false
      end
  | Reconnect i => bool_decide (is_Some (wk_timers w !! i))
  end.

(** An event that happens is not pending any more. *)
Definition fired (p : Z) (f : redisLibeventEvents -> redisLibeventEvents) w : worker_task K :=
  match conns w !! p with
  | Some cn => set_conn p (mk_conn (cn_ac cn) (cn_freed cn) (f <$> cn_events cn)) w
  | None => w
  end.

(** [redisLibeventReadEvent], [redisLibeventWriteEvent] and the timer. The
    loops that the fuel of [redisAsyncHandleRead] bounds are for contexts that
    block. *)
Definition on_event (e : loop_event) w : result (worker_task K) :=
  match e with
  | Readable p =>
      on_context p (redisAsyncHandleRead (run_user script depth) 0)
        (fired p (fun ev => mk_events false (le_wev ev)) w)
  | Writable p =>
      on_context p (redisAsyncHandleWrite (run_user script depth))
        (fired p (fun ev => mk_events (le_rev ev) false) w)
  | Reconnect i =>
      match wk_timers w !! i with
      | Some c => redisAsyncReconnect false c (set_wk_timers (delete i (wk_timers w)) w)
      | None => Ok w
      end
  end.

(** ** The task *)
#[export] Instance redis_worker : Worker (worker_task K) := {|
  worker_message w m := match worker_on_message m w with Ok w => Some w | Fault _ => None end;
  worker_event w w' := exists e, enabled e w = true /\ on_event e w = Ok w';
  app_sends name m := name = WORKER001 /\ exists r, m = request_msg r
|}.

(** [redis_async_client::init]: [p0] and [p1] are the pointers of task0 and of
    the worker. *)
Definition client_init (os : Z -> Z * bool) (p0 p1 : Z) (k : K) : option (task_manager (worker_task K)) :=
  '(_, s) ← add_tasks p1 (set_object new_task_manager p1 (new_task WORKER001 (new_worker k)));
  '(_, s) ← init os p0 s;
  Some s.
End worker.
