(* ===== verification/WorkerFacts.v ===== *)
(** * WorkerFacts: how the worker uses hiredis

    The command that the client writes, calls on a context with their hooks,
    and the context that a message to connect leaves. *)
From S2P Require Import Prelude Mem StdMap Timers Tasks.
From S2P Require Import Sds SdsFacts Reply Reader ReaderView ReplyTree ReaderDefault Resp RoundTrip.
From S2P Require Import Session Format FormatFacts System Context Net Connect NetFacts Dict Callbacks.
From S2P Require Import Async AsyncFacts AsyncCommand AsyncReplies AsyncDeliver AsyncCorrect Worker.
From S2P Require Import ContextFacts.
From stdpp Require Import list list_numbers strings sets gmap.
From Stdlib Require Import ZArith Lia.
Open Scope Z_scope.

(** ** Commands *)

(** The loop of [redis_formatCommand] writes what hiredis would. *)
Lemma formatCommand_command argv : redis_formatCommand argv = command argv.
Proof.
  unfold redis_formatCommand. rewrite command_eq.
  assert (forall l b, foldl (fun buffer s => buffer ++ 36 :: udec (zlen s) ++ crlf ++ s ++ crlf) b l =
    b ++ flat_map bulk l) as H.
  { induction l as [|s l IH]; intros b; cbn [foldl flat_map]; [by rewrite app_nil_r|].
    rewrite IH, bulk_eq. solve_app. }
  by rewrite H.
Qed.

Lemma set_ordinary key value : ordinary [lit "SET"; key; value] = true.
Proof. by vm_compute. Qed.

Section facts.
Context {M : Malloc} {HM : HeapMalloc} {K : Type} {OS : Sys K} {PL : Poll K} {L : Libevent}.
Implicit Types (w : worker_task K) (s : state (W := K)).

(** ** Calls *)
Lemma conn_at_ok p w cn : p <> NULL -> conns w !! p = Some cn -> conn_at p w = Ok cn.
Proof. intros Hp Hc. unfold conn_at. bool_false (p =? NULL). by rewrite Hc. Qed.

(** Events that are hooks or replies do not touch the worker. *)
Definition inner (e : event) : Prop :=
  match e with EvConnect _ _ | EvDisconnect _ _ => False | _ => True end.

Lemma inner_callbacks p evs w : Forall inner evs -> conn_callbacks p evs w = Ok w.
Proof.
  induction 1 as [|e evs He _ IH]; cbn [conn_callbacks]; [done|].
  destruct e; try done; cbn [conn_callback mbind result_bind]; exact IH.
Qed.

Lemma delivered_inner evs : Forall delivered evs -> Forall inner evs.
Proof. intros H. eapply Forall_impl; [exact H|]. by intros []. Qed.

Lemma write_hooks_inner ev b : Forall inner (write_hooks ev b).
Proof.
  unfold write_hooks. apply Forall_app. split; [destruct b|]; destruct (_ ev); by repeat constructor.
Qed.

(** A call, and what its hooks and callbacks are given. *)
Lemma on_context_run {A} p (m : async (W := K) A) w cn a s evs : p <> NULL ->
  conns w !! p = Some cn -> m (state_of w cn) = Ok (a, s) -> s_log s = wk_log w ++ evs ->
  on_context p m w = conn_callbacks p evs (put_state p (hooks evs (cn_events cn)) s w).
Proof.
  intros Hp Hc Hm Hl. unfold on_context. rewrite (conn_at_ok _ _ _ Hp Hc).
  cbn [mbind result_bind]. rewrite Hm. cbn [mbind result_bind].
  by rewrite Hl, drop_app_length.
Qed.

Lemma set_callback_run (m : async (W := K) Z) p w cn a s evs : p <> NULL ->
  conns w !! p = Some cn -> m (state_of w cn) = Ok (a, s) -> s_log s = wk_log w ++ evs ->
  set_callback m p w = Ok (put_state p (hooks evs (cn_events cn)) s w).
Proof.
  intros Hp Hc Hm Hl. unfold set_callback. rewrite (conn_at_ok _ _ _ Hp Hc).
  cbn [mbind result_bind]. rewrite Hm. cbn [mbind result_bind].
  by rewrite Hl, drop_app_length.
Qed.

(** What is delivered leaves the event for reading pending, and the event for
    writing if it was. *)
Lemma hooks_delivered evs b1 b2 : Forall delivered evs -> EvAddRead ∈ evs -> exists b,
  hooks evs (Some (mk_events b1 b2)) = Some (mk_events true b) /\ (b2 = true -> b = true).
Proof.
  assert (forall l b b', Forall delivered l -> (b = true \/ EvAddRead ∈ l) -> exists b'',
    hooks l (Some (mk_events b b')) = Some (mk_events true b'') /\ (b' = true -> b'' = true)) as H.
  { induction l as [|e l IH]; intros b b' Hd Hin.
    - destruct Hin as [->|Hin]; [by exists b'|by apply not_elem_of_nil in Hin].
    - apply Forall_cons in Hd as [He Hd]. rewrite elem_of_cons in Hin.
      unfold hooks in *. cbn [foldl]. destruct e; try done; cbn [hook le_rev le_wev].
      + apply IH; [done|]. destruct Hin as [?|[?|?]]; [by left|discriminate|by right].
      + apply IH; auto.
      + destruct (IH b true Hd) as (b'' & E & Hb); [|exists b''; split; [done|by intros _; apply Hb]].
        destruct Hin as [?|[?|?]]; [by left|discriminate|by right]. }
  intros Hd Hin. apply H; auto.
Qed.

(** ** A new connection *)
Context {D : Descriptors K}.
Hypothesis malloc_total : forall n, malloc_ok n = true.

(** A context that [redisAsyncConnect] makes: nothing was written or read. *)
Record fresh_context (ac : redisAsyncContext) : Prop := {
  fc_err : a_err ac = c_err (a_c ac);
  fc_flags : c_flags (a_c ac) = 0;
  fc_obuf : exists o, c_obuf (a_c ac) = Some o /\ sds_is [] o;
  fc_reader : exists r, c_reader (a_c ac) = Some r /\
    areader_is (Live default_core []) r /\ rr_len r = 0;
  fc_lists : a_replies ac = empty_cblist /\ a_invalid ac = empty_cblist;
  fc_callbacks : a_onConnect ac = 0 /\ a_onDisconnect ac = 0
}.

Lemma connectNonBlock_new ip prt h (k : K) : exists c k',
  redisConnectNonBlock ip prt h k = Ok (Some c, h, k') /\
  clear_flag c REDIS_CONNECTED = set_flags c 0 /\
  (exists o, c_obuf c = Some o /\ sds_is [] o) /\
  exists r, c_reader c = Some r /\ areader_is (Live default_core []) r /\ rr_len r = 0.
Proof.
  unfold redisConnectNonBlock, connect_with, redisContextInit. rewrite malloc_total. cbn [negb].
  destruct (returns_ok _ _ malloc_total sdsempty_spec) as (o & -> & Ho). cbn [mbind result_bind].
  destruct (create_live (Some defaultFunctions) malloc_total) as (r & Hc & Hr & Hl).
  unfold redisReaderCreate. rewrite Hc. cbn [mbind result_bind].
  set (c := nonblock _).
  destruct (connectTcp_ok malloc_total c (Given (Some ip)) prt (Given None) (Given None) k)
    as (st & c' & k' & E & He); [done|].
  unfold redisContextConnectTcp. rewrite E. cbn [mbind result_bind].
  assert (clear_flag c' REDIS_CONNECTED = set_flags c' 0 /\ c_reader c' = Some r /\ c_obuf c' = Some o)
    as (H1 & H2 & H3).
  { destruct He as [(_ & _ & _ & Hk)|(_ & _ & Hk & _)]; unfold kept, NetFacts.connected in Hk; cbn in Hk;
      injection Hk as E1 E2 E3; (split; [|done]); unfold clear_flag; by rewrite E1. }
  exists c', k'. split_and!; [done|done|by exists o|by exists r].
Qed.

Lemma asyncConnect_new ip prt h (k : K) : exists ac k',
  redisAsyncConnect ip prt h k = Ok (Some ac, h, k') /\ fresh_context ac.
Proof.
  destruct (connectNonBlock_new ip prt h k) as (c & k' & E & Hf & Ho & Hr).
  unfold redisAsyncConnect. rewrite E. cbn [mbind result_bind].
  unfold redisAsyncInitialize, dictCreate. rewrite !malloc_total. cbn [negb mbind result_bind].
  rewrite Hf. eexists _, k'. split; [done|]. by split.
Qed.
End facts.

(** * The context of a worker, from its connection on *)
(** ** Requests as a stream *)
Definition commands_of (rqs : list request) : list resp :=
  (fun rq => RArray (RString <$> rq.2)) <$> rqs.

Lemma commands_length rqs : length (commands_of rqs) = length rqs.
Proof. apply length_fmap. Qed.

Lemma callbacks_length (rqs : list request) : length rqs.*1 = length rqs.
Proof. apply length_fmap. Qed.

Lemma texts_encodes rqs : texts rqs = encodes (commands_of rqs).
Proof. unfold texts. induction rqs as [|rq rqs IH]; [done|]. cbn. by rewrite IH. Qed.

Lemma texts_app r1 r2 : texts (r1 ++ r2) = texts r1 ++ texts r2.
Proof. unfold texts. by rewrite fmap_app, flat_map_app. Qed.

Lemma texts_next (rqs : list request) n rq : rqs !! n = Some rq ->
  texts (take (S n) rqs) = texts (take n rqs) ++ command rq.2.
Proof.
  intros Hrq. assert (take (S n) rqs = take n rqs ++ [rq]) as -> by (by apply take_S_r).
  rewrite texts_app. f_equal. unfold texts. cbn.
  by rewrite app_nil_r.
Qed.

Lemma command_pos ds : (0 < length (command ds))%nat.
Proof. apply (resp_encode_pos (RArray (RString <$> ds))). Qed.

Lemma short_nil vs : short [] vs.
Proof. destruct vs as [|v vs]; [done|]. apply resp_encode_pos. Qed.

Lemma short_app t l1 l2 : short t l1 -> short t (l1 ++ l2).
Proof. destruct l1; [intros ->; apply short_nil|done]. Qed.

Lemma encodes_length vs1 vs2 : (length (encodes vs1) <= length (encodes (vs1 ++ vs2)))%nat.
Proof. rewrite flat_map_app, length_app. lia. Qed.

Lemma encodes_take vs j : encodes vs = encodes (take j vs) ++ encodes (drop j vs).
Proof. by rewrite <- flat_map_app, take_drop. Qed.

(** What the kernel tells the event loop of the descriptor [fd]: it can be
    read when its peer wrote something that was not read, it can always be
    written, and the connection is made without an error. *)
Class PolledSocket (K : Type) {OS : Sys K} (fd : Z) {Ch : Channel K fd} {SS : StreamSocket K fd}
    {PL : Poll K} := {
  readable_law : forall (k : K) rest, serve (sent k) = received k ++ rest ->
    readable fd k = true <-> rest <> [];
  writable_law : forall k : K, writable fd k = true;
  so_error_law : forall k : K, exists k', sys_so_error fd k = (Some 0, k') /\
    sent k' = sent k /\ received k' = received k
}.

Section serve.
Context {M : Malloc} {HM : HeapMalloc} {K : Type} {OS : Sys K} {PL : Poll K} {L : Libevent}.
Context (fd : Z) {Ch : Channel K fd} {SS : StreamSocket K fd} {PS : PolledSocket K fd}.
Implicit Types (w : worker_task K) (s : state (W := K)).
Hypothesis malloc_total : forall n, malloc_ok n = true.
Hypothesis heap_total : forall n size, heap_ok n size = true.
Context (rqs : list request) (vs : list resp).

(** ** The server

    Once it has read the first [j] commands, and a part of the next, it has
    written the first [j] values. *)
Record answered : Prop := {
  an_len : length vs = length rqs;
  an_serve j x y : texts (take j rqs) ++ x ++ y = texts rqs ->
    short x (commands_of (drop j rqs)) -> serve (texts (take j rqs) ++ x) = encodes (take j vs)
}.

Record exchange_ok : Prop := {
  ex_answered : answered;
  ex_ordinary : Forall (fun rq => ordinary rq.2 = true) rqs;
  ex_sendable : Forall sendable vs;
  ex_depth : Forall (fun v => depth v <= 8)%nat vs;
  ex_out : zlen (texts rqs) < 2 ^ 31 - 1;
  ex_in : zlen (encodes vs) < 2 ^ 31 - 1
}.
Hypothesis Hex : exchange_ok.

Lemma commands_take j : take j (commands_of rqs) = commands_of (take j rqs).
Proof. unfold commands_of. by rewrite fmap_take. Qed.

(** Where the server is when it has read a part of the requests. *)
Lemma serve_part x y : x ++ y = texts rqs -> exists j t, (j <= length rqs)%nat /\
  x = texts (take j rqs) ++ t /\ short t (commands_of (drop j rqs)) /\ serve x = encodes (take j vs).
Proof.
  intros Hxy. rewrite texts_encodes in Hxy.
  destruct (split_stream _ _ _ Hxy) as (c1 & c2 & t & Hc & Hx & Ht & Hty).
  assert (length c1 <= length rqs)%nat as Hl.
  { rewrite <- (commands_length rqs), Hc, length_app. lia. }
  assert (commands_of (take (length c1) rqs) = c1) as E1.
  { rewrite <- commands_take, Hc. by rewrite take_app_length. }
  assert (commands_of (drop (length c1) rqs) = c2) as E2.
  { unfold commands_of. rewrite fmap_drop. fold (commands_of rqs). rewrite Hc. by rewrite drop_app_length. }
  assert (x = texts (take (length c1) rqs) ++ t) as Ex by (by rewrite texts_encodes, E1).
  exists (length c1), t. split_and!; [done|done|by rewrite E2|].
  rewrite Ex. apply (an_serve (ex_answered Hex) _ _ y).
  - rewrite app_assoc, <- Ex. by rewrite texts_encodes.
  - by rewrite E2.
Qed.

Lemma serve_whole n : (n <= length rqs)%nat -> serve (texts (take n rqs)) = encodes (take n vs).
Proof.
  intros Hn. rewrite <- (app_nil_r (texts _)).
  apply (an_serve (ex_answered Hex) _ [] (texts (drop n rqs))); [|apply short_nil].
  by rewrite app_nil_l, <- texts_app, take_drop.
Qed.

Lemma texts_take_le i j : (i <= j)%nat ->
  (length (texts (take i rqs)) <= length (texts (take j rqs)))%nat.
Proof.
  intros Hij. replace (take i rqs) with (take i (take j rqs)) by (rewrite take_take; f_equal; lia).
  rewrite <- (take_drop i (take j rqs)) at 2. rewrite texts_app, length_app. lia.
Qed.

Lemma short_next j t : (j < length rqs)%nat -> short t (commands_of (drop j rqs)) ->
  (length (texts (take j rqs)) + length t < length (texts (take (S j) rqs)))%nat.
Proof.
  intros Hj Ht. destruct (lookup_lt_is_Some_2 rqs j Hj) as [rq Hrq].
  rewrite (drop_S _ _ _ Hrq) in Ht. cbn in Ht.
  rewrite (texts_next rqs j rq Hrq), length_app. unfold command. cbn in *. lia.
Qed.

(** What it has written stays. *)
Lemma serve_mono x1 x2 y : x1 ++ x2 ++ y = texts rqs ->
  exists z, serve (x1 ++ x2) = serve x1 ++ z.
Proof.
  intros Hxy. destruct (serve_part x1 (x2 ++ y) Hxy) as (j1 & t1 & Hj1 & E1 & Ht1 & ->).
  destruct (serve_part (x1 ++ x2) y) as (j2 & t2 & Hj2 & E2 & Ht2 & ->); [by rewrite <- app_assoc|].
  assert (j1 <= j2)%nat as Hle.
  { destruct (decide (j1 <= j2)%nat) as [|Hgt]; [done|].
    pose proof (short_next j2 t2 ltac:(lia) Ht2). pose proof (texts_take_le (S j2) j1 ltac:(lia)).
    apply (f_equal length) in E1, E2. rewrite length_app in E1. rewrite !length_app in E2. lia. }
  exists (encodes (drop j1 (take j2 vs))).
  rewrite (encodes_take (take j2 vs) j1), take_take. do 2 f_equal. by rewrite Nat.min_l.
Qed.
End serve.
