(* ===== verification/WorkerRun.v ===== *)
(** * WorkerRun: a program with one redis worker, and a scheduler

    Runs that are computed: a schedule says whose turn it is. *)
From S2P Require Import Prelude Mem StdMap Timers TimersCorrect Sds Reply Reader ReaderCorrect Resp RoundTrip.
From S2P Require Import Format FormatFacts System.
From S2P Require Import Context ContextFacts Peer ContextCorrect Net Connect Dict Callbacks Async.
From S2P Require Import AsyncFacts AsyncReplies Tasks TasksFacts TasksInv TasksLive TasksStart TasksCorrect.
From S2P Require Import Worker WorkerFacts.
From stdpp Require Import list list_numbers strings sets gmap.
From Stdlib Require Import ZArith Lia.
Open Scope Z_scope.

(** Nothing is asked of the states of a worker when it starts. *)
#[export] Instance worker_inv {K} : WorkerInv (worker_task K) := fun w => True.

(** A turn: thread [p] does its next piece or wakes; a client's thread makes a
    call; an event of the loop of task [p] happens. *)
Inductive turn : Type :=
  | Works (p : Z)
  | Calls (p : Z) (r : request_call)
  | Happens (p : Z) (e : loop_event).

Section scheduler.
Context {M : Malloc} {HM : HeapMalloc} {K : Type} {OS : Sys K} {PL : Poll K} {L : Libevent}.
Context (vformat : bytes -> list va -> bytes) (script : list event -> list action) (depth : nat).
Abbreviation the_worker := (redis_worker vformat script depth).
Implicit Types (x y : system (worker_task K)).

Definition play_turn (e : turn) x : option (list note * system (worker_task K)) :=
  let 'mk_system s c := x in
  match e with
  | Works p =>
      k ← c !! p;
      match k with
      | a :: k =>
          '(l, k', s') ← exec (worker := the_worker) a k s;
          Some (l, mk_system s' (<[p := k']> c))
      | [] =>
          t ← objects s !! p;
          n ← eventfds s !! _evfd t;
          if decide (running t = true /\ 0 < n) then Some ([], mk_system s (<[p := evfdCallback p]> c))
          else None
      end
  | Calls p r =>
      match c !! p, objects s !! p with
      | Some [], None => Some ([], mk_system s (<[p := send2task_acts WORKER001 (request_msg r) s]> c))
      | _, _ => None
      end
  | Happens p e =>
      t ← objects s !! p;
      match this t, c !! p with
      | WorkerTask w, Some [] =>
          if running t && enabled e w then
            match on_event script depth e w with
            | Ok w' => Some ([], mk_system (set_object s p (set_this t (WorkerTask w'))) c)
            | Fault _ => None
            end
          else None
      | _, _ => None
      end
  end.

Fixpoint play (l : list turn) x : option (list note * system (worker_task K)) :=
  match l with
  | [] => Some ([], x)
  | e :: l =>
      '(n, x) ← play_turn e x;
      '(n', x) ← play l x;
      Some (n ++ n', x)
  end.

Lemma play_turn_step e x l y : play_turn e x = Some (l, y) -> step (worker := the_worker) x l y.
Proof.
  destruct x as [s c], e as [p|p r|p e]; simpl; intros H.
  - apply bind_Some in H as (k & Hk & H). destruct k as [|a k].
    + apply bind_Some in H as (t & Ht & H). apply bind_Some in H as (n & Hn & H).
      destruct (decide _) as [[Hr H0]|]; [|done]. injection H as <- <-. left. by eapply Work_wake.
    + apply bind_Some in H as ([[l' k'] s'] & He & H). injection H as <- <-. left. by eapply Work_act.
  - destruct (c !! p) as [[|]|] eqn:Hc; [|done..]. destruct (objects s !! p) eqn:Ho; [done|]. injection H as <- <-. right. apply Client; [done..|].
    split; [done|by exists r].
  - apply bind_Some in H as (t & Ht & H). destruct (this t) as [|w] eqn:Hw; [done|].
    destruct (c !! p) as [[|]|] eqn:Hc; [|done..]. destruct (running t && enabled e w) eqn:Hre; [|done].
    apply andb_true_iff in Hre as [Hr He].
    destruct (on_event script depth e w) as [w'|] eqn:E; [|done]. injection H as <- <-.
    right. eapply Event; try done. by exists e.
Qed.

Lemma play_run l : forall x n y, play l x = Some (n, y) -> run (step (worker := the_worker)) x n y.
Proof.
  induction l as [|e l IH]; intros x n y H; simpl in H.
  - injection H as <- <-. apply Run_refl.
  - apply bind_Some in H as ([n1 x1] & H1 & H). apply bind_Some in H as ([n2 x2] & H2 & H).
    injection H as <- <-. eapply Run_step; [by eapply play_turn_step|by apply IH].
Qed.
End scheduler.

(** ** A program with a worker

    Its server understands two requests; descriptor 3 is free. *)
Definition set_a : request := (mk_cb 7 1, [lit "SET"; lit "a"; lit "1"]).
Definition get_a : request := (mk_cb 8 2, [lit "GET"; lit "a"]).
Definition two_requests : list request := [set_a; get_a].
Definition two_answers : list resp := [RStatus (lit "OK"); RString (lit "1")].

Definition kv_server (s : bytes) : bytes :=
  if decide (length (texts two_requests) <= length s)%nat then encodes two_answers
  else if decide (length (command set_a.2) <= length s)%nat then encodes (take 1 two_answers) else [].

Definition kv_sys : Sys peer := peer_sys kv_server.

Definition kv_poll : Poll peer := {|
  readable _ k := negb (bool_decide (drop (length (p_received k)) (kv_server (p_sent k)) = []));
  writable _ _ := true
|}.

Definition kv_polled : PolledSocket (OS := kv_sys) peer 3 (Ch := peer_channel kv_server)
  (SS := peer_socket kv_server) (PL := kv_poll).
Proof.
  constructor.
  - intros k rest Hk. cbn in *. change (serve (sent k)) with (kv_server (p_sent k)) in Hk.
    change (received k) with (p_received k) in Hk. rewrite Hk, drop_app_length.
    rewrite negb_true_iff, bool_decide_eq_false. done.
  - done.
  - intros k. by exists k.
Defined.

Definition kv_format (fmt : bytes) (ap : list va) : bytes := fmt.
Definition kv_worker : Worker (worker_task peer) :=
  redis_worker (M := malloc_yes) (HM := heap_all) (OS := kv_sys) (PL := kv_poll) kv_format (fun _ => []) 1.

Definition one_worker : task_manager (worker_task peer) :=
  match add_tasks 2 (set_object new_task_manager 2 (new_task WORKER001 (new_worker idle_peer))) with
  | Some (_, s) => s
  | None => new_task_manager
  end.
Definition kv_tasks : task_manager (worker_task peer) :=
  match init fds 1 one_worker with Some (_, s) => s | None => one_worker end.

Lemma one_worker_built : built one_worker.
Proof.
  destruct (add_tasks_built new_task_manager 2 WORKER001 (new_worker idle_peer)) as (s & E & Hb);
    [apply new_built|done|done|].
  unfold one_worker. by rewrite E.
Qed.

Lemma kv_start : starts fds 1 one_worker kv_tasks.
Proof.
  split; [apply one_worker_built|done|intros p q _; simpl; lia|].
  destruct (init_prepared fds 1 one_worker one_worker_built eq_refl) as (s' & E & _).
  unfold kv_tasks. by rewrite E.
Qed.

(** Two threads call; the worker takes its messages, connects, writes both
    requests and reads both answers. *)
Definition ask (rq : request) : request_call :=
  SendFormatRaw (command rq.2) (cb_privdata rq.1) (cb_fn rq.1).
Definition kv_turns : list turn :=
  [Calls 100 (AddConn (lit "127.0.0.1") 6379); Works 100; Works 100;
   Works 2; Works 2; Works 2; Works 2; Works 2;
   Calls 100 (ask set_a); Works 100; Works 100; Calls 101 (ask get_a); Works 101;
   Works 2; Works 2; Works 2; Works 2; Works 2; Works 101; Works 2; Works 2; Works 2; Works 2; Works 2] ++
  replicate 6 (Happens 2 (Writable 1)) ++ [Happens 2 (Readable 1)] ++
  replicate 4 (Happens 2 (Writable 1)) ++ replicate 3 (Happens 2 (Readable 1)).

Definition kv_play : option (list note * system (worker_task peer)) :=
  play (M := malloc_yes) (HM := heap_all) (OS := kv_sys) (PL := kv_poll) kv_format (fun _ => []) 1 kv_turns
    (started kv_tasks [100; 101]).
Definition kv_notes : list note := match kv_play with Some (l, _) => l | None => [] end.
Definition kv_end : system (worker_task peer) :=
  match kv_play with Some (_, y) => y | None => started kv_tasks [100; 101] end.

Lemma kv_run : run (step (worker := kv_worker)) (started kv_tasks [100; 101]) kv_notes kv_end.
Proof.
  apply (play_run _ _ _ kv_turns). change (kv_play = Some (kv_notes, kv_end)).
  assert (match kv_play with Some _ => true | None => false end = true) as H by (vm_compute; reflexivity).
  unfold kv_notes, kv_end. destruct kv_play as [[l y]|]; [reflexivity|discriminate H].
Qed.
