(* ===== verification/WorkerSteps.v ===== *)
(** * WorkerSteps: what each call does to the context of a worker

    [talking] holds of the context from its connection on; the calls that the
    worker and its loop make keep it. *)
From S2P Require Import Prelude Mem StdMap Timers Tasks.
From S2P Require Import Sds SdsFacts Reply Reader ReaderView ReplyTree ReaderDefault Resp RoundTrip.
From S2P Require Import Session Format FormatFacts System Context ContextFacts Net Connect NetFacts.
From S2P Require Import Dict Callbacks Async AsyncFacts AsyncCommand AsyncReplies AsyncDeliver.
From S2P Require Import AsyncCorrect Worker WorkerFacts.
From stdpp Require Import list list_numbers strings sets gmap.
From Stdlib Require Import ZArith Lia.
Open Scope Z_scope.

Section steps.
Context {M : Malloc} {HM : HeapMalloc} {K : Type} {OS : Sys K} {PL : Poll K} {L : Libevent}.
Context (fd : Z) {Ch : Channel K fd} {SS : StreamSocket K fd} {PS : PolledSocket K fd}.
Implicit Types (w : worker_task K) (s : state (W := K)).
Hypothesis malloc_total : forall n, malloc_ok n = true.
Hypothesis heap_total : forall n size, heap_ok n size = true.
Context (rqs : list request) (vs : list resp).
Hypothesis Hex : exchange_ok fd rqs vs.

(** The callbacks of the client call nothing of hiredis. *)
Context (depth : nat).
Definition no_calls (l : list event) : list action := [].
Definition no_requests (l : list event) : list request := [].
Abbreviation user := (run_user (W := K) no_calls (S depth)).

Lemma no_calls_asks l : Forall2 asks (no_calls l) (no_requests l).
Proof. constructor. Qed.

Lemma issued_nothing l evs : issued no_requests l evs = [].
Proof. revert l. induction evs as [|e evs IH]; intros l; [done|]. cbn. rewrite IH. by destruct e. Qed.

(** The context with [n] requests queued and [k] values delivered: [q] are the
    callbacks that wait, [out] is to be written and [u] is a part of a value.
    [up] is whether the connection is known to be made. *)
Record talking (n k : nat) (up : bool) (q : list (Z * redisCallback)) (out u : bytes) s : Prop := {
  ta_ready : ready s q out;
  ta_listening : listening s u ∅ (zlen (received (s_sys s)));
  ta_hooks : a_ev (s_ac s) = mk_hooks true true true true true;
  ta_fd : c_fd (a_c (s_ac s)) = fd;
  ta_err : c_err (a_c (s_ac s)) = 0;
  ta_up : has_flag (a_c (s_ac s)) REDIS_CONNECTED = up;
  ta_first : up = false -> a_onConnect (s_ac s) = CONNECT_CALLBACK /\ sent (s_sys s) = [];
  ta_sent : sent (s_sys s) ++ out = texts (take n rqs);
  ta_count : (k <= n <= length rqs)%nat;
  ta_received : received (s_sys s) = encodes (take k vs) ++ u;
  ta_short : short u (drop k vs);
  ta_rest : exists rest, serve (sent (s_sys s)) = received (s_sys s) ++ rest;
  ta_queue : q.*2 = drop k (take n rqs.*1);
  ta_replies : Forall2 got (replies (s_log s)) (filter callable (zip rqs.*1 (take k vs)))
}.

Lemma talking_connected n k q out u s : talking n k true q out u s -> connected s.
Proof. intros []. by split. Qed.

(** ** A request *)
Lemma request_talks n k up q out u s rq : talking n k up q out u s -> rqs !! n = Some rq ->
  exists x s', redisAsyncFormattedCommand (cb_fn rq.1) (cb_privdata rq.1) (command rq.2 ++ [0])
      (zlen (command rq.2)) s = Ok (REDIS_OK, s') /\
    talking (S n) k up (q ++ [(x, rq.1)]) (out ++ command rq.2) u s' /\
    s_log s' = s_log s ++ [EvAddWrite] /\ received (s_sys s') = received (s_sys s).
Proof.
  intros [H1 H2 H3 H4 H5 H6 H7 H8 H9 H10 H11 H12 H13 H14] Hrq.
  assert (ordinary rq.2 = true) as Hord.
  { pose proof (ex_ordinary _ _ _ Hex) as Ho. rewrite Forall_forall in Ho.
    apply Ho. by eapply list_elem_of_lookup_2. }
  assert (length out + length (command rq.2) <= length (texts rqs))%nat as Hlen.
  { apply lookup_lt_Some in Hrq as Hn. pose proof (texts_take_le rqs (S n) (length rqs) Hn) as Hle.
    rewrite firstn_all, (texts_next rqs n rq Hrq), <- H8, !length_app in Hle. lia. }
  pose proof (ex_out _ _ _ Hex) as Hout.
  destruct (command_ready malloc_total s (cb_fn rq.1) (cb_privdata rq.1) rq.2 [] q out H1 Hord)
    as (x & s' & Hrun & Hr' & Hq & Hlog); [unfold INT_MAX; lia|lia|].
  pose proof (rq_frame _ _ Hq) as Hf. rewrite H3 in Hlog. cbn [has_addWrite] in Hlog.
  destruct (frame_fields _ _ Hf) as (F1 & F2 & F3 & F4 & F5 & F6 & F7).
  assert (a_onConnect (s_ac s') = a_onConnect (s_ac s)) as F8.
  { unfold frame in Hf. by simplify_eq. }
  exists x, s'. destruct rq as [[fn pd] ds]. split; [exact Hrun|]. split; [|by rewrite F2].
  split; rewrite ?F2, ?F5, ?F6, ?F7, ?F8; try done.
  - by eapply requested_listening.
  - unfold has_flag. by rewrite F3.
  - by rewrite app_assoc, H8, (texts_next rqs n _ Hrq).
  - pose proof (lookup_lt_Some (A := request) _ _ _ Hrq). lia.
  - rewrite fmap_app, H13. assert (rqs.*1 !! n = Some (mk_cb fn pd)) as Hn.
    { apply list_lookup_fmap_Some. by exists (mk_cb fn pd, ds). }
    rewrite (take_S_r _ _ _ Hn), drop_app_le; [done|].
    apply lookup_lt_Some in Hn. rewrite length_take. lia.
  - by rewrite Hlog, replies_app, app_nil_r.
Qed.

(** ** The connection is made *)
Lemma connect_talks n k q out u s : talking n k false q out u s -> exists s',
  redisAsyncHandleWrite user s = redisAsyncHandleWrite user s' /\
  talking n k true q out u s' /\ s_log s' = s_log s ++ [EvConnect CONNECT_CALLBACK REDIS_OK] /\
  received (s_sys s') = received (s_sys s).
Proof.
  intros [H1 H2 H3 H4 H5 H6 H7 H8 H9 H10 H11 H12 H13 H14].
  destruct (H7 eq_refl) as [Hcb Hs]. destruct (so_error_law (fd := fd) (s_sys s)) as (k' & Hso & Es & Er).
  assert (Hf : s_freed s = false) by apply H1.
  set (c := add_flag (a_c (s_ac s)) REDIS_CONNECTED).
  set (s' := mk_state (set_c (s_ac s) c) (s_heap s) (s_cbs s) (s_dicts s) k'
    (s_log s ++ [EvConnect CONNECT_CALLBACK REDIS_OK]) (s_freed s)).
  assert (Hup : has_flag c REDIS_CONNECTED = true) by (by apply add_flag_sub).
  exists s'. split_and!; [..|done|done].
  - unfold redisAsyncHandleWrite, when_connected.
    rewrite (abind _ _ s' _ _ (flagged_run s' REDIS_CONNECTED Hf)). cbn [s' s_ac set_c a_c]. rewrite Hup.
    rewrite (abind _ _ s _ _ (flagged_run s REDIS_CONNECTED Hf)), H6. cbv iota.
    erewrite (abind _ _ s REDIS_OK s').
    + change (negb (REDIS_OK =? REDIS_OK)) with false. cbv iota.
      rewrite (abind _ _ s' _ _ (flagged_run s' REDIS_CONNECTED Hf)). cbn [s' s_ac set_c a_c]. by rewrite Hup.
    + unfold __redisAsyncHandleConnect, check_socket.
      erewrite abind.
      2: { erewrite abind; [|unfold get_c; erewrite abind; [done|by apply get_ac_live]].
           erewrite abind; [|done].
           erewrite abind; [|unfold lift, redisCheckSocketError; rewrite H4, Hso; done]. cbv beta iota.
           erewrite abind; [|unfold put_c; erewrite abind; [by apply put_ac_run|by apply get_ac_live]].
           by erewrite abind; [|done]. }
      change (REDIS_OK =? REDIS_ERR) with false. cbv iota.
      erewrite abind; [|by apply raise_run]. erewrite abind; [|by apply get_ac_live].
      cbn [s_ac with_ac set_c a_onConnect]. rewrite Hcb. change (negb (CONNECT_CALLBACK =? NULL)) with true.
      cbv iota. erewrite abind; [|cbn [run_user]; erewrite abind; [|done]; erewrite abind; [|done]; done].
      by destruct (s_ac s).
  - assert (forall g, Z.land REDIS_CONNECTED g = 0 -> has_flag c g = has_flag (a_c (s_ac s)) g) as Hg.
    { intros g Hg. by apply add_flag_other. }
    split; try done.
    + destruct H1. split; try done; cbn [s' s_ac set_c a_c]; by rewrite Hg.
    + destruct H2 as [G1 G2 G3]. split; cbn [s' s_ac set_c a_c s_sys]; rewrite ?Er; [by rewrite Hg..|done].
    + by cbn [s' s_sys]; rewrite Es.
    + by cbn [s' s_sys]; rewrite Er.
    + by cbn [s' s_sys]; rewrite Es, Er.
    + cbn [s' s_log]. by rewrite replies_app, app_nil_r.
Qed.

(** ** A write *)
Lemma write_talks n k q out u s : talking n k true q out u s -> exists s' out',
  redisAsyncHandleWrite user s = Ok (tt, s') /\ talking n k true q out' u s' /\
  s_log s' = s_log s ++ write_hooks (a_ev (s_ac s)) (bool_decide (out' = [])) /\
  received (s_sys s') = received (s_sys s) /\ (out = [] /\ out' = [] \/ length out' < length out)%nat.
Proof.
  intros Ht. pose proof Ht as [H1 H2 H3 H4 H5 H6 H7 H8 H9 H10 H11 H12 H13 H14].
  assert (length out <= length (texts rqs))%nat as Hlen.
  { pose proof (texts_take_le rqs n (length rqs) ltac:(lia)) as Hle.
    rewrite firstn_all, <- H8, length_app in Hle. lia. }
  pose proof (ex_out _ _ _ Hex) as Hout.
  destruct (handleWrite_run malloc_total fd user s q out u ∅ _ H1 H2 (talking_connected _ _ _ _ _ _ Ht) H4)
    as (s' & out' & Hrun & Hr' & Hl' & Hc' & Hfd' & [(x & Hx & Hsn) Hrc _] & Hlt & Hlog & Hev); [lia|].
  exists s', out'. split_and!; try done.
  - destruct Hc' as [Hup He]. split; rewrite ?Hrc; try done; [by rewrite Hev|..].
    + by rewrite Hsn, <- app_assoc, <- Hx.
    + destruct H12 as [rest Hrest].
      destruct (serve_mono fd rqs vs Hex (sent (s_sys s)) x (out' ++ texts (drop n rqs))) as [z Hz].
      { rewrite <- (take_drop n rqs) at 2. rewrite texts_app, <- H8, Hx. by rewrite <- !app_assoc. }
      exists (rest ++ z). by rewrite Hsn, Hz, Hrest, <- app_assoc.
    + rewrite Hlog, replies_app, (replies_none (write_hooks _ _)) by apply write_hooks_silent.
      by rewrite app_nil_r.
  - destruct Hlt as [->|?]; [left|by right]. symmetry in Hx. apply app_nil in Hx as [_ ->]. done.
Qed.

(** ** A read *)

(** What the server wrote and was not read, as values. *)
Lemma talking_unread n k up q out u s rest : talking n k up q out u s ->
  serve (sent (s_sys s)) = received (s_sys s) ++ rest -> rest <> [] -> exists j,
  (k <= j <= n)%nat /\ u ++ rest = encodes (drop k (take j vs)) /\ short u (drop k (take j vs)).
Proof.
  intros [H1 H2 H3 H4 H5 H6 H7 H8 H9 H10 H11 H12 H13 H14] Hrest Hne.
  destruct (serve_part fd rqs vs Hex (sent (s_sys s)) (out ++ texts (drop n rqs)))
    as (j & t & Hj & Et & Ht & Es).
  { rewrite app_assoc, H8. by rewrite <- texts_app, take_drop. }
  rewrite Es, H10 in Hrest.
  assert (k <= j)%nat as Hkj.
  { destruct (decide (k <= j)%nat) as [|Hlt]; [done|]. exfalso. apply Hne.
    apply (f_equal length) in Hrest. rewrite (encodes_take (take k vs) j), take_take in Hrest.
    rewrite Nat.min_l, !length_app in Hrest by lia. destruct rest; [done|cbn in Hrest; lia]. }
  assert (j <= n)%nat as Hjn.
  { destruct (decide (j <= n)%nat) as [|Hlt]; [done|].
    pose proof (texts_take_le rqs (S n) j ltac:(lia)).
    destruct (lookup_lt_is_Some_2 rqs n ltac:(lia)) as [rq Hrq].
    pose proof (command_pos rq.2). apply (f_equal length) in Et, H8.
    pose proof (f_equal length (texts_next rqs n rq Hrq)) as E3.
    rewrite length_app in Et, H8, E3. lia. }
  exists j. split; [lia|].
  rewrite (encodes_take (take j vs) k), take_take, Nat.min_l, <- app_assoc in Hrest by lia.
  apply app_inv_head in Hrest. split; [done|].
  rewrite skipn_firstn_comm in Hrest |- *. destruct (drop k vs) as [|v vs'] eqn:E.
  - by rewrite firstn_nil.
  - destruct (j - k)%nat; [|exact H11]. cbn in Hrest. symmetry in Hrest.
    by apply app_nil in Hrest as [-> ->].
Qed.

Lemma split_values k j vs1 vs2 tail : drop k (take j vs) = vs1 ++ vs2 -> short tail vs2 ->
  take (k + length vs1) vs = take k vs ++ vs1 /\ short tail (drop (k + length vs1) vs).
Proof.
  rewrite skipn_firstn_comm. intros Hvs Hs.
  assert (drop k vs = vs1 ++ vs2 ++ drop (j - k) (drop k vs)) as E.
  { by rewrite <- (take_drop (j - k) (drop k vs)) at 1; rewrite Hvs, <- app_assoc. }
  split.
  - rewrite <- take_take_drop, E, take_app_length. done.
  - rewrite <- drop_drop, E, drop_app_length. by apply short_app.
Qed.

(** The callbacks of the values [vs1] are the first that wait. *)
Lemma zip_delivered n k (q : list (Z * redisCallback)) vs1 : q.*2 = drop k (take n rqs.*1) ->
  (k <= n <= length rqs)%nat -> (k <= length vs)%nat -> (length vs1 <= length q)%nat ->
  zip rqs.*1 (take k vs ++ vs1) = zip rqs.*1 (take k vs) ++ zip q.*2 vs1.
Proof.
  intros Hq Hk Hv Hl. assert (length (take k vs) = k) as Ek by (rewrite length_take; lia).
  rewrite zip_split by (rewrite Ek, callbacks_length; lia). rewrite Ek. f_equal.
  rewrite <- (take_drop n rqs.*1), drop_app_le, <- Hq, zip_app_short; [done|..].
  - by rewrite length_fmap.
  - rewrite length_take, callbacks_length. lia.
Qed.

Lemma read_talks n k q out u s : talking n k true q out u s -> readable fd (s_sys s) = true ->
  exists s' k' q' u' evs, redisAsyncHandleRead user 0 s = Ok (tt, s') /\
    talking n k' true q' out u' s' /\ s_log s' = s_log s ++ evs /\ Forall delivered evs /\
    EvAddRead ∈ evs /\ (length (received (s_sys s)) < length (received (s_sys s')))%nat.
Proof.
  intros Ht Hrd. pose proof Ht as [H1 H2 H3 H4 H5 H6 H7 H8 H9 H10 H11 H12 H13 H14].
  destruct H12 as [rest Hrest]. apply (readable_law _ _ Hrest) in Hrd.
  destruct (talking_unread _ _ _ _ _ _ _ _ Ht Hrest Hrd) as (j & Hj & Hst & Hs).
  destruct (read_law (1024 * 16) (s_sys s) rest ltac:(lia) Hrd Hrest)
    as (b & w & Hrb & Hb & _ & [rest' ->] & Hrc & Hsn).
  assert (length (received (s_sys s) ++ b) <= length (encodes vs))%nat as Hlen.
  { apply (f_equal length) in Hst. rewrite H10, !length_app in *.
    rewrite (encodes_take vs k), length_app.
    rewrite <- (take_drop (j - k) (drop k vs)), flat_map_app, length_app, <- skipn_firstn_comm.
    replace (k + (j - k))%nat with j by lia. lia. }
  pose proof (ex_in _ _ _ Hex) as Hin.
  pose proof (ex_sendable _ _ _ Hex) as Hv. pose proof (ex_depth _ _ _ Hex) as Hd.
  rewrite <- H4 in Hrb.
  assert (length (drop k (take j vs)) <= length q)%nat as Hq.
  { apply (f_equal length) in H13. rewrite length_fmap in H13. rewrite H13, !length_drop, !length_take.
    rewrite callbacks_length. pose proof (an_len _ _ _ (ex_answered _ _ _ Hex)). lia. }
  destruct (handleRead_serves malloc_total heap_total no_calls no_requests 0 no_calls_asks ltac:(by cbn)
    0 depth s q out u ∅ _ b w rest' (drop k (take j vs)) H1 H2 (talking_connected _ _ _ _ _ _ Ht) Hrb Hb)
    as (vs1 & vs2 & tail & s' & evs & q' & p' & Hvs & Hs2 & Hy & Hrun & Hsv & Hli' & Hco' & Hfd' & Hw & _
        & Hg & Hev & Hadd); [rewrite length_app in Hlen; lia|done|done| | |done| |].
  { by apply Forall_drop, Forall_take. }
  { by apply Forall_drop, Forall_take. }
  { pose proof (texts_take_le rqs n (length rqs) ltac:(lia)) as Hle. pose proof (ex_out _ _ _ Hex).
    rewrite firstn_all, <- H8, length_app in Hle. lia. }
  destruct Hsv as [S1 S2 (q2 & Eq & Hq2) S4 S5]. rewrite issued_nothing in Hq2, S4.
  apply fmap_nil_inv in Hq2. subst q2. rewrite app_nil_r in Eq, S4. subst q' p'.
  destruct (split_values _ _ _ _ _ Hvs Hs2) as [Htk Hsh].
  assert (length vs1 <= length q)%nat as Hl1.
  { apply (f_equal length) in Hvs. rewrite length_app in Hvs. lia. }
  assert (length vs1 <= j - k)%nat as Hjk.
  { apply (f_equal length) in Hvs. rewrite length_app, length_drop, length_take in Hvs. lia. }
  pose proof (an_len _ _ _ (ex_answered _ _ _ Hex)) as Hvl.
  exists s', (k + length vs1)%nat, (drop (length vs1) q), tail, evs.
  assert (s_sys s' = w) as <- by done.
  assert (received (s_sys s') = encodes (take (k + length vs1) vs) ++ tail) as Hrc'.
  { rewrite Hrc, H10, Htk, flat_map_app, <- !app_assoc. f_equal.
    apply (app_inv_tail rest'). rewrite <- !app_assoc, Hy, Hst, Hvs, flat_map_app. done. }
  split_and!; try done; [|by apply Hadd; rewrite H3|].
  - split; try done.
    + by rewrite Hrc, length_app, Nat2Z.inj_add.
    + by rewrite Hev.
    + by rewrite Hfd'.
    + by destruct Hco'.
    + by destruct Hco'.
    + by rewrite Hsn.
    + lia.
    + exists rest'. by rewrite Hsn, Hrest, Hrc, app_assoc.
    + by rewrite fmap_drop, H13, drop_drop.
    + rewrite S2, replies_app, Htk, (zip_delivered n k q) by (done || lia).
      rewrite filter_app. by apply Forall2_app.
  - rewrite Hrc, length_app. destruct b; [done|cbn; lia].
Qed.
End steps.
