(* ===== verification/WorkerInvariant.v ===== *)
(** * WorkerInvariant: the worker keeps its context served

    The invariant of a worker that was told to connect, which its messages and
    the events of its loop keep. *)
From S2P Require Import Prelude Mem StdMap Timers Tasks.
From S2P Require Import Sds SdsFacts Reply Reader ReaderView ReplyTree ReaderDefault Resp RoundTrip.
From S2P Require Import Session Format FormatFacts System Context ContextFacts Net Connect NetFacts.
From S2P Require Import Dict Callbacks Async AsyncFacts AsyncCommand AsyncReplies AsyncDeliver.
From S2P Require Import AsyncCorrect Worker WorkerFacts WorkerSteps.
From stdpp Require Import list list_numbers strings sets gmap.
From Stdlib Require Import ZArith Lia.
Open Scope Z_scope.

Section invariant.
Context {M : Malloc} {HM : HeapMalloc} {K : Type} {OS : Sys K} {PL : Poll K} {L : Libevent}.
Context {D : Descriptors K}.
Context (fd : Z) {Ch : Channel K fd} {SS : StreamSocket K fd} {PS : PolledSocket K fd}.
Implicit Types (w : worker_task K) (s : state (W := K)).
Hypothesis malloc_total : forall n, malloc_ok n = true.
Hypothesis heap_total : forall n size, heap_ok n size = true.
Hypothesis event_ok : event_new_ok false = true.
Context (rqs : list request) (vs : list resp).
Hypothesis Hex : exchange_ok fd rqs vs.
Context (vformat : bytes -> list va -> bytes) (depth : nat).

Abbreviation talks := (talking fd rqs vs).
Abbreviation happens := (on_event no_calls (S depth)).
Abbreviation takes_msg := (worker_on_message vformat).

(** The worker has one context, attached to the loop with the events [ev]. *)
Record one_conn (p : Z) (ac : redisAsyncContext) (ev : redisLibeventEvents) w : Prop := {
  oc_context : _context w = Some p;
  oc_pointer : p <> NULL;
  oc_conns : conns w = {[p := mk_conn ac false (Some ev)]};
  oc_detail : wk_detail w = p;
  oc_timers : wk_timers w = []
}.

(** Its context is [talking], and the loop will wake for what is to be done. *)
Record serves (n k : nat) (up wev : bool) (q : list (Z * redisCallback)) (out u : bytes) (p : Z)
    (ac : redisAsyncContext) w : Prop := {
  sw_conn : one_conn p ac (mk_events true wev) w;
  sw_stat : _conn_stat w = if up then CONNECTED else CONNECTING;
  sw_wakes : out <> [] \/ up = false -> wev = true;
  sw_talks : talks n k up q out u (state_of w (mk_conn ac false None))
}.

Lemma conn_lookup p ac ev w : one_conn p ac ev w ->
  conns w !! p = Some (mk_conn ac false (Some ev)).
Proof. intros [_ _ H _ _]. rewrite H. apply lookup_singleton_eq. Qed.

(** A call on the context. *)
Lemma conn_call {A} p ac ev w (m : async (W := K) A) a s evs : one_conn p ac ev w ->
  m (state_of w (mk_conn ac false None)) = Ok (a, s) -> s_log s = wk_log w ++ evs ->
  on_context p m w = conn_callbacks p evs (put_state p (hooks evs (Some ev)) s w).
Proof.
  intros Hc Hm Hl. by apply (on_context_run p m w _ _ _ _ (oc_pointer _ _ _ _ Hc) (conn_lookup _ _ _ _ Hc) Hm).
Qed.

Lemma put_conn p ac ev w ev' s : one_conn p ac ev w -> s_freed s = false ->
  one_conn p (s_ac s) ev' (put_state p (Some ev') s w) /\
  state_of (put_state p (Some ev') s w) (mk_conn (s_ac s) false None) = s.
Proof.
  intros [H1 H2 H3 H4 H5] Hf. split.
  - split; try done. unfold put_state. cbn [conns]. rewrite H3, Hf. apply insert_singleton_eq.
  - unfold state_of, put_state. cbn. rewrite <- Hf. by destruct s.
Qed.

(** After a call that leaves the context talking. *)
Lemma put_serves p ac ev w n k up wev q out u s : one_conn p ac ev w -> talks n k up q out u s ->
  _conn_stat w = (if up then CONNECTED else CONNECTING) -> (out <> [] \/ up = false -> wev = true) ->
  serves n k up wev q out u p (s_ac s) (put_state p (Some (mk_events true wev)) s w).
Proof.
  intros Hc Ht Hst Hw.
  assert (s_freed s = false) as Hf by apply (ta_ready _ _ _ _ _ _ _ _ _ _ Ht).
  destruct (put_conn p ac ev w (mk_events true wev) s Hc Hf) as [Hc' Hs].
  split; [done..|]. by rewrite Hs.
Qed.

(** An event that happens is taken from those that are pending. *)
Lemma fired_conn p ac ev w f : one_conn p ac ev w -> one_conn p ac (f ev) (fired p f w) /\
  state_of (fired p f w) (mk_conn ac false None) = state_of w (mk_conn ac false None) /\
  _conn_stat (fired p f w) = _conn_stat w /\ wk_log (fired p f w) = wk_log w.
Proof.
  intros Hc. unfold fired. rewrite (conn_lookup _ _ _ _ Hc). destruct Hc as [H1 H2 H3 H4 H5].
  split_and!; try done. split; try done. unfold set_conn. cbn. rewrite H3. apply insert_singleton_eq.
Qed.

(** ** Messages *)
Definition request_message (rq : request) : TASK_MSG :=
  send_format_raw_command (command rq.2) (cb_privdata rq.1) (cb_fn rq.1).

Lemma message_serves n k up wev q out u p ac w rq :
  serves n k up wev q out u p ac w -> rqs !! n = Some rq -> exists x w' ac',
  takes_msg (request_message rq) w = Ok w' /\
  serves (S n) k up true (q ++ [(x, rq.1)]) (out ++ command rq.2) u p ac' w'.
Proof.
  intros [Hc Hst Hw Ht] Hrq.
  destruct (request_talks fd malloc_total rqs vs Hex _ _ _ _ _ _ _ rq Ht Hrq)
    as (x & s' & Hrun & Ht' & Hlog & Hrc).
  exists x. eexists _, (s_ac s'). split.
  - unfold worker_on_message, request_message. cbn [send_format_raw_command new_msg msg_type msg_any
      cast_format_raw cast_of mbind result_bind msg_cb usr_data msg_body].
    unfold the_context. rewrite (oc_context _ _ _ _ Hc). cbn [mbind result_bind].
    rewrite (conn_call _ _ _ _ _ _ _ _ Hc Hrun Hlog). apply inner_callbacks. by repeat constructor.
  - by eapply put_serves.
Qed.

(** ** Events *)
Lemma write_hooks_events b wev :
  hooks (write_hooks (mk_hooks true true true true true) b) (Some (mk_events true wev)) =
  Some (mk_events true (negb b)).
Proof. by destruct b. Qed.

(** [connectCallback] of the worker's context. *)
Lemma connectCallback_conn p ac ev w d s : one_conn p ac ev w ->
  connectCallback p REDIS_OK (put_state p d s w) = put_state p d s (set_conn_stat CONNECTED w) /\
  one_conn p ac ev (set_conn_stat CONNECTED w).
Proof.
  intros [H1 H2 H3 H4 H5]. split; [|by split].
  unfold connectCallback, found. change (negb (REDIS_OK =? REDIS_OK)) with false. cbv iota.
  change (wk_detail (put_state p d s w)) with (wk_detail w). by rewrite H4, Z.eqb_refl.
Qed.

(** The event for writing, on a connection that is made or is now. *)
Lemma writable_serves n k up q out u p ac w : serves n k up true q out u p ac w ->
  exists w' out' ac', happens (Writable p) w = Ok w' /\
  serves n k true (negb (bool_decide (out' = []))) q out' u p ac' w' /\
  received (wk_sys w') = received (wk_sys w) /\
  (out = [] /\ out' = [] \/ length out' < length out)%nat.
Proof.
  intros [Hc Hst Hw Ht].
  destruct (fired_conn p ac _ w (fun ev => mk_events (le_rev ev) false) Hc) as (Hc1 & Hs1 & Hst1 & Hl1).
  cbn [le_rev] in Hc1. unfold on_event. set (w1 := fired p _ w) in *. rewrite <- Hs1 in Ht.
  assert (forall out' : bytes, out' <> [] \/ true = false -> negb (bool_decide (out' = [])) = true) as Hwk.
  { intros out' [?|?]; [|done]. by rewrite bool_decide_eq_false_2. }
  destruct up.
  - destruct (write_talks fd malloc_total rqs vs Hex depth _ _ _ _ _ _ Ht)
      as (s' & out' & Hrun & Ht' & Hlog & Hrc & Hlt).
    rewrite (ta_hooks _ _ _ _ _ _ _ _ _ _ Ht) in Hlog.
    exists (put_state p (Some (mk_events true (negb (bool_decide (out' = []))))) s' w1), out', (s_ac s').
    split_and!; [| |by rewrite Hs1 in Hrc|done].
    + rewrite (conn_call _ _ _ _ _ _ _ _ Hc1 Hrun Hlog), write_hooks_events.
      apply inner_callbacks, write_hooks_inner.
    + eapply put_serves; [done..|by rewrite Hst1|apply Hwk].
  - destruct (connect_talks fd rqs vs depth _ _ _ _ _ _ Ht) as (s0 & E & Ht0 & Hlog0 & Hrc0).
    destruct (write_talks fd malloc_total rqs vs Hex depth _ _ _ _ _ _ Ht0)
      as (s' & out' & Hrun & Ht' & Hlog & Hrc & Hlt).
    rewrite (ta_hooks _ _ _ _ _ _ _ _ _ _ Ht0), Hlog0, <- app_assoc in Hlog. rewrite <- E in Hrun.
    destruct (connectCallback_conn p ac _ w1 (Some (mk_events true (negb (bool_decide (out' = []))))) s' Hc1)
      as [Ecb Hc2].
    exists (put_state p (Some (mk_events true (negb (bool_decide (out' = []))))) s'
      (set_conn_stat CONNECTED w1)), out', (s_ac s').
    split_and!; [| |by rewrite Hrc0, Hs1 in Hrc|done].
    + rewrite (conn_call _ _ _ _ _ _ _ _ Hc1 Hrun Hlog). cbn [app hooks foldl hook].
      change (foldl _ _ (write_hooks ?h ?b)) with (hooks (write_hooks h b) (Some (mk_events true false))).
      rewrite write_hooks_events. cbn [conn_callbacks conn_callback].
      change (CONNECT_CALLBACK =? CONNECT_CALLBACK) with true. cbn [mbind result_bind].
      rewrite Ecb. apply inner_callbacks, write_hooks_inner.
    + eapply put_serves; [exact Hc2|done|done|apply Hwk].
Qed.

(** The event for reading. *)
Lemma readable_serves n k up wev q out u p ac w : serves n k up wev q out u p ac w ->
  readable fd (wk_sys w) = true -> exists w' k' wev' q' u' ac', happens (Readable p) w = Ok w' /\
  serves n k' up wev' q' out u' p ac' w' /\
  (length (received (wk_sys w)) < length (received (wk_sys w')))%nat.
Proof.
  intros [Hc Hst Hw Ht] Hrd.
  destruct (fired_conn p ac _ w (fun ev => mk_events false (le_wev ev)) Hc) as (Hc1 & Hs1 & Hst1 & Hl1).
  cbn [le_wev] in Hc1. unfold on_event. set (w1 := fired p _ w) in *. rewrite <- Hs1 in Ht.
  assert (up = true) as ->.
  { destruct up; [done|]. exfalso. destruct (ta_rest _ _ _ _ _ _ _ _ _ _ Ht) as [rest Hrest].
    destruct (ta_first _ _ _ _ _ _ _ _ _ _ Ht eq_refl) as [_ Hs].
    rewrite Hs1 in Hrest, Hs. cbn [state_of s_sys] in Hrest, Hs.
    pose proof (proj1 (readable_law _ _ Hrest) Hrd) as Hne. apply Hne.
    rewrite Hs in Hrest. change [] with (texts (take 0 rqs)) in Hrest at 1.
    rewrite (serve_whole fd rqs vs Hex 0) in Hrest by lia. symmetry in Hrest.
    by apply app_nil in Hrest as [_ ->]. }
  destruct (read_talks fd malloc_total heap_total rqs vs Hex depth _ _ _ _ _ _ Ht)
    as (s' & k' & q' & u' & evs & Hrun & Ht' & Hlog & Hd & Hin & Hlt); [by rewrite Hs1|].
  destruct (hooks_delivered evs false wev Hd Hin) as (b & Hb & Hwb).
  exists (put_state p (Some (mk_events true b)) s' w1), k', b, q', u', (s_ac s').
  split_and!; [| |by rewrite Hs1 in Hlt].
  - rewrite (conn_call _ _ _ _ _ _ _ _ Hc1 Hrun Hlog), Hb. by apply inner_callbacks, delivered_inner.
  - eapply put_serves; [done..|by rewrite Hst1|]. intros [?|?]; [auto|done].
Qed.

(** ** All events *)

(** The invariant, with a bound on the events to come. *)
Definition serving (n mu : nat) w : Prop :=
  exists k up wev q out u p ac, serves n k up wev q out u p ac w /\
  mu = (2 * length out + 2 * (length (encodes vs) - length (received (wk_sys w))) +
        if wev : bool then 1 else 0)%nat.

Lemma serves_bound n k up wev q out u p ac w : serves n k up wev q out u p ac w ->
  (length (received (wk_sys w)) <= length (encodes vs))%nat.
Proof.
  intros [_ _ _ Ht]. pose proof (ta_received _ _ _ _ _ _ _ _ _ _ Ht) as Hr.
  pose proof (ta_short _ _ _ _ _ _ _ _ _ _ Ht) as Hs. cbn [state_of s_sys] in Hr.
  rewrite Hr, length_app, (encodes_take vs k), length_app.
  destruct (drop k vs) as [|v l]; cbn [short flat_map] in *; [by subst u|].
  rewrite length_app. lia.
Qed.

Lemma event_serving n mu w e : serving n mu w -> enabled e w = true ->
  exists w' mu', happens e w = Ok w' /\ serving n mu' w' /\ (mu' < mu)%nat.
Proof.
  intros (k & up & wev & q & out & u & p & ac & Hs & ->) He.
  pose proof Hs as [Hc Hst Hw Ht]. pose proof (ta_fd _ _ _ _ _ _ _ _ _ _ Ht) as Hfd.
  cbn [state_of s_ac cn_ac] in Hfd. destruct e as [p'|p'|i]; cbn [enabled] in He.
  - rewrite (oc_conns _ _ _ _ Hc) in He. destruct (decide (p' = p)) as [->|Hne].
    2: { by rewrite lookup_singleton_ne in He by done. }
    rewrite lookup_singleton_eq, Hfd in He. cbn [le_rev andb] in He.
    destruct (readable_serves _ _ _ _ _ _ _ _ _ _ Hs He)
      as (w' & k' & wev' & q' & u' & ac' & E & Hs' & Hlt).
    pose proof (serves_bound _ _ _ _ _ _ _ _ _ _ Hs') as Hb.
    exists w'. eexists. split; [done|]. split; [by exists k', up, wev', q', out, u', p, ac'|].
    destruct wev, wev'; lia.
  - rewrite (oc_conns _ _ _ _ Hc) in He. destruct (decide (p' = p)) as [->|Hne].
    2: { by rewrite lookup_singleton_ne in He by done. }
    rewrite lookup_singleton_eq in He. cbn [le_wev] in He. destruct wev; [|done].
    destruct (writable_serves _ _ _ _ _ _ _ _ _ Hs) as (w' & out' & ac' & E & Hs' & Hr & Hlt).
    exists w'. eexists. split; [done|]. split; [by eexists k, true, _, q, out', u, p, ac'|].
    rewrite Hr. destruct Hlt as [[-> ->]|Hlt]; [cbn; lia|].
    destruct (negb (bool_decide (out' = []))); lia.
  - rewrite (oc_timers _ _ _ _ Hc) in He. by apply bool_decide_eq_true, is_Some_None in He.
Qed.

(** When no event can happen, everything that was asked is answered. *)
Lemma idle_serves n k up wev q out u p ac w : serves n k up wev q out u p ac w ->
  (forall e, enabled e w = false) -> k = n /\ up = true /\ out = [] /\ q = [].
Proof.
  intros Hs He. pose proof Hs as [Hc Hst Hw Ht].
  pose proof (ta_fd _ _ _ _ _ _ _ _ _ _ Ht) as Hfd. cbn [state_of s_ac cn_ac] in Hfd.
  pose proof (He (Writable p)) as Hwr. pose proof (He (Readable p)) as Hrd. cbn [enabled] in Hwr, Hrd.
  rewrite (conn_lookup _ _ _ _ Hc), Hfd in Hwr, Hrd. cbn [le_rev le_wev andb] in Hwr, Hrd.
  rewrite (writable_law (fd := fd)), andb_true_r in Hwr. subst wev.
  assert (out = []) as ->.
  { destruct out; [done|]. by discriminate Hw; left. }
  assert (up = true) as -> by (destruct up; [done|by discriminate Hw; right]).
  destruct Ht as [H1 H2 H3 H4 H5 H6 H7 H8 H9 H10 H11 H12 H13 H14]. cbn [state_of s_sys] in *.
  rewrite app_nil_r in H8. destruct H12 as [rest Hrest].
  assert (rest = []) as ->.
  { destruct (decide (rest = [])) as [|Hne]; [done|].
    apply (readable_law _ _ Hrest) in Hne. congruence. }
  rewrite H8, (serve_whole fd rqs vs Hex n), app_nil_r, H10 in Hrest by lia.
  assert (k = n) as ->.
  { rewrite (encodes_take (take n vs) k), take_take, Nat.min_l in Hrest by lia.
    apply app_inv_head in Hrest. rewrite skipn_firstn_comm in Hrest.
    destruct (n - k)%nat as [|m] eqn:Em; [lia|]. pose proof (an_len _ _ _ (ex_answered _ _ _ Hex)).
    destruct (drop k vs) as [|v l] eqn:El.
    - apply (f_equal length) in El. rewrite length_drop in El. cbn in El. lia.
    - cbn [short take flat_map] in *. apply (f_equal length) in Hrest. rewrite length_app in Hrest. lia. }
  split_and!; [done..|]. apply (f_equal length) in H13.
  rewrite length_fmap, length_drop, length_take in H13. destruct q; [done|cbn in H13; lia].
Qed.


(** ** The start *)

(** [connect] to [ip] and [prt] works from [k0]: the socket is [fd], and
    nothing went over it. *)
Definition reaches (ip : bytes) (prt : Z) (k0 : K) : Prop :=
  exists ac h k, redisAsyncConnect (c_str ip) prt (mk_heap ∅ 1 0) k0 = Ok (Some ac, h, k) /\
  a_err ac = 0 /\ c_fd (a_c ac) = fd /\ sent k = [] /\ received k = [].

(** A new context, attached and with its callbacks. *)
Lemma fresh_talks ac (k : K) evs : fresh_context ac -> a_err ac = 0 -> c_fd (a_c ac) = fd ->
  sent k = [] -> received k = [] -> Forall silent evs ->
  talks 0 0 false [] [] []
    (mk_state (mk_async (a_c ac) 0 (a_errstr ac) (mk_hooks true true true true true)
       CONNECT_CALLBACK DISCONNECT_CALLBACK (a_replies ac) (a_invalid ac) (a_channels ac) (a_patterns ac))
       (mk_heap ∅ 1 0) (mk_store ∅ 1) (mk_world ∅ 1 tt) k evs false).
Proof.
  intros [F1 F2 (o & Ho & Hs) (r & Hr & Ha & Hl) [F3 F4] F5] He Hfd Hsn Hrc Hevs.
  assert (forall f, has_flag (a_c ac) f = false) as Hflag.
  { intros f. unfold has_flag. by rewrite F2, Z.land_0_l. }
  split; cbn [s_ac s_sys s_log a_c a_ev a_onConnect]; rewrite ?Hsn, ?Hrc; try apply Hflag; try done.
  - split; cbn [s_ac s_freed s_cbs a_c a_replies]; try apply Hflag; try done; [|by exists o].
    rewrite F3. split; [done|done|constructor].
  - split; cbn [s_ac a_c]; try apply Hflag. eexists _, r. split_and!; [done|exact Ha|cbn; lia|].
    apply pending_core; [apply new_core_live|]. apply default_parsing. split; try done; constructor.
  - congruence.
  - split; lia.
  - by apply short_nil.
  - exists []. change [] with (texts (take 0 rqs)) at 1.
    rewrite (serve_whole fd rqs vs Hex 0) by lia. done.
  - change (take 0 vs) with (@nil resp). rewrite zip_with_nil_r, replies_none by done. constructor.
Qed.

Lemma add_conn_serves ip prt (k0 : K) : reaches ip prt k0 -> exists w' ac,
  takes_msg (add_conn ip prt) (new_worker k0) = Ok w' /\ serves 0 0 false true [] [] [] 1 ac w'.
Proof.
  intros (ac & h & k & E & He & Hfd & Hsn & Hrc).
  destruct (asyncConnect_new malloc_total (c_str ip) prt (mk_heap ∅ 1 0) k0) as (ac' & k' & E' & Hfc).
  rewrite E in E'. injection E' as <- -> <-. destruct (fc_callbacks _ Hfc) as [Hc0 Hd0].
  eexists. exists (mk_async (a_c ac) 0 (a_errstr ac) (mk_hooks true true true true true)
    CONNECT_CALLBACK DISCONNECT_CALLBACK (a_replies ac) (a_invalid ac) (a_channels ac) (a_patterns ac)).
  split.
  - unfold worker_on_message, process_add_conn, connect_conn. cbn [add_conn new_msg msg_type msg_any
      cast_add_conn cast_of mbind result_bind pl_ip pl_port new_worker set_conn_stat wk_heap wk_sys].
    rewrite E. cbn [mbind result_bind new_conn next_conn set_context].
    erewrite conn_at_ok; [|done|reflexivity]. cbn [mbind result_bind cn_ac].
    rewrite He. cbn [Z.eqb negb].
    unfold redisLibeventAttach. erewrite conn_at_ok; [|done|reflexivity].
    cbn [mbind result_bind cn_freed cn_events cn_ac]. rewrite malloc_total, event_ok. cbn [negb].
    cbn [mbind result_bind]. rewrite He.
    erewrite set_callback_run; [|done|reflexivity| |].
    2: { unfold redisAsyncSetConnectCallback. erewrite abind; [|by apply get_ac_live].
         cbn [state_of cn_ac s_ac a_onConnect]. rewrite Hc0. cbn [Z.eqb].
         erewrite abind; [|by apply put_ac_run]. unfold _EL_ADD_WRITE.
         erewrite abind; [|erewrite abind; [|by apply get_ac_live]; cbn; done]. done. }
    2: { done. }
    cbn [mbind result_bind].
    erewrite set_callback_run; [|done|reflexivity| |].
    2: { unfold redisAsyncSetDisconnectCallback. erewrite abind; [|by apply get_ac_live].
         cbn. rewrite Hd0. cbn [Z.eqb]. erewrite abind; [|by apply put_ac_run]. done. }
    2: { symmetry. apply app_nil_r. }
    cbn [mbind result_bind]. done.
  - split; [by split|done|done|].
    apply (fresh_talks ac k [EvAddWrite]); try done. by repeat constructor.
Qed.

(** Nothing happens to a worker before it is told to connect. *)
Lemma new_worker_waits (k0 : K) e : enabled e (new_worker k0) = false.
Proof. by destruct e. Qed.
End invariant.
