(* ===== verification/WorkerCorrect.v ===== *)
(** * WorkerCorrect: what a program that uses the redis worker is guaranteed

    From the messages of the application, through the queue of the worker, the
    context of hiredis and the loop, to the answers of the server. *)
From S2P Require Import Prelude Mem StdMap Timers TimersCorrect Sds SdsFacts Reply Reader ReaderView ReaderCorrect ReplyTree.
From S2P Require Import ReaderDefault Resp RoundTrip Session Format FormatFacts System Context.
From S2P Require Import ContextFacts Peer ContextCorrect Net Connect NetFacts Dict Callbacks Async AsyncFacts.
From S2P Require Import AsyncCommand AsyncReplies AsyncDeliver AsyncCorrect.
From S2P Require Import Tasks TasksFacts TasksInv TasksHistory TasksLive TasksStart TasksCorrect.
From S2P Require Import Streaming FormatCorrect Worker WorkerFacts WorkerRun WorkerSteps WorkerInvariant.
From stdpp Require Import list list_numbers strings sets gmap.
From Stdlib Require Import ZArith Lia.
Open Scope Z_scope.



Section history.
Context {M : Malloc} {HM : HeapMalloc} {K : Type} {OS : Sys K} {PL : Poll K} {L : Libevent}.
Context {D : Descriptors K}.
Context (fd : Z) {Ch : Channel K fd} {SS : StreamSocket K fd} {PS : PolledSocket K fd}.
Hypothesis malloc_total : forall n, malloc_ok n = true.
Hypothesis heap_total : forall n size, heap_ok n size = true.
Hypothesis event_ok : event_new_ok false = true.
Context (rqs : list request) (vs : list resp).
Hypothesis Hex : exchange_ok fd rqs vs.
Context (vformat : bytes -> list va -> bytes) (depth : nat) (ip : bytes) (prt : Z) (k0 : K).
Hypothesis Hreach : reaches fd ip prt k0.
Abbreviation the_worker := (redis_worker vformat no_calls (S depth)).
Abbreviation serving := (serving fd rqs vs).







End history.

(** ** Properties *)


(** C3: What [put] gives to hiredis is what hiredis would write for
    [SET key value], and a parser that gets it in any chunks reads these three
    strings, whatever bytes are in the key and the value. *)
Theorem put_read_back {M : Malloc} {HM : HeapMalloc} key value usr fn xs r h F
    (Hmalloc : forall n, malloc_ok n = true) (Hheap : forall n size, heap_ok n size = true)
    (ds := [lit "SET"; key; value]) :
  zlen (command ds) < INT_MAX ->
  concat xs = get_format_command TASK_REDIS_PUT key value -> Forall (fun x => 1 <= zlen x) xs ->
  redisReaderCreateWithFunctions (Some defaultFunctions) = Ok (Some r) -> heap_rep h [] F ->
  msg_any (put key value usr fn) = AnyFormatRaw (mk_redis_msg usr fn (concat xs)) /\
  formats (redisFormatCommandArgv true 3 ds (Some ((fun d => zlen d) <$> ds)))
    (fun len cmd => len = zlen (concat xs) /\ cmd = concat xs ++ [0]) /\
  exists p r' h', drive r h xs = Ok ([p], REDIS_OK, r', h') /\
    reply_value (size (cells h')) h' p = Some (RArray (RString <$> ds)).
Proof.
  intros Hlen Hxs Hne Hr Hh. assert (concat xs = command ds) as Hc.
  { rewrite Hxs. apply formatCommand_command. }
  split; [|split].
  - unfold put, send_format_raw_command. by rewrite Hxs.
  - rewrite Hc. apply (argv_spec ds ds (Some ((fun d => zlen d) <$> ds))); [|done]. split; [|done].
    apply Forall2_same_length_lookup_2; [done|]. intros i x y Hx Hy. exists [].
    rewrite app_nil_r. congruence.
  - by eapply drive_command.
Qed.

(** A value with a line end and a zero byte, in two chunks. *)
Lemma put_read_back_witness : exists r p r' h',
  let ds := [lit "SET"; lit "k"; [13; 10; 0]] in
  redisReaderCreateWithFunctions (M := malloc_yes) (Some (defaultFunctions (HM := heap_all))) = Ok (Some r) /\
  drive (M := malloc_yes) r empty_heap [take 9 (command ds); drop 9 (command ds)]
    = Ok ([p], REDIS_OK, r', h') /\
  reply_value (size (cells h')) h' p = Some (RArray [RString (lit "SET"); RString (lit "k"); RString [13; 10; 0]]).
Proof.
  destruct (create_live (M := malloc_yes) (Some (defaultFunctions (HM := heap_all))))
    as (r & Hc & _); [done|]. exists r. cbv zeta.
  destruct (put_read_back (M := malloc_yes) (HM := heap_all) (lit "k") [13; 10; 0] 0 7
    [take 9 (command [lit "SET"; lit "k"; [13; 10; 0]]); drop 9 (command [lit "SET"; lit "k"; [13; 10; 0]])]
    r empty_heap ∅ ltac:(done) ltac:(done)) as (_ & _ & p & r' & h' & Hd & Hv).
  - by vm_compute.
  - by vm_compute.
  - repeat constructor; by vm_compute.
  - exact Hc.
  - exact empty_heap_rep.
  - exists p, r', h'. split; [exact Hc|]. split; [exact Hd|exact Hv].
Defined.




