(* ===== verification/WorkerReconnect.v ===== *)
(** * WorkerReconnect: what the reconnect timer finds

    The timer keeps the context whose disconnection started it. hiredis frees
    the context when the callback has returned. *)
From S2P Require Import Prelude Mem StdMap Timers Tasks.
From S2P Require Import Sds Reply Reader Format System Context Net Connect Dict Callbacks Async AsyncRelease.
From S2P Require Import Peer TimersCorrect ReaderCorrect Worker WorkerFacts WorkerRun.
From stdpp Require Import list list_numbers strings sets gmap.
From Stdlib Require Import ZArith Lia.
Open Scope Z_scope.

Section reconnect.
Context {M : Malloc} {HM : HeapMalloc} {K : Type} {OS : Sys K} {PL : Poll K} {L : Libevent}.
Context (vformat : bytes -> list va -> bytes) (script : list event -> list action) (depth : nat).
Implicit Types (w : worker_task K) (s : state (W := K)).

(** The worker has a context at [p], which was freed. *)
Definition freed w (p : Z) : Prop := exists cn, conns w !! p = Some cn /\ cn_freed cn = true.

(** Contexts are numbered, and those of the timers were freed. *)
Record dangling w : Prop := {
  dg_start : 0 < next_conn w;
  dg_next p cn : conns w !! p = Some cn -> 0 < p < next_conn w;
  dg_timers : Forall (freed w) (wk_timers w)
}.

(** It stays so, and no context is revived. *)
Definition onward w w' : Prop := dangling w' /\ forall p, freed w p -> freed w' p.

Lemma onward_trans w1 w2 w3 : onward w1 w2 -> onward w2 w3 -> onward w1 w3.
Proof. intros [_ H1] [Hd H2]. split; auto. Qed.

(** A change that makes no new timer, and frees but does not revive. *)
Lemma dangling_conn w w' p cn : dangling w ->
  conns w' = <[p := cn]> (conns w) -> next_conn w <= next_conn w' -> 0 < p < next_conn w' ->
  wk_timers w' = wk_timers w -> (freed w p -> cn_freed cn = true) -> onward w w'.
Proof.
  intros [H0 Hn Ht] Hc Hle Hp Htm Hf.
  assert (forall q, freed w q -> freed w' q) as Hq.
  { intros q Hq. unfold freed. rewrite Hc. destruct (decide (p = q)) as [->|Hne].
    - rewrite lookup_insert_eq. exists cn. split; [done|by apply Hf].
    - by rewrite lookup_insert_ne. }
  split; [split|done].
  - lia.
  - intros q cn' Hl. rewrite Hc in Hl. apply lookup_insert_Some in Hl as [[<- _]|[_ Hl]]; [done|].
    apply Hn in Hl. lia.
  - rewrite Htm. by eapply Forall_impl.
Qed.

Lemma dangling_same w w' : dangling w -> conns w' = conns w -> next_conn w' = next_conn w ->
  wk_timers w' = wk_timers w -> onward w w'.
Proof.
  intros [H0 Hn Ht] Hc Hx Htm. unfold onward, freed. rewrite Hc. split; [split|done].
  - by rewrite Hx.
  - intros p cn. rewrite Hc, Hx. apply Hn.
  - unfold freed. by rewrite Htm, Hc.
Qed.

Lemma conn_at_some p w cn : conn_at p w = Ok cn -> conns w !! p = Some cn.
Proof. unfold conn_at. destruct (p =? NULL); [done|]. by destruct (conns w !! p); intros [= ->]. Qed.

(** After a function of hiredis. *)
Lemma dangling_put {A} (m : async (W := K) A) p cn a s d w : keeps releases m ->
  conns w !! p = Some cn -> m (state_of w cn) = Ok (a, s) -> dangling w ->
  onward w (put_state p d s w) /\
  (existsb disconnects (drop (length (wk_log w)) (s_log s)) = true -> freed (put_state p d s w) p).
Proof.
  intros Hk Hp Hm Hd. destruct (Hk _ _ _ Hm) as (evs & He & Hf & Hx). split.
  - apply (dangling_conn w _ p (mk_conn (s_ac s) (s_freed s) d)); try done.
    + by apply (dg_next _ Hd) in Hp.
    + intros (cn' & Hp' & Hfr). apply Hf. cbn. congruence.
  - cbn in He. rewrite He, drop_app_length. intros Hex.
    eexists. split; [apply lookup_insert_eq|by apply Hx].
Qed.

Lemma dangling_set_callback (m : async (W := K) Z) p w w' : keeps releases m -> dangling w ->
  set_callback m p w = Ok w' -> onward w w'.
Proof.
  intros Hk Hd H. unfold set_callback in H. destruct (conn_at p w) as [cn|] eqn:Hp; [|done].
  cbn [mbind result_bind] in H. destruct (m (state_of w cn)) as [[a s]|] eqn:E; [|done].
  injection H as <-. apply conn_at_some in Hp. by apply (dangling_put m p cn a).
Qed.

Lemma dangling_attach p w r w' : dangling w -> redisLibeventAttach p w = Ok (r, w') -> onward w w'.
Proof.
  intros Hd H. unfold redisLibeventAttach in H. destruct (conn_at p w) as [cn|] eqn:Hp; [|done].
  cbn [mbind result_bind] in H. destruct (cn_freed cn) eqn:Hf; [done|]. apply conn_at_some in Hp.
  destruct (cn_events cn); [by injection H as _ <-; apply dangling_same|].
  destruct (negb _); [done|]. destruct (negb _); [done|]. injection H as _ <-.
  eapply (dangling_conn w); try done.
  - by apply (dg_next _ Hd) in Hp.
  - intros (cn' & Hp' & ?). congruence.
Qed.

Lemma dangling_connect ip prt w p w' : dangling w -> connect_conn ip prt w = Ok (p, w') -> onward w w'.
Proof.
  intros Hd H. unfold connect_conn in H.
  destruct (redisAsyncConnect _ _ _ _) as [[[[ac|] h] k]|]; [..|done]; injection H as _ <-.
  - eapply (dangling_conn w); cbn; [done|done|lia|split; [apply Hd|lia]|done|].
    intros (cn & Hn & _). apply (dg_next _ Hd) in Hn. lia.
  - by apply (dangling_same w).
Qed.

Lemma sets_release fn : keeps (W := K) releases (redisAsyncSetConnectCallback fn) /\
  keeps (W := K) releases (redisAsyncSetDisconnectCallback fn).
Proof. split; apply (calls_release script depth). Qed.

Lemma dangling_reconnect b c w w' : dangling w -> redisAsyncReconnect b c w = Ok w' -> onward w w'.
Proof.
  intros Hd H. unfold redisAsyncReconnect in H.
  destruct (conn_at c w) as [cn|]; [|done]. cbn [mbind result_bind] in H.
  destruct (cn_freed cn && negb b); [done|]. destruct (deref _) as [hst|]; [|done].
  cbn [mbind result_bind] in H. destruct (connect_conn _ _ _) as [[p w1]|] eqn:E; [|done].
  apply dangling_connect in E as [Hd1 F1]; [|done]. cbn [mbind result_bind] in H.
  destruct (negb (found c w)); [done|].
  destruct (redisLibeventAttach p _) as [[r w2]|] eqn:E2; [|done].
  assert (onward w1 (set_detail p w1)) as [Hd2 F2] by by apply dangling_same.
  apply dangling_attach in E2 as [Hd3 F3]; [|done]. cbn [mbind result_bind] in H.
  destruct (set_callback _ _ w2) as [w3|] eqn:E3; [|done]. cbn [mbind result_bind] in H.
  apply dangling_set_callback in E3 as [Hd4 F4]; [|apply sets_release|done].
  apply dangling_set_callback in H as [Hd5 F5]; [|apply sets_release|done].
  split; [done|]. auto 10.
Qed.

(** The callbacks for connections. *)
Lemma dangling_callback c e w w' : dangling w -> (disconnects e = true -> freed w c) ->
  conn_callback c e w = Ok w' -> onward w w'.
Proof.
  intros Hd Hf H. destruct e; cbn [conn_callback] in H; try (by injection H as <-; apply dangling_same).
  - injection H as <-. unfold connectCallback. by repeat case_match; apply dangling_same.
  - destruct (fn =? DISCONNECT_CALLBACK); [|by injection H as <-; apply dangling_same].
    unfold disconnectCallback in H. destruct (negb _); [by injection H as <-; apply dangling_same|].
    destruct (found c w); [|by eapply dangling_reconnect].
    injection H as <-. assert (onward w (set_conn_stat DISCONNECTED w)) as [[H0 H1 H2] H3] by by apply dangling_same.
    destruct (_ && _); [|by split; [split|]]. split; [split|]; [done|done| |done].
    cbn in *. apply Forall_app. split; [done|]. repeat constructor. by apply Hf.
Qed.

Lemma dangling_callbacks c evs : forall w w', dangling w -> (existsb disconnects evs = true -> freed w c) ->
  conn_callbacks c evs w = Ok w' -> onward w w'.
Proof.
  induction evs as [|e evs IH]; intros w w' Hd Hf H; cbn [conn_callbacks existsb] in *.
  - injection H as <-. by apply dangling_same.
  - destruct (conn_callback c e w) as [w1|] eqn:E; [|done]. cbn [mbind result_bind] in H.
    assert (onward w w1) as [Hd1 F1].
    { eapply dangling_callback; [done| |done]. intros He. apply Hf. by rewrite He. }
    eapply onward_trans; [by split|]. eapply IH; [done| |done].
    intros He. apply F1, Hf. rewrite He. apply orb_true_r.
Qed.

(** ** Messages and events *)
Lemma dangling_context {A} (m : async (W := K) A) p w w' : keeps releases m -> dangling w ->
  on_context p m w = Ok w' -> onward w w'.
Proof.
  intros Hk Hd H. unfold on_context in H. destruct (conn_at p w) as [cn|] eqn:Hp; [|done].
  cbn [mbind result_bind] in H. destruct (m (state_of w cn)) as [[a s]|] eqn:E; [|done].
  cbn [mbind result_bind] in H. apply conn_at_some in Hp.
  destruct (dangling_put m p cn a s (hooks (drop (length (wk_log w)) (s_log s)) (cn_events cn)) w Hk Hp E Hd)
    as [[Hd1 F1] Hx].
  eapply onward_trans; [by split|]. by eapply dangling_callbacks.
Qed.

Lemma dangling_fired p f w : dangling w -> onward w (fired p f w).
Proof.
  intros Hd. unfold fired. destruct (conns w !! p) as [cn|] eqn:Hp; [|by apply dangling_same].
  eapply dangling_conn; try done; [by apply (dg_next _ Hd) in Hp|].
  intros (cn' & Hp' & Hf). cbn. congruence.
Qed.

Lemma dangling_message m w w' : dangling w -> worker_on_message vformat m w = Ok w' -> onward w w'.
Proof.
  intros Hd H. destruct (calls_release (W := K) script depth) as (_ & _ & Hfc & Hc & _).
  unfold worker_on_message in H.
  destruct (msg_type m); try (by injection H as <-; apply dangling_same).
  - destruct (cast_of _) as [pl|]; [|done]. cbn [mbind result_bind] in H. unfold process_add_conn in H.
    destruct (connect_conn _ _ _) as [[p w1]|] eqn:E; [|done]. cbn [mbind result_bind] in H.
    assert (onward w (set_conn_stat CONNECTING w)) as [Hd0 F0] by by apply dangling_same.
    apply dangling_connect in E as [Hd1 F1]; [|done].
    assert (onward w1 (set_context p w1)) as [Hd2 F2] by by apply dangling_same.
    destruct (conn_at p _) as [cn|]; [|done]. cbn [mbind result_bind] in H.
    destruct (negb _); [injection H as <-; by split; auto|].
    destruct (redisLibeventAttach p _) as [[r w2]|] eqn:E2; [|done]. cbn [mbind result_bind] in H.
    apply dangling_attach in E2 as [Hd3 F3]; [|done].
    assert (onward w2 (set_detail p w2)) as [Hd4 F4] by by apply dangling_same.
    destruct (set_callback _ _ (set_detail p w2)) as [w3|] eqn:E3; [|done]. cbn [mbind result_bind] in H.
    apply dangling_set_callback in E3 as [Hd5 F5]; [|apply sets_release|done].
    destruct (set_callback _ _ w3) as [w4|] eqn:E4; [|done]. injection H as <-.
    apply dangling_set_callback in E4 as [Hd6 F6]; [|apply sets_release|done].
    split; [done|]. auto 10.
  - destruct (cast_of _) as [b|]; [|done]. destruct (the_context w) as [p|]; [|done].
    cbn [mbind result_bind] in H. eapply dangling_context; [apply Hc|done..].
  - destruct (cast_of _) as [b|]; [|done]. destruct (the_context w) as [p|]; [|done].
    cbn [mbind result_bind] in H. eapply dangling_context; [apply Hfc|done..].
Qed.

Lemma dangling_event e w w' : dangling w -> on_event script depth e w = Ok w' -> onward w w'.
Proof.
  intros Hd H. destruct (calls_release (W := K) script depth) as (Hr & Hw & _).
  destruct e as [p|p|i]; cbn [on_event] in H.
  - eapply onward_trans; [by apply dangling_fired|].
    eapply dangling_context; [apply Hr|by apply dangling_fired|done].
  - eapply onward_trans; [by apply dangling_fired|].
    eapply dangling_context; [apply Hw|by apply dangling_fired|done].
  - destruct (wk_timers w !! i) as [c|] eqn:Ei; [|by injection H as <-; apply dangling_same].
    apply dangling_reconnect in H as [H1 H2]; [by split|]. split; [apply Hd|apply Hd|]. cbn.
    rewrite delete_take_drop. pose proof (dg_timers _ Hd).
    apply Forall_app. split; [by apply Forall_take|by apply Forall_drop].
Qed.
(** ** Runs of a worker *)
Inductive stimulus : Type :=
  | Message (m : TASK_MSG)
  | Occurs (e : loop_event).

Definition react (x : stimulus) w : result (worker_task K) :=
  match x with
  | Message m => worker_on_message vformat m w
  | Occurs e => if enabled e w then on_event script depth e w else Ok w
  end.

Fixpoint react_all (l : list stimulus) w : result (worker_task K) :=
  match l with
  | [] => Ok w
  | x :: l => w ← react x w; react_all l w
  end.

Lemma new_dangling (k : K) : dangling (new_worker k).
Proof. split; cbn; [lia|done|constructor]. Qed.

Lemma dangling_react_all l : forall w w', dangling w -> react_all l w = Ok w' -> dangling w'.
Proof.
  induction l as [|x l IH]; intros w w' Hd H; cbn [react_all] in H; [by injection H as <-|].
  destruct (react x w) as [w1|] eqn:E; [|done]. eapply IH; [|exact H].
  destruct x as [m|e]; cbn [react] in E; [by eapply dangling_message|].
  destruct (enabled e w); [by eapply dangling_event|by injection E as <-].
Qed.
End reconnect.

(** ** Properties *)

(** C2: Whatever messages a worker took and events happened to it, and
    whatever the callbacks of the client call, a reconnect timer that is
    pending uses the memory of a context that hiredis freed. *)
Theorem reconnect_uses_freed {M : Malloc} {HM : HeapMalloc} {K : Type} {OS : Sys K} {PL : Poll K}
    {L : Libevent} vformat script depth (k0 : K) l (w : worker_task K) i c :
  react_all vformat script depth l (new_worker k0) = Ok w -> wk_timers w !! i = Some c ->
  on_event script depth (Reconnect i) w = Fault OutOfBounds.
Proof.
  intros Hw Hi. apply (dangling_react_all vformat script depth) in Hw as [_ Hn Ht]; [|apply new_dangling].
  destruct (Forall_lookup_1 _ _ _ _ Ht Hi) as (cn & Hc & Hf). cbn [on_event]. rewrite Hi.
  unfold redisAsyncReconnect, conn_at. cbn [set_wk_timers conns]. rewrite Hc.
  destruct (Z.eqb_spec c NULL) as [->|Hne]; [apply Hn in Hc; unfold NULL in Hc; lia|]. cbn [mbind result_bind].
  by rewrite Hf.
Qed.

(** ** The program of WorkerRun, when the client disconnects in its callback *)
Definition leaves (l : list event) : list action :=
  match last l with Some (EvReply _ _ _ _) => [ActDisconnect] | _ => [] end.
Definition leave_turns : list stimulus :=
  Message (add_conn (lit "127.0.0.1") 6379) :: Message (request_msg (ask set_a)) ::
  replicate 6 (Occurs (Writable 1)) ++ replicate 2 (Occurs (Readable 1)).
Definition left_worker : result (worker_task peer) :=
  react_all (M := malloc_yes) (HM := heap_all) (OS := kv_sys) (PL := kv_poll) (L := libevent_all)
    kv_format leaves 2 leave_turns (new_worker idle_peer).

Lemma reconnect_uses_freed_witness : exists w, left_worker = Ok w /\ wk_timers w = [1] /\
  on_event (M := malloc_yes) (HM := heap_all) (OS := kv_sys) (L := libevent_all) leaves 2 (Reconnect 0) w
    = Fault OutOfBounds.
Proof.
  assert (match left_worker with Ok w => bool_decide (wk_timers w = [1]) | Fault _ => false end = true) as H
    by (vm_compute; reflexivity).
  assert (forall w, left_worker = Ok w -> wk_timers w !! 0%nat = Some 1 ->
    on_event (M := malloc_yes) (HM := heap_all) (OS := kv_sys) (L := libevent_all) leaves 2 (Reconnect 0) w
      = Fault OutOfBounds) as T.
  { intros w. unfold left_worker. intros E Hi.
    exact (reconnect_uses_freed kv_format leaves 2 idle_peer leave_turns w 0 1 E Hi). }
  destruct left_worker as [w|]; [|discriminate H]. apply bool_decide_eq_true in H.
  exists w. split; [reflexivity|]. split; [exact H|]. apply T; [reflexivity|by rewrite H].
Defined.

(** ** Where the worker stops *)

(** A request before the connection uses a pointer that has no value. *)
Example put_before_add_conn (k : peer) : react (M := malloc_yes) (HM := heap_all) (OS := kv_sys)
  (PL := kv_poll) (L := libevent_all) kv_format leaves 2
  (Message (put (lit "a") (lit "1") 0 0)) (new_worker k) = Fault OutOfBounds.
Proof. reflexivity. Qed.

(** The server closes the connection: the context is freed, the worker keeps
    it and says that it is connected, no timer is started, and the next
    request uses the context. *)
Definition close_poll : Poll peer := {| readable _ _ := true; writable _ _ := true |}.
Definition close_turns : list stimulus :=
  [Message (add_conn (lit "127.0.0.1") 6379); Occurs (Writable 1); Occurs (Readable 1)].
Definition closed_worker : result (worker_task peer) :=
  react_all (M := malloc_yes) (HM := heap_all) (OS := kv_sys) (PL := close_poll) (L := libevent_all)
    kv_format (fun _ => []) 2 close_turns (new_worker idle_peer).

Example server_closes :
  match closed_worker with
  | Ok w => _conn_stat w = CONNECTED /\ _context w = Some 1 /\ wk_timers w = [] /\
      cn_freed <$> conns w !! 1 = Some true /\
      react (M := malloc_yes) (HM := heap_all) (OS := kv_sys) (PL := close_poll) (L := libevent_all)
        kv_format (fun _ => []) 2 (Message (put (lit "a") (lit "1") 0 0)) w = Fault OutOfBounds
  | Fault _ => False
  end.
Proof. vm_compute. by repeat split. Qed.

(** A connection that cannot be made is not given up: requests are queued on
    it and never answered. *)
Definition kernel_poll : Poll kernel := {| readable _ _ := true; writable _ _ := true |}.
Definition refused_worker : result (worker_task kernel) :=
  react_all (M := malloc_yes) (HM := heap_all) (OS := kernel_sys EHOSTUNREACH true) (PL := kernel_poll)
    (L := libevent_all) kv_format (fun _ => []) 2
    [Message (add_conn (lit "127.0.0.1") 6379); Message (put (lit "a") (lit "1") 0 7)] (new_worker new_kernel).

Example connect_refused :
  match refused_worker with
  | Ok w => _conn_stat w = CONNECTING /\ wk_log w = [] /\ wk_timers w = [] /\
      ((fun cn => l_head (a_replies (cn_ac cn))) <$> conns w !! 1) = Some 1 /\
      (enabled (PL := kernel_poll) (Readable 1) w || enabled (PL := kernel_poll) (Writable 1) w) = false
  | Fault _ => False
  end.
Proof. vm_compute. by repeat split. Qed.
