(* ===== verification/ConnManager.v ===== *)
(** * ConnManager: the message bus and pools of connections (messagebus.h, connManager.h, util.h, serviceDiscovery.h)

    A handler is registered under a topic with the object it belongs to and a
    number that no other has; a call reaches the handler with the topic and the
    number. The handlers are in the order in which the multimap is walked,
    which depends on the hash function: new ones come first here. The mutex
    is locked and unlocked before the work starts, so it protects nothing; the
    calls of this model are one after the other. *)
From S2P Require Import Prelude Mem StdMap.
From stdpp Require Import list list_numbers strings gmap.
From Stdlib Require Import ZArith Lia.
Open Scope Z_scope.

(** ** Numbers *)

(** [getUniqueID]: the number, and the next. *)
Definition getUniqueID (n : Z) : Z * Z := (n, s32 (n + 1)).

Section bus.
Context {H : Type}.

(** A pair of [invokers_]: the topic, and the tuple. *)
Record invoker : Type := mk_invoker {
  iv_name : bytes;
  iv_cb : H;
  iv_obj : Z;
  iv_id : Z
}.

(** [register_handler] with a number of the caller, and with a new one. *)
Definition register_handler_id (name : bytes) (t : Z) (f : H) (id : Z) (invokers_ : list invoker) : list invoker :=
  mk_invoker name f t id :: invokers_.

Definition register_handler (name : bytes) (t : Z) (f : H) (n : Z) (invokers_ : list invoker) : Z * list invoker * Z :=
  let '(id, n) := getUniqueID n in
  (id, register_handler_id name t f id invokers_, n).

(** [call] up to where it runs [cb]: the handler and its object. *)
Fixpoint find_handler (name : bytes) (id : Z) (invokers_ : list invoker) : option (H * Z) :=
  match invokers_ with
  | [] => None
  | it :: rest =>
      if decide (name = iv_name it) then
        if id =? iv_id it then Some (iv_cb it, iv_obj it) else find_handler name id rest
      else find_handler name id rest
  end.

Fixpoint remove_handler (name : bytes) (t id : Z) (invokers_ : list invoker) : list invoker :=
  match invokers_ with
  | [] => []
  | it :: rest =>
      if decide (name = iv_name it) then
        if (iv_obj it =? t) && (iv_id it =? id) then remove_handler name t id rest
        else it :: remove_handler name t id rest
      else it :: remove_handler name t id rest
  end.
End bus.
Arguments invoker : clear implicits.
Arguments mk_invoker {H}.

(** * Pools of connections (connManager.h, util.h, serviceDiscovery.h) *)
(** ** Topics and addresses (util.h) *)
Definition CONN_INC : bytes := lit "conn_inc".
Definition CONN_DEC : bytes := lit "conn_dec".
Definition POOL_INC : bytes := lit "pool_inc".
Definition POOL_DEC : bytes := lit "pool_dec".

Record ConnInfo : Type := mk_info {
  sourceIP : bytes;
  sourcePort : bytes;
  destIP : bytes;
  destPort : bytes;
  conn_type : Z
}.

#[export] Instance ConnInfo_eq_dec : EqDecision ConnInfo.
Proof. solve_decision. Defined.

(** [operator==]. *)
Definition info_eq (a b : ConnInfo) : bool :=
  bool_decide (sourceIP a = sourceIP b) && bool_decide (sourcePort a = sourcePort b) &&
  bool_decide (destIP a = destIP b) && bool_decide (destPort a = destPort b) &&
  (conn_type a =? conn_type b).

(** [operator<]: the tuples in the reverse order. *)
Definition tie_lt (a b : ConnInfo) : bool :=
  if bool_decide (sourceIP a = sourceIP b) then
    if bool_decide (sourcePort a = sourcePort b) then
      if bool_decide (destIP a = destIP b) then
        if bool_decide (destPort a = destPort b) then conn_type a <? conn_type b
        else bytes_lt (destPort a) (destPort b)
      else bytes_lt (destIP a) (destIP b)
    else bytes_lt (sourcePort a) (sourcePort b)
  else bytes_lt (sourceIP a) (sourceIP b).
Definition info_lt (a b : ConnInfo) : bool := tie_lt b a.

(** ** Objects *)

(** [conn_state] has no value until the first report. *)
Record DBConn : Type := mk_DBConn {
  _info : ConnInfo;
  pool_index : Z;
  conn_state : option bool;
  c_inc_id : Z;
  c_dec_id : Z
}.

Record connPool : Type := mk_pool {
  _id : Z;
  conn_inc_id : Z;
  conn_dec_id : Z;
  pool_inc_id : Z;
  pool_dec_id : Z;
  DBInsLocalList : list Z;
  DBInsRemoteList : list Z
}.

(** The lambdas that are registered, with what they capture. *)
Inductive handler : Type :=
  | OnConnDec (pool : Z)
  | OnConnInc (pool : Z)
  | OnPoolInc
  | OnPoolDec.

(** [m_inc_id] and [m_dec_id] are the members [pool_inc_id] and [pool_dec_id]
    of the manager. [held] are the pools of which the application has a
    pointer. *)
Record state : Type := mk_state {
  infoList : list ConnInfo;
  poolList : list Z;
  m_inc_id : Z;
  m_dec_id : Z;
  pools : gmap Z connPool;
  next_pool : Z;
  dbconns : gmap Z DBConn;
  next_conn : Z;
  pool_bus : list (invoker handler);
  mgr_bus : list (invoker handler);
  uniqueID : Z;
  held : list Z
}.

(** What [connect] returns, and whether it reports before it returns. *)
Class Connect := { connect : ConnInfo -> bool * option bool }.

(** The members of a new pool that its constructor does not set. *)
Class Uninit := { junk_id : Z -> Z; junk_inc_id : Z -> Z; junk_dec_id : Z -> Z }.

(** The manager's address. *)
Definition MANAGER : Z := 0.

Section manager.
Context {CN : Connect} {U : Uninit}.
Implicit Types (s : state) (pl : connPool) (c : DBConn).

Definition set_infoList s l : state :=
  mk_state l (poolList s) (m_inc_id s) (m_dec_id s) (pools s) (next_pool s) (dbconns s) (next_conn s)
    (pool_bus s) (mgr_bus s) (uniqueID s) (held s).
Definition set_poolList s l : state :=
  mk_state (infoList s) l (m_inc_id s) (m_dec_id s) (pools s) (next_pool s) (dbconns s) (next_conn s)
    (pool_bus s) (mgr_bus s) (uniqueID s) (held s).
Definition set_held s l : state :=
  mk_state (infoList s) (poolList s) (m_inc_id s) (m_dec_id s) (pools s) (next_pool s) (dbconns s)
    (next_conn s) (pool_bus s) (mgr_bus s) (uniqueID s) l.
Definition set_pool s p pl : state :=
  mk_state (infoList s) (poolList s) (m_inc_id s) (m_dec_id s) (<[p := pl]> (pools s)) (next_pool s)
    (dbconns s) (next_conn s) (pool_bus s) (mgr_bus s) (uniqueID s) (held s).
Definition set_conn s p c : state :=
  mk_state (infoList s) (poolList s) (m_inc_id s) (m_dec_id s) (pools s) (next_pool s)
    (<[p := c]> (dbconns s)) (next_conn s) (pool_bus s) (mgr_bus s) (uniqueID s) (held s).

Definition pool_at s p : result connPool :=
  match pools s !! p with Some pl => Ok pl | None => Fault OutOfBounds end.
Definition conn_at s p : result DBConn :=
  match dbconns s !! p with Some c => Ok c | None => Fault OutOfBounds end.

Definition set_lists pl l r : connPool :=
  mk_pool (_id pl) (conn_inc_id pl) (conn_dec_id pl) (pool_inc_id pl) (pool_dec_id pl) l r.

(** ** Pools *)

(** The constructor, at a new address. *)
Definition new_pool s : Z * state :=
  let p := next_pool s in
  let '(dec, bus, n) := register_handler CONN_DEC p (OnConnDec p) (uniqueID s) (pool_bus s) in
  let '(inc, bus, n) := register_handler CONN_INC p (OnConnInc p) n bus in
  let pl := mk_pool (junk_id p) inc dec (junk_inc_id p) (junk_dec_id p) [] [] in
  (p, mk_state (infoList s) (poolList s) (m_inc_id s) (m_dec_id s) (<[p := pl]> (pools s)) (p + 1)
        (dbconns s) (next_conn s) bus (mgr_bus s) n (held s)).

(** The destructor. *)
Definition destroy_pool p s : result state :=
  pl ← pool_at s p;
  let bus := remove_handler CONN_INC p (conn_inc_id pl) (pool_bus s) in
  let bus := remove_handler CONN_DEC p (conn_dec_id pl) bus in
  Ok (mk_state (infoList s) (poolList s) (m_inc_id s) (m_dec_id s) (delete p (pools s)) (next_pool s)
        (dbconns s) (next_conn s) bus (mgr_bus s) (uniqueID s) (held s)).

(** Pointers to the pool [p] went away: the last destroys it. *)
Definition release_pool p s : result state :=
  if decide (p ∈ poolList s ++ held s) then Ok s else destroy_pool p s.

(** [add_conn] and [del_conn] of a pointer to a connection. *)
Definition pool_add_conn p cp s : result state :=
  pl ← pool_at s p; c ← conn_at s cp;
  if conn_type (_info c) =? 0 then
    Ok (set_pool s p (set_lists pl (DBInsLocalList pl ++ [cp]) (DBInsRemoteList pl)))
  else Ok (set_pool s p (set_lists pl (DBInsLocalList pl) (DBInsRemoteList pl ++ [cp]))).

Definition pool_del_conn p cp s : result state :=
  pl ← pool_at s p; c ← conn_at s cp;
  if conn_type (_info c) =? 0 then
    Ok (set_pool s p (set_lists pl (filter (fun db => db <> cp) (DBInsLocalList pl)) (DBInsRemoteList pl)))
  else Ok (set_pool s p (set_lists pl (DBInsLocalList pl) (filter (fun db => db <> cp) (DBInsRemoteList pl)))).

(** [remove_if] with the information of each connection. *)
Fixpoint remove_info s (info : ConnInfo) (l : list Z) : result (list Z) :=
  match l with
  | [] => Ok []
  | db :: l =>
      c ← conn_at s db; l ← remove_info s info l;
      Ok (if info_eq (_info c) info then l else db :: l)
  end.

(** [del_conn(connInfo)]. *)
Definition pool_del_info (info : ConnInfo) p s : result state :=
  pl ← pool_at s p;
  if conn_type info =? 0 then
    l ← remove_info s info (DBInsLocalList pl);
    Ok (set_pool s p (set_lists pl l (DBInsRemoteList pl)))
  else
    r ← remove_info s info (DBInsRemoteList pl);
    Ok (set_pool s p (set_lists pl (DBInsLocalList pl) r)).

(** The front of a list goes to its back. *)
Definition to_back (l : list Z) : list Z :=
  match l with [] => [] | x :: l => l ++ [x] end.

Definition pool_get_conn p s : result (option Z * state) :=
  pl ← pool_at s p;
  match DBInsLocalList pl, DBInsRemoteList pl with
  | tmp :: _, _ =>
      Ok (Some tmp, set_pool s p (set_lists pl (to_back (DBInsLocalList pl)) (DBInsRemoteList pl)))
  | [], tmp :: _ =>
      Ok (Some tmp, set_pool s p (set_lists pl (DBInsLocalList pl) (to_back (DBInsRemoteList pl))))
  | [], [] => Ok (None, s)
  end.

Definition pool_empty pl : bool :=
  (length (DBInsLocalList pl) + length (DBInsRemoteList pl) =? 0)%nat.

(** ** Reports, pools from addresses

    [calls name message id] is [call] of the bus of the pools. *)
Section calls.
Context (calls : bytes -> Z -> Z -> state -> result state).

(** [onConnected] and [onDisconnected]. *)
Definition onConnected cp s : result state :=
  c ← conn_at s cp;
  let s := set_conn s cp (mk_DBConn (_info c) (pool_index c) (Some true) (c_inc_id c) (c_dec_id c)) in
  calls CONN_INC cp (c_inc_id c) s.
Definition onDisconnected cp s : result state :=
  c ← conn_at s cp;
  let s := set_conn s cp (mk_DBConn (_info c) (pool_index c) (Some false) (c_inc_id c) (c_dec_id c)) in
  calls CONN_DEC cp (c_dec_id c) s.

(** [add_conn(connInfo)]; its result is not used. *)
Definition pool_add_info (info : ConnInfo) p s : result state :=
  pl ← pool_at s p;
  let cp := next_conn s in
  let c := mk_DBConn info (_id pl) None (conn_inc_id pl) (conn_dec_id pl) in
  let s := mk_state (infoList s) (poolList s) (m_inc_id s) (m_dec_id s) (pools s) (next_pool s)
             (<[cp := c]> (dbconns s)) (cp + 1) (pool_bus s) (mgr_bus s) (uniqueID s) (held s) in
  match (connect info).2 with
  | None => Ok s
  | Some true => onConnected cp s
  | Some false => onDisconnected cp s
  end.

Fixpoint pool_add_infos (l : list ConnInfo) p s : result state :=
  match l with
  | [] => Ok s
  | info :: l => s ← pool_add_info info p s; pool_add_infos l p s
  end.

(** [add_pool]; the connections are made before the pool has its number. *)
Definition add_pool s : result (Z * state) :=
  let '(p, s) := new_pool s in
  s ← pool_add_infos (infoList s) p s;
  let '(id, n) := getUniqueID (uniqueID s) in
  pl ← pool_at s p;
  let pl := mk_pool id (conn_inc_id pl) (conn_dec_id pl) (m_inc_id s) (m_dec_id s)
              (DBInsLocalList pl) (DBInsRemoteList pl) in
  Ok (id, mk_state (infoList s) (poolList s ++ [p]) (m_inc_id s) (m_dec_id s) (<[p := pl]> (pools s))
            (next_pool s) (dbconns s) (next_conn s) (pool_bus s) (mgr_bus s) n (held s)).

(** ** The manager *)

(** The pools with another number, and those with [id]. *)
Fixpoint split_id s (id : Z) (l : list Z) : result (list Z * list Z) :=
  match l with
  | [] => Ok ([], [])
  | p :: l =>
      pl ← pool_at s p; '(keep, gone) ← split_id s id l;
      Ok (if _id pl =? id then (keep, p :: gone) else (p :: keep, gone))
  end.

Fixpoint release_pools (l : list Z) s : result state :=
  match l with
  | [] => Ok s
  | p :: l => s ← release_pool p s; release_pools l s
  end.

Definition del_pool (id : Z) s : result state :=
  '(keep, gone) ← split_id s id (poolList s);
  release_pools gone (set_poolList s keep).

Fixpoint has_id s (id : Z) (l : list Z) : result bool :=
  match l with
  | [] => Ok false
  | p :: l => pl ← pool_at s p; if _id pl =? id then Ok true else has_id s id l
  end.

(** [call] of the bus of the managers, with the pool [msgp]. *)
Definition mgr_call (name : bytes) (msgp id : Z) s : result state :=
  match find_handler name id (mgr_bus s) with
  | Some (OnPoolInc, _) =>
      pl ← pool_at s msgp;
      exist ← has_id s (_id pl) (poolList s);
      if (exist : bool) then Ok s else '(_, s) ← add_pool s; Ok s
  | Some (OnPoolDec, _) => pl ← pool_at s msgp; del_pool (_id pl) s
  | _ => Ok s
  end.

(** The lambdas of a pool, for the connection [msgp]. *)
Definition on_conn_dec p msgp s : result state :=
  c ← conn_at s msgp; pl ← pool_at s p;
  if pool_index c =? _id pl then
    s ← pool_del_conn p msgp s; pl ← pool_at s p;
    if pool_empty pl then mgr_call POOL_DEC p (pool_dec_id pl) s else Ok s
  else Ok s.

Definition on_conn_inc p msgp s : result state :=
  c ← conn_at s msgp; pl ← pool_at s p;
  if pool_index c =? _id pl then
    s ← (if pool_empty pl then mgr_call POOL_INC p (pool_inc_id pl) s else Ok s);
    pool_add_conn p msgp s
  else Ok s.

(** Where a range-for goes after the element [p]. *)
Fixpoint after (p : Z) (l : list Z) : option (list Z) :=
  match l with
  | [] => None
  | q :: l => if q =? p then Some l else after p l
  end.

(** [for (auto tmp : poolList) f(tmp)]: when [f] erased the element, the
    iterator is not valid any more. The addresses in the list differ. *)
Fixpoint each_pool (fuel : nat) (f : Z -> state -> result state) (rest : list Z) s : result state :=
  match rest with
  | [] => Ok s
  | p :: _ =>
      match fuel with
      | O => Fault OutOfFuel
      | S fuel =>
          s ← f p s;
          match after p (poolList s) with
          | Some rest => each_pool fuel f rest s
          | None => Fault OutOfBounds
          end
      end
  end.

Definition add_conn (fuel : nat) (info : ConnInfo) s : result state :=
  let s := set_infoList s (infoList s ++ [info]) in
  each_pool fuel (pool_add_info info) (poolList s) s.

Definition del_conn (fuel : nat) (info : ConnInfo) s : result state :=
  let s := set_infoList s (filter (fun i => info_eq i info = false) (infoList s)) in
  each_pool fuel (pool_del_info info) (poolList s) s.
End calls.

Definition get_pool s : option Z * state :=
  match poolList s with
  | [] => (None, s)
  | tmp :: _ => (Some tmp, set_poolList s (to_back (poolList s)))
  end.

Definition get_conn s : result (option Z * state) :=
  let '(tmp, s) := get_pool s in
  match tmp with
  | Some p => pool_get_conn p s
  | None => Ok (None, s)
  end.

(** [call] of the bus of the pools: nested when [connect] reports at once. *)
Fixpoint pool_call (fuel : nat) (name : bytes) (msgp id : Z) s : result state :=
  match fuel with
  | O => Fault OutOfFuel
  | S fuel =>
      match find_handler name id (pool_bus s) with
      | Some (OnConnDec p, _) => on_conn_dec (pool_call fuel) p msgp s
      | Some (OnConnInc p, _) => on_conn_inc (pool_call fuel) p msgp s
      | _ => Ok s
      end
  end.

(** The constructor of the manager. *)
Definition new_manager (n : Z) : state :=
  let '(inc, bus, n) := register_handler POOL_INC MANAGER OnPoolInc n [] in
  let '(dec, bus, n) := register_handler POOL_DEC MANAGER OnPoolDec n bus in
  mk_state [] [] inc dec ∅ 1 ∅ 1 [] bus n [].
End manager.

(** ** Service discovery *)

(** A [std::set] of addresses, in its order. *)
Fixpoint set_has (x : ConnInfo) (l : list ConnInfo) : bool :=
  match l with
  | [] => false
  | y :: l => if info_lt y x then set_has x l else negb (info_lt x y)
  end.
Fixpoint set_insert (x : ConnInfo) (l : list ConnInfo) : list ConnInfo :=
  match l with
  | [] => [x]
  | y :: l =>
      if info_lt y x then y :: set_insert x l
      else if info_lt x y then x :: y :: l else y :: l
  end.

Section discovery.
Context {S : Type} (inc dec : ConnInfo -> S -> result S).

Fixpoint discover_inc (tmplist _conn_list : list ConnInfo) (s : S) : result (list ConnInfo * S) :=
  match tmplist with
  | [] => Ok (_conn_list, s)
  | tmp :: tmplist =>
      if set_has tmp _conn_list then discover_inc tmplist _conn_list s
      else s ← inc tmp s; discover_inc tmplist (set_insert tmp _conn_list) s
  end.

(** The element that is erased is the one the range-for is at. *)
Fixpoint discover_dec (l tmplist : list ConnInfo) (s : S) : result S :=
  match l with
  | [] => Ok s
  | tmp :: l =>
      if set_has tmp tmplist then discover_dec l tmplist s
      else s ← dec tmp s; Fault OutOfBounds
  end.

(** [getConnInfo]; [get] is [_get_conn_f] when it is set. *)
Definition getConnInfo (get : option (list ConnInfo)) (_conn_list : list ConnInfo) (s : S) :
    result (bool * list ConnInfo * S) :=
  match get with
  | None => Ok (false, _conn_list, s)
  | Some tmplist =>
      '(_conn_list, s) ← discover_inc tmplist _conn_list s;
      s ← discover_dec _conn_list tmplist s;
      Ok (true, _conn_list, s)
  end.
End discovery.

(** The callbacks that the manager sets; its own gives one address. *)
Definition local_info : ConnInfo := mk_info [] [] (lit "127.0.0.1") (lit "6379") 0.

Definition manager_discovers {CN : Connect} (calls : bytes -> Z -> Z -> state -> result state) (fuel : nat)
    (_conn_list : list ConnInfo) (s : state) : result (bool * list ConnInfo * state) :=
  getConnInfo (add_conn calls fuel) (del_conn fuel) (Some [local_info]) _conn_list s.
