(* ===== verification/ConnFacts.v ===== *)
(** * ConnFacts: the bus reaches the pools that live

    The invariant of a manager whose connections report after [connect] has
    returned, and the operations that keep it. *)
From S2P Require Import Prelude Mem StdMap ConnManager.
From stdpp Require Import list list_numbers strings gmap.
From Stdlib Require Import ZArith Lia.
Open Scope Z_scope.

(** ** The bus *)
Section bus.
Context {H : Type}.
Implicit Types (l : list (invoker H)) (iv : invoker H).

Lemma find_handler_none name id l : (forall iv, iv ∈ l -> ~ (iv_name iv = name /\ iv_id iv = id)) ->
  find_handler name id l = None.
Proof.
  induction l as [|iv l IH]; intros Hn; cbn [find_handler]; [done|].
  assert (find_handler name id l = None) as E by (apply IH; intros; apply Hn; by right).
  case_decide as Hd; [|done]. destruct (Z.eqb_spec id (iv_id iv)) as [Hi|]; [|done].
  exfalso. apply (Hn iv); [by left|done].
Qed.

Lemma find_handler_some name id l iv : iv ∈ l -> iv_name iv = name -> iv_id iv = id ->
  (forall iv', iv' ∈ l -> iv_name iv' = name -> iv_id iv' = id -> iv' = iv) ->
  find_handler name id l = Some (iv_cb iv, iv_obj iv).
Proof.
  induction l as [|i l IH]; intros Hin Hn Hi Hu; cbn [find_handler]; [by apply not_elem_of_nil in Hin|].
  destruct (decide (name = iv_name i)) as [Hd|Hd].
  - destruct (Z.eqb_spec id (iv_id i)) as [He|He].
    + by rewrite (Hu i); [|left|..].
    + apply elem_of_cons in Hin as [->|Hin]; [congruence|]. apply IH; try done. intros. by apply Hu; [right|..].
  - apply elem_of_cons in Hin as [->|Hin]; [congruence|]. apply IH; try done. intros. by apply Hu; [right|..].
Qed.

Lemma remove_handler_filter name t id l :
  remove_handler name t id l = filter (fun iv => ~ (iv_name iv = name /\ iv_obj iv = t /\ iv_id iv = id)) l.
Proof.
  induction l as [|iv l IH]; cbn [remove_handler]; [done|]. rewrite filter_cons, IH.
  destruct (decide (~ _)) as [Hn|Hn]; destruct (decide (name = iv_name iv)) as [Hd|Hd]; try done.
  - destruct (Z.eqb_spec (iv_obj iv) t), (Z.eqb_spec (iv_id iv) id); try done. exfalso. by apply Hn.
  - apply dec_stable in Hn as (_ & -> & ->). by rewrite !Z.eqb_refl.
  - apply dec_stable in Hn as (Hn & _). by symmetry in Hn.
Qed.
End bus.

(** ** The invariant *)
Class QuietConnect {CN : Connect} : Prop := quiet_connect : forall info, (connect info).2 = None.

(** The two handlers of a pool. *)
Definition dec_handler (p : Z) (pl : connPool) : invoker handler :=
  mk_invoker CONN_DEC (OnConnDec p) p (conn_dec_id pl).
Definition inc_handler (p : Z) (pl : connPool) : invoker handler :=
  mk_invoker CONN_INC (OnConnInc p) p (conn_inc_id pl).

(** A list of a pool holds connections of its kind. *)
Definition lends (s : state) (local : bool) (l : list Z) : Prop :=
  Forall (fun cp => exists c, dbconns s !! cp = Some c /\ (conn_type (_info c) =? 0) = local) l.

(** [extra] are pools that an operation is about to let go. *)
Record ok_but (extra : list Z) (s : state) : Prop := {
  ok_mgr : mgr_bus s = [mk_invoker POOL_DEC OnPoolDec MANAGER (m_dec_id s);
                        mk_invoker POOL_INC OnPoolInc MANAGER (m_inc_id s)];
  ok_bus iv : iv ∈ pool_bus s <-> exists p pl, pools s !! p = Some pl /\
    (iv = dec_handler p pl \/ iv = inc_handler p pl);
  ok_ids p pl : pools s !! p = Some pl ->
    conn_inc_id pl < uniqueID s /\ conn_dec_id pl < uniqueID s /\ _id pl < uniqueID s /\
    pool_inc_id pl = m_inc_id s /\ pool_dec_id pl = m_dec_id s;
  ok_distinct p q pl ql : pools s !! p = Some pl -> pools s !! q = Some ql ->
    conn_inc_id pl = conn_inc_id ql \/ conn_dec_id pl = conn_dec_id ql \/ _id pl = _id ql -> p = q;
  ok_alive p : is_Some (pools s !! p) <-> p ∈ poolList s ++ held s ++ extra;
  ok_nodup : NoDup (poolList s);
  ok_fresh_pool p : is_Some (pools s !! p) -> p < next_pool s;
  ok_fresh_conn cp : is_Some (dbconns s !! cp) -> cp < next_conn s;
  ok_lends p pl : pools s !! p = Some pl ->
    lends s true (DBInsLocalList pl) /\ lends s false (DBInsRemoteList pl)
}.
Abbreviation ok := (ok_but []).

Section facts.
Context {CN : Connect} {U : Uninit} {Q : QuietConnect}.
Implicit Types (s : state) (pl : connPool) (c : DBConn).

Lemma ok_pool x s p : ok_but x s -> p ∈ poolList s ++ held s ++ x ->
  exists pl, pool_at s p = Ok pl /\ pools s !! p = Some pl.
Proof.
  intros Hs Hp. destruct (proj2 (ok_alive _ _ Hs p) Hp) as [pl Hpl].
  exists pl. unfold pool_at. by rewrite Hpl.
Qed.

(** ** Changes that keep it *)
Definition with_conns s (cs : gmap Z DBConn) (n : Z) : state :=
  mk_state (infoList s) (poolList s) (m_inc_id s) (m_dec_id s) (pools s) (next_pool s) cs n
    (pool_bus s) (mgr_bus s) (uniqueID s) (held s).

(** Connections keep their information. *)
Definition keeps_info (cs cs' : gmap Z DBConn) : Prop :=
  forall cp c, cs !! cp = Some c -> exists c', cs' !! cp = Some c' /\ _info c' = _info c.

Lemma lends_keeps s s' b l : keeps_info (dbconns s) (dbconns s') -> lends s b l -> lends s' b l.
Proof.
  intros Hk Hl. eapply Forall_impl; [exact Hl|]. intros cp (c & Hc & Ht).
  destruct (Hk cp c Hc) as (c' & Hc' & Hi). exists c'. by rewrite Hi.
Qed.

Lemma ok_conns x s cs n : ok_but x s -> keeps_info (dbconns s) cs ->
  (forall cp, is_Some (cs !! cp) -> cp < n) -> ok_but x (with_conns s cs n).
Proof.
  intros [H1 H2 H3 H4 H5 H6 H7 H8 H9] Hk Hn. split; try done.
  intros p pl Hp. destruct (H9 p pl Hp). split; by eapply lends_keeps.
Qed.

Lemma ok_infoList x s l : ok_but x s -> ok_but x (set_infoList s l).
Proof. intros [H1 H2 H3 H4 H5 H6 H7 H8 H9]. by split. Qed.

Lemma ok_poolList x s l : ok_but x s -> l ≡ₚ poolList s -> ok_but x (set_poolList s l).
Proof.
  intros [H1 H2 H3 H4 H5 H6 H7 H8 H9] Hl. split; try done; cbn.
  - intros p. by rewrite Hl.
  - by rewrite Hl.
Qed.

(** Other lists in a pool. *)
Lemma ok_set_lists x s p pl l r : ok_but x s -> pools s !! p = Some pl -> lends s true l -> lends s false r ->
  ok_but x (set_pool s p (set_lists pl l r)).
Proof.
  intros [H1 H2 H3 H4 H5 H6 H7 H8 H9] Hp Hl Hr.
  assert (forall q ql, <[p := set_lists pl l r]> (pools s) !! q = Some ql ->
    exists ql', pools s !! q = Some ql' /\ _id ql = _id ql' /\ conn_inc_id ql = conn_inc_id ql' /\
      conn_dec_id ql = conn_dec_id ql' /\ pool_inc_id ql = pool_inc_id ql' /\
      pool_dec_id ql = pool_dec_id ql') as Hq.
  { intros q ql [[<- <-]|[_ Hq]]%lookup_insert_Some; [by exists pl|by exists ql]. }
  assert (forall q, is_Some (<[p := set_lists pl l r]> (pools s) !! q) <-> is_Some (pools s !! q)) as Hd.
  { intros q. rewrite lookup_insert_is_Some'. split; [intros [<-|]; [by exists pl|done]|auto]. }
  split; try done; cbn.
  - intros iv. rewrite H2. split.
    + intros (q & ql & Hql & Hor). destruct (decide (p = q)) as [<-|Hne].
      * exists p, (set_lists pl l r). rewrite lookup_insert_eq. assert (ql = pl) as -> by congruence. done.
      * exists q, ql. by rewrite lookup_insert_ne.
    + intros (q & ql & Hql & Hor). destruct (Hq q ql Hql) as (ql' & Hql' & _ & E1 & E2 & _).
      exists q, ql'. unfold dec_handler, inc_handler in *. by rewrite <- E1, <- E2.
  - intros q ql Hql. destruct (Hq q ql Hql) as (ql' & Hql' & -> & -> & -> & -> & ->). by apply (H3 q).
  - intros q1 q2 ql1 ql2 Hq1 Hq2. destruct (Hq _ _ Hq1) as (? & Hq1' & -> & -> & -> & _).
    destruct (Hq _ _ Hq2) as (? & Hq2' & -> & -> & -> & _). by apply (H4 q1 q2).
  - intros q. rewrite Hd. apply H5.
  - intros q. rewrite Hd. apply H7.
  - intros q ql [[<- <-]|[_ Hql]]%lookup_insert_Some; [done|by apply (H9 q)].
Qed.

(** ** The last pointer to a pool goes away *)

(** What does not change when pools go. *)
Record dropped (x : list Z) s s' : Prop := {
  dr_poolList : poolList s' = poolList s;
  dr_held : held s' = held s;
  dr_infoList : infoList s' = infoList s;
  dr_conns : dbconns s' = dbconns s;
  dr_next : uniqueID s' = uniqueID s;
  dr_others q : q ∉ x -> pools s' !! q = pools s !! q;
  dr_gone q : q ∈ x -> pools s' !! q = if decide (q ∈ poolList s ++ held s) then pools s !! q else None
}.

Lemma release_pool_ok p x s : ok_but (p :: x) s -> p ∉ x ->
  exists s', release_pool p s = Ok s' /\ ok_but x s' /\ dropped [p] s s'.
Proof.
  intros Hs Hx. unfold release_pool. case_decide as Hd.
  { exists s. split; [done|]. split; [|split; try done].
    2: { intros q ->%list_elem_of_singleton. by rewrite decide_True. }
    destruct Hs as [H1 H2 H3 H4 H5 H6 H7 H8 H9].
    split; try done. intros q. rewrite H5. rewrite !elem_of_app, elem_of_cons.
    rewrite elem_of_app in Hd. split; [intros [?|[?|[->|?]]]; tauto|tauto]. }
  destruct (ok_pool _ _ p Hs) as (pl & E & Hp); [rewrite !elem_of_app; right; right; by left|].
  unfold destroy_pool. rewrite E. cbn [mbind result_bind].
  eexists. split; [done|]. destruct Hs as [H1 H2 H3 H4 H5 H6 H7 H8 H9].
  assert (forall q ql, delete p (pools s) !! q = Some ql -> q <> p /\ pools s !! q = Some ql) as Hq.
  { by intros q ql [? ?]%lookup_delete_Some. }
  split; [split|]; cbn; try done.
  - intros iv. rewrite !remove_handler_filter, !list_elem_of_filter, H2. split.
    + intros (Hn1 & Hn2 & q & ql & Hql & Hor). exists q, ql. split; [|done].
      apply lookup_delete_Some. split; [|done]. intros <-. assert (ql = pl) as -> by congruence.
      destruct Hor; subst iv; [by apply Hn1|by apply Hn2].
    + intros (q & ql & [Hne Hql]%Hq & Hor). split; [|split; [|by exists q, ql]];
        intros (_ & Ho & _); destruct Hor; subst iv; done.
  - intros q ql [_ Hql]%Hq. by apply (H3 q).
  - intros q1 q2 ql1 ql2 [_ Hq1]%Hq [_ Hq2]%Hq. by apply (H4 q1 q2).
  - intros q. split.
    + intros (ql & [Hne Hql]%Hq). assert (q ∈ poolList s ++ held s ++ p :: x) as Hin by (apply H5; by exists ql).
      rewrite !elem_of_app, elem_of_cons in *. tauto.
    + intros Hin. assert (q <> p) as Hne by (intros ->; rewrite !elem_of_app in *; tauto).
      rewrite lookup_delete_ne by done. apply H5. rewrite !elem_of_app, elem_of_cons in *. tauto.
  - intros q (ql & [_ Hql]%Hq). apply H7. by exists ql.
  - intros q ql [_ Hql]%Hq. by apply (H9 q).
  - split; try done. intros q Hnin. cbn. apply lookup_delete_ne.
    { intros ->. apply Hnin. by left. }
    intros q ->%list_elem_of_singleton. cbn. rewrite decide_False by done. apply lookup_delete_eq.
Qed.

Lemma release_pools_ok l : forall x s, ok_but (l ++ x) s -> NoDup l -> (forall p, p ∈ l -> p ∉ x) ->
  exists s', release_pools l s = Ok s' /\ ok_but x s' /\ dropped l s s'.
Proof.
  induction l as [|p l IH]; intros x s Hs Hnd Hx; cbn [release_pools].
  { exists s. split; [done|]. split; [done|]. split; try done. by intros q ?%not_elem_of_nil. }
  apply NoDup_cons in Hnd as [Hp Hnd].
  destruct (release_pool_ok p (l ++ x) s Hs) as (s1 & E1 & Hs1 & [D1 D2 D3 D4 D5 D6 D7]).
  { rewrite elem_of_app. intros [?|?]; [done|]. by apply (Hx p); [left|]. }
  rewrite E1. cbn [mbind result_bind].
  destruct (IH x s1 Hs1 Hnd) as (s2 & -> & Hs2 & [F1 F2 F3 F4 F5 F6 F7]); [intros; apply Hx; by right|].
  exists s2. split; [done|]. split; [done|]. split; try congruence.
  - intros q [Hne Hq]%not_elem_of_cons. rewrite F6, D6; [done| |done]. by intros ->%list_elem_of_singleton.
  - rewrite D1, D2 in F7. intros q [->|Hq]%elem_of_cons.
    + rewrite F6, D7; [done|by left|done].
    + rewrite F7 by done. rewrite D6; [done|]. by intros ->%list_elem_of_singleton.
Qed.

(** ** Reports *)

(** A report runs the lambda of the living pool with the number. *)
Lemma call_inc f s p pl cp : ok s -> pools s !! p = Some pl ->
  pool_call (S f) CONN_INC cp (conn_inc_id pl) s = on_conn_inc (pool_call f) p cp s.
Proof.
  intros Hs Hp. cbn [pool_call].
  rewrite (find_handler_some _ _ _ (inc_handler p pl)); [done| |done|done|].
  - apply (ok_bus _ _ Hs). by exists p, pl; auto.
  - intros iv Hiv Hn Hi. apply (ok_bus _ _ Hs) in Hiv as (q & ql & Hq & [Hiv|Hiv]); subst iv; [discriminate Hn|]. cbn in Hi.
    assert (p = q) as <- by (eapply (ok_distinct _ _ Hs); eauto). congruence.
Qed.

Lemma call_dec f s p pl cp : ok s -> pools s !! p = Some pl ->
  pool_call (S f) CONN_DEC cp (conn_dec_id pl) s = on_conn_dec (pool_call f) p cp s.
Proof.
  intros Hs Hp. cbn [pool_call].
  rewrite (find_handler_some _ _ _ (dec_handler p pl)); [done| |done|done|].
  - apply (ok_bus _ _ Hs). by exists p, pl; auto.
  - intros iv Hiv Hn Hi. apply (ok_bus _ _ Hs) in Hiv as (q & ql & Hq & [-> | ->]); [|done]. cbn in Hi.
    assert (p = q) as <- by (eapply (ok_distinct _ _ Hs); eauto). congruence.
Qed.

(** No pool has the number. *)
Lemma call_none f s name cp id : ok s -> name = CONN_INC \/ name = CONN_DEC ->
  (forall p pl, pools s !! p = Some pl -> (if decide (name = CONN_INC) then conn_inc_id pl else conn_dec_id pl) <> id) ->
  pool_call (S f) name cp id s = Ok s.
Proof.
  intros Hs Hname Hn. cbn [pool_call]. rewrite find_handler_none; [done|].
  intros iv Hiv [Hi He]. apply (ok_bus _ _ Hs) in Hiv as (q & ql & Hq & Hor).
  pose proof (Hn q ql Hq) as Hne.
  destruct Hname; subst name; destruct Hor; subst iv; try discriminate Hi; by apply Hne.
Qed.

(** ** [del_pool] *)
Lemma split_id_ok x s id l : ok_but x s -> (forall p, p ∈ l -> p ∈ poolList s ++ held s ++ x) ->
  exists keep gone, split_id s id l = Ok (keep, gone) /\ l ≡ₚ keep ++ gone /\
  (forall p, p ∈ gone <-> p ∈ l /\ exists pl, pools s !! p = Some pl /\ _id pl = id).
Proof.
  intros Hs. induction l as [|p l IH]; intros Hl; cbn [split_id].
  { exists [], []. split_and!; try done. intros p. split; [by intros ?%not_elem_of_nil|].
    by intros [?%not_elem_of_nil _]. }
  destruct (ok_pool _ _ p Hs) as (pl & -> & Hp); [apply Hl; by left|].
  destruct IH as (keep & gone & -> & Hperm & Hg); [intros; apply Hl; by right|]. cbn [mbind result_bind].
  destruct (Z.eqb_spec (_id pl) id) as [He|He]; eexists _, _; (split; [done|]); (split; [|]).
  - rewrite Hperm. solve_Permutation.
  - intros q. rewrite !elem_of_cons, Hg. split.
    + intros [->|[? ?]]; [split; [by left|by exists pl]|split; [by right|done]].
    + intros [[->|?] ?]; [by left|by right].
  - by rewrite Hperm.
  - intros q. rewrite elem_of_cons, Hg. split; [intros [? ?]; split; [by right|done]|].
    intros [[->|?] (ql & Hql & Hid)]; [congruence|by split; [|exists ql]].
Qed.

Lemma ok_split s keep gone : ok s -> poolList s ≡ₚ keep ++ gone -> ok_but (gone ++ []) (set_poolList s keep).
Proof.
  intros [H1 H2 H3 H4 H5 H6 H7 H8 H9] Hp. split; try done; cbn.
  - intros p. rewrite H5, Hp, !elem_of_app. tauto.
  - rewrite Hp in H6. by apply NoDup_app in H6 as (? & _ & _).
Qed.

(** The pools with the number go, the others stay as they are. *)
Lemma del_pool_ok s id : ok s -> exists s' gone,
  del_pool id s = Ok s' /\ ok s' /\ poolList s ≡ₚ poolList s' ++ gone /\
  dropped gone (set_poolList s (poolList s')) s' /\
  (forall p, p ∈ gone <-> p ∈ poolList s /\ exists pl, pools s !! p = Some pl /\ _id pl = id).
Proof.
  intros Hs. unfold del_pool.
  destruct (split_id_ok _ s id (poolList s) Hs) as (keep & gone & -> & Hperm & Hg).
  { intros p Hp. apply elem_of_app. by left. }
  cbn [mbind result_bind]. pose proof (ok_nodup _ _ Hs) as Hnd. rewrite Hperm in Hnd.
  apply NoDup_app in Hnd as (_ & _ & Hng).
  destruct (release_pools_ok gone [] _ (ok_split s keep gone Hs Hperm) Hng) as (s' & -> & Hs' & Hd).
  { intros p _. apply not_elem_of_nil. }
  assert (poolList s' = keep) as E by apply (dr_poolList _ _ _ Hd).
  exists s', gone. rewrite E. by split_and!.
Qed.

(** ** [add_pool] *)

(** The connections that a new pool makes. *)
Definition makes pl (cs cs' : gmap Z DBConn) (n n' : Z) : Prop :=
  n <= n' /\ (forall cp, is_Some (cs' !! cp) -> cp < n') /\
  (forall cp c, cs !! cp = Some c -> cs' !! cp = Some c) /\
  (forall cp c, cs' !! cp = Some c -> cs !! cp = Some c \/
     pool_index c = _id pl /\ c_inc_id c = conn_inc_id pl /\ c_dec_id c = conn_dec_id pl /\ n <= cp).

Lemma pool_add_info_run calls info p s pl : pools s !! p = Some pl ->
  pool_add_info calls info p s = Ok (with_conns s
    (<[next_conn s := mk_DBConn info (_id pl) None (conn_inc_id pl) (conn_dec_id pl)]> (dbconns s))
    (next_conn s + 1)).
Proof.
  intros Hp. unfold pool_add_info, pool_at. rewrite Hp. cbn [mbind result_bind].
  by rewrite quiet_connect.
Qed.

Lemma makes_one pl info s : (forall cp, is_Some (dbconns s !! cp) -> cp < next_conn s) ->
  makes pl (dbconns s) (<[next_conn s := mk_DBConn info (_id pl) None (conn_inc_id pl) (conn_dec_id pl)]> (dbconns s))
    (next_conn s) (next_conn s + 1).
Proof.
  intros Hf. split_and!; [lia|..].
  - intros cp [<-|Hc]%lookup_insert_is_Some'; [lia|]. apply Hf in Hc. lia.
  - intros cp c Hc. rewrite lookup_insert_ne; [done|]. intros E. assert (cp < next_conn s); [|lia].
    apply Hf. by exists c.
  - intros cp c [[<- <-]|[_ Hc]]%lookup_insert_Some; [right|by left]. cbn. split_and!; done || lia.
Qed.

Lemma pool_add_infos_run calls pl p l : forall s, pools s !! p = Some pl ->
  (forall cp, is_Some (dbconns s !! cp) -> cp < next_conn s) ->
  exists cs n, pool_add_infos calls l p s = Ok (with_conns s cs n) /\ makes pl (dbconns s) cs (next_conn s) n.
Proof.
  induction l as [|info l IH]; intros s Hp Hf; cbn [pool_add_infos].
  - exists (dbconns s), (next_conn s). split; [by destruct s|]. split_and!; [lia|done..|by left].
  - rewrite (pool_add_info_run _ _ _ _ pl) by done. cbn [mbind result_bind].
    destruct (makes_one pl info s Hf) as (M1 & M2 & M3 & M4).
    destruct (IH (with_conns s _ (next_conn s + 1)) Hp M2) as (cs & n & -> & N1 & N2 & N3 & N4).
    exists cs, n. split; [done|]. cbn in *. split_and!; [lia|done|auto|].
    intros cp c Hc. destruct (N4 cp c Hc) as [Ho|(?&?&?&?)]; [by apply M4|right; split_and!; done || lia].
Qed.

(** A pool at the end of the list, that nobody reported to. *)
Record added s s' (p : Z) pl : Prop := {
  ad_list : poolList s' = poolList s ++ [p];
  ad_pools : pools s' = <[p := pl]> (pools s);
  ad_new : pools s !! p = None;
  ad_empty : DBInsLocalList pl = [] /\ DBInsRemoteList pl = [];
  ad_ids : uniqueID s <= conn_dec_id pl < conn_inc_id pl /\ conn_inc_id pl < _id pl < uniqueID s';
  ad_infos : infoList s' = infoList s;
  ad_held : held s' = held s;
  ad_makes : exists pl0, _id pl0 = junk_id p /\ conn_inc_id pl0 = conn_inc_id pl /\
    conn_dec_id pl0 = conn_dec_id pl /\ makes pl0 (dbconns s) (dbconns s') (next_conn s) (next_conn s');
  ad_at : p = next_pool s
}.

Lemma ok_added s s' p pl : ok s -> added s s' p pl -> mgr_bus s' = mgr_bus s -> m_inc_id s' = m_inc_id s ->
  m_dec_id s' = m_dec_id s -> pool_bus s' = inc_handler p pl :: dec_handler p pl :: pool_bus s ->
  pool_inc_id pl = m_inc_id s -> pool_dec_id pl = m_dec_id s -> next_pool s = p -> next_pool s' = p + 1 -> ok s'.
Proof.
  intros [H1 H2 H3 H4 H5 H6 H7 H8 H9] [A1 A2 A3 [A4 A5] A6 A7 A8 (pl0 & _ & _ & _ & M1 & M2 & M3 & M4) _]
    E1 E2 E3 E4 E5 E6 E7 E8.
  assert (forall q ql, pools s' !! q = Some ql -> (q = p /\ ql = pl) \/ (q <> p /\ pools s !! q = Some ql)) as Hq.
  { intros q ql. rewrite A2. intros [[<- <-]|[Hne Hq]]%lookup_insert_Some; auto. }
  assert (keeps_info (dbconns s) (dbconns s')) as Hk by (intros cp c Hc; exists c; auto).
  split; rewrite ?E1, ?E2, ?E3, ?A1, ?A8; try done.
  - intros iv. rewrite E4, !elem_of_cons, H2. split.
    + intros [->|[->|(q & ql & Hql & Hor)]]; [by exists p, pl; rewrite A2, lookup_insert_eq; auto..|].
      exists q, ql. rewrite A2, lookup_insert_ne by congruence. done.
    + intros (q & ql & [[-> ->]|[_ Hql]]%Hq & Hor); [tauto|]. right; right. by exists q, ql.
  - intros q ql [[-> ->]|[_ Hql]]%Hq; [split_and!; done || lia|].
    destruct (H3 q ql Hql) as (?&?&?&?&?). split_and!; done || lia.
  - intros q1 q2 ql1 ql2 [[-> ->]|[_ Hq1]]%Hq [[-> ->]|[_ Hq2]]%Hq He; [done| | |by eapply H4].
    + destruct (H3 _ _ Hq2) as (?&?&?&_). lia.
    + destruct (H3 _ _ Hq1) as (?&?&?&_). lia.
  - intros q. rewrite A2, lookup_insert_is_Some', H5, !elem_of_app, list_elem_of_singleton.
    split; [intros [->|[?|?]]; tauto|intros [[?| ->]|?]; tauto].
  - apply NoDup_app. split; [done|]. split; [|apply NoDup_singleton].
    intros q Hin ->%list_elem_of_singleton. destruct (proj2 (H5 p)) as [ql Hql]; [|congruence].
    apply elem_of_app. by left.
  - intros q [ql [[-> _]|[_ Hql]]%Hq]; [lia|]. assert (q < next_pool s) by (apply H7; by exists ql). lia.
  - intros q ql [[-> ->]|[_ Hql]]%Hq; [rewrite A4, A5; split; constructor|].
    destruct (H9 q ql Hql). split; by eapply lends_keeps.
Qed.

Lemma add_pool_ok calls s : ok s -> - 2 ^ 31 <= uniqueID s -> uniqueID s + 3 < 2 ^ 31 ->
  exists s' p pl, add_pool calls s = Ok (_id pl, s') /\ ok s' /\ added s s' p pl /\ uniqueID s' = uniqueID s + 3.
Proof.
  intros Hs Hlo Hhi. unfold add_pool, new_pool, register_handler, getUniqueID, register_handler_id.
  rewrite (s32_id (uniqueID s + 1)) by lia. rewrite (s32_id (uniqueID s + 1 + 1)) by lia.
  set (p := next_pool s). set (pl0 := mk_pool (junk_id p) _ _ _ _ [] []). set (s0 := mk_state _ _ _ _ _ _ _ _ _ _ _ _).
  assert (pools s0 !! p = Some pl0) as Hp0 by apply lookup_insert_eq.
  destruct (pool_add_infos_run calls pl0 p (infoList s0) s0 Hp0 (ok_fresh_conn _ _ Hs)) as (cs & n & -> & Hm).
  cbn [mbind result_bind]. unfold pool_at. change (pools (with_conns s0 cs n)) with (pools s0).
  rewrite Hp0. cbn [mbind result_bind]. cbn [uniqueID with_conns s0].
  rewrite (s32_id (uniqueID s + 1 + 1 + 1)) by lia. cbn [with_conns infoList poolList m_inc_id m_dec_id
    next_pool dbconns next_conn pool_bus mgr_bus held s0 pl0 conn_inc_id conn_dec_id DBInsLocalList DBInsRemoteList].
  set (pl := mk_pool _ _ _ _ _ [] []).
  assert (pools s !! p = None) as Hnew.
  { destruct (pools s !! p) as [ql|] eqn:E; [|done]. assert (p < next_pool s); [|unfold p in *; lia].
    apply (ok_fresh_pool _ _ Hs). by exists ql. }
  match goal with |- context [Ok (_, ?s')] => assert (added s s' p pl) as Ha end.
  { split; cbn; try done; [by rewrite insert_insert_eq|lia|]. by exists pl0. }
  eexists _, p, pl. split; [done|]. split; [|split; [exact Ha|cbn; lia]].
  eapply ok_added; [exact Hs|exact Ha|done..].
Qed.
End facts.
