(* ===== verification/ConnOps.v ===== *)
(** * ConnOps: what reports and calls of the application do

    Each operation keeps the invariant of [ConnFacts]; [evolves] says how the
    lists of the pools may change. *)
From S2P Require Import Prelude Mem StdMap ConnManager ConnFacts.
From stdpp Require Import list list_numbers strings gmap relations.
From Stdlib Require Import ZArith Lia.
Open Scope Z_scope.

Section ops.
Context {CN : Connect} {U : Uninit} {Q : QuietConnect}.
Implicit Types (s : state) (pl : connPool) (c : DBConn).

(** ** Evolution *)
Definition conns_of pl : list Z := DBInsLocalList pl ++ DBInsRemoteList pl.

(** The connection is of this pool. *)
Definition belongs c pl : Prop := c_inc_id c = conn_inc_id pl /\ pool_index c = _id pl.

Definition same_ids pl pl' : Prop :=
  _id pl' = _id pl /\ conn_inc_id pl' = conn_inc_id pl /\ conn_dec_id pl' = conn_dec_id pl.

(** Connections keep what they are; a connection comes into the lists of a
    pool only if it belongs to it; a new pool has no connections and new
    numbers. *)
Record evolves s s' : Prop := {
  ev_conns cp c : dbconns s !! cp = Some c -> exists c', dbconns s' !! cp = Some c' /\
    pool_index c' = pool_index c /\ c_inc_id c' = c_inc_id c;
  ev_pools p pl' : pools s' !! p = Some pl' ->
    (exists pl, pools s !! p = Some pl /\ same_ids pl pl' /\
       forall cp, cp ∈ conns_of pl' -> cp ∈ conns_of pl \/ exists c, dbconns s !! cp = Some c /\ belongs c pl) \/
    uniqueID s <= conn_inc_id pl' /\ conns_of pl' = [];
  ev_ids : uniqueID s <= uniqueID s'
}.

Lemma evolves_refl s : evolves s s.
Proof. split; [naive_solver| |lia]. intros p pl Hp. left. exists pl. split_and!; auto. by split_and!. Qed.

(** One pool changes. *)
Lemma evolves_pool s p pl l r : pools s !! p = Some pl ->
  (forall cp, cp ∈ l ++ r -> cp ∈ conns_of pl \/ exists c, dbconns s !! cp = Some c /\ belongs c pl) ->
  evolves s (set_pool s p (set_lists pl l r)).
Proof.
  intros Hp Hl. split; cbn; [naive_solver| |lia].
  intros q ql [[<- <-]|[_ Hq]]%lookup_insert_Some; left.
  - exists pl. by split_and!.
  - exists ql. split_and!; auto. by split_and!.
Qed.

Lemma evolves_conns s cs n : (forall cp c, dbconns s !! cp = Some c -> exists c', cs !! cp = Some c' /\
    pool_index c' = pool_index c /\ c_inc_id c' = c_inc_id c) ->
  evolves s (with_conns s cs n).
Proof.
  intros Hk. split; cbn; [done| |lia]. intros p pl Hp. left. exists pl. split_and!; auto. by split_and!.
Qed.

Lemma evolves_frame s s' : pools s' = pools s -> dbconns s' = dbconns s -> uniqueID s' = uniqueID s ->
  evolves s s'.
Proof.
  intros E1 E2 E3. destruct (evolves_refl s) as [R1 R2 R3].
  split; [by rewrite E2|by rewrite E1|lia].
Qed.

Lemma evolves_dropped l s s' : dropped l s s' -> evolves s s'.
Proof.
  intros [D1 D2 D3 D4 D5 D6 D7]. split; [rewrite D4; naive_solver| |lia].
  intros p pl Hp. assert (pools s !! p = Some pl) as Hp'.
  { destruct (decide (p ∈ l)) as [Hin|Hin]; [|rewrite <- D6 by done; done].
    rewrite D7 in Hp by done. by case_decide. }
  left. exists pl. split_and!; auto. by split_and!.
Qed.

Lemma evolves_added s s' p pl : added s s' p pl -> evolves s s'.
Proof.
  intros [A1 A2 A3 [A4 A5] A6 A7 A8 (pl0 & _ & _ & _ & _ & _ & M3 & _) _]. split; [|rewrite A2|lia].
  - intros cp c Hc. exists c. by auto.
  - intros q ql [[<- <-]|[_ Hq]]%lookup_insert_Some.
    + right. unfold conns_of. rewrite A4, A5. split; [lia|done].
    + left. exists ql. split_and!; auto. by split_and!.
Qed.

(** ** Every pool in turn *)
Lemma after_split p pre rest : p ∉ pre -> after p (pre ++ p :: rest) = Some rest.
Proof.
  induction pre as [|q pre IH]; intros Hp; cbn [after app]; [by rewrite Z.eqb_refl|].
  rewrite not_elem_of_cons in Hp. destruct (Z.eqb_spec q p) as [->|_]; [tauto|]. apply IH; tauto.
Qed.

Lemma each_pool_run (P : state -> Prop) f l :
  (forall p s, P s -> poolList s = l -> p ∈ l -> exists s', f p s = Ok s' /\ P s' /\ poolList s' = l) -> NoDup l ->
  forall rest fuel pre s, l = pre ++ rest -> P s -> poolList s = l -> (length rest <= fuel)%nat ->
  exists s', each_pool fuel f rest s = Ok s' /\ P s' /\ poolList s' = l.
Proof.
  intros Hf Hnd. induction rest as [|p rest IH]; intros fuel pre s Hl Hs E Hn; [by exists s; destruct fuel|].
  destruct fuel as [|fuel]; [cbn in Hn; lia|]. cbn [each_pool].
  destruct (Hf p s Hs E) as (s1 & -> & Hs1 & E1); [rewrite Hl; apply elem_of_app; right; by left|].
  assert (after p (poolList s1) = Some rest) as Ea.
  { rewrite E1. pose proof Hnd as Hnd'. rewrite Hl in Hnd' |- *. apply after_split.
    apply NoDup_app in Hnd' as (_ & Hd & _). intros Hin. apply (Hd p Hin). by left. }
  cbn [mbind result_bind]. rewrite Ea.
  apply (IH fuel (pre ++ [p])); [by rewrite <- app_assoc|done|done|cbn in Hn; lia].
Qed.

(** ** Addresses *)

(** The state is fine, and comes from [s0]. *)
Definition sound s0 s : Prop := ok s /\ rtc evolves s0 s /\ uniqueID s = uniqueID s0 /\ held s = held s0.

Lemma sound_next s0 s s' : sound s0 s -> ok s' -> evolves s s' -> uniqueID s' = uniqueID s -> held s' = held s -> sound s0 s'.
Proof.
  intros (_ & R & E1 & E2) H He E3 E4. split_and!; [done| |congruence..]. by eapply rtc_r.
Qed.

Lemma sound_refl s : ok s -> sound s s.
Proof. intros Hs. split; [done|]. by split; [apply rtc_refl|]. Qed.

Lemma pool_add_info_sound calls info p s0 s : sound s0 s -> p ∈ poolList s ->
  exists s', pool_add_info calls info p s = Ok s' /\ sound s0 s' /\ poolList s' = poolList s /\ pools s' = pools s.
Proof.
  intros Hs Hp. pose proof (proj1 Hs) as Ho.
  destruct (ok_pool _ _ p Ho) as (pl & _ & Hpl); [apply elem_of_app; by left|].
  rewrite (pool_add_info_run _ _ _ _ pl) by done.
  destruct (makes_one pl info s (ok_fresh_conn _ _ Ho)) as (_ & M2 & M3 & _).
  eexists. split; [done|]. split_and!; try done. eapply sound_next; try done.
  - apply ok_conns; [done| |done]. intros cp c Hc. exists c. auto.
  - apply evolves_conns. intros cp c Hc. exists c. auto.
Qed.

Lemma add_conn_sound calls fuel info s : ok s -> (length (poolList s) <= fuel)%nat ->
  exists s', add_conn calls fuel info s = Ok s' /\ sound s s' /\ poolList s' = poolList s /\ pools s' = pools s.
Proof.
  intros Hs Hn. unfold add_conn. set (s0 := set_infoList s _).
  assert (sound s s0) as H0.
  { eapply sound_next; [by apply sound_refl|by apply ok_infoList|by apply evolves_frame|done..]. }
  destruct (each_pool_run (fun t => sound s t /\ pools t = pools s) (pool_add_info calls info) (poolList s))
    with (rest := poolList s0) (fuel := fuel) (pre := @nil Z) (s := s0) as (s' & E & [H1 H2] & H3); try done.
  - intros p t [Ht Hp] El Hin.
    destruct (pool_add_info_sound calls info p s t Ht) as (t' & E & H1 & H2 & H3); [by rewrite El|].
    exists t'. split_and!; congruence.
  - apply (ok_nodup _ _ Hs).
  - exists s'. by split_and!.
Qed.

Lemma remove_info_run s info b l : lends s b l -> exists l', remove_info s info l = Ok l' /\
  lends s b l' /\ (forall cp, cp ∈ l' <-> cp ∈ l /\ forall c, dbconns s !! cp = Some c -> info_eq (_info c) info = false).
Proof.
  induction l as [|cp l IH]; intros Hl; cbn [remove_info].
  { exists []. split_and!; try done. intros cp. split; [by intros ?%not_elem_of_nil|by intros [?%not_elem_of_nil _]]. }
  apply Forall_cons in Hl as [(c & Hc & Ht) Hl]. destruct (IH Hl) as (l' & -> & Hl' & Hin).
  unfold conn_at. rewrite Hc. cbn [mbind result_bind]. destruct (info_eq (_info c) info) eqn:E.
  - exists l'. split_and!; try done. intros cp'. rewrite Hin, elem_of_cons. split; [tauto|].
    intros [[->|?] Hne]; [|done]. rewrite (Hne c Hc) in E. done.
  - exists (cp :: l'). split_and!; [done|constructor; [by exists c|done]|]. intros cp'.
    rewrite !elem_of_cons, Hin. split; [|tauto]. intros [->|[? ?]]; [|tauto]. split; [tauto|].
    intros c' Hc'. congruence.
Qed.

Lemma pool_del_info_sound info p s0 s : sound s0 s -> p ∈ poolList s ->
  exists s', pool_del_info info p s = Ok s' /\ sound s0 s' /\ poolList s' = poolList s.
Proof.
  intros Hs Hp. pose proof (proj1 Hs) as Ho.
  destruct (ok_pool _ _ p Ho) as (pl & E & Hpl); [apply elem_of_app; by left|].
  destruct (ok_lends _ _ Ho p pl Hpl) as [Hl Hr]. unfold pool_del_info. rewrite E. cbn [mbind result_bind].
  destruct (conn_type info =? 0).
  - destruct (remove_info_run s info true _ Hl) as (l & -> & Hl' & Hin). cbn [mbind result_bind].
    eexists. split; [done|]. split; [|done]. eapply sound_next; try done; [by apply ok_set_lists|].
    apply evolves_pool; [done|]. intros cp. unfold conns_of. rewrite !elem_of_app, Hin. tauto.
  - destruct (remove_info_run s info false _ Hr) as (r & -> & Hr' & Hin). cbn [mbind result_bind].
    eexists. split; [done|]. split; [|done]. eapply sound_next; try done; [by apply ok_set_lists|].
    apply evolves_pool; [done|]. intros cp. unfold conns_of. rewrite !elem_of_app, Hin. tauto.
Qed.

Lemma del_conn_sound fuel info s : ok s -> (length (poolList s) <= fuel)%nat ->
  exists s', del_conn fuel info s = Ok s' /\ sound s s' /\ poolList s' = poolList s.
Proof.
  intros Hs Hn. unfold del_conn. set (s0 := set_infoList s _).
  assert (sound s s0) as H0.
  { eapply sound_next; [by apply sound_refl|by apply ok_infoList|by apply evolves_frame|done..]. }
  destruct (each_pool_run (sound s) (pool_del_info info) (poolList s))
    with (rest := poolList s0) (fuel := fuel) (pre := @nil Z) (s := s0) as (s' & E & H1 & H3); try done.
  - intros p t Ht El Hin. rewrite <- El in Hin.
    destruct (pool_del_info_sound info p s t Ht Hin) as (t' & E & H1 & H2). exists t'. split_and!; congruence.
  - apply (ok_nodup _ _ Hs).
  - exists s'. by split_and!.
Qed.

(** ** Reports of pools to the manager *)
Lemma has_id_run s id l : ok s -> (forall p, p ∈ l -> p ∈ poolList s) ->
  exists b, has_id s id l = Ok b /\
    (b = true <-> exists p pl, p ∈ l /\ pools s !! p = Some pl /\ _id pl = id).
Proof.
  intros Hs. induction l as [|p l IH]; intros Hl; cbn [has_id].
  { exists false. split; [done|]. split; [done|]. by intros (? & ? & ?%not_elem_of_nil & _). }
  destruct (ok_pool _ _ p Hs) as (pl & -> & Hp); [apply elem_of_app; left; apply Hl; by left|].
  cbn [mbind result_bind]. destruct (Z.eqb_spec (_id pl) id) as [He|He].
  - exists true. split; [done|]. split; [|done]. intros _. exists p, pl. split; [by left|done].
  - destruct IH as (b & -> & Hb); [intros; apply Hl; by right|]. exists b. split; [done|].
    rewrite Hb. split; [intros (q & ql & ? & ?); exists q, ql; split; [by right|done]|].
    intros (q & ql & [->|?]%elem_of_cons & Hq & Hi); [congruence|by exists q, ql].
Qed.

Lemma mgr_inc calls s p pl : ok s -> pools s !! p = Some pl ->
  mgr_call calls POOL_INC p (pool_inc_id pl) s =
    if decide (p ∈ poolList s) then Ok s else ('(_, s) ← add_pool calls s; Ok s).
Proof.
  intros Hs Hp. unfold mgr_call. rewrite (ok_mgr _ _ Hs).
  destruct (ok_ids _ _ Hs p pl Hp) as (_ & _ & _ & -> & _).
  change (find_handler POOL_INC _ _) with
    (if m_inc_id s =? m_inc_id s then Some (OnPoolInc, MANAGER) else None).
  rewrite Z.eqb_refl. unfold pool_at. rewrite Hp. cbn [mbind result_bind].
  destruct (has_id_run s (_id pl) (poolList s) Hs) as (b & -> & Hb); [done|]. cbn [mbind result_bind].
  case_decide as Hd.
  - assert (b = true) as ->; [|done]. apply Hb. by exists p, pl.
  - destruct b; [|done]. exfalso. destruct (proj1 Hb eq_refl) as (q & ql & Hq & Hql & Hi).
    assert (q = p) as ->; [|done]. eapply (ok_distinct _ _ Hs); eauto.
Qed.

(** The pool goes; who has a pointer to it keeps it. *)
Lemma mgr_dec calls s p pl : ok s -> pools s !! p = Some pl ->
  exists s' gone, mgr_call calls POOL_DEC p (pool_dec_id pl) s = Ok s' /\ ok s' /\
    poolList s ≡ₚ poolList s' ++ gone /\ dropped gone (set_poolList s (poolList s')) s' /\
    (forall q, q ∈ gone <-> q = p /\ p ∈ poolList s).
Proof.
  intros Hs Hp. unfold mgr_call. rewrite (ok_mgr _ _ Hs).
  destruct (ok_ids _ _ Hs p pl Hp) as (_ & _ & _ & _ & ->).
  change (find_handler POOL_DEC _ _) with
    (if m_dec_id s =? m_dec_id s then Some (OnPoolDec, MANAGER)
     else find_handler POOL_DEC (m_dec_id s) [mk_invoker POOL_INC OnPoolInc MANAGER (m_inc_id s)]).
  rewrite Z.eqb_refl. unfold pool_at. rewrite Hp. cbn [mbind result_bind].
  destruct (del_pool_ok s (_id pl) Hs) as (s' & gone & -> & Hs' & Hperm & Hd & Hg).
  exists s', gone. split_and!; try done. intros q. rewrite Hg. split.
  - intros (Hq & ql & Hql & Hi). assert (q = p) as -> by (eapply (ok_distinct _ _ Hs); eauto). done.
  - intros [-> Hin]. split; [done|]. by exists pl.
Qed.

(** ** Reports of connections *)

(** The lists after a connection reported. *)
Definition joined cp c pl : connPool :=
  if conn_type (_info c) =? 0 then set_lists pl (DBInsLocalList pl ++ [cp]) (DBInsRemoteList pl)
  else set_lists pl (DBInsLocalList pl) (DBInsRemoteList pl ++ [cp]).
Definition left_out cp c pl : connPool :=
  if conn_type (_info c) =? 0 then set_lists pl (filter (fun db => db <> cp) (DBInsLocalList pl)) (DBInsRemoteList pl)
  else set_lists pl (DBInsLocalList pl) (filter (fun db => db <> cp) (DBInsRemoteList pl)).

Lemma pool_add_conn_run s p pl cp c : ok s -> pools s !! p = Some pl -> dbconns s !! cp = Some c -> belongs c pl ->
  pool_add_conn p cp s = Ok (set_pool s p (joined cp c pl)) /\ ok (set_pool s p (joined cp c pl)) /\
  evolves s (set_pool s p (joined cp c pl)).
Proof.
  intros Hs Hp Hc Hb. destruct (ok_lends _ _ Hs p pl Hp) as [Hl Hr].
  unfold pool_add_conn, joined, pool_at, conn_at. rewrite Hp, Hc. cbn [mbind result_bind].
  destruct (conn_type (_info c) =? 0) eqn:E; (split; [done|]); split.
  - apply ok_set_lists; [done..| |done]. apply Forall_app. split; [done|]. repeat constructor. by exists c.
  - apply evolves_pool; [done|]. intros cp'. unfold conns_of. rewrite !elem_of_app, list_elem_of_singleton.
    intros [[?| ->]|?]; [tauto|right; by exists c|tauto].
  - apply ok_set_lists; [done..|]. apply Forall_app. split; [done|]. repeat constructor. by exists c.
  - apply evolves_pool; [done|]. intros cp'. unfold conns_of. rewrite !elem_of_app, list_elem_of_singleton.
    intros [?|[?| ->]]; [tauto|tauto|right; by exists c].
Qed.

Lemma pool_del_conn_run s p pl cp c : ok s -> pools s !! p = Some pl -> dbconns s !! cp = Some c ->
  pool_del_conn p cp s = Ok (set_pool s p (left_out cp c pl)) /\ ok (set_pool s p (left_out cp c pl)) /\
  evolves s (set_pool s p (left_out cp c pl)).
Proof.
  intros Hs Hp Hc. destruct (ok_lends _ _ Hs p pl Hp) as [Hl Hr].
  unfold pool_del_conn, left_out, pool_at, conn_at. rewrite Hp, Hc. cbn [mbind result_bind].
  destruct (conn_type (_info c) =? 0) eqn:E; (split; [done|]); split.
  - apply ok_set_lists; try done. unfold lends. rewrite Forall_forall. intros x [_ Hx]%list_elem_of_filter.
    by apply (proj1 (Forall_forall _ _) Hl).
  - apply evolves_pool; [done|]. intros cp'. unfold conns_of. rewrite !elem_of_app, list_elem_of_filter. tauto.
  - apply ok_set_lists; try done. unfold lends. rewrite Forall_forall. intros x [_ Hx]%list_elem_of_filter.
    by apply (proj1 (Forall_forall _ _) Hr).
  - apply evolves_pool; [done|]. intros cp'. unfold conns_of. rewrite !elem_of_app, list_elem_of_filter. tauto.
Qed.

(** *** A connection is up *)
Definition said (b : bool) c : DBConn := mk_DBConn (_info c) (pool_index c) (Some b) (c_inc_id c) (c_dec_id c).

Lemma said_sound s cp c b : ok s -> dbconns s !! cp = Some c -> sound s (set_conn s cp (said b c)).
Proof.
  intros Hs Hc. change (set_conn s cp (said b c)) with (with_conns s (<[cp := said b c]> (dbconns s)) (next_conn s)).
  assert (forall cp' c', dbconns s !! cp' = Some c' -> exists c'', <[cp := said b c]> (dbconns s) !! cp' = Some c'' /\
    _info c'' = _info c' /\ pool_index c'' = pool_index c' /\ c_inc_id c'' = c_inc_id c') as Hk.
  { intros cp' c' Hc'. destruct (decide (cp = cp')) as [<-|Hne].
    - rewrite lookup_insert_eq. exists (said b c). split; [done|]. assert (c' = c) as -> by congruence. done.
    - rewrite lookup_insert_ne by done. by exists c'. }
  eapply sound_next; [by apply sound_refl|..|done|done].
  - apply ok_conns; [done| |].
    + intros cp' c' Hc'. destruct (Hk _ _ Hc') as (c'' & ? & ? & _). by exists c''.
    + intros cp' [<-|?]%lookup_insert_is_Some'; apply (ok_fresh_conn _ _ Hs); [by exists c|done].
  - apply evolves_conns. intros cp' c' Hc'. destruct (Hk _ _ Hc') as (c'' & ? & _ & ?). by exists c''.
Qed.

Lemma on_conn_inc_run calls s p pl cp c : ok s -> pools s !! p = Some pl -> dbconns s !! cp = Some c ->
  on_conn_inc calls p cp s =
    if pool_index c =? _id pl then
      s ← (if pool_empty pl && negb (bool_decide (p ∈ poolList s))
           then ('(_, s) ← add_pool calls s; Ok s) else Ok s);
      pool_add_conn p cp s
    else Ok s.
Proof.
  intros Hs Hp Hc. unfold on_conn_inc, conn_at, pool_at. rewrite Hp, Hc. cbn [mbind result_bind].
  destruct (pool_index c =? _id pl); [|done]. destruct (pool_empty pl); [|done].
  rewrite mgr_inc by done. case_decide; [by rewrite bool_decide_eq_true_2|by rewrite bool_decide_eq_false_2].
Qed.

(** What the bus does with the number of a connection. *)
Lemma inc_cases f s cp id : ok s ->
  (exists p pl, pools s !! p = Some pl /\ conn_inc_id pl = id /\
     pool_call (S f) CONN_INC cp id s = on_conn_inc (pool_call f) p cp s) \/
  ((forall p pl, pools s !! p = Some pl -> conn_inc_id pl <> id) /\ pool_call (S f) CONN_INC cp id s = Ok s).
Proof.
  intros Hs. destruct (decide (map_Exists (fun _ pl => conn_inc_id pl = id) (pools s))) as [(p & pl & Hp & <-)|Hn].
  - left. exists p, pl. split_and!; [done..|by apply call_inc].
  - right. assert (forall p pl, pools s !! p = Some pl -> conn_inc_id pl <> id) as Hno.
    { intros p pl Hp E. apply Hn. by exists p, pl. }
    split; [done|]. apply call_none; [done|by left|done].
Qed.

Lemma dec_cases f s cp id : ok s ->
  (exists p pl, pools s !! p = Some pl /\ conn_dec_id pl = id /\
     pool_call (S f) CONN_DEC cp id s = on_conn_dec (pool_call f) p cp s) \/
  ((forall p pl, pools s !! p = Some pl -> conn_dec_id pl <> id) /\ pool_call (S f) CONN_DEC cp id s = Ok s).
Proof.
  intros Hs. destruct (decide (map_Exists (fun _ pl => conn_dec_id pl = id) (pools s))) as [(p & pl & Hp & <-)|Hn].
  - left. exists p, pl. split_and!; [done..|by apply call_dec].
  - right. assert (forall p pl, pools s !! p = Some pl -> conn_dec_id pl <> id) as Hno.
    { intros p pl Hp E. apply Hn. by exists p, pl. }
    split; [done|]. apply call_none; [done|by right|done].
Qed.

(** The numbers do not run out. *)
Definition roomy s : Prop := - 2 ^ 31 <= uniqueID s /\ uniqueID s + 3 < 2 ^ 31.

(** What every operation does. *)
Definition stays s s' : Prop :=
  ok s' /\ rtc evolves s s' /\ uniqueID s <= uniqueID s' <= uniqueID s + 3.

Lemma sound_stays s s' : sound s s' -> stays s s'.
Proof. intros (H1 & H2 & H3 & _). split_and!; [done..|lia|lia]. Qed.

Lemma stays_refl s : ok s -> stays s s.
Proof. intros Hs. by apply sound_stays, sound_refl. Qed.

Lemma onConnected_stays f s cp c : ok s -> roomy s -> dbconns s !! cp = Some c ->
  exists s', onConnected (pool_call (S f)) cp s = Ok s' /\ stays s s'.
Proof.
  intros Hs [Hlo Hhi] Hc. unfold onConnected, conn_at. rewrite Hc. cbn [mbind result_bind].
  change (mk_DBConn _ _ _ _ _) with (said true c).
  pose proof (said_sound s cp c true Hs Hc) as (Hs1 & R1 & Eid & Eh).
  assert (dbconns (set_conn s cp (said true c)) !! cp = Some (said true c)) as Hc1 by apply lookup_insert_eq.
  set (s1 := set_conn s cp (said true c)) in *.
  destruct (inc_cases f s1 cp (c_inc_id c) Hs1) as [(p & pl & Hp & Hi & ->)|[_ ->]].
  2: { exists s1. split; [done|]. split_and!; done || lia. }
  rewrite (on_conn_inc_run _ _ _ _ _ _ Hs1 Hp Hc1).
  destruct (Z.eqb_spec (pool_index (said true c)) (_id pl)) as [Hx|_].
  2: { exists s1. split; [done|]. split_and!; done || lia. }
  destruct (_ && _).
  - destruct (add_pool_ok (pool_call f) s1 Hs1) as (s2 & q & ql & -> & Hs2 & Ha & Eid2); [lia|lia|].
    cbn [mbind result_bind]. pose proof (evolves_added _ _ _ _ Ha) as Hev.
    assert (pools s2 !! p = Some pl) as Hp2.
    { rewrite (ad_pools _ _ _ _ Ha), lookup_insert_ne; [done|]. intros ->. by rewrite (ad_new _ _ _ _ Ha) in Hp. }
    assert (dbconns s2 !! cp = Some (said true c)) as Hc2.
    { destruct (ad_makes _ _ _ _ Ha) as (? & _ & _ & _ & _ & _ & M3 & _). by apply M3. }
    destruct (pool_add_conn_run s2 p pl cp _ Hs2 Hp2 Hc2) as (-> & Hs3 & Hev3); [by split|].
    eexists. split; [done|]. split; [done|]. split; [|cbn; lia].
    eapply rtc_r; [|done]. by eapply rtc_r.
  - cbn [mbind result_bind].
    destruct (pool_add_conn_run s1 p pl cp _ Hs1 Hp Hc1) as (-> & Hs3 & Hev3); [by split|].
    eexists. split; [done|]. split; [done|]. split; [|cbn; lia]. by eapply rtc_r.
Qed.

Lemma on_conn_dec_run calls s p pl cp c : ok s -> pools s !! p = Some pl -> dbconns s !! cp = Some c ->
  on_conn_dec calls p cp s =
    if pool_index c =? _id pl then
      let s := set_pool s p (left_out cp c pl) in
      if pool_empty (left_out cp c pl) then mgr_call calls POOL_DEC p (pool_dec_id pl) s else Ok s
    else Ok s.
Proof.
  intros Hs Hp Hc. unfold on_conn_dec. destruct (pool_del_conn_run s p pl cp c Hs Hp Hc) as (-> & _).
  unfold conn_at, pool_at. rewrite Hp, Hc. cbn [mbind result_bind].
  destruct (pool_index c =? _id pl); [|done]. cbn [set_pool pools]. rewrite lookup_insert_eq.
  cbn [mbind result_bind]. unfold left_out. by destruct (conn_type (_info c) =? 0).
Qed.

Lemma onDisconnected_stays f s cp c : ok s -> dbconns s !! cp = Some c ->
  exists s', onDisconnected (pool_call (S f)) cp s = Ok s' /\ stays s s'.
Proof.
  intros Hs Hc. unfold onDisconnected, conn_at. rewrite Hc. cbn [mbind result_bind].
  change (mk_DBConn _ _ _ _ _) with (said false c).
  pose proof (said_sound s cp c false Hs Hc) as (Hs1 & R1 & Eid & Eh).
  assert (dbconns (set_conn s cp (said false c)) !! cp = Some (said false c)) as Hc1 by apply lookup_insert_eq.
  set (s1 := set_conn s cp (said false c)) in *.
  destruct (dec_cases f s1 cp (c_dec_id c) Hs1) as [(p & pl & Hp & Hi & ->)|[_ ->]].
  2: { exists s1. split; [done|]. split_and!; done || lia. }
  rewrite (on_conn_dec_run _ _ _ _ _ _ Hs1 Hp Hc1).
  destruct (Z.eqb_spec (pool_index (said false c)) (_id pl)) as [Hx|_].
  2: { exists s1. split; [done|]. split_and!; done || lia. }
  destruct (pool_del_conn_run s1 p pl cp _ Hs1 Hp Hc1) as (_ & Hs2 & Hev2). cbv zeta.
  set (s2 := set_pool s1 p _) in *. destruct (pool_empty _).
  2: { exists s2. split; [done|]. split; [done|]. split; [by eapply rtc_r|cbn; lia]. }
  assert (pools s2 !! p = Some (left_out cp (said false c) pl)) as Hp2 by apply lookup_insert_eq.
  destruct (mgr_dec (pool_call f) s2 p _ Hs2 Hp2) as (s3 & gone & E & Hs3 & _ & Hd & _).
  assert (pool_dec_id (left_out cp (said false c) pl) = pool_dec_id pl) as Epl.
  { unfold left_out. by destruct (_ =? _). }
  rewrite Epl in E. exists s3. split; [done|]. split; [done|].
  pose proof (evolves_dropped _ _ _ Hd) as Hev3.
  split; [|pose proof (dr_next _ _ _ Hd) as En; cbn in En; lia].
  eapply rtc_r; [eapply rtc_r; [eapply rtc_r; [exact R1|exact Hev2]|]|exact Hev3].
  by apply evolves_frame.
Qed.

(** ** Reports to a pool of the manager *)
Lemma connected_joins f s p pl cp c : ok s -> p ∈ poolList s -> pools s !! p = Some pl -> dbconns s !! cp = Some c ->
  pool_index c = _id pl -> c_inc_id c = conn_inc_id pl ->
  onConnected (pool_call (S f)) cp s = Ok (set_pool (set_conn s cp (said true c)) p (joined cp c pl)).
Proof.
  intros Hs Hin Hp Hc Hx Hi. unfold onConnected, conn_at. rewrite Hc. cbn [mbind result_bind].
  change (mk_DBConn _ _ _ _ _) with (said true c).
  pose proof (said_sound s cp c true Hs Hc) as (Hs1 & _). set (s1 := set_conn s cp (said true c)) in *.
  assert (dbconns s1 !! cp = Some (said true c)) as Hc1 by apply lookup_insert_eq.
  rewrite Hi, (call_inc f s1 p pl cp Hs1 Hp), (on_conn_inc_run _ _ _ _ _ _ Hs1 Hp Hc1).
  cbn [said pool_index]. rewrite Hx, Z.eqb_refl. change (poolList s1) with (poolList s).
  rewrite bool_decide_eq_true_2, andb_false_r by done. cbn [mbind result_bind].
  destruct (pool_add_conn_run s1 p pl cp _ Hs1 Hp Hc1) as (-> & _); [by split|done].
Qed.

Lemma disconnected_leaves f s p pl cp c : ok s -> p ∈ poolList s -> pools s !! p = Some pl -> dbconns s !! cp = Some c ->
  pool_index c = _id pl -> c_dec_id c = conn_dec_id pl -> exists s',
  onDisconnected (pool_call (S f)) cp s = Ok s' /\
  (forall q, q <> p -> pools s' !! q = pools s !! q) /\
  (pool_empty (left_out cp c pl) = false -> pools s' !! p = Some (left_out cp c pl) /\ poolList s' = poolList s) /\
  (pool_empty (left_out cp c pl) = true -> poolList s ≡ₚ p :: poolList s' /\ (p ∉ held s -> pools s' !! p = None /\
     forall iv, iv ∈ pool_bus s' -> iv_obj iv <> p)).
Proof.
  intros Hs Hin Hp Hc Hx Hd. unfold onDisconnected, conn_at. rewrite Hc. cbn [mbind result_bind].
  change (mk_DBConn _ _ _ _ _) with (said false c).
  pose proof (said_sound s cp c false Hs Hc) as (Hs1 & _). set (s1 := set_conn s cp (said false c)) in *.
  assert (dbconns s1 !! cp = Some (said false c)) as Hc1 by apply lookup_insert_eq.
  rewrite Hd, (call_dec f s1 p pl cp Hs1 Hp), (on_conn_dec_run _ _ _ _ _ _ Hs1 Hp Hc1).
  cbn [said pool_index]. rewrite Hx, Z.eqb_refl. cbv zeta.
  change (left_out cp (said false c) pl) with (left_out cp c pl).
  destruct (pool_del_conn_run s1 p pl cp _ Hs1 Hp Hc1) as (_ & Hs2 & _).
  change (left_out cp (said false c) pl) with (left_out cp c pl) in Hs2.
  set (s2 := set_pool s1 p (left_out cp c pl)) in *.
  assert (pools s2 !! p = Some (left_out cp c pl)) as Hp2 by apply lookup_insert_eq.
  destruct (pool_empty (left_out cp c pl)).
  2: { exists s2. split; [done|]. split; [|by split]. intros q Hq. cbn. by rewrite lookup_insert_ne. }
  assert (pool_dec_id (left_out cp c pl) = pool_dec_id pl) as Epl by (unfold left_out; by destruct (_ =? _)).
  destruct (mgr_dec (pool_call f) s2 p _ Hs2 Hp2) as (s3 & gone & E & Hs3 & Hperm & Hdr & Hg).
  rewrite Epl in E. exists s3. split; [done|].
  assert (gone ≡ₚ [p]) as Hgone.
  { apply NoDup_Permutation; [|apply NoDup_singleton|intros q; rewrite Hg, list_elem_of_singleton; tauto].
    pose proof (ok_nodup _ _ Hs2) as Hnd. rewrite Hperm in Hnd. by apply NoDup_app in Hnd as (_ & _ & ?). }
  split; [|split; [done|intros _; split]].
  - intros q Hq. rewrite (dr_others _ _ _ Hdr) by (rewrite Hg; tauto). cbn. by rewrite lookup_insert_ne.
  - change (poolList s) with (poolList s2). by rewrite Hperm, Hgone, Permutation_app_comm.
  - intros Hh. assert (pools s3 !! p = None) as Hnone.
    { rewrite (dr_gone _ _ _ Hdr) by (by rewrite Hg). apply decide_False. cbn.
      rewrite elem_of_app. intros [Hl|Hl]; [|done]. pose proof (ok_nodup _ _ Hs2) as Hnd.
      rewrite Hperm in Hnd. apply NoDup_app in Hnd as (_ & Hd' & _). apply (Hd' p Hl). by rewrite Hg. }
    split; [done|]. intros iv Hiv. apply (ok_bus _ _ Hs3) in Hiv as (q & ql & Hq & Hor).
    assert (iv_obj iv = q) as -> by (by destruct Hor; subst iv). congruence.
Qed.
End ops.
