(* ===== verification/ConnRuns.v ===== *)
(** * ConnRuns: an application, its connections and the manager

    Runs of calls and reports, in any order. *)
From S2P Require Import Prelude Mem StdMap ConnManager ConnFacts ConnOps.
From stdpp Require Import list list_numbers strings gmap relations.
From Stdlib Require Import ZArith Lia.
Open Scope Z_scope.

(** What the application and the connections do. The application may keep the
    pool that [get_pool] gives it, and drop it later. *)
Inductive op : Type :=
  | AddPool
  | DelPool (id : Z)
  | AddConn (info : ConnInfo)
  | DelConn (info : ConnInfo)
  | GetConn
  | GetPool
  | DropPool (p : Z)
  | Connected (cp : Z)
  | Disconnected (cp : Z).

Fixpoint remove_one (p : Z) (l : list Z) : list Z :=
  match l with
  | [] => []
  | q :: l => if q =? p then l else q :: remove_one p l
  end.

Section runs.
Context {CN : Connect} {U : Uninit}.
Implicit Types (s : state) (pl : connPool) (c : DBConn).

(** What is not there does nothing. *)
Definition run_op (o : op) s : result state :=
  match o with
  | AddPool => '(_, s) ← add_pool (pool_call 1) s; Ok s
  | DelPool id => del_pool id s
  | AddConn info => add_conn (pool_call 1) (length (poolList s)) info s
  | DelConn info => del_conn (length (poolList s)) info s
  | GetConn => '(_, s) ← get_conn s; Ok s
  | GetPool =>
      match get_pool s with
      | (Some p, s) => Ok (set_held s (p :: held s))
      | (None, s) => Ok s
      end
  | DropPool p =>
      if decide (p ∈ held s) then release_pool p (set_held s (remove_one p (held s))) else Ok s
  | Connected cp =>
      match dbconns s !! cp with Some _ => onConnected (pool_call 1) cp s | None => Ok s end
  | Disconnected cp =>
      match dbconns s !! cp with Some _ => onDisconnected (pool_call 1) cp s | None => Ok s end
  end.

Fixpoint run_ops (l : list op) s : result state :=
  match l with
  | [] => Ok s
  | o :: l => s ← run_op o s; run_ops l s
  end.

Context {Q : QuietConnect}.

(** ** Turns *)
Lemma to_back_perm l : to_back l ≡ₚ l.
Proof. destruct l as [|x l]; [done|]. cbn. by rewrite Permutation_app_comm. Qed.

Lemma lends_perm s b l l' : l' ≡ₚ l -> lends s b l -> lends s b l'.
Proof. intros Hp. unfold lends. by rewrite Hp. Qed.

(** The lists of a pool after it lent a connection. *)
Definition turned pl : connPool :=
  match DBInsLocalList pl with
  | [] => set_lists pl [] (to_back (DBInsRemoteList pl))
  | l => set_lists pl (to_back l) (DBInsRemoteList pl)
  end.
Definition lent pl : option Z :=
  match DBInsLocalList pl with [] => head (DBInsRemoteList pl) | x :: _ => Some x end.

Lemma set_pool_same s p pl : pools s !! p = Some pl -> set_pool s p pl = s.
Proof. intros Hp. unfold set_pool. rewrite insert_id by done. by destruct s. Qed.

Lemma pool_get_conn_run s p pl : pools s !! p = Some pl ->
  pool_get_conn p s = Ok (lent pl, set_pool s p (turned pl)).
Proof.
  intros Hp. unfold pool_get_conn, pool_at, lent, turned. rewrite Hp. cbn [mbind result_bind].
  destruct pl as [i1 i2 i3 i4 i5 l r]. destruct l as [|x l], r as [|y r]; try done.
  cbn [DBInsLocalList DBInsRemoteList head to_back set_lists]. by rewrite set_pool_same.
Qed.

Lemma turned_sound s0 s p pl : sound s0 s -> pools s !! p = Some pl -> sound s0 (set_pool s p (turned pl)).
Proof.
  intros Hs Hp. pose proof (proj1 Hs) as Ho. destruct (ok_lends _ _ Ho p pl Hp) as [Hl Hr].
  assert (exists l r, turned pl = set_lists pl l r /\ l ≡ₚ DBInsLocalList pl /\ r ≡ₚ DBInsRemoteList pl)
    as (l & r & -> & El & Er).
  { unfold turned. destruct (DBInsLocalList pl) as [|x l]; eexists _, _; (split; [done|]); split; try done;
      apply to_back_perm. }
  eapply sound_next; [done| | |done|done].
  - apply ok_set_lists; [done..| |]; by eapply lends_perm.
  - apply evolves_pool; [done|]. intros cp. rewrite El, Er. by left.
Qed.

Lemma get_conn_run s p rest : ok s -> poolList s = p :: rest -> exists pl, pools s !! p = Some pl /\
  get_conn s = Ok (lent pl, set_pool (set_poolList s (rest ++ [p])) p (turned pl)).
Proof.
  intros Hs E. destruct (ok_pool _ _ p Hs) as (pl & _ & Hp); [rewrite E; by left|].
  exists pl. split; [done|]. unfold get_conn, get_pool. rewrite E. cbn [to_back].
  by rewrite (pool_get_conn_run _ _ pl).
Qed.

Lemma rotated_sound s : ok s -> sound s (set_poolList s (to_back (poolList s))).
Proof.
  intros Hs. eapply sound_next; [by apply sound_refl| |by apply evolves_frame|done|done].
  apply ok_poolList; [done|apply to_back_perm].
Qed.

(** ** Every operation *)
Lemma remove_one_elem p l q : p ∈ l -> q ∈ l <-> q ∈ remove_one p l ++ [p].
Proof.
  induction l as [|x l IH]; intros Hp; [by apply not_elem_of_nil in Hp|]. cbn [remove_one].
  destruct (Z.eqb_spec x p) as [->|Hne].
  - rewrite elem_of_app, elem_of_cons, list_elem_of_singleton. tauto.
  - apply elem_of_cons in Hp as [->|Hp]; [done|]. cbn [app]. by rewrite !elem_of_cons, IH.
Qed.

Lemma ok_held_more s p : ok s -> p ∈ poolList s -> ok (set_held s (p :: held s)).
Proof.
  intros [H1 H2 H3 H4 H5 H6 H7 H8 H9] Hp. split; try done. cbn. intros q. rewrite H5.
  rewrite !elem_of_app, elem_of_cons, elem_of_app. split; [tauto|]. intros [?|[->|?]]; tauto.
Qed.

Lemma ok_held_less s p : ok s -> p ∈ held s -> ok_but [p] (set_held s (remove_one p (held s))).
Proof.
  intros [H1 H2 H3 H4 H5 H6 H7 H8 H9] Hp. split; try done. cbn. intros q. rewrite H5.
  rewrite !elem_of_app, (remove_one_elem p _ q Hp), elem_of_app.
  split; [|tauto]. intros [?|[?|?%not_elem_of_nil]]; tauto.
Qed.

Lemma run_op_stays o s : ok s -> roomy s -> exists s', run_op o s = Ok s' /\ stays s s'.
Proof.
  intros Hs Hr. destruct o as [|id|info|info| | |p|cp|cp]; cbn [run_op].
  - destruct (add_pool_ok (pool_call 1) s Hs) as (s' & p & pl & -> & Hs' & Ha & E); [apply Hr..|].
    exists s'. split; [done|]. split; [done|]. split; [|lia]. by eapply rtc_once, evolves_added.
  - destruct (del_pool_ok s id Hs) as (s' & gone & -> & Hs' & _ & Hd & _).
    exists s'. split; [done|]. split; [done|]. pose proof (dr_next _ _ _ Hd) as E. cbn in E. split; [|lia].
    eapply rtc_l; [|by eapply rtc_once, evolves_dropped]. by apply evolves_frame.
  - destruct (add_conn_sound (pool_call 1) (length (poolList s)) info s Hs) as (s' & -> & H & _); [done|].
    exists s'. split; [done|by apply sound_stays].
  - destruct (del_conn_sound (length (poolList s)) info s Hs) as (s' & -> & H & _); [done|].
    exists s'. split; [done|by apply sound_stays].
  - destruct (poolList s) as [|p rest] eqn:E.
    + unfold get_conn, get_pool. rewrite E. exists s. split; [done|by apply stays_refl].
    + destruct (get_conn_run s p rest Hs E) as (pl & Hp & ->). eexists. split; [done|].
      apply sound_stays, turned_sound; [|done]. pose proof (rotated_sound s Hs) as H. by rewrite E in H.
  - unfold get_pool. destruct (poolList s) as [|p rest] eqn:E; [exists s; split; [done|by apply stays_refl]|].
    eexists. split; [done|]. pose proof (rotated_sound s Hs) as (Ho & R & Ei & _). rewrite E in Ho, R, Ei.
    split; [|split; [|cbn; lia]].
    + apply (ok_held_more _ p Ho). cbn. rewrite elem_of_app. right. by left.
    + eapply rtc_r; [exact R|]. by apply evolves_frame.
  - case_decide as Hd; [|exists s; split; [done|by apply stays_refl]].
    destruct (release_pool_ok p [] _ (ok_held_less s p Hs Hd)) as (s' & -> & Hs' & D); [apply not_elem_of_nil|].
    exists s'. split; [done|]. split; [done|]. pose proof (dr_next _ _ _ D) as E. cbn in E. split; [|lia].
    eapply rtc_l; [|by eapply rtc_once, evolves_dropped]. by apply evolves_frame.
  - destruct (dbconns s !! cp) as [c|] eqn:Hc; [by eapply onConnected_stays|].
    exists s. split; [done|by apply stays_refl].
  - destruct (dbconns s !! cp) as [c|] eqn:Hc; [by eapply onDisconnected_stays|].
    exists s. split; [done|by apply stays_refl].
Qed.

Lemma run_ops_stays l : forall s, ok s -> - 2 ^ 31 <= uniqueID s -> uniqueID s + 3 * zlen l < 2 ^ 31 ->
  exists s', run_ops l s = Ok s' /\ ok s' /\ rtc evolves s s' /\ uniqueID s <= uniqueID s' <= uniqueID s + 3 * zlen l.
Proof.
  induction l as [|o l IH]; intros s Hs Hlo Hhi; cbn [run_ops length] in *.
  - exists s. split_and!; done || lia.
  - rewrite Nat2Z.inj_succ in *. destruct (run_op_stays o s Hs) as (s1 & -> & Hs1 & R1 & E1); [by split; lia|].
    cbn [mbind result_bind].
    destruct (IH s1 Hs1) as (s2 & -> & Hs2 & R2 & E2); [lia|lia|].
    exists s2. split_and!; [done|done|by etrans|lia|lia].
Qed.

Lemma new_manager_ok n : - 2 ^ 31 <= n -> n + 2 < 2 ^ 31 ->
  ok (new_manager n) /\ uniqueID (new_manager n) = n + 2.
Proof.
  intros Hlo Hhi. unfold new_manager, register_handler, getUniqueID, register_handler_id.
  rewrite (s32_id (n + 1)), (s32_id (n + 1 + 1)) by lia. split; [|cbn; lia].
  split; cbn; try done; try (by intros ? ? ?%lookup_empty_Some || by intros ? [? ?%lookup_empty_Some]).
  - intros iv. split; [by intros ?%not_elem_of_nil|by intros (? & ? & ?%lookup_empty_Some & _)].
  - intros p. split; [by intros [? ?%lookup_empty_Some]|by intros ?%not_elem_of_nil].
  - constructor.
Qed.

(** The states of a manager. *)
Definition reached (n : Z) (l : list op) s : Prop :=
  - 2 ^ 31 <= n /\ n + 2 + 3 * zlen l < 2 ^ 31 /\ run_ops l (new_manager n) = Ok s.

Lemma reached_ok n l s : reached n l s -> ok s /\ n + 2 <= uniqueID s <= n + 2 + 3 * zlen l.
Proof.
  intros (Hlo & Hhi & E). destruct (new_manager_ok n) as [H0 Ei]; [lia|lia|].
  destruct (run_ops_stays l (new_manager n) H0) as (s' & E' & Hs & _ & Hid); [lia|lia|].
  rewrite E in E'. injection E' as <-. split; [done|lia].
Qed.
End runs.

(** ** A program

    Connections that report after [connect] has returned, [-1] in the members
    that are not set; two connections of one pool, both connected. *)
Definition later : Connect := {| connect := fun _ => (true, None) |}.
Definition unset : Uninit :=
  {| junk_id := fun _ => -1; junk_inc_id := fun _ => -1; junk_dec_id := fun _ => -1 |}.
Lemma later_quiet : QuietConnect (CN := later).
Proof. by intros info. Qed.

Definition there (port : bytes) : ConnInfo := mk_info [] [] (lit "127.0.0.1") port 0.
Definition two_conns : list op :=
  [AddPool; AddConn (there (lit "6379")); AddConn (there (lit "6380")); Connected 1; Connected 2].

(** The state after a run that nothing goes wrong in. *)
Definition final `{Connect, Uninit} (l : list op) : state :=
  match run_ops l (new_manager 0) with Ok s => s | Fault _ => new_manager 0 end.

(** * Whose turn it is to be lent *)
Section turns.
Context {CN : Connect} {U : Uninit} {Q : QuietConnect}.
Implicit Types (s : state) (pl : connPool).

(** What [k] calls of [get_conn] give. *)
Fixpoint gets (k : nat) s : result (list (option Z) * state) :=
  match k with
  | O => Ok ([], s)
  | S k => '(x, s) ← get_conn s; '(xs, s) ← gets k s; Ok (x :: xs, s)
  end.

Lemma gets_app j k s : gets (j + k) s =
  ('(xs, s) ← gets j s; '(ys, s) ← gets k s; Ok (xs ++ ys, s)).
Proof.
  revert s. induction j as [|j IH]; intros s; cbn [gets Nat.add].
  - cbn. by destruct (gets k s) as [[ys s']|].
  - destruct (get_conn s) as [[x s1]|]; [|done]. cbn [mbind result_bind]. rewrite IH.
    destruct (gets j s1) as [[xs s2]|]; [|done]. cbn [mbind result_bind].
    by destruct (gets k s2) as [[ys s3]|].
Qed.

(** The list that a pool lends from, and its [r]-th turn. *)
Definition lending pl : list Z :=
  match DBInsLocalList pl with [] => DBInsRemoteList pl | l => l end.
Definition turn (r : nat) (l : list Z) : option Z := l !! (r mod length l)%nat.

Lemma lent_lending pl : lent pl = head (lending pl).
Proof. unfold lent, lending. by destruct (DBInsLocalList pl). Qed.

Lemma lending_turned pl : lending (turned pl) = to_back (lending pl).
Proof.
  unfold lending, turned. destruct (DBInsLocalList pl) as [|x l] eqn:E; [done|].
  cbn [set_lists DBInsLocalList to_back]. by destruct (l ++ [x]) eqn:E'; [destruct l|].
Qed.

Lemma head_turn l : head l = turn 0 l.
Proof. unfold turn. destruct l; [done|]. by rewrite Nat.Div0.mod_0_l. Qed.

Lemma turn_to_back r l : turn r (to_back l) = turn (S r) l.
Proof.
  unfold turn. destruct l as [|x l]; [done|]. cbn [to_back].
  assert (length (l ++ [x]) = S (length l)) as -> by (rewrite length_app; cbn; lia).
  cbn [length]. set (n := S (length l)).
  pose proof (Nat.mod_upper_bound r n ltac:(lia)) as Hr.
  destruct (decide (r mod n = length l)%nat) as [E|Hne].
  - rewrite E, list_lookup_middle by done. assert ((S r) mod n = 0)%nat as ->; [|done].
    rewrite <- Nat.add_1_r, <- Nat.Div0.add_mod_idemp_l, E. unfold n. rewrite Nat.add_1_r. apply Nat.Div0.mod_same.
  - rewrite lookup_app_l by lia. assert ((S r) mod n = S (r mod n))%nat as ->; [|done].
    rewrite <- Nat.add_1_r, <- Nat.Div0.add_mod_idemp_l. rewrite Nat.mod_small; lia.
Qed.

(** The pools that have had their turn. *)
Definition turn_pools (done : list Z) (m : gmap Z connPool) : gmap Z connPool :=
  foldl (fun m p => match m !! p with Some pl => <[p := turned pl]> m | None => m end) m done.

(** The pool [p] of [s]. *)
Definition lending_of s (p : Z) : list Z := default [] (lending <$> pools s !! p).

Lemma round rest : forall dn s, ok s -> poolList s = rest ++ dn -> exists s',
  gets (length rest) s = Ok ((fun p => turn 0 (lending_of s p)) <$> rest, s') /\ ok s' /\
  poolList s' = dn ++ rest /\
  (forall p, lending_of s' p = if decide (p ∈ rest) then to_back (lending_of s p) else lending_of s p).
Proof.
  induction rest as [|p rest IH]; intros dn s Hs E; cbn [length gets fmap list_fmap].
  { exists s. split_and!; [done|done|by rewrite E, app_nil_r|]. intros p. by rewrite decide_False by apply not_elem_of_nil. }
  destruct (get_conn_run s p (rest ++ dn) Hs E) as (pl & Hp & ->). cbn [mbind result_bind].
  pose proof (rotated_sound s Hs) as H1. rewrite E in H1. cbn [app to_back] in H1. rewrite <- app_assoc in H1.
  rewrite <- app_assoc. apply (turned_sound _ _ p pl) in H1; [|done].
  set (s1 := set_pool _ p _) in *. destruct (IH (dn ++ [p]) s1 (proj1 H1) eq_refl) as (s' & Hg & Hs' & E' & Hl).
  rewrite Hg. cbn [mbind result_bind].
  assert (NoDup (p :: rest)) as Hnd.
  { pose proof (ok_nodup _ _ Hs) as Hnd. rewrite E in Hnd. by apply NoDup_app in Hnd as (? & _). }
  apply NoDup_cons in Hnd as [Hni Hnd].
  assert (forall q, lending_of s1 q = if decide (q = p) then to_back (lending_of s p) else lending_of s q) as Hl1.
  { intros q. unfold lending_of, s1, set_pool. cbn [pools set_poolList]. case_decide as Hd.
    - subst q. rewrite lookup_insert_eq, Hp. cbn. apply lending_turned.
    - by rewrite lookup_insert_ne by done. }
  exists s'. split_and!; [|done|by rewrite E', <- app_assoc|].
  - f_equal. f_equal. f_equal.
    + rewrite lent_lending, head_turn. unfold lending_of. by rewrite Hp.
    + apply list_fmap_ext. intros i q Hq. rewrite Hl1, decide_False; [done|].
      intros ->. apply Hni. by eapply list_elem_of_lookup_2.
  - intros q. rewrite Hl, Hl1. destruct (decide (q = p)) as [->|Hne].
    + rewrite decide_False by done. by rewrite decide_True by (by left).
    + destruct (decide (q ∈ rest)) as [Hin|Hnin].
      * by rewrite decide_True by (by right).
      * rewrite decide_False; [done|]. intros [?|?]%elem_of_cons; done.
Qed.

Lemma rounds_from n : forall k s t, ok s -> poolList s = poolList t ->
  (forall p r, p ∈ poolList t -> turn r (lending_of s p) = turn (k + r) (lending_of t p)) -> exists s',
  gets (n * length (poolList t)) s =
    Ok (flat_map (fun r => (fun p => turn r (lending_of t p)) <$> poolList t) (seq k n), s') /\
  ok s' /\ poolList s' = poolList t.
Proof.
  induction n as [|n IH]; intros k s t Hs E Ht; cbn [Nat.mul seq flat_map]; [by exists s|].
  destruct (round (poolList s) [] s Hs) as (s1 & Hg & Hs1 & E1 & Hl); [by rewrite app_nil_r|].
  destruct (IH (S k) s1 t Hs1) as (s2 & Hg2 & Hs2 & E2).
  - by rewrite E1.
  - intros p r Hin. rewrite Hl, E, decide_True, turn_to_back, Ht by done. f_equal. lia.
  - exists s2. rewrite gets_app, <- E, Hg. cbn [mbind result_bind]. rewrite E, Hg2. cbn [mbind result_bind].
    split_and!; [|done|done]. do 3 f_equal. apply list_fmap_ext. intros i p Hp.
    rewrite Ht by (by eapply list_elem_of_lookup_2). f_equal. lia.
Qed.

Lemma rounds n s : ok s -> exists s',
  gets (n * length (poolList s)) s =
    Ok (flat_map (fun r => (fun p => turn r (lending_of s p)) <$> poolList s) (seq 0 n), s') /\
  ok s' /\ poolList s' = poolList s.
Proof. intros Hs. by apply rounds_from. Qed.
End turns.
