(* ===== verification/ConnCorrect.v ===== *)
(** * ConnCorrect: what the connection manager guarantees, and where it stops *)
From S2P Require Import Prelude Mem StdMap ConnManager ConnFacts ConnOps ConnRuns.
From stdpp Require Import list list_numbers strings gmap relations sorting.
From Stdlib Require Import ZArith Lia.
Open Scope Z_scope.

(** ** Deaf connections *)
Section deaf.
Context {CN : Connect} {U : Uninit} {Q : QuietConnect}.
Implicit Types (s : state) (pl : connPool).

(** No pool takes the connection, nor will a new one. *)
Definition deaf (cp : Z) s : Prop :=
  (exists c, dbconns s !! cp = Some c /\ c_inc_id c < uniqueID s /\
     forall p pl, pools s !! p = Some pl -> ~ belongs c pl) /\
  forall p pl, pools s !! p = Some pl -> cp ∉ conns_of pl.

Lemma deaf_evolves cp s s' : evolves s s' -> deaf cp s -> deaf cp s'.
Proof.
  intros [E1 E2 E3] [(c & Hc & Hi & Hb) Hn]. destruct (E1 cp c Hc) as (c' & Hc' & Ex & Ei).
  split; [exists c'; split; [done|]; split; [rewrite Ei; lia|]|].
  - intros p pl' Hp [B1 B2]. destruct (E2 p pl' Hp) as [(pl & Hpl & (I1 & I2 & _) & _)|[Hnew _]]; [|lia].
    apply (Hb p pl Hpl). split; congruence.
  - intros p pl' Hp Hin. destruct (E2 p pl' Hp) as [(pl & Hpl & _ & Hl)|[_ Hnil]].
    + destruct (Hl cp Hin) as [Hin'|(c0 & Hc0 & Hb0)]; [by apply (Hn p pl)|].
      assert (c0 = c) as -> by congruence. by apply (Hb p pl).
    + rewrite Hnil in Hin. by apply not_elem_of_nil in Hin.
Qed.

Lemma deaf_run cp s s' : rtc evolves s s' -> deaf cp s -> deaf cp s'.
Proof. induction 1 as [|s1 s2 s3 H _ IH]; [done|]. intros Hd. by eapply IH, deaf_evolves. Qed.

(** The connections of a pool that had addresses before it had a number. *)
Lemma added_deaf s s' p pl cp : ok s -> added s s' p pl -> junk_id p <> _id pl ->
  is_Some (dbconns s' !! cp) -> dbconns s !! cp = None -> deaf cp s'.
Proof.
  intros Hs [A1 A2 A3 [A4 A5] A6 A7 A8 (pl0 & J1 & J2 & J3 & M1 & M2 & M3 & M4) _] Hj [c Hc] Hnew.
  destruct (M4 cp c Hc) as [?|(B1 & B2 & B3 & _)]; [congruence|].
  assert (forall q ql, pools s' !! q = Some ql -> (q = p /\ ql = pl) \/ pools s !! q = Some ql) as Hq.
  { intros q ql. rewrite A2. intros [[<- <-]|[Hne Hq]]%lookup_insert_Some; auto. }
  split.
  - exists c. split; [done|]. split; [lia|]. intros q ql [[-> ->]|Hql]%Hq [C1 C2]; [congruence|].
    destruct (ok_ids _ _ Hs q ql Hql) as (?&?&?&_). lia.
  - intros q ql [[-> ->]|Hql]%Hq; unfold conns_of; [rewrite A4, A5; apply not_elem_of_nil|].
    destruct (ok_lends _ _ Hs q ql Hql) as [Hl Hr]. rewrite elem_of_app.
    intros [Hin|Hin]; [destruct (proj1 (Forall_forall _ _) Hl cp Hin) as (c0 & ? & _)
                      |destruct (proj1 (Forall_forall _ _) Hr cp Hin) as (c0 & ? & _)]; congruence.
Qed.
End deaf.

(** ** Refused connections *)
Section refused.
Context {CN : Connect} {U : Uninit}.

(** A pool without addresses makes no connections. *)
Lemma add_pool_empty CN' calls calls' s : infoList s = [] ->
  add_pool (CN := CN) calls s = add_pool (CN := CN') calls' s.
Proof.
  intros E. unfold add_pool, new_pool.
  destruct (register_handler CONN_DEC _ _ _ _) as [[dec b1] n1].
  destruct (register_handler CONN_INC _ _ _ _) as [[inc b2] n2]. cbn [infoList]. by rewrite E.
Qed.

(** A pool that asks for a connection which fails at once is deleted while the
    list of pools is walked. *)
Lemma refused_faults n info : - 2 ^ 31 <= n -> n + 5 < 2 ^ 31 -> (connect info).2 = Some false ->
  run_ops [AddPool; AddConn info] (new_manager n) = Fault OutOfBounds.
Proof.
  intros Hlo Hhi Hc. destruct (new_manager_ok n) as [H0 Ei]; [lia|lia|].
  destruct (add_pool_ok (CN := later) (Q := later_quiet) (pool_call (CN := later) 1) (new_manager n) H0)
    as (s1 & p & pl & E & Hs1 & [A1 A2 A3 A4 A5 A6 A7 A8 A9] & _); [lia|lia|].
  cbn [run_ops run_op]. rewrite (add_pool_empty later _ (pool_call (CN := later) 1)) by done.
  rewrite E. cbn [mbind result_bind].
  assert (poolList s1 = [p]) as El by (by rewrite A1).
  assert (pools s1 !! p = Some pl) as Hp by (by rewrite A2, lookup_insert_eq).
  unfold add_conn. cbn [set_infoList poolList]. rewrite El. cbn [length each_pool].
  unfold pool_add_info at 1. unfold pool_at. cbn [set_infoList pools next_conn infoList poolList m_inc_id m_dec_id
    next_pool dbconns pool_bus mgr_bus uniqueID held]. rewrite Hp, Hc. cbn [mbind result_bind].
  set (c := mk_DBConn info (_id pl) None (conn_inc_id pl) (conn_dec_id pl)).
  set (s2 := mk_state _ _ _ _ _ _ _ _ _ _ _ _).
  assert (ok s2) as Hs2.
  { apply (ok_conns [] (set_infoList s1 (infoList s1 ++ [info])) (<[next_conn s1 := c]> (dbconns s1)) (next_conn s1 + 1)).
    - by apply ok_infoList.
    - intros cp c' Hcp. exists c'. split; [|done]. cbn in Hcp. rewrite lookup_insert_ne; [done|].
      intros <-. assert (next_conn s1 < next_conn s1); [|lia]. apply (ok_fresh_conn _ _ Hs1). by exists c'.
    - intros cp [<-|Hcp]%lookup_insert_is_Some'; [lia|]. pose proof (ok_fresh_conn _ _ Hs1 cp Hcp). lia. }
  destruct (disconnected_leaves 0 s2 p pl (next_conn s1) c Hs2) as (s3 & E3 & _ & _ & H3);
    [by cbn; rewrite El; left|done|by apply lookup_insert_eq|done|done|].
  rewrite E3. cbn [mbind result_bind]. destruct H3 as [Hperm _].
  { unfold left_out, pool_empty. cbn [c _info]. destruct A4 as [-> ->]. by destruct (conn_type info =? 0). }
  change (poolList s2) with (poolList s1) in Hperm. rewrite El in Hperm.
  assert (poolList s3 = []) as ->; [|done].
  apply Permutation_length in Hperm. cbn in Hperm. by destruct (poolList s3).
Qed.
End refused.

(** ** Properties *)

(** C16: When [connect] reports only after it has returned, then whatever the
    application calls and the connections report, in any order, nothing goes
    wrong: every handler on the bus belongs to a living pool and every living
    pool has its two, a pool lives as long as the manager or the application has
    a pointer to it, and what a pool lends are connections of the kind of its
    list. When [connect] reports a failure before it returns, the first address
    that is added to a manager with one pool makes [add_conn] go on with an
    iterator that is not valid. *)
Theorem conn_manager_safe {U : Uninit} n :
  (forall (CN : Connect) l, QuietConnect -> - 2 ^ 31 <= n -> n + 2 + 3 * zlen l < 2 ^ 31 ->
   exists s, run_ops l (new_manager n) = Ok s /\
   (forall iv, iv ∈ pool_bus s <-> exists p pl, pools s !! p = Some pl /\
      (iv = dec_handler p pl \/ iv = inc_handler p pl)) /\
   (forall p, is_Some (pools s !! p) <-> p ∈ poolList s \/ p ∈ held s) /\
   (forall p pl, pools s !! p = Some pl ->
      lends s true (DBInsLocalList pl) /\ lends s false (DBInsRemoteList pl))) /\
  (forall (CN : Connect) info, - 2 ^ 31 <= n -> n + 5 < 2 ^ 31 -> (connect info).2 = Some false ->
   run_ops [AddPool; AddConn info] (new_manager n) = Fault OutOfBounds).
Proof.
  split; [|intros; by apply refused_faults].
  intros CN l Q Hlo Hhi. destruct (new_manager_ok n) as [H0 Ei]; [lia|lia|].
  destruct (run_ops_stays l (new_manager n) H0) as (s & E & Hs & _); [lia|lia|].
  exists s. split; [done|]. split; [apply (ok_bus _ _ Hs)|]. split; [|apply (ok_lends _ _ Hs)].
  intros p. rewrite (ok_alive _ _ Hs), !elem_of_app. split; [|tauto]. intros [?|[?|?%not_elem_of_nil]]; tauto.
Qed.

(** C17: The pools lend their connections in turn. In any state, [n] rounds of
    calls of [get_conn], one for each pool, give in round [r] the [r]-th
    connection of every pool, counted around its local list, or its remote
    list when it has no local connection; the order of the pools is as before. *)
Theorem get_conn_fair {CN : Connect} {U : Uninit} {Q : QuietConnect} n0 l s n :
  reached n0 l s -> exists s',
  gets (n * length (poolList s)) s =
    Ok (flat_map (fun r => (fun p => turn r (lending_of s p)) <$> poolList s) (seq 0 n), s') /\
  poolList s' = poolList s.
Proof.
  intros [Hs _]%reached_ok. destruct (rounds n s Hs) as (s' & E & _ & El). by exists s'.
Qed.

(** C18: A connection that carries the numbers of a pool of the manager (as
    those have that [add_conn] makes; those of [add_pool] have not)
    changes that pool only when it reports, in any state that is reached with a
    [connect] that does not report before it returns: [onConnected] puts the
    connection at the end of its list, [onDisconnected] takes it out, and a pool
    that has none left goes out of the list of the manager; its handlers go and
    it is destroyed unless the application has a pointer to it. *)
Theorem reports_track {CN : Connect} {U : Uninit} {Q : QuietConnect} n l s f p pl cp c :
  reached n l s -> p ∈ poolList s -> pools s !! p = Some pl -> dbconns s !! cp = Some c ->
  pool_index c = _id pl -> c_inc_id c = conn_inc_id pl -> c_dec_id c = conn_dec_id pl -> exists s1 s2,
  onConnected (pool_call (S f)) cp s = Ok s1 /\ pools s1 = <[p := joined cp c pl]> (pools s) /\
  poolList s1 = poolList s /\
  onDisconnected (pool_call (S f)) cp s = Ok s2 /\
  (forall q, q <> p -> pools s2 !! q = pools s !! q) /\
  (pool_empty (left_out cp c pl) = false ->
     pools s2 !! p = Some (left_out cp c pl) /\ poolList s2 = poolList s) /\
  (pool_empty (left_out cp c pl) = true ->
     poolList s ≡ₚ p :: poolList s2 /\ (p ∉ held s -> pools s2 !! p = None /\
       forall iv, iv ∈ pool_bus s2 -> iv_obj iv <> p)).
Proof.
  intros [Hs _]%reached_ok Hin Hp Hc Hx Hi Hd.
  destruct (disconnected_leaves f s p pl cp c Hs Hin Hp Hc Hx Hd) as (s2 & E2 & H2 & H3 & H4).
  exists (set_pool (set_conn s cp (said true c)) p (joined cp c pl)), s2.
  split; [by apply connected_joins|]. by split_and!.
Qed.

(** C19: [add_pool] gives the pool its number after it has made connections to
    the addresses that are known. When [connect] does not report before it
    returns and the number is not by chance the value that the member had before
    it was set, no pool ever takes these connections: not when they report,
    whatever happens in between. *)
Theorem late_pool_deaf {CN : Connect} {U : Uninit} {Q : QuietConnect} n l0 s s1 id l s2 cp :
  reached n l0 s -> n + 5 + 3 * zlen l0 + 3 * zlen l < 2 ^ 31 ->
  add_pool (pool_call 1) s = Ok (id, s1) -> junk_id (next_pool s) <> id ->
  is_Some (dbconns s1 !! cp) -> dbconns s !! cp = None ->
  run_ops l s1 = Ok s2 -> forall p pl, pools s2 !! p = Some pl -> cp ∉ conns_of pl.
Proof.
  intros Hr Hroom Ha Hj Hnew Hold Hrun. pose proof (proj1 Hr) as Hlo. apply reached_ok in Hr as [Hs Hid].
  pose proof (Zle_0_nat (length l0)).
  destruct (add_pool_ok (pool_call 1) s Hs) as (s1' & p & pl & E & Hs1 & Had & Hid1); [lia|lia|].
  rewrite Ha in E. injection E as Eid Es. subst s1'.
  assert (deaf cp s1) as Hd.
  { apply (added_deaf s s1 p pl cp Hs Had); [|done..]. rewrite (ad_at _ _ _ _ Had). congruence. }
  destruct (run_ops_stays l s1 Hs1) as (s2' & E & _ & Hev & _); [lia|lia|].
  rewrite Hrun in E. injection E as ->. apply (deaf_run _ _ _ Hev Hd).
Qed.

(** ** Witnesses *)
#[local] Existing Instances later unset later_quiet.

Ltac ran := split; [lia|split; [vm_compute; reflexivity|vm_compute; reflexivity]].

(** Connections that fail within [connect]. *)
Definition refused : Connect := {| connect := fun _ => (false, Some false) |}.

Lemma two_reached : reached 0 two_conns (final two_conns).
Proof. ran. Qed.

Lemma conn_manager_safe_witness :
  (exists s, run_ops (two_conns ++ [DelPool 4]) (new_manager 0) = Ok s /\
   (forall p pl, pools s !! p = Some pl -> lends s true (DBInsLocalList pl))) /\
  run_ops (CN := refused) [AddPool; AddConn (there (lit "6379"))] (new_manager 0) = Fault OutOfBounds.
Proof.
  destruct (conn_manager_safe 0) as [H1 H2]. split.
  - destruct (H1 later (two_conns ++ [DelPool 4]) later_quiet) as (s & E & _ & _ & Hl); [lia|vm_compute; reflexivity|].
    exists s. split; [exact E|]. intros p pl Hp. apply (Hl p pl Hp).
  - apply (H2 refused (there (lit "6379"))); [lia|lia|reflexivity].
Defined.

Lemma get_conn_fair_witness : exists s s', reached 0 two_conns s /\ poolList s' = poolList s /\
  gets 4 s = Ok ([Some 1; Some 2; Some 1; Some 2], s').
Proof.
  destruct (get_conn_fair 0 two_conns (final two_conns) 4 two_reached) as (s' & E & El).
  exists (final two_conns), s'. split; [apply two_reached|]. split; [done|]. exact E.
Defined.

(** The connection [1] leaves, [2] stays. *)
Lemma reports_track_witness : exists s s2, reached 0 two_conns s /\
  onDisconnected (pool_call 1) 1 s = Ok s2 /\ pools s2 !! 1 = Some (mk_pool 4 3 2 0 1 [2] []) /\
  poolList s2 = poolList s.
Proof.
  set (pl := mk_pool 4 3 2 0 1 [1; 2] []). set (c := mk_DBConn (there (lit "6379")) 4 (Some true) 3 2).
  assert (pools (final two_conns) !! 1 = Some pl) as Hp by (vm_compute; reflexivity).
  assert (dbconns (final two_conns) !! 1 = Some c) as Hc by (vm_compute; reflexivity).
  destruct (reports_track 0 two_conns (final two_conns) 0 1 pl 1 c two_reached) as (s1 & s2 & _ & _ & _ & E & _ & H & _);
    [vm_compute; by left|exact Hp|exact Hc|reflexivity|reflexivity|reflexivity|].
  destruct H as [H1 H2]; [reflexivity|].
  exists (final two_conns), s2. split; [apply two_reached|]. split; [exact E|]. split; [exact H1|exact H2].
Defined.

(** An address that was there first: no report brings the connection in. *)
Lemma late_pool_deaf_witness : exists s2,
  run_ops [AddConn (there (lit "6379")); AddPool; Connected 1; GetConn] (new_manager 0) = Ok s2 /\
  forall p pl, pools s2 !! p = Some pl -> 1 ∉ conns_of pl.
Proof.
  set (s := final [AddConn (there (lit "6379"))]).
  assert (reached 0 [AddConn (there (lit "6379"))] s) as Hr by ran.
  set (s1 := final [AddConn (there (lit "6379")); AddPool]).
  assert (add_pool (pool_call 1) s = Ok (4, s1)) as Ea by (vm_compute; reflexivity).
  set (s2 := final [AddConn (there (lit "6379")); AddPool; Connected 1; GetConn]).
  assert (run_ops [Connected 1; GetConn] s1 = Ok s2) as E by (vm_compute; reflexivity).
  exists s2. split; [vm_compute; reflexivity|].
  apply (late_pool_deaf 0 [AddConn (there (lit "6379"))] s s1 4 [Connected 1; GetConn] s2 1 Hr); try done; vm_compute; reflexivity.
Defined.

(** ** Cases *)

Definition lends_next (l : list op) : option (list (option Z)) :=
  match run_ops l (new_manager 0) with
  | Ok s => match gets 1 s with Ok (xs, _) => Some xs | Fault _ => None end
  | Fault _ => None
  end.

(** The first of two addresses of a pool fails before the second is connected:
    the pool goes, and the second connection is lent to nobody. *)
Example first_fails : lends_next [AddPool; AddConn (there (lit "6379")); AddConn (there (lit "6380"));
  Disconnected 1; Connected 2] = Some [None].
Proof. vm_compute. reflexivity. Qed.

(** An address is deleted while its connection is on the way. *)
Example deleted_joins : lends_next [AddPool; AddConn (there (lit "6379")); DelConn (there (lit "6379"));
  Connected 1] = Some [Some 1].
Proof. vm_compute. reflexivity. Qed.

(** * Addresses that come and go (serviceDiscovery.h) *)
(** ** The order of tuples *)
Section lexicographic.
Context {A B : Type} `{KeyOrder A} `{KeyOrder B}.

Definition lex_lt (x y : A * B) : bool :=
  if decide (x.1 = y.1) then key_lt x.2 y.2 else key_lt x.1 y.1.

Lemma lex_irrefl x : lex_lt x x = false.
Proof. unfold lex_lt. rewrite decide_True by done. apply key_lt_irrefl. Qed.

Lemma lex_trans x y z : lex_lt x y = true -> lex_lt y z = true -> lex_lt x z = true.
Proof.
  destruct x as [a b], y as [a' b'], z as [a'' b'']. unfold lex_lt. cbn. intros H1 H2.
  repeat case_decide; subst; try done; [by eapply key_lt_trans|idtac|by eapply key_lt_trans].
  pose proof (key_lt_trans _ _ _ H1 H2) as Hlt. by rewrite key_lt_irrefl in Hlt.
Qed.

Lemma lex_total x y : lex_lt x y = false -> x <> y -> lex_lt y x = true.
Proof.
  destruct x as [a b], y as [a' b']. unfold lex_lt. cbn. intros H1 Hne.
  destruct (decide (a = a')) as [<- |N1].
  - rewrite decide_True by done. apply key_lt_total; [done|congruence].
  - rewrite decide_False by done. by apply key_lt_total.
Qed.

#[export] Instance lex_order : KeyOrder (A * B) :=
  {| key_lt := lex_lt; key_lt_irrefl := lex_irrefl; key_lt_trans := lex_trans; key_lt_total := lex_total |}.
End lexicographic.

(** [std::tie]. *)
Definition tie (a : ConnInfo) : bytes * (bytes * (bytes * (bytes * Z))) :=
  (sourceIP a, (sourcePort a, (destIP a, (destPort a, conn_type a)))).

Lemma tie_lt_lex a b : tie_lt a b = key_lt (tie a) (tie b).
Proof.
  unfold tie_lt, tie. cbn. unfold lex_lt. cbn. unfold bool_decide.
  repeat (case_decide; try done; unfold lex_lt; cbn).
Qed.

Lemma tie_inj a b : tie a = tie b -> a = b.
Proof. destruct a, b. unfold tie. cbn. congruence. Qed.

(** The order of a set of addresses. *)
Definition before (a b : ConnInfo) : Prop := info_lt a b = true.

#[export] Instance before_trans : Transitive before.
Proof. intros a b c. unfold before, info_lt. rewrite !tie_lt_lex. intros. by eapply key_lt_trans. Qed.

Lemma before_irrefl a : info_lt a a = false.
Proof. unfold info_lt. rewrite tie_lt_lex. apply key_lt_irrefl. Qed.

#[export] Instance before_antisymm : AntiSymm (=) before.
Proof. intros a b H1 H2. pose proof (before_trans _ _ _ H1 H2) as H. unfold before in H. by rewrite before_irrefl in H. Qed.

Lemma before_total a b : info_lt a b = false -> info_lt b a = false -> a = b.
Proof.
  unfold info_lt. rewrite !tie_lt_lex. intros H1 H2. apply tie_inj.
  destruct (decide (tie a = tie b)) as [|Hne]; [done|].
  assert (key_lt (tie a) (tie b) = true) as H; [|by rewrite H in H2].
  apply key_lt_total; [done|congruence].
Qed.

(** ** Sets *)
Abbreviation info_set := (StronglySorted before).

Lemma set_has_spec x l : info_set l -> set_has x l = true <-> x ∈ l.
Proof.
  induction 1 as [|y l Hl IH Hy]; cbn [set_has]; [split; [done|by intros ?%not_elem_of_nil]|].
  rewrite elem_of_cons. destruct (info_lt y x) eqn:E1.
  - rewrite IH. split; [tauto|]. intros [->|?]; [by rewrite before_irrefl in E1|done].
  - rewrite negb_true_iff. split.
    + intros E2. left. by apply before_total.
    + intros [->|Hx]; [apply before_irrefl|]. by rewrite (proj1 (Forall_forall _ _) Hy x Hx) in E1.
Qed.

Lemma set_insert_elem x l y : info_set l -> y ∈ set_insert x l <-> y = x \/ y ∈ l.
Proof.
  induction 1 as [|z l Hl IH Hz]; cbn [set_insert]; [by rewrite elem_of_cons|].
  destruct (info_lt z x) eqn:E1; [rewrite !elem_of_cons, IH; tauto|].
  destruct (info_lt x z) eqn:E2; [by rewrite elem_of_cons|].
  rewrite (before_total x z) by done. rewrite elem_of_cons. tauto.
Qed.

Lemma set_insert_sorted x l : info_set l -> info_set (set_insert x l).
Proof.
  intros Hs. induction Hs as [|z l Hl IH Hz]; cbn [set_insert]; [by repeat constructor|].
  destruct (info_lt z x) eqn:E1; [|destruct (info_lt x z) eqn:E2].
  - constructor; [done|]. apply Forall_forall. intros y [->|Hy]%set_insert_elem; [done| |done].
    by apply (proj1 (Forall_forall _ _) Hz).
  - constructor; [by constructor|]. constructor; [done|]. eapply Forall_impl; [exact Hz|].
    intros y Hy. by etrans.
  - by constructor.
Qed.

Lemma info_set_NoDup l : info_set l -> NoDup l.
Proof.
  induction 1 as [|z l Hl IH Hz]; constructor; [|done]. intros Hin.
  pose proof (proj1 (Forall_forall _ _) Hz z Hin) as H. unfold before in H. by rewrite before_irrefl in H.
Qed.

(** Sets with the same elements are equal. *)
Lemma info_set_ext l l' : info_set l -> info_set l' -> (forall x, x ∈ l <-> x ∈ l') -> l = l'.
Proof.
  intros Hl Hl' He. apply (StronglySorted_unique before); [done|done|].
  apply NoDup_Permutation; [by apply info_set_NoDup..|done].
Qed.

(** ** Rounds *)
Lemma filter_known (k k' l : list ConnInfo) :
  (forall x, x ∈ l -> x ∉ k' <-> x ∉ k) -> filter (fun x => x ∉ k') l = filter (fun x => x ∉ k) l.
Proof.
  induction l as [|x l IH]; intros H; [done|].
  assert (filter (fun x => x ∉ k') l = filter (fun x => x ∉ k) l) as E by (apply IH; intros y Hy; apply H; by right).
  pose proof (H x ltac:(by left)) as Hx. destruct (decide (x ∉ k)) as [N|N].
  - rewrite !filter_cons_True by tauto. by rewrite E.
  - rewrite !filter_cons_False by tauto. done.
Qed.

Section rounds.
Context {S : Type} (inc dec : ConnInfo -> S -> result S).

(** [f] for every address, in order. *)
Fixpoint tell (f : ConnInfo -> S -> result S) (l : list ConnInfo) (s : S) : result S :=
  match l with
  | [] => Ok s
  | x :: l => s ← f x s; tell f l s
  end.

Lemma discover_inc_run tmplist : forall known, info_set known -> NoDup tmplist -> exists known',
  info_set known' /\ (forall x, x ∈ known' <-> x ∈ known \/ x ∈ tmplist) /\
  forall s, discover_inc inc tmplist known s =
    (s ← tell inc (filter (fun x => x ∉ known) tmplist) s; Ok (known', s)).
Proof.
  induction tmplist as [|x tmplist IH]; intros known Hk Hnd; cbn [discover_inc].
  { exists known. split_and!; [done| |done]. intros x. split; [by left|by intros [?|?%not_elem_of_nil]]. }
  apply NoDup_cons in Hnd as [Hx Hnd]. destruct (set_has x known) eqn:E.
  - apply set_has_spec in E; [|done]. destruct (IH known Hk Hnd) as (k' & Hk' & Hin & Hr).
    exists k'. rewrite filter_cons_False by (intros Hf; by apply Hf). split_and!; [done| |done].
    intros y. rewrite Hin, elem_of_cons. split; [tauto|]. intros [?|[->|?]]; tauto.
  - assert (x ∉ known) as Hn by (intros Hin; apply set_has_spec in Hin; [congruence|done]).
    destruct (IH (set_insert x known) (set_insert_sorted _ _ Hk) Hnd) as (k' & Hk' & Hin & Hr).
    exists k'. rewrite filter_cons_True by done. split_and!; [done| |].
    + intros y. rewrite Hin, set_insert_elem, elem_of_cons by done. tauto.
    + intros s. cbn [tell]. destruct (inc x s) as [s1|e]; [|done]. cbn [mbind result_bind]. rewrite Hr.
      rewrite (filter_known known (set_insert x known)); [done|]. intros y Hy.
      rewrite set_insert_elem by done. split; [tauto|]. intros Hny [->|?]; done.
Qed.

Lemma discover_dec_run tmplist s : info_set tmplist -> forall l,
  (l ⊆ tmplist -> discover_dec dec l tmplist s = Ok s) /\
  (~ l ⊆ tmplist -> forall s', discover_dec dec l tmplist s <> Ok s').
Proof.
  intros Ht. induction l as [|x l [IH1 IH2]]; cbn [discover_dec].
  { split; [done|]. intros Hn. exfalso. apply Hn. by intros x ?%not_elem_of_nil. }
  destruct (set_has x tmplist) eqn:E; pose proof (set_has_spec x tmplist Ht) as Hx.
  - apply Hx in E. split; intros H; [apply IH1|apply IH2].
    + intros y Hy. apply H. by right.
    + intros Hl. apply H. intros y [->|Hy]%elem_of_cons; [done|by apply Hl].
  - split; intros H; [|intros s'; by destruct (dec x s)]. exfalso.
    assert (set_has x tmplist = true) as E' by (apply Hx, H; by left). congruence.
Qed.
End rounds.

(** ** Properties *)

(** C40: One round of [getConnInfo], when the known addresses and those that
    the callback gives are sets. If every known address is among the given
    ones, the callback for new addresses is called once for each that was not
    known, in order, and the given set is known from then on. If a known
    address is not given, the code goes on with an iterator to the element
    that it has erased. *)
Theorem discovery_round {S : Type} (inc dec : ConnInfo -> S -> result S) known tmplist s :
  info_set known -> info_set tmplist ->
  (known ⊆ tmplist -> getConnInfo inc dec (Some tmplist) known s =
     (s ← tell inc (filter (fun x => x ∉ known) tmplist) s; Ok (true, tmplist, s))) /\
  (~ known ⊆ tmplist -> forall r, getConnInfo inc dec (Some tmplist) known s <> Ok r).
Proof.
  intros Hk Ht. unfold getConnInfo.
  destruct (discover_inc_run inc dec tmplist known Hk (info_set_NoDup _ Ht)) as (k' & Hk' & Hin & ->).
  split; intros Hs; [|intros r]; destruct (tell inc _ s) as [s1|e]; try done; cbn [mbind result_bind].
  - assert (k' = tmplist) as ->.
    { apply info_set_ext; [done..|]. intros x. rewrite Hin. split; [|tauto]. intros [?|?]; [by apply Hs|done]. }
    by rewrite (proj1 (discover_dec_run dec tmplist s1 Ht tmplist)).
  - destruct (discover_dec dec k' tmplist s1) as [s2|] eqn:E; [|done]. exfalso. revert E.
    apply (discover_dec_run dec tmplist s1 Ht k'). intros Hk2. apply Hs. intros x Hx. apply Hk2, Hin. by left.
Qed.

(** The manager's own callback gives one address, in every round. *)
#[local] Existing Instances later unset.

Lemma discovery_round_witness : exists s,
  manager_discovers (pool_call 1) 1 [] (final [AddPool]) = Ok (true, [local_info], s) /\
  manager_discovers (pool_call 1) 1 [local_info] s = Ok (true, [local_info], s).
Proof.
  assert (info_set [local_info]) as Hl by (constructor; [constructor|constructor]).
  assert (info_set []) as Hn by constructor. unfold manager_discovers. eexists. split.
  - rewrite (proj1 (discovery_round _ _ _ _ _ Hn Hl)) by (by intros x ?%not_elem_of_nil). vm_compute. reflexivity.
  - rewrite (proj1 (discovery_round _ _ _ _ _ Hl Hl)) by done. vm_compute. reflexivity.
Defined.
