(* ===== verification/Tcp.v ===== *)
(** * Tcp: sockets over bufferevents, and messages with a length (tcpSocket.cpp,
    tcpClient.cpp, tcpServerTPKT.h, tcpClientTPKT.h)

    A socket of translib is a bufferevent of libevent with a flag; a client
    makes one and connects it. The TPKT classes put a header of four bytes in
    front of a message and cut what they receive at these headers. *)
From S2P Require Import Prelude Mem System.
From stdpp Require Import list list_numbers strings.
From Stdlib Require Import ZArith Lia.
Open Scope Z_scope.

(** ** libevent

    The functions on bufferevents that the code calls; [None] is their
    failure. A buffer is read with [evbuffer_pullup] and [evbuffer_remove]. *)
Class Bufferevent (B : Type) := {
  bufferevent_socket_new : Z -> option B;
  bufferevent_enable : B -> option B;
  bufferevent_disable : B -> B;
  bufferevent_socket_connect : B -> bytes -> Z -> option B;
  bufferevent_getfd : B -> Z;
  bufferevent_write : B -> bytes -> option B;
  input_length : B -> Z;
  output_length : B -> Z;
  evbuffer_pullup : B -> Z -> option bytes;
  evbuffer_remove : B -> Z -> option (bytes * B);
  evbuffer_drain : B -> Z -> B
}.

(** What the manual says of them: [input] and [output] are the contents of the
    buffers, [arrive] is what libevent does with bytes that it received, and
    [flush] with bytes that it sent. *)
Class BufferLaws (B : Type) `{Bufferevent B} := {
  input : B -> bytes;
  output : B -> bytes;
  arrive : B -> bytes -> B;
  flush : B -> nat -> B;
  input_arrive b d : input (arrive b d) = input b ++ d;
  output_flush b n : output (flush b n) = drop n (output b);
  fd_flush b n : bufferevent_getfd (flush b n) = bufferevent_getfd b;
  input_length_ok b : input_length b = zlen (input b);
  output_length_ok b : output_length b = zlen (output b);
  pullup_ok b n : 0 <= n -> evbuffer_pullup b n =
    if n <=? zlen (input b) then Some (take (Z.to_nat n) (input b)) else None;
  remove_ok b n : 0 <= n -> exists b', evbuffer_remove b n = Some (take (Z.to_nat n) (input b), b') /\
    input b' = drop (Z.to_nat n) (input b);
  new_fd fd b : bufferevent_socket_new fd = Some b -> fd <> -1 -> bufferevent_getfd b = fd;
  enable_fd b b' : bufferevent_enable b = Some b' -> bufferevent_getfd b' = bufferevent_getfd b;
  drain_fd b n : bufferevent_getfd (evbuffer_drain b n) = bufferevent_getfd b;
  disable_fd b : bufferevent_getfd (bufferevent_disable b) = bufferevent_getfd b;
  write_ok b d b' : bufferevent_write b d = Some b' ->
    output b' = output b ++ d /\ input b' = input b /\ bufferevent_getfd b' = bufferevent_getfd b
}.

(** What happens outside the program: calls of [shutdown] and [close], and of
    the functions that an application overrides. *)
Inductive effect : Type :=
  | EShutdown (fd : Z)
  | EClose (fd : Z)
  | EConnected (error : Z)
  | EDisconnected
  | EMessage (msg : bytes) (len : Z)
  | ENewSession (id : Z)
  | ESessionDisconnected (id : Z)
  | EFreeListener (l : Z).

#[export] Instance effect_eq_dec : EqDecision effect.
Proof. solve_decision. Defined.

Section sockets.
Context {B : Type} {BE : Bufferevent B}.

(** ** TcpSocket

    [_options] says whether the bufferevent was made with
    [BEV_OPT_CLOSE_ON_FREE]. *)
Record TcpSocket : Type := mk_socket {
  _bev : option B;
  _options : bool;
  _isClosing : bool
}.

Implicit Types s : TcpSocket.

Definition new_TcpSocket : TcpSocket := mk_socket None false false.

Definition set_bev s (b : B) : TcpSocket := mk_socket (Some b) (_options s) (_isClosing s).
Definition set_closing s (c : bool) : TcpSocket := mk_socket (_bev s) (_options s) c.

Definition socket s : Z :=
  match _bev s with None => -1 | Some b => bufferevent_getfd b end.

(** [bufferevent_free]. *)
Definition bufferevent_free s : list effect :=
  match _bev s with
  | None => []
  | Some b => if _options s then [EClose (bufferevent_getfd b)] else []
  end.

(** The destructor. *)
Definition delete_TcpSocket s : list effect := bufferevent_free s.

Definition send s (data : bytes) : bool * TcpSocket :=
  match _bev s with
  | None => (false, s)
  | Some b =>
      if _isClosing s then (false, s)
      else match bufferevent_write b data with
           | Some b => (true, set_bev s b)
           | None => (false, s)
           end
  end.

Definition getInputBufferLength s : Z :=
  match _bev s with Some b => u32 (input_length b) | None => 0 end.

Definition viewInputBuffer s (size : Z) : option bytes :=
  match _bev s with Some b => evbuffer_pullup b size | None => None end.

(** The bytes go to a block of the caller, from its start. *)
Definition readInputBuffer s (size : Z) : bool * bytes * TcpSocket :=
  match _bev s with
  | None => (false, [], s)
  | Some b =>
      match evbuffer_remove b size with
      | Some (data, b) => (true, data, set_bev s b)
      | None => (false, [], s)
      end
  end.

Definition clearInputBuffer s : TcpSocket :=
  match _bev s with Some b => set_bev s (evbuffer_drain b (2 ^ 32 - 1)) | None => s end.

Definition closeImpl s : list effect * TcpSocket :=
  let s := clearInputBuffer (set_closing s false) in
  let s := match _bev s with Some b => set_bev s (bufferevent_disable b) | None => s end in
  ([EShutdown (socket s)], s).

Definition close s (waiting : bool) : list effect * TcpSocket :=
  match _bev s with
  | None => ([], s)
  | Some b => if waiting && (0 <? output_length b) then ([], set_closing s true) else closeImpl s
  end.

Definition checkClosing s : list effect * TcpSocket :=
  match _bev s with
  | Some b =>
      if _isClosing s && (output_length b =? 0) then closeImpl (set_closing s false) else ([], s)
  | None => ([], s)
  end.

(** ** TcpClient *)
Record TcpClient : Type := mk_client {
  cl_socket : TcpSocket;
  _isConnected : bool
}.

Definition new_TcpClient : TcpClient := mk_client new_TcpSocket false.

(** The destructor is that of the socket. *)
Definition no_bev s : TcpSocket := mk_socket None (_options s) (_isClosing s).

Definition connect (c : TcpClient) (ip : bytes) (port : Z) : bool * list effect * TcpClient :=
  let s := cl_socket c in
  match _bev s with
  | Some _ => (false, [], c)
  | None =>
      match bufferevent_socket_new (-1) with
      | None => (false, [], c)
      | Some b =>
          let s := mk_socket (Some b) true (_isClosing s) in
          match bufferevent_enable b with
          | None => (false, bufferevent_free s, mk_client (no_bev s) (_isConnected c))
          | Some b =>
              let s := set_bev s b in
              match bufferevent_socket_connect b ip port with
              | None => (false, bufferevent_free s, mk_client (no_bev s) (_isConnected c))
              | Some b => (true, [], mk_client (set_bev s b) (_isConnected c))
              end
          end
      end
  end.

(** Flags of an event, and the errors that count. *)
Definition BEV_EVENT_EOF : Z := 16.
Definition BEV_EVENT_ERROR : Z := 32.
Definition BEV_EVENT_TIMEOUT : Z := 64.
Definition BEV_EVENT_CONNECTED : Z := 128.
Definition refused (socketError : Z) : bool := (socketError =? 111) || (socketError =? 110).

(** [handleEvent]; [socketError] is [EVUTIL_SOCKET_ERROR()]. *)
Definition handleEvent (c : TcpClient) (events socketError : Z) : list effect * TcpClient :=
  let s := cl_socket c in
  if negb (Z.land events (Z.lor BEV_EVENT_EOF (Z.lor BEV_EVENT_ERROR BEV_EVENT_TIMEOUT)) =? 0) then
    let s := match _bev s with Some b => set_bev s (bufferevent_disable b) | None => s end in
    ([EClose (socket s); EDisconnected] ++ bufferevent_free s, mk_client (no_bev s) false)
  else if negb (Z.land events BEV_EVENT_CONNECTED =? 0) then
    if refused socketError then ([EConnected socketError], c)
    else ([EConnected 0], mk_client s true)
  else ([], c).

(** ** TPKT *)
Definition TPKT1_LENGTH : Z := 4.
Definition TPKT1_MAX_MSG_LENGTH : Z := 16777215.
Definition TPKT_VERSION1_LOW_BYTE : Z := 1.

(** The four bytes of [tpkt_header]; a [char] keeps the low eight bits. *)
Definition tpkt_header (length : Z) : bytes :=
  [u8 TPKT_VERSION1_LOW_BYTE;
   u8 (Z.shiftr (Z.land (u32 (length + TPKT1_LENGTH)) 16777215) 16);
   u8 (Z.shiftr (Z.land (u32 (length + TPKT1_LENGTH)) 65535) 8);
   u8 (Z.land (u32 (length + TPKT1_LENGTH)) 255)].

(** [sendWithTPKT] of both classes. *)
Definition sendWithTPKT s (data : bytes) : bool * TcpSocket :=
  let '(ret, s) := send s (tpkt_header (zlen data)) in
  if negb ret then (false, s) else send s data.

(** The length in a header. *)
Definition packet_length (buf : bytes) : result Z :=
  b1 ← load buf 1; b2 ← load buf 2; b3 ← load buf 3;
  Ok (Z.lor (Z.lor (Z.shiftl (Z.land b1 255) 16) (Z.shiftl (Z.land b2 255) 8)) (Z.land b3 255)).

(** A byte that is not the version is removed; [buf] still points to it. *)
Definition skip_byte (buf : bytes) s : result TcpSocket :=
  b0 ← load buf 0;
  if b0 =? TPKT_VERSION1_LOW_BYTE then Ok s else Ok (readInputBuffer s 1).2.

Context {M : Malloc}.

(** The branch that takes a message into a block of its length and passes what
    follows the header to [onRead]. [malloc] gave [NULL], or a block. *)
Definition take_message (length : Z) s : result (list effect * TcpSocket) :=
  let '(ret, data, s) := readInputBuffer s length in
  if ret : bool then
    buffer ← (if malloc_ok length then blit (fresh_block length) 0 data
              else if zlen data =? 0 then Ok [] else Fault NullDeref);
    Ok ([EMessage (drop 4 buffer) (u32 (length - TPKT1_LENGTH))], s)
  else Ok ([], s).

(** [TcpServerTPKT::onSessionRead]. *)
Fixpoint onSessionRead (fuel : nat) s : result (list effect * TcpSocket) :=
  match fuel with
  | O => Fault OutOfFuel
  | S fuel =>
      let length := getInputBufferLength s in
      if length <? 1 then Ok ([], s)
      else
        match viewInputBuffer s TPKT1_LENGTH with
        | None => Ok ([], s)
        | Some buf =>
            s ← skip_byte buf s; n ← packet_length buf;
            if length <? n then Ok ([], s)
            else
              '(ev, s) ← take_message n s; '(evs, s) ← onSessionRead fuel s;
              Ok (ev ++ evs, s)
        end
  end.

(** That of the client: the block has the size of an [unsigned int] and the
    result of the read is not used. *)
Definition take_message_client (length : Z) s : result (list effect * TcpSocket) :=
  let '(_, data, s) := readInputBuffer s length in
  buffer ← (if malloc_ok 4 then blit (fresh_block 4) 0 data
            else if zlen data =? 0 then Ok [] else Fault NullDeref);
  Ok ([EMessage (drop 4 buffer) (u32 (length - TPKT1_LENGTH))], s).

(** [TcpClientTPKT::onRead]: the view is not checked. *)
Fixpoint onRead_client (fuel : nat) s : result (list effect * TcpSocket) :=
  match fuel with
  | O => Fault OutOfFuel
  | S fuel =>
      let length := getInputBufferLength s in
      if length <? 1 then Ok ([], s)
      else
        match viewInputBuffer s TPKT1_LENGTH with
        | None => Fault NullDeref
        | Some buf =>
            s ← skip_byte buf s; n ← packet_length buf;
            if length <? n then Ok ([], s)
            else
              '(ev, s) ← take_message_client n s; '(evs, s) ← onRead_client fuel s;
              Ok (ev ++ evs, s)
        end
  end.
End sockets.
Arguments TcpSocket : clear implicits.
Arguments TcpClient : clear implicits.

(** * Bufferevents as two lists of bytes *)
Record buffers : Type := mk_buffers {
  buf_in : bytes;
  buf_out : bytes;
  buf_fd : Z
}.

#[export] Instance lists : Bufferevent buffers := {|
  bufferevent_socket_new fd := Some (mk_buffers [] [] (if fd =? -1 then 7 else fd));
  bufferevent_enable b := Some b;
  bufferevent_disable b := b;
  bufferevent_socket_connect b ip port := Some b;
  bufferevent_getfd := buf_fd;
  bufferevent_write b d := Some (mk_buffers (buf_in b) (buf_out b ++ d) (buf_fd b));
  input_length b := zlen (buf_in b);
  output_length b := zlen (buf_out b);
  evbuffer_pullup b n := if n <=? zlen (buf_in b) then Some (take (Z.to_nat n) (buf_in b)) else None;
  evbuffer_remove b n :=
    Some (take (Z.to_nat n) (buf_in b), mk_buffers (drop (Z.to_nat n) (buf_in b)) (buf_out b) (buf_fd b));
  evbuffer_drain b n := mk_buffers (drop (Z.to_nat (Z.min n (zlen (buf_in b)))) (buf_in b)) (buf_out b) (buf_fd b)
|}.

#[export] Program Instance lists_laws : BufferLaws buffers := {|
  input := buf_in;
  output := buf_out;
  arrive b d := mk_buffers (buf_in b ++ d) (buf_out b) (buf_fd b);
  flush b n := mk_buffers (buf_in b) (drop n (buf_out b)) (buf_fd b)
|}.
Solve Obligations with (simpl; intros; try by (simplify_eq || eexists)).
Next Obligation. intros fd b [= <-] Hne. cbn. case_match; [lia|done]. Qed.

(** A socket with the descriptor [fd] and nothing in its buffers. *)
Definition fresh_socket (fd : Z) : TcpSocket buffers := mk_socket (Some (mk_buffers [] [] fd)) false false.
