(* ===== verification/TpktCorrect.v ===== *)
(** * TpktCorrect: messages over TPKT

    The server gets the messages that were sent, however the network cuts
    them; what makes it go round for ever, and what the client writes beyond
    its block. *)
From S2P Require Import Prelude Mem System Tcp.
From stdpp Require Import list list_numbers strings.
From Stdlib Require Import ZArith Lia.
Open Scope Z_scope.

(** ** Headers *)
Definition frame (m : bytes) : bytes := tpkt_header (zlen m) ++ m.
Definition fits (m : bytes) : Prop := zlen m + TPKT1_LENGTH <= TPKT1_MAX_MSG_LENGTH.

Lemma lor_shiftl hi lo k : 0 <= k -> 0 <= lo < 2 ^ k -> Z.lor (Z.shiftl hi k) lo = hi * 2 ^ k + lo.
Proof.
  intros Hk Hlo. pose proof (Z.add_lor_land (Z.shiftl hi k) lo) as E.
  assert (Z.land (Z.shiftl hi k) lo = 0) as Hl.
  { apply Z.bits_inj'. intros i Hi. rewrite Z.land_spec, Z.shiftl_spec, Z.bits_0 by done.
    destruct (decide (i < k)); [rewrite Z.testbit_neg_r by lia; done|].
    rewrite <- (Z.mod_small lo (2 ^ k)) by done. rewrite Z.mod_pow2_bits_high by lia. apply andb_false_r. }
  rewrite Hl, Z.shiftl_mul_pow2 in * by done. lia.
Qed.

Lemma land_255 z : Z.land z 255 = z mod 256.
Proof. apply (Z.land_ones z 8). lia. Qed.
Lemma land_65535 z : Z.land z 65535 = z mod 65536.
Proof. apply (Z.land_ones z 16). lia. Qed.
Lemma land_16777215 z : Z.land z 16777215 = z mod 16777216.
Proof. apply (Z.land_ones z 24). lia. Qed.

Lemma three_bytes b1 b2 b3 : is_byte b1 -> is_byte b2 -> is_byte b3 ->
  Z.lor (Z.lor (Z.shiftl (Z.land b1 255) 16) (Z.shiftl (Z.land b2 255) 8)) (Z.land b3 255) =
  b1 * 65536 + b2 * 256 + b3.
Proof.
  unfold is_byte. intros H1 H2 H3. rewrite !land_255, !Z.mod_small by done.
  rewrite (lor_shiftl b1 (Z.shiftl b2 8)) by (rewrite ?Z.shiftl_mul_pow2; lia).
  rewrite Z.shiftl_mul_pow2 by lia.
  replace (b1 * 2 ^ 16 + b2 * 2 ^ 8) with (Z.shiftl (b1 * 256 + b2) 8) by (rewrite Z.shiftl_mul_pow2; lia).
  rewrite lor_shiftl by lia. lia.
Qed.

Lemma header_bytes n : 0 <= n -> n + 4 < 2 ^ 24 ->
  tpkt_header n = [1; (n + 4) / 65536; (n + 4) / 256 mod 256; (n + 4) mod 256].
Proof.
  intros H1 H2. unfold tpkt_header, TPKT1_LENGTH. rewrite u32_id by lia.
  rewrite land_16777215, land_65535, land_255.
  rewrite !Z.shiftr_div_pow2 by lia. unfold u8, TPKT_VERSION1_LOW_BYTE. do 4 (apply (f_equal2 cons); [lia|]). done.
Qed.

Lemma length_bytes b0 b1 b2 b3 : packet_length [b0; b1; b2; b3] =
  Ok (Z.lor (Z.lor (Z.shiftl (Z.land b1 255) 16) (Z.shiftl (Z.land b2 255) 8)) (Z.land b3 255)).
Proof. done. Qed.

Lemma header_length n : 0 <= n -> n + 4 < 2 ^ 24 -> packet_length (tpkt_header n) = Ok (n + 4).
Proof.
  intros H1 H2. rewrite header_bytes, length_bytes by done. rewrite three_bytes by (unfold is_byte; lia). f_equal. lia.
Qed.

Lemma length_header n : length (tpkt_header n) = 4%nat.
Proof. done. Qed.

Lemma length_frame m : length (frame m) = (4 + length m)%nat.
Proof. unfold frame. by rewrite length_app. Qed.

(** ** The loop of the server *)
Section server.
Context {B : Type} {BE : Bufferevent B} {BL : BufferLaws B} {M : Malloc}.
Context (Hm : forall n, n <= TPKT1_MAX_MSG_LENGTH -> malloc_ok n = true).
Implicit Types (s : TcpSocket B) (m : bytes).

Lemma blit_all n data : zlen data = n -> blit (fresh_block n) 0 data = Ok data.
Proof.
  intros E. pose proof (length_fresh_block n). rewrite blit_Ok by lia. cbn [take app]. f_equal.
  rewrite drop_ge by lia. apply app_nil_r.
Qed.

Lemma view_short s b : _bev s = Some b -> zlen (input b) < 4 -> viewInputBuffer s TPKT1_LENGTH = None.
Proof. intros E Hl. unfold viewInputBuffer, TPKT1_LENGTH. rewrite E, pullup_ok by lia. split_if; [lia|done]. Qed.

Lemma view_frame s b m rest : _bev s = Some b -> input b = tpkt_header (zlen m) ++ rest ->
  viewInputBuffer s TPKT1_LENGTH = Some (tpkt_header (zlen m)).
Proof.
  intros E Hi. unfold viewInputBuffer, TPKT1_LENGTH. rewrite E, pullup_ok, Hi by lia. split_if; [done|].
  rewrite length_app, length_header in *. lia.
Qed.

Lemma input_length_s s b : _bev s = Some b -> zlen (input b) < 2 ^ 32 -> getInputBufferLength s = zlen (input b).
Proof. intros E Hl. unfold getInputBufferLength. rewrite E, input_length_ok. apply u32_id. lia. Qed.

(** Nothing to do: less than a header, or than the message it announces. *)
Lemma read_waits f s b : _bev s = Some b -> zlen (input b) < 4 -> onSessionRead (S f) s = Ok ([], s).
Proof.
  intros E Hl. cbn [onSessionRead]. rewrite (input_length_s s b), (view_short s b) by (done || lia).
  by destruct (zlen (input b) <? 1).
Qed.

Lemma read_waits_body f s b m rest : _bev s = Some b -> input b = tpkt_header (zlen m) ++ rest -> fits m ->
  zlen (input b) < 2 ^ 32 -> zlen rest < zlen m -> onSessionRead (S f) s = Ok ([], s).
Proof.
  intros E Hi Hf Hl Hr. unfold fits, TPKT1_LENGTH, TPKT1_MAX_MSG_LENGTH in Hf. cbn [onSessionRead].
  rewrite (view_frame s b m rest), (input_length_s s b) by done.
  split_if; [done|]. change (skip_byte (tpkt_header (zlen m)) s) with (Ok (A := TcpSocket B) s).
  cbn [mbind result_bind]. rewrite header_length by lia. cbn [mbind result_bind].
  split_if; [done|]. rewrite Hi, length_app, length_header in *. lia.
Qed.

(** A message is there. *)
Lemma read_message f s b m rest : _bev s = Some b -> input b = frame m ++ rest -> fits m ->
  zlen (input b) < 2 ^ 32 -> exists b', input b' = rest /\
  onSessionRead (S f) s =
    ('(evs, s) ← onSessionRead f (set_bev s b'); Ok (EMessage m (zlen m) :: evs, s)).
Proof.
  intros E Hi Hf Hl. unfold fits, TPKT1_LENGTH, TPKT1_MAX_MSG_LENGTH in Hf.
  destruct (remove_ok b (zlen m + 4)) as (b' & Hrem & Hb'); [lia|].
  assert (Z.to_nat (zlen m + 4) = length (frame m)) as En by (rewrite length_frame; lia).
  rewrite En, Hi in Hrem, Hb'. rewrite take_app_length in Hrem. rewrite drop_app_length in Hb'.
  exists b'. split; [done|]. pose proof Hi as Hi'. unfold frame in Hi'. rewrite <- app_assoc in Hi'. cbn [onSessionRead].
  rewrite (view_frame s b m (m ++ rest)), (input_length_s s b) by done.
  rewrite Hi, length_app, length_frame in *. split_if; [lia|].
  change (skip_byte (tpkt_header (zlen m)) s) with (Ok (A := TcpSocket B) s). cbn [mbind result_bind].
  rewrite header_length by lia. cbn [mbind result_bind]. split_if; [lia|].
  unfold take_message, readInputBuffer. rewrite E, Hrem, Hm by (unfold TPKT1_MAX_MSG_LENGTH; lia).
  rewrite blit_all by (rewrite length_frame; lia). cbn [mbind result_bind].
  unfold TPKT1_LENGTH. rewrite u32_id by lia. replace (zlen m + 4 - 4) with (zlen m) by lia.
  by destruct (onSessionRead f (set_bev s b')) as [[evs s']|].
Qed.

(** What waits: nothing, or less than the first of the messages. *)
Definition waits (rest : bytes) (msgs : list bytes) : Prop :=
  match msgs with [] => rest = [] | m :: _ => zlen rest < zlen (frame m) end.

Lemma read_messages msgs : forall f s b later, _bev s = Some b -> input b ++ later = flat_map frame msgs ->
  Forall fits msgs -> zlen (input b) < 2 ^ 32 -> (length (input b) < f)%nat ->
  exists msgs1 msgs2 s' b', msgs = msgs1 ++ msgs2 /\
    onSessionRead f s = Ok ((fun m => EMessage m (zlen m)) <$> msgs1, s') /\
    _bev s' = Some b' /\ input b' ++ later = flat_map frame msgs2 /\ waits (input b') msgs2 /\
    zlen (input b') <= zlen (input b).
Proof.
  induction msgs as [|m msgs IH]; intros f s b later E Hi Hf Hl Hn; (destruct f as [|f]; [lia|]).
  - cbn [flat_map] in Hi. apply app_eq_nil in Hi as [Hi ->].
    exists [], [], s, b. rewrite (read_waits f s b) by (done || rewrite Hi; cbn; lia). cbn. by rewrite Hi.
  - apply Forall_cons in Hf as [Hfm Hf]. cbn [flat_map] in Hi.
    destruct (decide (zlen (input b) < zlen (frame m))) as [Hw|Hw].
    + exists [], (m :: msgs), s, b. split; [done|]. split; [|by split_and!]. rewrite length_frame in Hw.
      destruct (decide (zlen (input b) < 4)) as [H4|H4]; [by apply (read_waits f s b)|].
      assert (take 4 (input b) = tpkt_header (zlen m)) as E4.
      { rewrite <- (take_app_le (input b) later) by lia. rewrite Hi. done. }
      pose proof (take_drop 4 (input b)) as Ed. rewrite E4 in Ed.
      apply (read_waits_body f s b m (drop 4 (input b))); try done. rewrite length_drop. lia.
    + rewrite length_frame in Hw.
      assert (exists rest, input b = frame m ++ rest /\ flat_map frame msgs = rest ++ later) as (rest & Hr & Hrest).
      { destruct (app_eq_inv _ _ _ _ Hi) as [(k & Hk & Hk')|(k & Hk & Hk')]; [by exists k|].
        pose proof (f_equal length Hk) as He. rewrite length_app, length_frame in He.
        assert (k = []) as -> by (apply nil_length_inv; lia). rewrite app_nil_r in Hk. cbn [app] in Hk'.
        exists []. by rewrite app_nil_r, Hk, Hk'. }
      destruct (read_message f s b m rest E Hr Hfm Hl) as (b1 & Hb1 & ->).
      assert (length (input b) = (4 + length m + length rest)%nat) as Hlen by (rewrite Hr, length_app, length_frame; lia).
      destruct (IH f (set_bev s b1) b1 later) as (ms1 & ms2 & s' & b' & -> & -> & Hs' & Hi' & Hw' & Hl'); try done.
      * by rewrite Hb1.
      * rewrite Hb1. lia.
      * rewrite Hb1. lia.
      * exists (m :: ms1), ms2, s', b'. split; [done|]. split; [done|]. split; [done|]. split; [done|].
        split; [done|]. rewrite Hb1 in Hl'. lia.
Qed.

(** What a session gets: after each chunk its read callback runs. *)
Fixpoint receive (f : nat) (chunks : list bytes) s : result (list effect * TcpSocket B) :=
  match chunks with
  | [] => Ok ([], s)
  | c :: chunks =>
      let s := match _bev s with Some b => set_bev s (arrive b c) | None => s end in
      '(ev, s) ← onSessionRead f s; '(evs, s) ← receive f chunks s; Ok (ev ++ evs, s)
  end.

Lemma receive_messages chunks : forall msgs f s b, _bev s = Some b ->
  input b ++ concat chunks = flat_map frame msgs -> waits (input b) msgs ->
  Forall fits msgs -> zlen (input b) + zlen (concat chunks) < 2 ^ 32 ->
  (length (input b) + length (concat chunks) < f)%nat ->
  exists s' b', receive f chunks s = Ok ((fun m => EMessage m (zlen m)) <$> msgs, s') /\
    _bev s' = Some b' /\ input b' = [].
Proof.
  induction chunks as [|c chunks IH]; intros msgs f s b E Hi Hw Hf Hl Hn; cbn [receive concat] in *.
  - rewrite app_nil_r in Hi. exists s, b. destruct msgs as [|m msgs]; [by rewrite Hw|].
    exfalso. cbn [flat_map waits] in *. rewrite Hi, length_app in Hw. lia.
  - rewrite E. rewrite length_app in *. set (s1 := set_bev s (arrive b c)).
    assert (length (input (arrive b c)) = (length (input b) + length c)%nat) as Hc
      by (rewrite input_arrive; apply length_app).
    destruct (read_messages msgs f s1 (arrive b c) (concat chunks))
      as (ms1 & ms2 & s2 & b2 & -> & -> & Hs2 & Hi2 & Hw2 & Hl2); try done; try lia.
    { by rewrite input_arrive, <- app_assoc. }
    apply Forall_app in Hf as [_ Hf]. cbn [mbind result_bind].
    destruct (IH ms2 f s2 b2) as (s' & b' & -> & Hs' & Hb'); try done; try lia.
    exists s', b'. split; [|done]. cbn [mbind result_bind]. by rewrite fmap_app.
Qed.
End server.

(** ** The sender *)
Section sender.
Context {B : Type} {BE : Bufferevent B} {BL : BufferLaws B}.
Implicit Types (s : TcpSocket B) (m : bytes).

(** An application that stops at the first failure. *)
Fixpoint send_all (msgs : list bytes) s : bool * TcpSocket B :=
  match msgs with
  | [] => (true, s)
  | m :: msgs => let '(ret, s) := sendWithTPKT s m in if ret then send_all msgs s else (false, s)
  end.

Lemma send_written s b d s' : _bev s = Some b -> send s d = (true, s') ->
  exists b', _bev s' = Some b' /\ output b' = output b ++ d.
Proof.
  intros E. unfold send. rewrite E. destruct (_isClosing s); [done|].
  destruct (bufferevent_write b d) as [b'|] eqn:Hw; [|done]. intros [= <-].
  exists b'. split; [done|]. by apply write_ok in Hw as [-> _].
Qed.

Lemma send_all_written msgs : forall s b s', _bev s = Some b -> send_all msgs s = (true, s') ->
  exists b', _bev s' = Some b' /\ output b' = output b ++ flat_map frame msgs.
Proof.
  induction msgs as [|m msgs IH]; intros s b s' E; cbn [send_all flat_map].
  { intros [= <-]. exists b. by rewrite app_nil_r. }
  unfold sendWithTPKT. destruct (send s _) as [[|] s1] eqn:H1; [|done]. cbn [negb].
  destruct (send s1 m) as [[|] s2] eqn:H2; [|done]. intros H.
  destruct (send_written s b _ s1 E H1) as (b1 & E1 & O1).
  destruct (send_written s1 b1 _ s2 E1 H2) as (b2 & E2 & O2).
  destruct (IH s2 b2 s' E2 H) as (b' & E' & O'). exists b'. split; [done|].
  rewrite O', O2, O1. unfold frame. by rewrite <- !app_assoc.
Qed.
End sender.

(** ** Properties *)

(** C20: A peer sends messages of up to [TPKT1_MAX_MSG_LENGTH - 4] bytes with
    [sendWithTPKT] and the network cuts what was written into any chunks. After
    each chunk the server's [onSessionRead] returns, and all together they call
    [onRead] once for each message, in order, with its bytes and its length,
    and leave nothing in the buffer. *)
Theorem tpkt_roundtrip {B : Type} {BE : Bufferevent B} {BL : BufferLaws B} {M : Malloc}
    (s s' r : TcpSocket B) b b' rb msgs chunks f :
  (forall n, n <= TPKT1_MAX_MSG_LENGTH -> malloc_ok n = true) ->
  Forall fits msgs -> _bev s = Some b -> send_all msgs s = (true, s') -> _bev s' = Some b' ->
  output b' = output b ++ concat chunks -> zlen (concat chunks) < 2 ^ 32 ->
  _bev r = Some rb -> input rb = [] -> (length (concat chunks) < f)%nat ->
  exists r' rb', receive f chunks r = Ok ((fun m => EMessage m (zlen m)) <$> msgs, r') /\
    _bev r' = Some rb' /\ input rb' = [].
Proof.
  intros Hm Hf Eb Hs Eb' Ho Hl Er Hi Hn.
  destruct (send_all_written msgs s b s' Eb Hs) as (b1 & E1 & O1).
  assert (b1 = b') as -> by congruence. rewrite Ho in O1. apply app_inv_head in O1.
  apply (receive_messages Hm chunks msgs f r rb); rewrite ?Hi; try done.
  destruct msgs as [|m msgs]; [done|]. cbn [waits]. rewrite length_frame. cbn. lia.
Qed.

(** A header with the length 0 stops the server: [onSessionRead] reports a
    message of 4294967292 bytes, removes nothing and goes round for ever. *)
Lemma tpkt_zero_spins {B : Type} {BE : Bufferevent B} {BL : BufferLaws B} {M : Malloc} f :
  forall (s : TcpSocket B) b rest, _bev s = Some b -> input b = [1; 0; 0; 0] ++ rest ->
  zlen (input b) < 2 ^ 32 -> onSessionRead f s = Fault OutOfFuel.
Proof.
  induction f as [|f IH]; intros s b rest E Hi Hl; [done|]. cbn [onSessionRead].
  destruct (remove_ok b 0) as (b' & Hrem & Hb'); [lia|]. 
  rewrite (input_length_s s b) by done. split_if; [rewrite Hi in *; cbn in *; lia|].
  unfold viewInputBuffer, TPKT1_LENGTH at 1. rewrite E, pullup_ok, Hi by lia.
  split_if; [|rewrite length_app in *; cbn in *; lia].
  change (take (Z.to_nat 4) ([1; 0; 0; 0] ++ rest)) with [1; 0; 0; 0].
  change (skip_byte [1; 0; 0; 0] s) with (Ok (A := TcpSocket B) s). cbn [mbind result_bind].
  change (packet_length [1; 0; 0; 0]) with (Ok 0). cbn [mbind result_bind]. split_if; [lia|].
  unfold take_message, readInputBuffer. rewrite E, Hrem. change (take (Z.to_nat 0) (input b)) with ([] : bytes).
  change (drop (Z.to_nat 0) (input b)) with (input b) in Hb'.
  assert ((if malloc_ok 0 then blit (fresh_block 0) 0 [] else if zlen ([] : bytes) =? 0 then Ok [] else Fault NullDeref) = Ok []) as ->
    by (by destruct (malloc_ok 0)).
  cbn [mbind result_bind].
  rewrite <- Hb' in Hi, Hl. by rewrite (IH (set_bev s b') b' rest).
Qed.

(** The client's [onRead] delivers no message that is not empty: it copies
    it into a block of 4 bytes, and uses [NULL] when less than a header has
    arrived. *)
Lemma tpkt_client_overflows {B : Type} {BE : Bufferevent B} {BL : BufferLaws B} {M : Malloc}
    (s : TcpSocket B) b m rest f :
  _bev s = Some b -> zlen (input b) < 2 ^ 32 ->
  (0 < zlen m -> fits m -> input b = frame m ++ rest -> exists e, onRead_client (S f) s = Fault e /\ e <> OutOfFuel) /\
  (0 < zlen (input b) < 4 -> onRead_client (S f) s = Fault NullDeref).
Proof.
  intros E Hl. split.
  - intros Hpos Hf Hi. unfold fits, TPKT1_LENGTH, TPKT1_MAX_MSG_LENGTH in Hf.
    pose proof Hi as Hi'. unfold frame in Hi'. rewrite <- app_assoc in Hi'.
    destruct (remove_ok b (zlen m + 4)) as (b' & Hrem & Hb'); [lia|].
    assert (Z.to_nat (zlen m + 4) = length (frame m)) as En by (rewrite length_frame; lia).
    rewrite En, Hi, take_app_length in Hrem. cbn [onRead_client].
    rewrite (view_frame s b m (m ++ rest)), (input_length_s s b) by done.
    rewrite Hi, length_app, length_frame in *. split_if; [lia|].
    change (skip_byte (tpkt_header (zlen m)) s) with (Ok (A := TcpSocket B) s). cbn [mbind result_bind].
    rewrite header_length by lia. cbn [mbind result_bind]. split_if; [lia|].
    unfold take_message_client, readInputBuffer. rewrite E, Hrem. destruct (malloc_ok 4).
    + exists OutOfBounds. split; [|done]. unfold blit. rewrite length_fresh_block.
      split_if; [|done]. rewrite length_frame in *. lia.
    + exists NullDeref. split; [|done]. split_if; [|done]. rewrite length_frame in *. lia.
  - intros H4. cbn [onRead_client]. rewrite (input_length_s s b), (view_short s b) by (done || lia).
    by split_if; [lia|].
Qed.

(** ** Witnesses *)

(** Two messages, cut in the middle of a header and of a message. *)
Lemma tpkt_roundtrip_witness :
  let msgs := [lit "GET"; lit "value"] in
  let chunks := [take 2 (flat_map frame msgs); take 7 (drop 2 (flat_map frame msgs)); drop 9 (flat_map frame msgs)] in
  exists s' r', send_all msgs (fresh_socket 5) = (true, s') /\
    receive (M := malloc_yes) 40 chunks (fresh_socket 6) = Ok ([EMessage (lit "GET") 3; EMessage (lit "value") 5], r').
Proof.
  intros msgs chunks. eexists.
  destruct (tpkt_roundtrip (M := malloc_yes) (fresh_socket 5) (mk_socket (Some (mk_buffers [] (flat_map frame msgs) 5)) false false)
    (fresh_socket 6) (mk_buffers [] [] 5) (mk_buffers [] (flat_map frame msgs) 5) (mk_buffers [] [] 6) msgs chunks 40)
    as (r' & rb' & E & _); try reflexivity.
  - by repeat constructor.
  - cbn. lia.
  - exists r'. split; [reflexivity|exact E].
Defined.

Example tpkt_zero_spins_at :
  onSessionRead (M := malloc_yes) 1000 (mk_socket (Some (mk_buffers [1; 0; 0; 0] [] 5)) false false) = Fault OutOfFuel.
Proof.
  by apply (tpkt_zero_spins (M := malloc_yes) 1000 _ (mk_buffers [1; 0; 0; 0] [] 5) []).
Defined.

Example tpkt_client_overflows_at : exists e,
  onRead_client (M := malloc_yes) 10 (mk_socket (Some (mk_buffers (frame (lit "+OK")) [] 5)) false false) = Fault e /\
  e <> OutOfFuel.
Proof.
  by apply (tpkt_client_overflows (M := malloc_yes) _ (mk_buffers (frame (lit "+OK")) [] 5) (lit "+OK") [] 9).
Defined.
