(* ===== verification/Loops.v ===== *)
(** * Loops: event loops and their threads (loop.cpp, loop.h, frameLoop.cpp)

    A loop has an [event_base], a number in a table of all loops, and a thread
    if it was started with one. Its owner and its thread share the status: the
    owner's calls are cut where they look at it or wait. A frame loop calls a
    function of its class every few milliseconds. *)
From S2P Require Import Prelude Mem StdMap Timers.
From stdpp Require Import list list_numbers strings.
From Stdlib Require Import ZArith Lia.
Open Scope Z_scope.

Definition StatusInit : Z := 0.
Definition StatusRunning : Z := 2.
Definition StatusFinished : Z := 4.

(** A thread of [_run]: where it is, and whether it was joined. *)
Inductive phase : Type := Created | InLoop | Ended.

Record run_thread : Type := mk_thread {
  th_phase : phase;
  th_joined : bool
}.

(** [_thread] is the head of [_threads]; the others were overwritten. *)
Record Loop : Type := mk_loop {
  _id : Z;
  _base : bool;
  _threads : list run_thread;
  _status : Z
}.

(** The static members: the table of loops by their numbers. *)
Record loops : Type := mk_loops {
  _sLoops : list (Z * Z);
  _sIdGenerater : Z
}.

#[export] Instance phase_eq_dec : EqDecision phase.
Proof. solve_decision. Defined.
#[export] Instance run_thread_eq_dec : EqDecision run_thread.
Proof. solve_decision. Defined.
#[export] Instance Loop_eq_dec : EqDecision Loop.
Proof. solve_decision. Defined.

Definition set_threads (l : Loop) (ts : list run_thread) : Loop :=
  mk_loop (_id l) (_base l) ts (_status l).
Definition set_status (l : Loop) (st : Z) : Loop := mk_loop (_id l) (_base l) (_threads l) st.

(** The constructor for the loop at [this]; [event_base_new] gives a base or
    [NULL], for which an exception leaves the constructor. *)
Definition new_Loop (event_base_new : bool) (this : Z) (g : loops) : option Loop * loops :=
  let id := u32 (_sIdGenerater g + 1) in
  let g := mk_loops (std_set id this (_sLoops g)) id in
  if event_base_new then (Some (mk_loop id true [] StatusInit), g) else (None, g).

(** [Loop::get]. *)
Definition loop_get (id : Z) (g : loops) : option Z := std_find id (_sLoops g).

(** [start] in a new thread; [_run] in this one is a thread that is over. *)
Definition start (newThread : bool) (l : Loop) : bool * Loop :=
  if negb (_status l =? StatusInit) then (false, l)
  else if newThread then (true, set_threads l (mk_thread Created false :: _threads l))
  else (true, set_status l StatusFinished).

(** [_run]: up to [event_base_loop], and after it. *)
Definition run_enter (l : Loop) : Loop := set_status l StatusRunning.
Definition run_leave (l : Loop) : Loop := set_status l StatusFinished.

(** [wait] up to [join]: whether it joins. *)
Definition wait_looks (l : Loop) : bool :=
  match _threads l with [] => false | _ :: _ => negb (_status l =? StatusFinished) end.

(** [join]: [None] while the thread runs. A thread is joined once. *)
Definition join (l : Loop) : option (result Loop) :=
  match _threads l with
  | [] => Some (Fault NullDeref)
  | t :: ts =>
      if th_joined t then Some (Fault AssertFailed)
      else match th_phase t with
           | Ended => Some (Ok (set_threads l (mk_thread Ended true :: ts)))
           | _ => None
           end
  end.

(** The destructor after [stop] and [wait]: deleting a [std::thread] that was
    not joined ends the program. *)
Definition delete_thread (l : Loop) : result Loop :=
  match _threads l with
  | [] => Ok l
  | t :: _ => if th_joined t then Ok l else Fault AssertFailed
  end.

Definition delete_Loop (l : Loop) (g : loops) : result loops :=
  l ← delete_thread l; Ok (mk_loops (std_erase (_id l) (_sLoops g)) (_sIdGenerater g)).

(** ** Frame loops *)
Section frames.
Context {L : Libevent}.

Record FrameLoop : Type := mk_frame_loop {
  fl_loop : Loop;
  _frameTimer : Timer;
  _frameInterval : Z
}.

Definition new_FrameLoop (l : Loop) : FrameLoop := mk_frame_loop l new_Timer 10.

Definition setFrameInterval (interval : Z) (f : FrameLoop) : FrameLoop :=
  if 0 <? interval then mk_frame_loop (fl_loop f) (_frameTimer f) interval else f.

(** [onFrame] is the handler. *)
Definition onBeforeLoop (onFrame : Z) (f : FrameLoop) : FrameLoop :=
  mk_frame_loop (fl_loop f) (startForever (_frameInterval f) (UserHandler onFrame) (_frameTimer f)).2 (_frameInterval f).

Definition curFrameRound (f : FrameLoop) : Z := _curRound (_frameTimer f).
End frames.

(** ** An owner and the thread

    The pieces of the owner's calls, in the order of the code: [wait] looks at
    the status and may join; the destructor of a loop with a thread stops,
    waits and deletes the thread. What [stop] asks of the event base is not
    followed: the thread may leave its loop at any time, asked or not. *)
Inductive act : Type := AStart | AStop | ALook | AJoin | ADelete | ADeleteThread.

(** What is remembered of a run. *)
Inductive mark : Type := Ends | Looks.

Record owner_state : Type := mk_owner {
  lp : Loop;
  todo : list act;
  terminated : bool;
  marks : list mark
}.

#[export] Instance act_eq_dec : EqDecision act.
Proof. solve_decision. Defined.
#[export] Instance mark_eq_dec : EqDecision mark.
Proof. solve_decision. Defined.
#[export] Instance owner_state_eq_dec : EqDecision owner_state.
Proof. solve_decision. Defined.

Definition going (r : result Loop) (rest : list act) (s : owner_state) : owner_state :=
  match r with
  | Ok l => mk_owner l rest false (marks s)
  | Fault _ => mk_owner (lp s) [] true (marks s)
  end.

(** A step of the owner; it stays where it is while it waits for the thread. *)
Definition owner_step (s : owner_state) : owner_state :=
  match todo s with
  | [] => s
  | AStart :: rest => going (Ok (start true (lp s)).2) rest s
  | AStop :: rest => going (Ok (lp s)) rest s
  | ALook :: rest =>
      mk_owner (lp s) (if wait_looks (lp s) then AJoin :: rest else rest) (terminated s) (marks s ++ [Looks])
  | AJoin :: rest => match join (lp s) with Some r => going r rest s | None => s end
  | ADelete :: rest =>
      match _threads (lp s) with
      | [] => going (Ok (lp s)) rest s
      | _ => going (Ok (lp s)) (AStop :: ALook :: ADeleteThread :: rest) s
      end
  | ADeleteThread :: rest => going (delete_thread (lp s)) rest s
  end.

(** A step of the thread. *)
Definition thread_step (s : owner_state) : owner_state :=
  if terminated s then s else
  match _threads (lp s) with
  | mk_thread Created j :: ts =>
      mk_owner (set_threads (run_enter (lp s)) (mk_thread InLoop j :: ts)) (todo s) false (marks s)
  | mk_thread InLoop j :: ts =>
      mk_owner (set_threads (run_leave (lp s)) (mk_thread Ended j :: ts)) (todo s) false (marks s ++ [Ends])
  | _ => s
  end.

(** [true] is a step of the owner. *)
Fixpoint run_owner (sched : list bool) (s : owner_state) : owner_state :=
  match sched with
  | [] => s
  | true :: sched => run_owner sched (owner_step s)
  | false :: sched => run_owner sched (thread_step s)
  end.

(** * How a loop ends *)
(** ** Reachable states *)
Section explore.
Context {S : Type} `{EqDecision S} (steps : list (S -> S)).

(** [todo] are states of which the steps have not been taken. *)
Fixpoint explore (fuel : nat) (todo seen : list S) : list S :=
  match fuel, todo with
  | O, _ => todo ++ seen
  | _, [] => seen
  | Datatypes.S fuel, x :: todo =>
      let next := filter (fun y => y ∉ x :: todo ++ seen) (remove_dups ((fun f => f x) <$> steps)) in
      explore fuel (todo ++ next) (x :: seen)
  end.

Definition closed (l : list S) : bool :=
  forallb (fun x => forallb (fun f => bool_decide (f x ∈ l)) steps) l.

Lemma closed_step l x f : closed l = true -> x ∈ l -> f ∈ steps -> f x ∈ l.
Proof.
  unfold closed. rewrite forallb_forall. intros H Hx Hf. specialize (H x).
  rewrite <- list_elem_of_In, forallb_forall in H. specialize (H Hx f).
  rewrite <- list_elem_of_In in H. exact (bool_decide_eq_true_1 _ (H Hf)).
Qed.
End explore.

Lemma run_owner_in l s sched : closed [owner_step; thread_step] l = true -> s ∈ l -> run_owner sched s ∈ l.
Proof.
  intros Hc. revert s. induction sched as [|[|] sched IH]; intros s Hs; [done|..]; cbn [run_owner]; apply IH.
  - apply (closed_step [owner_step; thread_step] l s owner_step); [done|done|by left].
  - apply (closed_step [owner_step; thread_step] l s thread_step); [done|done|by right; left].
Qed.

(** What holds in all states that are computed holds after every run. *)
Lemma check_runs (P : owner_state -> bool) s fuel sched :
  let l := explore [owner_step; thread_step] fuel [s] [] in
  bool_decide (s ∈ l) && closed [owner_step; thread_step] l && forallb P l = true -> P (run_owner sched s) = true.
Proof.
  intros l [[Hs Hc]%andb_true_iff Hp]%andb_true_iff. rewrite forallb_forall in Hp.
  apply Hp, list_elem_of_In, run_owner_in; [done|]. by apply bool_decide_eq_true in Hs.
Qed.

(** ** Properties *)

(** A loop as its constructor leaves it, and what its owner will do. *)
Definition owned (acts : list act) : owner_state := mk_owner (mk_loop 1 true [] StatusInit) acts false [].

(** How it ends, as a test of a state. *)
Definition shut_down (s : owner_state) : bool :=
  match todo s with
  | [] =>
      bool_decide (terminated s = true <-> head (marks s) = Some Ends) &&
      (terminated s || bool_decide (_threads (lp s) = [mk_thread Ended true]) && (_status (lp s) =? StatusFinished))
  | _ => true
  end.

(** C22: An owner starts a loop in a thread, stops it, waits for it and deletes
    it. In every interleaving, once the calls have been made, the program was
    terminated, because the destructor deletes a thread that nobody joined, if
    and only if the thread left its loop before [wait] looked at the status;
    otherwise the thread has ended and was joined. *)
Theorem loop_shutdown sched :
  let s := run_owner sched (owned [AStart; AStop; ALook; ADelete]) in
  todo s = [] ->
  (terminated s = true <-> head (marks s) = Some Ends) /\
  (terminated s = false -> _threads (lp s) = [mk_thread Ended true] /\ _status (lp s) = StatusFinished).
Proof.
  intros s Ht.
  assert (shut_down s = true) as H by (apply (check_runs shut_down _ 60); vm_compute; reflexivity).
  unfold shut_down in H. rewrite Ht in H. apply andb_true_iff in H as [H1%bool_decide_eq_true H2].
  split; [done|]. intros Hf. rewrite Hf in H2. by apply andb_true_iff in H2 as [H2%bool_decide_eq_true H3%Z.eqb_eq].
Qed.

(** Both happen. *)
Lemma loop_shutdown_witness :
  let s := run_owner [true; false; true; false; true; true; true; true; true] (owned [AStart; AStop; ALook; ADelete]) in
  todo s = [] /\ terminated s = true.
Proof.
  split; [vm_compute; reflexivity|].
  apply (loop_shutdown [true; false; true; false; true; true; true; true; true]); vm_compute; reflexivity.
Defined.

(** ** Cases *)

(** A loop whose constructor throws stays in the table. *)
Example thrown_loop_stays : (new_Loop false 4096 (mk_loops [] 0)).1 = None /\
  loop_get 1 (new_Loop false 4096 (mk_loops [] 0)).2 = Some 4096.
Proof. done. Qed.

(** A second [start] before the first thread runs makes a second thread, and
    the first is lost. *)
Example started_twice : length (_threads (start true (start true (mk_loop 1 true [] StatusInit)).2).2) = 2%nat.
Proof. done. Qed.
