(* ===== verification/TcpServer.v ===== *)
(** * TcpServer: sessions of a server (tcpSession.cpp, tcpServerDispatcher.cpp,
    tcpServer.cpp)

    The listener numbers each connection and gives it to one of the
    dispatchers, by its number. A dispatcher is a frame loop: it keeps a queue
    of sessions to add and to remove, and works it off in every frame. A
    session that ends asks its dispatcher to remove it. The functions that
    touch the queue or the sessions hold the mutex of the dispatcher. *)
From S2P Require Import Prelude Mem StdMap System Tcp Loops.
From stdpp Require Import list list_numbers strings.
From Stdlib Require Import ZArith Lia.
Open Scope Z_scope.

Definition SOCKET_FD_INVALID : Z := -1.

Section server.
Context {B : Type} {BE : Bufferevent B}.

(** ** TcpSession *)
Record TcpSession : Type := mk_session {
  s_socket : TcpSocket B;
  s_id : Z
}.

(** ** TcpServerDispatcher *)
Record TcpServerDispatcher : Type := mk_dispatcher {
  d_loop : Loop;
  _sessions : list (Z * TcpSession);
  _actions : list (Z * Z)
}.

Implicit Types d : TcpServerDispatcher.

Definition new_TcpServerDispatcher (l : Loop) : TcpServerDispatcher := mk_dispatcher l [] [].

Definition getSession (id : Z) d : option TcpSession := std_find id (_sessions d).
Definition addSession (id sock : Z) d : TcpServerDispatcher :=
  mk_dispatcher (d_loop d) (_sessions d) (_actions d ++ [(id, sock)]).
Definition removeSession (id : Z) d : TcpServerDispatcher :=
  mk_dispatcher (d_loop d) (_sessions d) (_actions d ++ [(id, SOCKET_FD_INVALID)]).

(** [TcpSession::attach] of a new session: [None] when it fails. *)
Definition attach (id sock : Z) : list effect * option TcpSession :=
  if sock =? SOCKET_FD_INVALID then ([], None)
  else
    match bufferevent_socket_new sock with
    | None => ([], None)
    | Some b =>
        match bufferevent_enable b with
        | None => ([], None)
        | Some b => ([ENewSession id], Some (mk_session (mk_socket (Some b) false false) id))
        end
    end.

(** The loop of [onFrame]. The map holds the only pointer to a session, so
    that erasing it runs the destructor. *)
Definition drop_session (id : Z) (m : list (Z * TcpSession)) : list effect :=
  match std_find id m with Some s => delete_TcpSocket (s_socket s) | None => [] end.

Definition frame_action (id sock : Z) (m : list (Z * TcpSession)) : list effect * list (Z * TcpSession) :=
  if negb (sock =? SOCKET_FD_INVALID) then
    match attach id sock with
    | (ev, Some s) => (ev ++ drop_session (s_id s) m, std_set (s_id s) s m)
    | (ev, None) => (ev, m)
    end
  else (drop_session id m, std_erase id m).

Fixpoint frame_loop (actions : list (Z * Z)) (m : list (Z * TcpSession)) : list effect * list (Z * TcpSession) :=
  match actions with
  | [] => ([], m)
  | action :: actions =>
      let '(ev, m) := frame_action action.1 action.2 m in
      let '(evs, m) := frame_loop actions m in (ev ++ evs, m)
  end.

Definition onFrame d : list effect * TcpServerDispatcher :=
  match _actions d with
  | [] => ([], d)
  | actions => let '(evs, m) := frame_loop actions (_sessions d) in (evs, mk_dispatcher (d_loop d) m [])
  end.

(** [TcpSession::handleEvent], in its dispatcher. *)
Definition session_handleEvent (s : TcpSession) d : list effect * TcpServerDispatcher :=
  let k := s_socket s in
  let k := match _bev k with Some b => set_bev k (bufferevent_disable b) | None => k end in
  let m := std_set (s_id s) (mk_session k (s_id s)) (_sessions d) in
  ([EClose (socket k); ESessionDisconnected (s_id s)], removeSession (s_id s) (mk_dispatcher (d_loop d) m (_actions d))).

(** ** TcpServer

    [listener] is [_eventListener]; [s_sessionIdGenerator] is static. *)
Record TcpServer : Type := mk_server {
  listener : option Z;
  _master : TcpServerDispatcher;
  _slavers : list TcpServerDispatcher;
  s_sessionIdGenerator : Z
}.

Implicit Types srv : TcpServer.

(** [setThreads], and the constructor; [ls] are the loops of the dispatchers,
    one for each thread. *)
Definition setThreads (ls : list Loop) srv : TcpServer :=
  match _slavers srv with
  | [] => mk_server (listener srv) (_master srv) (new_TcpServerDispatcher <$> ls) (s_sessionIdGenerator srv)
  | _ => srv
  end.
Definition new_TcpServer (l : Loop) (ls : list Loop) (gen : Z) : TcpServer :=
  setThreads ls (mk_server None (new_TcpServerDispatcher l) [] gen).

(** A dispatcher starts its loop in a thread. *)
Definition start_dispatcher d : bool * TcpServerDispatcher :=
  let '(ret, l) := start true (d_loop d) in (ret, mk_dispatcher l (_sessions d) (_actions d)).

(** [listen]; [bound] is the result of [evconnlistener_new_bind]. *)
Definition listen (bound : option Z) srv : bool * list effect * TcpServer :=
  match bound with
  | None => (false, [], mk_server None (_master srv) (_slavers srv) (s_sessionIdGenerator srv))
  | Some l =>
      let '(ret, m) := start_dispatcher (_master srv) in
      if negb ret then (false, [EFreeListener l], mk_server None m (_slavers srv) (s_sessionIdGenerator srv))
      else (true, [], mk_server (Some l) m ((fun d => (start_dispatcher d).2) <$> _slavers srv) (s_sessionIdGenerator srv))
  end.

(** The destructor, after it has deleted the dispatchers. *)
Definition delete_TcpServer srv : list effect :=
  match listener srv with Some l => [EFreeListener l] | None => [] end.

(** [getSessionDispatcher]: which dispatcher it is, [None] for the master. *)
Definition dispatcher_index (id : Z) srv : option nat :=
  match _slavers srv with
  | [] => None
  | ds => Some (Z.to_nat (id mod zlen ds))
  end.

Definition get_dispatcher (k : option nat) srv : result TcpServerDispatcher :=
  match k with
  | None => Ok (_master srv)
  | Some i => match _slavers srv !! i with Some d => Ok d | None => Fault OutOfBounds end
  end.
Definition set_dispatcher (k : option nat) d srv : TcpServer :=
  match k with
  | None => mk_server (listener srv) d (_slavers srv) (s_sessionIdGenerator srv)
  | Some i => mk_server (listener srv) (_master srv) (<[i := d]> (_slavers srv)) (s_sessionIdGenerator srv)
  end.

Definition getSessionDispatcher (id : Z) srv : result TcpServerDispatcher :=
  get_dispatcher (dispatcher_index id srv) srv.

(** A new connection on [sock]. *)
Definition listenEventCallback (sock : Z) srv : result (Z * TcpServer) :=
  let id := u64 (s_sessionIdGenerator srv + 1) in
  let srv := mk_server (listener srv) (_master srv) (_slavers srv) id in
  d ← getSessionDispatcher id srv;
  Ok (id, set_dispatcher (dispatcher_index id srv) (addSession id sock d) srv).

(** A frame of the dispatcher [k]. *)
Definition server_frame (k : option nat) srv : result (list effect * TcpServer) :=
  d ← get_dispatcher k srv;
  let '(evs, d) := onFrame d in Ok (evs, set_dispatcher k d srv).

(** An event of the session [id]: there is none without its bufferevent. *)
Definition server_event (id : Z) srv : result (list effect * TcpServer) :=
  d ← getSessionDispatcher id srv;
  match getSession id d with
  | None => Ok ([], srv)
  | Some s =>
      let '(evs, d) := session_handleEvent s d in
      Ok (evs, set_dispatcher (dispatcher_index id srv) d srv)
  end.
End server.
Arguments TcpSession : clear implicits.
Arguments TcpServerDispatcher : clear implicits.
Arguments TcpServer : clear implicits.
