(* ===== verification/TcpCorrect.v ===== *)
(** * TcpCorrect: sockets, clients and the sessions of a server *)
From S2P Require Import Prelude Mem StdMap System Tcp Loops TcpServer.
From stdpp Require Import list list_numbers strings sets.
From Stdlib Require Import ZArith Lia.
Open Scope Z_scope.

(** ** Sessions

    The sessions that a dispatcher has after its next frame, by the
    descriptors of their sockets. *)
Section sessions.
Context {B : Type} {BE : Bufferevent B} {BL : BufferLaws B}.
Implicit Types (d : TcpServerDispatcher B) (srv : TcpServer B) (m : list (Z * TcpSession B)).

Definition fd_of (s : TcpSession B) : Z := socket (s_socket s).

(** Whether libevent makes a bufferevent for the socket. *)
Definition attaches (sock : Z) : bool :=
  negb (sock =? SOCKET_FD_INVALID) &&
  match bufferevent_socket_new sock with
  | Some b => match bufferevent_enable b with Some _ => true | None => false end
  | None => false
  end.

(** What an action does to the descriptors. *)
Definition act_on (id : Z) (a : Z * Z) (o : option Z) : option Z :=
  if decide (id = a.1) then
    if a.2 =? SOCKET_FD_INVALID then None else if attaches a.2 then Some a.2 else o
  else o.

Lemma session_attach id sock : sock <> SOCKET_FD_INVALID ->
  match (attach id sock).2 with
  | Some s => attaches sock = true /\ s_id s = id /\ fd_of s = sock
  | None => attaches sock = false
  end.
Proof.
  intros Hne. unfold attach, attaches. destruct (sock =? SOCKET_FD_INVALID) eqn:E; bool_to_prop; [done|].
  cbn [negb andb]. destruct (bufferevent_socket_new sock) as [b|] eqn:E1; [|done].
  destruct (bufferevent_enable b) as [b'|] eqn:E2; [|done]. cbn. split; [done|]. split; [done|].
  unfold fd_of, socket. cbn. rewrite (enable_fd _ _ E2). by apply new_fd.
Qed.

Lemma frame_action_find i sock id m :
  fd_of <$> std_find id (frame_action i sock m).2 = act_on id (i, sock) (fd_of <$> std_find id m).
Proof.
  unfold frame_action, act_on. cbn [fst snd]. destruct (sock =? SOCKET_FD_INVALID) eqn:E; bool_to_prop; cbn [negb].
  - cbn [snd]. case_decide as Hd; [subst i; by rewrite find_erase_eq|by rewrite find_erase_ne].
  - pose proof (session_attach i sock E) as Ha. destruct (attach i sock) as [ev [s|]]; cbn [snd] in *.
    + destruct Ha as (Ha & Hi & Hf). rewrite Hi, find_set, Ha. case_decide; [by cbn; rewrite Hf|done].
    + rewrite Ha. by case_decide.
Qed.

Lemma frame_loop_find acts id : forall m,
  fd_of <$> std_find id (frame_loop acts m).2 = foldl (fun o a => act_on id a o) (fd_of <$> std_find id m) acts.
Proof.
  induction acts as [|[i sock] acts IH]; intros m; cbn [frame_loop foldl fst snd]; [done|].
  rewrite <- frame_action_find. destruct (frame_action i sock m) as [ev m1]. cbn [snd]. rewrite <- IH.
  by destruct (frame_loop acts m1).
Qed.

(** The descriptor of the session [id] after the next frame. *)
Definition due (id : Z) d : option Z :=
  foldl (fun o a => act_on id a o) (fd_of <$> getSession id d) (_actions d).

Lemma onFrame_due id d : due id (onFrame d).2 = due id d /\ (fd_of <$> getSession id (onFrame d).2) = due id d.
Proof.
  unfold due, onFrame, getSession. destruct (_actions d) as [|a acts] eqn:E; [by cbn; rewrite E|].
  destruct (frame_loop (a :: acts) (_sessions d)) as [evs m] eqn:Ef.
  pose proof (frame_loop_find (a :: acts) id (_sessions d)) as H. rewrite Ef in H. cbn [snd _actions _sessions foldl] in *.
  by rewrite H.
Qed.

Lemma due_add id i sock d : due id (addSession i sock d) = act_on id (i, sock) (due id d).
Proof. unfold due, addSession, getSession. cbn [_actions _sessions]. by rewrite foldl_app. Qed.

Lemma due_event id s d : getSession (s_id s) d = Some s ->
  due id (session_handleEvent s d).2 = if decide (id = s_id s) then None else due id d.
Proof.
  intros Hs. unfold due, session_handleEvent, getSession, removeSession in *. cbn [snd _actions _sessions].
  rewrite foldl_app. cbn [foldl]. unfold act_on at 1. cbn [fst snd]. case_decide as Hd; [done|].
  by rewrite find_set_ne by done.
Qed.

(** ** Runs of a server *)
Inductive srv_op : Type :=
  | Accept (sock : Z)
  | Frame (k : option nat)
  | Event (id : Z).

Definition run_srv_op (o : srv_op) srv : result (list effect * TcpServer B) :=
  match o with
  | Accept sock => '(_, srv) ← listenEventCallback sock srv; Ok ([], srv)
  | Frame k => server_frame k srv
  | Event id => server_event id srv
  end.

Fixpoint run_srv (l : list srv_op) srv : result (list effect * TcpServer B) :=
  match l with
  | [] => Ok ([], srv)
  | o :: l => '(ev, srv) ← run_srv_op o srv; '(evs, srv) ← run_srv l srv; Ok (ev ++ evs, srv)
  end.

(** A dispatcher of the server; the sockets that were accepted. *)
Definition has_dispatcher (n : nat) (k : option nat) : Prop :=
  match k with None => True | Some i => (i < n)%nat end.
Definition op_ok (n : nat) (o : srv_op) : Prop := match o with Frame k => has_dispatcher n k | _ => True end.
Definition accepts (o : srv_op) : list Z := match o with Accept sock => [sock] | _ => [] end.

(** What the session [id] should have. *)
Definition expected (acc : list Z) (evs : list effect) (id : Z) : option Z :=
  if decide (1 <= id) then
    match acc !! Z.to_nat (id - 1) with
    | Some sock => if attaches sock && bool_decide (ESessionDisconnected id ∉ evs) then Some sock else None
    | None => None
    end
  else None.

(** The sessions and the actions have numbers that were given out. *)
Definition keyed (N : Z) m : Prop := forall id s, std_find id m = Some s -> s_id s = id /\ id <= N.
Definition numbered (N : Z) d : Prop := keyed N (_sessions d) /\ Forall (fun a => a.1 <= N) (_actions d).

Record srv_inv (n : nat) (acc : list Z) (evs : list effect) srv : Prop := {
  inv_slavers : length (_slavers srv) = n;
  inv_gen : s_sessionIdGenerator srv = zlen acc;
  inv_down : forall id, ESessionDisconnected id ∈ evs -> id <= zlen acc;
  inv_keys : forall k d, get_dispatcher k srv = Ok d -> numbered (zlen acc) d;
  inv_due : forall id d, getSessionDispatcher id srv = Ok d -> due id d = expected acc evs id
}.

Lemma get_ok n srv k : length (_slavers srv) = n -> has_dispatcher n k -> exists d, get_dispatcher k srv = Ok d.
Proof.
  intros Hn Hk. destruct k as [i|]; [|by exists (_master srv)]. cbn in *.
  destruct (lookup_lt_is_Some_2 (_slavers srv) i) as [d Hd]; [lia|]. exists d. by rewrite Hd.
Qed.

Lemma index_ok n srv id : length (_slavers srv) = n -> has_dispatcher n (dispatcher_index id srv).
Proof.
  intros Hn. unfold dispatcher_index. destruct (_slavers srv) as [|d ds] eqn:E; [done|].
  cbn [has_dispatcher]. rewrite <- Hn. cbn [length]. pose proof (Z.mod_pos_bound id (zlen (d :: ds)) ltac:(cbn; lia)).
  cbn [length] in *. lia.
Qed.

Lemma get_set k k' d d0 srv : get_dispatcher k srv = Ok d0 ->
  get_dispatcher k' (set_dispatcher k d srv) = if decide (k' = k) then Ok d else get_dispatcher k' srv.
Proof.
  intros Hk. destruct k as [i|], k' as [j|]; cbn in *; try (by case_decide || done).
  destruct (_slavers srv !! i) as [d1|] eqn:Hi; [|done]. case_decide as Hd.
  - injection Hd as ->. by rewrite list_lookup_insert_eq by (by apply lookup_lt_Some in Hi).
  - rewrite list_lookup_insert_ne by congruence. done.
Qed.

Lemma set_frame k d srv : length (_slavers (set_dispatcher k d srv)) = length (_slavers srv) /\
  s_sessionIdGenerator (set_dispatcher k d srv) = s_sessionIdGenerator srv.
Proof. destruct k; cbn; by rewrite ?length_insert. Qed.

Lemma index_frame id srv srv' : length (_slavers srv') = length (_slavers srv) ->
  dispatcher_index id srv' = dispatcher_index id srv.
Proof.
  unfold dispatcher_index. destruct (_slavers srv), (_slavers srv'); cbn [length]; intros E; try done.
  injection E as E. by rewrite E.
Qed.

(** A dispatcher changes. *)
Lemma srv_inv_set n acc evs acc' evs' srv srv0 k d0 d : srv_inv n acc evs srv ->
  _slavers srv0 = _slavers srv -> _master srv0 = _master srv -> s_sessionIdGenerator srv0 = zlen acc' ->
  get_dispatcher k srv = Ok d0 ->
  (forall id, ESessionDisconnected id ∈ evs' -> id <= zlen acc') ->
  zlen acc <= zlen acc' -> numbered (zlen acc') d ->
  (forall id, dispatcher_index id srv = k -> due id d0 = expected acc evs id -> due id d = expected acc' evs' id) ->
  (forall id, dispatcher_index id srv <> k -> expected acc' evs' id = expected acc evs id) ->
  srv_inv n acc' evs' (set_dispatcher k d srv0).
Proof.
  intros [I1 I2 I3 I4 I5] Es Em Eg Hk Hdown Hle Hkeys Hin Hout.
  assert (forall k', get_dispatcher k' srv0 = get_dispatcher k' srv) as Eget
    by (intros [j|]; unfold get_dispatcher; by rewrite ?Es, ?Em).
  destruct (set_frame k d srv0) as [F1 F2]. split.
  - by rewrite F1, Es.
  - by rewrite F2.
  - done.
  - intros k' d1 Hg. rewrite (get_set k k' d d0), Eget in Hg by (by rewrite Eget). case_decide.
    + by injection Hg as <-.
    + destruct (I4 k' d1 Hg) as [K1 K2]. split; [intros id s Hs; destruct (K1 id s Hs); lia|].
      eapply Forall_impl; [exact K2|]. cbn. lia.
  - intros id d1. unfold getSessionDispatcher. rewrite (index_frame id srv) by (by rewrite F1, Es).
    rewrite (get_set k _ d d0), Eget by (by rewrite Eget). case_decide as Hd.
    + intros [= <-]. apply Hin; [done|]. apply I5. unfold getSessionDispatcher. by rewrite Hd.
    + intros Hg. rewrite Hout by done. by apply I5.
Qed.

Lemma keyed_set N m i s : keyed N m -> s_id s = i -> i <= N -> keyed N (std_set i s m).
Proof. intros Hm Hs Hi id t. rewrite find_set. case_decide; [|by apply Hm]. intros [= <-]. by subst. Qed.

Lemma keyed_erase N m i : keyed N m -> keyed N (std_erase i m).
Proof.
  intros Hm id s. destruct (decide (id = i)) as [->|Hne]; [by rewrite find_erase_eq|].
  rewrite find_erase_ne by done. apply Hm.
Qed.

Lemma frame_loop_keys N acts : forall m, keyed N m -> Forall (fun a => a.1 <= N) acts -> keyed N (frame_loop acts m).2.
Proof.
  induction acts as [|[i sock] acts IH]; intros m Hm Ha; cbn [frame_loop fst snd]; [done|].
  apply Forall_cons in Ha as [Hi Ha]. specialize (IH (frame_action i sock m).2).
  assert (keyed N (frame_action i sock m).2) as H1.
  { unfold frame_action. destruct (sock =? SOCKET_FD_INVALID) eqn:E; bool_to_prop; cbn [negb snd]; [by apply keyed_erase|].
    pose proof (session_attach i sock E) as Hs. destruct (attach i sock) as [ev [s|]]; cbn [snd] in *; [|done].
    apply keyed_set; [done|done|]. by destruct Hs as (_ & -> & _). }
  destruct (frame_action i sock m) as [ev m1]. cbn [snd] in *. specialize (IH H1 Ha).
  by destruct (frame_loop acts m1).
Qed.

Lemma onFrame_keys N d : numbered N d -> numbered N (onFrame d).2.
Proof.
  intros [H1 H2]. unfold onFrame. destruct (_actions d) as [|a acts] eqn:E; [split; [exact H1|cbn; by rewrite E]|].
  pose proof (frame_loop_keys N (a :: acts) (_sessions d) H1 H2) as H.
  by destruct (frame_loop (a :: acts) (_sessions d)).
Qed.

Lemma expected_new acc evs sock id : (forall id, ESessionDisconnected id ∈ evs -> id <= zlen acc) ->
  expected (acc ++ [sock]) evs id =
    if decide (id = zlen acc + 1) then if attaches sock then Some sock else None else expected acc evs id.
Proof.
  intros Hdown. unfold expected. destruct (decide (1 <= id)) as [H1|H1]; [|by rewrite decide_False by lia].
  destruct (decide (id = zlen acc + 1)) as [->|Hne].
  - replace (zlen acc + 1 - 1) with (zlen acc) by lia. rewrite Nat2Z.id, list_lookup_middle by done.
    rewrite bool_decide_true; [by rewrite andb_true_r|]. intros Hin%Hdown. lia.
  - destruct (decide (id <= zlen acc)) as [Hle|Hgt]; [by rewrite lookup_app_l by lia|].
    rewrite !lookup_ge_None_2; [done|lia|]. rewrite length_app. cbn. lia.
Qed.

Lemma expected_same acc evs evs' id :
  (ESessionDisconnected id ∈ evs' <-> ESessionDisconnected id ∈ evs) -> expected acc evs' id = expected acc evs id.
Proof.
  intros H. unfold expected. by rewrite (bool_decide_ext (ESessionDisconnected id ∉ evs') (ESessionDisconnected id ∉ evs)) by tauto.
Qed.

Lemma expected_down acc evs id : ESessionDisconnected id ∈ evs -> expected acc evs id = None.
Proof.
  intros H. unfold expected. case_decide; [|done]. case_match; [|done].
  by rewrite bool_decide_false, andb_false_r by tauto.
Qed.

Lemma down_other evs fd i id : i <> id ->
  ESessionDisconnected i ∈ evs ++ [EClose fd; ESessionDisconnected id] <-> ESessionDisconnected i ∈ evs.
Proof.
  intros Hne. rewrite elem_of_app, !elem_of_cons. split; [|tauto].
  intros [?|[?|[[= ?]|?%not_elem_of_nil]]]; done.
Qed.

Lemma frame_loop_news acts id : forall m, ESessionDisconnected id ∉ (frame_loop acts m).1.
Proof.
  induction acts as [|[i sock] acts IH]; intros m; cbn [frame_loop fst snd]; [apply not_elem_of_nil|].
  assert (ESessionDisconnected id ∉ (frame_action i sock m).1) as Ha.
  { assert (forall i m, ESessionDisconnected id ∉ drop_session i m) as Hd.
    { intros j m'. unfold drop_session, delete_TcpSocket, bufferevent_free.
      destruct (std_find j m') as [s|]; [|apply not_elem_of_nil]. destruct (_bev (s_socket s)); [|apply not_elem_of_nil].
      destruct (_options (s_socket s)); [|apply not_elem_of_nil]. by rewrite list_elem_of_singleton. }
    unfold frame_action. destruct (negb _); [|apply Hd].
    assert (ESessionDisconnected id ∉ (attach i sock).1) as Hat.
    { unfold attach. destruct (sock =? SOCKET_FD_INVALID); [apply not_elem_of_nil|].
      destruct (bufferevent_socket_new sock) as [b|]; [|apply not_elem_of_nil].
      destruct (bufferevent_enable b); [|apply not_elem_of_nil]. cbn. by rewrite list_elem_of_singleton. }
    destruct (attach i sock) as [ev [s|]]; cbn [fst] in *; [|done]. rewrite elem_of_app. intros [?|?%Hd]; done. }
  destruct (frame_action i sock m) as [ev m1]. specialize (IH m1). destruct (frame_loop acts m1).
  cbn [fst] in *. rewrite elem_of_app. tauto.
Qed.

Lemma run_srv_op_inv n acc evs srv o : srv_inv n acc evs srv -> op_ok n o -> zlen acc + 1 < 2 ^ 64 ->
  exists ev srv', run_srv_op o srv = Ok (ev, srv') /\ srv_inv n (acc ++ accepts o) (evs ++ ev) srv'.
Proof.
  intros Hi Ho Hroom. pose proof Hi as [I1 I2 I3 I4 I5].
  destruct o as [sock|k|id]; cbn [run_srv_op accepts op_ok] in *.
  - unfold listenEventCallback. rewrite I2, u64_id by lia. set (srv0 := mk_server _ _ _ _).
    destruct (get_ok n srv (dispatcher_index (zlen acc + 1) srv) I1 (index_ok n srv _ I1)) as [d Hd].
    assert (getSessionDispatcher (zlen acc + 1) srv0 = Ok d) as -> by exact Hd. cbn [mbind result_bind].
    destruct (I4 _ d Hd) as [K1 K2].
    exists [], (set_dispatcher (dispatcher_index (zlen acc + 1) srv) (addSession (zlen acc + 1) sock d) srv0).
    split; [done|]. rewrite app_nil_r. assert (zlen (acc ++ [sock]) = zlen acc + 1) as El by (rewrite length_app; cbn; lia).
    apply (srv_inv_set n acc evs _ _ srv srv0 _ d); try done; rewrite ?El; try lia.
    + intros id Hin%I3. lia.
    + split; [intros id s Hs; destruct (K1 id s Hs); lia|]. apply Forall_app. split; [|by repeat constructor; cbn; lia].
      eapply Forall_impl; [exact K2|]. cbn. lia.
    + intros id _ Hdue. rewrite due_add, expected_new, Hdue by done. unfold act_on. cbn [fst snd].
      case_decide as He; [|done]. unfold attaches. destruct (sock =? SOCKET_FD_INVALID) eqn:Es; [done|].
      case_match; [done|]. unfold expected. rewrite (lookup_ge_None_2 acc) by lia. by case_decide.
    + intros id Hne. rewrite expected_new by done. case_decide as He; [by subst id|done].
  - unfold server_frame. destruct (get_ok n srv k I1 Ho) as [d Hd]. rewrite Hd. cbn [mbind result_bind].
    pose proof (onFrame_keys (zlen acc) d (I4 k d Hd)) as Hk.
    pose proof (fun id => proj1 (onFrame_due id d)) as Hdue.
    assert (forall id, ESessionDisconnected id ∉ (onFrame d).1) as Hno.
    { intros id. unfold onFrame. destruct (_actions d) as [|a acts]; [apply not_elem_of_nil|].
      pose proof (frame_loop_news (a :: acts) id (_sessions d)) as H.
      by destruct (frame_loop (a :: acts) (_sessions d)). }
    destruct (onFrame d) as [ev d'] eqn:Ef. cbn [fst snd] in *. exists ev, (set_dispatcher k d' srv). split; [done|].
    rewrite app_nil_r. assert (forall id, expected acc (evs ++ ev) id = expected acc evs id) as Ee.
    { intros id. apply expected_same. rewrite elem_of_app. specialize (Hno id). tauto. }
    apply (srv_inv_set n acc evs _ _ srv srv k d); try done.
    + intros id [?%I3|?%Hno]%elem_of_app; done.
    + intros id _ He. by rewrite Hdue, Ee.
  - unfold server_event. destruct (get_ok n srv (dispatcher_index id srv) I1 (index_ok n srv _ I1)) as [d Hd].
    unfold getSessionDispatcher. rewrite Hd. cbn [mbind result_bind]. rewrite app_nil_r.
    destruct (getSession id d) as [s|] eqn:Hs; [|by exists [], srv; rewrite app_nil_r].
    destruct (I4 _ d Hd) as [K1 K2]. destruct (K1 id s Hs) as [Hid Hle].
    pose proof (fun i => due_event i s d) as Hdue. rewrite Hid in Hdue.
    assert (numbered (zlen acc) (session_handleEvent s d).2) as Hk.
    { split; cbn; [apply keyed_set; [done|done|cbn; lia]|]. apply Forall_app. split; [done|]. repeat constructor. cbn. lia. }
    unfold session_handleEvent in *. cbn [snd] in *. eexists _, _. split; [reflexivity|].
    apply (srv_inv_set n acc evs _ _ srv srv _ d); try done.
    + intros i. rewrite elem_of_app, !elem_of_cons. intros [?%I3|[?|[[= ->]|?%not_elem_of_nil]]]; [done|done|lia|done].
    + intros i _ He. rewrite Hdue by done. case_decide as Hi'.
      * subst i. rewrite expected_down; [done|]. rewrite Hid. set_solver.
      * rewrite He. symmetry. apply expected_same. rewrite Hid. by apply down_other.
    + intros i Hne. apply expected_same. rewrite Hid. apply down_other. by intros ->.
Qed.

Lemma run_srv_inv n l : forall acc evs srv, srv_inv n acc evs srv -> Forall (op_ok n) l ->
  zlen acc + zlen l < 2 ^ 64 -> exists ev srv', run_srv l srv = Ok (ev, srv') /\
  srv_inv n (acc ++ flat_map accepts l) (evs ++ ev) srv'.
Proof.
  induction l as [|o l IH]; intros acc evs srv Hi Hl Hroom; cbn [run_srv flat_map].
  { exists [], srv. by rewrite !app_nil_r. }
  apply Forall_cons in Hl as [Ho Hl]. cbn [length] in Hroom.
  destruct (run_srv_op_inv n acc evs srv o Hi Ho) as (ev & srv1 & -> & H1); [lia|]. cbn [mbind result_bind].
  destruct (IH _ _ _ H1 Hl) as (ev2 & srv2 & -> & H2).
  { rewrite length_app. destruct o; cbn [accepts length]; lia. }
  exists (ev ++ ev2), srv2. cbn [mbind result_bind]. split; [done|]. by rewrite !app_assoc.
Qed.
End sessions.

(** ** Closing *)
Section closing.
Context {B : Type} {BE : Bufferevent B} {BL : BufferLaws B}.
Implicit Types s : TcpSocket B.

(** What happens to a socket: the application sends, libevent sends, and calls
    back. *)
Inductive socket_op : Type :=
  | OpSend (data : bytes)
  | OpSent (n : nat)
  | OpWritten.

(** The effects, and what the sends returned. *)
Definition run_socket_op (o : socket_op) s : list effect * list bool * TcpSocket B :=
  match o with
  | OpSend data => let '(ret, s) := send s data in ([], [ret], s)
  | OpSent n => ([], [], match _bev s with Some b => set_bev s (flush b n) | None => s end)
  | OpWritten => let '(ev, s) := checkClosing s in (ev, [], s)
  end.

Fixpoint run_socket (l : list socket_op) s : list effect * list bool * TcpSocket B :=
  match l with
  | [] => ([], [], s)
  | o :: l =>
      let '(ev, rets, s) := run_socket_op o s in
      let '(evs, rets2, s) := run_socket l s in (ev ++ evs, rets ++ rets2, s)
  end.

Definition sent_by (o : socket_op) : nat := match o with OpSent n => n | _ => 0 end.
Definition sent (l : list socket_op) : nat := sum_list_with sent_by l.

(** A socket that closes when [out] has been sent. *)
Definition draining (fd : Z) (out : bytes) s : Prop :=
  exists b, _bev s = Some b /\ _isClosing s = true /\ output b = out /\ bufferevent_getfd b = fd.

Lemma draining_op fd out s o : draining fd out s -> (sent_by o < length out)%nat ->
  exists rets s', run_socket_op o s = ([], rets, s') /\ Forall (eq false) rets /\
    draining fd (drop (sent_by o) out) s'.
Proof.
  intros (b & Eb & Ec & Eo & Ef) Hn. destruct o as [data|n|]; cbn [run_socket_op sent_by] in *.
  - unfold send. rewrite Eb, Ec. exists [false], s. split; [done|]. split; [by constructor|]. by exists b.
  - rewrite Eb. exists [], (set_bev s (flush b n)). split; [done|]. split; [done|].
    exists (flush b n). cbn. by rewrite output_flush, fd_flush, Eo.
  - unfold checkClosing. rewrite Eb, Ec, output_length_ok, Eo. cbn [andb].
    split_if; [lia|]. exists [], s. split; [done|]. split; [done|]. by exists b.
Qed.

Lemma draining_run fd l : forall out s, draining fd out s -> (sent l < length out)%nat ->
  exists rets s', run_socket l s = ([], rets, s') /\ Forall (eq false) rets /\ draining fd (drop (sent l) out) s'.
Proof.
  induction l as [|o l IH]; intros out s Hs Hn; cbn [run_socket sent sum_list_with] in *; [by exists [], s|].
  destruct (draining_op fd out s o Hs) as (r1 & s1 & -> & F1 & H1); [lia|].
  destruct (IH (drop (sent_by o) out) s1 H1) as (r2 & s2 & -> & F2 & H2); [rewrite length_drop; unfold sent; lia|].
  exists (r1 ++ r2), s2. split; [done|]. split; [by apply Forall_app|]. by rewrite drop_drop in H2.
Qed.

Lemma run_socket_app l1 l2 s : run_socket (l1 ++ l2) s =
  let '(ev1, r1, s1) := run_socket l1 s in
  let '(ev2, r2, s2) := run_socket l2 s1 in (ev1 ++ ev2, r1 ++ r2, s2).
Proof.
  revert s. induction l1 as [|o l1 IH]; intros s; cbn [run_socket app]; [by destruct (run_socket l2 s) as [[??]?]|].
  destruct (run_socket_op o s) as [[ev r] s1]. rewrite IH. destruct (run_socket l1 s1) as [[ev1 r1] s2].
  destruct (run_socket l2 s2) as [[ev2 r2] s3]. by rewrite !app_assoc.
Qed.
End closing.

(** ** Properties *)

(** C21: A server with a master and any number of other dispatchers, of which
    each may run a frame at any time, and connections that come and go. After
    the next frame of its dispatcher, a session is found under its number if
    and only if its connection was accepted, got a bufferevent and was not
    reported as disconnected, and it has the socket that was accepted. *)
Theorem server_sessions {B : Type} {BE : Bufferevent B} {BL : BufferLaws B} l ls ops :
  Forall (op_ok (length ls)) ops -> zlen ops < 2 ^ 64 ->
  exists evs srv, run_srv ops (new_TcpServer l ls 0) = Ok (evs, srv) /\
  forall id, exists d, getSessionDispatcher id srv = Ok d /\
    fd_of <$> getSession id (onFrame d).2 = expected (flat_map accepts ops) evs id.
Proof.
  intros Ho Hroom. set (srv := new_TcpServer l ls 0).
  assert (forall k d, get_dispatcher k srv = Ok d -> exists l, d = new_TcpServerDispatcher l) as Hnew.
  { unfold srv, new_TcpServer, setThreads. intros [k|] d; cbn.
    - rewrite list_lookup_fmap. destruct (ls !! k) as [l'|]; [|done]. intros [= <-]. by exists l'.
    - intros [= <-]. by exists l. }
  assert (srv_inv (length ls) [] [] srv) as H0.
  { split; [by unfold srv; cbn; rewrite length_fmap|done|by intros id ?%not_elem_of_nil| |].
    - intros k d Hd. destruct (Hnew k d Hd) as [l' ->]. split; [done|by constructor].
    - intros id d Hd. destruct (Hnew _ d Hd) as [l' ->]. unfold expected. by case_decide. }
  destruct (run_srv_inv (length ls) ops [] [] srv H0 Ho Hroom) as (evs & srv' & E & H).
  exists evs, srv'. split; [done|]. intros id.
  destruct (get_ok _ srv' (dispatcher_index id srv') (inv_slavers _ _ _ _ H)) as [d Hd].
  { by apply index_ok, (inv_slavers _ _ _ _ H). }
  exists d. split; [done|]. rewrite (proj2 (onFrame_due id d)). by apply (inv_due _ _ _ _ H).
Qed.

(** [close] of a socket that has data to send refuses all later sends and
    does nothing else while the data is sent; the first write callback that
    finds all of it sent shuts the socket down. *)
Theorem close_waits {B : Type} {BE : Bufferevent B} {BL : BufferLaws B} (s : TcpSocket B) b l n :
  _bev s = Some b -> (sent l < length (output b))%nat -> (length (output b) <= sent l + n)%nat ->
  exists rets s',
    (close s true).1 = [] /\
    run_socket (l ++ [OpSent n; OpWritten]) (close s true).2 = ([EShutdown (bufferevent_getfd b)], rets, s') /\
    Forall (eq false) rets.
Proof.
  intros Eb Hl Hn. unfold close. rewrite Eb, output_length_ok. cbn [andb]. split_if; [|lia]. cbn [fst snd].
  destruct (draining_run (bufferevent_getfd b) l (output b) (set_closing s true)) as (rets & s1 & Hr & F & Hd);
    [by exists b|done|].
  rewrite run_socket_app, Hr. destruct Hd as (b1 & E1 & C1 & O1 & F1). cbn [run_socket run_socket_op]. rewrite E1.
  unfold checkClosing. cbn [_bev set_bev _isClosing]. rewrite C1, output_length_ok, output_flush, O1, drop_drop.
  rewrite drop_ge by lia. cbn [length andb]. change (Z.of_nat 0 =? 0) with true. cbv iota.
  unfold closeImpl, socket. cbn. rewrite disable_fd, drain_fd, fd_flush, F1.
  eexists _, _. split; [done|]. split; [reflexivity|]. by rewrite app_nil_r.
Qed.

(** When the server ends the connection of a client, the client closes the
    descriptor itself, and the bufferevent, made with [BEV_OPT_CLOSE_ON_FREE],
    closes it again. *)
Lemma client_closes_twice {B : Type} {BE : Bufferevent B} {BL : BufferLaws B} (c c' : TcpClient B) ip port ev err :
  connect c ip port = (true, ev, c') ->
  let fd := socket (cl_socket c') in
  (handleEvent c' BEV_EVENT_EOF err).1 = [EClose fd; EDisconnected; EClose fd].
Proof.
  unfold connect. destruct (_bev (cl_socket c)); [done|].
  destruct (bufferevent_socket_new (-1)) as [b|]; [|done]. destruct (bufferevent_enable b) as [b1|]; [|done].
  destruct (bufferevent_socket_connect b1 ip port) as [b2|]; [|done]. intros [= _ <-].
  unfold handleEvent. change (negb (Z.land BEV_EVENT_EOF (Z.lor BEV_EVENT_EOF (Z.lor BEV_EVENT_ERROR BEV_EVENT_TIMEOUT)) =? 0)) with true. cbv iota.
  unfold socket, bufferevent_free. cbn. by rewrite disable_fd.
Qed.

(** ** Witnesses *)
Definition a_loop : Loop := mk_loop 1 true [] StatusInit.

(** Two connections, of which the first ends. *)
Lemma server_sessions_witness : exists evs srv d1 d2,
  run_srv [Accept 5; Accept 6; Frame (Some 1%nat); Event 1] (new_TcpServer (B := buffers) a_loop [a_loop; a_loop] 0) = Ok (evs, srv) /\
  getSessionDispatcher 1 srv = Ok d1 /\ fd_of <$> getSession 1 (onFrame d1).2 = None /\
  getSessionDispatcher 2 srv = Ok d2 /\ fd_of <$> getSession 2 (onFrame d2).2 = Some 6.
Proof.
  destruct (server_sessions (B := buffers) a_loop [a_loop; a_loop] [Accept 5; Accept 6; Frame (Some 1%nat); Event 1])
    as (evs & srv & E & H); [repeat constructor; cbn; lia|done|].
  destruct (H 1) as (d1 & D1 & F1), (H 2) as (d2 & D2 & F2). exists evs, srv, d1, d2.
  assert (evs = [ENewSession 1; EClose 5; ESessionDisconnected 1]) as Ee by (vm_compute in E; congruence).
  subst evs. by split_and!.
Defined.

Lemma close_waits_witness : exists rets s',
  run_socket ([OpSend (lit "b"); OpSent 2; OpWritten] ++ [OpSent 3; OpWritten])
    (close (mk_socket (Some (mk_buffers [] (lit "abcde") 5)) false false) true).2 = ([EShutdown 5], rets, s') /\
  Forall (eq false) rets.
Proof.
  destruct (close_waits (mk_socket (Some (mk_buffers [] (lit "abcde") 5)) false false) (mk_buffers [] (lit "abcde") 5)
    [OpSend (lit "b"); OpSent 2; OpWritten] 3) as (rets & s' & _ & E & F); [done|cbn; lia|cbn; lia|].
  by exists rets, s'.
Defined.

Example client_closes_twice_at : exists c', connect (new_TcpClient (B := buffers)) (lit "127.0.0.1") 6379 = (true, [], c') /\
  (handleEvent c' BEV_EVENT_EOF 0).1 = [EClose 7; EDisconnected; EClose 7].
Proof.
  eexists. split; [reflexivity|].
  exact (client_closes_twice (B := buffers) new_TcpClient _ (lit "127.0.0.1") 6379 [] 0 eq_refl).
Defined.

(** ** Cases *)

(** A client that was closing when its connection ended closes the next
    connection too, at its first write callback. *)
Example closing_survives :
  let c1 := mk_client (close (mk_socket (Some (mk_buffers [] (lit "x") 7)) true false) true).2 true in
  let c2 := (handleEvent c1 BEV_EVENT_EOF 0).2 in
  let c3 := (connect c2 (lit "127.0.0.1") 6379).2 in
  (send (cl_socket c3) (lit "y")).1 = false /\ (checkClosing (cl_socket c3)).1 = [EShutdown 7].
Proof. done. Qed.

(** A session that ended is still found until the next frame, and closing it
    shuts down a descriptor that was closed. *)
Example ended_session_closes : match run_srv [Accept 5; Frame None; Event 1] (new_TcpServer (B := buffers) a_loop [] 0) with
  | Ok (evs, srv) =>
      EClose 5 ∈ evs /\ fmap (fun s => (close (s_socket s) false).1) (getSession 1 (_master srv)) = Some [EShutdown 5]
  | Fault _ => False
  end.
Proof. vm_compute. split; [right; left|done]. Qed.

(** A second [listen], when the loop of the master runs, frees the second
    listener and forgets the first, which stays open. *)
Example listens_twice :
  let s1 := mk_server (B := buffers) (Some 31) (mk_dispatcher (run_enter a_loop) [] []) [] 0 in
  let '(ret, ev, s2) := listen (Some 32) s1 in
  (ret, ev) = (false, [EFreeListener 32]) /\ delete_TcpServer s2 = [].
Proof. done. Qed.
