(* ===== verification/PubSub.v ===== *)
(** * PubSub: the subscriptions of an asynchronous context

    The two tables of async.c, of channels and of patterns, share a store of
    entries. Together they stand for two maps from names to callbacks, as long as
    names are shorter than 2^31 bytes: [callbackKeyCompare] takes lengths to be
    [int]. Subscribing adds to the maps, a message looks up a callback, and the
    message for an unsubscription removes it. *)
From S2P Require Import Prelude Mem Sds SdsFacts SdsText SdsTextFacts SdsSplit Reply Reader Format FormatFacts.
From S2P Require Import System Context ContextFacts Net Connect Dict DictFacts DictRep DictOps.
From S2P Require Import Callbacks Async AsyncFacts AsyncCommand ReaderCorrect Peer ContextCorrect.
From stdpp Require Import list list_numbers strings sets gmap fin_maps.
From Stdlib Require Import ZArith Lia.
Open Scope Z_scope.

Abbreviation subs := (gmap bytes redisCallback).
Abbreviation store := (world bytes redisCallback unit).
Abbreviation node := (Z * (bytes * redisCallback))%type.

(** ** Names *)
Definition short (k : bytes) : Prop := zlen k < 2 ^ 31.

Lemma callbackKeyCompare_eq k1 k2 : short k1 -> short k2 ->
  callbackKeyCompare k1 k2 = bool_decide (k1 = k2).
Proof.
  unfold short, callbackKeyCompare. intros H1 H2. rewrite !s32_id by lia.
  destruct (zlen k1 =? zlen k2) eqn:E; bool_to_prop; cbn [negb].
  - rewrite u64_id by lia. rewrite !take_ge by lia.
    destruct (decide (k1 = k2)) as [->|Hne].
    + rewrite bool_decide_eq_true_2 by done. by apply Z.eqb_eq, memcmp_eq.
    + rewrite bool_decide_eq_false_2 by done. apply Z.eqb_neq. rewrite memcmp_eq; [done|lia].
  - symmetry. apply bool_decide_eq_false_2. congruence.
Qed.

Definition short_keys (m : subs) : Prop := forall k v, m !! k = Some v -> short k.

Lemma callback_tells k (cs : list (list node)) : short k -> short_keys (dict_map cs) ->
  NoDup (keys (concat cs)) -> tells callbackDict k (concat cs).
Proof.
  intros Hk Hm Hnd k' Hin. apply callbackKeyCompare_eq; [done|].
  destruct (dict_map cs !! k') as [v|] eqn:E; [by eapply Hm|].
  by apply dict_map_keys in E.
Qed.

Lemma dict_map_size (cs : list (list node)) : NoDup (keys (concat cs)) ->
  zlen (concat cs) = Z.of_nat (size (dict_map cs)).
Proof.
  intros Hnd. unfold dict_map. rewrite map_size_list_to_map by done.
  unfold keys. by rewrite length_fmap.
Qed.

(** ** Two tables in one store *)
Definition disjoint_nodes (cs1 cs2 : list (list node)) : Prop :=
  forall p, p ∈ ptrs (concat cs1) -> p ∉ ptrs (concat cs2).

Definition is_table (w : store) (d : dict) (m : subs) (cs : list (list node)) : Prop :=
  (exists F, dict_rep callbackDict w d cs F) /\ dict_map cs = m /\ short_keys m.

(** The tables [d1] and [d2] of the store [w] stand for [m1] and [m2]. *)
Definition tables (w : store) (d1 d2 : dict) (m1 m2 : subs) : Prop :=
  exists cs1 cs2, is_table w d1 m1 cs1 /\ is_table w d2 m2 cs2 /\ disjoint_nodes cs1 cs2.

Lemma tables_sym w d1 d2 m1 m2 : tables w d1 d2 m1 m2 -> tables w d2 d1 m2 m1.
Proof.
  intros (cs1 & cs2 & H1 & H2 & Hd). exists cs2, cs1. split_and!; [done..|].
  intros p Hp1 Hp2. by eapply Hd.
Qed.

Lemma tables_new (w : store) : store_ok w -> tables w _dictReset _dictReset ∅ ∅.
Proof.
  intros Hw. assert (is_table w _dictReset ∅ []) as Ht.
  { split_and!; [|done|by intros k v ?%lookup_empty_Some]. exists (entries w).
    split; cbn; [done..|constructor|done|by intros p ?%elem_of_nil|constructor|done|done]. }
  exists [], []. split_and!; [done..|]. by intros p ?%elem_of_nil.
Qed.

(** An operation on one table leaves the other as it is. *)
Lemma other_table (w w' : store) d1 d1' d2 cs1 cs1' cs2 F1 F2 :
  dict_rep callbackDict w d1 cs1 F1 -> dict_rep callbackDict w' d1' cs1' F1 ->
  dict_rep callbackDict w d2 cs2 F2 -> disjoint_nodes cs1 cs2 ->
  (exists F, dict_rep callbackDict w' d2 cs2 F) /\ disjoint_nodes cs1' cs2.
Proof.
  intros H1 H1' H2 Hd.
  assert (forall p, p ∈ ptrs (concat cs2) -> is_Some (F1 !! p) /\ F1 !! p = entries w !! p) as HF.
  { intros p Hp. assert (p ∉ ptrs (concat cs1)) as Hn by (intros ?; by eapply Hd).
    rewrite <- (dr_frame _ _ _ _ _ H1 p Hn). split; [|done].
    apply list_elem_of_fmap in Hp as ([q [k v]] & -> & Hin).
    destruct (node_entry _ _ _ _ _ _ _ _ H2 Hin) as (_ & nx & Hnx). by eexists. }
  assert (disjoint_nodes cs1' cs2) as Hd'.
  { intros p Hp1 Hp2. apply (dr_own _ _ _ _ _ H1') in Hp1. destruct (HF p Hp2) as [[e He] _].
    by rewrite He in Hp1. }
  split; [|done].
  assert (forall p, p ∈ ptrs (concat cs2) -> entries w' !! p = entries w !! p) as Hsame.
  { intros p Hp. destruct (HF p Hp) as [_ <-]. apply (dr_frame _ _ _ _ _ H1').
    intros Hp1. by eapply Hd'. }
  exists (filter (fun x => x.1 ∉ ptrs (concat cs2)) (entries w')). destruct H2. split; [|done..| | |done|done|].
  - destruct (ht_table d2); [|done]. split; [|apply dr_table]. destruct dr_table as [Hc _].
    exact (chains_frame _ _ _ _ Hc Hsame).
  - intros p Hp. symmetry. destruct (entries w' !! p) as [e|] eqn:E.
    + by apply map_lookup_filter_Some_2.
    + apply map_lookup_filter_None_2. by left.
  - intros p Hp. apply map_lookup_filter_None_2. right. intros e _ Hn. by apply Hn.
  - apply H1'.
Qed.

Section operations.
Context {M : Malloc}.
Hypothesis malloc_total : forall n, malloc_ok n = true.

(** What the table operations need of a table. *)
Lemma table_ready (w : store) d m cs k : is_table w d m cs -> short k ->
  exists F, dict_rep callbackDict w d cs F /\ tells callbackDict k (concat cs) /\
    zlen (concat cs) = Z.of_nat (size m) /\ dict_map cs = m.
Proof.
  intros ((F & Hr) & <- & Hs) Hk. pose proof (dr_keys _ _ _ _ _ Hr). exists F.
  split_and!; [done|by apply callback_tells|by apply dict_map_size|done].
Qed.

Lemma short_insert k cb m : short k -> short_keys m -> short_keys (<[k := cb]> m).
Proof. intros Hk Hm k' v [[<- _]|[_ H]]%lookup_insert_Some; [done|by eapply Hm]. Qed.

Lemma tables_replace w d1 d2 m1 m2 k cb : tables w d1 d2 m1 m2 -> short k ->
  Z.of_nat (size m1) < 2 ^ 31 -> exists w' d' r,
  dictReplace callbackDict w d1 k cb = Ok (w', d', r) /\ tables w' d' d2 (<[k := cb]> m1) m2.
Proof.
  intros (cs1 & cs2 & Ht1 & ((F2 & H2) & Hm2) & Hd) Hk Hlt.
  destruct (table_ready _ _ _ _ _ Ht1 Hk) as (F1 & H1 & Hte & Hsz & Hm1).
  destruct (returns_total_ok _ _ malloc_total (dictReplace_spec callbackDict ltac:(done) w d1 cs1 F1 k cb H1
    ltac:(lia) Hte)) as ([[w' d'] r] & -> & cs1' & H1' & Hmap & _).
  exists w', d', r. split; [done|].
  destruct (other_table w w' d1 d' d2 cs1 cs1' cs2 F1 F2) as [HF2 Hd']; [done..|].
  exists cs1', cs2. split_and!; [|done|done]. split; [by exists F1|].
  rewrite Hmap, Hm1. split; [done|]. apply short_insert; [done|by apply Ht1].
Qed.

Lemma tables_find w d1 d2 m1 m2 k : tables w d1 d2 m1 m2 -> short k -> exists p,
  dictFind callbackDict w d1 k = Ok p /\
  match m1 !! k with
  | Some cb => p <> 0 /\ exists nx, entry_at w p = Ok (mk_entry k cb nx)
  | None => p = 0
  end.
Proof.
  intros (cs1 & cs2 & Ht1 & _) Hk.
  destruct (table_ready _ _ _ _ _ Ht1 Hk) as (F1 & H1 & Hte & _ & <-).
  destruct (dictFind_spec callbackDict w d1 cs1 F1 k H1 Hte) as (p & Hf & Hp).
  exists p. split; [done|]. destruct (dict_map cs1 !! k) as [cb|]; [|done].
  destruct Hp as [Hp Hin]. split; [done|].
  destruct (node_entry _ _ _ _ _ _ _ _ H1 Hin) as (_ & nx & Hnx). exists nx.
  by apply entry_at_spec.
Qed.

Lemma tables_delete w d1 d2 m1 m2 k : tables w d1 d2 m1 m2 -> short k ->
  Z.of_nat (size m1) <= 2 ^ 31 -> is_Some (m1 !! k) -> exists w' d',
  dictDelete callbackDict w d1 k = Ok (w', d', DICT_OK) /\ tables w' d' d2 (delete k m1) m2.
Proof.
  intros (cs1 & cs2 & Ht1 & ((F2 & H2) & Hm2) & Hd) Hk Hlt [cb Hcb].
  destruct (table_ready _ _ _ _ _ Ht1 Hk) as (F1 & H1 & Hte & Hsz & Hm1).
  destruct (dictDelete_spec callbackDict ltac:(done) w d1 cs1 F1 k H1 ltac:(lia) Hte)
    as (w' & d' & r & Hr & Hc).
  rewrite Hm1, Hcb in Hc. destruct Hc as (-> & _ & cs1' & H1' & Hmap & _).
  exists w', d'. split; [done|].
  destruct (other_table w w' d1 d' d2 cs1 cs1' cs2 F1 F2) as [HF2 Hd']; [done..|].
  exists cs1', cs2. split_and!; [|done|done]. split; [by exists F1|]. split; [done|].
  intros k' v [_ H]%lookup_delete_Some. destruct Ht1 as (_ & _ & Hs). by eapply Hs.
Qed.
End operations.

(** ** The abstract state *)

(** What a client has subscribed to, whether the library takes the connection
    to be subscribed, and the output that waits. *)
Record hub : Type := mk_hub {
  h_channels : subs;
  h_patterns : subs;
  h_subscribed : bool;
  h_out : bytes
}.

Definition hub_map (pats : bool) (h : hub) : subs := if pats then h_patterns h else h_channels h.
Definition set_hub_map (pats : bool) (h : hub) (m : subs) : hub :=
  if pats then mk_hub (h_channels h) m (h_subscribed h) (h_out h)
  else mk_hub m (h_patterns h) (h_subscribed h) (h_out h).

Definition subscribe_map (cb : redisCallback) (m : subs) (names : list bytes) : subs :=
  foldl (fun m k => <[k := cb]> m) m names.

(** The server's message [p]: an array of its kind, the name and more. *)
Record push_at (h : heap) (p : Z) (kind name : bytes) (count : Z) : Prop := {
  pa_string : no_nul kind;
  pa_cells : exists r l e0 e1 p0 p1 s0 s1,
    get_cell h p = Ok r /\ r_type r = REDIS_REPLY_ARRAY /\ 2 <= r_elements r /\
    r_element r = Some l /\ load l 0 = Ok p0 /\ load l 1 = Ok p1 /\
    get_cell h p0 = Ok e0 /\ r_type e0 = REDIS_REPLY_STRING /\ r_str e0 = Some (kind ++ 0 :: s0) /\
    get_cell h p1 = Ok e1 /\ r_type e1 = REDIS_REPLY_STRING /\ r_str e1 = Some (name ++ s1) /\
    r_len e1 = zlen name /\
    (is_word "unsubscribe" kind = true -> exists e2 p2, load l 2 = Ok p2 /\ get_cell h p2 = Ok e2 /\
       r_type e2 = REDIS_REPLY_INTEGER /\ r_integer e2 = count)
}.

(** What the program does with subscriptions: [r] is the memory after a
    command, [p] the object of a reply and [dst] the callback of the reply before
    it, which [__redisGetSubscribeCallback] keeps when it finds none. *)
Inductive hub_op : Type :=
  | HSubscribe (name : bytes) (names : list bytes) (cb : redisCallback) (r : bytes)
  | HUnsubscribe (name : bytes) (names : list bytes) (r : bytes)
  | HPush (p : Z) (kind name : bytes) (count : Z) (dst : redisCallback).

Inductive hub_out : Type :=
  | Status (st : Z)
  | Calls (cb : redisCallback).

(** The same on the abstract state. *)
Definition written_out (h : hub) (text : bytes) : hub :=
  mk_hub (h_channels h) (h_patterns h) (h_subscribed h) (h_out h ++ text).
Definition set_subscribed (h : hub) (b : bool) : hub :=
  mk_hub (h_channels h) (h_patterns h) b (h_out h).

Definition push_spec (h : hub) (kind name : bytes) (count : Z) (dst : redisCallback) :
    hub * redisCallback :=
  let pats := for_patterns kind in
  match hub_map pats h !! name with
  | None => (h, dst)
  | Some cb =>
      if is_word "unsubscribe" kind then
        let h := set_hub_map pats h (delete name (hub_map pats h)) in
        (set_subscribed h (h_subscribed h && negb (count =? 0)), cb)
      else (h, cb)
  end.

Definition hub_spec (h : hub) (op : hub_op) : hub * hub_out :=
  match op with
  | HSubscribe name names cb _ =>
      let pats := for_patterns name in
      let h := set_hub_map pats h (subscribe_map cb (hub_map pats h) names) in
      (written_out (set_subscribed h true) (command (name :: names)), Status REDIS_OK)
  | HUnsubscribe name names _ =>
      if h_subscribed h then (written_out h (command (name :: names)), Status REDIS_OK)
      else (h, Status REDIS_ERR)
  | HPush _ kind name count dst =>
      let '(h, cb) := push_spec h kind name count dst in (h, Calls cb)
  end.

Fixpoint hub_specs (h : hub) (ops : list hub_op) : hub * list hub_out :=
  match ops with
  | [] => (h, [])
  | op :: ops =>
      let '(h, o) := hub_spec h op in let '(h, os) := hub_specs h ops in (h, o :: os)
  end.

Definition op_cost (op : hub_op) : Z :=
  match op with
  | HSubscribe name names _ _ | HUnsubscribe name names _ =>
      zlen (command (name :: names)) + zlen names
  | HPush _ _ _ _ _ => 0
  end.
Definition ops_cost (ops : list hub_op) : Z := foldr (fun op n => op_cost op + n) 0 ops.

Definition hub_size (h : hub) : Z :=
  zlen (h_out h) + Z.of_nat (size (h_channels h)) + Z.of_nat (size (h_patterns h)).

Definition op_ok (hp : heap) (op : hub_op) : Prop :=
  match op with
  | HSubscribe name names _ _ => (CR ∉ name) /\ is_word "subscribe" name = true /\ names <> []
  | HUnsubscribe name _ _ => (CR ∉ name) /\ is_word "unsubscribe" name = true
  | HPush p kind name count _ => push_at hp p kind name count /\ short name
  end.

(** ** The operations of async.c *)
Section runs.
Context {M : Malloc} {HM : HeapMalloc} {W : Type} {OS : Sys W}.
Abbreviation state := (state (W := W)).
Abbreviation async := (async (W := W)).
Implicit Types (s : state).

Hypothesis malloc_total : forall n, malloc_ok n = true.

Definition run_hub_op (op : hub_op) : async hub_out :=
  match op with
  | HSubscribe name names cb r =>
      st ← __redisAsyncCommand (cb_fn cb) (cb_privdata cb) (command (name :: names) ++ 0 :: r)
        (zlen (command (name :: names)));
      mret (Status st)
  | HUnsubscribe name names r =>
      st ← __redisAsyncCommand NULL NULL (command (name :: names) ++ 0 :: r)
        (zlen (command (name :: names)));
      mret (Status st)
  | HPush p _ _ _ dst => cb ← __redisGetSubscribeCallback p dst; mret (Calls cb)
  end.

Fixpoint run_hub_ops (ops : list hub_op) : async (list hub_out) :=
  match ops with
  | [] => mret []
  | op :: ops => o ← run_hub_op op; os ← run_hub_ops ops; mret (o :: os)
  end.

(** The state [s] stands for [h]. *)
Record hub_is (h : hub) s : Prop := {
  hi_live : s_freed s = false;
  hi_open : has_flag (a_c (s_ac s)) (Z.lor REDIS_DISCONNECTING REDIS_FREEING) = false;
  hi_flag : has_flag (a_c (s_ac s)) REDIS_SUBSCRIBED = h_subscribed h;
  hi_out : holds (h_out h) (a_c (s_ac s));
  hi_tables : tables (s_dicts s) (a_channels (s_ac s)) (a_patterns (s_ac s)) (h_channels h) (h_patterns h)
}.

Lemma lift_run {A} (m : result A) a s : m = Ok a -> lift m s = Ok (a, s).
Proof. intros ->. done. Qed.

Lemma newlen_run c x : zlen c < 2 ^ 62 -> exists o, sdsnewlen (Some (c ++ x)) (zlen c) = Ok (Some o) /\
  contents o = c.
Proof.
  intros Hc. pose proof (sdsnewlen_spec c x Hc) as H. destruct sdsnewlen as [[o|]|].
  - exists o. split; [done|]. apply H.
  - destruct H as [n Hn]. by rewrite malloc_total in Hn.
  - done.
Qed.

(** The state with other tables. *)
Definition with_tables s (w : store) (dc dp : dict) : state :=
  mk_state (set_patterns (set_channels (s_ac s) dc) dp) (s_heap s) (s_cbs s) w (s_sys s) (s_log s) (s_freed s).

Lemma with_tables_eta s : with_tables s (s_dicts s) (a_channels (s_ac s)) (a_patterns (s_ac s)) = s.
Proof. unfold with_tables, set_patterns, set_channels. by destruct s as [[]]. Qed.

(** The tables of [s], those of patterns first when [pats]. *)
Definition tables_of (pats : bool) s (m m' : subs) : Prop :=
  if pats then tables (s_dicts s) (a_patterns (s_ac s)) (a_channels (s_ac s)) m m'
  else tables (s_dicts s) (a_channels (s_ac s)) (a_patterns (s_ac s)) m m'.

(** One turn of the loop over the names of a command. *)
Lemma subscribe_one f m pats cb s i astr alen nm pos m1 m2 : s_freed s = false ->
  nextArgument m i = Ok (Some (astr, alen, pos)) -> slice m astr alen = Ok nm -> alen = zlen nm ->
  short nm -> tables_of pats s m1 m2 -> Z.of_nat (size m1) < 2 ^ 31 -> exists w dc dp,
  tables_of pats (with_tables s w dc dp) (<[nm := cb]> m1) m2 /\
  subscribe_all (S f) m pats cb i s = subscribe_all f m pats cb pos (with_tables s w dc dp).
Proof.
  intros Hf Harg Hsl -> Hk Ht Hsz. cbn [subscribe_all].
  destruct (newlen_run nm [] ltac:(unfold short in Hk; lia)) as (o & Ho & Hc).
  rewrite app_nil_r in Ho.
  assert (exists w d r, dictReplace callbackDict (s_dicts s)
      (if pats then a_patterns (s_ac s) else a_channels (s_ac s)) nm cb = Ok (w, d, r) /\
    tables_of pats (with_tables s w (if pats then a_channels (s_ac s) else d)
      (if pats then d else a_patterns (s_ac s))) (<[nm := cb]> m1) m2) as (w & d & r & Hr & Ht').
  { destruct pats; destruct (tables_replace malloc_total _ _ _ _ _ nm cb Ht Hk Hsz)
      as (w & d & r & Hr & Ht'); by exists w, d, r. }
  exists w, (if pats then a_channels (s_ac s) else d), (if pats then d else a_patterns (s_ac s)).
  split; [done|]. clear Ht Ht'.
  erewrite abind; [|by apply lift_run]. cbv iota beta.
  erewrite abind; [|by apply lift_run]. erewrite abind; [|by apply lift_run].
  erewrite abind; [|done]. rewrite malloc_total. cbn [negb]. erewrite abind; [|done].
  erewrite abind; [|by apply get_ac_live]. erewrite abind; [|done]. rewrite Hc.
  erewrite abind; [reflexivity|]. destruct pats.
  - erewrite abind; [|by apply lift_run]. cbv iota beta. erewrite abind; [|done].
    rewrite put_ac_run by done. unfold with_tables, with_ac, set_patterns, set_channels.
    by destruct s as [[]].
  - erewrite abind; [|by apply lift_run]. cbv iota beta. erewrite abind; [|done].
    rewrite put_ac_run by done. unfold with_tables, with_ac, set_patterns, set_channels.
    by destruct s as [[]].
Qed.

Lemma subscribe_all_run pats cb r names : forall f m pre s m1 m2, s_freed s = false ->
  m = pre ++ flat_map bulk names ++ 0 :: r -> zlen (pre ++ flat_map bulk names) < INT_MAX ->
  tables_of pats s m1 m2 -> zlen (flat_map bulk names) + Z.of_nat (size m1) < INT_MAX ->
  (length names < f)%nat -> exists w dc dp,
  tables_of pats (with_tables s w dc dp) (subscribe_map cb m1 names) m2 /\
  subscribe_all f m pats cb (zlen pre) s = Ok (tt, with_tables s w dc dp).
Proof.
  unfold INT_MAX.
  induction names as [|nm names IH]; intros [|f] m pre s m1 m2 Hf Hm Hlen Ht Hsz Hfu;
    cbn [length] in Hfu; try lia; cbn [flat_map subscribe_map foldl] in *.
  { do 3 eexists. rewrite with_tables_eta. split; [done|]. cbn [subscribe_all].
    erewrite abind; [|by apply lift_run, (nextArgument_end m pre r)]. done. }
  pose proof (bulk_zlen nm) as Hb. pose proof (bulk_eq nm) as Hbe.
  rewrite !length_app in Hlen. rewrite !length_app in Hsz.
  set (q := pre ++ 36 :: udec (zlen nm) ++ crlf).
  assert (zlen q = zlen pre + zlen (udec (zlen nm)) + 3) as Hq.
  { unfold q. rewrite !length_app, length_cons, length_app. cbn [length crlf]. lia. }
  destruct (subscribe_one f m pats cb s (zlen pre) (zlen q) (zlen nm) nm (zlen (pre ++ bulk nm)) m1 m2)
    as (w & dc & dp & Ht' & ->); try done; try (unfold short; lia).
  - rewrite (nextArgument_bulk m pre [] nm (flat_map bulk names ++ 0 :: r)).
    + repeat (f_equal; try (rewrite ?length_app; cbn [length]; lia)).
    + rewrite Hm. solve_app.
    + by apply not_elem_of_nil.
    + by apply not_elem_of_nil.
    + cbn [app]. rewrite length_app. lia.
  - rewrite slice_Ok; [|lia|lia|].
    + rewrite !Nat2Z.id, Hm, Hbe. replace (pre ++ _) with (q ++ nm ++ crlf ++ flat_map bulk names ++ 0 :: r)
        by (unfold q; solve_app). by rewrite drop_app_length, take_app_length.
    + rewrite Hm, Hbe. unfold q. slia.
  - destruct (IH f m (pre ++ bulk nm) (with_tables s w dc dp) (<[nm := cb]> m1) m2) as (w' & dc' & dp' & H1 & H2);
      try done; try lia.
    + rewrite Hm. solve_app.
    + rewrite !length_app. lia.
    + rewrite map_size_insert. destruct (m1 !! nm); cbn [id]; lia.
    + exists w', dc', dp'. by split.
Qed.

(** ** Commands *)
Lemma words_differ name : is_word "unsubscribe" name = true -> is_word "subscribe" name = false.
Proof.
  unfold is_word. rewrite bool_decide_eq_true, bool_decide_eq_false. intros ->. by vm_compute.
Qed.

Lemma command_names name names :
  zlen (flat_map bulk names) <= zlen (command (name :: names)) /\
  zlen (header (name :: names) ++ bulk name) + zlen (flat_map bulk names) = zlen (command (name :: names)).
Proof.
  pose proof (command_eq (name :: names)) as Hc. fold (header (name :: names)) in Hc.
  rewrite Hc. cbn [flat_map]. rewrite !length_app. lia.
Qed.

Lemma names_length names : (length names <= length (flat_map bulk names))%nat.
Proof.
  induction names as [|nm names IH]; [done|]. cbn [flat_map length]. rewrite length_app, bulk_eq.
  cbn [app length]. lia.
Qed.

Lemma subscribe_map_size cb names : forall m,
  (size (subscribe_map cb m names) <= size m + length names)%nat.
Proof.
  induction names as [|nm names IH]; intros m; cbn [subscribe_map foldl length]; [lia|].
  specialize (IH (<[nm := cb]> m)). unfold subscribe_map in IH. rewrite map_size_insert in IH.
  destruct (m !! nm); cbn [id] in IH; lia.
Qed.

Lemma hub_tables_of pats h s : tables_of pats s (hub_map pats h) (hub_map (negb pats) h) <->
  tables (s_dicts s) (a_channels (s_ac s)) (a_patterns (s_ac s)) (h_channels h) (h_patterns h).
Proof. destruct pats; [|done]. split; apply tables_sym. Qed.

Lemma set_hub_tables pats h m s : tables_of pats s m (hub_map (negb pats) h) ->
  tables (s_dicts s) (a_channels (s_ac s)) (a_patterns (s_ac s))
    (h_channels (set_hub_map pats h m)) (h_patterns (set_hub_map pats h m)).
Proof. destruct pats; [|done]. apply tables_sym. Qed.

Lemma hub_map_size pats h : zlen (h_out h) + Z.of_nat (size (hub_map pats h)) <= hub_size h.
Proof. unfold hub_size. destruct pats; cbn [hub_map]; lia. Qed.

(** The text of a command goes to the output. *)
Lemma append_hub h s text r : hub_is h s -> zlen (h_out h) + zlen text < 2 ^ 62 -> exists s',
  append_command (text ++ r) (zlen text) s = Ok (REDIS_OK, s') /\ hub_is (written_out h text) s' /\
  s_heap s' = s_heap s.
Proof.
  intros [H1 H2 H3 H4 H5] Hl.
  destruct (append_command_run malloc_total s (h_out h) text r H1 H4 Hl) as (o & Ho & Hs).
  exists (written s o). split; [done|]. split; [|done]. split; try done. by exists o.
Qed.

(** A new subscription, before its text is written. *)
Lemma subscribed_hub h s pats cb names w dc dp : hub_is h s ->
  let s1 := with_ac s (set_c (s_ac s) (add_flag (a_c (s_ac s)) REDIS_SUBSCRIBED)) in
  tables_of pats (with_tables s1 w dc dp) (subscribe_map cb (hub_map pats h) names) (hub_map (negb pats) h) ->
  hub_is (set_subscribed (set_hub_map pats h (subscribe_map cb (hub_map pats h) names)) true)
    (with_tables s1 w dc dp).
Proof.
  intros [H1 H2 H3 H4 H5] s1 Ht. split; cbn [h_subscribed h_out set_subscribed h_channels h_patterns].
  - done.
  - change (has_flag (add_flag (a_c (s_ac s)) REDIS_SUBSCRIBED) (Z.lor REDIS_DISCONNECTING REDIS_FREEING) = false).
    by rewrite add_flag_other.
  - by apply (add_flag_sub (a_c (s_ac s))).
  - by destruct pats.
  - by apply set_hub_tables.
Qed.

Lemma subscribe_run h s name names cb r : hub_is h s ->
  op_ok (s_heap s) (HSubscribe name names cb r) ->
  hub_size h + op_cost (HSubscribe name names cb r) < INT_MAX -> exists s',
  run_hub_op (HSubscribe name names cb r) s = Ok ((hub_spec h (HSubscribe name names cb r)).2, s') /\
  hub_is (hub_spec h (HSubscribe name names cb r)).1 s' /\ s_heap s' = s_heap s.
Proof.
  intros Hh (Hcr & Hword & Hne) Hsz. cbn [op_cost] in Hsz. unfold INT_MAX in Hsz.
  pose proof (hub_map_size (for_patterns name) h) as Hms.
  destruct (command_head name names r) as (i & clen & j & d & c0 & G1 & G2 & G3 & G4 & G5 & G6 & G7);
    [unfold INT_MAX; lia|done|].
  destruct (command_names name names) as [Hn1 Hn2]. pose proof (names_length names) as Hn3.
  pose proof (hi_live _ _ Hh) as Hf.
  set (m := command (name :: names) ++ 0 :: r) in *.
  set (s1 := with_ac s (set_c (s_ac s) (add_flag (a_c (s_ac s)) REDIS_SUBSCRIBED))).
  destruct (subscribe_all_run (for_patterns name) cb r names (S (length m)) m
    (header (name :: names) ++ bulk name) s1 (hub_map (for_patterns name) h)
    (hub_map (negb (for_patterns name)) h)) as (w & dc & dp & Ht & Hsub); [done|..].
  { unfold m. rewrite command_eq. fold (header (name :: names)). cbn [flat_map]. solve_app. }
  { rewrite length_app. unfold INT_MAX. lia. }
  { apply hub_tables_of. apply Hh. }
  { unfold INT_MAX. lia. }
  { unfold m. rewrite length_app. lia. }
  pose proof (subscribed_hub h s (for_patterns name) cb names w dc dp Hh Ht) as Hh2.
  destruct (append_hub _ _ (command (name :: names)) (0 :: r) Hh2) as (s' & Ha & Hh' & Hheap).
  { cbn [set_subscribed h_out]. replace (h_out (set_hub_map _ _ _)) with (h_out h)
      by (by destruct (for_patterns name)). lia. }
  exists s'. split; [|by split]. cbn [run_hub_op hub_spec snd].
  erewrite abind; [reflexivity|]. unfold __redisAsyncCommand. fold m.
  erewrite abind; [|by apply flagged_run]. rewrite (hi_open _ _ Hh).
  erewrite abind; [|by apply lift_run]. erewrite abind; [|done]. erewrite abind; [|done]. cbv beta iota.
  erewrite abind; [|by apply lift_run]. erewrite abind; [|by apply lift_run]. cbv zeta.
  rewrite G3, bool_decide_eq_false_2 by done. cbn [negb].
  erewrite abind; [|apply lift_run; apply G5; decide_now]. rewrite Hword. cbv iota.
  erewrite abind; [|by apply raise_run]. rewrite G7, G6.
  erewrite abind; [|destruct cb; exact Hsub]. exact Ha.
Qed.

Lemma unsubscribe_run h s name names r : hub_is h s ->
  op_ok (s_heap s) (HUnsubscribe name names r) ->
  hub_size h + op_cost (HUnsubscribe name names r) < INT_MAX -> exists s',
  run_hub_op (HUnsubscribe name names r) s = Ok ((hub_spec h (HUnsubscribe name names r)).2, s') /\
  hub_is (hub_spec h (HUnsubscribe name names r)).1 s' /\ s_heap s' = s_heap s.
Proof.
  intros Hh (Hcr & Hword) Hsz. cbn [op_cost] in Hsz. unfold INT_MAX in Hsz.
  pose proof (hub_map_size true h) as Hms.
  destruct (command_head name names r) as (i & clen & j & d & c0 & G1 & G2 & G3 & G4 & G5 & _);
    [unfold INT_MAX; lia|done|].
  pose proof (hi_live _ _ Hh) as Hf. set (m := command (name :: names) ++ 0 :: r) in *.
  assert (exists s', (subscribed ← flagged REDIS_SUBSCRIBED;
      if negb subscribed then mret REDIS_ERR else append_command m (zlen (command (name :: names)))) s
      = Ok (if h_subscribed h then REDIS_OK else REDIS_ERR, s') /\
    hub_is (hub_spec h (HUnsubscribe name names r)).1 s' /\ s_heap s' = s_heap s) as (s' & Hrun & Hh' & Hheap).
  { erewrite abind; [|by apply flagged_run]. rewrite (hi_flag _ _ Hh). cbn [hub_spec].
    destruct (h_subscribed h); cbn [negb]; [|by exists s].
    apply append_hub; [done|lia]. }
  exists s'. split; [|by split]. cbn [run_hub_op].
  replace (hub_spec h (HUnsubscribe name names r)).2 with (Status (if h_subscribed h then REDIS_OK else REDIS_ERR))
    by (cbn [hub_spec]; by destruct (h_subscribed h)).
  erewrite abind; [reflexivity|]. unfold __redisAsyncCommand. fold m.
  erewrite abind; [|by apply flagged_run]. rewrite (hi_open _ _ Hh).
  erewrite abind; [|by apply lift_run]. erewrite abind; [|done]. erewrite abind; [|done]. cbv beta iota.
  erewrite abind; [|by apply lift_run]. erewrite abind; [|by apply lift_run]. cbv zeta.
  erewrite (abind _ _ _ false s).
  2: { destruct (d =? 36); [|done]. apply lift_run. unfold subscribe_text.
       rewrite G5 by decide_now. by rewrite words_differ. }
  cbv iota. erewrite abind; [|apply lift_run; apply G5; decide_now]. rewrite Hword. cbv iota. exact Hrun.
Qed.

(** ** Messages *)
Lemma casecmp_string w : forall m pre k post, m = pre ++ k ++ 0 :: post -> no_nul k -> no_nul w ->
  casecmp (w ++ [0]) m (zlen pre) = Ok (bool_decide (map tolower k = map tolower w)).
Proof.
  induction w as [|d w IH]; intros m pre k post Hm Hk Hw; cbn [app casecmp].
  - destruct k as [|c k].
    + by rewrite (load_at m _ pre 0 post).
    + apply Forall_cons in Hk as [Hc _].
      rewrite (load_at m _ pre c (k ++ 0 :: post)) by done. cbn [mbind result_bind].
      assert (tolower c <> 0) by (intros ?%tolower_zero; done). change (tolower 0) with 0.
      bool_false (tolower c =? 0). done.
  - apply Forall_cons in Hw as [Hd Hw]. assert (tolower d <> 0) by (intros ?%tolower_zero; done).
    destruct k as [|c k].
    + rewrite (load_at m _ pre 0 post) by done. cbn [mbind result_bind]. change (tolower 0) with 0.
      bool_false (0 =? tolower d). done.
    + apply Forall_cons in Hk as [Hc Hk].
      rewrite (load_at m _ pre c (k ++ 0 :: post)) by done. cbn [mbind result_bind map].
      destruct (tolower c =? tolower d) eqn:E; bool_to_prop; cbn [negb].
      * bool_false (c =? 0). replace (zlen pre + 1) with (zlen (pre ++ [c])) by slia.
        rewrite (IH m (pre ++ [c]) k post); [|by rewrite Hm, <- app_assoc|done..].
        f_equal. apply bool_decide_ext. rewrite E. split; congruence.
      * f_equal. symmetry. apply bool_decide_eq_false. congruence.
Qed.

(** The word of the kind of a message. *)
Lemma kind_word kind x : no_nul kind ->
  load (kind ++ 0 :: x) 0 = Ok (hd 0 kind) /\ (tolower (hd 0 kind) =? 112) = for_patterns kind /\
  casecmp (lit "unsubscribe" ++ [0]) (kind ++ 0 :: x) (if for_patterns kind then 1 else 0)
    = Ok (is_word "unsubscribe" kind).
Proof.
  intros Hk. unfold is_word. destruct kind as [|c kind]; cbn [hd for_patterns command_word].
  { split_and!; [done|done|].
    apply (casecmp_string (lit "unsubscribe") _ [] [] x); [done|done|decide_now]. }
  split_and!; [done|done|]. destruct (tolower c =? 112).
  - apply Forall_cons in Hk as [_ Hk].
    apply (casecmp_string (lit "unsubscribe") _ [c] kind x); [done|done|decide_now].
  - apply (casecmp_string (lit "unsubscribe") _ [] (c :: kind) x); [done|done|decide_now].
Qed.

(** The entry of a name that is unsubscribed goes. *)
Lemma forget_run h s (pats : bool) name : hub_is h s -> short name -> is_Some (hub_map pats h !! name) ->
  Z.of_nat (size (hub_map pats h)) < 2 ^ 31 -> exists w d,
  let s' := with_tables s w (if pats then a_channels (s_ac s) else d) (if pats then d else a_patterns (s_ac s)) in
  dictDelete callbackDict (s_dicts s) (if pats then a_patterns (s_ac s) else a_channels (s_ac s)) name
    = Ok (w, d, DICT_OK) /\
  (_ ← put_dicts w; put_ac (if pats then set_patterns (s_ac s) d else set_channels (s_ac s) d)) s = Ok (tt, s') /\
  hub_is (set_hub_map pats h (delete name (hub_map pats h))) s'.
Proof.
  intros [H1 H2 H3 H4 H5] Hk Hin Hsz. apply (hub_tables_of pats) in H5.
  assert (exists w d, dictDelete callbackDict (s_dicts s)
      (if pats then a_patterns (s_ac s) else a_channels (s_ac s)) name = Ok (w, d, DICT_OK) /\
    tables_of pats (with_tables s w (if pats then a_channels (s_ac s) else d) (if pats then d else a_patterns (s_ac s)))
      (delete name (hub_map pats h)) (hub_map (negb pats) h)) as (w & d & Hd & Ht).
  { destruct pats; destruct (tables_delete _ _ _ _ _ name H5 Hk ltac:(lia) Hin) as (w & d & Hd & Ht); by exists w, d. }
  exists w, d. split_and!; [done| |].
  - erewrite abind; [|done]. rewrite put_ac_run by done. unfold with_tables, with_ac.
    destruct pats, s as [[]]; done.
  - split; [done|done| | |by apply set_hub_tables]; by destruct pats.
Qed.

Lemma found_run h s (pats : bool) name : hub_is h s -> short name -> exists p,
  dictFind callbackDict (s_dicts s) (if pats then a_patterns (s_ac s) else a_channels (s_ac s)) name = Ok p /\
  match hub_map pats h !! name with
  | Some cb => p <> 0 /\ exists nx, entry_at (s_dicts s) p = Ok (mk_entry name cb nx)
  | None => p = 0
  end.
Proof.
  intros Hh Hk. pose proof (proj2 (hub_tables_of pats h s) (hi_tables _ _ Hh)) as Ht.
  destruct pats; exact (tables_find _ _ _ _ _ name Ht Hk).
Qed.

(** The last message of a name may end the subscription of the connection. *)
Lemma count_run h s count : hub_is h s -> exists s',
  when (count =? 0) (lower REDIS_SUBSCRIBED) s = Ok (tt, s') /\
  hub_is (set_subscribed h (h_subscribed h && negb (count =? 0))) s' /\ s_heap s' = s_heap s.
Proof.
  intros [H1 H2 H3 H4 H5]. destruct (count =? 0); cbn [when negb].
  - rewrite lower_run by done. eexists. split; [done|]. split; [|done]. rewrite andb_false_r.
    split; try done.
    + change (has_flag (clear_flag (a_c (s_ac s)) REDIS_SUBSCRIBED) (Z.lor REDIS_DISCONNECTING REDIS_FREEING) = false).
      by rewrite clear_flag_other.
    + apply (clear_flag_self (a_c (s_ac s))).
  - exists s. split; [done|]. split; [|done]. by split; cbn; rewrite ?andb_true_r.
Qed.

Lemma push_run h s p kind name count dst : hub_is h s ->
  op_ok (s_heap s) (HPush p kind name count dst) -> hub_size h < INT_MAX -> exists s',
  __redisGetSubscribeCallback p dst s = Ok ((push_spec h kind name count dst).2, s') /\
  hub_is (push_spec h kind name count dst).1 s' /\ s_heap s' = s_heap s.
Proof.
  intros Hh ([Hkind (r & l & e0 & e1 & p0 & p1 & x0 & x1 & A1 & A2 & A3 & A4 & A5 & A6 & B1 & B2 & B3 &
    C1 & C2 & C3 & C4 & Hun)] & Hk) Hsz.
  pose proof (hi_live _ _ Hh) as Hf. pose proof (hub_map_size (for_patterns kind) h) as Hms.
  destruct (newlen_run name x1 ltac:(unfold short in Hk; lia)) as (o & Ho & Hc).
  destruct (kind_word kind x0 Hkind) as (K1 & K2 & K3).
  destruct (found_run h s (for_patterns kind) name Hh Hk) as (q & Hq & Hfound).
  unfold __redisGetSubscribeCallback. erewrite abind; [|done]. erewrite abind; [|by apply lift_run].
  rewrite A2, Z.eqb_refl. erewrite abind; [|apply lift_run; by bool_true (2 <=? r_elements r)].
  assert (forall i pi ei, load l i = Ok pi -> get_cell (s_heap s) pi = Ok ei ->
    element_at (s_heap s) r i = Ok ei) as Hel.
  { intros i pi ei Hi Hei. unfold element_at. rewrite A4. cbn [deref mbind result_bind]. by rewrite Hi. }
  erewrite abind; [|by apply lift_run, (Hel 0 p0 e0)]. rewrite B2, Z.eqb_refl.
  erewrite abind; [|by apply lift_run]. rewrite B3. erewrite abind; [|by apply lift_run].
  erewrite abind; [|by apply lift_run]. cbv zeta. rewrite K2.
  erewrite abind; [|by apply lift_run, (Hel 1 p1 e1)]. rewrite C2, Z.eqb_refl.
  erewrite abind; [|by apply lift_run]. rewrite C3. erewrite abind; [|by apply lift_run].
  rewrite C4. erewrite abind; [|by apply lift_run]. erewrite abind; [|by apply lift_run]. rewrite Hc.
  erewrite abind; [|by apply get_ac_live]. erewrite abind; [|done].
  erewrite abind; [|by apply lift_run]. unfold push_spec.
  destruct (hub_map (for_patterns kind) h !! name) as [cb|] eqn:Em.
  2: { subst q. cbn [Z.eqb negb]. by exists s. }
  destruct Hfound as [Hq0 [nx Hnx]]. bool_false (q =? 0). cbn [negb].
  erewrite abind; [|by apply lift_run]. erewrite abind; [|by apply lift_run]. cbn [e_val].
  destruct (is_word "unsubscribe" kind); [|by exists s].
  destruct (forget_run h s (for_patterns kind) name Hh Hk ltac:(by rewrite Em)) as (w & d & Hd & Hput & Hh1).
  { unfold INT_MAX in Hsz. lia. }
  destruct (Hun eq_refl) as (e2 & p2 & D1 & D2 & D3 & D4).
  destruct (count_run _ _ count Hh1) as (s' & Hw & Hh' & Hheap).
  exists s'. split; [|split; [|exact Hheap]].
  2: { destruct (for_patterns kind); exact Hh'. }
  erewrite abind; [done|]. erewrite abind; [|by apply lift_run]. cbv beta iota.
  unfold mbind at 1, async_bind at 1.
  unfold mbind at 1, async_bind at 1 in Hput. destruct (put_dicts w s) as [[[] s1]|]; [|done].
  erewrite abind by exact Hput. erewrite abind; [|by apply lift_run, (Hel 2 p2 e2)].
  rewrite D3, Z.eqb_refl. erewrite abind; [|by apply lift_run]. rewrite D4. exact Hw.
Qed.

Lemma hub_op_run h s op : hub_is h s -> op_ok (s_heap s) op -> hub_size h + op_cost op < INT_MAX ->
  exists s', run_hub_op op s = Ok ((hub_spec h op).2, s') /\ hub_is (hub_spec h op).1 s' /\
    s_heap s' = s_heap s.
Proof.
  intros Hh Hok Hsz. destruct op as [name names cb r|name names r|p kind name count dst].
  - by apply subscribe_run.
  - by apply unsubscribe_run.
  - cbn [op_cost] in Hsz. destruct (push_run h s p kind name count dst Hh Hok ltac:(lia)) as (s' & Hr & Hh' & Hheap).
    exists s'. cbn [run_hub_op hub_spec]. erewrite abind by exact Hr.
    by destruct (push_spec h kind name count dst).
Qed.

Lemma map_delete_size {A} (k : bytes) (m : gmap bytes A) : (size (delete k m) <= size m)%nat.
Proof. apply map_subseteq_size, delete_subseteq. Qed.

Lemma hub_spec_size h op : hub_size (hub_spec h op).1 <= hub_size h + op_cost op.
Proof.
  destruct op as [name names cb r|name names r|p kind name count dst]; cbn [hub_spec op_cost fst].
  - pose proof (subscribe_map_size cb names (hub_map (for_patterns name) h)) as Hs. unfold hub_size.
    destruct (for_patterns name); cbn [hub_map set_hub_map written_out set_subscribed h_out h_channels h_patterns] in *;
      rewrite length_app; lia.
  - destruct (h_subscribed h); cbn [fst]; unfold hub_size; cbn [written_out h_out h_channels h_patterns];
      rewrite ?length_app; lia.
  - unfold push_spec. destruct (_ !! name); [|cbn [fst]; lia]. destruct (is_word _ kind); cbn [fst]; [|lia].
    pose proof (map_delete_size name (hub_map (for_patterns kind) h)). unfold hub_size.
    destruct (for_patterns kind); cbn [hub_map set_hub_map set_subscribed h_out h_channels h_patterns] in *; lia.
Qed.

(** C7: the subscriptions of a context are two maps from names to callbacks,
    one of channels and one of patterns. Any sequence of SUBSCRIBE, PSUBSCRIBE,
    UNSUBSCRIBE and PUNSUBSCRIBE commands and of messages of the server gives
    what it gives on the maps: each message gets the callback of its name, the
    last one that was given for it, and none of another name; the message of an
    unsubscription forgets the name; commands that are accepted are written out
    in order, and an unsubscription is refused once the server has counted no
    name left. *)
Theorem subscriptions_refine ops : forall h s, hub_is h s -> Forall (op_ok (s_heap s)) ops ->
  hub_size h + ops_cost ops < INT_MAX -> exists s',
  run_hub_ops ops s = Ok ((hub_specs h ops).2, s') /\ hub_is (hub_specs h ops).1 s'.
Proof.
  induction ops as [|op ops IH]; intros h s Hh Hok Hsz; cbn [run_hub_ops hub_specs].
  { by exists s. }
  apply Forall_cons in Hok as [Hop Hok]. cbn [ops_cost foldr] in Hsz. fold (ops_cost ops) in Hsz.
  assert (0 <= ops_cost ops).
  { clear. induction ops as [|op ops IH]; cbn [ops_cost foldr]; [lia|]. fold (ops_cost ops).
    destruct op; cbn [op_cost]; lia. }
  destruct (hub_op_run h s op Hh Hop ltac:(lia)) as (s1 & Hr & Hh1 & Hheap).
  pose proof (hub_spec_size h op) as Hsize. destruct (hub_spec h op) as [h1 o]. cbn [fst snd] in *.
  rewrite <- Hheap in Hok. destruct (IH h1 s1 Hh1 Hok ltac:(lia)) as (s' & Hrs & Hh').
  erewrite abind by exact Hr. erewrite abind by exact Hrs. exists s'.
  by destruct (hub_specs h1 ops).
Qed.
End runs.

(** ** A channel and a pattern *)
Definition text_cell (t : bytes) : redisReply := mk_reply REDIS_REPLY_STRING 0 (zlen t) (Some (t ++ [0])) 0 None.
Definition count_cell (n : Z) : redisReply := mk_reply REDIS_REPLY_INTEGER n 0 None 0 None.
Definition array_cell (l : list Z) : redisReply := mk_reply REDIS_REPLY_ARRAY 0 0 None (zlen l) (Some l).

(** A message on [news], one for the pattern [n*], and the last
    unsubscription. *)
Definition three_pushes : heap := mk_heap (list_to_map [
  (1, array_cell [2; 3; 4]); (2, text_cell (lit "message")); (3, text_cell (lit "news")); (4, text_cell (lit "hi"));
  (5, array_cell [6; 7; 3; 4]); (6, text_cell (lit "pmessage")); (7, text_cell (lit "n*"));
  (8, array_cell [9; 3; 10]); (9, text_cell (lit "unsubscribe")); (10, count_cell 0)]) 11 0.

Definition subscriber (o : sds) : state (W := peer) :=
  mk_state (mk_async (mk_context 0 [] 3 REDIS_CONNECTED (Some o) None REDIS_CONN_TCP None (mk_tcp None None 0) None)
      0 false (mk_hooks false false false false false) 0 0 empty_cblist empty_cblist _dictReset _dictReset)
    three_pushes (mk_store ∅ 1) (mk_world ∅ 1 tt) new_peer [] false.

Definition pushed_ops : list hub_op :=
  [HSubscribe (lit "SUBSCRIBE") [lit "news"; lit "sport"] (mk_cb 7 1) [];
   HSubscribe (lit "PSUBSCRIBE") [lit "n*"] (mk_cb 8 2) [];
   HPush 1 (lit "message") (lit "news") 0 (mk_cb 0 0);
   HPush 5 (lit "pmessage") (lit "n*") 0 (mk_cb 0 0);
   HUnsubscribe (lit "unsubscribe") [lit "news"] [];
   HPush 8 (lit "unsubscribe") (lit "news") 0 (mk_cb 0 0);
   HPush 1 (lit "message") (lit "news") 0 (mk_cb 9 9);
   HUnsubscribe (lit "UNSUBSCRIBE") [lit "sport"] []].

Lemma three_push p kind name count l p0 p1 : no_nul kind -> short name ->
  get_cell three_pushes p = Ok (array_cell l) -> 2 <= zlen l -> load l 0 = Ok p0 -> load l 1 = Ok p1 ->
  get_cell three_pushes p0 = Ok (text_cell kind) -> get_cell three_pushes p1 = Ok (text_cell name) ->
  (is_word "unsubscribe" kind = true -> load l 2 = Ok 10 /\ count = 0) ->
  push_at three_pushes p kind name count /\ short name.
Proof.
  intros Hk Hs Hr Hl H0 H1 G0 G1 Hun. split; [|done]. split; [done|].
  exists (array_cell l), l, (text_cell kind), (text_cell name), p0, p1, [], [0].
  split_and!; try done. intros [H2 ->]%Hun. by exists (count_cell 0), 10.
Qed.

Lemma pushed_ok : Forall (op_ok three_pushes) pushed_ops.
Proof.
  assert (push_at three_pushes 1 (lit "message") (lit "news") 0 /\ short (lit "news")) as Hm.
  { by apply (three_push 1 _ _ _ [2; 3; 4] 2 3); try decide_now. }
  repeat apply Forall_cons_2; try apply Forall_nil_2; try exact Hm; try (by split_and!; decide_now).
  - by apply (three_push 5 _ _ _ [6; 7; 3; 4] 6 7); try decide_now.
  - by apply (three_push 8 _ _ _ [9; 3; 10] 9 3); try decide_now.
Qed.

Lemma subscriptions_refine_witness : exists o s',
  let M := malloc_yes in
  sdsempty = Ok (Some o) /\
  run_hub_ops (OS := peer_sys ping_server) pushed_ops (subscriber o) =
    Ok ([Status 0; Status 0; Calls (mk_cb 7 1); Calls (mk_cb 8 2); Status 0; Calls (mk_cb 7 1);
         Calls (mk_cb 9 9); Status (-1)], s').
Proof.
  pose proof (sdsempty_spec (M := malloc_yes)) as Ho. cbv zeta.
  destruct (sdsempty (M := malloc_yes)) as [[o|]|] eqn:E; [|by destruct Ho|done].
  destruct (subscriptions_refine (M := malloc_yes) (OS := peer_sys ping_server) ltac:(done) pushed_ops
    (mk_hub ∅ ∅ false []) (subscriber o)) as (s' & Hs & _).
  - split; [done..|by exists o|]. apply tables_new. split; [done|]. intros p e He. discriminate He.
  - apply pushed_ok.
  - by vm_compute.
  - exists o, s'. split; [done|]. exact Hs.
Defined.
