(* ===== verification/Adapters.v ===== *)
(** * Adapters: event libraries under an asynchronous context (adapters/*.h)

    An adapter gives a context five hooks and keeps, in a structure of its own,
    what it needs to tell an event library which events of the descriptor to
    watch. The libraries are parameters, a class of functions for each, with what
    it was told to watch: descriptor, direction and callback. A class of laws says
    what each function does to that, as the manuals do. The class [Adapter] is what
    the asynchronous context needs: that the library watches what the hooks that
    were called ask for. This file has the adapters that keep flags of their
    own (libev.h, ae.h, qt.h), [AdaptersCorrect] the others. *)
From S2P Require Import Prelude Mem Reply Reader Context Async.
From stdpp Require Import list list_numbers strings sets gmap.
From Stdlib Require Import ZArith Lia.
Open Scope Z_scope.

(** ** Sets of flags *)
Definition has_bits (events f : Z) : bool := negb (Z.land events f =? 0).

Lemma lor_has_same events f : f <> 0 -> has_bits (Z.lor events f) f = true.
Proof.
  intros Hf. unfold has_bits. rewrite Z.land_lor_distr_l, Z.land_diag, negb_true_iff, Z.eqb_neq.
  rewrite Z.lor_eq_0_iff. tauto.
Qed.

Lemma lor_has_other events f g : Z.land f g = 0 -> has_bits (Z.lor events f) g = has_bits events g.
Proof. intros H. unfold has_bits. by rewrite Z.land_lor_distr_l, H, Z.lor_0_r. Qed.

Lemma ldiff_has_same events f : has_bits (Z.ldiff events f) f = false.
Proof.
  unfold has_bits. apply negb_false_iff, Z.eqb_eq, Z.bits_inj'. intros n Hn.
  rewrite Z.land_spec, Z.ldiff_spec, Z.bits_0. by destruct (Z.testbit events n), (Z.testbit f n).
Qed.

Lemma ldiff_has_other events f g : Z.land f g = 0 -> has_bits (Z.ldiff events f) g = has_bits events g.
Proof.
  intros H. unfold has_bits. do 2 f_equal. apply Z.bits_inj'. intros n Hn.
  apply (f_equal (fun z => Z.testbit z n)) in H. rewrite Z.land_spec, Z.bits_0 in H.
  rewrite !Z.land_spec, Z.ldiff_spec.
  destruct (Z.testbit events n), (Z.testbit f n), (Z.testbit g n); done.
Qed.

(** ** What a context needs of an adapter *)

(** The member [c.fd] of the context at an address, which does not change while
    an adapter is attached. *)
Class Contexts := { ctx_fd : Z -> Z }.

(** The member [ev] of a context: the structure of the adapter, and which hooks
    are set. *)
Inductive pointer (D : Type) : Type :=
  | Null
  | To (d : D)
  | Freed.
Arguments Null {D}.
Arguments To {D} d.
Arguments Freed {D}.

Definition target {D} (p : pointer D) : result D :=
  match p with
  | Null => Fault NullDeref
  | To d => Ok d
  | Freed => Fault OutOfBounds
  end.

Record redisEvents (D : Type) : Type := mk_ev {
  ev_data : pointer D;
  ev_hooks : event_hooks
}.
Arguments mk_ev {D}.
Arguments ev_data {D}.
Arguments ev_hooks {D}.

Definition all_hooks : event_hooks := mk_hooks true true true true true.

(** A descriptor is watched for reading or for writing; a pair says for which. *)
Inductive direction : Type := ForRead | ForWrite.
#[export] Instance direction_eq_dec : EqDecision direction.
Proof. solve_decision. Defined.

Abbreviation watched := (bool * bool)%type.
Definition set_watch (d : direction) (b : bool) (w : watched) : watched :=
  match d with ForRead => (b, w.2) | ForWrite => (w.1, b) end.
Definition get_watch (d : direction) (w : watched) : bool := match d with ForRead => w.1 | ForWrite => w.2 end.

(** What happens to an adapter: the context calls a hook, or the library has
    seen that the descriptor is ready and calls what was registered. *)
Inductive use : Type :=
  | Hook (e : event)
  | Ready (dir : direction).

(** What is to be watched after it; [once dir] holds of a library that stops
    to watch when it has called. *)
Definition wants (once : direction -> bool) (u : use) (w : watched) : watched :=
  match u with
  | Hook EvAddRead => set_watch ForRead true w
  | Hook EvDelRead => set_watch ForRead false w
  | Hook EvAddWrite => set_watch ForWrite true w
  | Hook EvDelWrite => set_watch ForWrite false w
  | Hook EvCleanup => (false, false)
  | Hook _ => w
  | Ready dir => if once dir then set_watch dir false w else w
  end.

(** A call of [redisAsyncHandleRead] or [redisAsyncHandleWrite]. *)
Inductive handled : Type :=
  | HandleRead (ac : Z)
  | HandleWrite (ac : Z).

Definition handles (dir : direction) (ac : Z) : handled :=
  match dir with ForRead => HandleRead ac | ForWrite => HandleWrite ac end.

(** A function that an adapter registers: what it calls, for the structure. *)
Abbreviation callback D := (D -> result (list handled)).

(** An adapter with the structure [D] for a library with the state [S].
    [watches data s fd dir cb]: the library calls [cb] when [fd] is ready for
    [dir]. [delivered] is what it does to its own state when it calls. *)
Class Adapter (D S : Type) := {
  addRead : D -> S -> result (D * S);
  delRead : D -> S -> result (D * S);
  addWrite : D -> S -> result (D * S);
  delWrite : D -> S -> result (D * S);
  cleanup : D -> S -> result (pointer D * S);
  attach : Z -> redisEvents D -> S -> result (Z * redisEvents D * S);
  watches : pointer D -> S -> Z -> direction -> callback D -> Prop;
  delivered : direction -> D -> S -> S;
  once : direction -> bool;
  initially : watched
}.

(** The hook that [e] stands for, called with [data]. *)
Definition call_hook {D S} {A : Adapter D S} (e : event) (data : pointer D) (s : S) :
    result (pointer D * S) :=
  let on (f : D -> S -> result (D * S)) :=
    d ← target data; '(d, s) ← f d s; Ok (To d, s) in
  match e with
  | EvAddRead => on addRead
  | EvDelRead => on delRead
  | EvAddWrite => on addWrite
  | EvDelWrite => on delWrite
  | EvCleanup => d ← target data; cleanup d s
  | _ => Ok (data, s)
  end.

Definition run_use {D S} {A : Adapter D S} (u : use) (data : pointer D) (s : S) : result (pointer D * S) :=
  match u with
  | Hook e => call_hook e data s
  | Ready dir => d ← target data; Ok (To d, delivered dir d s)
  end.

Fixpoint run_uses {D S} {A : Adapter D S} (us : list use) (data : pointer D) (s : S) :
    result (pointer D * S) :=
  match us with
  | [] => Ok (data, s)
  | u :: us => '(data, s) ← run_use u data s; run_uses us data s
  end.

Section follow.
Context {CX : Contexts}.

(** The library watches the descriptor of [ac] for [w] and nothing else, and
    what it calls hands the event to [ac]. *)
Definition watching {D S} {A : Adapter D S} (ac : Z) (d : D) (s : S) (w : watched) : Prop :=
  forall dir, (get_watch dir w = true -> exists cb, watches (To d) s (ctx_fd ac) dir cb) /\
    (forall cb, watches (To d) s (ctx_fd ac) dir cb -> get_watch dir w = true /\ cb d = Ok [handles dir ac]).

(** Other descriptors are watched as before. *)
Definition others {D S} {A : Adapter D S} (ac : Z) (data : pointer D) (s : S) (data' : pointer D) (s' : S) : Prop :=
  forall fd dir cb, fd <> ctx_fd ac -> watches data' s' fd dir cb <-> watches data s fd dir cb.

Lemma others_refl {D S} {A : Adapter D S} ac (data : pointer D) (s : S) : others ac data s data s.
Proof. done. Qed.

Lemma others_trans {D S} {A : Adapter D S} ac (d1 d2 d3 : pointer D) (s1 s2 s3 : S) :
  others ac d1 s1 d2 s2 -> others ac d2 s2 d3 s3 -> others ac d1 s1 d3 s3.
Proof. intros H1 H2 fd dir cb Hf. by rewrite (H2 fd dir cb Hf), (H1 fd dir cb Hf). Qed.

(** The promise, as a simulation of what was asked for. [sound ac d s w]
    relates the context, the structure and the library with what is to be
    watched; [unknown ac s] holds of a library that does not know the
    descriptor. *)
Class AdapterLaws (D S : Type) {A : Adapter D S} := {
  sound : Z -> D -> S -> watched -> Prop;
  unknown : Z -> S -> Prop;
  attach_sound : forall ac hooks s, ac <> NULL -> unknown ac s ->
    exists d s', attach ac (mk_ev Null hooks) s = Ok (REDIS_OK, mk_ev (To d) all_hooks, s') /\
      sound ac d s' initially /\ others ac Null s (To d) s';
  use_sound : forall u ac d s w, u <> Hook EvCleanup -> sound ac d s w -> exists d' s',
    run_use u (To d) s = Ok (To d', s') /\ sound ac d' s' (wants once u w) /\ others ac (To d) s (To d') s';
  watch_sound : forall ac d s w, sound ac d s w -> watching ac d s w;
  cleanup_sound : forall ac d s w, sound ac d s w -> exists data s',
    cleanup d s = Ok (data, s') /\ (forall dir cb, ~ watches data s' (ctx_fd ac) dir cb) /\
    others ac (To d) s data s'
}.

Lemma uses_sound {D S} {A : Adapter D S} {AL : AdapterLaws D S} us : forall ac d s w,
  Hook EvCleanup ∉ us -> sound ac d s w -> exists d' s',
  run_uses us (To d) s = Ok (To d', s') /\ sound ac d' s' (foldl (fun w u => wants once u w) w us) /\
  others ac (To d) s (To d') s'.
Proof.
  induction us as [|u us IH]; intros ac d s w Hev Hd; cbn [run_uses foldl].
  { exists d, s. split_and!; [done|done|apply others_refl]. }
  apply not_elem_of_cons in Hev as [He Hev].
  destruct (use_sound u ac d s w ltac:(congruence) Hd) as (d1 & s1 & -> & Hd1 & Ho1).
  cbn [mbind result_bind]. destruct (IH ac d1 s1 _ Hev Hd1) as (d2 & s2 & E & Hd2 & Ho2).
  exists d2, s2. split_and!; [done|done|by eapply others_trans].
Qed.

(** From its attachment to its end, an adapter follows its context: after any
    uses the library watches what is asked for, what becomes ready is handled by
    the context, in the end nothing is watched, and other descriptors are watched
    as before throughout. *)
Definition follows {D S} (A : Adapter D S) (start : Z -> S -> Prop) : Prop :=
  forall ac hooks s us, ac <> NULL -> start ac s -> Hook EvCleanup ∉ us -> exists d s1 d' s2 data s3,
    attach ac (mk_ev Null hooks) s = Ok (REDIS_OK, mk_ev (To d) all_hooks, s1) /\
    run_uses us (To d) s1 = Ok (To d', s2) /\
    watching ac d' s2 (foldl (fun w u => wants once u w) initially us) /\
    others ac Null s (To d') s2 /\
    cleanup d' s2 = Ok (data, s3) /\
    (forall dir cb, ~ watches data s3 (ctx_fd ac) dir cb) /\
    others ac Null s data s3.

Lemma laws_follow {D S} {A : Adapter D S} (AL : AdapterLaws D S) : follows A unknown.
Proof.
  intros ac hooks s us Hac Hs Hev.
  destruct (attach_sound ac hooks s Hac Hs) as (d & s1 & H1 & Hd & Ho1).
  destruct (uses_sound us ac d s1 _ Hev Hd) as (d' & s2 & H3 & Hd' & Ho2).
  destruct (cleanup_sound ac d' s2 _ Hd') as (data & s3 & H5 & H6 & Ho3).
  pose proof (others_trans _ _ _ _ _ _ _ Ho1 Ho2) as Ho.
  exists d, s1, d', s2, data, s3. split_and!; try done; [by eapply watch_sound|by eapply others_trans].
Qed.
End follow.

(** For a library that the adapter has a handle of its own in. *)
Definition nothing_else {CX : Contexts} {D S} {A : Adapter D S} (ac : Z) (data : pointer D) (s : S) : Prop :=
  forall fd dir cb, fd <> ctx_fd ac -> ~ watches data s fd dir cb.

Lemma others_nothing {CX : Contexts} {D S} {A : Adapter D S} ac (data data' : pointer D) (s s' : S) :
  nothing_else ac data s -> nothing_else ac data' s' -> others ac data s data' s'.
Proof. intros H H' fd dir cb Hf. split; intros Hw; [by apply H' in Hw|by apply H in Hw]. Qed.

(** ** Two watchers that start and stop (adapters/libev.h)

    [ev_io_init], [ev_io_start] and [ev_io_stop] on a watcher of the
    structure; [ev_watcher] is the watcher as the library sees it. *)
Inductive libev_watcher : Type := Rev | Wev.
#[export] Instance libev_watcher_eq_dec : EqDecision libev_watcher.
Proof. solve_decision. Defined.

Record ev_io (C : Type) : Type := mk_io {
  io_cb : C;
  io_fd : Z;
  io_events : direction;
  io_active : bool
}.
Arguments mk_io {C}.
Arguments io_cb {C}.
Arguments io_fd {C}.
Arguments io_events {C}.
Arguments io_active {C}.

Definition io_set {C} (b : bool) (i : ev_io C) : ev_io C := mk_io (io_cb i) (io_fd i) (io_events i) b.

Class Libev (C S : Type) := {
  ev_io_size : Z;
  ev_io_init : libev_watcher -> C -> Z -> direction -> S -> S;
  ev_io_start : libev_watcher -> S -> S;
  ev_io_stop : libev_watcher -> S -> S;
  ev_watcher : libev_watcher -> S -> option (ev_io C)
}.

Class LibevLaws (C S : Type) {L : Libev C S} := {
  ev_init_watcher : forall w w' cb fd d s, ev_watcher w' (ev_io_init w cb fd d s) =
    if decide (w = w') then Some (mk_io cb fd d false) else ev_watcher w' s;
  ev_start_watcher : forall w w' s, ev_watcher w' (ev_io_start w s) =
    if decide (w = w') then io_set true <$> ev_watcher w' s else ev_watcher w' s;
  ev_stop_watcher : forall w w' s, ev_watcher w' (ev_io_stop w s) =
    if decide (w = w') then io_set false <$> ev_watcher w' s else ev_watcher w' s
}.

Record redisLibevEvents : Type := mk_libev {
  lev_context : Z;
  lev_reading : bool;
  lev_writing : bool
}.

Section libev.
Context {M : Malloc} {CX : Contexts} {S : Type} {L : Libev (callback redisLibevEvents) S}.

(** The member [data] of both watchers is the structure. *)
Definition redisLibevReadEvent (e : redisLibevEvents) : result (list handled) := Ok [HandleRead (lev_context e)].
Definition redisLibevWriteEvent (e : redisLibevEvents) : result (list handled) := Ok [HandleWrite (lev_context e)].

Definition redisLibevAddRead (e : redisLibevEvents) (s : S) : redisLibevEvents * S :=
  if negb (lev_reading e) then (mk_libev (lev_context e) true (lev_writing e), ev_io_start Rev s) else (e, s).
Definition redisLibevDelRead (e : redisLibevEvents) (s : S) : redisLibevEvents * S :=
  if lev_reading e then (mk_libev (lev_context e) false (lev_writing e), ev_io_stop Rev s) else (e, s).
Definition redisLibevAddWrite (e : redisLibevEvents) (s : S) : redisLibevEvents * S :=
  if negb (lev_writing e) then (mk_libev (lev_context e) (lev_reading e) true, ev_io_start Wev s) else (e, s).
Definition redisLibevDelWrite (e : redisLibevEvents) (s : S) : redisLibevEvents * S :=
  if lev_writing e then (mk_libev (lev_context e) (lev_reading e) false, ev_io_stop Wev s) else (e, s).

(** The structure is freed. *)
Definition redisLibevCleanup (e : redisLibevEvents) (s : S) : pointer redisLibevEvents * S :=
  let '(e, s) := redisLibevDelRead e s in
  let '(_, s) := redisLibevDelWrite e s in
  (Freed, s).

(** [malloc] is not checked. *)
Definition redisLibevAttach (ac : Z) (ev : redisEvents redisLibevEvents) (s : S) :
    result (Z * redisEvents redisLibevEvents * S) :=
  match ev_data ev with
  | To _ | Freed => Ok (REDIS_ERR, ev, s)
  | Null =>
      if negb (malloc_ok (24 + 2 * ev_io_size)) then Fault NullDeref else
      let e := mk_libev ac false false in
      let s := ev_io_init Rev redisLibevReadEvent (ctx_fd ac) ForRead s in
      let s := ev_io_init Wev redisLibevWriteEvent (ctx_fd ac) ForWrite s in
      Ok (REDIS_OK, mk_ev (To e) all_hooks, s)
  end.

#[export] Instance libev_adapter : Adapter redisLibevEvents S := {|
  addRead e s := Ok (redisLibevAddRead e s);
  delRead e s := Ok (redisLibevDelRead e s);
  addWrite e s := Ok (redisLibevAddWrite e s);
  delWrite e s := Ok (redisLibevDelWrite e s);
  cleanup e s := Ok (redisLibevCleanup e s);
  attach := redisLibevAttach;
  watches data s fd dir cb :=
    match data with Null => False | _ => exists w, ev_watcher w s = Some (mk_io cb fd dir true) end;
  delivered _ _ s := s;
  once _ := false;
  initially := (false, false)
|}.

Definition libev_sound (ac : Z) (e : redisLibevEvents) (s : S) (w : watched) : Prop :=
  e = mk_libev ac w.1 w.2 /\
  ev_watcher Rev s = Some (mk_io redisLibevReadEvent (ctx_fd ac) ForRead w.1) /\
  ev_watcher Wev s = Some (mk_io redisLibevWriteEvent (ctx_fd ac) ForWrite w.2).

Lemma libev_watching ac e s w : libev_sound ac e s w -> watching ac e s w /\ nothing_else ac (To e) s.
Proof.
  intros (-> & Hr & Hw). split.
  - intros dir. split.
    + destruct dir; cbn; intros E; rewrite E in *; [by exists redisLibevReadEvent, Rev|by exists redisLibevWriteEvent, Wev].
    + intros cb [[] E]; rewrite ?Hr, ?Hw in E; injection E as <- <- E; cbn; by rewrite E.
  - intros fd dir cb Hf [[] E]; rewrite ?Hr, ?Hw in E; by injection E as _ <- _.
Qed.

Definition libev_laws {LL : LibevLaws (callback redisLibevEvents) S} (malloc_total : forall n, malloc_ok n = true) :
  AdapterLaws redisLibevEvents S.
Proof.
  refine {| sound := libev_sound; unknown := fun _ _ => True |}.
  - intros ac hooks s _ _. unfold attach, libev_adapter, redisLibevAttach. cbn [ev_data].
    rewrite malloc_total. do 2 eexists. split; [reflexivity|].
    match goal with |- _ ac ?e ?t ?w /\ _ => assert (libev_sound ac e t w) as Hs end.
    { split_and!; [done|..]; by rewrite !ev_init_watcher. }
    split; [done|]. apply others_nothing; [by intros ? ? ? _ []|by eapply libev_watching].
  - intros u ac e s [r w] Hu Hs.
    assert (exists e' s', run_use u (To e) s = Ok (To e', s') /\ libev_sound ac e' s' (wants once u (r, w)))
      as (e' & s' & E & Hs').
    { destruct Hs as (-> & Hr & Hw). unfold libev_sound. cbn in Hr, Hw.
      destruct u as [[]|]; try done; destruct r, w; do 2 eexists; (split; [reflexivity|]); cbn;
        rewrite ?ev_start_watcher, ?ev_stop_watcher; cbn; by rewrite ?Hr, ?Hw. }
    exists e', s'. split_and!; [done..|]. apply others_nothing; by eapply libev_watching.
  - intros ac e s w Hs. by apply libev_watching.
  - intros ac e s [r w] Hs. pose proof (proj2 (libev_watching _ _ _ _ Hs)) as Ho.
    assert (exists s', redisLibevCleanup e s = (Freed, s') /\ forall w i, ev_watcher w s' = Some i -> io_active i = false)
      as (s' & E & Hn).
    { destruct Hs as (-> & Hr & Hw). cbn in Hr, Hw. destruct r, w; eexists; (split; [reflexivity|]);
        intros [] i; cbn; rewrite ?ev_stop_watcher; cbn; rewrite ?ev_stop_watcher; cbn; rewrite ?Hr, ?Hw; by intros [= <-]. }
    exists Freed, s'. cbn [cleanup libev_adapter]. rewrite E. split; [done|].
    assert (forall fd dir cb, ~ watches (Freed (D := redisLibevEvents)) s' fd dir cb) as Hn'.
    { by intros fd dir cb [wt Hi%Hn]. }
    split; [intros; apply Hn'|]. apply others_nothing; [exact Ho|by intros ? ? ? _; apply Hn'].
Defined.
End libev.

(** ** File events (adapters/ae.h)

    [aeCreateFileEvent] and [aeDeleteFileEvent] for a descriptor and a
    direction; [aeFileEvent] is the callback that is registered, [ae_setsize] the
    size of the loop, which refuses descriptors that are not below it. *)
Class Ae (C S : Type) := {
  aeCreateFileEvent : Z -> direction -> C -> S -> Z * S;
  aeDeleteFileEvent : Z -> direction -> S -> S;
  aeFileEvent : Z -> direction -> S -> option C;
  ae_setsize : S -> Z
}.

Class AeLaws (C S : Type) {L : Ae C S} := {
  ae_create_events : forall fd d cb s fd' d', fd < ae_setsize s ->
    aeFileEvent fd' d' (aeCreateFileEvent fd d cb s).2 =
      if decide (fd = fd' /\ d = d') then Some cb else aeFileEvent fd' d' s;
  ae_create_setsize : forall fd d cb s, ae_setsize (aeCreateFileEvent fd d cb s).2 = ae_setsize s;
  ae_delete_events : forall fd d s fd' d', aeFileEvent fd' d' (aeDeleteFileEvent fd d s) =
      if decide (fd = fd' /\ d = d') then None else aeFileEvent fd' d' s;
  ae_delete_setsize : forall fd d s, ae_setsize (aeDeleteFileEvent fd d s) = ae_setsize s
}.

Record redisAeEvents : Type := mk_ae {
  ae_context : Z;
  ae_fd : Z;
  ae_reading : bool;
  ae_writing : bool
}.

Section ae.
Context {M : Malloc} {CX : Contexts} {S : Type} {L : Ae (callback redisAeEvents) S}.

Definition redisAeReadEvent (e : redisAeEvents) : result (list handled) := Ok [HandleRead (ae_context e)].
Definition redisAeWriteEvent (e : redisAeEvents) : result (list handled) := Ok [HandleWrite (ae_context e)].

(** The result of [aeCreateFileEvent] is dropped. *)
Definition redisAeAddRead (e : redisAeEvents) (s : S) : redisAeEvents * S :=
  if negb (ae_reading e) then
    (mk_ae (ae_context e) (ae_fd e) true (ae_writing e), (aeCreateFileEvent (ae_fd e) ForRead redisAeReadEvent s).2)
  else (e, s).
Definition redisAeDelRead (e : redisAeEvents) (s : S) : redisAeEvents * S :=
  if ae_reading e then
    (mk_ae (ae_context e) (ae_fd e) false (ae_writing e), aeDeleteFileEvent (ae_fd e) ForRead s)
  else (e, s).
Definition redisAeAddWrite (e : redisAeEvents) (s : S) : redisAeEvents * S :=
  if negb (ae_writing e) then
    (mk_ae (ae_context e) (ae_fd e) (ae_reading e) true, (aeCreateFileEvent (ae_fd e) ForWrite redisAeWriteEvent s).2)
  else (e, s).
Definition redisAeDelWrite (e : redisAeEvents) (s : S) : redisAeEvents * S :=
  if ae_writing e then
    (mk_ae (ae_context e) (ae_fd e) (ae_reading e) false, aeDeleteFileEvent (ae_fd e) ForWrite s)
  else (e, s).

Definition redisAeCleanup (e : redisAeEvents) (s : S) : pointer redisAeEvents * S :=
  let '(e, s) := redisAeDelRead e s in
  let '(_, s) := redisAeDelWrite e s in
  (Freed, s).

(** [sizeof(redisAeEvents)] is 32; [malloc] is not checked. *)
Definition redisAeAttach (ac : Z) (ev : redisEvents redisAeEvents) (s : S) :
    result (Z * redisEvents redisAeEvents * S) :=
  match ev_data ev with
  | To _ | Freed => Ok (REDIS_ERR, ev, s)
  | Null =>
      if negb (malloc_ok 32) then Fault NullDeref else
      Ok (REDIS_OK, mk_ev (To (mk_ae ac (ctx_fd ac) false false)) all_hooks, s)
  end.

#[export] Instance ae_adapter : Adapter redisAeEvents S := {|
  addRead e s := Ok (redisAeAddRead e s);
  delRead e s := Ok (redisAeDelRead e s);
  addWrite e s := Ok (redisAeAddWrite e s);
  delWrite e s := Ok (redisAeDelWrite e s);
  cleanup e s := Ok (redisAeCleanup e s);
  attach := redisAeAttach;
  watches _ s fd dir cb := aeFileEvent fd dir s = Some cb;
  delivered _ _ s := s;
  once _ := false;
  initially := (false, false)
|}.

(** What is registered for the descriptor of [ac]. *)
Definition ae_has (ac : Z) (s : S) (w : watched) : Prop := ctx_fd ac < ae_setsize s /\
  aeFileEvent (ctx_fd ac) ForRead s = (if w.1 then Some redisAeReadEvent else None) /\
  aeFileEvent (ctx_fd ac) ForWrite s = (if w.2 then Some redisAeWriteEvent else None).

Definition ae_sound (ac : Z) (e : redisAeEvents) (s : S) (w : watched) : Prop :=
  e = mk_ae ac (ctx_fd ac) w.1 w.2 /\ ae_has ac s w.

(** Nothing is registered for a descriptor that was just opened. *)
Definition ae_fresh (ac : Z) (s : S) : Prop := ae_has ac s (false, false).

Definition ae_frame (ac : Z) (s s' : S) : Prop :=
  forall fd d, fd <> ctx_fd ac -> aeFileEvent fd d s' = aeFileEvent fd d s.

Lemma ae_create {LL : AeLaws (callback redisAeEvents) S} ac s w d :
  ae_has ac s w -> let s' := (aeCreateFileEvent (ctx_fd ac) d
      match d with ForRead => redisAeReadEvent | ForWrite => redisAeWriteEvent end s).2 in
  ae_has ac s' (set_watch d true w) /\ ae_frame ac s s'.
Proof.
  intros (Hf & Hr & Hw) s'. split; [split_and!|].
  - unfold s'. by rewrite ae_create_setsize.
  - unfold s'. rewrite ae_create_events by done. destruct d; [by rewrite decide_True|].
    rewrite decide_False by intuition congruence. exact Hr.
  - unfold s'. rewrite ae_create_events by done. destruct d; [|by rewrite decide_True].
    rewrite decide_False by intuition congruence. exact Hw.
  - intros fd d' Hne. unfold s'. rewrite ae_create_events by done. by rewrite decide_False by intuition congruence.
Qed.

Lemma ae_delete {LL : AeLaws (callback redisAeEvents) S} ac s w d :
  ae_has ac s w -> let s' := aeDeleteFileEvent (ctx_fd ac) d s in
  ae_has ac s' (set_watch d false w) /\ ae_frame ac s s'.
Proof.
  intros (Hf & Hr & Hw) s'. split; [split_and!|].
  - unfold s'. by rewrite ae_delete_setsize.
  - unfold s'. rewrite ae_delete_events. destruct d; [by rewrite decide_True|].
    rewrite decide_False by intuition congruence. exact Hr.
  - unfold s'. rewrite ae_delete_events. destruct d; [|by rewrite decide_True].
    rewrite decide_False by intuition congruence. exact Hw.
  - intros fd d' Hne. unfold s'. rewrite ae_delete_events. by rewrite decide_False by intuition congruence.
Qed.

(** [H] says what the state that is reached has, and the frame. *)
Ltac ends H := destruct H as [H1 H2]; split; [split; [reflexivity|exact H1]|exact H2].

Lemma ae_use {LL : AeLaws (callback redisAeEvents) S} u ac e s w :
  u <> Hook EvCleanup -> ae_sound ac e s w -> exists e' s',
  run_use u (To e) s = Ok (To e', s') /\ ae_sound ac e' s' (wants once u w) /\ ae_frame ac s s'.
Proof.
  intros Hu [-> Hs]. unfold ae_sound. destruct w as [r w].
  assert (Hsame : ae_has ac s (r, w) /\ ae_frame ac s s) by done.
  destruct u as [[]|]; try done; destruct r, w; do 2 eexists; (split; [reflexivity|]);
    first [ ends Hsame | ends (ae_create _ _ _ ForRead Hs) | ends (ae_create _ _ _ ForWrite Hs)
          | ends (ae_delete _ _ _ ForRead Hs) | ends (ae_delete _ _ _ ForWrite Hs) ].
Qed.

Lemma ae_watching ac e s w : ae_sound ac e s w -> watching ac e s w.
Proof.
  intros (-> & _ & Hr & Hw) dir. cbn. destruct dir; rewrite ?Hr, ?Hw; cbn.
  - destruct w.1; [|by split; [|intros ? [=]]]. split; [by exists redisAeReadEvent|by intros cb [= <-]].
  - destruct w.2; [|by split; [|intros ? [=]]]. split; [by exists redisAeWriteEvent|by intros cb [= <-]].
Qed.

Definition ae_laws {LL : AeLaws (callback redisAeEvents) S} (malloc_total : forall n, malloc_ok n = true) :
  AdapterLaws redisAeEvents S.
Proof.
  refine {| sound := ae_sound; unknown := ae_fresh |}.
  - intros ac hooks s _ Hs. unfold attach, ae_adapter, redisAeAttach. cbn [ev_data].
    rewrite malloc_total. do 2 eexists. split; [reflexivity|]. by split.
  - intros u ac e s w Hu Hs. destruct (ae_use u ac e s w Hu Hs) as (e' & s' & E & Hs' & Hf).
    exists e', s'. split_and!; [done..|]. intros fd dir cb Hne. cbn. by rewrite Hf.
  - apply ae_watching.
  - intros ac e s w Hs. destruct (ae_use (Hook EvDelRead) ac e s w ltac:(done) Hs) as (e1 & s1 & E1 & H1 & F1).
    destruct (ae_use (Hook EvDelWrite) ac e1 s1 _ ltac:(done) H1) as (e2 & s2 & E2 & (_ & _ & Hr & Hw) & F2).
    cbn in E1, E2. exists Freed, s2. cbn. unfold redisAeCleanup.
    destruct (redisAeDelRead e s) as [? ?]. injection E1 as -> ->.
    destruct (redisAeDelWrite e1 s1) as [? ?]. injection E2 as -> ->. cbn in Hr, Hw.
    split_and!; [done|by intros [] cb; rewrite ?Hr, ?Hw|].
    intros fd dir cb Hne. cbn. by rewrite F2, F1.
Defined.
End ae.

(** ** Notifiers (adapters/qt.h)

    [new QSocketNotifier], which is enabled, [connect] of its signal to a slot of
    the adapter, and [delete]; [notifiers] are those that exist. *)
Record notifier (C : Type) : Type := mk_notifier {
  n_fd : Z;
  n_type : direction;
  n_slot : option C
}.
Arguments mk_notifier {C}.
Arguments n_fd {C}.
Arguments n_type {C}.
Arguments n_slot {C}.

Class Qt (C S : Type) := {
  new_QSocketNotifier : Z -> direction -> S -> Z * S;
  connect_activated : Z -> C -> S -> S;
  delete_QSocketNotifier : Z -> S -> S;
  notifiers : S -> gmap Z (notifier C)
}.

Class QtLaws (C S : Type) {L : Qt C S} := {
  new_notifiers : forall fd d s, let p := (new_QSocketNotifier fd d s).1 in
    p <> NULL /\ notifiers s !! p = None /\
    notifiers (new_QSocketNotifier fd d s).2 = <[p := mk_notifier fd d None]> (notifiers s);
  connect_notifiers : forall p cb s, notifiers (connect_activated p cb s) =
    alter (fun n => mk_notifier (n_fd n) (n_type n) (Some cb)) p (notifiers s);
  delete_notifiers : forall p s, notifiers (delete_QSocketNotifier p s) = delete p (notifiers s)
}.

(** [m_read] and [m_write] are pointers. *)
Record RedisQtAdapter : Type := mk_qt {
  m_ctx : Z;
  m_read : Z;
  m_write : Z
}.

Section qt.
Context {CX : Contexts} {S : Type} {L : Qt (callback RedisQtAdapter) S}.

Definition new_RedisQtAdapter : RedisQtAdapter := mk_qt NULL NULL NULL.

Definition qt_read (a : RedisQtAdapter) : result (list handled) := Ok [HandleRead (m_ctx a)].
Definition qt_write (a : RedisQtAdapter) : result (list handled) := Ok [HandleWrite (m_ctx a)].

Definition qt_addRead (a : RedisQtAdapter) (s : S) : RedisQtAdapter * S :=
  if negb (m_read a =? NULL) then (a, s) else
  let '(n, s) := new_QSocketNotifier (ctx_fd (m_ctx a)) ForRead s in
  (mk_qt (m_ctx a) n (m_write a), connect_activated n qt_read s).
Definition qt_delRead (a : RedisQtAdapter) (s : S) : RedisQtAdapter * S :=
  if m_read a =? NULL then (a, s)
  else (mk_qt (m_ctx a) NULL (m_write a), delete_QSocketNotifier (m_read a) s).
Definition qt_addWrite (a : RedisQtAdapter) (s : S) : RedisQtAdapter * S :=
  if negb (m_write a =? NULL) then (a, s) else
  let '(n, s) := new_QSocketNotifier (ctx_fd (m_ctx a)) ForWrite s in
  (mk_qt (m_ctx a) (m_read a) n, connect_activated n qt_write s).
Definition qt_delWrite (a : RedisQtAdapter) (s : S) : RedisQtAdapter * S :=
  if m_write a =? NULL then (a, s)
  else (mk_qt (m_ctx a) (m_read a) NULL, delete_QSocketNotifier (m_write a) s).

(** The adapter belongs to the application and stays. *)
Definition qt_cleanup (a : RedisQtAdapter) (s : S) : pointer RedisQtAdapter * S :=
  let '(a, s) := qt_delRead a s in
  let '(a, s) := qt_delWrite a s in
  (To a, s).

(** [setContext] of a new adapter. *)
Definition setContext (ac : Z) (ev : redisEvents RedisQtAdapter) (s : S) :
    result (Z * redisEvents RedisQtAdapter * S) :=
  let a := new_RedisQtAdapter in
  match ev_data ev with
  | To _ | Freed => Ok (REDIS_ERR, ev, s)
  | Null => Ok (REDIS_OK, mk_ev (To (mk_qt ac (m_read a) (m_write a))) all_hooks, s)
  end.

(** The destructor writes to the context of [m_ctx]: [alive] says which
    contexts still exist. *)
Definition qt_destroy (alive : Z -> bool) (a : RedisQtAdapter) (ev : redisEvents RedisQtAdapter) :
    result (redisEvents RedisQtAdapter) :=
  if m_ctx a =? NULL then Ok ev
  else if alive (m_ctx a) then Ok (mk_ev Null (ev_hooks ev)) else Fault OutOfBounds.

#[export] Instance qt_adapter : Adapter RedisQtAdapter S := {|
  addRead a s := Ok (qt_addRead a s);
  delRead a s := Ok (qt_delRead a s);
  addWrite a s := Ok (qt_addWrite a s);
  delWrite a s := Ok (qt_delWrite a s);
  cleanup a s := Ok (qt_cleanup a s);
  attach := setContext;
  watches _ s fd dir cb := exists p, notifiers s !! p = Some (mk_notifier fd dir (Some cb));
  delivered _ _ s := s;
  once _ := false;
  initially := (false, false)
|}.

(** The members of a direction. *)
Definition qt_slot (dir : direction) : callback RedisQtAdapter :=
  match dir with ForRead => qt_read | ForWrite => qt_write end.
Definition qt_member (dir : direction) (a : RedisQtAdapter) : Z :=
  match dir with ForRead => m_read a | ForWrite => m_write a end.
Definition qt_put (dir : direction) (p : Z) (a : RedisQtAdapter) : RedisQtAdapter :=
  match dir with ForRead => mk_qt (m_ctx a) p (m_write a) | ForWrite => mk_qt (m_ctx a) (m_read a) p end.

Lemma qt_member_put d d' p a : qt_member d' (qt_put d p a) = if decide (d = d') then p else qt_member d' a.
Proof. by destruct d, d'. Qed.
Lemma get_set_watch d d' b w : get_watch d' (set_watch d b w) = if decide (d = d') then b else get_watch d' w.
Proof. by destruct d, d'. Qed.
Lemma set_get_watch d w : set_watch d (get_watch d w) w = w.
Proof. by destruct d, w. Qed.

(** The notifiers for the descriptor of [ac] are the members of [a]. *)
Record qt_sound (ac : Z) (a : RedisQtAdapter) (s : S) (w : watched) : Prop := {
  qs_ctx : m_ctx a = ac;
  qs_member dir : if get_watch dir w then qt_member dir a <> NULL /\
    notifiers s !! qt_member dir a = Some (mk_notifier (ctx_fd ac) dir (Some (qt_slot dir)))
    else qt_member dir a = NULL;
  qs_mine p n : notifiers s !! p = Some n -> n_fd n = ctx_fd ac ->
    exists dir, get_watch dir w = true /\ p = qt_member dir a
}.
Definition qt_fresh (ac : Z) (s : S) : Prop := forall p n, notifiers s !! p = Some n -> n_fd n <> ctx_fd ac.

Definition qt_frame (ac : Z) (s s' : S) : Prop :=
  forall p n, n_fd n <> ctx_fd ac -> notifiers s' !! p = Some n <-> notifiers s !! p = Some n.

Section laws.
Context {LL : QtLaws (callback RedisQtAdapter) S}.

Definition qt_add (dir : direction) (a : RedisQtAdapter) (s : S) : RedisQtAdapter * S :=
  match dir with ForRead => qt_addRead a s | ForWrite => qt_addWrite a s end.
Definition qt_del (dir : direction) (a : RedisQtAdapter) (s : S) : RedisQtAdapter * S :=
  match dir with ForRead => qt_delRead a s | ForWrite => qt_delWrite a s end.

Lemma qt_add_run dir a s : qt_member dir a = NULL -> exists p s',
  qt_add dir a s = (qt_put dir p a, s') /\ p <> NULL /\ notifiers s !! p = None /\
  notifiers s' = <[p := mk_notifier (ctx_fd (m_ctx a)) dir (Some (qt_slot dir))]> (notifiers s).
Proof.
  intros Hn. destruct (new_notifiers (ctx_fd (m_ctx a)) dir s) as (H1 & H2 & H3).
  exists (new_QSocketNotifier (ctx_fd (m_ctx a)) dir s).1.
  exists (connect_activated (new_QSocketNotifier (ctx_fd (m_ctx a)) dir s).1 (qt_slot dir)
    (new_QSocketNotifier (ctx_fd (m_ctx a)) dir s).2).
  split_and!; [|done|done|by rewrite connect_notifiers, H3, alter_insert_eq].
  destruct dir; cbn in Hn |- *; [unfold qt_addRead|unfold qt_addWrite]; rewrite Hn; cbn; by case_match.
Qed.

Lemma qt_add_sound ac dir a s w : qt_sound ac a s w -> exists a' s', qt_add dir a s = (a', s') /\
  qt_sound ac a' s' (set_watch dir true w) /\ qt_frame ac s s'.
Proof.
  intros [Hc Hm Hall]. pose proof (Hm dir) as Hd. destruct (get_watch dir w) eqn:Ew.
  - exists a, s. replace (set_watch dir true w) with w by (rewrite <- Ew; by rewrite set_get_watch).
    split_and!; [|by split|done]. destruct Hd as [Hne _].
    destruct dir; cbn in Hne |- *; [unfold qt_addRead; by bool_false (m_read a =? NULL)|unfold qt_addWrite; by bool_false (m_write a =? NULL)].
  - destruct (qt_add_run dir a s Hd) as (p & s' & E & Hp & Hnew & Hs'). rewrite Hc in Hs'.
    exists (qt_put dir p a), s'. split; [done|]. split; [split|].
    + by destruct dir.
    + intros d. rewrite get_set_watch, qt_member_put, Hs'. case_decide as Hdec; [subst d; by rewrite lookup_insert_eq|].
      pose proof (Hm d) as Hmd. destruct (get_watch d w); [|done]. destruct Hmd as [? Hmd]. split; [done|].
      rewrite lookup_insert_ne; [done|]. intros E0. rewrite <- E0, Hnew in Hmd. done.
    + intros q n. rewrite Hs'. intros [[<- <-]|[Hne Hq]]%lookup_insert_Some Hf.
      * exists dir. by rewrite get_set_watch, qt_member_put, !decide_True by done.
      * destruct (Hall q n Hq Hf) as (d & Hd' & ->). exists d. rewrite get_set_watch, qt_member_put.
        rewrite !decide_False by congruence. done.
    + intros q n Hf. rewrite Hs', lookup_insert_Some. split; [|intros Hq; right; split; [congruence|done]].
      intros [[_ <-]|[_ Hq]]; [by destruct Hf|done].
Qed.

Lemma qt_del_sound ac dir a s w : qt_sound ac a s w -> exists a' s', qt_del dir a s = (a', s') /\
  qt_sound ac a' s' (set_watch dir false w) /\ qt_frame ac s s'.
Proof.
  intros [Hc Hm Hall]. pose proof (Hm dir) as Hd. destruct (get_watch dir w) eqn:Ew.
  2: { exists a, s. replace (set_watch dir false w) with w by (rewrite <- Ew; by rewrite set_get_watch).
    split_and!; [|by split|done]. destruct dir; cbn in Hd |- *; [unfold qt_delRead|unfold qt_delWrite]; by rewrite Hd. }
  destruct Hd as [Hne Hd]. exists (qt_put dir NULL a), (delete_QSocketNotifier (qt_member dir a) s).
  pose proof (delete_notifiers (qt_member dir a) s) as Hs'. split; [|split; [split|]].
  - destruct dir; cbn in Hne |- *; [unfold qt_delRead; by bool_false (m_read a =? NULL)|unfold qt_delWrite; by bool_false (m_write a =? NULL)].
  - by destruct dir.
  - intros d. rewrite get_set_watch, qt_member_put, Hs'. case_decide as Hdec; [done|].
    pose proof (Hm d) as Hmd. destruct (get_watch d w); [|done]. destruct Hmd as [? Hmd]. split; [done|].
    rewrite lookup_delete_ne; [done|]. intros E. rewrite E, Hmd in Hd. congruence.
  - intros q n. rewrite Hs'. intros [Hq1 Hq]%lookup_delete_Some Hf.
    destruct (Hall q n Hq Hf) as (d & Hd' & ->). exists d. rewrite get_set_watch, qt_member_put.
    rewrite !decide_False by congruence. done.
  - intros q n Hf. rewrite Hs', lookup_delete_Some. split; [tauto|]. intros Hq. split; [|done].
    intros <-. rewrite Hd in Hq. injection Hq as <-. by destruct Hf.
Qed.

Lemma qt_use u ac a s w : u <> Hook EvCleanup -> qt_sound ac a s w -> exists a' s',
  run_use u (To a) s = Ok (To a', s') /\ qt_sound ac a' s' (wants once u w) /\ qt_frame ac s s'.
Proof.
  intros Hu Hs. destruct u as [[]|]; try done; try (by exists a, s); cbn.
  - destruct (qt_add_sound ac ForRead a s w Hs) as (a' & s' & E & H). cbn in E. rewrite E. by exists a', s'.
  - destruct (qt_del_sound ac ForRead a s w Hs) as (a' & s' & E & H). cbn in E. rewrite E. by exists a', s'.
  - destruct (qt_add_sound ac ForWrite a s w Hs) as (a' & s' & E & H). cbn in E. rewrite E. by exists a', s'.
  - destruct (qt_del_sound ac ForWrite a s w Hs) as (a' & s' & E & H). cbn in E. rewrite E. by exists a', s'.
Qed.

Lemma qt_others ac d s d' s' : qt_frame ac s s' -> others ac d s d' s'.
Proof. intros Hf fd dir cb Hne. cbn. by apply exist_proper; intros p; apply Hf. Qed.

Definition qt_laws : AdapterLaws RedisQtAdapter S.
Proof.
  refine {| sound := qt_sound; unknown := qt_fresh |}.
  - intros ac hooks s _ Hs. do 2 eexists. split; [reflexivity|]. split; [|done].
    split; [done|by intros []|]. intros p n Hp Hf. by destruct (Hs p n Hp).
  - intros u ac a s w Hu Hs. destruct (qt_use u ac a s w Hu Hs) as (a' & s' & E & Hs' & Hf).
    exists a', s'. split_and!; [done..|by apply (qt_others ac (To a))].
  - intros ac a s w [Hc Hm Hall] dir. pose proof (Hm dir) as Hd. split.
    + intros E. rewrite E in Hd. destruct Hd as [_ Hd]. by eexists _, _.
    + intros cb (p & Hp). destruct (Hall _ _ Hp eq_refl) as (d & Hw & ->). pose proof (Hm d) as Hd'.
      rewrite Hw in Hd'. destruct Hd' as [_ Hd']. rewrite Hp in Hd'. injection Hd' as -> ->.
      split; [done|]. subst ac. by destruct d.
  - intros ac a s w Hs.
    destruct (qt_del_sound ac ForRead a s w Hs) as (a1 & s1 & E1 & H1 & F1).
    destruct (qt_del_sound ac ForWrite a1 s1 _ H1) as (a2 & s2 & E2 & [_ _ Hall] & F2). cbn in E1, E2.
    exists (To a2), s2. cbn. unfold qt_cleanup. rewrite E1, E2. split; [done|]. split.
    + intros dir cb (p & Hp). by destruct (Hall _ _ Hp eq_refl) as ([] & ? & _).
    + apply (others_trans ac _ (To a1) _ _ s1); [by apply (qt_others ac (To a))|by apply (qt_others ac (To a1))].
Defined.
End laws.

(** The adapter keeps the address of its context when the context is freed:
    its destructor then writes to memory that was freed. *)
Lemma qt_outlives a s alive ev : m_ctx a <> NULL -> alive (m_ctx a) = false -> exists a' s',
  cleanup a s = Ok (To a', s') /\ qt_destroy alive a' ev = Fault OutOfBounds.
Proof.
  intros Hc Ha. exists (mk_qt (m_ctx a) NULL NULL). cbn [cleanup qt_adapter]. unfold qt_cleanup, qt_delRead, qt_delWrite.
  destruct a as [c r w]. cbn in *. destruct (Z.eqb_spec r NULL) as [->|_]; cbn;
    destruct (Z.eqb_spec w NULL) as [->|_]; eexists; (split; [reflexivity|]); unfold qt_destroy; cbn;
    bool_false (c =? NULL); by rewrite Ha.
Qed.
End qt.
