(* ===== verification/AdaptersCorrect.v ===== *)
(** * AdaptersCorrect: adapters that leave the flags to the library, and what all of them do

    The adapters of libuv.h, glib.h, ivykis.h, macosx.h and libevent.h, where
    attaching or dispatching goes wrong, and the property of all adapters. *)
From S2P Require Import Prelude Mem Reply Reader Context Async Worker Adapters ReaderCorrect.
From stdpp Require Import list list_numbers strings sets gmap.
From Stdlib Require Import ZArith Lia.
Open Scope Z_scope.

(** ** A handle with a set of events (adapters/libuv.h)

    [uv_polled] is the set of events that the handle was started with and its
    callback, [None] when it is stopped; [uv_fd] is its descriptor. The flags are
    those of the library. *)
Class Uv (C S : Type) := {
  UV_READABLE : Z;
  UV_WRITABLE : Z;
  uv_poll_size : Z;
  uv_poll_init : Z -> S -> Z * S;
  uv_poll_start : Z -> C -> S -> S;
  uv_poll_stop : S -> S;
  uv_close : S -> S;
  uv_fd : S -> Z;
  uv_polled : S -> option (Z * C)
}.

Class UvLaws (C S : Type) {L : Uv C S} := {
  uv_flags : UV_READABLE <> 0 /\ UV_WRITABLE <> 0 /\ Z.land UV_READABLE UV_WRITABLE = 0;
  uv_init_ok : forall fd s, (uv_poll_init fd s).1 = 0 /\ uv_polled (uv_poll_init fd s).2 = None /\
    uv_fd (uv_poll_init fd s).2 = fd;
  uv_start_polled : forall events cb s, uv_polled (uv_poll_start events cb s) = Some (events, cb) /\
    uv_fd (uv_poll_start events cb s) = uv_fd s;
  uv_stop_polled : forall s, uv_polled (uv_poll_stop s) = None /\ uv_fd (uv_poll_stop s) = uv_fd s;
  uv_close_polled : forall s, uv_polled (uv_close s) = None
}.

Record redisLibuvEvents : Type := mk_uv {
  uv_context : Z;
  uv_events : Z
}.

Section libuv.
Context {M : Malloc} {CX : Contexts} {S : Type} {L : Uv (Z -> Z -> callback redisLibuvEvents) S}.

(** The callback of the handle. The structure is part of the state [W] that
    [redisAsyncHandleRead] and [redisAsyncHandleWrite] work on: they may close the
    handle. *)
Definition redisLibuvPoll {W} (get : W -> redisLibuvEvents) (handle_read handle_write : Z -> W -> result W)
    (status events : Z) (w : W) : result W :=
  if negb (status =? 0) then Ok w else
  w ← (if negb (uv_context (get w) =? NULL) && has_bits events UV_READABLE
       then handle_read (uv_context (get w)) w else Ok w);
  if negb (uv_context (get w) =? NULL) && has_bits events UV_WRITABLE
  then handle_write (uv_context (get w)) w else Ok w.

(** What it calls when the calls leave the structure alone. *)
Definition uv_calls (status events : Z) (p : redisLibuvEvents) : result (list handled) :=
  redisLibuvPoll (fun _ => p) (fun ac l => Ok (l ++ [HandleRead ac])) (fun ac l => Ok (l ++ [HandleWrite ac]))
    status events [].

Definition redisLibuvAddRead (p : redisLibuvEvents) (s : S) : redisLibuvEvents * S :=
  let p := mk_uv (uv_context p) (Z.lor (uv_events p) UV_READABLE) in
  (p, uv_poll_start (uv_events p) uv_calls s).
Definition redisLibuvDelRead (p : redisLibuvEvents) (s : S) : redisLibuvEvents * S :=
  let p := mk_uv (uv_context p) (Z.ldiff (uv_events p) UV_READABLE) in
  (p, if negb (uv_events p =? 0) then uv_poll_start (uv_events p) uv_calls s else uv_poll_stop s).
Definition redisLibuvAddWrite (p : redisLibuvEvents) (s : S) : redisLibuvEvents * S :=
  let p := mk_uv (uv_context p) (Z.lor (uv_events p) UV_WRITABLE) in
  (p, uv_poll_start (uv_events p) uv_calls s).
Definition redisLibuvDelWrite (p : redisLibuvEvents) (s : S) : redisLibuvEvents * S :=
  let p := mk_uv (uv_context p) (Z.ldiff (uv_events p) UV_WRITABLE) in
  (p, if negb (uv_events p =? 0) then uv_poll_start (uv_events p) uv_calls s else uv_poll_stop s).

(** [on_close], called by the loop later, frees the structure. *)
Definition on_close (p : pointer redisLibuvEvents) : result (pointer redisLibuvEvents) :=
  _ ← target p; Ok Freed.

Definition redisLibuvCleanup (p : redisLibuvEvents) (s : S) : pointer redisLibuvEvents * S :=
  (To (mk_uv NULL (uv_events p)), uv_close s).

(** The hooks are set before anything can fail; the structure is not freed
    when [uv_poll_init] fails. *)
Definition redisLibuvAttach (ac : Z) (ev : redisEvents redisLibuvEvents) (s : S) :
    result (Z * redisEvents redisLibuvEvents * S) :=
  match ev_data ev with
  | To _ | Freed => Ok (REDIS_ERR, ev, s)
  | Null =>
      let ev := mk_ev Null all_hooks in
      if negb (malloc_ok (16 + uv_poll_size)) then Ok (REDIS_ERR, ev, s) else
      let '(st, s) := uv_poll_init (ctx_fd ac) s in
      if negb (st =? 0) then Ok (REDIS_ERR, ev, s) else
      Ok (REDIS_OK, mk_ev (To (mk_uv ac 0)) (ev_hooks ev), s)
  end.

Definition uv_flag (dir : direction) : Z := match dir with ForRead => UV_READABLE | ForWrite => UV_WRITABLE end.

#[export] Instance uv_adapter : Adapter redisLibuvEvents S := {|
  addRead p s := Ok (redisLibuvAddRead p s);
  delRead p s := Ok (redisLibuvDelRead p s);
  addWrite p s := Ok (redisLibuvAddWrite p s);
  delWrite p s := Ok (redisLibuvDelWrite p s);
  cleanup p s := Ok (redisLibuvCleanup p s);
  attach := redisLibuvAttach;
  watches data s fd dir cb :=
    match data with
    | Null => False
    | _ => exists events f, uv_polled s = Some (events, f) /\ uv_fd s = fd /\
        has_bits events (uv_flag dir) = true /\ cb = f 0 (uv_flag dir)
    end;
  delivered _ _ s := s;
  once _ := false;
  initially := (false, false)
|}.

Definition uv_bits (events : Z) : watched := (has_bits events UV_READABLE, has_bits events UV_WRITABLE).

Record uv_sound (ac : Z) (p : redisLibuvEvents) (s : S) (w : watched) : Prop := {
  us_ac : ac <> NULL;
  us_context : uv_context p = ac;
  us_bits : uv_bits (uv_events p) = w;
  us_fd : uv_fd s = ctx_fd ac;
  us_polled : uv_polled s = if uv_events p =? 0 then None else Some (uv_events p, uv_calls)
}.

Section laws.
Context {LL : UvLaws (Z -> Z -> callback redisLibuvEvents) S}.

Lemma uv_flag_facts dir : uv_flag dir <> 0 /\
  Z.land (uv_flag dir) (uv_flag match dir with ForRead => ForWrite | ForWrite => ForRead end) = 0.
Proof. destruct uv_flags as (Hr & Hw & H). destruct dir; cbn; [done|]. by rewrite Z.land_comm. Qed.

Lemma uv_calls_one ac v dir : ac <> NULL -> uv_calls 0 (uv_flag dir) (mk_uv ac v) = Ok [handles dir ac].
Proof.
  intros Hac. unfold uv_calls, redisLibuvPoll. cbn [uv_context Z.eqb negb]. bool_false (ac =? NULL).
  destruct (uv_flag_facts dir) as [Hf Ho]. unfold has_bits.
  destruct dir; cbn [uv_flag] in *; rewrite ?Z.land_diag, ?Ho; cbn [negb andb].
  - by bool_false (UV_READABLE =? 0).
  - by bool_false (UV_WRITABLE =? 0).
Qed.

Lemma uv_watching ac p s w : uv_sound ac p s w -> watching ac p s w /\ nothing_else ac (To p) s.
Proof.
  intros [Hac Hc Hb Hf Hp]. destruct p as [c v]. cbn in Hc, Hb, Hp. subst c. split.
  - intros dir. assert (get_watch dir w = has_bits v (uv_flag dir)) as Ew by (subst w; by destruct dir).
    rewrite Ew. cbn. rewrite Hp. split.
    + intros E. exists (uv_calls 0 (uv_flag dir)), v, uv_calls. destruct (v =? 0) eqn:E0; [|by split_and!].
      apply Z.eqb_eq in E0. subst v. by destruct dir.
    + intros cb (v' & f & E & _ & Hv & ->). destruct (v =? 0); [done|]. injection E as <- <-.
      split; [done|by apply uv_calls_one].
  - intros fd dir cb Hne (v' & f & _ & E & _). congruence.
Qed.

(** The handle after the events changed. *)
Lemma uv_restart ac p s w v : uv_sound ac p s w ->
  uv_sound ac (mk_uv (uv_context p) v)
    (if negb (v =? 0) then uv_poll_start v uv_calls s else uv_poll_stop s) (uv_bits v).
Proof.
  intros [Hac Hc Hb Hf Hp]. destruct (v =? 0) eqn:E; cbn [negb].
  - destruct (uv_stop_polled s) as [E1 E2]. split; cbn; [done|done|done|congruence|by rewrite E].
  - destruct (uv_start_polled v uv_calls s) as [E1 E2]. split; cbn; [done|done|done|congruence|by rewrite E].
Qed.

Lemma uv_nonzero events dir : negb (Z.lor events (uv_flag dir) =? 0) = true.
Proof.
  destruct (uv_flag_facts dir) as [Hf _]. apply negb_true_iff, Z.eqb_neq.
  rewrite Z.lor_eq_0_iff. tauto.
Qed.

Lemma uv_bits_lor events dir : uv_bits (Z.lor events (uv_flag dir)) = set_watch dir true (uv_bits events).
Proof.
  destruct (uv_flag_facts dir) as [Hf Ho]. unfold uv_bits.
  by destruct dir; cbn [uv_flag set_watch fst snd] in *; rewrite lor_has_same, lor_has_other.
Qed.
Lemma uv_bits_ldiff events dir : uv_bits (Z.ldiff events (uv_flag dir)) = set_watch dir false (uv_bits events).
Proof.
  destruct (uv_flag_facts dir) as [Hf Ho]. unfold uv_bits.
  by destruct dir; cbn [uv_flag set_watch fst snd] in *; rewrite ldiff_has_same, ldiff_has_other.
Qed.

Definition uv_laws (malloc_total : forall n, malloc_ok n = true) : AdapterLaws redisLibuvEvents S.
Proof.
  refine {| sound := uv_sound; unknown := fun _ _ => True |}.
  - intros ac hooks s Hac _. unfold attach, uv_adapter, redisLibuvAttach. cbn [ev_data].
    rewrite malloc_total. cbn [negb]. destruct (uv_init_ok (ctx_fd ac) s) as (H1 & H2 & H3).
    destruct (uv_poll_init (ctx_fd ac) s) as [st s1]. cbn [fst snd] in *. subst st.
    do 2 eexists. split; [reflexivity|].
    assert (uv_sound ac (mk_uv ac 0) s1 (false, false)) as Hs by done.
    split; [done|]. apply others_nothing; [by intros ? ? ? _ []|by eapply uv_watching].
  - intros u ac p s w Hu Hs.
    assert (exists p' s', run_use u (To p) s = Ok (To p', s') /\ uv_sound ac p' s' (wants once u w))
      as (p' & s' & E & Hs').
    { pose proof (us_bits _ _ _ _ Hs) as Hb.
      pose proof (fun v => uv_restart ac p s w v Hs) as Hv.
      destruct u as [[]|]; try done; try (by exists p, s); do 2 eexists; (split; [reflexivity|]);
        cbn [wants uv_events]; rewrite <- Hb.
      - pose proof (Hv (Z.lor (uv_events p) (uv_flag ForRead))) as H. by rewrite uv_nonzero, uv_bits_lor in H.
      - pose proof (Hv (Z.ldiff (uv_events p) (uv_flag ForRead))) as H. by rewrite uv_bits_ldiff in H.
      - pose proof (Hv (Z.lor (uv_events p) (uv_flag ForWrite))) as H. by rewrite uv_nonzero, uv_bits_lor in H.
      - pose proof (Hv (Z.ldiff (uv_events p) (uv_flag ForWrite))) as H. by rewrite uv_bits_ldiff in H. }
    exists p', s'. split_and!; [done..|]. apply others_nothing; by eapply uv_watching.
  - intros ac p s w Hs. by apply uv_watching.
  - intros ac p s w Hs. do 2 eexists. split; [reflexivity|].
    assert (forall fd dir cb, ~ watches (To (mk_uv NULL (uv_events p))) (uv_close s) fd dir cb) as Hn.
    { intros fd dir cb (v & f & E & _). by rewrite uv_close_polled in E. }
    split; [intros; apply Hn|]. apply others_nothing; [by eapply uv_watching|by intros ? ? ? _; apply Hn].
Defined.
End laws.

(** A context that frees itself while it reads has closed the handle: the
    callback does not touch it again. *)
Lemma uv_poll_freed {W} (get : W -> redisLibuvEvents) hr hw events w w' :
  uv_context (get w) <> NULL -> has_bits events UV_READABLE = true ->
  hr (uv_context (get w)) w = Ok w' -> uv_context (get w') = NULL ->
  redisLibuvPoll get hr hw 0 events w = Ok w'.
Proof.
  intros Hc He Hr Hn. unfold redisLibuvPoll. cbn [Z.eqb negb].
  bool_false (uv_context (get w) =? NULL). rewrite He. cbn [negb andb]. rewrite Hr. cbn [mbind result_bind].
  by rewrite Hn.
Qed.

(** When attaching fails, the hooks are set without a structure: the next of
    them uses [NULL]. *)
Lemma uv_attach_fails ac hooks s ev s' e : redisLibuvAttach ac (mk_ev Null hooks) s = Ok (REDIS_ERR, ev, s') ->
  e ∈ [EvAddRead; EvDelRead; EvAddWrite; EvDelWrite; EvCleanup] ->
  ev_hooks ev = all_hooks /\ call_hook e (ev_data ev) s' = Fault NullDeref.
Proof.
  unfold redisLibuvAttach. cbn [ev_data]. intros H He.
  assert (ev = mk_ev Null all_hooks) as ->.
  { destruct (malloc_ok _); cbn [negb] in H; [|congruence]. destruct (uv_poll_init (ctx_fd ac) s) as [st s1].
    destruct (st =? 0); cbn [negb] in H; [done|congruence]. }
  split; [done|]. rewrite !elem_of_cons, elem_of_nil in He. by destruct He as [->|[->|[->|[->|[->|[]]]]]].
Qed.
End libuv.

(** ** A source of the main loop (adapters/glib.h)

    The main loop polls the descriptors that were added to a source for the
    events in their records, stores what occurred there, and dispatches a source
    whose check succeeds. [polls] says whether the record of the source is added,
    [source_funcs] are the functions that the source was made with. *)
Record GSourceFuncs (D : Type) : Type := mk_funcs {
  gs_prepare : D -> Z * bool;
  gs_check : D -> bool;
  gs_dispatch : callback D
}.
Arguments mk_funcs {D}.
Arguments gs_prepare {D}.
Arguments gs_check {D}.
Arguments gs_dispatch {D}.

Class Glib (D S : Type) := {
  G_IO_IN : Z;
  G_IO_OUT : Z;
  g_source_new : GSourceFuncs D -> S -> S;
  g_main_context_wakeup : S -> S;
  g_source_add_poll : S -> S;
  g_source_remove_poll : S -> S;
  source_funcs : S -> option (GSourceFuncs D);
  polls : S -> bool
}.

Class GlibLaws (D S : Type) {L : Glib D S} := {
  g_flags : G_IO_IN <> 0 /\ G_IO_OUT <> 0 /\ Z.land G_IO_IN G_IO_OUT = 0;
  g_new_funcs : forall f s, source_funcs (g_source_new f s) = Some f;
  g_wakeup_polls : forall s, polls (g_main_context_wakeup s) = polls s /\
    source_funcs (g_main_context_wakeup s) = source_funcs s;
  g_add_polls : forall s, polls (g_source_add_poll s) = true /\
    source_funcs (g_source_add_poll s) = source_funcs s;
  g_remove_polls : forall s, polls (g_source_remove_poll s) = false
}.

(** [src_fd], [src_events] and [src_revents] are the record [poll_fd]. *)
Record RedisSource : Type := mk_source {
  src_ac : Z;
  src_fd : Z;
  src_events : Z;
  src_revents : Z
}.

Definition set_events (r : RedisSource) (events : Z) : RedisSource :=
  mk_source (src_ac r) (src_fd r) events (src_revents r).
Definition set_revents (r : RedisSource) (revents : Z) : RedisSource :=
  mk_source (src_ac r) (src_fd r) (src_events r) revents.

Section glib.
Context {CX : Contexts} {S : Type} {L : Glib RedisSource S}.

Definition redis_source_add_read (r : RedisSource) (s : S) : RedisSource * S :=
  (set_events r (Z.lor (src_events r) G_IO_IN), g_main_context_wakeup s).
Definition redis_source_del_read (r : RedisSource) (s : S) : RedisSource * S :=
  (set_events r (Z.ldiff (src_events r) G_IO_IN), g_main_context_wakeup s).
Definition redis_source_add_write (r : RedisSource) (s : S) : RedisSource * S :=
  (set_events r (Z.lor (src_events r) G_IO_OUT), g_main_context_wakeup s).
Definition redis_source_del_write (r : RedisSource) (s : S) : RedisSource * S :=
  (set_events r (Z.ldiff (src_events r) G_IO_OUT), g_main_context_wakeup s).

(** [redis_source_finalize]: the descriptor is removed once. *)
Definition redis_source_finalize (r : RedisSource) (s : S) : RedisSource * S :=
  if 0 <=? src_fd r then
    (mk_source (src_ac r) (-1) (src_events r) (src_revents r), g_source_remove_poll s)
  else (r, s).

Definition redis_source_cleanup (r : RedisSource) (s : S) : pointer RedisSource * S :=
  let '(r, s) := redis_source_del_read r s in
  let '(r, s) := redis_source_del_write r s in
  if 0 <=? src_fd r then
    (To (mk_source (src_ac r) (-1) (src_events r) (src_revents r)), g_source_remove_poll s)
  else (To r, s).

(** The timeout and whether the source is ready. *)
Definition redis_source_prepare (r : RedisSource) : Z * bool :=
  (-1, has_bits (src_events r) (src_revents r)).
Definition redis_source_check (r : RedisSource) : bool := has_bits (src_events r) (src_revents r).

(** The source is part of the state [W] that the context works on; it is kept
    when there is no [callback]. *)
Definition redis_source_dispatch {W} (get : W -> RedisSource) (put : RedisSource -> W -> W)
    (handle_read handle_write : Z -> W -> result W) (callback : option (W -> result (Z * W))) (w : W) :
    result (Z * W) :=
  w ← (if has_bits (src_revents (get w)) G_IO_OUT then
         w ← handle_write (src_ac (get w)) w;
         Ok (put (set_revents (get w) (Z.ldiff (src_revents (get w)) G_IO_OUT)) w)
       else Ok w);
  w ← (if has_bits (src_revents (get w)) G_IO_IN then
         w ← handle_read (src_ac (get w)) w;
         Ok (put (set_revents (get w) (Z.ldiff (src_revents (get w)) G_IO_IN)) w)
       else Ok w);
  match callback with
  | Some f => f w
  | None => Ok (1, w)
  end.

(** What a dispatch calls when the calls leave the structure alone. *)
Definition source_calls (r : RedisSource) : result (list handled) :=
  '(_, (_, l)) ← redis_source_dispatch (W := RedisSource * list handled) fst (fun r w => (r, w.2))
    (fun ac w => Ok (w.1, w.2 ++ [HandleRead ac])) (fun ac w => Ok (w.1, w.2 ++ [HandleWrite ac])) None (r, []);
  Ok l.

Definition redis_source_funcs : GSourceFuncs RedisSource :=
  mk_funcs redis_source_prepare redis_source_check source_calls.

(** [ev.data] is not looked at. [g_source_new] does not return without
    memory; [g_return_val_if_fail] gives [NULL] without a context. *)
Definition redis_source_new (ac : Z) (ev : redisEvents RedisSource) (s : S) :
    result (Z * redisEvents RedisSource * S) :=
  if ac =? NULL then Ok (REDIS_ERR, ev, s) else
  let s := g_source_new redis_source_funcs s in
  Ok (REDIS_OK, mk_ev (To (mk_source ac (ctx_fd ac) 0 0)) all_hooks, g_source_add_poll s).

Definition g_flag (dir : direction) : Z := match dir with ForRead => G_IO_IN | ForWrite => G_IO_OUT end.

(** The loop sets [revents] before it checks. *)
#[export] Instance glib_adapter : Adapter RedisSource S := {|
  addRead r s := Ok (redis_source_add_read r s);
  delRead r s := Ok (redis_source_del_read r s);
  addWrite r s := Ok (redis_source_add_write r s);
  delWrite r s := Ok (redis_source_del_write r s);
  cleanup r s := Ok (redis_source_cleanup r s);
  attach := redis_source_new;
  watches data s fd dir cb :=
    match data with
    | Null => False
    | To r => polls s = true /\ src_fd r = fd /\ has_bits (src_events r) (g_flag dir) = true /\
        exists f, source_funcs s = Some f /\
          cb = fun r => let r := set_revents r (g_flag dir) in if gs_check f r then gs_dispatch f r else Ok []
    | Freed => polls s = true
    end;
  delivered _ _ s := s;
  once _ := false;
  initially := (false, false)
|}.

Definition source_sound (ac : Z) (r : RedisSource) (s : S) (w : watched) : Prop :=
  src_ac r = ac /\ src_fd r = ctx_fd ac /\ polls s = true /\ source_funcs s = Some redis_source_funcs /\
  (has_bits (src_events r) G_IO_IN, has_bits (src_events r) G_IO_OUT) = w.

Section laws.
Context {LL : GlibLaws RedisSource S}.

Lemma g_flag_facts dir : g_flag dir <> 0 /\
  Z.land (g_flag dir) (g_flag match dir with ForRead => ForWrite | ForWrite => ForRead end) = 0.
Proof. destruct g_flags as (Hr & Hw & H). destruct dir; cbn; [done|]. by rewrite Z.land_comm. Qed.

Lemma source_calls_one r dir : source_calls (set_revents r (g_flag dir)) = Ok [handles dir (src_ac r)].
Proof.
  destruct (g_flag_facts dir) as [Hf Ho]. unfold source_calls, redis_source_dispatch. cbn [fst src_revents set_revents].
  assert (has_bits (g_flag dir) (g_flag dir) = true) as Hs.
  { unfold has_bits. rewrite Z.land_diag. by bool_false (g_flag dir =? 0). }
  destruct dir; cbn [g_flag] in *.
  - assert (has_bits G_IO_IN G_IO_OUT = false) as -> by (unfold has_bits; by rewrite Ho).
    cbn [mbind result_bind fst src_revents set_revents]. by rewrite Hs.
  - rewrite Hs. cbn [mbind result_bind fst snd src_revents set_revents src_ac app].
    assert (has_bits (Z.ldiff G_IO_OUT G_IO_OUT) G_IO_IN = false) as ->; [|done].
    unfold has_bits. by rewrite Z.ldiff_diag.
Qed.

Lemma source_watching ac r s w : source_sound ac r s w -> watching ac r s w /\ nothing_else ac (To r) s.
Proof.
  intros (Hc & Hf & Hp & Hfn & Hb). split.
  - intros dir. assert (get_watch dir w = has_bits (src_events r) (g_flag dir)) as Ew by (subst w; by destruct dir).
    rewrite Ew. cbn [watches glib_adapter]. rewrite Hfn. split.
    + intros E. eexists. split_and!; [done..|]. eexists. by split.
    + intros cb (_ & _ & Hv & f & [= <-] & ->). split; [done|]. cbn [gs_check gs_dispatch redis_source_funcs].
      unfold redis_source_check. cbn [src_events src_revents set_revents]. rewrite Hv.
      rewrite source_calls_one. by rewrite Hc.
  - intros fd dir cb Hne (_ & E & _). congruence.
Qed.

Lemma source_use u ac r s w : u <> Hook EvCleanup -> source_sound ac r s w -> exists r' s',
  run_use u (To r) s = Ok (To r', s') /\ source_sound ac r' s' (wants once u w).
Proof.
  intros Hu (Hc & Hf & Hp & Hfn & Hb). subst w. destruct (g_wakeup_polls s) as [W1 W2].
  destruct (g_flag_facts ForRead) as [Hi Hio], (g_flag_facts ForWrite) as [Ho Hoi]. cbn in Hi, Hio, Ho, Hoi.
  destruct u as [[]|]; try done; do 2 eexists; (split; [reflexivity|]); cbn;
    unfold source_sound; cbn [src_ac src_fd src_events set_events fst snd]; rewrite ?W1, ?W2;
    (split_and!; [done..|]); rewrite ?lor_has_same, ?ldiff_has_same by done;
    by rewrite ?lor_has_other, ?ldiff_has_other by done.
Qed.

Definition glib_laws : AdapterLaws RedisSource S.
Proof.
  refine {| sound := source_sound; unknown := fun _ _ => True |}.
  - intros ac hooks s Hac _. unfold attach, glib_adapter, redis_source_new.
    bool_false (ac =? NULL). do 2 eexists. split; [reflexivity|].
    destruct (g_add_polls (g_source_new redis_source_funcs s)) as [P1 P2]. rewrite g_new_funcs in P2.
    match goal with |- _ ac ?r ?t ?w /\ _ => assert (source_sound ac r t w) as Hs by done end.
    split; [done|]. apply others_nothing; [by intros ? ? ? _ []|by eapply source_watching].
  - intros u ac r s w Hu Hs. destruct (source_use u ac r s w Hu Hs) as (r' & s' & E & Hs').
    exists r', s'. split_and!; [done..|]. apply others_nothing; by eapply source_watching.
  - intros ac r s w Hs. by apply source_watching.
  - intros ac r s w Hs. pose proof (proj2 (source_watching _ _ _ _ Hs)) as Ho.
    destruct (source_use (Hook EvDelRead) ac r s w ltac:(done) Hs) as (r1 & s1 & E1 & H1).
    destruct (source_use (Hook EvDelWrite) ac r1 s1 _ ltac:(done) H1) as (r2 & s2 & E2 & H2).
    cbn in E1, E2. injection E1 as E1 E1'. injection E2 as E2 E2'.
    pose proof (source_watching _ _ _ _ H2) as [Hw2 Ho2]. destruct H2 as (Hc & Hf & Hp & Hfn & Hb).
    unfold cleanup, glib_adapter, redis_source_cleanup, redis_source_del_read, redis_source_del_write.
    rewrite E1, E1', E2, E2'. destruct (0 <=? src_fd r2); do 2 eexists; (split; [reflexivity|]).
    + assert (forall fd dir cb, ~ watches (To (mk_source (src_ac r2) (-1) (src_events r2) (src_revents r2)))
        (g_source_remove_poll s2) fd dir cb) as Hn.
      { intros fd dir cb (E & _). by rewrite g_remove_polls in E. }
      split; [intros; apply Hn|]. apply others_nothing; [done|by intros ? ? ? _; apply Hn].
    + split; [|by apply others_nothing]. intros dir cb Hw. apply Hw2 in Hw as [Hw _]. by destruct dir.
Defined.
End laws.

(** A context that frees itself while it writes is given to
    [redisAsyncHandleRead] all the same, when it is readable too. *)
Lemma source_uses_freed {W} (get : W -> RedisSource) put hr hw callback w w1 ac :
  (forall r w, get (put r w) = r) ->
  has_bits (src_revents (get w)) G_IO_OUT = true -> src_ac (get w) = ac -> hw ac w = Ok w1 ->
  src_ac (get w1) = ac -> has_bits (Z.ldiff (src_revents (get w1)) G_IO_OUT) G_IO_IN = true ->
  (forall w, hr ac w = Fault OutOfBounds) ->
  redis_source_dispatch get put hr hw callback w = Fault OutOfBounds.
Proof.
  intros Hgp Ho Hc Hw Hc1 Hi Hr. unfold redis_source_dispatch. rewrite Ho, Hc, Hw. cbn [mbind result_bind].
  rewrite !Hgp. cbn [src_revents set_revents src_ac]. rewrite Hi, Hc1, Hr. done.
Qed.
End glib.

(** ** Handlers of a descriptor (adapters/ivykis.h)

    A descriptor has a handler for reading and one for writing, or [NULL], which
    are given the cookie; [iv_registered] is the descriptor that is registered. *)
Record iv_fd (C : Type) : Type := mk_iv_fd {
  iv_no : Z;
  handler_in : option C;
  handler_out : option C;
  cookie : Z
}.
Arguments mk_iv_fd {C}.
Arguments iv_no {C}.
Arguments handler_in {C}.
Arguments handler_out {C}.
Arguments cookie {C}.

Class Ivykis (C S : Type) := {
  iv_fd_size : Z;
  iv_fd_register : iv_fd C -> S -> S;
  iv_fd_unregister : S -> S;
  iv_fd_set_handler_in : option C -> S -> S;
  iv_fd_set_handler_out : option C -> S -> S;
  iv_registered : S -> option (iv_fd C)
}.

Class IvykisLaws (C S : Type) {L : Ivykis C S} := {
  iv_register : forall f s, iv_registered (iv_fd_register f s) = Some f;
  iv_unregister : forall s, iv_registered (iv_fd_unregister s) = None;
  iv_set_in : forall h s, iv_registered (iv_fd_set_handler_in h s) =
    (fun f => mk_iv_fd (iv_no f) h (handler_out f) (cookie f)) <$> iv_registered s;
  iv_set_out : forall h s, iv_registered (iv_fd_set_handler_out h s) =
    (fun f => mk_iv_fd (iv_no f) (handler_in f) h (cookie f)) <$> iv_registered s
}.

Record redisIvykisEvents : Type := mk_iv { iv_context : Z }.

Section ivykis.
Context {M : Malloc} {CX : Contexts} {S : Type} {L : Ivykis (Z -> result (list handled)) S}.

(** [arg] is the cookie. *)
Definition redisIvykisReadEvent (arg : Z) : result (list handled) := Ok [HandleRead arg].
Definition redisIvykisWriteEvent (arg : Z) : result (list handled) := Ok [HandleWrite arg].

Definition redisIvykisAddRead (e : redisIvykisEvents) (s : S) : redisIvykisEvents * S :=
  (e, iv_fd_set_handler_in (Some redisIvykisReadEvent) s).
Definition redisIvykisDelRead (e : redisIvykisEvents) (s : S) : redisIvykisEvents * S :=
  (e, iv_fd_set_handler_in None s).
Definition redisIvykisAddWrite (e : redisIvykisEvents) (s : S) : redisIvykisEvents * S :=
  (e, iv_fd_set_handler_out (Some redisIvykisWriteEvent) s).
Definition redisIvykisDelWrite (e : redisIvykisEvents) (s : S) : redisIvykisEvents * S :=
  (e, iv_fd_set_handler_out None s).

Definition redisIvykisCleanup (e : redisIvykisEvents) (s : S) : pointer redisIvykisEvents * S :=
  (Freed, iv_fd_unregister s).

(** [malloc] is not checked. *)
Definition redisIvykisAttach (ac : Z) (ev : redisEvents redisIvykisEvents) (s : S) :
    result (Z * redisEvents redisIvykisEvents * S) :=
  match ev_data ev with
  | To _ | Freed => Ok (REDIS_ERR, ev, s)
  | Null =>
      if negb (malloc_ok (8 + iv_fd_size)) then Fault NullDeref else
      let e := mk_iv ac in
      let f := mk_iv_fd (ctx_fd ac) (Some redisIvykisReadEvent) (Some redisIvykisWriteEvent) (iv_context e) in
      Ok (REDIS_OK, mk_ev (To e) all_hooks, iv_fd_register f s)
  end.

Definition iv_handler {C} (dir : direction) (f : iv_fd C) : option C :=
  match dir with ForRead => handler_in f | ForWrite => handler_out f end.

#[export] Instance ivykis_adapter : Adapter redisIvykisEvents S := {|
  addRead e s := Ok (redisIvykisAddRead e s);
  delRead e s := Ok (redisIvykisDelRead e s);
  addWrite e s := Ok (redisIvykisAddWrite e s);
  delWrite e s := Ok (redisIvykisDelWrite e s);
  cleanup e s := Ok (redisIvykisCleanup e s);
  attach := redisIvykisAttach;
  watches data s fd dir cb :=
    match data with
    | Null => False
    | _ => exists f h, iv_registered s = Some f /\ iv_no f = fd /\ iv_handler dir f = Some h /\
        cb = fun _ => h (cookie f)
    end;
  delivered _ _ s := s;
  once _ := false;
  initially := (true, true)
|}.

Definition ivykis_sound (ac : Z) (e : redisIvykisEvents) (s : S) (w : watched) : Prop :=
  iv_registered s = Some (mk_iv_fd (ctx_fd ac) (if w.1 then Some redisIvykisReadEvent else None)
    (if w.2 then Some redisIvykisWriteEvent else None) ac).

Lemma ivykis_watching ac e s w : ivykis_sound ac e s w -> watching ac e s w /\ nothing_else ac (To e) s.
Proof.
  intros Hs. split.
  - intros dir. cbn. rewrite Hs. split.
    + intros E. exists (fun _ => match dir with ForRead => redisIvykisReadEvent ac | ForWrite => redisIvykisWriteEvent ac end).
      destruct dir; cbn in E; rewrite E; by do 2 eexists; split_and!.
    + intros cb (f & h & [= <-] & _ & Hh & ->). destruct dir; cbn in Hh |- *; [destruct w.1|destruct w.2]; by simplify_eq.
  - intros fd dir cb Hne (f & h & E & <- & _). rewrite Hs in E. by injection E as <-.
Qed.

Definition ivykis_laws {LL : IvykisLaws (Z -> result (list handled)) S} (malloc_total : forall n, malloc_ok n = true) :
  AdapterLaws redisIvykisEvents S.
Proof.
  refine {| sound := ivykis_sound; unknown := fun _ _ => True |}.
  - intros ac hooks s _ _. unfold attach, ivykis_adapter, redisIvykisAttach. cbn [ev_data].
    rewrite malloc_total. do 2 eexists. split; [reflexivity|].
    match goal with |- _ ac ?e ?t ?w /\ _ => assert (ivykis_sound ac e t w) as Hs by apply iv_register end.
    split; [done|]. apply others_nothing; [by intros ? ? ? _ []|by eapply ivykis_watching].
  - intros u ac e s w Hu Hs.
    assert (exists s', run_use u (To e) s = Ok (To e, s') /\ ivykis_sound ac e s' (wants once u w))
      as (s' & E & Hs').
    { unfold ivykis_sound in *. destruct u as [[]|]; try done; eexists; (split; [reflexivity|]); cbn;
        rewrite ?iv_set_in, ?iv_set_out, ?Hs; by destruct w. }
    exists e, s'. split_and!; [done..|]. apply others_nothing; by eapply ivykis_watching.
  - intros ac e s w Hs. by apply ivykis_watching.
  - intros ac e s w Hs. do 2 eexists. split; [reflexivity|].
    assert (forall fd dir cb, ~ watches (Freed (D := redisIvykisEvents)) (iv_fd_unregister s) fd dir cb) as Hn.
    { intros fd dir cb (f & h & E & _). by rewrite iv_unregister in E. }
    split; [intros; apply Hn|]. apply others_nothing; [by eapply ivykis_watching|by intros ? ? ? _; apply Hn].
Defined.
End ivykis.

(** ** Callbacks of a socket (adapters/macosx.h)

    A socket of Core Foundation and its source of the run loop: [cf_view] is the
    socket while it is valid, with its callback, the [info] of its context, the types of
    callbacks that are enabled, and whether its source is in a run loop. Making the
    socket or the source may fail. *)
Record cf_socket (C : Type) : Type := mk_cf {
  cf_fd : Z;
  cf_callback : C;
  cf_info : Z;
  cf_enabled : watched;
  cf_scheduled : bool
}.
Arguments mk_cf {C}.
Arguments cf_fd {C}.
Arguments cf_callback {C}.
Arguments cf_info {C}.
Arguments cf_enabled {C}.
Arguments cf_scheduled {C}.

Definition cf_enable {C} (d : direction) (b : bool) (x : cf_socket C) : cf_socket C :=
  mk_cf (cf_fd x) (cf_callback x) (cf_info x) (set_watch d b (cf_enabled x)) (cf_scheduled x).
Definition cf_schedule {C} (b : bool) (x : cf_socket C) : cf_socket C :=
  mk_cf (cf_fd x) (cf_callback x) (cf_info x) (cf_enabled x) b.

(** [cf_called] is what the socket does when it calls. *)
Class CoreFoundation (C S : Type) := {
  CFSocketCreateWithNative : Z -> watched -> C -> Z -> S -> bool * S;
  CFSocketCreateRunLoopSource : S -> bool * S;
  CFRunLoopAddSource : S -> S;
  CFSocketEnableCallBacks : direction -> S -> S;
  CFSocketDisableCallBacks : direction -> S -> S;
  CFRunLoopSourceInvalidate : S -> S;
  CFSocketInvalidate : S -> S;
  CFRelease_source : S -> S;
  CFRelease_socket : S -> S;
  cf_called : direction -> S -> S;
  cf_view : S -> option (cf_socket C)
}.

(** Callbacks for reading are enabled again after a call, by default, those for
    writing are not. *)
Class CoreFoundationLaws (C S : Type) {L : CoreFoundation C S} := {
  cf_create_view : forall fd types cb i s, (CFSocketCreateWithNative fd types cb i s).1 = true /\
    cf_view (CFSocketCreateWithNative fd types cb i s).2 = Some (mk_cf fd cb i types false);
  cf_source_view : forall s, (CFSocketCreateRunLoopSource s).1 = true /\
    cf_view (CFSocketCreateRunLoopSource s).2 = cf_view s;
  cf_add_view : forall s, cf_view (CFRunLoopAddSource s) = cf_schedule true <$> cf_view s;
  cf_enable_view : forall d s, cf_view (CFSocketEnableCallBacks d s) = cf_enable d true <$> cf_view s;
  cf_disable_view : forall d s, cf_view (CFSocketDisableCallBacks d s) = cf_enable d false <$> cf_view s;
  cf_called_view : forall d s, cf_view (cf_called d s) =
    match d with ForRead => cf_view s | ForWrite => cf_enable ForWrite false <$> cf_view s end;
  cf_source_invalid : forall s, cf_view (CFRunLoopSourceInvalidate s) = cf_schedule false <$> cf_view s;
  cf_source_release : forall s, cf_view (CFRelease_source s) = cf_view s;
  cf_invalid : forall s, cf_view (CFSocketInvalidate s) = None;
  cf_release : forall s, cf_view (CFRelease_socket s) = cf_view s
}.

(** [rl_socket] and [rl_source] say whether the members are not [NULL]. *)
Record RedisRunLoop : Type := mk_runloop {
  rl_context : Z;
  rl_socket : bool;
  rl_source : bool
}.

Section macosx.
Context {M : Malloc} {CX : Contexts} {S : Type} {L : CoreFoundation (direction -> Z -> result (list handled)) S}.

Definition freeRedisRunLoop (rl : pointer RedisRunLoop) (s : S) : Z * pointer RedisRunLoop * S :=
  match rl with
  | To rl =>
      let s := if rl_source rl then CFRelease_source (CFRunLoopSourceInvalidate s) else s in
      let s := if rl_socket rl then CFRelease_socket (CFSocketInvalidate s) else s in
      (REDIS_ERR, Freed, s)
  | rl => (REDIS_ERR, rl, s)
  end.

Definition redisMacOSAddRead (rl : RedisRunLoop) (s : S) : RedisRunLoop * S :=
  (rl, CFSocketEnableCallBacks ForRead s).
Definition redisMacOSDelRead (rl : RedisRunLoop) (s : S) : RedisRunLoop * S :=
  (rl, CFSocketDisableCallBacks ForRead s).
Definition redisMacOSAddWrite (rl : RedisRunLoop) (s : S) : RedisRunLoop * S :=
  (rl, CFSocketEnableCallBacks ForWrite s).
Definition redisMacOSDelWrite (rl : RedisRunLoop) (s : S) : RedisRunLoop * S :=
  (rl, CFSocketDisableCallBacks ForWrite s).

Definition redisMacOSCleanup (rl : RedisRunLoop) (s : S) : pointer RedisRunLoop * S :=
  let '(_, p, s) := freeRedisRunLoop (To rl) s in (p, s).

Definition redisMacOSAsyncCallback (dir : direction) (info : Z) : result (list handled) :=
  match dir with ForRead => Ok [HandleRead info] | ForWrite => Ok [HandleWrite info] end.

(** [calloc] of 24 bytes. A failure after it leaves [ev.data] as it is. *)
Definition redisMacOSAttach (ac : Z) (ev : redisEvents RedisRunLoop) (s : S) :
    result (Z * redisEvents RedisRunLoop * S) :=
  match ev_data ev with
  | To _ | Freed => Ok (REDIS_ERR, ev, s)
  | Null =>
      if negb (malloc_ok 24) then Ok (REDIS_ERR, ev, s) else
      let '(socket, s) := CFSocketCreateWithNative (ctx_fd ac) (true, true) redisMacOSAsyncCallback ac s in
      if negb socket then
        let '(st, p, s) := freeRedisRunLoop (To (mk_runloop ac false false)) s in
        Ok (st, mk_ev p all_hooks, s)
      else
      let '(source, s) := CFSocketCreateRunLoopSource s in
      if negb source then
        let '(st, p, s) := freeRedisRunLoop (To (mk_runloop ac true false)) s in
        Ok (st, mk_ev p all_hooks, s)
      else
      Ok (REDIS_OK, mk_ev (To (mk_runloop ac true true)) all_hooks, CFRunLoopAddSource s)
  end.

#[export] Instance macosx_adapter : Adapter RedisRunLoop S := {|
  addRead rl s := Ok (redisMacOSAddRead rl s);
  delRead rl s := Ok (redisMacOSDelRead rl s);
  addWrite rl s := Ok (redisMacOSAddWrite rl s);
  delWrite rl s := Ok (redisMacOSDelWrite rl s);
  cleanup rl s := Ok (redisMacOSCleanup rl s);
  attach := redisMacOSAttach;
  watches data s fd dir cb :=
    match data with
    | Null => False
    | _ => exists x, cf_view s = Some x /\ cf_scheduled x = true /\ cf_fd x = fd /\
        get_watch dir (cf_enabled x) = true /\ cb = fun _ => cf_callback x dir (cf_info x)
    end;
  delivered dir _ s := cf_called dir s;
  once dir := bool_decide (dir = ForWrite);
  initially := (true, true)
|}.

Definition macosx_sound (ac : Z) (rl : RedisRunLoop) (s : S) (w : watched) : Prop :=
  rl = mk_runloop ac true true /\ cf_view s = Some (mk_cf (ctx_fd ac) redisMacOSAsyncCallback ac w true).

Lemma macosx_watching ac rl s w : macosx_sound ac rl s w -> watching ac rl s w /\ nothing_else ac (To rl) s.
Proof.
  intros [-> Hs]. split.
  - intros dir. cbn. rewrite Hs. split; [intros E; by do 2 eexists; split_and!|].
    intros cb (x & [= <-] & _ & _ & Hw & ->). split; [done|]. by destruct dir.
  - intros fd dir cb Hne (x & E & _ & <- & _). rewrite Hs in E. by injection E as <-.
Qed.

Definition macosx_laws {LL : CoreFoundationLaws (direction -> Z -> result (list handled)) S}
    (malloc_total : forall n, malloc_ok n = true) : AdapterLaws RedisRunLoop S.
Proof.
  refine {| sound := macosx_sound; unknown := fun _ _ => True |}.
  - intros ac hooks s _ _. unfold attach, macosx_adapter, redisMacOSAttach. cbn [ev_data].
    rewrite malloc_total. cbn [negb].
    destruct (cf_create_view (ctx_fd ac) (true, true) redisMacOSAsyncCallback ac s) as [H1 V1].
    destruct (CFSocketCreateWithNative _ _ _ _ _) as [b1 s1]. cbn [fst snd] in H1, V1. subst b1. cbn [negb].
    destruct (cf_source_view s1) as [H2 V2]. destruct (CFSocketCreateRunLoopSource s1) as [b2 s2].
    cbn [fst snd] in H2, V2. subst b2. cbn [negb]. do 2 eexists. split; [reflexivity|].
    assert (macosx_sound ac (mk_runloop ac true true) (CFRunLoopAddSource s2) (true, true)) as Hs.
    { split; [done|]. by rewrite cf_add_view, V2, V1. }
    split; [done|]. apply others_nothing; [by intros ? ? ? _ []|by eapply macosx_watching].
  - intros u ac rl s w Hu Hs.
    assert (exists s', run_use u (To rl) s = Ok (To rl, s') /\ macosx_sound ac rl s' (wants once u w))
      as (s' & E & Hs').
    { destruct Hs as [-> Hs]. unfold macosx_sound. destruct u as [[]|[]]; try done; eexists; (split; [reflexivity|]); cbn;
        by rewrite ?cf_enable_view, ?cf_disable_view, ?cf_called_view, ?Hs. }
    exists rl, s'. split_and!; [done..|]. apply others_nothing; by eapply macosx_watching.
  - intros ac rl s w Hs. by apply macosx_watching.
  - intros ac rl s w Hs. pose proof (proj2 (macosx_watching _ _ _ _ Hs)) as Ho. destruct Hs as [-> Hs].
    do 2 eexists. split; [reflexivity|]. cbn [snd rl_source rl_socket].
    match goal with |- (forall dir cb, ~ watches ?d ?t _ _ _) /\ _ =>
      assert (forall fd dir cb, ~ watches d t fd dir cb) as Hn end.
    { intros fd dir cb (x & E & _). by rewrite cf_release, cf_invalid in E. }
    split; [intros; apply Hn|]. apply others_nothing; [done|by intros ? ? ? _; apply Hn].
Defined.

(** When the socket or its source cannot be made, [ev.data] points to memory
    that was freed: the next hook uses it. *)
Lemma macosx_attach_fails ac hooks s ev s' e :
  redisMacOSAttach ac (mk_ev Null hooks) s = Ok (REDIS_ERR, ev, s') -> malloc_ok 24 = true ->
  e ∈ [EvAddRead; EvDelRead; EvAddWrite; EvDelWrite; EvCleanup] ->
  call_hook e (ev_data ev) s' = Fault OutOfBounds.
Proof.
  unfold redisMacOSAttach. cbn [ev_data]. intros H Hm He. rewrite Hm in H. cbn [negb] in H.
  assert (ev = mk_ev Freed all_hooks) as ->.
  { destruct (CFSocketCreateWithNative _ _ _ _ s) as [[] s1]; cbn in H; [|by injection H].
    destruct (CFSocketCreateRunLoopSource s1) as [[] s2]; cbn in H; [done|by injection H]. }
  rewrite !elem_of_cons, elem_of_nil in He. by destruct He as [->|[->|[->|[->|[->|[]]]]]].
Qed.
End macosx.

(** ** Events of a base (adapters/libevent.h)

    [event_new], which may give [NULL], [event_add], [event_del] and [event_free];
    [base_events] are the events that exist, active when they are pending.
    [event_called] is what the base does to an event when it calls: the events of
    the adapter do not persist. *)
Class EventBase (C S : Type) := {
  event_new : Z -> direction -> C -> S -> Z * S;
  event_add : Z -> S -> S;
  event_del : Z -> S -> S;
  event_free : Z -> S -> S;
  event_called : Z -> S -> S;
  base_events : S -> gmap Z (ev_io C)
}.

Class EventBaseLaws (C S : Type) {L : EventBase C S} := {
  event_new_events : forall fd d cb s, let p := (event_new fd d cb s).1 in
    p <> NULL /\ base_events s !! p = None /\
    base_events (event_new fd d cb s).2 = <[p := mk_io cb fd d false]> (base_events s);
  event_add_events : forall p s, base_events (event_add p s) = alter (io_set true) p (base_events s);
  event_del_events : forall p s, base_events (event_del p s) = alter (io_set false) p (base_events s);
  event_called_events : forall p s, base_events (event_called p s) = alter (io_set false) p (base_events s);
  event_free_events : forall p s, base_events (event_free p s) = delete p (base_events s)
}.

(** [rev] and [wev] are pointers; [Worker] has whether they are pending. *)
Record redisLibeventEvents : Type := mk_libevent {
  lbe_context : Z;
  lbe_rev : Z;
  lbe_wev : Z
}.

Section libevent.
Context {M : Malloc} {CX : Contexts} {S : Type} {L : EventBase (callback redisLibeventEvents) S}.

Definition redisLibeventReadEvent (e : redisLibeventEvents) : result (list handled) := Ok [HandleRead (lbe_context e)].
Definition redisLibeventWriteEvent (e : redisLibeventEvents) : result (list handled) := Ok [HandleWrite (lbe_context e)].

Definition redisLibeventAddRead (e : redisLibeventEvents) (s : S) : redisLibeventEvents * S := (e, event_add (lbe_rev e) s).
Definition redisLibeventDelRead (e : redisLibeventEvents) (s : S) : redisLibeventEvents * S := (e, event_del (lbe_rev e) s).
Definition redisLibeventAddWrite (e : redisLibeventEvents) (s : S) : redisLibeventEvents * S := (e, event_add (lbe_wev e) s).
Definition redisLibeventDelWrite (e : redisLibeventEvents) (s : S) : redisLibeventEvents * S := (e, event_del (lbe_wev e) s).

Definition redisLibeventCleanup (e : redisLibeventEvents) (s : S) : pointer redisLibeventEvents * S :=
  (Freed, event_free (lbe_wev e) (event_free (lbe_rev e) s)).

(** [sizeof(redisLibeventEvents)] is 24; neither [malloc] nor the events are
    checked. *)
Definition redisLibeventAttach (ac : Z) (ev : redisEvents redisLibeventEvents) (s : S) :
    result (Z * redisEvents redisLibeventEvents * S) :=
  match ev_data ev with
  | To _ | Freed => Ok (REDIS_ERR, ev, s)
  | Null =>
      if negb (malloc_ok 24) then Fault NullDeref else
      let '(r, s) := event_new (ctx_fd ac) ForRead redisLibeventReadEvent s in
      let '(w, s) := event_new (ctx_fd ac) ForWrite redisLibeventWriteEvent s in
      if (r =? NULL) || (w =? NULL) then Fault NullDeref else
      Ok (REDIS_OK, mk_ev (To (mk_libevent ac r w)) all_hooks, event_add w (event_add r s))
  end.

Definition lbe_member (dir : direction) (e : redisLibeventEvents) : Z :=
  match dir with ForRead => lbe_rev e | ForWrite => lbe_wev e end.
Definition lbe_callback (dir : direction) : callback redisLibeventEvents :=
  match dir with ForRead => redisLibeventReadEvent | ForWrite => redisLibeventWriteEvent end.

#[export] Instance libevent_adapter : Adapter redisLibeventEvents S := {|
  addRead e s := Ok (redisLibeventAddRead e s);
  delRead e s := Ok (redisLibeventDelRead e s);
  addWrite e s := Ok (redisLibeventAddWrite e s);
  delWrite e s := Ok (redisLibeventDelWrite e s);
  cleanup e s := Ok (redisLibeventCleanup e s);
  attach := redisLibeventAttach;
  watches _ s fd dir cb := exists p, base_events s !! p = Some (mk_io cb fd dir true);
  delivered dir e s := event_called (lbe_member dir e) s;
  once _ := true;
  initially := (true, true)
|}.

(** Pending events for the descriptor of [ac] are the members of [e]. *)
Record libevent_sound (ac : Z) (e : redisLibeventEvents) (s : S) (w : watched) : Prop := {
  ls_context : lbe_context e = ac;
  ls_member dir : base_events s !! lbe_member dir e =
    Some (mk_io (lbe_callback dir) (ctx_fd ac) dir (get_watch dir w));
  ls_mine p i : base_events s !! p = Some i -> io_fd i = ctx_fd ac -> io_active i = true ->
    exists dir, p = lbe_member dir e
}.
Definition libevent_fresh (ac : Z) (s : S) : Prop :=
  forall p i, base_events s !! p = Some i -> io_fd i = ctx_fd ac -> io_active i = false.

Definition base_frame (ac : Z) (s s' : S) : Prop :=
  forall p i, io_fd i <> ctx_fd ac -> base_events s' !! p = Some i <-> base_events s !! p = Some i.

Lemma libevent_others ac d s d' s' : base_frame ac s s' -> others ac d s d' s'.
Proof. intros Hf fd dir cb Hne. cbn. by apply exist_proper; intros p; apply Hf. Qed.

(** One of its events is added or deleted. *)
Lemma libevent_set ac e s w dir b s' : libevent_sound ac e s w ->
  base_events s' = alter (io_set b) (lbe_member dir e) (base_events s) ->
  libevent_sound ac e s' (set_watch dir b w) /\ base_frame ac s s'.
Proof.
  intros [Hc Hm Hall] Hs'. split; [split|].
  - done.
  - intros d. rewrite get_set_watch, Hs'. case_decide as Hd.
    + subst d. by rewrite lookup_alter_eq, Hm.
    + rewrite lookup_alter_ne, Hm; [done|]. intros E. pose proof (Hm dir) as H. rewrite E, Hm in H. congruence.
  - intros p i. rewrite Hs'. intros Hp Hf Ha. destruct (decide (lbe_member dir e = p)) as [<-|Hne]; [by exists dir|].
    rewrite lookup_alter_ne in Hp by done. by apply (Hall p i).
  - intros p i Hf. rewrite Hs'. destruct (decide (lbe_member dir e = p)) as [<-|Hne]; [|by rewrite lookup_alter_ne].
    rewrite lookup_alter_eq, Hm. cbn. split; intros [= <-]; by destruct Hf.
Qed.

Section laws.
Context {LL : EventBaseLaws (callback redisLibeventEvents) S}.

Lemma libevent_use u ac e s w : u <> Hook EvCleanup -> libevent_sound ac e s w -> exists s',
  run_use u (To e) s = Ok (To e, s') /\ libevent_sound ac e s' (wants once u w) /\ base_frame ac s s'.
Proof.
  intros Hu Hs. destruct u as [[]|dir]; try done; try (by exists s); eexists; (split; [reflexivity|]).
  - apply (libevent_set ac e s w ForRead true _ Hs), event_add_events.
  - apply (libevent_set ac e s w ForRead false _ Hs), event_del_events.
  - apply (libevent_set ac e s w ForWrite true _ Hs), event_add_events.
  - apply (libevent_set ac e s w ForWrite false _ Hs), event_del_events.
  - apply (libevent_set ac e s w dir false _ Hs), event_called_events.
Qed.

Lemma libevent_attach ac hooks s : (forall n, malloc_ok n = true) -> libevent_fresh ac s -> exists e s',
  redisLibeventAttach ac (mk_ev Null hooks) s = Ok (REDIS_OK, mk_ev (To e) all_hooks, s') /\
  libevent_sound ac e s' (true, true) /\ base_frame ac s s'.
Proof.
  intros Hmalloc Hfresh. unfold redisLibeventAttach. cbn [ev_data]. rewrite Hmalloc. cbn [negb].
  destruct (event_new_events (ctx_fd ac) ForRead redisLibeventReadEvent s) as (R1 & R2 & R3).
  destruct (event_new _ ForRead _ s) as [r s1]. cbn [fst snd] in R1, R2, R3.
  destruct (event_new_events (ctx_fd ac) ForWrite redisLibeventWriteEvent s1) as (W1 & W2 & W3).
  destruct (event_new _ ForWrite _ s1) as [w s2]. cbn [fst snd] in W1, W2, W3.
  bool_false (r =? NULL). bool_false (w =? NULL). cbn [orb].
  assert (w <> r) as Hwr by (intros ->; by rewrite R3, lookup_insert_eq in W2).
  assert (libevent_sound ac (mk_libevent ac r w) s2 (false, false)) as Hs2.
  { split; [done|..].
    - intros []; cbn; rewrite W3, R3; [by rewrite lookup_insert_ne, lookup_insert_eq|by rewrite lookup_insert_eq].
    - intros p i. rewrite W3, R3. intros [[<- <-]|[_ [[<- <-]|[_ Hp]]%lookup_insert_Some]]%lookup_insert_Some;
        [done|done|]. intros Hf Ha. by rewrite (Hfresh p i Hp Hf) in Ha. }
  destruct (libevent_use (Hook EvAddRead) ac _ s2 _ ltac:(done) Hs2) as (s3 & E3 & Hs3 & F3).
  destruct (libevent_use (Hook EvAddWrite) ac _ s3 _ ltac:(done) Hs3) as (s4 & E4 & Hs4 & F4).
  cbn in E3, E4. injection E3 as <-. injection E4 as <-. do 2 eexists. split; [reflexivity|]. split; [done|].
  intros p i Hf. rewrite (F4 p i Hf), (F3 p i Hf), W3, R3, !lookup_insert_Some. split.
  - intros [[_ <-]|[_ [[_ <-]|[_ Hp]]]]; [by destruct Hf..|done].
  - intros Hp. right. split; [intros <-; rewrite R3, lookup_insert_ne, Hp in W2 by congruence; done|].
    right. split; [|done]. intros <-. congruence.
Qed.

Definition libevent_laws (malloc_total : forall n, malloc_ok n = true) : AdapterLaws redisLibeventEvents S.
Proof.
  refine {| sound := libevent_sound; unknown := libevent_fresh |}.
  - intros ac hooks s _ Hfresh. destruct (libevent_attach ac hooks s malloc_total Hfresh) as (e & s' & E & Hs & Hf).
    exists e, s'. split_and!; [done..|by apply (libevent_others ac Null)].
  - intros u ac e s w Hu Hs. destruct (libevent_use u ac e s w Hu Hs) as (s' & E & Hs' & Hf).
    exists e, s'. split_and!; [done..|by apply (libevent_others ac (To e))].
  - intros ac e s w [Hc Hm Hall] dir. split; [intros E; exists (lbe_callback dir), (lbe_member dir e); by rewrite Hm, E|].
    intros cb (p & Hp). destruct (Hall p _ Hp eq_refl eq_refl) as (d & ->). rewrite Hm in Hp.
    injection Hp as <- -> E. split; [done|]. subst ac. by destruct dir.
  - intros ac e s w [Hc Hm Hall]. do 2 eexists. split; [reflexivity|]. split.
    + intros dir cb (p & Hp). rewrite !event_free_events in Hp.
      apply lookup_delete_Some in Hp as [H1 [H2 Hp]%lookup_delete_Some].
      destruct (Hall p _ Hp eq_refl eq_refl) as ([] & ->); done.
    + apply (libevent_others ac (To e)). intros p i Hf. rewrite !event_free_events, !lookup_delete_Some.
      split; [tauto|]. intros Hp. split_and!; [..|done]; intros <-.
      * pose proof (Hm ForWrite) as H. cbn in H. rewrite Hp in H. injection H as ->. by destruct Hf.
      * pose proof (Hm ForRead) as H. cbn in H. rewrite Hp in H. injection H as ->. by destruct Hf.
Defined.
End laws.
End libevent.

(** The redis worker keeps whether the two events are pending: what its hooks
    and its loop do to them. *)
Definition worker_use (u : use) (d : option Worker.redisLibeventEvents) : option Worker.redisLibeventEvents :=
  match u with
  | Hook e => Worker.hook e d
  | Ready ForRead => (fun ev => mk_events false (le_wev ev)) <$> d
  | Ready ForWrite => (fun ev => mk_events (le_rev ev) false) <$> d
  end.

Lemma worker_uses us : forall w, Hook EvCleanup ∉ us ->
  foldl (fun d u => worker_use u d) (Some (mk_events w.1 w.2)) us =
    Some (let w := foldl (fun w u => wants (fun _ => true) u w) w us in mk_events w.1 w.2).
Proof.
  induction us as [|u us IH]; intros w Hev; [done|].
  apply not_elem_of_cons in Hev as [Hu Hev]. cbn [foldl]. rewrite <- IH by done.
  f_equal. by destruct u as [[]|[]].
Qed.

(** ** All adapters *)

(** C8: an adapter that is attached to a context tells its event library what
    to watch: after any hooks and any calls of the library, in any order, the
    library watches the descriptor of the context for what the hooks asked for and
    nothing else, and what it would call hands the event to that context; what it
    watches of other descriptors stays as it was; and after the cleanup it watches
    the descriptor no more. This holds for each of the eight adapters. libevent
    stops to watch when it has called, Core Foundation does for writing; the
    adapters differ in what they watch at first. The two flags of the redis worker
    ([Worker.hook]) are what libevent watches. *)
Theorem adapters_follow {M : Malloc} {CX : Contexts} {S1 S2 S3 S4 S5 S6 S7 S8 : Type}
    {L1 : Libev (callback redisLibevEvents) S1} {L2 : Ae (callback redisAeEvents) S2}
    {L3 : Qt (callback RedisQtAdapter) S3} {L4 : Uv (Z -> Z -> callback redisLibuvEvents) S4}
    {L5 : Glib RedisSource S5} {L6 : Ivykis (Z -> result (list handled)) S6}
    {L7 : CoreFoundation (direction -> Z -> result (list handled)) S7}
    {L8 : EventBase (callback redisLibeventEvents) S8} :
  (forall n, malloc_ok n = true) ->
  LibevLaws (callback redisLibevEvents) S1 -> AeLaws (callback redisAeEvents) S2 ->
  QtLaws (callback RedisQtAdapter) S3 -> UvLaws (Z -> Z -> callback redisLibuvEvents) S4 ->
  GlibLaws RedisSource S5 -> IvykisLaws (Z -> result (list handled)) S6 ->
  CoreFoundationLaws (direction -> Z -> result (list handled)) S7 ->
  EventBaseLaws (callback redisLibeventEvents) S8 ->
  follows (libev_adapter (S := S1)) (fun _ _ => True) /\
  follows (ae_adapter (S := S2)) ae_fresh /\
  follows (qt_adapter (S := S3)) qt_fresh /\
  follows (uv_adapter (S := S4)) (fun _ _ => True) /\
  follows (glib_adapter (S := S5)) (fun _ _ => True) /\
  follows (ivykis_adapter (S := S6)) (fun _ _ => True) /\
  follows (macosx_adapter (S := S7)) (fun _ _ => True) /\
  follows (libevent_adapter (S := S8)) libevent_fresh /\
  (forall us w, Hook EvCleanup ∉ us -> foldl (fun d u => worker_use u d) (Some (mk_events w.1 w.2)) us =
    Some (let w := foldl (fun w u => wants (once (Adapter := libevent_adapter (S := S8))) u w) w us in mk_events w.1 w.2)).
Proof.
  intros Hm H1 H2 H3 H4 H5 H6 H7 H8. split_and!.
  - exact (laws_follow (libev_laws Hm)).
  - exact (laws_follow (ae_laws Hm)).
  - exact (laws_follow qt_laws).
  - exact (laws_follow (uv_laws Hm)).
  - exact (laws_follow glib_laws).
  - exact (laws_follow (ivykis_laws Hm)).
  - exact (laws_follow (macosx_laws Hm)).
  - exact (laws_follow (libevent_laws Hm)).
  - exact worker_uses.
Qed.

(** ** Small libraries *)
Section small.
Context (C : Type).

Definition small_libev : Libev C (libev_watcher -> option (ev_io C)) := {|
  ev_io_size := 48;
  ev_io_init w cb fd d s w' := if decide (w = w') then Some (mk_io cb fd d false) else s w';
  ev_io_start w s w' := if decide (w = w') then io_set true <$> s w' else s w';
  ev_io_stop w s w' := if decide (w = w') then io_set false <$> s w' else s w';
  ev_watcher w s := s w
|}.

Definition small_ae : Ae C (Z -> direction -> option C) := {|
  aeCreateFileEvent fd d cb s :=
    if fd <? 1024 then (0, fun fd' d' => if decide (fd = fd' /\ d = d') then Some cb else s fd' d') else (-1, s);
  aeDeleteFileEvent fd d s fd' d' := if decide (fd = fd' /\ d = d') then None else s fd' d';
  aeFileEvent fd d s := s fd d;
  ae_setsize _ := 1024
|}.

(** A number that is no address yet. *)
Definition new_address {A} (m : gmap Z A) : Z := fresh ({[NULL]} ∪ dom m).

Lemma new_address_spec {A} (m : gmap Z A) : new_address m <> NULL /\ m !! new_address m = None.
Proof.
  pose proof (is_fresh ({[NULL]} ∪ dom m)) as H. fold (new_address m) in H.
  rewrite not_elem_of_union, not_elem_of_singleton, not_elem_of_dom in H. exact H.
Qed.

Definition small_qt : Qt C (gmap Z (notifier C)) := {|
  new_QSocketNotifier fd d s := (new_address s, <[new_address s := mk_notifier fd d None]> s);
  connect_activated p cb := alter (fun n => mk_notifier (n_fd n) (n_type n) (Some cb)) p;
  delete_QSocketNotifier p := delete p;
  notifiers s := s
|}.

Definition small_uv : Uv C (Z * option (Z * C)) := {|
  UV_READABLE := 1;
  UV_WRITABLE := 2;
  uv_poll_size := 160;
  uv_poll_init fd _ := (0, (fd, None));
  uv_poll_start events cb s := (s.1, Some (events, cb));
  uv_poll_stop s := (s.1, None);
  uv_close s := (s.1, None);
  uv_fd s := s.1;
  uv_polled s := s.2
|}.

Definition small_glib : Glib C (option (GSourceFuncs C) * bool) := {|
  G_IO_IN := 1;
  G_IO_OUT := 4;
  g_source_new f _ := (Some f, false);
  g_main_context_wakeup s := s;
  g_source_add_poll s := (s.1, true);
  g_source_remove_poll s := (s.1, false);
  source_funcs s := s.1;
  polls s := s.2
|}.

Definition small_ivykis : Ivykis C (option (iv_fd C)) := {|
  iv_fd_size := 96;
  iv_fd_register f _ := Some f;
  iv_fd_unregister _ := None;
  iv_fd_set_handler_in h s := (fun f => mk_iv_fd (iv_no f) h (handler_out f) (cookie f)) <$> s;
  iv_fd_set_handler_out h s := (fun f => mk_iv_fd (iv_no f) (handler_in f) h (cookie f)) <$> s;
  iv_registered s := s
|}.

Definition small_cf : CoreFoundation C (option (cf_socket C)) := {|
  CFSocketCreateWithNative fd types cb i _ := (true, Some (mk_cf fd cb i types false));
  CFSocketCreateRunLoopSource s := (true, s);
  CFRunLoopAddSource s := cf_schedule true <$> s;
  CFSocketEnableCallBacks d s := cf_enable d true <$> s;
  CFSocketDisableCallBacks d s := cf_enable d false <$> s;
  CFRunLoopSourceInvalidate s := cf_schedule false <$> s;
  CFSocketInvalidate _ := None;
  CFRelease_source s := s;
  CFRelease_socket s := s;
  cf_called d s := match d with ForRead => s | ForWrite => cf_enable ForWrite false <$> s end;
  cf_view s := s
|}.

Definition small_libevent : EventBase C (gmap Z (ev_io C)) := {|
  event_new fd d cb s := (new_address s, <[new_address s := mk_io cb fd d false]> s);
  event_add p := alter (io_set true) p;
  event_del p := alter (io_set false) p;
  event_free p := delete p;
  event_called p := alter (io_set false) p;
  base_events s := s
|}.

Lemma small_ae_laws : AeLaws C (Z -> direction -> option C) (L := small_ae).
Proof.
  split; cbn; [|done..].
  intros fd d cb s fd' d' Hf. apply Z.ltb_lt in Hf. by rewrite Hf.
Qed.

Lemma small_qt_laws : QtLaws C (gmap Z (notifier C)) (L := small_qt).
Proof. split; cbn; [|done|done]. intros fd d s. destruct (new_address_spec s). by split_and!. Qed.

Lemma small_libevent_laws : EventBaseLaws C (gmap Z (ev_io C)) (L := small_libevent).
Proof. split; cbn; [|done..]. intros fd d cb s. destruct (new_address_spec s). by split_and!. Qed.
End small.

(** The descriptor 3; a command is written, and its reply is awaited. *)
Definition one_context : Contexts := {| ctx_fd _ := 3 |}.
Definition one_command : list use := [Hook EvAddWrite; Hook EvAddRead; Ready ForWrite; Hook EvDelWrite].

(** [A] watches for reading after the command. *)
Definition awaits {D S} (A : Adapter D S) (s : S) : Prop := exists d s1 d' s2,
  attach 7 (mk_ev Null (mk_hooks false false false false false)) s = Ok (REDIS_OK, mk_ev (To d) all_hooks, s1) /\
  run_uses one_command (To d) s1 = Ok (To d', s2) /\ watching (CX := one_context) 7 d' s2 (true, false).

Lemma follows_awaits {D S} (A : Adapter D S) start s : follows (CX := one_context) A start -> start 7 s ->
  foldl (fun w u => wants once u w) initially one_command = (true, false) -> awaits A s.
Proof.
  intros H Hs E. destruct (H 7 (mk_hooks false false false false false) s one_command) as
    (d & s1 & d' & s2 & data & s3 & H1 & H2 & H3 & _); [done|done|set_solver|].
  rewrite E in H3. by exists d, s1, d', s2.
Qed.

Lemma adapters_follow_witness :
  awaits (libev_adapter (CX := one_context) (M := malloc_yes) (L := small_libev _)) (fun _ => None) /\
  awaits (ae_adapter (CX := one_context) (M := malloc_yes) (L := small_ae _)) (fun _ _ => None) /\
  awaits (qt_adapter (CX := one_context) (L := small_qt _)) ∅ /\
  awaits (uv_adapter (CX := one_context) (M := malloc_yes) (L := small_uv _)) (0, None) /\
  awaits (glib_adapter (CX := one_context) (L := small_glib _)) (None, false) /\
  awaits (ivykis_adapter (CX := one_context) (M := malloc_yes) (L := small_ivykis _)) None /\
  awaits (macosx_adapter (CX := one_context) (M := malloc_yes) (L := small_cf _)) None /\
  awaits (libevent_adapter (CX := one_context) (M := malloc_yes) (L := small_libevent _)) ∅ /\
  foldl (fun d u => worker_use u d) (Some (mk_events true true)) one_command = Some (mk_events true false).
Proof.
  destruct (adapters_follow (CX := one_context) (M := malloc_yes) (L1 := small_libev _) (L2 := small_ae _) (L3 := small_qt _)
    (L4 := small_uv _) (L5 := small_glib _) (L6 := small_ivykis _) (L7 := small_cf _) (L8 := small_libevent _))
    as (H1 & H2 & H3 & H4 & H5 & H6 & H7 & H8 & H9);
    [done|done|apply small_ae_laws|apply small_qt_laws|done|done|done|done|apply small_libevent_laws|].
  split_and!.
  - by apply (follows_awaits _ _ _ H1).
  - by apply (follows_awaits _ _ _ H2).
  - by apply (follows_awaits _ _ _ H3).
  - by apply (follows_awaits _ _ _ H4).
  - by apply (follows_awaits _ _ _ H5).
  - by apply (follows_awaits _ _ _ H6).
  - by apply (follows_awaits _ _ _ H7).
  - by apply (follows_awaits _ _ _ H8).
  - apply (H9 one_command (true, true)). set_solver.
Defined.
