(* ===== verification/Services.v ===== *)
(** * Services: the HTTP server, eventfds, the heartbeat and the logger

    httpServer.cpp and httpRequest.cpp of translib over evhttp, eventServer.h and
    eventClient.h, heartbeat.h, and logger.hpp with logger.cpp. The application is
    a parameter: what a handler of requests does with a request, and whether a
    ping is answered. *)
From S2P Require Import Prelude Mem Sds SdsFacts StdMap Timers.
From stdpp Require Import list list_numbers strings sets gmap.
From Stdlib Require Import ZArith Lia.
Open Scope Z_scope.

(** ** HTTP

    What evhttp does: [evhttp_find_header] looks up a header of a request,
    [evhttp_decode] replaces the escapes of a path, [evhttp_new] and
    [evhttp_bind_socket] may fail, and [printed] is what [evbuffer_add_printf] adds
    for a format that is given no arguments, whatever it reads for the conversions
    of the format. *)
Class Evhttp (R : Type) := {
  evhttp_request_get_uri : R -> bytes;
  evhttp_uri_get_path : R -> bytes;
  evhttp_decode : bytes -> bytes;
  evhttp_uri_get_host : R -> option bytes;
  evhttp_uri_get_port : R -> Z;
  evhttp_request_get_command : R -> Z;
  evhttp_find_header : R -> bytes -> option bytes;
  evhttp_new_ok : bool;
  evhttp_bind_ok : bytes -> Z -> bool;
  printed : bytes -> bytes
}.

(** What is called for a request: headers of the reply, and the reply. *)
Inductive http_call : Type :=
  | RemoveHeader (key : bytes)
  | AddHeader (key value : bytes)
  | ReplyStart (code : Z) (reason : bytes)
  | ReplyChunk (data : bytes)
  | ReplyEnd.

Definition HTTP_OK : Z := 200.
Definition HTTP_NOTFOUND : Z := 404.
Definition CONNECTION_KEY : bytes := lit "Connection".
Definition CONNECTION_VALUE : bytes := lit "keep-alive".

Section http.
Context {R : Type} {E : Evhttp R}.

(** [_buffer] and what was called so far. *)
Record HttpRequest : Type := mk_request {
  _req : R;
  _buffer : bytes;
  rq_calls : list http_call
}.

Definition new_HttpRequest (req : R) : HttpRequest := mk_request req [] [].

Definition getUri (r : HttpRequest) : bytes := evhttp_request_get_uri (_req r).
Definition getPath (r : HttpRequest) : bytes := evhttp_uri_get_path (_req r).
Definition getHost (r : HttpRequest) : option bytes := evhttp_uri_get_host (_req r).
Definition getPort (r : HttpRequest) : Z := u16 (evhttp_uri_get_port (_req r)).
Definition getCommand (r : HttpRequest) : Z := evhttp_request_get_command (_req r).
Definition findHeaders (key : bytes) (r : HttpRequest) : option bytes := evhttp_find_header (_req r) key.

Definition setHeader (key value : bytes) (r : HttpRequest) : HttpRequest :=
  mk_request (_req r) (_buffer r) (rq_calls r ++ [RemoveHeader key; AddHeader key value]).
Definition setBody (content : bytes) (r : HttpRequest) : HttpRequest :=
  mk_request (_req r) (_buffer r ++ printed content) (rq_calls r).

(** Sending a chunk empties the buffer. *)
Definition setChunk (content : bytes) (r : HttpRequest) : HttpRequest :=
  mk_request (_req r) [] (rq_calls r ++ [ReplyChunk (_buffer r ++ printed content)]).

(** What a handler calls. *)
Inductive http_action : Type :=
  | SetHeader (key value : bytes)
  | SetBody (content : bytes)
  | SetChunk (content : bytes).

Definition http_act (r : HttpRequest) (a : http_action) : HttpRequest :=
  match a with
  | SetHeader key value => setHeader key value r
  | SetBody content => setBody content r
  | SetChunk content => setChunk content r
  end.

(** The application: what handler [h] does with a request. *)
Context (handler : Z -> R -> list http_action).

(** The server; [_http] says whether it listens. *)
Record HttpServer : Type := mk_http {
  _ip : bytes;
  _port : Z;
  _http : bool;
  _handlers : list (bytes * Z)
}.

Definition new_HttpServer : HttpServer := mk_http [] 0 false [].

Definition http_listen (ip : bytes) (port : Z) (s : HttpServer) : bool * HttpServer :=
  if _http s then (false, s) else
  if negb evhttp_new_ok then (false, s) else
  if negb (evhttp_bind_ok ip port) then (false, mk_http (_ip s) (_port s) false (_handlers s)) else
  (true, mk_http ip port true (_handlers s)).

(** evhttp is given the address of the handler in the map. *)
Definition regHandler (path : bytes) (h : Z) (s : HttpServer) : HttpServer :=
  if negb (_http s) then s
  else mk_http (_ip s) (_port s) (_http s) (std_set path h (_handlers s)).

Definition genericCallback : list http_call := [ReplyStart HTTP_NOTFOUND (lit "not found"); ReplyEnd].

(** [strncmp(CONNECTION_VALUE, value, strlen(CONNECTION_VALUE)) == 0], for a
    value without zeros. *)
Definition keeps_alive (value : bytes) : bool :=
  bool_decide (take (length CONNECTION_VALUE) value = CONNECTION_VALUE).

Definition mainCallback (req : R) (h : Z) : list http_call :=
  let request := foldl http_act (new_HttpRequest req) (handler h req) in
  let keep := match findHeaders CONNECTION_KEY request with
              | Some value => keeps_alive value
              | None => false
              end in
  rq_calls request ++ (if keep then [AddHeader CONNECTION_KEY CONNECTION_VALUE] else []) ++
  [ReplyStart HTTP_OK (lit "OK"); ReplyChunk (_buffer request); ReplyEnd].

(** A request: evhttp calls the callback that was set for its path, in which
    it decodes the escapes, or the generic one. *)
Definition on_request (req : R) (s : HttpServer) : list http_call :=
  match std_find (evhttp_decode (evhttp_uri_get_path req)) (_handlers s) with
  | Some h => mainCallback req h
  | None => genericCallback
  end.

(** The body and the headers that a handler sets, when it sends no chunks. *)
Definition body_of (l : list http_action) : bytes :=
  flat_map (fun a => match a with SetBody c => printed c | _ => [] end) l.
Definition headers_of (l : list http_action) : list http_call :=
  flat_map (fun a => match a with SetHeader k v => [RemoveHeader k; AddHeader k v] | _ => [] end) l.

Definition plain_action (a : http_action) : Prop := match a with SetChunk _ => False | _ => True end.

Lemma http_acts l : forall r, Forall plain_action l ->
  foldl http_act r l = mk_request (_req r) (_buffer r ++ body_of l) (rq_calls r ++ headers_of l).
Proof.
  induction l as [|a l IH]; intros r Hl; cbn [foldl body_of headers_of flat_map].
  { rewrite !app_nil_r. by destruct r. }
  apply Forall_cons in Hl as [Ha Hl]. rewrite (IH (http_act r a) Hl). unfold body_of, headers_of.
  destruct a; cbn [http_act setHeader setBody _req _buffer rq_calls flat_map] in *; [| |done];
    by rewrite ?app_nil_l, <- ?app_assoc.
Qed.

(** One reply for a request whose handler sends no chunks of its own. *)
Lemma mainCallback_reply req h : Forall plain_action (handler h req) -> exists keep,
  mainCallback req h = headers_of (handler h req) ++ keep ++
    [ReplyStart HTTP_OK (lit "OK"); ReplyChunk (body_of (handler h req)); ReplyEnd] /\
  (keep = [] \/ keep = [AddHeader CONNECTION_KEY CONNECTION_VALUE]).
Proof.
  intros Hl. unfold mainCallback. rewrite http_acts by done. cbn [_buffer rq_calls new_HttpRequest app].
  eexists. split; [reflexivity|]. destruct (findHeaders _ _) as [v|]; [|by left].
  destruct (keeps_alive v); [by right|by left].
Qed.

(** The handler that answers a path is the last one given for it since the
    server listens. *)
Fixpoint last_handler (path : bytes) (regs : list (bytes * Z)) (old : option Z) : option Z :=
  match regs with
  | [] => old
  | (p, h) :: regs => last_handler path regs (if decide (path = p) then Some h else old)
  end.

Lemma regs_last regs : forall s path, _http s = true ->
  std_find path (_handlers (foldl (fun s x => regHandler x.1 x.2 s) s regs)) =
    last_handler path regs (std_find path (_handlers s)).
Proof.
  induction regs as [|[p h] regs IH]; intros s path Hs; [done|]. cbn [foldl last_handler fst snd].
  unfold regHandler at 2. rewrite Hs. cbn [negb]. rewrite IH by done. cbn [_handlers]. f_equal.
  rewrite find_set. by destruct (decide (path = p)).
Qed.

(** Handlers that are given before the server listens are dropped. *)
Lemma regs_before regs : forall s, _http s = false -> foldl (fun s x => regHandler x.1 x.2 s) s regs = s.
Proof.
  induction regs as [|[p h] regs IH]; intros s Hs; [done|]. cbn [foldl fst snd].
  unfold regHandler at 2. rewrite Hs. cbn [negb]. by apply IH.
Qed.

(** C38: a server that listens answers a request with the handler that was
    registered last for its path; when handlers send no chunks of their own,
    the answer is one reply with the headers that the handler set, then 200 and a
    body, which is what [evbuffer_add_printf] makes of each content that the
    handler set, taken as a format; a path without a handler is answered 404; and
    handlers that were registered before the server listens are lost. *)
Theorem http_answers regs0 regs ip port s req :
  http_listen ip port (foldl (fun s x => regHandler x.1 x.2 s) new_HttpServer regs0) = (true, s) ->
  (forall h, Forall plain_action (handler h req)) ->
  on_request req (foldl (fun s x => regHandler x.1 x.2 s) s regs) =
  match last_handler (evhttp_decode (evhttp_uri_get_path req)) regs None with
  | Some h => headers_of (handler h req) ++
      (if match evhttp_find_header req CONNECTION_KEY with Some v => keeps_alive v | None => false end
       then [AddHeader CONNECTION_KEY CONNECTION_VALUE] else []) ++
      [ReplyStart HTTP_OK (lit "OK"); ReplyChunk (body_of (handler h req)); ReplyEnd]
  | None => [ReplyStart HTTP_NOTFOUND (lit "not found"); ReplyEnd]
  end.
Proof.
  intros Hl Hp. rewrite regs_before in Hl by done. unfold http_listen in Hl. cbn [_http new_HttpServer] in Hl.
  destruct evhttp_new_ok, (evhttp_bind_ok ip port); cbn [negb] in Hl; try done.
  injection Hl as <-.
  unfold on_request. rewrite regs_last by done. cbn [_handlers std_find].
  destruct (last_handler _ _ _) as [h|]; [|done].
  unfold mainCallback, findHeaders. rewrite http_acts by done. reflexivity.
Qed.

(** A chunk that a handler sends goes out before the reply starts. *)
Lemma chunk_before_start req h c : handler h req = [SetChunk c] -> exists rest,
  mainCallback req h = ReplyChunk (printed c) :: rest.
Proof. intros Hh. unfold mainCallback. rewrite Hh. by eexists. Qed.
End http.

(** A client that asks for a path, with or without keep-alive. *)
Definition small_evhttp : Evhttp (bytes * bool) := {|
  evhttp_request_get_uri r := r.1;
  evhttp_uri_get_path r := r.1;
  evhttp_decode path := path;
  evhttp_uri_get_host _ := None;
  evhttp_uri_get_port _ := 80;
  evhttp_request_get_command _ := 1;
  evhttp_find_header r key :=
    if (r.2 : bool) then (if decide (key = CONNECTION_KEY) then Some (lit "keep-alive, Upgrade") else None) else None;
  evhttp_new_ok := true;
  evhttp_bind_ok _ _ := true;
  printed c := c
|}.

Definition hello (h : Z) (_ : bytes * bool) : list http_action :=
  [SetHeader (lit "Server") (lit "translib"); SetBody (lit "hello "); SetBody (if h =? 1 then lit "one" else lit "two")].

Lemma http_answers_witness : exists s,
  http_listen (E := small_evhttp) (lit "0.0.0.0") 80 (regHandler (lit "/early") 9 new_HttpServer) = (true, s) /\
  let s := regHandler (lit "/a") 2 (regHandler (lit "/b") 3 (regHandler (lit "/a") 1 s)) in
  on_request (E := small_evhttp) hello (lit "/early", true) s = [ReplyStart 404 (lit "not found"); ReplyEnd] /\
  on_request (E := small_evhttp) hello (lit "/a", true) s =
    [RemoveHeader (lit "Server"); AddHeader (lit "Server") (lit "translib");
     AddHeader (lit "Connection") (lit "keep-alive"); ReplyStart 200 (lit "OK"); ReplyChunk (lit "hello two"); ReplyEnd].
Proof.
  eexists. split; [reflexivity|]. cbv zeta.
  pose proof (fun path => http_answers (E := small_evhttp) hello [(lit "/early", 9)] [(lit "/a", 1); (lit "/b", 3); (lit "/a", 2)]
    (lit "0.0.0.0") 80 _ (path, true) eq_refl ltac:(intros h; repeat constructor)) as H.
  split; [exact (H (lit "/early"))|exact (H (lit "/a"))].
Defined.

(** ** Eventfds (eventServer.h, eventClient.h) *)

(** [write] of the 8 bytes of 1, given what [write] returns. *)
Definition EventFdClient_send {S} (write : Z -> Z -> S -> Z * S) (eventFd : Z) (s : S) : bool * S :=
  let '(ret, s) := write eventFd 1 s in (ret =? 8, s).

(** An object, and the number of events that exist. The constructor throws
    when a call fails; an object that was not made is not destroyed. *)
Record EventFdServer : Type := mk_server { es_fd : Z; es_event : bool; es_arg : Z }.

Inductive server_error : Type := EVENTFD_EVENT_NEW_ERROR | EVENTFD_EVENT_ADD_ERROR.

Definition new_EventFdServer (new_ok add_ok : bool) (fd arg : Z) (events : Z) :
    (EventFdServer + server_error) * Z :=
  if negb new_ok then (inr EVENTFD_EVENT_NEW_ERROR, events)
  else if negb add_ok then (inr EVENTFD_EVENT_ADD_ERROR, events + 1)
  else (inl (mk_server fd true arg), events + 1).

Definition delete_EventFdServer (e : EventFdServer) (events : Z) : Z :=
  if es_event e then events - 1 else events.

(** The callback was given the first argument for good. *)
Definition set_evfd_arg (arg : Z) (e : EventFdServer) : EventFdServer := mk_server (es_fd e) (es_event e) arg.

(** An object frees the event that it made; when [event_add] fails the event
    stays. *)
Lemma eventfd_events new_ok add_ok fd arg events :
  match new_EventFdServer new_ok add_ok fd arg events with
  | (inl e, n) => delete_EventFdServer e n = events
  | (inr EVENTFD_EVENT_NEW_ERROR, n) => n = events
  | (inr EVENTFD_EVENT_ADD_ERROR, n) => n = events + 1
  end.
Proof. destruct new_ok, add_ok; cbn; lia. Qed.

(** ** The heartbeat (heartbeat.h) *)

(** [timer] is shared with the timer manager; a callback is 0 when it is
    empty. *)
Record heartbeat : Type := mk_heartbeat {
  hb_interval : Z;
  hb_timer : Timer;
  s_cb : Z;
  l_cb : Z
}.

Inductive hb_event : Type :=
  | HbSuccess (cb : Z)
  | HbLost (cb code : Z)
  | HbPing.

Definition new_heartbeat : heartbeat := mk_heartbeat 5000 new_Timer 0 0.
Definition delete_heartbeat (h : heartbeat) : heartbeat :=
  mk_heartbeat (hb_interval h) (stop (hb_timer h)) (s_cb h) (l_cb h).
Definition set_interval (iv : Z) (h : heartbeat) : heartbeat := mk_heartbeat iv (hb_timer h) (s_cb h) (l_cb h).
Definition get_interval (h : heartbeat) : Z := hb_interval h.
Definition set_hb_success_cb (cb : Z) (h : heartbeat) : heartbeat :=
  mk_heartbeat (hb_interval h) (hb_timer h) cb (l_cb h).
Definition set_hb_lost_cb (cb : Z) (h : heartbeat) : heartbeat :=
  mk_heartbeat (hb_interval h) (hb_timer h) (s_cb h) cb.

Definition onHeartbeatLost (h : heartbeat) : list hb_event :=
  if negb (l_cb h =? 0) then [HbLost (l_cb h) 400] else [].
Definition onHeartbeatSuccess (h : heartbeat) : list hb_event :=
  if negb (s_cb h =? 0) then [HbSuccess (s_cb h)] else [].

(** The closure of the timer has the number 1; the result of
    [startForever] is dropped. *)
Definition start {L : Libevent} (h : heartbeat) : heartbeat :=
  mk_heartbeat (hb_interval h) (startForever (hb_interval h) (UserHandler 1) (hb_timer h)).2 (s_cb h) (l_cb h).

(** The closure: [success] is the flag, [answered] what the ping function
    leaves in it. *)
Definition hb_closure (h : heartbeat) (answered success : bool) : list hb_event * bool :=
  ((if success then onHeartbeatSuccess h else onHeartbeatLost h) ++ [HbPing], answered).

(** A run: each event of the timer, with what the ping leaves in the flag, and
    each answer that comes later. *)
Inductive hb_input : Type :=
  | HbTimer (answered : bool)
  | HbAnswer.

Fixpoint hb_run {L : Libevent} (h : heartbeat) (success : bool) (inputs : list hb_input) :
    result (list hb_event * bool * heartbeat) :=
  match inputs with
  | [] => Ok ([], success, h)
  | HbAnswer :: inputs => hb_run h true inputs
  | HbTimer answered :: inputs =>
      '(calls, t) ← fires 1 (hb_timer h);
      let h := mk_heartbeat (hb_interval h) t (s_cb h) (l_cb h) in
      let '(evs, success) := match calls with [] => ([], success) | _ => hb_closure h answered success end in
      '(rest, success, h) ← hb_run h success inputs;
      Ok (evs ++ rest, success, h)
  end.

(** What a watcher that sees only answers would report: the peer is alive when
    it has answered since the ping before. *)
Fixpoint hb_spec (s_cb l_cb : Z) (alive : bool) (inputs : list hb_input) : list hb_event :=
  match inputs with
  | [] => []
  | HbAnswer :: inputs => hb_spec s_cb l_cb true inputs
  | HbTimer answered :: inputs =>
      (if alive then (if negb (s_cb =? 0) then [HbSuccess s_cb] else [])
       else (if negb (l_cb =? 0) then [HbLost l_cb 400] else [])) ++ HbPing :: hb_spec s_cb l_cb answered inputs
  end.

Fixpoint hb_timers (inputs : list hb_input) : Z :=
  match inputs with
  | [] => 0
  | HbTimer _ :: inputs => 1 + hb_timers inputs
  | HbAnswer :: inputs => hb_timers inputs
  end.

Lemma hb_timers_pos inputs : 0 <= hb_timers inputs.
Proof. induction inputs as [|[] inputs IH]; cbn [hb_timers]; lia. Qed.

(** A heartbeat that was started reports at every event of its timer, for
    fewer than 2^32 - 1 of them, and pings each time. *)
Lemma hb_run_spec {L : Libevent} inputs : forall h success e,
  _event (hb_timer h) = Some e -> _handler (hb_timer h) = Some (UserHandler 1) ->
  _round (hb_timer h) = 2 ^ 32 - 1 -> 0 <= _curRound (hb_timer h) ->
  _curRound (hb_timer h) + hb_timers inputs < 2 ^ 32 - 1 -> exists success' h',
  hb_run h success inputs = Ok (hb_spec (s_cb h) (l_cb h) success inputs, success', h').
Proof.
  induction inputs as [|[answered|] inputs IH]; intros h success e He Hh Hr H1 H2;
    cbn [hb_run hb_spec hb_timers] in *.
  - by eexists _, _.
  - pose proof (hb_timers_pos inputs). pose proof (fires_rounds 1 1 (hb_timer h) e He Hh H1) as Hf. cbv zeta in Hf.
    rewrite Hf by lia. replace (1 `min` _)%nat with 1%nat by lia.
    bool_true (Z.of_nat 1 <? Z.max 1 (_round (hb_timer h)) - _curRound (hb_timer h)).
    cbn [mbind result_bind replicate hb_closure].
    destruct (IH (mk_heartbeat (hb_interval h) (set_cur (hb_timer h) (Some e) (_curRound (hb_timer h) + Z.of_nat 1)) (s_cb h) (l_cb h))
      answered e) as (success' & h' & Hrun); cbn [hb_timer set_cur _event _handler _round _curRound];
      [done|done|done|lia|lia|].
    rewrite Hrun. cbn [mbind result_bind]. cbn [s_cb l_cb]. eexists _, _. do 3 f_equal.
    unfold onHeartbeatSuccess, onHeartbeatLost. cbn [s_cb l_cb]. rewrite <- app_assoc. by destruct success.
  - by apply (IH h true e).
Qed.

(** From the constructor: the callbacks and the interval are set, then the
    heartbeat starts. *)
Lemma heartbeat_reports {L : Libevent} iv cb1 cb2 success inputs :
  event_new_ok true = true -> event_add_ok (Z.quot iv 1000, Z.rem iv 1000 * 1000) = true ->
  hb_timers inputs < 2 ^ 32 - 1 -> exists success' h',
  hb_run (start (set_hb_lost_cb cb2 (set_hb_success_cb cb1 (set_interval iv new_heartbeat)))) success inputs
    = Ok (hb_spec cb1 cb2 success inputs, success', h').
Proof.
  intros Hn Ha Hlt. unfold start. cbn [hb_timer hb_interval s_cb l_cb new_heartbeat set_interval set_hb_success_cb set_hb_lost_cb].
  unfold startForever. rewrite startRounds_ok by done. cbn [snd].
  eapply (hb_run_spec inputs (mk_heartbeat _ _ cb1 cb2)); cbn [hb_timer _event _handler _round _curRound]; [done|done|done|done|lia].
Qed.

(** ** The logger (logger.hpp, logger.cpp) *)
Inductive log_level : Type := error | warn | info | debug.

Definition level_value (l : log_level) : Z :=
  match l with error => 0 | warn => 1 | info => 2 | debug => 3 end.

Definition colour (n : Z) : bytes := [27; 91; 49; 59; 51; n; 109].
Definition black : bytes := colour 48.
Definition red : bytes := colour 49.
Definition yellow : bytes := colour 51.
Definition blue : bytes := colour 52.
Definition normal : bytes := [27; 91; 48; 59; 51; 57; 109].

(** Standard output and standard error. *)
Inductive stream : Type := Cout | Cerr.

(** The logger; a copy of it cannot be made, since a mutex cannot. *)
Record logger : Type := mk_logger { m_level : log_level }.

Definition set_log_level (l : log_level) (g : logger) : logger := mk_logger l.

Definition log_line (col name msg file : bytes) (line : Z) : bytes :=
  lit "[" ++ col ++ name ++ normal ++ lit "] [" ++ file ++ lit ":" ++ udec line ++ lit "] " ++ msg ++ [10].

(** [debug], [info], [warn] and [error]. *)
Definition log_message (l : log_level) (msg file : bytes) (line : Z) (g : logger) : list (stream * bytes) :=
  if level_value l <=? level_value (m_level g) then
    match l with
    | debug => [(Cout, log_line black (lit "DEBUG") msg file line)]
    | info => [(Cout, log_line blue (lit "INFO ") msg file line)]
    | warn => [(Cout, log_line yellow (lit "WARN ") msg file line)]
    | error => [(Cerr, log_line red (lit "ERROR") msg file line)]
    end
  else [].

(** [active_logger], at first, and the functions that use it. *)
Definition active_logger : option logger := Some (mk_logger error).

Definition log_active (l : log_level) (msg file : bytes) (line : Z) (g : option logger) : list (stream * bytes) :=
  match g with Some g => log_message l msg file line g | None => [] end.
Definition set_active_level (l : log_level) (g : option logger) : option logger :=
  set_log_level l <$> g.

(** [__LOG(level, msg)] in the function [func]. *)
Definition LOG (l : log_level) (func msg file : bytes) (line : Z) (g : option logger) : list (stream * bytes) :=
  log_active l (lit "[fuction:" ++ func ++ lit "] " ++ msg) file line g.

(** A message is written when its level is at most the one that was set, on one
    line that ends with it, and errors alone go to standard error. *)
Lemma LOG_written l l' func msg file line : exists pre,
  LOG l func msg file line (set_active_level l' active_logger) =
    (if level_value l <=? level_value l'
     then [(match l with error => Cerr | _ => Cout end, pre ++ lit "[fuction:" ++ func ++ lit "] " ++ msg ++ [10])]
     else []).
Proof.
  unfold LOG, log_active, set_active_level, active_logger, log_message, log_line. cbn [fmap option_fmap option_map m_level set_log_level].
  exists (lit "[" ++ (match l with error => red | warn => yellow | info => blue | debug => black end) ++
    (match l with error => lit "ERROR" | warn => lit "WARN " | info => lit "INFO " | debug => lit "DEBUG" end) ++
    normal ++ lit "] [" ++ file ++ lit ":" ++ udec line ++ lit "] ").
  destruct (level_value l <=? level_value l'); [|done]. by destruct l; rewrite <- !app_assoc.
Qed.
